(* ===== verification/_CoqProject ===== *)
-Q . S2P
Prelude.v
Ring.v
Osal.v
Types.v
Nicdrv.v
Datagram.v
ErrorRing.v
Mailbox.v
PoolSpec.v
QueueSpec.v
QueueTheorems.v
Context.v
Eeprom.v
Sii.v
Link.v
Dc.v
AlState.v
MbxHandler.v
MbxClient.v
CoE.v
SoE.v
FoE.v
EoE.v
Config.v
MapGroup.v
ProcessData.v
Cia402.v
Cia402Theorems.v
Num.v
Profile.v
PlanBuild.v
PlanTheorems.v
Motion.v
MotionTheorems.v
PortWf.v
NicRecv.v
Sim.v
NicTheorems.v
DatagramSpec.v
Transfer.v
TransferTheorems.v
LinkSpec.v
EepromSpec.v
EepromSim.v
EepromTheorems.v
SiiTheorems.v
DcSpec.v
DcTheorems.v
TopologyTheorems.v
MapSpec.v
MapTheorems.v
MbxSim.v
MbxHeld.v
FoeTheorems.v
SdoServer.v
SdoTheorems.v
EoeTheorems.v
MbxTheorems.v
Backend.v
RtCycle.v
BackendSys.v
Wire.v
Server.v
Client.v
Servo.v
Database.v
Dll.v
Lms.v
BackendTheorems.v
BackendTypes.v
WireTheorems.v
ServoTheorems.v
CommandTheorems.v
DbTheorems.v
LmsTheorems.v
Monitor.v
MockCore.v
Print.v
Win32.v
Gui.v
