(* ===== verification/Prelude.v ===== *)
(** * SOEM and LMS motion control: verification development

    This library models the EtherCAT master of the repository and proves what makes it
    correct.  It reads bottom up, as the code does: the operating system, the raw socket
    driver, datagrams and transfers, the main functions with their mailboxes, EEPROM, states
    and process data, and the motion control of the real-time core.

    ** How the code is modelled

    C functions are computations of the monad [M S A] below: they take the state [S] and end
    normally ([Ok] with a result and a state) or in a [fault], an access the C language does
    not define.  Faults are never outcomes a theorem may choose: [wp F m Q s] says that [m]
    from [s] ends in [Q] or in a fault of [F], and every theorem that names [no_fault] says
    that no fault happens at all.  Machine integers are of type [Z], with their wrap-around
    written where the code can reach it ([u16], [u32], [s16], ...).  C arrays are lists read
    and written by [zget] and [zset], which fail outside the array.  Pointers into an array
    of objects are indices; the aliasing of buffers (the transmit buffers both stacks share,
    the pool mailboxes the slots of the slaves refer to, the process data image) is kept by
    keeping one copy of the object in the state.

    Loops the source leaves unbounded run on [loop_fuel], a parameter; running out of it is
    the fault [OutOfFuel], so a theorem without faults also says that the loop ends.  The
    bounds needed are hypotheses derived from the clock ([fuel_for] for a timeout:
    the clock advances at every reading, so a loop that watches a timer makes no more rounds
    than the timer has nanoseconds) or are constants of the code.

    The kernel is the class [OS] of Osal.v (clock, sleep, sockets): what is used of it are
    the laws [ClockLaws] and [NetLaws], which Sim.v's simulated kernel satisfies; [NetLaws] asks
    that packets have 60 bytes and a length field within the receive buffer.  A slave
    behind the wire is a parameter too; where a theorem needs one that works it is the class
    [EepromDevice], an extension of the laws [LinkLaws] of a link with a clock; EepromSim.v has
    a slave that satisfies both, with timers that run out.

    ** The parts

    - Prelude.v, Ring.v: the monad and its rules, lists by integer index, machine integers,
      rings.  Types.v: constants of include/soem/ec_type.h and the build options.
    - Osal.v (osal/linux/osal.c, osal/osal.h): clock and timers.
    - Nicdrv.v (oshw/linux/nicdrv.c): frame buffers, indices, sending, sorting of received
      frames, redundancy.  PortWf.v holds the invariant of the port, NicRecv.v the
      lemmas on allocation, reception and waiting, NicTheorems.v the claims.
    - Datagram.v (src/ec_base.c): datagrams and blocking transfers.  DatagramSpec.v has a
      reference reading of the wire format; it and Transfer.v hold the lemmas,
      TransferTheorems.v the claims.
    - ErrorRing.v, Mailbox.v (src/ec_main.c): the error list, the mailbox pool and the
      transmit queue.  Their contracts are abstract queues: [ering_abs] in ErrorRing.v, a
      first-in first-out queue of free mailboxes in PoolSpec.v, a queue of requests with
      tickets in QueueSpec.v and QueueTheorems.v.
    - Context.v (include/soem/ec_main.h): [ecx_contextt], its slaves and groups, and the
      interface [EcLink] between the main functions and the datagram layer.  Link.v
      implements the interface with the driver; LinkSpec.v states what it promises
      ([LinkLaws]) and proves that the driver keeps it.
    - Eeprom.v, Sii.v (src/ec_main.c): EEPROM access and the parser of its contents, with
      EepromSpec.v, EepromSim.v, EepromTheorems.v and SiiTheorems.v.
    - AlState.v, MbxHandler.v, ProcessData.v (src/ec_main.c): slave states, the cyclic mailbox
      handlers, the exchange of process data.  MbxTheorems.v follows each pool
      mailbox through the incoming handler.
    - Dc.v (src/ec_dc.c): distributed clocks.  DcSpec.v states the shape of the tree
      of slaves and simulates a frame that travels through it, DcTheorems.v holds the claims.  LinkSpec.v has a link that answers from an oracle.
    - MbxClient.v (src/ec_main.c): what the mailbox clients share, sending and receiving
      mailboxes with or without the cyclic handler.
    - CoE.v, SoE.v, FoE.v, EoE.v (src/ec_coe.c, ec_soe.c, ec_foe.c, ec_eoe.c): object
      dictionary, servo parameters, files and Ethernet frames.  MbxSim.v is a slave behind a
      link as a function from the mailboxes it gets to its answers ([MailServer]), with a rule
      for each step of a client; MbxHeld.v accounts for the mailboxes a client holds.
      EoeTheorems.v, FoeTheorems.v (over a file server) and SdoTheorems.v (over the dictionary
      server of SdoServer.v) hold the claims.
    - Config.v, MapGroup.v (src/ec_config.c): start of the network, reconfiguration
      and recovery of slaves, the mappings of the process data read from CoE, SoE or the SII,
      and the layout of the process data image.  TopologyTheorems.v holds the claim on the
      parents of the slaves, MapSpec.v and MapTheorems.v those on the segments of the image.
    - Backend.v (igh_lts_backend_server.c, common/ecat_protocol.h): the state the client thread
      and the real-time thread of the backend server share, and what commands and objects do
      to it.  RtCycle.v is the round of rt_thread_main; BackendSys.v lets the two threads
      interleave and holds the claims on the watchdog, BackendTypes.v the one on the types of
      the process data, BackendTheorems.v the one on a move, in closed loop with the drive of
      Cia402Theorems.v and the profiles of Motion.v.
    - Wire.v, Server.v (igh_lts_backend_server.c), Client.v (ethercat_dll/src/
      ethercat_master.c): framing and layout of messages, command line and message handling
      of the server, and the requests of the library.  WireTheorems.v puts the two ends
      together for objects, CommandTheorems.v for motion commands and the status.
    - Dll.v (ethercat_dll/src/ethercat_master.c): the library itself, its settings, the thread
      that cycles the local bus, the status and the objects of slaves.  Servo.v holds the
      commands of a servo over an interface of what they use of the library ([ServoPort]),
      of which Dll.v has the instance; ServoTheorems.v proves over a class of drives that keep
      their objects ([SdoObjects]), of which the library with a slave of SdoServer.v is an
      instance.  Database.v is the database of devices, its index file and the
      reading of device descriptions, over a store of files; DbTheorems.v holds the claims.
    - Lms.v (apps/lms_master/lms_master.c): the commissioning tool for linear motors, a client
      of the main functions of its own: options, map of stators, planner, outputs and the
      cyclic run; LmsTheorems.v holds the claims.
    - Monitor.v (igh_lts_monitor.c): the stand-alone monitor of one drive, over the class
      [IghMaster] of the calls of the IgH master and the clock.  Its claims are proved for
      every master that behaves like a bus ([MasterLaws]), of which the file has a simulation.
    - MockCore.v (ethercat_rt_core.c): the mock of the real-time core, a second server of the
      protocol of Wire.v, with its claim on a session.
    - Print.v (src/ec_print.c): tables of messages, the text of an error, and the printing of
      the error list of ErrorRing.v, with the claim on their order.
    - Gui.v (apps/ethercat_gui/ethercat_gui.c): the graphical client, its motion commands and
      the thread that repeats a motion as a system of steps, its log, the list of objects and
      the values of its motion tab.
    - Win32.v (osal/win32/osal.c, oshw/win32/nicdrv.c): clock, sleep and driver of the Windows
      port, over the class [Win32] of the calls of the system and of pcap, which makes an
      instance of [OS].
    - Cia402.v, Profile.v (linux_rt/ethercat_rt_core/src/motion_cia402.c): drive states and
      power sequences, and the profile generators, over the numbers of the class [Num] (Num.v:
      IEEE binary64, on which they run, and the real numbers, on which they are proved).
      Cia402Theorems.v; PlanBuild.v, PlanTheorems.v for the seven-segment plan; Motion.v
      for the trapezoidal step and, with MotionTheorems.v, for a whole command.

    ** What the theorems show

    - Reception: no packet whose length field is honest makes the driver leave its buffers (one
      that lies does), a frame for another caller is kept for it, every wait ends, every
      transfer releases its index.
    - Frames: what the builders write is what the wire format reads.
    - Queues: the error list, the pool and the transmit queue refine abstract queues; tickets
      stay valid under interleaving; the cyclic handler neither loses nor duplicates mailboxes.
    - EEPROM: what is written is read back, reads through the cache are reads of the EEPROM
      as far as the cache reaches, and the search for a section finds it there.  Where the code fails on a silent slave or a
      malformed EEPROM the failure is proved.
    - Motion: a command arrives at its target, within the limits of speed and acceleration (in
      exact arithmetic).
    - Clocks: on a tree of slaves the delays computed are the travel times of the frame that
      latched the receive times; the sync signal starts on the grid of its cycle.
    - Mailbox protocols: an Ethernet frame sent in fragments is the frame again for a reader; a
      file and an object written to a server and read back are the same, in every kind of
      transfer.
    - Configuration: the tree of slaves is found again from their open ports; the segments of
      a process data image below the last one fit in datagrams and cover it.
    - Backend server: silence of the client stops the drive under every interleaving in which
      messages are handled in time, and the race that escapes the watchdog is exhibited; a
      move ends at its target; process data keep their types, in exact arithmetic; objects read and written over
      the socket are those of the server, and commands are applied as they were given.
    - Library: on its own bus a command for a position reaches the drive with its speeds, but
      with the actual position as target; the table of devices is a map, and what is saved of
      it is read back.
    - Commissioning tool: in a checked map a position has one stator at most, in doubles with
      NaNs too; the planner keeps its limits until it arrives (and the case in which it never
      arrives is proved); outputs stay in the slave under the mover; its control words lead a
      drive to operation.
    - Monitor and mock: the loop of the monitor sends a schedule of outputs that is stated
      without its variables; by default they are zero, and a jog enables the drive and moves
      it.  The mock answers every message of a session.
    - Graphical client: a stop ends a repeated motion after one more call at most; the
      schedules in which that call comes late or the stop is lost are exhibited; the motion
      tab shows what the real-time thread wrote and read.
    - Messages: what is reported is printed, the newest 64 errors in their order.
    - Windows: the driver is the Linux driver on the kernel that Windows and pcap make, so the
      theorems on the driver hold there; sleep is never short.

    ** What is not modelled

    Threads are not: each critical section is one step, and the interleavings are the
    sequences of steps of PoolSpec.v, QueueTheorems.v, BackendSys.v and Gui.v.  Real number
    theorems speak of exact arithmetic; the rounding of binary64 is in the executable
    instance only.  The ports to other systems and the contributed ones repeat the Linux
    port; WinPcap is third-party code; the samples and the drawing of
    the user interface are input, output and glue around the master.

    Of the real-time core what the monitor prints, the accept loop of the mock, and the sockets,
    threads and signals of the server are not modelled:
    [handle_client] gets the times of its messages as a list, and what the IgH master reports
    is an input of a round.  Of the Windows library the log callback and the search for
    adapters by the driver are not modelled; files are a parameter of Database.v, and a
    function of Client.v looks devices up in it ([library_match] is the one of Database.v).

    Of ethercat_gui.c the drawing and the dialogs are not modelled.  Left out whole: the samples; the
    scaffold for RTX64; the ports of the driver and of the OS layer to systems other than Linux and
    Windows, the vendored WinPcap and the contributed ports.  Stack contents a C function reads before it
    has written them are an argument ([junk]) of its model.
*)

From Stdlib Require Export ZArith Lia.
From stdpp Require Export base decidable list numbers option.
From coqutil Require Export Datatypes.RecordSettersUsingExistingGetters.

#[export] Set Default Goal Selector "!".
Open Scope Z_scope.

Arguments const _ _ _ /.
Arguments set _ _ _ _ _ _ /.

(** ** Outcomes of a C computation

    A computation either ends normally or stops in undefined behaviour of the C
    abstract machine.  [OutOfFuel] is not a behaviour of the program: it marks a
    loop of the model that has used up its fuel. *)

Inductive fault : Type :=
| OutOfBounds      (** an array or buffer access outside the object *)
| NullPointer      (** a dereference of a null pointer *)
| BadConversion    (** a floating value with no integer counterpart *)
| DivByZero        (** an integer division by zero *)
| OutOfFuel.       (** the loop bound of the model is used up *)

#[export] Instance fault_eq_dec : EqDecision fault.
Proof. solve_decision. Defined.

Inductive res (A : Type) : Type :=
| Ok (a : A)
| Err (f : fault).
Arguments Ok {A} a.
Arguments Err {A} f.

(** ** The state and fault monad *)

Definition M (S A : Type) : Type := S -> res (A * S).

Section Monad.
Context {S : Type}.

Definition ret {A} (a : A) : M S A := fun s => Ok (a, s).
Definition bind {A B} (m : M S A) (k : A -> M S B) : M S B :=
  fun s => match m s with
           | Ok (a, s') => k a s'
           | Err f => Err f
           end.
Definition fail {A} (f : fault) : M S A := fun _ => Err f.
Definition gets {A} (f : S -> A) : M S A := fun s => Ok (f s, s).
Definition modify (f : S -> S) : M S unit := fun s => Ok (tt, f s).
Definition of_opt {A} (f : fault) (o : option A) : M S A :=
  match o with Some a => ret a | None => fail f end.
End Monad.

Arguments ret : simpl never.
Arguments bind : simpl never.
Arguments gets : simpl never.
Arguments modify : simpl never.

(** A computation on a part [T] of the state, run inside the whole state. *)
Definition zoom {S T A} (view : S -> T) (put : T -> S -> S) (m : M T A) : M S A :=
  fun s => match m (view s) with
           | Ok (a, t) => Ok (a, put t s)
           | Err f => Err f
           end.

Declare Scope ec_scope.
Delimit Scope ec_scope with ec.
Open Scope ec_scope.

Notation "'let*' x ':=' m 'in' k" := (bind m (fun x => k))
  (at level 10, x name, m at level 100, k at level 200,
   format "'[v' 'let*'  x  ':='  m  'in' '/' k ']'") : ec_scope.
Notation "'let*' ' x ':=' m 'in' k" := (bind m (fun x => k))
  (at level 10, x strict pattern, m at level 100, k at level 200,
   format "'[v' 'let*'  ' x  ':='  m  'in' '/' k ']'") : ec_scope.
Notation "'do*' m 'in' k" := (bind m (fun _ : unit => k))
  (at level 10, m at level 100, k at level 200,
   format "'[v' 'do*'  m  'in' '/' k ']'") : ec_scope.

(** [when b m]: an [if] statement with no [else]. *)
Definition when {S} (b : bool) (m : M S unit) : M S unit :=
  if b then m else ret tt.

(** ** Loops

    [do_while] is C's [do body while (cond)]: the body returns the loop variables
    and whether the condition holds.  [while_do] tests first. *)

Fixpoint do_while {S A} (fuel : nat) (body : A -> M S (bool * A)) (a : A) : M S A :=
  match fuel with
  | O => fail OutOfFuel
  | Datatypes.S n =>
      let* r := body a in
      if (r.1 : bool) then do_while n body r.2 else ret r.2
  end.

Fixpoint while_do {S A} (fuel : nat) (cond : A -> M S bool) (body : A -> M S A)
    (a : A) : M S A :=
  match fuel with
  | O => fail OutOfFuel
  | Datatypes.S n =>
      let* b := cond a in
      if (b : bool) then let* a' := body a in while_do n cond body a' else ret a
  end.

(** [for_range n body i a]: [for (; n more rounds; i++)], the index passed to the body. *)
Fixpoint for_range {S A} (n : nat) (body : Z -> A -> M S A) (i : Z) (a : A) : M S A :=
  match n with
  | O => ret a
  | Datatypes.S n' => let* a' := body i a in for_range n' body (i + 1) a'
  end.

(** Fuel given to the loops whose exit is decided by a timer or by a peer. *)
Class LoopFuel : Type := loop_fuel : nat.

(** ** Weakest preconditions

    [wp F m Q s]: run from [s], the computation [m] ends in a state and with a
    result that satisfy [Q], or stops in a fault that [F] tolerates.  [total]
    tolerates none; [partial] tolerates only a loop that runs out of fuel. *)

Definition wp {S A} (F : fault -> Prop) (m : M S A) (Q : A -> S -> Prop) (s : S) : Prop :=
  match m s with
  | Ok (a, s') => Q a s'
  | Err f => F f
  end.

Arguments wp : simpl never.

Definition no_fault (_ : fault) : Prop := False.
Definition fuel_only (f : fault) : Prop := f = OutOfFuel.
Definition any_fault (_ : fault) : Prop := True.

Abbreviation total m Q s := (wp no_fault m Q s) (only parsing).

Section Wp.
Context {S : Type} (F : fault -> Prop).
Implicit Types s : S.

Lemma wp_ret {A} (a : A) Q s : Q a s -> wp F (ret a) Q s.
Proof. done. Qed.

Lemma wp_bind {A B} (m : M S A) (k : A -> M S B) Q s :
  wp F m (fun a s' => wp F (k a) Q s') s -> wp F (bind m k) Q s.
Proof. unfold wp, bind. by destruct (m s) as [[a s']|f]. Qed.

Lemma wp_mono {A} (m : M S A) (Q Q' : A -> S -> Prop) s :
  wp F m Q s -> (forall a s', Q a s' -> Q' a s') -> wp F m Q' s.
Proof. unfold wp. destruct (m s) as [[a s']|f]; naive_solver. Qed.

Lemma wp_gets {A} (f : S -> A) Q s : Q (f s) s -> wp F (gets f) Q s.
Proof. done. Qed.

Lemma wp_modify (f : S -> S) Q s : Q tt (f s) -> wp F (modify f) Q s.
Proof. done. Qed.

Lemma wp_of_opt {A} e (o : option A) a Q s :
  o = Some a -> Q a s -> wp F (of_opt e o) Q s.
Proof. by intros ->. Qed.

Lemma wp_of_opt_any {A} e (o : option A) Q s :
  F e -> (forall a, o = Some a -> Q a s) -> wp F (of_opt e o) Q s.
Proof. destruct o; naive_solver. Qed.

Lemma wp_when b (m : M S unit) Q s :
  (b = true -> wp F m Q s) -> (b = false -> Q tt s) -> wp F (when b m) Q s.
Proof. destruct b; naive_solver. Qed.

Lemma wp_if {A} (b : bool) (m1 m2 : M S A) Q s :
  (b = true -> wp F m1 Q s) -> (b = false -> wp F m2 Q s) ->
  wp F (if b then m1 else m2) Q s.
Proof. destruct b; naive_solver. Qed.

(** A loop that keeps [I] and decreases [mu] ends with enough fuel. *)
Lemma wp_do_while {A} (I : A -> S -> Prop) (mu : A -> S -> nat) body Q :
  (forall a s, I a s ->
     wp F (body a) (fun (r : bool * A) s' => if r.1 then I r.2 s' /\ (mu r.2 s' < mu a s)%nat
                                else Q r.2 s') s) ->
  forall fuel a s, I a s -> (mu a s < fuel)%nat -> wp F (do_while fuel body a) Q s.
Proof.
  intros Hbody fuel. induction fuel as [|n IH]; intros a s HI Hmu; [lia|].
  cbn [do_while]. apply wp_bind. eapply wp_mono; [by apply Hbody|].
  intros [[] a'] s'; cbn; [|by intros; apply wp_ret].
  intros [HI' Hlt]. apply IH; [done | lia].
Qed.

(** Without a measure: the loop may run out of fuel, and only that. *)
Lemma wp_do_while_partial {A} (I : A -> S -> Prop) body Q :
  F OutOfFuel ->
  (forall a s, I a s ->
     wp F (body a) (fun (r : bool * A) s' => if r.1 then I r.2 s' else Q r.2 s') s) ->
  forall fuel a s, I a s -> wp F (do_while fuel body a) Q s.
Proof.
  intros HF Hbody fuel. induction fuel as [|n IH]; intros a s HI; [done|].
  cbn [do_while]. apply wp_bind. eapply wp_mono; [by apply Hbody|].
  intros [[] a'] s'; cbn; [by apply IH | by intros; apply wp_ret].
Qed.

Lemma wp_while_do {A} (I : A -> S -> Prop) (mu : A -> S -> nat) cond body Q :
  (forall a s, I a s ->
     wp F (cond a) (fun (b : bool) s' => if b
          then wp F (body a) (fun a' s'' => I a' s'' /\ (mu a' s'' < mu a s)%nat) s'
          else Q a s') s) ->
  forall fuel a s, I a s -> (mu a s < fuel)%nat -> wp F (while_do fuel cond body a) Q s.
Proof.
  intros Hbody fuel. induction fuel as [|n IH]; intros a s HI Hmu; [lia|].
  cbn [while_do]. apply wp_bind. eapply wp_mono; [by apply Hbody|].
  intros [] s'; cbn; [|by intros; apply wp_ret].
  intros Hb. apply wp_bind. eapply wp_mono; [exact Hb|].
  intros a' s'' [HI' Hlt]. apply IH; [done | lia].
Qed.

Lemma wp_for_range {A} (I : Z -> A -> S -> Prop) body :
  forall n i a s,
  I i a s ->
  (forall j a s, i <= j < i + Z.of_nat n -> I j a s ->
     wp F (body j a) (fun a' s' => I (j + 1) a' s') s) ->
  wp F (for_range n body i a) (fun a' s' => I (i + Z.of_nat n) a' s') s.
Proof.
  intros n. induction n as [|n IH]; intros i a s HI Hbody; cbn [for_range].
  - apply wp_ret. by rewrite Z.add_0_r.
  - apply wp_bind. eapply wp_mono; [apply Hbody; [lia | done]|].
    intros a' s' HI'. eapply wp_mono; [apply (IH (i + 1)); [done|]|].
    + intros j b t Hj. apply Hbody. lia.
    + intros b t. cbn beta. by replace (i + 1 + Z.of_nat n) with (i + Z.of_nat (Datatypes.S n)) by lia.
Qed.
End Wp.

(** Equational forms, for runs on a known state. *)
Section Run.
Context {S : Type}.

Lemma bind_ok {A B} (m : M S A) (k : A -> M S B) s a s' :
  m s = Ok (a, s') -> bind m k s = k a s'.
Proof. unfold bind. by intros ->. Qed.

Lemma bind_err {A B} (m : M S A) (k : A -> M S B) s f :
  m s = Err f -> bind m k s = Err f.
Proof. unfold bind. by intros ->. Qed.

Lemma bind_inv {A B} (m : M S A) (k : A -> M S B) s r :
  bind m k s = Ok r -> exists a s', m s = Ok (a, s') /\ k a s' = Ok r.
Proof. unfold bind. destruct (m s) as [[a s']|f]; [eauto | done]. Qed.

Lemma wp_ok {A} F (m : M S A) Q s a s' :
  m s = Ok (a, s') -> Q a s' -> wp F m Q s.
Proof. unfold wp. by intros ->. Qed.

Lemma wp_run {A} F (m : M S A) Q s a s' :
  wp F m Q s -> m s = Ok (a, s') -> Q a s'.
Proof. unfold wp. intros H E. by rewrite E in H. Qed.

Lemma total_run {A} (m : M S A) Q s :
  total m Q s -> exists a s', m s = Ok (a, s') /\ Q a s'.
Proof. unfold wp. destruct (m s) as [[a s']|f]; [eauto | done]. Qed.
End Run.

Lemma wp_zoom {S T A} F (view : S -> T) (put : T -> S -> S) (m : M T A) Q s :
  wp F m (fun a t => Q a (put t s)) (view s) -> wp F (zoom view put m) Q s.
Proof. unfold wp, zoom. by destruct (m (view s)) as [[a t]|f]. Qed.

(** One step of symbolic execution of the monad. *)
Ltac wp_step :=
  lazymatch goal with
  | |- wp _ (bind _ _) _ _ => apply wp_bind
  | |- wp _ (ret _) _ _ => apply wp_ret
  | |- wp _ (gets _) _ _ => apply wp_gets
  | |- wp _ (modify _) _ _ => apply wp_modify
  | |- wp _ (zoom _ _ _) _ _ => apply wp_zoom
  | |- wp _ (when _ _) _ _ => apply wp_when; intros ?
  end.
Ltac wp_steps := repeat wp_step.

(** ** Machine integers

    An unsigned w-bit integer is the [Z] in [0, 2^w); a signed one lies in
    [-2^(w-1), 2^(w-1)).  The conversions wrap as gcc's do. *)

Definition u8 (z : Z) : Z := z mod 2 ^ 8.
Definition u16 (z : Z) : Z := z mod 2 ^ 16.
Definition u32 (z : Z) : Z := z mod 2 ^ 32.
Definition u64 (z : Z) : Z := z mod 2 ^ 64.
Definition s16 (z : Z) : Z := (z + 2 ^ 15) mod 2 ^ 16 - 2 ^ 15.
Definition s32 (z : Z) : Z := (z + 2 ^ 31) mod 2 ^ 32 - 2 ^ 31.
Definition s64 (z : Z) : Z := (z + 2 ^ 63) mod 2 ^ 64 - 2 ^ 63.

Definition b2z (b : bool) : Z := if b then 1 else 0.

Lemma u8_range z : 0 <= u8 z < 2 ^ 8.
Proof. apply Z.mod_pos_bound. lia. Qed.
Lemma u16_range z : 0 <= u16 z < 2 ^ 16.
Proof. apply Z.mod_pos_bound. lia. Qed.
Lemma u32_range z : 0 <= u32 z < 2 ^ 32.
Proof. apply Z.mod_pos_bound. lia. Qed.
Lemma u64_range z : 0 <= u64 z < 2 ^ 64.
Proof. apply Z.mod_pos_bound. lia. Qed.
Lemma u8_id z : 0 <= z < 2 ^ 8 -> u8 z = z.
Proof. apply Z.mod_small. Qed.
Lemma u16_id z : 0 <= z < 2 ^ 16 -> u16 z = z.
Proof. apply Z.mod_small. Qed.
Lemma u32_id z : 0 <= z < 2 ^ 32 -> u32 z = z.
Proof. apply Z.mod_small. Qed.
Lemma s16_id z : - 2 ^ 15 <= z < 2 ^ 15 -> s16 z = z.
Proof. intros. unfold s16. rewrite Z.mod_small; lia. Qed.
Lemma s32_id z : - 2 ^ 31 <= z < 2 ^ 31 -> s32 z = z.
Proof. intros. unfold s32. rewrite Z.mod_small; lia. Qed.
Lemma s64_id z : - 2 ^ 63 <= z < 2 ^ 63 -> s64 z = z.
Proof. intros. unfold s64. rewrite Z.mod_small; lia. Qed.
Lemma s32_range z : - 2 ^ 31 <= s32 z < 2 ^ 31.
Proof. unfold s32. pose proof (Z.mod_pos_bound (z + 2 ^ 31) (2 ^ 32)). lia. Qed.

(** ** Bytes, little endian and big endian *)

Definition is_byte (b : Z) : Prop := 0 <= b < 256.
Abbreviation bytes_ok l := (Forall is_byte l).

(** The [n] bytes of [z], least significant first. *)
Fixpoint le_bytes (n : nat) (z : Z) : list Z :=
  match n with
  | O => []
  | Datatypes.S n' => z mod 256 :: le_bytes n' (z / 256)
  end.

Fixpoint of_le (l : list Z) : Z :=
  match l with
  | [] => 0
  | b :: l' => b + 256 * of_le l'
  end.

Lemma length_le_bytes n z : length (le_bytes n z) = n.
Proof. revert z. induction n as [|n IH]; intros z; cbn; [done | by rewrite IH]. Qed.

Lemma le_bytes_ok n z : bytes_ok (le_bytes n z).
Proof.
  revert z. induction n as [|n IH]; intros z; cbn; constructor; [|done].
  apply Z.mod_pos_bound. lia.
Qed.

Lemma of_le_le_bytes n z : of_le (le_bytes n z) = z mod 256 ^ Z.of_nat n.
Proof.
  revert z. induction n as [|n IH]; intros z.
  { cbn. by rewrite Z.mod_1_r. }
  cbn [le_bytes of_le]. rewrite IH, Nat2Z.inj_succ, Z.pow_succ_r by lia.
  rewrite Z.rem_mul_r by lia. lia.
Qed.

Lemma of_le_bounds l : bytes_ok l -> 0 <= of_le l < 256 ^ Z.of_nat (length l).
Proof.
  induction 1 as [|b l [Hb0 Hb1] _ IH]; [done|].
  cbn [of_le length]. rewrite Nat2Z.inj_succ, Z.pow_succ_r by lia. nia.
Qed.

Lemma le_bytes_of_le l : bytes_ok l -> le_bytes (length l) (of_le l) = l.
Proof.
  induction 1 as [|b l Hb Hl IH]; [done|]. unfold is_byte in Hb.
  cbn [of_le length le_bytes]. f_equal.
  - replace (b + 256 * of_le l) with (b + of_le l * 256) by lia.
    rewrite Z.mod_add by lia. by apply Z.mod_small.
  - replace (b + 256 * of_le l) with (b + of_le l * 256) by lia.
    rewrite Z.div_add, Z.div_small by lia. done.
Qed.

(** ** Buffers: lists indexed by [Z], every access checked *)

Definition zlen {A} (l : list A) : Z := Z.of_nat (length l).

Definition zget {A} (l : list A) (i : Z) : option A :=
  if i <? 0 then None else l !! Z.to_nat i.

Definition zset {A} (l : list A) (i : Z) (x : A) : option (list A) :=
  if (0 <=? i) && (i <? zlen l) then Some (<[Z.to_nat i := x]> l) else None.

(** [zslice l off n]: the [n] elements from [off]. *)
Definition zslice {A} (l : list A) (off n : Z) : option (list A) :=
  if (0 <=? off) && (0 <=? n) && (off + n <=? zlen l)
  then Some (take (Z.to_nat n) (drop (Z.to_nat off) l)) else None.

(** [zblit l off src]: [memcpy(&l[off], src, length of src)]. *)
Definition zblit {A} (l : list A) (off : Z) (src : list A) : option (list A) :=
  if (0 <=? off) && (off + zlen src <=? zlen l)
  then Some (take (Z.to_nat off) l ++ src ++ drop (Z.to_nat off + length src) l)
  else None.

Section Buffers.
Context {A : Type}.
Implicit Types (l src : list A) (i off n : Z).

Lemma zlen_nonneg l : 0 <= zlen l.
Proof. unfold zlen. lia. Qed.

Lemma zlen_app l l' : zlen (l ++ l') = zlen l + zlen l'.
Proof. unfold zlen. rewrite length_app. lia. Qed.

Lemma zlen_single (x : A) : zlen [x] = 1.
Proof. done. Qed.

Lemma zget_some l i : 0 <= i < zlen l -> exists x, zget l i = Some x.
Proof.
  intros H. unfold zget, zlen in *. destruct (i <? 0) eqn:?; [lia|].
  apply lookup_lt_is_Some. lia.
Qed.

Lemma zget_lt l i x : zget l i = Some x -> 0 <= i < zlen l.
Proof.
  unfold zget, zlen. destruct (i <? 0) eqn:?; [done|].
  intros H%lookup_lt_Some. lia.
Qed.

Lemma zget_none l i : zlen l <= i -> zget l i = None.
Proof.
  intros H. destruct (zget l i) eqn:E; [|done]. apply zget_lt in E. lia.
Qed.

Lemma zset_some l i x : 0 <= i < zlen l -> zset l i x = Some (<[Z.to_nat i := x]> l).
Proof.
  intros H. unfold zset.
  by replace ((0 <=? i) && (i <? zlen l)) with true by lia.
Qed.

Lemma zset_inv l i x l' :
  zset l i x = Some l' -> 0 <= i < zlen l /\ l' = <[Z.to_nat i := x]> l.
Proof. unfold zset. case_match; [|done]. intros [= <-]. split; [lia|done]. Qed.

Lemma zset_length l i x l' : zset l i x = Some l' -> zlen l' = zlen l.
Proof. intros [_ ->]%zset_inv. unfold zlen. by rewrite length_insert. Qed.

Lemma zget_zset_eq l i x l' : zset l i x = Some l' -> zget l' i = Some x.
Proof.
  intros [Hi ->]%zset_inv. unfold zget, zlen in *.
  destruct (i <? 0) eqn:?; [lia|]. apply list_lookup_insert_eq. lia.
Qed.

Lemma zget_zset_ne l i j x l' : zset l i x = Some l' -> i <> j -> zget l' j = zget l j.
Proof.
  intros [Hi ->]%zset_inv Hne. unfold zget.
  destruct (j <? 0) eqn:?; [done|]. apply list_lookup_insert_ne. lia.
Qed.

Lemma zget_zset l i j x l' :
  zset l i x = Some l' -> zget l' j = if decide (i = j) then Some x else zget l j.
Proof.
  intros H. case_decide as Hd; subst.
  - by eapply zget_zset_eq.
  - by eapply zget_zset_ne.
Qed.

Lemma zget_insert l i j x : 0 <= i < zlen l ->
  zget (<[Z.to_nat i := x]> l) j = if decide (i = j) then Some x else zget l j.
Proof. intros Hi. apply (zget_zset l i j x), zset_some, Hi. Qed.

Lemma zlen_insert l (i : nat) x : zlen (<[i := x]> l) = zlen l.
Proof. unfold zlen. by rewrite length_insert. Qed.

Lemma zslice_some l off n :
  0 <= off -> 0 <= n -> off + n <= zlen l ->
  zslice l off n = Some (take (Z.to_nat n) (drop (Z.to_nat off) l)).
Proof.
  intros. unfold zslice.
  by replace ((0 <=? off) && (0 <=? n) && (off + n <=? zlen l)) with true by lia.
Qed.

Lemma zslice_inv l off n r :
  zslice l off n = Some r ->
  0 <= off /\ 0 <= n /\ off + n <= zlen l
  /\ r = take (Z.to_nat n) (drop (Z.to_nat off) l).
Proof. unfold zslice. case_match; [|done]. intros [= <-]. split_and!; [lia..|done]. Qed.

Lemma zslice_length l off n r : zslice l off n = Some r -> zlen r = n.
Proof.
  intros (?&?&?&->)%zslice_inv. unfold zlen in *.
  rewrite length_take, length_drop. lia.
Qed.

Lemma zblit_some l off src :
  0 <= off -> off + zlen src <= zlen l ->
  zblit l off src
  = Some (take (Z.to_nat off) l ++ src ++ drop (Z.to_nat off + length src) l).
Proof.
  intros. unfold zblit.
  by replace ((0 <=? off) && (off + zlen src <=? zlen l)) with true by lia.
Qed.

Lemma zblit_inv l off src l' :
  zblit l off src = Some l' ->
  0 <= off /\ off + zlen src <= zlen l
  /\ l' = take (Z.to_nat off) l ++ src ++ drop (Z.to_nat off + length src) l.
Proof. unfold zblit. case_match; [|done]. intros [= <-]. split_and!; [lia..|done]. Qed.

Lemma zblit_length l off src l' : zblit l off src = Some l' -> zlen l' = zlen l.
Proof.
  intros (?&?&->)%zblit_inv. unfold zlen in *.
  rewrite !length_app, length_take, length_drop. lia.
Qed.

Lemma zslice_zblit_same l off src l' :
  zblit l off src = Some l' -> zslice l' off (zlen src) = Some src.
Proof.
  intros Hb. pose proof (zblit_length _ _ _ _ Hb) as Hlen.
  destruct (zblit_inv _ _ _ _ Hb) as (H0&H1&->).
  rewrite zslice_some by (unfold zlen in *; lia). f_equal.
  rewrite drop_app_ge by (rewrite length_take; lia).
  rewrite length_take. unfold zlen in *.
  replace (Z.to_nat off - (Z.to_nat off `min` length l))%nat with 0%nat by lia.
  rewrite drop_0, take_app_le by lia. rewrite take_ge by lia. done.
Qed.

Lemma zget_zblit l off src l' i :
  zblit l off src = Some l' ->
  zget l' i = if decide (off <= i < off + zlen src) then zget src (i - off) else zget l i.
Proof.
  intros (H0&H1&->)%zblit_inv. unfold zget, zlen in *.
  destruct (i <? 0) eqn:Hi; [case_decide; [lia | done]|].
  case_decide as Hd.
  - rewrite lookup_app_r by (rewrite length_take; lia).
    rewrite lookup_app_l by (rewrite length_take; lia).
    replace (i - off <? 0) with false by lia.
    f_equal. rewrite length_take. lia.
  - destruct (decide (i < off)).
    + rewrite lookup_app_l by (rewrite length_take; lia).
      apply lookup_take_lt. lia.
    + rewrite lookup_app_r by (rewrite length_take; lia).
      rewrite lookup_app_r by (rewrite length_take; lia).
      rewrite lookup_drop, length_take. f_equal. lia.
Qed.

Lemma zget_zslice l off n r i :
  zslice l off n = Some r -> 0 <= i < n -> zget r i = zget l (off + i).
Proof.
  intros (?&?&?&->)%zslice_inv Hi. unfold zget.
  destruct (i <? 0) eqn:?; [lia|]. destruct (off + i <? 0) eqn:?; [lia|].
  rewrite lookup_take_lt by lia. rewrite lookup_drop. f_equal. lia.
Qed.

Lemma zget_snoc l x i :
  zget (l ++ [x]) i = if decide (i = zlen l) then Some x else zget l i.
Proof.
  unfold zget, zlen. destruct (Z.ltb_spec i 0); [case_decide; [lia | done]|].
  case_decide as Hd.
  - subst. rewrite Nat2Z.id, lookup_app_r, Nat.sub_diag by lia. done.
  - destruct (decide (i < Z.of_nat (length l))); [by rewrite lookup_app_l by lia|].
    rewrite !lookup_ge_None_2; [done | lia | rewrite length_app; cbn; lia].
Qed.

Lemma zget_cons l x i :
  zget (x :: l) i = if decide (i = 0) then Some x else zget l (i - 1).
Proof.
  unfold zget. destruct (Z.ltb_spec i 0).
  - rewrite decide_False by lia. destruct (Z.ltb_spec (i - 1) 0); [done | lia].
  - case_decide as Hd; [by subst|]. destruct (Z.ltb_spec (i - 1) 0); [lia|].
    replace (Z.to_nat i) with (S (Z.to_nat (i - 1))) by lia. done.
Qed.

Lemma zget_elem_of l x : x ∈ l <-> exists i, zget l i = Some x.
Proof.
  rewrite list_elem_of_lookup. unfold zget. split.
  - intros [i Hi]. exists (Z.of_nat i). destruct (Z.ltb_spec (Z.of_nat i) 0); [lia|].
    by rewrite Nat2Z.id.
  - intros [i Hi]. destruct (i <? 0); [done | eauto].
Qed.

Lemma zget_ext l l' :
  zlen l = zlen l' -> (forall i, 0 <= i < zlen l -> zget l i = zget l' i) -> l = l'.
Proof.
  intros Hlen H. apply list_eq. intros i.
  destruct (decide (i < length l)%nat) as [Hi|Hi].
  - specialize (H (Z.of_nat i)). unfold zget, zlen in *.
    destruct (Z.of_nat i <? 0) eqn:?; [lia|]. rewrite !Nat2Z.id in H. apply H. lia.
  - unfold zlen in *. rewrite !lookup_ge_None_2 by lia. done.
Qed.

Lemma Forall_zset (P : A -> Prop) l i x l' :
  Forall P l -> P x -> zset l i x = Some l' -> Forall P l'.
Proof. intros Hl Hx [_ ->]%zset_inv. by apply Forall_insert. Qed.

Lemma Forall_zget (P : A -> Prop) l i x : Forall P l -> zget l i = Some x -> P x.
Proof.
  intros Hl Hg. unfold zget in Hg. destruct (i <? 0); [done|]. by eapply Forall_lookup_1.
Qed.

(** Reading a window that a copy elsewhere did not touch. *)
Lemma zslice_zblit_disjoint l off src l' off' n :
  zblit l off src = Some l' ->
  off' + n <= off \/ off + zlen src <= off' ->
  zslice l' off' n = zslice l off' n.
Proof.
  intros Hb Hd. pose proof (zblit_length _ _ _ _ Hb) as Hlen.
  unfold zslice. rewrite Hlen. case_match eqn:Hc; [|done]. f_equal.
  apply list_eq. intros i.
  destruct (decide (i < Z.to_nat n)%nat) as [Hi|Hi].
  - rewrite !lookup_take_lt, !lookup_drop by lia.
    pose proof (zget_zblit _ _ _ _ (off' + Z.of_nat i) Hb) as Hg.
    rewrite decide_False in Hg by lia. unfold zget in Hg.
    destruct (off' + Z.of_nat i <? 0) eqn:?; [lia|].
    replace (Z.to_nat off' + i)%nat with (Z.to_nat (off' + Z.of_nat i)) by lia. done.
  - rewrite !lookup_take_ge by lia. done.
Qed.
End Buffers.

Create HintDb ec discriminated.
Create Rewrite HintDb len.
#[export] Hint Resolve u8_range u16_range u32_range u64_range s32_range
  zlen_nonneg le_bytes_ok : ec.
#[export] Hint Rewrite length_le_bytes @length_app @length_insert @length_take
  @length_drop @length_replicate : len.
