(* ===== verification/Ring.v ===== *)
(** * Rings: arrays read modulo their size

    The lemmas shared by the error list, the mailbox pool and the mailbox transmit
    queue, all of which are arrays with a head and a tail index that wrap around. *)

From S2P Require Import Prelude.

Section Ring.
Context (N : Z).

(** The index after [i]: the code's [i++; if (i >= N) i = 0]. *)
Definition ring_next (i : Z) : Z := if N <=? i + 1 then 0 else i + 1.

(** The [n] elements of [l] from index [pos] on. *)
Fixpoint ring_from {A} (l : list A) (pos : Z) (n : nat) : list A :=
  match n with
  | O => []
  | S n' => match zget l pos with
            | Some x => x :: ring_from l (ring_next pos) n'
            | None => []
            end
  end.

(** The index [k] places after [pos]. *)
Definition ring_at (pos k : Z) : Z := if N <=? pos + k then pos + k - N else pos + k.

(** How far [h] is ahead of [t]. *)
Definition ring_dist (h t : Z) : Z := if h <? t then h - t + N else h - t.
End Ring.

Section RingLemmas.
Context {A : Type} {N : Z}.
Implicit Types (l : list A) (pos k : Z) (n : nat).

Lemma ring_next_range pos : 0 <= pos < N -> 0 <= ring_next N pos < N.
Proof. unfold ring_next. destruct (Z.leb_spec N (pos + 1)); lia. Qed.

Lemma ring_at_range pos k : 0 <= pos < N -> 0 <= k <= N -> 0 <= ring_at N pos k < N.
Proof. unfold ring_at. destruct (Z.leb_spec N (pos + k)); lia. Qed.

Lemma ring_at_0 pos : 0 <= pos < N -> ring_at N pos 0 = pos.
Proof. unfold ring_at. destruct (Z.leb_spec N (pos + 0)); lia. Qed.

Lemma ring_at_next pos k :
  0 <= pos < N -> 0 <= k < N -> ring_at N (ring_next N pos) k = ring_at N pos (k + 1).
Proof.
  unfold ring_at, ring_next. intros.
  destruct (Z.leb_spec N (pos + 1)), (Z.leb_spec N (pos + (k + 1)));
    destruct (Z.leb_spec N (0 + k)), (Z.leb_spec N (pos + 1 + k)); lia.
Qed.

Lemma ring_at_inj pos j k :
  0 <= pos < N -> 0 <= j < N -> 0 <= k < N -> ring_at N pos j = ring_at N pos k -> j = k.
Proof.
  unfold ring_at. intros.
  destruct (Z.leb_spec N (pos + j)), (Z.leb_spec N (pos + k)); lia.
Qed.

Lemma ring_dist_range h t : 0 <= h < N -> 0 <= t < N -> 0 <= ring_dist N h t < N.
Proof. unfold ring_dist. destruct (Z.ltb_spec h t); lia. Qed.

Lemma ring_at_dist h t : 0 <= h < N -> 0 <= t < N -> ring_at N t (ring_dist N h t) = h.
Proof.
  unfold ring_at, ring_dist. intros.
  destruct (Z.ltb_spec h t);
    [destruct (Z.leb_spec N (t + (h - t + N))) | destruct (Z.leb_spec N (t + (h - t)))]; lia.
Qed.

Lemma ring_next_at pos k :
  0 <= pos < N -> 0 <= k < N -> ring_next N (ring_at N pos k) = ring_at N pos (k + 1).
Proof.
  unfold ring_at, ring_next. intros.
  destruct (Z.leb_spec N (pos + k)), (Z.leb_spec N (pos + (k + 1))).
  all: match goal with |- context [N <=? ?x] => destruct (Z.leb_spec N x) end; lia.
Qed.

Lemma ring_from_ext l l' n : forall pos,
  0 <= pos < N -> Z.of_nat n <= N ->
  (forall k, 0 <= k < Z.of_nat n -> zget l (ring_at N pos k) = zget l' (ring_at N pos k)) ->
  ring_from N l pos n = ring_from N l' pos n.
Proof.
  induction n as [|n IH]; intros pos Hpos Hn Heq; [done|]. cbn.
  pose proof (Heq 0 ltac:(lia)) as H0. rewrite ring_at_0 in H0 by done. rewrite H0.
  destruct (zget l' pos); [|done]. f_equal. apply IH; [by apply ring_next_range | lia |].
  intros k Hk. rewrite ring_at_next by lia. apply Heq. lia.
Qed.

Lemma ring_from_snoc l n : forall pos x,
  0 <= pos < N -> Z.of_nat n < N -> zlen l = N ->
  zget l (ring_at N pos (Z.of_nat n)) = Some x ->
  ring_from N l pos (S n) = ring_from N l pos n ++ [x].
Proof.
  induction n as [|n IH]; intros pos x Hpos Hn Hl Hx.
  - cbn. rewrite ring_at_0 in Hx by done. by rewrite Hx.
  - destruct (zget_some l pos) as [y Hy]; [lia|].
    change (ring_from N l pos (S (S n))) with
      (match zget l pos with
       | Some z => z :: ring_from N l (ring_next N pos) (S n)
       | None => [] end).
    cbn [ring_from]. rewrite Hy. cbn [app]. f_equal.
    apply IH; [by apply ring_next_range | lia | done |].
    rewrite ring_at_next by lia. by replace (Z.of_nat n + 1) with (Z.of_nat (S n)) by lia.
Qed.

Lemma ring_from_cons l n pos x :
  zget l pos = Some x -> ring_from N l pos (S n) = x :: ring_from N l (ring_next N pos) n.
Proof. cbn. by intros ->. Qed.

Lemma length_ring_from l n : forall pos,
  0 <= pos < N -> zlen l = N -> length (ring_from N l pos n) = n.
Proof.
  induction n as [|n IH]; intros pos Hpos Hl; [done|]. cbn.
  destruct (zget_some l pos) as [x ->]; [lia|]. cbn. f_equal.
  apply IH; [by apply ring_next_range | done].
Qed.

Lemma ring_from_lookup l n : forall pos k,
  0 <= pos < N -> zlen l = N -> Z.of_nat n <= N -> 0 <= k < Z.of_nat n ->
  zget (ring_from N l pos n) k = zget l (ring_at N pos k).
Proof.
  induction n as [|n IH]; intros pos k Hpos Hl Hn Hk; [lia|].
  destruct (zget_some l pos) as [x Hx]; [lia|]. rewrite (ring_from_cons _ _ _ x) by done.
  destruct (decide (k = 0)) as [->|Hk0].
  - by rewrite ring_at_0, Hx by done.
  - transitivity (zget (ring_from N l (ring_next N pos) n) (k - 1)).
    + unfold zget. destruct (Z.ltb_spec k 0); [lia|]. destruct (Z.ltb_spec (k - 1) 0); [lia|].
      replace (Z.to_nat k) with (S (Z.to_nat (k - 1))) by lia. done.
    + rewrite IH by (try apply ring_next_range; lia || done).
      rewrite ring_at_next by lia. f_equal. f_equal. lia.
Qed.

(** Writing the slot after the last element appends. *)
Lemma ring_from_write l l' pos n x :
  0 <= pos < N -> zlen l = N -> Z.of_nat n < N ->
  zset l (ring_at N pos (Z.of_nat n)) x = Some l' ->
  ring_from N l' pos (S n) = ring_from N l pos n ++ [x].
Proof.
  intros Hpos Hl Hn Hset.
  rewrite (ring_from_snoc _ _ _ x); [|done|done|by rewrite (zset_length _ _ _ _ Hset)|].
  - f_equal. apply ring_from_ext; [done | lia|]. intros k Hk.
    eapply zget_zset_ne; [done|]. intros Heq. apply ring_at_inj in Heq; lia.
  - by eapply zget_zset_eq.
Qed.

(** Writing the first slot does not change the others. *)
Lemma ring_from_write_first l l' pos n x :
  0 <= pos < N -> zlen l = N -> Z.of_nat n < N -> zset l pos x = Some l' ->
  ring_from N l' (ring_next N pos) n = ring_from N l (ring_next N pos) n.
Proof.
  intros Hpos Hl Hn Hset. apply ring_from_ext; [by apply ring_next_range | lia|].
  intros k Hk. eapply zget_zset_ne; [done|]. rewrite ring_at_next by lia.
  rewrite <- (ring_at_0 pos) at 1 by done. intros Heq. apply ring_at_inj in Heq; lia.
Qed.
End RingLemmas.
#[export] Hint Resolve ring_next_range ring_at_range ring_dist_range : ec.
