(* ===== verification/Osal.v ===== *)
(** * Operating system layer: time (osal/linux/osal.c, osal/osal.h)

    The kernel is the parameter of the development: the class [OS] names the system
    calls the code makes, on an abstract kernel state.  The timers of osal.c are
    modelled on top of it with the [timespec] arithmetic of osal.h. *)

From S2P Require Import Prelude.

(** [struct timespec], the platform's [ec_timet]. *)
Record ec_timet : Type := TimeSpec { tv_sec : Z; tv_nsec : Z }.

(** System calls.  [os_recv fd n] is [recv(fd, buf, n, MSG_DONTWAIT)]: [None] is the
    return value -1, [Some bs] the received bytes.  [os_nicconf] stands for the chain of
    [setsockopt], [ioctl] and [bind] calls that configure a raw socket; its result is
    the bitwise or of theirs. *)
Class OS (E : Type) : Type := {
  os_clock_monotonic : E -> ec_timet * E;
  os_clock_realtime : E -> ec_timet * E;
  os_nanosleep : ec_timet -> E -> Z * E;
  os_ppoll : list Z -> E -> Z * E;
  os_send : Z -> list Z -> E -> Z * E;
  os_recv : Z -> Z -> E -> option (list Z) * E;
  os_socket : E -> Z * E;
  os_nicconf : Z -> list Z -> E -> Z * E;
  os_close : Z -> E -> E;
}.

(** A system call as a computation on the kernel state. *)
Definition syscall {E A} (f : E -> A * E) : M E A := fun e => Ok (f e).

Lemma wp_syscall {E A} F (f : E -> A * E) (Q : A -> E -> Prop) e :
  Q (f e).1 (f e).2 -> wp F (syscall f) Q e.
Proof. unfold wp, syscall. by destruct (f e). Qed.

Definition osal_timespec_from_usec (usec : Z) : ec_timet :=
  TimeSpec (usec / 1000000) (usec mod 1000000 * 1000).

Definition osal_timespeccmp_lt (a b : ec_timet) : bool :=
  if tv_sec a =? tv_sec b then tv_nsec a <? tv_nsec b else tv_sec a <? tv_sec b.

Definition osal_timespecadd (a b : ec_timet) : ec_timet :=
  let sec := tv_sec a + tv_sec b in
  let nsec := tv_nsec a + tv_nsec b in
  if 1000000000 <=? nsec then TimeSpec (sec + 1) (nsec - 1000000000)
  else TimeSpec sec nsec.

Definition osal_timespecsub (a b : ec_timet) : ec_timet :=
  let sec := tv_sec a - tv_sec b in
  let nsec := tv_nsec a - tv_nsec b in
  if nsec <? 0 then TimeSpec (sec - 1) (nsec + 1000000000)
  else TimeSpec sec nsec.

Definition osal_time_diff (start stop : ec_timet) : ec_timet :=
  osal_timespecsub stop start.

Section Timers.
Context {E : Type} `{OS E}.

Definition osal_get_monotonic_time : M E ec_timet := syscall os_clock_monotonic.

Definition osal_current_time : M E ec_timet := syscall os_clock_realtime.

(** [timeout_usec] is a [uint32]: a negative [int] argument wraps. *)
Definition osal_timer_start (timeout_usec : Z) : M E ec_timet :=
  let* start_time := osal_get_monotonic_time in
  let timeout := osal_timespec_from_usec (u32 timeout_usec) in
  ret (osal_timespecadd start_time timeout).

Definition osal_timer_is_expired (stop_time : ec_timet) : M E bool :=
  let* current_time := osal_get_monotonic_time in
  let is_not_yet_expired := osal_timespeccmp_lt current_time stop_time in
  ret (negb is_not_yet_expired).

Definition osal_usleep (usec : Z) : M E Z :=
  let ts := osal_timespec_from_usec (u32 usec) in
  let* result := syscall (os_nanosleep ts) in
  ret (if result =? 0 then 0 else -1).
End Timers.

(** ** The arithmetic on [timespec] is arithmetic on nanoseconds *)

Definition ns (t : ec_timet) : Z := tv_sec t * 1000000000 + tv_nsec t.
Definition ts_normal (t : ec_timet) : Prop := 0 <= tv_nsec t < 1000000000.

Lemma timespec_from_usec_ns u :
  ns (osal_timespec_from_usec u) = u * 1000 /\ ts_normal (osal_timespec_from_usec u).
Proof. unfold ns, ts_normal, osal_timespec_from_usec; cbn.
  pose proof (Z.div_mod u 1000000). pose proof (Z.mod_pos_bound u 1000000). lia.
Qed.

Lemma timespecadd_ns a b :
  ts_normal a -> ts_normal b ->
  ns (osal_timespecadd a b) = ns a + ns b /\ ts_normal (osal_timespecadd a b).
Proof.
  unfold ns, ts_normal, osal_timespecadd. intros Ha Hb.
  destruct (1000000000 <=? _) eqn:?; cbn; lia.
Qed.

Lemma timespecsub_ns a b :
  ts_normal a -> ts_normal b ->
  ns (osal_timespecsub a b) = ns a - ns b /\ ts_normal (osal_timespecsub a b).
Proof.
  unfold ns, ts_normal, osal_timespecsub. intros Ha Hb.
  destruct (_ <? 0) eqn:?; cbn; lia.
Qed.

Lemma timespeccmp_lt_ns a b :
  ts_normal a -> ts_normal b -> osal_timespeccmp_lt a b = (ns a <? ns b).
Proof.
  unfold ns, ts_normal, osal_timespeccmp_lt. intros Ha Hb.
  destruct (tv_sec a =? tv_sec b) eqn:?; lia.
Qed.

(** ** Kernels with a usable clock

    [clock_normal] states that the monotonic clock returns normalised times that never
    go back, and [clock_advances] that every reading is at least one nanosecond after the
    one before ("this time must be strictly increasing", osal.h).  [clock_now] is the
    reading the kernel would give next. *)

Definition clock_now {E} `{OS E} (e : E) : Z := ns (os_clock_monotonic e).1.

Class ClockLaws (E : Type) `{OS E} : Prop := {
  clock_normal : forall e : E, ts_normal (os_clock_monotonic e).1;
  clock_advances : forall e : E, clock_now e < clock_now (os_clock_monotonic e).2;
  clock_realtime : forall e : E, clock_now e <= clock_now (os_clock_realtime e).2;
  clock_ppoll : forall fds (e : E), clock_now e <= clock_now (os_ppoll fds e).2;
  clock_send : forall fd bs (e : E), clock_now e <= clock_now (os_send fd bs e).2;
  clock_recv : forall fd n (e : E), clock_now e <= clock_now (os_recv fd n e).2;
  clock_nanosleep : forall ts (e : E), clock_now e <= clock_now (os_nanosleep ts e).2;
}.

Section TimerLaws.
Context {E : Type} `{HC : ClockLaws E}.
Implicit Types e : E.

(** Starting a timer and testing it: expired exactly when the clock has reached the
    start reading plus the timeout. *)
Lemma timer_start_spec usec e :
  wp no_fault (osal_timer_start usec)
    (fun t e' => ns t = clock_now e + u32 usec * 1000 /\ ts_normal t
                 /\ clock_now e < clock_now e') e.
Proof.
  unfold osal_timer_start, osal_get_monotonic_time.
  apply wp_bind, wp_syscall. pose proof (clock_advances e) as Hadv. pose proof (clock_normal e) as Hn.
  change (clock_now e) with (ns (os_clock_monotonic e).1) in *.
  destruct (os_clock_monotonic e) as [t0 e']. cbn in *. apply wp_ret.
  destruct (timespec_from_usec_ns (u32 usec)) as [Hu Hun].
  destruct (timespecadd_ns t0 (osal_timespec_from_usec (u32 usec)) Hn Hun) as [Hs Hsn].
  rewrite Hs, Hu. done.
Qed.

Lemma timer_expired_spec t e :
  ts_normal t ->
  wp no_fault (osal_timer_is_expired t)
    (fun b e' => b = (ns t <=? clock_now e) /\ clock_now e < clock_now e') e.
Proof.
  intros Ht. unfold osal_timer_is_expired, osal_get_monotonic_time.
  apply wp_bind, wp_syscall.
  pose proof (clock_advances e) as Hadv. pose proof (clock_normal e) as Hn.
  change (clock_now e) with (ns (os_clock_monotonic e).1) in *.
  destruct (os_clock_monotonic e) as [t0 e']. cbn in *. apply wp_ret.
  rewrite timespeccmp_lt_ns by done. split; [lia | done].
Qed.
End TimerLaws.
