(* ===== verification/Types.v ===== *)
(** * Constants and wire formats (include/soem/ec_type.h, ec_options.h.in, CMakeLists.txt)

    Enumerators are the integers the code stores and sends; build options have the
    defaults of CMakeLists.txt. *)

From S2P Require Import Prelude.

(** ** Build options *)
Definition EC_MAXECATFRAME : Z := 1518.
Definition EC_BUFSIZE : Z := EC_MAXECATFRAME.
Definition EC_MAXBUF : Z := 16.
Definition EC_MAXEEPBITMAP : Z := 128.
Definition EC_MAXEEPBUF : Z := Z.shiftl EC_MAXEEPBITMAP 5.
Definition EC_MAXELIST : Z := 64.
Definition EC_MAXNAME : Z := 40.
Definition EC_MAXSLAVE : Z := 200.
Definition EC_MAXGROUP : Z := 2.
Definition EC_MAXMBX : Z := 1486.
Definition EC_MBXPOOLSIZE : Z := 32.
Definition EC_MAXEEPDO : Z := 512.
Definition EC_MAXSM : Z := 8.
Definition EC_MAXFMMU : Z := 4.
Definition EC_MAX_MAPT : Z := 1.
Definition EC_MAXIOSEGMENTS : Z := 64.
Definition EC_TIMEOUTRET : Z := 2000.
Definition EC_TIMEOUTRET3 : Z := EC_TIMEOUTRET * 3.
Definition EC_TIMEOUTEEP : Z := 20000.
Definition EC_DEFAULTRETRIES : Z := 3.

(** ** Return values *)
Definition EC_NOFRAME : Z := -1.
Definition EC_OTHERFRAME : Z := -2.
Definition EC_TIMEOUT : Z := -5.

(** ** Frame layout: sizes and the offsets of the packed headers *)
Definition EC_ECATTYPE : Z := 0x1000.
Definition ETH_HEADERSIZE : Z := 14.
Definition EC_HEADERSIZE : Z := 12.
Definition EC_ELENGTHSIZE : Z := 2.
Definition EC_CMDOFFSET : Z := EC_ELENGTHSIZE.
Definition EC_WKCSIZE : Z := 2.
Definition EC_DATAGRAMFOLLOWS : Z := Z.shiftl 1 15.
Definition EC_MAXLRWDATA : Z := EC_MAXECATFRAME - 14 - 2 - 10 - 2 - 4.
Definition ETH_P_ECAT : Z := 0x88A4.

(** Offsets in [ec_etherheadert]. *)
Definition ETH_da0 : Z := 0.
Definition ETH_da1 : Z := 2.
Definition ETH_da2 : Z := 4.
Definition ETH_sa0 : Z := 6.
Definition ETH_sa1 : Z := 8.
Definition ETH_sa2 : Z := 10.
Definition ETH_etype : Z := 12.

(** Offsets in [ec_comt]. *)
Definition COM_elength : Z := 0.
Definition COM_command : Z := 2.
Definition COM_index : Z := 3.
Definition COM_ADP : Z := 4.
Definition COM_ADO : Z := 6.
Definition COM_dlength : Z := 8.

(** ** Slave and buffer states *)
Definition EC_STATE_INIT : Z := 0x01.
Definition EC_STATE_PRE_OP : Z := 0x02.
Definition EC_STATE_BOOT : Z := 0x03.
Definition EC_STATE_SAFE_OP : Z := 0x04.
Definition EC_STATE_OPERATIONAL : Z := 0x08.
Definition EC_STATE_ERROR : Z := 0x10.

Definition EC_BUF_EMPTY : Z := 0.
Definition EC_BUF_ALLOC : Z := 1.
Definition EC_BUF_TX : Z := 2.
Definition EC_BUF_RCVD : Z := 3.
Definition EC_BUF_COMPLETE : Z := 4.

(** ** Datagram commands *)
Definition EC_CMD_NOP : Z := 0.
Definition EC_CMD_APRD : Z := 1.
Definition EC_CMD_APWR : Z := 2.
Definition EC_CMD_FPRD : Z := 4.
Definition EC_CMD_FPWR : Z := 5.
Definition EC_CMD_BRD : Z := 7.
Definition EC_CMD_BWR : Z := 8.
Definition EC_CMD_LRD : Z := 10.
Definition EC_CMD_LWR : Z := 11.
Definition EC_CMD_LRW : Z := 12.
Definition EC_CMD_ARMW : Z := 13.
Definition EC_CMD_FRMW : Z := 14.

(** ** EEPROM interface and SII *)
Definition EC_ECMD_NOP : Z := 0x0000.
Definition EC_ECMD_READ : Z := 0x0100.
Definition EC_ECMD_WRITE : Z := 0x0201.
Definition EC_ESTAT_R64 : Z := 0x0040.
Definition EC_ESTAT_BUSY : Z := 0x8000.
Definition EC_ESTAT_EMASK : Z := 0x7800.
Definition EC_ESTAT_NACK : Z := 0x2000.
Definition ECT_SII_START : Z := 0x0040.
Definition ECT_SII_STRING : Z := 10.
Definition ECT_SII_FMMU : Z := 40.
Definition ECT_SII_SM : Z := 41.
Definition ECT_SII_PDO : Z := 50.

(** ** Mailbox types *)
Definition ECT_MBXT_ERR : Z := 0x00.
Definition ECT_MBXT_AOE : Z := 0x01.
Definition ECT_MBXT_EOE : Z := 0x02.
Definition ECT_MBXT_COE : Z := 0x03.
Definition ECT_MBXT_FOE : Z := 0x04.
Definition ECT_MBXT_SOE : Z := 0x05.
Definition ECT_MBXT_VOE : Z := 0x0f.

(** ** CoE *)
Definition ECT_COES_EMERGENCY : Z := 0x01.
Definition ECT_COES_SDOREQ : Z := 0x02.
Definition ECT_COES_SDORES : Z := 0x03.
Definition ECT_COES_TXPDO : Z := 0x04.
Definition ECT_COES_RXPDO : Z := 0x05.
Definition ECT_COES_TXPDO_RR : Z := 0x06.
Definition ECT_COES_SDOINFO : Z := 0x08.
Definition ECT_SDO_DOWN_INIT : Z := 0x21.
Definition ECT_SDO_DOWN_EXP : Z := 0x23.
Definition ECT_SDO_DOWN_INIT_CA : Z := 0x31.
Definition ECT_SDO_UP_REQ : Z := 0x40.
Definition ECT_SDO_UP_REQ_CA : Z := 0x50.
Definition ECT_SDO_SEG_UP_REQ : Z := 0x60.
Definition ECT_SDO_ABORT : Z := 0x80.
Definition ECT_GET_ODLIST_REQ : Z := 0x01.
Definition ECT_GET_ODLIST_RES : Z := 0x02.
Definition ECT_GET_OD_REQ : Z := 0x03.
Definition ECT_GET_OD_RES : Z := 0x04.
Definition ECT_GET_OE_REQ : Z := 0x05.
Definition ECT_GET_OE_RES : Z := 0x06.
Definition ECT_SDOINFO_ERROR : Z := 0x07.
Definition ECT_SDO_SMCOMMTYPE : Z := 0x1c00.
Definition ECT_SDO_PDOASSIGN : Z := 0x1c10.
Definition EC_MAXODLIST : Z := 1024.
Definition EC_MAXOELIST : Z := 256.
Definition EC_TIMEOUTTXM : Z := 20000.
Definition EC_TIMEOUTRXM : Z := 700000.
Definition EC_TIMEOUTSTATE : Z := 2000000.
Definition EC_TIMEOUTSAFE : Z := 20000.
Definition EC_SMENABLEMASK : Z := 0xfffeffff.
Definition ECT_MBXPROT_COE : Z := 0x0004.
Definition ECT_MBXPROT_SOE : Z := 0x0010.
Definition ECT_COEDET_SDOCA : Z := 0x20.
Definition ECT_ESMTRANS_PS : Z := 0x0002.

(** ** Slave registers *)
Definition ECT_REG_ALCTL : Z := 0x0120.
Definition ECT_REG_ALSTAT : Z := 0x0130.
Definition ECT_REG_EEPCFG : Z := 0x0500.
Definition ECT_REG_EEPCTL : Z := 0x0502.
Definition ECT_REG_EEPSTAT : Z := 0x0502.
Definition ECT_REG_EEPDAT : Z := 0x0508.
Definition ECT_REG_SM0 : Z := 0x0800.
Definition ECT_REG_SM1 : Z := ECT_REG_SM0 + 0x08.
Definition ECT_REG_SM0STAT : Z := ECT_REG_SM0 + 0x05.
Definition ECT_REG_SM1STAT : Z := ECT_REG_SM1 + 0x05.
Definition ECT_REG_SM1CONTR : Z := ECT_REG_SM1 + 0x07.
Definition ECT_REG_DCSYSTIME : Z := 0x0910.
Definition ECT_REG_DCTIME0 : Z := 0x0900.
Definition ECT_REG_DCTIME1 : Z := 0x0904.
Definition ECT_REG_DCTIME2 : Z := 0x0908.
Definition ECT_REG_DCTIME3 : Z := 0x090C.
Definition ECT_REG_DCSOF : Z := 0x0918.
Definition ECT_REG_DCSYSOFFSET : Z := 0x0920.
Definition ECT_REG_DCSYSDELAY : Z := 0x0928.
Definition ECT_REG_DCCUC : Z := 0x0980.
Definition ECT_REG_DCSYNCACT : Z := 0x0981.
Definition ECT_REG_DCSTART0 : Z := 0x0990.
Definition ECT_REG_DCCYCLE0 : Z := 0x09A0.
Definition ECT_REG_DCCYCLE1 : Z := 0x09A4.

(** ** Start-up *)
Definition EC_SLAVECOUNTEXCEEDED : Z := -4.
Definition EC_FIRSTDCDATAGRAM : Z := 20.
Definition EC_NODEOFFSET : Z := 0x1000.
Definition EC_TEMPNODE : Z := 0xffff.
Definition EC_LOGGROUPOFFSET : Z := 16.
Definition EC_STATE_ACK : Z := 0x10.
Definition ECT_SII_GENERAL : Z := 30.
Definition ECT_SII_MANUF : Z := 0x0008.
Definition ECT_SII_ID : Z := 0x000a.
Definition ECT_SII_REV : Z := 0x000c.
Definition ECT_SII_SER : Z := 0x000e.
Definition ECT_SII_RXMBXADR : Z := 0x0018.
Definition ECT_SII_TXMBXADR : Z := 0x001a.
Definition ECT_SII_MBXPROTO : Z := 0x001c.
Definition ECT_REG_TYPE : Z := 0x0000.
Definition ECT_REG_PORTDES : Z := 0x0007.
Definition ECT_REG_ESCSUP : Z := 0x0008.
Definition ECT_REG_STADR : Z := 0x0010.
Definition ECT_REG_ALIAS : Z := 0x0012.
Definition ECT_REG_DLCTL : Z := 0x0100.
Definition ECT_REG_DLPORT : Z := 0x0101.
Definition ECT_REG_DLALIAS : Z := 0x0103.
Definition ECT_REG_DLSTAT : Z := 0x0110.
Definition ECT_REG_PDICTL : Z := 0x0140.
Definition ECT_REG_IRQMASK : Z := 0x0200.
Definition ECT_REG_RXERR : Z := 0x0300.
Definition ECT_REG_FMMU0 : Z := 0x0600.
Definition ECT_REG_DCSPEEDCNT : Z := 0x0930.
Definition ECT_REG_DCTIMEFILT : Z := 0x0934.

Definition ECT_FOE_READ : Z := 0x01.
Definition ECT_FOE_WRITE : Z := 0x02.
Definition ECT_FOE_DATA : Z := 0x03.
Definition ECT_FOE_ACK : Z := 0x04.
Definition ECT_FOE_ERROR : Z := 0x05.
Definition ECT_FOE_BUSY : Z := 0x06.

(** ** Error types *)
Definition EC_ERR_TYPE_SDO_ERROR : Z := 0.
Definition EC_ERR_TYPE_SDOINFO_ERROR : Z := 4.
Definition EC_ERR_TYPE_FOE_ERROR : Z := 5.
Definition EC_ERR_TYPE_FOE_BUF2SMALL : Z := 6.
Definition EC_ERR_TYPE_FOE_PACKETNUMBER : Z := 7.
Definition EC_ERR_TYPE_SOE_ERROR : Z := 8.
Definition EC_ERR_TYPE_FOE_FILE_NOTFOUND : Z := 10.
Definition EC_ERR_TYPE_EOE_INVALID_RX_DATA : Z := 11.
Definition EC_ERR_TYPE_EMERGENCY : Z := 1.
Definition EC_ERR_TYPE_PACKET_ERROR : Z := 3.
Definition EC_ERR_TYPE_MBX_ERROR : Z := 9.

(** ** Helper macros *)
Definition LO_WORD (l : Z) : Z := Z.land l 0xffff.
Definition HI_WORD (l : Z) : Z := Z.shiftr l 16.
Definition LO_BYTE (w : Z) : Z := Z.land w 0x00ff.
Definition MBX_HDR_SET_CNT (cnt : Z) : Z := u8 (Z.shiftl cnt 4).
Definition HI_BYTE (w : Z) : Z := Z.shiftr w 8.

(** The target is little endian: [htoes], [etohs] and their kin are the identity.
    A value of [n] bytes in a packed struct is [le_bytes n]. *)
Definition htons_bytes (host : Z) : list Z := [host / 256 mod 256; host mod 256].
Definition ntohs_of (hi lo : Z) : Z := hi * 256 + lo.

Create HintDb ec_const discriminated.
#[export] Hint Unfold
  EC_MAXECATFRAME EC_BUFSIZE EC_MAXBUF EC_MAXEEPBITMAP EC_MAXEEPBUF EC_MAXELIST EC_MAXNAME
  EC_MAXSLAVE EC_MAXGROUP EC_MAXMBX EC_MBXPOOLSIZE EC_MAXEEPDO EC_MAXSM EC_TIMEOUTRET
  EC_TIMEOUTRET3 EC_TIMEOUTEEP EC_DEFAULTRETRIES EC_NOFRAME EC_OTHERFRAME EC_TIMEOUT
  EC_ECATTYPE ETH_HEADERSIZE EC_HEADERSIZE EC_ELENGTHSIZE EC_CMDOFFSET EC_WKCSIZE
  EC_DATAGRAMFOLLOWS EC_MAXLRWDATA ETH_P_ECAT
  ETH_da0 ETH_da1 ETH_da2 ETH_sa0 ETH_sa1 ETH_sa2 ETH_etype
  COM_elength COM_command COM_index COM_ADP COM_ADO COM_dlength
  EC_STATE_INIT EC_STATE_PRE_OP EC_STATE_BOOT EC_STATE_SAFE_OP EC_STATE_OPERATIONAL
  EC_STATE_ERROR EC_BUF_EMPTY EC_BUF_ALLOC EC_BUF_TX EC_BUF_RCVD EC_BUF_COMPLETE
  EC_CMD_NOP EC_CMD_APRD EC_CMD_APWR EC_CMD_FPRD EC_CMD_FPWR EC_CMD_BRD EC_CMD_BWR
  EC_CMD_LRD EC_CMD_LWR EC_CMD_LRW EC_CMD_ARMW EC_CMD_FRMW
  EC_ECMD_NOP EC_ECMD_READ EC_ECMD_WRITE EC_ESTAT_R64 EC_ESTAT_BUSY EC_ESTAT_EMASK
  EC_ESTAT_NACK ECT_SII_START : ec_const.

Ltac ec_unfold := autounfold with ec_const in *.
