(* ===== verification/Nicdrv.v ===== *)
(** * Raw socket driver (oshw/linux/nicdrv.c, nicdrv.h)

    Frame buffers, the index that pairs a sent frame with its answer, transmission and
    reception on one or two network interfaces.  [ec_stackT] holds the arrays its
    pointers refer to: [ecx_setupnic] sets them once, to the arrays of the port for the
    primary stack and of the redundant port for the secondary one, except the transmit
    buffers, which both stacks share and which stay in [ecx_portt]. *)

From S2P Require Import Prelude Types Osal.

(** ** State *)

Record ec_stackT : Type := EcStack {
  sock : Z;
  tempbuf : list Z;
  rxbuf : list (list Z);
  rxbufstat : list Z;
  rxsa : list Z;
  rxcnt : Z;
}.

Record ecx_portt : Type := EcxPort {
  stack : ec_stackT;
  tempinbufs : Z;
  txbuf : list (list Z);
  txbuflength : list Z;
  txbuf2 : list Z;
  txbuflength2 : Z;
  lastidx : Z;
  redstate : Z;
  redport : option ec_stackT;
}.

(** The port together with the kernel it talks to. *)
Record world (E : Type) : Type := World { port : ecx_portt; kernel : E }.
Arguments World {E}.
Arguments port {E}.
Arguments kernel {E}.

Definition ECT_RED_NONE : Z := 0.
Definition ECT_RED_DOUBLE : Z := 1.
Definition priMAC : list Z := [0x0101; 0x0101; 0x0101].
Definition secMAC : list Z := [0x0404; 0x0404; 0x0404].
Definition RX_PRIM : Z := 0x0101.
Definition RX_SEC : Z := 0x0404.

Section Driver.
Context {E : Type} `{OS E} `{LoopFuel}.
Abbreviation D := (M (world E)).

(** ** Access to the state *)

Definition kern {A} (m : M E A) : D A :=
  zoom kernel (fun e w => w <| kernel := e |>) m.
Definition pget {A} (f : ecx_portt -> A) : D A := gets (fun w => f (port w)).
Definition pmod (f : ecx_portt -> ecx_portt) : D unit :=
  modify (fun w => w <| port ::= f |>).
Definition oob {A} (o : option A) : D A := of_opt OutOfBounds o.

(** [stack = !stacknumber ? &(port->stack) : &(port->redport->stack)]. *)
Definition get_stack (stacknumber : Z) : D ec_stackT :=
  if stacknumber =? 0 then pget stack
  else let* r := pget redport in of_opt NullPointer r.
Definition put_stack (stacknumber : Z) (s : ec_stackT) : D unit :=
  if stacknumber =? 0 then pmod (fun p => p <| stack := s |>)
  else pmod (fun p => p <| redport := Some s |>).

(** [stack->rxbufstat[idx] = v]. *)
Definition set_rxbufstat (stacknumber idx v : Z) : D unit :=
  let* s := get_stack stacknumber in
  let* l := oob (zset (rxbufstat s) idx v) in
  put_stack stacknumber (s <| rxbufstat := l |>).

(** [memcpy(&port->txbuf[idx][off], bs, ...)]. *)
Definition write_txbuf (idx off : Z) (bs : list Z) : D unit :=
  let* bufs := pget txbuf in
  let* b := oob (zget bufs idx) in
  let* b' := oob (zblit b off bs) in
  let* bufs' := oob (zset bufs idx b') in
  pmod (fun p => p <| txbuf := bufs' |>).
Definition write_txbuf2 (off : Z) (bs : list Z) : D unit :=
  let* b := pget txbuf2 in
  let* b' := oob (zblit b off bs) in
  pmod (fun p => p <| txbuf2 := b' |>).

(** ** Set up and close *)

(** Fill a buffer with the fixed ethernet header. *)
Definition ec_setupheader (p : list Z) : option (list Z) :=
  zblit p 0 (htons_bytes 0xffff ++ htons_bytes 0xffff ++ htons_bytes 0xffff
             ++ htons_bytes 0x0101 ++ htons_bytes 0x0101 ++ htons_bytes 0x0101
             ++ htons_bytes ETH_P_ECAT).

Definition ecx_clear_rxbufstat (rxbufstat : list Z) : list Z :=
  (fun _ => EC_BUF_EMPTY) <$> rxbufstat.

(** [ecx_setupnic].  The mutexes are not state of the model: every operation below is
    the body of one critical section or runs on data of its own index. *)
Definition ecx_setupnic (ifname : list Z) (secondary : bool) : D Z :=
  let* ready :=
    (if secondary then
       let* r := pget redport in
       match r with
       | Some red =>
           do* pmod (fun p => p <| redstate := ECT_RED_DOUBLE |>
                                <| redport := Some (red <| sock := -1 |>
                                     <| rxbufstat ::= ecx_clear_rxbufstat |>) |>) in
           ret true
       | None => ret false
       end
     else
       do* pmod (fun p => p <| lastidx := 0 |> <| redstate := ECT_RED_NONE |>
                            <| stack ::= (fun s => s <| sock := -1 |>
                                            <| rxbufstat ::= ecx_clear_rxbufstat |>) |>) in
       ret true) in
  if negb ready then ret 0 else
  let stacknumber := b2z secondary in
  let* fd := kern (syscall os_socket) in
  let* s := get_stack stacknumber in
  do* put_stack stacknumber (s <| sock := fd |>) in
  if fd <? 0 then ret 0 else
  let* r := kern (syscall (os_nicconf fd ifname)) in
  do* for_range (Z.to_nat EC_MAXBUF) (fun i _ =>
        let* bufs := pget txbuf in
        let* b := oob (zget bufs i) in
        let* b' := oob (ec_setupheader b) in
        let* bufs' := oob (zset bufs i b') in
        do* pmod (fun p => p <| txbuf := bufs' |>) in
        set_rxbufstat 0 i EC_BUF_EMPTY) 0 tt in
  let* b2 := pget txbuf2 in
  let* b2' := oob (ec_setupheader b2) in
  do* pmod (fun p => p <| txbuf2 := b2' |>) in
  ret (if r =? 0 then 1 else 0).

Definition ecx_closenic : D Z :=
  let* s := pget stack in
  do* when (0 <=? sock s) (kern (modify (os_close (sock s)))) in
  let* r := pget redport in
  do* match r with
      | Some red => when (0 <=? sock red) (kern (modify (os_close (sock red))))
      | None => ret tt
      end in
  ret 0.

(** ** Frame indices *)

(** Get a new frame identifier and allocate the receive buffer of that index. *)
Definition ecx_getindex : D Z :=
  let* last := pget lastidx in
  let idx := u8 (last + 1) in
  let idx := if EC_MAXBUF <=? idx then 0 else idx in
  let* r := while_do (S (Z.to_nat EC_MAXBUF))
    (fun '(idx, cnt) =>
       let* s := pget stack in
       let* st := oob (zget (rxbufstat s) idx) in
       ret (negb (st =? EC_BUF_EMPTY) && (cnt <? EC_MAXBUF)))
    (fun '(idx, cnt) =>
       let idx := u8 (idx + 1) in
       let cnt := u8 (cnt + 1) in
       let idx := if EC_MAXBUF <=? idx then 0 else idx in
       ret (idx, cnt))
    (idx, 0) in
  let idx := r.1 in
  do* set_rxbufstat 0 idx EC_BUF_ALLOC in
  let* red := pget redstate in
  do* when (negb (red =? ECT_RED_NONE)) (set_rxbufstat 1 idx EC_BUF_ALLOC) in
  do* pmod (fun p => p <| lastidx := idx |>) in
  ret idx.

Definition ecx_setbufstat (idx bufstat : Z) : D unit :=
  do* set_rxbufstat 0 idx bufstat in
  let* red := pget redstate in
  when (negb (red =? ECT_RED_NONE)) (set_rxbufstat 1 idx bufstat).

(** ** Transmission *)

Definition ecx_outframe (idx stacknumber : Z) : D Z :=
  let* s := get_stack stacknumber in
  let* lens := pget txbuflength in
  let* lp := oob (zget lens idx) in
  do* set_rxbufstat stacknumber idx EC_BUF_TX in
  let* bufs := pget txbuf in
  let* b := oob (zget bufs idx) in
  let* frame := oob (zslice b 0 lp) in
  let* rval := kern (syscall (os_send (sock s) frame)) in
  do* when (rval =? -1) (set_rxbufstat stacknumber idx EC_BUF_EMPTY) in
  ret rval.

Definition ecx_outframe_red (idx : Z) : D Z :=
  do* write_txbuf idx ETH_sa1 (htons_bytes RX_PRIM) in
  let* rval := ecx_outframe idx 0 in
  let* red := pget redstate in
  do* when (negb (red =? ECT_RED_NONE))
    (do* write_txbuf2 (ETH_HEADERSIZE + COM_index) [idx] in
     do* write_txbuf2 ETH_sa1 (htons_bytes RX_SEC) in
     do* set_rxbufstat 1 idx EC_BUF_TX in
     let* s := get_stack 1 in
     let* b := pget txbuf2 in
     let* lp := pget txbuflength2 in
     let* frame := oob (zslice b 0 lp) in
     let* r := kern (syscall (os_send (sock s) frame)) in
     when (r =? -1) (set_rxbufstat 1 idx EC_BUF_EMPTY)) in
  ret rval.

(** ** Reception *)

(** Non blocking read of the socket into the temporary buffer.  A raw socket cuts a
    longer packet to the buffer size. *)
Definition ecx_recvpkt (stacknumber : Z) : D bool :=
  let* s := get_stack stacknumber in
  let lp := EC_BUFSIZE in
  let* got := kern (syscall (os_recv (sock s) lp)) in
  match got with
  | Some bs =>
      let bs := take (Z.to_nat lp) bs in
      let* t := oob (zblit (tempbuf s) 0 bs) in
      do* put_stack stacknumber (s <| tempbuf := t |>) in
      do* pmod (fun p => p <| tempinbufs := zlen bs |>) in
      ret (0 <? zlen bs)
  | None =>
      do* pmod (fun p => p <| tempinbufs := -1 |>) in
      ret false
  end.

(** The work counter at offset [l] of a receive buffer. *)
Definition wkc_at (buf : list Z) (l : Z) : option Z :=
  b0 ← zget buf l; b1 ← zget buf (l + 1); Some (b0 + Z.shiftl b1 8).

(** The branch of [ecx_inframe] for a frame that is already in its buffer. *)
Definition inframe_rcvd (idx stacknumber : Z) : D Z :=
  let* s := get_stack stacknumber in
  let* b := oob (zget (rxbuf s) idx) in
  let* b0 := oob (zget b 0) in
  let* b1 := oob (zget b 1) in
  let l := b0 + Z.shiftl (Z.land b1 0x0f) 8 in
  let* rval := oob (wkc_at b l) in
  do* set_rxbufstat stacknumber idx EC_BUF_COMPLETE in
  ret rval.

(** [memcpy(&rxbuf[i], &tempbuf[ETH_HEADERSIZE], txbuflength[i] - ETH_HEADERSIZE)],
    then the status and the source address of index [i]. *)
Definition store_frame (stacknumber i status : Z) : D (list Z) :=
  let* s := get_stack stacknumber in
  let* lens := pget txbuflength in
  let* len := oob (zget lens i) in
  let* payload := oob (zslice (tempbuf s) ETH_HEADERSIZE (len - ETH_HEADERSIZE)) in
  let* b := oob (zget (rxbuf s) i) in
  let* b' := oob (zblit b 0 payload) in
  let* bufs' := oob (zset (rxbuf s) i b') in
  let* stat' := oob (zset (rxbufstat s) i status) in
  let* hi := oob (zget (tempbuf s) ETH_sa1) in
  let* lo := oob (zget (tempbuf s) (ETH_sa1 + 1)) in
  let* sa' := oob (zset (rxsa s) i (ntohs_of hi lo)) in
  do* put_stack stacknumber (s <| rxbuf := bufs' |> <| rxbufstat := stat' |>
                               <| rxsa := sa' |>) in
  ret b'.

(** A frame in the temporary buffer: the caller's own, one that another caller waits
    for, or a strange one. *)
Definition inframe_sort (idx stacknumber : Z) : D Z :=
  let* s := get_stack stacknumber in
  let* e0 := oob (zget (tempbuf s) ETH_etype) in
  let* e1 := oob (zget (tempbuf s) (ETH_etype + 1)) in
  if negb (ntohs_of e0 e1 =? ETH_P_ECAT) then ret EC_OTHERFRAME else
  do* put_stack stacknumber (s <| rxcnt ::= (fun c => u64 (c + 1)) |>) in
  let* l0 := oob (zget (tempbuf s) (ETH_HEADERSIZE + COM_elength)) in
  let* l1 := oob (zget (tempbuf s) (ETH_HEADERSIZE + COM_elength + 1)) in
  let l := Z.land (l0 + Z.shiftl l1 8) 0x0fff in
  let* idxf := oob (zget (tempbuf s) (ETH_HEADERSIZE + COM_index)) in
  if idxf =? idx then
    let* b := store_frame stacknumber idx EC_BUF_COMPLETE in
    oob (wkc_at b l)
  else
    let* stf := (if idxf <? EC_MAXBUF then oob (zget (rxbufstat s) idxf)
                 else ret EC_BUF_EMPTY) in
    if (idxf <? EC_MAXBUF) && (stf =? EC_BUF_TX) then
      let* _b := store_frame stacknumber idxf EC_BUF_RCVD in
      ret EC_OTHERFRAME
    else ret EC_OTHERFRAME.

(** Non blocking receive: the work counter of frame [idx], [EC_NOFRAME] when nothing
    has arrived, [EC_OTHERFRAME] when a frame of another index has. *)
Definition ecx_inframe (idx stacknumber : Z) : D Z :=
  let* s := get_stack stacknumber in
  let* st := (if idx <? EC_MAXBUF then oob (zget (rxbufstat s) idx) else ret EC_BUF_EMPTY) in
  if (idx <? EC_MAXBUF) && (st =? EC_BUF_RCVD) then inframe_rcvd idx stacknumber
  else
    (* the same test again, inside the critical section *)
    let* s := get_stack stacknumber in
    let* st := (if idx <? EC_MAXBUF then oob (zget (rxbufstat s) idx) else ret EC_BUF_EMPTY) in
    if (idx <? EC_MAXBUF) && (st =? EC_BUF_RCVD) then inframe_rcvd idx stacknumber
    else
      let* got := ecx_recvpkt stacknumber in
      if negb got then ret EC_NOFRAME else inframe_sort idx stacknumber.

(** [memcpy(&port->rxbuf[idx], &port->redport->rxbuf[idx], txbuflength[idx] - 14)]. *)
Definition copy_red_to_primary (idx : Z) : D unit :=
  let* s := get_stack 0 in
  let* r := get_stack 1 in
  let* lens := pget txbuflength in
  let* len := oob (zget lens idx) in
  let* src := oob (zget (rxbuf r) idx) in
  let* payload := oob (zslice src 0 (len - ETH_HEADERSIZE)) in
  let* b := oob (zget (rxbuf s) idx) in
  let* b' := oob (zblit b 0 payload) in
  let* bufs' := oob (zset (rxbuf s) idx b') in
  put_stack 0 (s <| rxbuf := bufs' |>).

(** [memcpy(&port->txbuf[idx][14], &port->rxbuf[idx], txbuflength[idx] - 14)]. *)
Definition copy_rx_to_tx (idx : Z) : D unit :=
  let* s := get_stack 0 in
  let* lens := pget txbuflength in
  let* len := oob (zget lens idx) in
  let* src := oob (zget (rxbuf s) idx) in
  let* payload := oob (zslice src 0 (len - ETH_HEADERSIZE)) in
  write_txbuf idx ETH_HEADERSIZE payload.

(** The polling loop of [ecx_waitinframe_red]: both work counters. *)
Definition waitinframe_poll (idx : Z) (timer : ec_timet) : D (Z * Z) :=
  let* red := pget redstate in
  let wkc2 := if red =? ECT_RED_NONE then 0 else EC_NOFRAME in
  let* s := pget stack in
  let* fds :=
    (if red =? ECT_RED_NONE then ret [sock s]
     else let* r := get_stack 1 in ret [sock s; sock r]) in
  do_while loop_fuel (fun '(wkc, wkc2) =>
      let* poll_err := kern (syscall (os_ppoll fds)) in
      let* w :=
        (if 0 <=? poll_err then
           let* wkc := (if wkc <=? EC_NOFRAME then ecx_inframe idx 0 else ret wkc) in
           let* wkc2 :=
             (if negb (red =? ECT_RED_NONE) && (wkc2 <=? EC_NOFRAME)
              then ecx_inframe idx 1 else ret wkc2) in
           ret (wkc, wkc2)
         else ret (wkc, wkc2)) in
      if (w.1 <=? EC_NOFRAME) || (w.2 <=? EC_NOFRAME) then
        let* expired := kern (osal_timer_is_expired timer) in
        ret (negb expired, w)
      else ret (false, w)) (EC_NOFRAME, wkc2).

(** Retransmission over the secondary interface: its work counter. *)
Definition waitinframe_resend (idx : Z) (wkc2 : Z) : D Z :=
  let* timer2 := kern (osal_timer_start EC_TIMEOUTRET) in
  let* _r := ecx_outframe idx 1 in
  do_while loop_fuel (fun _ : Z =>
      let* wkc2 := ecx_inframe idx 1 in
      if wkc2 <=? EC_NOFRAME then
        let* expired := kern (osal_timer_is_expired timer2) in
        ret (negb expired, wkc2)
      else ret (false, wkc2)) wkc2.

(** Blocking receive with the redundancy decision tree. *)
Definition ecx_waitinframe_red (idx : Z) (timer : ec_timet) : D Z :=
  let* w := waitinframe_poll idx timer in
  let wkc := w.1 in
  let wkc2 := w.2 in
  let* red := pget redstate in
  if red =? ECT_RED_NONE then ret wkc else
  let* s := get_stack 0 in
  let* r := get_stack 1 in
  let* primrx := (if EC_NOFRAME <? wkc then oob (zget (rxsa s) idx) else ret 0) in
  let* secrx := (if EC_NOFRAME <? wkc2 then oob (zget (rxsa r) idx) else ret 0) in
  let* wkc :=
    (if (primrx =? RX_SEC) && (secrx =? RX_PRIM) then
       do* copy_red_to_primary idx in ret wkc2
     else ret wkc) in
  if ((primrx =? 0) && (secrx =? RX_SEC)) || ((primrx =? RX_PRIM) && (secrx =? RX_SEC)) then
    do* when ((primrx =? RX_PRIM) && (secrx =? RX_SEC)) (copy_rx_to_tx idx) in
    let* wkc2 := waitinframe_resend idx wkc2 in
    if EC_NOFRAME <? wkc2 then do* copy_red_to_primary idx in ret wkc2
    else ret wkc
  else ret wkc.

Definition ecx_waitinframe (idx timeout : Z) : D Z :=
  let* timer := kern (osal_timer_start timeout) in
  ecx_waitinframe_red idx timer.

(** Send a frame and wait for its answer; retry while no frame comes back and the
    timeout has not passed. *)
Definition ecx_srconfirm (idx timeout : Z) : D Z :=
  let* timer1 := kern (osal_timer_start timeout) in
  do_while loop_fuel (fun _ : Z =>
      let* _r := ecx_outframe_red idx in
      let* timer2 :=
        kern (osal_timer_start (if timeout <? EC_TIMEOUTRET then timeout else EC_TIMEOUTRET)) in
      let* wkc := ecx_waitinframe_red idx timer2 in
      if wkc <=? EC_NOFRAME then
        let* expired := kern (osal_timer_is_expired timer1) in
        ret (negb expired, wkc)
      else ret (false, wkc)) EC_NOFRAME.
End Driver.
