(* ===== verification/Datagram.v ===== *)
(** * Datagrams and blocking transfers (src/ec_base.c)

    Building datagrams in an ethernet frame, and the broadcast, auto increment,
    configured and logical transfers.  A transfer takes the caller's data buffer and
    returns the work counter with the buffer as the transfer leaves it. *)

From S2P Require Import Prelude Types Osal Nicdrv.

(** The frame buffers a datagram can be built in. *)
Inductive frame_loc : Type := TxBuf (idx : Z) | TxBuf2.

Section Base.
Context {E : Type} `{OS E} `{LoopFuel}.
Abbreviation D := (M (world E)).

Definition write_frame (frame : frame_loc) (off : Z) (bs : list Z) : D unit :=
  match frame with
  | TxBuf i => write_txbuf i off bs
  | TxBuf2 => write_txbuf2 off bs
  end.

Definition read_frame (frame : frame_loc) (off n : Z) : D (list Z) :=
  let* b := match frame with
            | TxBuf i => let* bufs := pget txbuf in oob (zget bufs i)
            | TxBuf2 => pget txbuf2
            end in
  oob (zslice b off n).

Definition set_txbuflength (idx v : Z) : D unit :=
  let* lens := pget txbuflength in
  let* lens' := oob (zset lens idx v) in
  pmod (fun p => p <| txbuflength := lens' |>).

(** Write the data part of a datagram: nothing to write for the read commands, so
    zeroes put the frame in a known state. *)
Definition ecx_writedatagramdata (frame : frame_loc) (off com length : Z)
    (data : list Z) : D unit :=
  if 0 <? length then
    if (com =? EC_CMD_NOP) || (com =? EC_CMD_APRD) || (com =? EC_CMD_FPRD)
       || (com =? EC_CMD_BRD) || (com =? EC_CMD_LRD)
    then write_frame frame off (replicate (Z.to_nat length) 0)
    else let* src := oob (zslice data 0 length) in write_frame frame off src
  else ret tt.

(** Generate the first datagram of a frame. *)
Definition ecx_setupdatagram (frame : frame_loc) (com idx ADP ADO length : Z)
    (data : list Z) : D Z :=
  let datagramP := ETH_HEADERSIZE in
  do* write_frame frame (datagramP + COM_elength)
        (le_bytes 2 (EC_ECATTYPE + EC_HEADERSIZE + length)) in
  do* write_frame frame (datagramP + COM_command) [u8 com] in
  do* write_frame frame (datagramP + COM_index) [u8 idx] in
  do* write_frame frame (datagramP + COM_ADP) (le_bytes 2 ADP) in
  do* write_frame frame (datagramP + COM_ADO) (le_bytes 2 ADO) in
  do* write_frame frame (datagramP + COM_dlength) (le_bytes 2 length) in
  do* ecx_writedatagramdata frame (ETH_HEADERSIZE + EC_HEADERSIZE) com length data in
  do* write_frame frame (ETH_HEADERSIZE + EC_HEADERSIZE + length) [0] in
  do* write_frame frame (ETH_HEADERSIZE + EC_HEADERSIZE + length + 1) [0] in
  do* set_txbuflength idx (ETH_HEADERSIZE + EC_HEADERSIZE + EC_WKCSIZE + length) in
  ret 0.

(** Append a datagram to the frame of index [idx]; the result is the offset of its
    data in the received frame. *)
Definition ecx_adddatagram (frame : frame_loc) (com idx : Z) (more : bool)
    (ADP ADO length : Z) (data : list Z) : D Z :=
  let* lens := pget txbuflength in
  let* len := oob (zget lens idx) in
  let prevlength := u16 len in
  let* el := read_frame frame (ETH_HEADERSIZE + COM_elength) 2 in
  do* write_frame frame (ETH_HEADERSIZE + COM_elength)
        (le_bytes 2 (of_le el + EC_HEADERSIZE + length)) in
  let* dl := read_frame frame (ETH_HEADERSIZE + COM_dlength) 2 in
  do* write_frame frame (ETH_HEADERSIZE + COM_dlength)
        (le_bytes 2 (Z.lor (of_le dl) EC_DATAGRAMFOLLOWS)) in
  let datagramP := prevlength - EC_ELENGTHSIZE in
  do* write_frame frame (datagramP + COM_command) [u8 com] in
  do* write_frame frame (datagramP + COM_index) [u8 idx] in
  do* write_frame frame (datagramP + COM_ADP) (le_bytes 2 ADP) in
  do* write_frame frame (datagramP + COM_ADO) (le_bytes 2 ADO) in
  do* write_frame frame (datagramP + COM_dlength)
        (le_bytes 2 (if more then Z.lor length EC_DATAGRAMFOLLOWS else length)) in
  do* ecx_writedatagramdata frame (prevlength + EC_HEADERSIZE - EC_ELENGTHSIZE) com
        length data in
  do* write_frame frame (prevlength + EC_HEADERSIZE - EC_ELENGTHSIZE + length) [0] in
  do* write_frame frame (prevlength + EC_HEADERSIZE - EC_ELENGTHSIZE + length + 1) [0] in
  do* set_txbuflength idx
        (prevlength + EC_HEADERSIZE - EC_ELENGTHSIZE + EC_WKCSIZE + length) in
  ret (u16 (prevlength + EC_HEADERSIZE - EC_ELENGTHSIZE - ETH_HEADERSIZE)).

(** [memcpy(data, &port->rxbuf[idx][off], length)] into the caller's buffer. *)
Definition read_rxbuf (idx off length : Z) : D (list Z) :=
  let* s := pget stack in
  let* b := oob (zget (rxbuf s) idx) in
  oob (zslice b off length).
Definition copy_rx_to_data (idx off length : Z) (data : list Z) : D (list Z) :=
  let* src := read_rxbuf idx off length in
  oob (zblit data 0 src).
(** [port->rxbuf[idx][EC_CMDOFFSET]]. *)
Definition rx_command (idx : Z) : D Z :=
  let* s := pget stack in
  let* b := oob (zget (rxbuf s) idx) in
  oob (zget b EC_CMDOFFSET).

(** ** Transfers *)

(** Broadcast write. *)
Definition ecx_BWR (ADP ADO length : Z) (data : list Z) (timeout : Z) : D Z :=
  let* idx := ecx_getindex in
  let* _r := ecx_setupdatagram (TxBuf idx) EC_CMD_BWR idx ADP ADO length data in
  let* wkc := ecx_srconfirm idx timeout in
  do* ecx_setbufstat idx EC_BUF_EMPTY in
  ret wkc.

(** Broadcast read. *)
Definition ecx_BRD (ADP ADO length : Z) (data : list Z) (timeout : Z)
    : D (Z * list Z) :=
  let* idx := ecx_getindex in
  let* _r := ecx_setupdatagram (TxBuf idx) EC_CMD_BRD idx ADP ADO length data in
  let* wkc := ecx_srconfirm idx timeout in
  let* data := (if 0 <? wkc then copy_rx_to_data idx EC_HEADERSIZE length data
                else ret data) in
  do* ecx_setbufstat idx EC_BUF_EMPTY in
  ret (wkc, data).

(** Auto increment read. *)
Definition ecx_APRD (ADP ADO length : Z) (data : list Z) (timeout : Z)
    : D (Z * list Z) :=
  let* idx := ecx_getindex in
  let* _r := ecx_setupdatagram (TxBuf idx) EC_CMD_APRD idx ADP ADO length data in
  let* wkc := ecx_srconfirm idx timeout in
  let* data := (if 0 <? wkc then copy_rx_to_data idx EC_HEADERSIZE length data
                else ret data) in
  do* ecx_setbufstat idx EC_BUF_EMPTY in
  ret (wkc, data).

(** Auto increment read, multiple write. *)
Definition ecx_ARMW (ADP ADO length : Z) (data : list Z) (timeout : Z)
    : D (Z * list Z) :=
  let* idx := ecx_getindex in
  let* _r := ecx_setupdatagram (TxBuf idx) EC_CMD_ARMW idx ADP ADO length data in
  let* wkc := ecx_srconfirm idx timeout in
  let* data := (if 0 <? wkc then copy_rx_to_data idx EC_HEADERSIZE length data
                else ret data) in
  do* ecx_setbufstat idx EC_BUF_EMPTY in
  ret (wkc, data).

(** Configured address read, multiple write. *)
Definition ecx_FRMW (ADP ADO length : Z) (data : list Z) (timeout : Z)
    : D (Z * list Z) :=
  let* idx := ecx_getindex in
  let* _r := ecx_setupdatagram (TxBuf idx) EC_CMD_FRMW idx ADP ADO length data in
  let* wkc := ecx_srconfirm idx timeout in
  let* data := (if 0 <? wkc then copy_rx_to_data idx EC_HEADERSIZE length data
                else ret data) in
  do* ecx_setbufstat idx EC_BUF_EMPTY in
  ret (wkc, data).

(** Auto increment read of a word. *)
Definition ecx_APRDw (ADP ADO timeout : Z) : D Z :=
  let* r := ecx_APRD ADP ADO 2 [0; 0] timeout in
  ret (of_le r.2).

(** Configured address read. *)
Definition ecx_FPRD (ADP ADO length : Z) (data : list Z) (timeout : Z)
    : D (Z * list Z) :=
  let* idx := ecx_getindex in
  let* _r := ecx_setupdatagram (TxBuf idx) EC_CMD_FPRD idx ADP ADO length data in
  let* wkc := ecx_srconfirm idx timeout in
  let* data := (if 0 <? wkc then copy_rx_to_data idx EC_HEADERSIZE length data
                else ret data) in
  do* ecx_setbufstat idx EC_BUF_EMPTY in
  ret (wkc, data).

(** Configured address read of a word. *)
Definition ecx_FPRDw (ADP ADO timeout : Z) : D Z :=
  let* r := ecx_FPRD ADP ADO 2 [0; 0] timeout in
  ret (of_le r.2).

(** Auto increment write. *)
Definition ecx_APWR (ADP ADO length : Z) (data : list Z) (timeout : Z) : D Z :=
  let* idx := ecx_getindex in
  let* _r := ecx_setupdatagram (TxBuf idx) EC_CMD_APWR idx ADP ADO length data in
  let* wkc := ecx_srconfirm idx timeout in
  do* ecx_setbufstat idx EC_BUF_EMPTY in
  ret wkc.

Definition ecx_APWRw (ADP ADO data timeout : Z) : D Z :=
  ecx_APWR ADP ADO 2 (le_bytes 2 data) timeout.

(** Configured address write. *)
Definition ecx_FPWR (ADP ADO length : Z) (data : list Z) (timeout : Z) : D Z :=
  let* idx := ecx_getindex in
  let* _r := ecx_setupdatagram (TxBuf idx) EC_CMD_FPWR idx ADP ADO length data in
  let* wkc := ecx_srconfirm idx timeout in
  do* ecx_setbufstat idx EC_BUF_EMPTY in
  ret wkc.

Definition ecx_FPWRw (ADP ADO data timeout : Z) : D Z :=
  ecx_FPWR ADP ADO 2 (le_bytes 2 data) timeout.

(** Logical memory read and write. *)
Definition ecx_LRW (LogAdr length : Z) (data : list Z) (timeout : Z)
    : D (Z * list Z) :=
  let* idx := ecx_getindex in
  let* _r := ecx_setupdatagram (TxBuf idx) EC_CMD_LRW idx (LO_WORD LogAdr)
               (HI_WORD LogAdr) length data in
  let* wkc := ecx_srconfirm idx timeout in
  let* data := (if 0 <? wkc then
                  let* com := rx_command idx in
                  if com =? EC_CMD_LRW then copy_rx_to_data idx EC_HEADERSIZE length data
                  else ret data
                else ret data) in
  do* ecx_setbufstat idx EC_BUF_EMPTY in
  ret (wkc, data).

(** Logical memory read. *)
Definition ecx_LRD (LogAdr length : Z) (data : list Z) (timeout : Z)
    : D (Z * list Z) :=
  let* idx := ecx_getindex in
  let* _r := ecx_setupdatagram (TxBuf idx) EC_CMD_LRD idx (LO_WORD LogAdr)
               (HI_WORD LogAdr) length data in
  let* wkc := ecx_srconfirm idx timeout in
  let* data := (if 0 <? wkc then
                  let* com := rx_command idx in
                  if com =? EC_CMD_LRD then copy_rx_to_data idx EC_HEADERSIZE length data
                  else ret data
                else ret data) in
  do* ecx_setbufstat idx EC_BUF_EMPTY in
  ret (wkc, data).

(** Logical memory write. *)
Definition ecx_LWR (LogAdr length : Z) (data : list Z) (timeout : Z) : D Z :=
  let* idx := ecx_getindex in
  let* _r := ecx_setupdatagram (TxBuf idx) EC_CMD_LWR idx (LO_WORD LogAdr)
               (HI_WORD LogAdr) length data in
  let* wkc := ecx_srconfirm idx timeout in
  do* ecx_setbufstat idx EC_BUF_EMPTY in
  ret wkc.

(** Logical read and write with clock distribution: a second datagram reads the
    reference clock [DCrs].  Results: work counter, data, DC time. *)
Definition ecx_LRWDC (LogAdr length : Z) (data : list Z) (DCrs DCtime timeout : Z)
    : D (Z * list Z * Z) :=
  let* idx := ecx_getindex in
  let* _r := ecx_setupdatagram (TxBuf idx) EC_CMD_LRW idx (LO_WORD LogAdr)
               (HI_WORD LogAdr) length data in
  let* DCtO := ecx_adddatagram (TxBuf idx) EC_CMD_FRMW idx false DCrs ECT_REG_DCSYSTIME
                 8 (le_bytes 8 DCtime) in
  let* wkc := ecx_srconfirm idx timeout in
  let* out :=
    (if 0 <? wkc then
       let* com := rx_command idx in
       if com =? EC_CMD_LRW then
         let* data := copy_rx_to_data idx EC_HEADERSIZE length data in
         (* the two bytes replace the low half of the positive [int] wkc *)
         let* w := read_rxbuf idx (EC_HEADERSIZE + length) EC_WKCSIZE in
         let wkc := of_le w + Z.shiftl (Z.shiftr wkc 16) 16 in
         let* t := read_rxbuf idx DCtO 8 in
         ret (wkc, data, s64 (of_le t))
       else ret (wkc, data, DCtime)
     else ret (wkc, data, DCtime)) in
  do* ecx_setbufstat idx EC_BUF_EMPTY in
  ret out.
End Base.
