(* ===== verification/ErrorRing.v ===== *)
(** * The error list (src/ec_main.c, [ec_eringt])

    A ring of [EC_MAXELIST + 1] error records, the [ecaterror] flag, and the functions
    that report errors.  The abstract contract is a queue that drops its oldest entry
    when a new one does not fit. *)

From S2P Require Import Prelude Ring Types Osal.

(** ** Data *)

(** The union of [ec_errort] is stored as its emergency structure; [AbortCode] is the
    32-bit view of [ErrorCode], [ErrorReg] and [b1]. *)
Record ec_errort : Type := EcError {
  Time : ec_timet;
  Signal : bool;
  Slave : Z;
  Index : Z;
  SubIdx : Z;
  Etype : Z;
  ErrorCode : Z;
  ErrorReg : Z;
  b1 : Z;
  w1 : Z;
  w2 : Z;
}.

Record ec_eringt : Type := EcEring {
  head : Z;
  tail : Z;
  Error : list ec_errort;
}.

(** The error list and the flag [context->ecaterror]. *)
Record estate : Type := EState { elist : ec_eringt; ecaterror : bool }.

Definition ec_error_zero : ec_errort :=
  EcError (TimeSpec 0 0) false 0 0 0 0 0 0 0 0 0.

(** ** Operations *)

Abbreviation EM := (M estate).

Definition ecx_pusherror (Ec : ec_errort) : EM unit :=
  let* l := gets elist in
  let* errs := of_opt OutOfBounds (zset (Error l) (head l) (Ec <| Signal := true |>)) in
  let head' := head l + 1 in
  let head' := if EC_MAXELIST <? head' then 0 else head' in
  let tail' := if head' =? tail l then tail l + 1 else tail l in
  let tail' := if EC_MAXELIST <? tail' then 0 else tail' in
  modify (fun _ => EState (EcEring head' tail' errs) true).

(** The popped record is written to the caller's [Ec] even when the list is empty. *)
Definition ecx_poperror : EM (bool * ec_errort) :=
  let* l := gets elist in
  let notEmpty := negb (head l =? tail l) in
  let* Ec := of_opt OutOfBounds (zget (Error l) (tail l)) in
  let* errs := of_opt OutOfBounds (zset (Error l) (tail l) (Ec <| Signal := false |>)) in
  if notEmpty then
    let tail' := tail l + 1 in
    let tail' := if EC_MAXELIST <? tail' then 0 else tail' in
    do* modify (fun s => s <| elist := EcEring (head l) tail' errs |>) in
    ret (true, Ec)
  else
    do* modify (fun s => EState (EcEring (head l) (tail l) errs) false) in
    ret (false, Ec).

Definition ecx_iserror : EM bool :=
  let* l := gets elist in ret (negb (head l =? tail l)).

(** The three reporters; [now] is the value of [osal_current_time]. *)
Definition ecx_packeterror (now : ec_timet) (Slave Index SubIdx ErrorCode : Z) : EM unit :=
  do* modify (fun s => s <| ecaterror := true |>) in
  ecx_pusherror (EcError now false Slave Index SubIdx EC_ERR_TYPE_PACKET_ERROR
                         ErrorCode 0 0 0 0).

Definition ecx_mbxerror (now : ec_timet) (Slave Detail : Z) : EM unit :=
  ecx_pusherror (EcError now false Slave 0 0 EC_ERR_TYPE_MBX_ERROR Detail 0 0 0 0).

Definition ecx_mbxemergencyerror (now : ec_timet)
    (Slave ErrorCode ErrorReg b1 w1 w2 : Z) : EM unit :=
  ecx_pusherror (EcError now false Slave 0 0 EC_ERR_TYPE_EMERGENCY
                         ErrorCode (u8 ErrorReg) b1 w1 w2).

(** ** The abstract queue *)

Definition ering_size : Z := EC_MAXELIST + 1.

(** A ring is well formed when its indices name slots of the array. *)
Definition ering_wf (l : ec_eringt) : Prop :=
  zlen (Error l) = ering_size /\ 0 <= head l < ering_size /\ 0 <= tail l < ering_size.

Definition ering_count (l : ec_eringt) : Z := ring_dist ering_size (head l) (tail l).

(** The stored errors, oldest first. *)
Definition ering_abs (l : ec_eringt) : list ec_errort :=
  ring_from ering_size (Error l) (tail l) (Z.to_nat (ering_count l)).

(** Enqueue in a queue of at most [EC_MAXELIST] entries, dropping the oldest. *)
Definition queue_push (q : list ec_errort) (e : ec_errort) : list ec_errort :=
  let q' := q ++ [e] in
  if EC_MAXELIST <? zlen q' then tl q' else q'.

(** ** Lemmas *)

Section Ring.
Implicit Types l : ec_eringt.

Lemma ering_count_bounds l : ering_wf l -> 0 <= ering_count l < ering_size.
Proof. intros (_ & Hh & Ht). by apply ring_dist_range. Qed.

(** The index arithmetic of the code. *)
Lemma next_of_code i : 0 <= i < ering_size ->
  (if EC_MAXELIST <? i + 1 then 0 else i + 1) = ring_next ering_size i.
Proof.
  unfold ring_next, ering_size. intros Hi.
  destruct (Z.ltb_spec EC_MAXELIST (i + 1)), (Z.leb_spec (EC_MAXELIST + 1) (i + 1)); lia.
Qed.

Lemma ering_empty_iff l : ering_wf l -> (head l =? tail l) = (ering_count l =? 0).
Proof.
  intros (_ & Hh & Ht). unfold ering_count, ring_dist.
  destruct (Z.ltb_spec (head l) (tail l)); lia.
Qed.

(** A full ring has its head one slot behind its tail. *)
Lemma ering_full_iff l : ering_wf l ->
  (ring_next ering_size (head l) =? tail l) = (ering_count l =? EC_MAXELIST).
Proof.
  intros (_ & Hh & Ht). unfold ering_count, ring_dist, ring_next, ering_size in *.
  ec_unfold. change (64 + 1) with 65 in *.
  destruct (Z.ltb_spec (head l) (tail l)), (Z.leb_spec 65 (head l + 1)); lia.
Qed.

Lemma ering_count_push l errs :
  ering_wf l -> ering_count l < EC_MAXELIST ->
  ering_count (EcEring (ring_next ering_size (head l)) (tail l) errs) = ering_count l + 1.
Proof.
  intros (_ & Hh & Ht). unfold ering_count, ring_dist, ring_next, ering_size in *.
  ec_unfold. change (64 + 1) with 65 in *. cbn.
  destruct (Z.ltb_spec (head l) (tail l)), (Z.leb_spec 65 (head l + 1));
    match goal with |- context [?a <? ?b] => destruct (Z.ltb_spec a b) end; lia.
Qed.

Lemma ering_count_full l errs :
  ering_wf l -> ering_count l = EC_MAXELIST ->
  ering_count (EcEring (ring_next ering_size (head l)) (ring_next ering_size (tail l)) errs)
  = EC_MAXELIST.
Proof.
  intros (_ & Hh & Ht). unfold ering_count, ring_dist, ring_next, ering_size in *.
  ec_unfold. change (64 + 1) with 65 in *. cbn.
  destruct (Z.ltb_spec (head l) (tail l)), (Z.leb_spec 65 (head l + 1)),
    (Z.leb_spec 65 (tail l + 1));
    match goal with |- context [?a <? ?b] => destruct (Z.ltb_spec a b) end; lia.
Qed.

Lemma ering_count_pop l errs :
  ering_wf l -> 0 < ering_count l ->
  ering_count (EcEring (head l) (ring_next ering_size (tail l)) errs) = ering_count l - 1.
Proof.
  intros (_ & Hh & Ht). unfold ering_count, ring_dist, ring_next, ering_size in *.
  ec_unfold. change (64 + 1) with 65 in *. cbn.
  destruct (Z.ltb_spec (head l) (tail l)), (Z.leb_spec 65 (tail l + 1));
    match goal with |- context [?a <? ?b] => destruct (Z.ltb_spec a b) end; lia.
Qed.

Lemma length_ering_abs l : ering_wf l -> zlen (ering_abs l) = ering_count l.
Proof.
  intros Hwf. pose proof (ering_count_bounds _ Hwf). destruct Hwf as (Hl & _ & Ht).
  unfold zlen, ering_abs. rewrite length_ring_from; [lia | done..].
Qed.

(** Writing the head slot appends to the stored errors. *)
Lemma ering_abs_write l e errs :
  ering_wf l -> zset (Error l) (head l) e = Some errs ->
  ring_from ering_size errs (tail l) (S (Z.to_nat (ering_count l))) = ering_abs l ++ [e].
Proof.
  intros Hwf Hset. pose proof (ering_count_bounds _ Hwf) as Hc.
  destruct Hwf as (Hl & Hh & Ht).
  apply (ring_from_write (Error l)); [done | done | lia |].
  rewrite Z2Nat.id by lia. unfold ering_count. by rewrite ring_at_dist.
Qed.
End Ring.

(** ** The contract of the error list *)

Lemma wp_pusherror (Ec : ec_errort) (s : estate) :
  ering_wf (elist s) ->
  wp no_fault (ecx_pusherror Ec)
    (fun _ s' => ering_wf (elist s') /\ ecaterror s' = true
       /\ ering_abs (elist s') = queue_push (ering_abs (elist s)) (Ec <| Signal := true |>)) s.
Proof.
  destruct s as [l flag]. cbn [elist]. intros Hwf. set (e := Ec <| Signal := true |>).
  pose proof Hwf as (Hlen & Hh & Ht). pose proof (ering_count_bounds _ Hwf) as Hc.
  pose proof (zset_some (Error l) (head l) e ltac:(lia)) as Hset.
  set (errs := <[Z.to_nat (head l) := e]> (Error l)) in *.
  pose proof (zset_length _ _ _ _ Hset) as Hlen'.
  pose proof (ering_abs_write _ _ _ Hwf Hset) as Habs.
  pose proof (length_ering_abs _ Hwf) as Hlabs.
  unfold ecx_pusherror. wp_steps. fold e. cbn [elist].
  eapply wp_of_opt; [exact Hset|]. wp_step. cbn [elist ecaterror].
  rewrite next_of_code, ering_full_iff by done.
  unfold queue_push. rewrite zlen_app, Hlabs, zlen_single.
  destruct (Z.eqb_spec (ering_count l) EC_MAXELIST) as [Hf|Hf].
  - rewrite next_of_code by done. unfold ering_wf. cbn [Error head tail].
    split; [eauto using ring_next_range with lia|]. split; [done|].
    replace (EC_MAXELIST <? ering_count l + 1) with true by (symmetry; apply Z.ltb_lt; lia).
    rewrite <- Habs. unfold ering_abs. rewrite ering_count_full by done. cbn [tail Error].
    destruct (zget_some errs (tail l)) as [x Hx]; [lia|].
    rewrite (ring_from_cons _ _ _ x) by done. cbn [tl]. by rewrite Hf.
  - assert (ering_count l < EC_MAXELIST) by (unfold ering_size in *; lia).
    replace (EC_MAXELIST <? tail l) with false
      by (symmetry; apply Z.ltb_ge; unfold ering_size in *; lia).
    replace (EC_MAXELIST <? ering_count l + 1) with false by (symmetry; apply Z.ltb_ge; lia).
    unfold ering_wf. cbn [Error head tail].
    split; [eauto using ring_next_range with lia|]. split; [done|].
    unfold ering_abs at 1. rewrite ering_count_push by done. cbn [tail Error].
    by replace (Z.to_nat (ering_count l + 1)) with (S (Z.to_nat (ering_count l))) by lia.
Qed.

(** Reporting an error never goes outside the ring, sets the error flag, keeps the
    ring well formed, and is the enqueue of a queue of at most [EC_MAXELIST] entries
    that drops its oldest entry when it is full. *)
Theorem pusherror_refines_queue (Ec : ec_errort) (s : estate) :
  ering_wf (elist s) ->
  wp no_fault (ecx_pusherror Ec)
    (fun _ s' => ering_wf (elist s') /\ ecaterror s' = true
       /\ ering_abs (elist s') = queue_push (ering_abs (elist s)) (Ec <| Signal := true |>)) s.
Proof. exact (wp_pusherror Ec s). Qed.

(** Popping returns the oldest error and removes it, and keeps the ring well formed;
    on an empty list it reports so, clears the error flag and changes nothing else. *)
Theorem poperror_refines_queue (s : estate) :
  ering_wf (elist s) ->
  wp no_fault ecx_poperror
    (fun r s' => ering_wf (elist s')
       /\ match ering_abs (elist s) with
          | [] => r.1 = false /\ ering_abs (elist s') = [] /\ ecaterror s' = false
          | e :: q => r = (true, e) /\ ering_abs (elist s') = q
                      /\ ecaterror s' = ecaterror s
          end) s.
Proof.
  destruct s as [l flag]. cbn [elist]. intros Hwf.
  pose proof (ering_count_bounds _ Hwf) as Hc. pose proof Hwf as (Hlen & Hh & Ht).
  destruct (zget_some (Error l) (tail l)) as [e He]; [lia|].
  set (e' := e <| Signal := false |>).
  pose proof (zset_some (Error l) (tail l) e' ltac:(lia)) as Hset.
  set (errs := <[Z.to_nat (tail l) := e']> (Error l)) in *.
  pose proof (zset_length _ _ _ _ Hset) as Hlen'.
  unfold ecx_poperror. wp_steps. cbn [elist].
  eapply wp_of_opt; [exact He|]. wp_step. eapply wp_of_opt; [exact Hset|].
  rewrite next_of_code, ering_empty_iff by done.
  destruct (Z.eqb_spec (ering_count l) 0) as [H0|H0]; cbn [negb]; wp_steps; cbn.
  - split; [unfold ering_wf; cbn; lia|].
    unfold ering_abs, ering_count in *. cbn. by rewrite H0.
  - split; [unfold ering_wf; cbn; eauto using ring_next_range with lia|].
    unfold ering_abs at 1. replace (Z.to_nat (ering_count l)) with (S (Z.to_nat (ering_count l - 1))) by lia.
    rewrite (ring_from_cons _ _ _ e) by done. split_and!; [done| |done].
    unfold ering_abs. rewrite ering_count_pop by (done || lia). cbn [tail Error].
    apply (ring_from_write_first _ _ _ _ e'); [done | done | lia | exact Hset].
Qed.

(** ** Witnesses *)

Definition ering_start : ec_eringt :=
  EcEring 0 0 (replicate 65 ec_error_zero).

Lemma ering_start_wf : ering_wf ering_start.
Proof. done. Qed.

Lemma pusherror_refines_queue_witness :
  ering_wf ering_start
  /\ wp no_fault (ecx_pusherror ec_error_zero)
       (fun _ s' => ering_wf (elist s') /\ ecaterror s' = true
          /\ ering_abs (elist s')
             = queue_push (ering_abs ering_start) (ec_error_zero <| Signal := true |>))
       (EState ering_start false).
Proof.
  split; [exact ering_start_wf|].
  exact (pusherror_refines_queue ec_error_zero (EState ering_start false) ering_start_wf).
Defined.

Lemma poperror_refines_queue_witness :
  ering_wf (EcEring 1 0 (replicate 65 ec_error_zero))
  /\ ering_abs (EcEring 1 0 (replicate 65 ec_error_zero)) = [ec_error_zero]
  /\ wp no_fault ecx_poperror (fun r _ => r = (true, ec_error_zero))
       (EState (EcEring 1 0 (replicate 65 ec_error_zero)) true).
Proof.
  assert (ering_wf (EcEring 1 0 (replicate 65 ec_error_zero))) as Hwf by done.
  split; [exact Hwf|]. split; [reflexivity|].
  pose proof (poperror_refines_queue (EState (EcEring 1 0 (replicate 65 ec_error_zero)) true) Hwf)
    as H.
  eapply wp_mono; [exact H|]. intros r s' [_ Hr]. cbn in Hr. apply Hr.
Defined.
