(* ===== verification/Mailbox.v ===== *)
(** * Mailbox pool and transmit queue (src/ec_main.c)

    [MbxPool]: the mailbox buffers and the ring of free ones ([ec_mbxpoolt]).
    [MbxQueue]: the transmit queue of a group ([ec_mbxqueuet]), a ring of pending
    mailboxes addressed by tickets.  A pointer to a mailbox is its index in the pool;
    the queue's mutex makes each operation one step. *)

From S2P Require Import Prelude Ring Types.

Module MbxPool.

(** ** State *)
Record ec_mbxpoolt : Type := EcMbxPool {
  listhead : Z;
  listtail : Z;
  listcount : Z;
  mbxemptylist : list Z;
  mbx : list (list Z);
}.

Abbreviation PM := (M ec_mbxpoolt).

(** ** Operations *)

Definition ecx_initmbxpool : PM Z :=
  do* for_range (Z.to_nat EC_MBXPOOLSIZE) (fun item _ =>
        let* l := gets mbxemptylist in
        let* l' := of_opt OutOfBounds (zset l item item) in
        modify (fun p => p <| mbxemptylist := l' |>)) 0 tt in
  do* modify (fun p => p <| listhead := 0 |> <| listtail := 0 |>
                         <| listcount := EC_MBXPOOLSIZE |>) in
  ret 0.

(** Take a mailbox from the pool; [None] when there is none. *)
Definition ecx_getmbx : PM (option Z) :=
  let* cnt := gets listcount in
  if 0 <? cnt then
    let* t := gets listtail in
    let* l := gets mbxemptylist in
    let* item := of_opt OutOfBounds (zget l t) in
    let t' := t + 1 in
    let t' := if EC_MBXPOOLSIZE <=? t' then 0 else t' in
    do* modify (fun p => p <| listtail := t' |> <| listcount ::= (fun c => c - 1) |>) in
    ret (Some item)
  else ret None.

(** Give a mailbox back to the pool. *)
Definition ecx_dropmbx (item : Z) : PM Z :=
  if (0 <=? item) && (item <? EC_MBXPOOLSIZE) then
    let* h := gets listhead in
    let* l := gets mbxemptylist in
    let* l' := of_opt OutOfBounds (zset l h item) in
    let h' := h + 1 in
    let h' := if EC_MBXPOOLSIZE <=? h' then 0 else h' in
    do* modify (fun p => p <| mbxemptylist := l' |> <| listhead := h' |>
                           <| listcount ::= (fun c => c + 1) |>) in
    ret 1
  else ret 0.

(** ** Well-formedness and the abstract queue of free mailboxes *)

Definition pool_free (p : ec_mbxpoolt) : list Z :=
  ring_from EC_MBXPOOLSIZE (mbxemptylist p) (listtail p) (Z.to_nat (listcount p)).

Definition pool_wf (p : ec_mbxpoolt) : Prop :=
  zlen (mbxemptylist p) = EC_MBXPOOLSIZE
  /\ zlen (mbx p) = EC_MBXPOOLSIZE
  /\ Forall (fun b => zlen b = EC_MAXMBX + 1) (mbx p)
  /\ 0 <= listtail p < EC_MBXPOOLSIZE
  /\ 0 <= listcount p <= EC_MBXPOOLSIZE
  /\ listhead p = ring_at EC_MBXPOOLSIZE (listtail p) (listcount p)
  /\ Forall (fun i => 0 <= i < EC_MBXPOOLSIZE) (pool_free p)
  /\ NoDup (pool_free p).

End MbxPool.

Module MbxQueue.

Definition EC_MBXQUEUESTATE_NONE : Z := 0.
Definition EC_MBXQUEUESTATE_REQ : Z := 1.
Definition EC_MBXQUEUESTATE_FAIL : Z := 2.
Definition EC_MBXQUEUESTATE_DONE : Z := 3.

(** ** State *)
Record ec_mbxqueuet : Type := EcMbxQueue {
  listhead : Z;
  listtail : Z;
  listcount : Z;
  mbx : list (option Z);
  mbxstate : list Z;
  mbxremove : list Z;
  mbxticket : list Z;
  mbxslave : list Z;
}.

Abbreviation QM := (M ec_mbxqueuet).
Definition qget {A} (f : ec_mbxqueuet -> list A) (i : Z) : QM A :=
  let* l := gets f in of_opt OutOfBounds (zget l i).

(** [mbxqueue->field[i] = v], one definition per array. *)
Definition set_mbx (i : Z) (v : option Z) : QM unit :=
  let* l := gets mbx in
  let* l' := of_opt OutOfBounds (zset l i v) in
  modify (fun q => q <| mbx := l' |>).
Definition set_mbxstate (i v : Z) : QM unit :=
  let* l := gets mbxstate in
  let* l' := of_opt OutOfBounds (zset l i v) in
  modify (fun q => q <| mbxstate := l' |>).
Definition set_mbxremove (i v : Z) : QM unit :=
  let* l := gets mbxremove in
  let* l' := of_opt OutOfBounds (zset l i v) in
  modify (fun q => q <| mbxremove := l' |>).
Definition set_mbxticket (i v : Z) : QM unit :=
  let* l := gets mbxticket in
  let* l' := of_opt OutOfBounds (zset l i v) in
  modify (fun q => q <| mbxticket := l' |>).
Definition set_mbxslave (i v : Z) : QM unit :=
  let* l := gets mbxslave in
  let* l' := of_opt OutOfBounds (zset l i v) in
  modify (fun q => q <| mbxslave := l' |>).

(** [i++; if (i >= EC_MBXPOOLSIZE) i = 0;] *)
Definition wrap_next (i : Z) : Z :=
  let i' := i + 1 in if EC_MBXPOOLSIZE <=? i' then 0 else i'.

(** ** Operations *)

Definition ecx_initmbxqueue : QM Z :=
  do* modify (fun q => q <| listhead := 0 |> <| listtail := 0 |> <| listcount := 0 |>) in
  do* for_range (Z.to_nat EC_MBXPOOLSIZE) (fun cnt _ => set_mbxticket cnt (-1)) 0 tt in
  ret 0.

(** Add a mailbox for [slave]; the result is its ticket, or -1 when the queue is full. *)
Definition ecx_mbxaddqueue (slave : Z) (m : option Z) : QM Z :=
  let ticket := -1 in
  let* cnt := gets listcount in
  if cnt <? EC_MBXPOOLSIZE then
    let* ticketloc := gets listhead in
    (* while ((++ticket < EC_MBXPOOLSIZE) && (mbxticket[ticket] >= 0)) {} *)
    let* ticket := while_do (S (S (Z.to_nat EC_MBXPOOLSIZE)))
      (fun ticket => if ticket <? EC_MBXPOOLSIZE
                     then let* v := qget mbxticket ticket in ret (0 <=? v)
                     else ret false)
      (fun ticket => ret (ticket + 1)) (ticket + 1) in
    do* set_mbxticket ticket ticketloc in
    do* set_mbxslave ticketloc slave in
    do* set_mbx ticketloc m in
    do* modify (fun q => q <| listhead ::= wrap_next |>) in
    do* set_mbxremove ticketloc 0 in
    do* set_mbxstate ticketloc EC_MBXQUEUESTATE_REQ in
    do* modify (fun q => q <| listcount ::= (fun c => c + 1) |>) in
    ret ticket
  else ret ticket.

(** Release a ticket whose mailbox has been sent. *)
Definition ecx_mbxdonequeue (ticket : Z) : QM Z :=
  if (0 <=? ticket) && (ticket <? EC_MBXPOOLSIZE) then
    let* loc := qget mbxticket ticket in
    let* st := qget mbxstate loc in
    if st =? EC_MBXQUEUESTATE_DONE then
      do* set_mbxremove loc 1 in
      do* set_mbxticket ticket (-1) in
      ret 1
    else ret 0
  else ret 0.

(** Release a ticket whatever the state of its mailbox. *)
Definition ecx_mbxexpirequeue (ticket : Z) : QM Z :=
  if (0 <=? ticket) && (ticket <? EC_MBXPOOLSIZE) then
    let* loc := qget mbxticket ticket in
    let* st := qget mbxstate loc in
    if EC_MBXQUEUESTATE_NONE <? st then
      do* set_mbxremove loc 1 in
      do* set_mbxticket ticket (-1) in
      ret 1
    else ret 0
  else ret 0.

(** Move the entry at the tail to the head. *)
Definition ecx_mbxrotatequeue (ticketloc : Z) : QM Z :=
  let* head := gets listhead in
  let* tail := gets listtail in
  if negb (head =? tail) then
    let* ticket := while_do (S (Z.to_nat EC_MBXPOOLSIZE))
      (fun cnt => if cnt <? EC_MBXPOOLSIZE
                  then let* v := qget mbxticket cnt in ret (negb (v =? ticketloc))
                  else ret false)
      (fun cnt => ret (cnt + 1)) 0 in
    if (0 <=? ticket) && (ticket <? EC_MBXPOOLSIZE) then
      do* set_mbxticket ticket head in
      let* r := qget mbxremove tail in
      do* set_mbxremove head r in
      let* st := qget mbxstate tail in
      do* set_mbxstate head st in
      let* sl := qget mbxslave tail in
      do* set_mbxslave head sl in
      let* m := qget mbx tail in
      do* set_mbx head m in
      do* modify (fun q => q <| listhead ::= wrap_next |>) in
      do* modify (fun q => q <| listtail ::= wrap_next |>) in
      ret 1
    else ret 0
  else ret 1.

(** Remove the entry at the tail; the result is its mailbox. *)
Definition ecx_mbxdropqueue (ticketloc : Z) : QM (option Z) :=
  do* set_mbxstate ticketloc EC_MBXQUEUESTATE_NONE in
  do* set_mbxremove ticketloc 0 in
  do* set_mbxslave ticketloc 0 in
  let* m := qget mbx ticketloc in
  do* set_mbx ticketloc None in
  do* modify (fun q => q <| listtail ::= wrap_next |>) in
  do* modify (fun q => q <| listcount ::= (fun c => c - 1) |>) in
  ret m.

End MbxQueue.
