(* ===== verification/PoolSpec.v ===== *)
(** * The mailbox pool is a queue of free mailboxes

    The contract of [ec_mbxpoolt]: the free mailboxes form a first-in first-out queue
    without repetitions, so a mailbox has at most one owner. *)

From S2P Require Import Prelude Ring Types Mailbox.
Import MbxPool stdpp.list_relations.list stdpp.list_basics.list.

(** A pool whose arrays have the sizes of the C structure. *)
Definition pool_shape (p : ec_mbxpoolt) : Prop :=
  zlen (mbxemptylist p) = EC_MBXPOOLSIZE /\ zlen (mbx p) = EC_MBXPOOLSIZE
  /\ Forall (fun b => zlen b = EC_MAXMBX + 1) (mbx p).

(** ** Lemmas *)

Lemma pool_wrap i : (if EC_MBXPOOLSIZE <=? i + 1 then 0 else i + 1) = ring_next EC_MBXPOOLSIZE i.
Proof. reflexivity. Qed.

Lemma pool_free_length p : pool_wf p -> zlen (pool_free p) = listcount p.
Proof.
  intros (Hl & _ & _ & Ht & Hc & _). unfold pool_free, zlen.
  rewrite length_ring_from by done. lia.
Qed.

Lemma seqZ_lookup_range n i : 0 <= i < n -> i ∈ seqZ 0 n.
Proof. intros. apply elem_of_seqZ. lia. Qed.

(** Distinct indices of the pool are at most [EC_MBXPOOLSIZE] many. *)
Lemma free_list_bound (l : list Z) :
  NoDup l -> Forall (fun i => 0 <= i < EC_MBXPOOLSIZE) l -> zlen l <= EC_MBXPOOLSIZE.
Proof.
  intros Hnd Hr. unfold zlen.
  pose proof (submseteq_length l (seqZ 0 EC_MBXPOOLSIZE)) as Hlen.
  rewrite length_seqZ in Hlen. enough (length l <= Z.to_nat EC_MBXPOOLSIZE)%nat by (ec_unfold; lia).
  apply Hlen, NoDup_submseteq; [done|]. intros x Hx. apply elem_of_seqZ.
  rewrite Forall_forall in Hr. specialize (Hr x). 
  specialize (Hr Hx). lia.
Qed.

(** A mailbox that is not free leaves room in the ring. *)
Lemma free_list_room (l : list Z) i :
  NoDup l -> Forall (fun j => 0 <= j < EC_MBXPOOLSIZE) l ->
  0 <= i < EC_MBXPOOLSIZE -> i ∉ l -> zlen l < EC_MBXPOOLSIZE.
Proof.
  intros Hnd Hr Hi Hni.
  pose proof (free_list_bound (i :: l) ltac:(by constructor) ltac:(by constructor)) as H.
  unfold zlen in *. cbn in H. lia.
Qed.

(** ** Operations *)

Lemma getmbx_spec p :
  pool_wf p ->
  total ecx_getmbx (fun r p' =>
    pool_wf p' /\ mbx p' = mbx p
    /\ match pool_free p with
       | [] => r = None /\ pool_free p' = []
       | i :: q => r = Some i /\ pool_free p' = q
       end) p.
Proof.
  intros Hwf. pose proof (pool_free_length p Hwf) as Hlen.
  pose proof Hwf as (Hl & Hm & Hb & Ht & Hc & Hh & Hr & Hnd).
  unfold ecx_getmbx. wp_steps. apply wp_if; intros Hcnt.
  - apply Z.ltb_lt in Hcnt. wp_steps.
    destruct (zget_some (mbxemptylist p) (listtail p)) as [item Hi]; [lia|].
    eapply wp_of_opt; [exact Hi|]. wp_steps. rewrite pool_wrap. cbn.
    assert (Hf : pool_free p = item :: ring_from EC_MBXPOOLSIZE (mbxemptylist p)
              (ring_next EC_MBXPOOLSIZE (listtail p)) (Z.to_nat (listcount p - 1))).
    { unfold pool_free. replace (Z.to_nat (listcount p)) with (S (Z.to_nat (listcount p - 1))) by lia.
      by rewrite (ring_from_cons _ _ _ item). }
    rewrite Hf in *. apply Forall_cons in Hr as [Hr0 Hr]. apply NoDup_cons in Hnd as [_ Hnd].
    split; [|done]. unfold pool_wf. cbn. split_and!; try done; try (by apply ring_next_range); try lia.
    rewrite Hh, ring_at_next by lia. f_equal. lia.
  - apply Z.ltb_ge in Hcnt. wp_steps. assert (listcount p = 0) as H0 by lia.
    split; [done|]. split; [done|].
    unfold pool_free. by rewrite H0.
Qed.

Lemma dropmbx_spec p item :
  pool_wf p -> 0 <= item < EC_MBXPOOLSIZE -> item ∉ pool_free p ->
  total (ecx_dropmbx item) (fun r p' =>
    r = 1 /\ pool_wf p' /\ mbx p' = mbx p /\ pool_free p' = pool_free p ++ [item]) p.
Proof.
  intros Hwf Hi Hni. pose proof (pool_free_length p Hwf) as Hlen.
  pose proof Hwf as (Hl & Hm & Hb & Ht & Hc & Hh & Hr & Hnd).
  pose proof (free_list_room _ _ Hnd Hr Hi Hni) as Hroom.
  unfold ecx_dropmbx. apply wp_if; intros Hif; [|lia]. wp_steps.
  assert (0 <= listhead p < EC_MBXPOOLSIZE) as Hhr by (rewrite Hh; apply ring_at_range; lia).
  pose proof (zset_some (mbxemptylist p) (listhead p) item ltac:(lia)) as Hset.
  eapply wp_of_opt; [exact Hset|]. wp_steps. rewrite pool_wrap. cbn.
  set (l' := <[Z.to_nat (listhead p) := item]> (mbxemptylist p)) in *.
  assert (Hf : ring_from EC_MBXPOOLSIZE l' (listtail p) (Z.to_nat (listcount p + 1))
               = pool_free p ++ [item]).
  { replace (Z.to_nat (listcount p + 1)) with (S (Z.to_nat (listcount p))) by lia.
    eapply ring_from_write; [done | done | lia |].
    rewrite Z2Nat.id by lia. by rewrite <- Hh. }
  split; [done|]. split; [|done]. unfold pool_wf, pool_free in *. cbn. rewrite Hf.
  pose proof (zset_length _ _ _ _ Hset).
  split_and!; try done; try lia.
  - rewrite Hh. apply ring_next_at; lia.
  - apply Forall_app; split; [done|]. by constructor.
  - apply NoDup_app. split_and!; [done | | by apply NoDup_singleton].
    intros x Hx ->%list_elem_of_singleton. done.
Qed.

Lemma dropmbx_outside p item :
  ~ (0 <= item < EC_MBXPOOLSIZE) -> ecx_dropmbx item p = Ok (0, p).
Proof.
  intros Hi. unfold ecx_dropmbx.
  destruct ((0 <=? item) && (item <? EC_MBXPOOLSIZE)) eqn:E; [lia | done].
Qed.

(** ** The contract: a queue of free mailboxes *)

Inductive pool_call : Type := Get | Put (item : Z).

(** One call on the code's pool; the result of a [Put] is its return value. *)
Definition pool_do (c : pool_call) : PM (option Z) :=
  match c with
  | Get => ecx_getmbx
  | Put item => let* r := ecx_dropmbx item in ret (Some r)
  end.

Fixpoint pool_run (cs : list pool_call) : PM (list (option Z)) :=
  match cs with
  | [] => ret []
  | c :: cs' => let* r := pool_do c in let* rs := pool_run cs' in ret (r :: rs)
  end.

(** The same call on the queue of free mailboxes.  A client may give back a mailbox it
    holds, one that is not free; an index outside the pool is refused. *)
Definition fifo_do (q : list Z) (c : pool_call) : option (option Z * list Z) :=
  match c with
  | Get => match q with [] => Some (None, []) | i :: q' => Some (Some i, q') end
  | Put item =>
      if decide (0 <= item < EC_MBXPOOLSIZE)
      then if decide (item ∈ q) then None else Some (Some 1, q ++ [item])
      else Some (Some 0, q)
  end.

Fixpoint fifo_run (q : list Z) (cs : list pool_call) : option (list (option Z) * list Z) :=
  match cs with
  | [] => Some ([], q)
  | c :: cs' =>
      '(r, q) ← fifo_do q c;
      '(rs, q) ← fifo_run q cs';
      Some (r :: rs, q)
  end.

Lemma pool_do_refines p c r q :
  pool_wf p -> fifo_do (pool_free p) c = Some (r, q) ->
  total (pool_do c) (fun r' p' => r' = r /\ pool_wf p' /\ pool_free p' = q) p.
Proof.
  intros Hwf Hdo. destruct c as [|item]; cbn in *.
  - eapply wp_mono; [by apply getmbx_spec|]. intros r' p' (Hwf' & _ & Hq).
    destruct (pool_free p) as [|i q0]; injection Hdo as <- <-; naive_solver.
  - apply wp_bind. repeat case_decide; simplify_eq.
    + eapply wp_mono; [by apply dropmbx_spec|]. intros r' p' (-> & Hwf' & _ & Hq).
      apply wp_ret. done.
    + eapply wp_ok; [by apply dropmbx_outside|]. apply wp_ret. done.
Qed.

(** C16: Whatever a client does with mailboxes it owns, the pool answers as a first-in
    first-out queue of free mailboxes and stays well formed: an empty queue answers null,
    and a mailbox that was handed out is not handed out again before it was given back. *)
Theorem pool_refines_fifo (cs : list pool_call) : forall (p : ec_mbxpoolt) rs q,
  pool_wf p -> fifo_run (pool_free p) cs = Some (rs, q) ->
  total (pool_run cs) (fun rs' p' => rs' = rs /\ pool_wf p' /\ pool_free p' = q) p.
Proof.
  induction cs as [|c cs IH]; intros p rs q Hwf Hrun; cbn in *.
  - injection Hrun as <- <-. by apply wp_ret.
  - destruct (fifo_do _ _) as [[r q1]|] eqn:Hdo; [|done]. cbn in Hrun.
    destruct (fifo_run q1 cs) as [[rs1 q2]|] eqn:Hr; [|done]. cbn in Hrun.
    injection Hrun as <- <-. apply wp_bind.
    eapply wp_mono; [by eapply pool_do_refines|]. intros r' p' (-> & Hwf' & Hq).
    rewrite <- Hq in Hr. apply wp_bind.
    eapply wp_mono; [by eapply IH|]. intros rs' p'' (-> & ? & ?). by apply wp_ret.
Qed.

(** ** Initialisation *)

(** Filling the array: the first [n] entries are their own indices. *)
Lemma init_fill (p : ec_mbxpoolt) (n : nat) :
  pool_shape p -> Z.of_nat n <= EC_MBXPOOLSIZE ->
  total (for_range n (fun item (_ : unit) =>
        let* l := gets mbxemptylist in
        let* l' := of_opt OutOfBounds (zset l item item) in
        modify (fun p => p <| mbxemptylist := l' |>)) 0 tt)
    (fun _ p' => pool_shape p' /\ mbx p' = mbx p
       /\ forall i, 0 <= i < Z.of_nat n -> zget (mbxemptylist p') i = Some i) p.
Proof.
  intros Hp Hn.
  eapply wp_mono.
  - apply wp_for_range with (I := fun i _ p' => pool_shape p' /\ mbx p' = mbx p
      /\ forall j, 0 <= j < i -> zget (mbxemptylist p') j = Some j).
    + split_and!; [apply Hp..|done|lia].
    + intros j _ s Hj ((Hl & Hm & Hb) & Hmb & Hfill). wp_steps.
      pose proof (zset_some (mbxemptylist s) j j ltac:(lia)) as Hset.
      eapply wp_of_opt; [exact Hset|]. wp_steps. cbn.
      pose proof (zset_length _ _ _ _ Hset).
      split_and!; [split_and!; cbn; [lia | done..] | done |].
      intros i Hi. rewrite (zget_zset _ _ _ _ _ Hset). case_decide; [congruence|].
      apply Hfill. lia.
  - naive_solver.
Qed.

(** A ring that holds its own indices. *)
Lemma ring_from_ids (l : list Z) n :
  zlen l = EC_MBXPOOLSIZE -> Z.of_nat n <= EC_MBXPOOLSIZE ->
  (forall i, 0 <= i < Z.of_nat n -> zget l i = Some i) ->
  ring_from EC_MBXPOOLSIZE l 0 n = seqZ 0 (Z.of_nat n).
Proof.
  intros Hl Hn Hids. apply zget_ext.
  - unfold zlen at 2. rewrite length_seqZ. unfold zlen.
    rewrite length_ring_from by (ec_unfold; lia || done). lia.
  - unfold zlen at 1. rewrite length_ring_from by (ec_unfold; lia || done). intros i Hi.
    rewrite ring_from_lookup by (ec_unfold; lia || done).
    unfold ring_at. replace (EC_MBXPOOLSIZE <=? 0 + i) with false by lia.
    rewrite Hids by lia. symmetry. unfold zget. destruct (Z.ltb_spec i 0); [lia|].
    apply lookup_seqZ. lia.
Qed.

(** Initialising a pool of any content leaves it well formed with all its mailboxes
    free, in the order of their indices. *)
Theorem initmbxpool_all_free (p : ec_mbxpoolt) :
  pool_shape p ->
  total ecx_initmbxpool (fun r p' =>
    r = 0 /\ pool_wf p' /\ pool_free p' = seqZ 0 EC_MBXPOOLSIZE /\ mbx p' = mbx p) p.
Proof.
  intros Hp. unfold ecx_initmbxpool. apply wp_bind.
  eapply wp_mono; [apply init_fill; [done | by ec_unfold]|].
  intros _ s ((Hl & Hm & Hb) & Hmb & Hids). wp_steps. cbn.
  set (p' := EcMbxPool _ _ _ _ _).
  assert (Hf : pool_free p' = seqZ 0 EC_MBXPOOLSIZE).
  { apply (ring_from_ids (mbxemptylist s) (Z.to_nat EC_MBXPOOLSIZE)); [done | by ec_unfold | done]. }
  split_and!; [done | | done | done]. unfold pool_wf. rewrite Hf. cbn.
  split_and!; try done.
  - rewrite list.Forall_forall. intros x Hx%elem_of_seqZ. lia.
  - apply NoDup_seqZ.
Qed.

(** ** Witnesses *)

Definition pool_zero : ec_mbxpoolt :=
  EcMbxPool 0 0 0 (replicate 32 0) (replicate 32 (replicate 1487 0)).

Lemma pool_zero_shape : pool_shape pool_zero.
Proof.
  split_and!; [reflexivity..|]. apply list.Forall_replicate. reflexivity.
Qed.

Lemma initmbxpool_all_free_witness :
  pool_shape pool_zero
  /\ total ecx_initmbxpool (fun r p' => pool_free p' = seqZ 0 EC_MBXPOOLSIZE) pool_zero.
Proof.
  split; [exact pool_zero_shape|].
  eapply wp_mono; [exact (initmbxpool_all_free pool_zero pool_zero_shape)|].
  intros r p' (_ & _ & Hf & _). exact Hf.
Defined.

(** A pool with two free mailboxes. *)
Definition pool_two : ec_mbxpoolt :=
  EcMbxPool 2 0 2 (7 :: 3 :: replicate 30 0) (replicate 32 (replicate 1487 0)).

Lemma pool_two_wf : pool_wf pool_two.
Proof.
  split_and!; try reflexivity; try done.
  - apply list.Forall_replicate. reflexivity.
  - repeat constructor; ec_unfold; lia.
  - apply (bool_decide_unpack _). reflexivity.
Qed.

Lemma pool_refines_fifo_witness :
  pool_wf pool_two
  /\ total (pool_run [Get; Get; Get; Put 3; Get])
       (fun rs _ => rs = [Some 7; Some 3; None; Some 1; Some 3]) pool_two.
Proof.
  split; [exact pool_two_wf|].
  eapply wp_mono; [exact (pool_refines_fifo [Get; Get; Get; Put 3; Get] pool_two
    [Some 7; Some 3; None; Some 1; Some 3] [] pool_two_wf eq_refl)|].
  intros rs p' (Hrs & _). exact Hrs.
Defined.
