(* ===== verification/QueueSpec.v ===== *)
(** * The mailbox transmit queue is a queue of requests

    The contract of [ec_mbxqueuet].  Abstractly the queue is a list of requests, oldest
    first; a ticket names a request until its owner releases it, wherever the handler
    has moved it in the meantime. *)

From S2P Require Import Prelude Ring Types Mailbox.
Import MbxQueue stdpp.list_relations.list.

(** ** Abstract state *)

(** A pending mailbox: the ticket of its owner, [None] once released. *)
Record request : Type := Request {
  r_ticket : option Z;
  r_slave : Z;
  r_mbx : option Z;
  r_state : Z;
}.

Abbreviation N := EC_MBXPOOLSIZE.

Definition removed (e : request) : Z := match r_ticket e with Some _ => 0 | None => 1 end.
Definition pending (st : Z) : Prop :=
  st = EC_MBXQUEUESTATE_REQ \/ st = EC_MBXQUEUESTATE_FAIL \/ st = EC_MBXQUEUESTATE_DONE.

(** The requests [es] occupy the slots of [arr] from [tail] on, their field [f] in it. *)
Definition slots {A} (tail : Z) (arr : list A) (f : request -> A) (es : list request) : Prop :=
  forall k e, zget es k = Some e -> zget arr (ring_at N tail k) = Some (f e).

(** The ticket table: every ticket that is out points to its request, and every entry of
    the table is free or such a ticket. *)
Definition held (tail : Z) (tickets : list Z) (es : list request) : Prop :=
  forall k e t, zget es k = Some e -> r_ticket e = Some t ->
    zget tickets t = Some (ring_at N tail k).
Definition accounted (tickets : list Z) (es : list request) : Prop :=
  forall t v, zget tickets t = Some v ->
    v = -1 \/ exists k e, zget es k = Some e /\ r_ticket e = Some t.

Record queue_rep (q : ec_mbxqueuet) (es : list request) : Prop := QueueRep {
  rep_mbx_len : zlen (mbx q) = N;
  rep_state_len : zlen (mbxstate q) = N;
  rep_remove_len : zlen (mbxremove q) = N;
  rep_ticket_len : zlen (mbxticket q) = N;
  rep_slave_len : zlen (mbxslave q) = N;
  rep_tail : 0 <= listtail q < N;
  rep_count : listcount q = zlen es;
  rep_room : zlen es <= N;
  rep_head : listhead q = ring_at N (listtail q) (zlen es);
  rep_mbx : slots (listtail q) (mbx q) r_mbx es;
  rep_state : slots (listtail q) (mbxstate q) r_state es;
  rep_remove : slots (listtail q) (mbxremove q) removed es;
  rep_slave : slots (listtail q) (mbxslave q) r_slave es;
  rep_pending : Forall (fun e => pending (r_state e)) es;
  rep_held : held (listtail q) (mbxticket q) es;
  rep_accounted : accounted (mbxticket q) es;
}.

(** ** Slots *)

Section Slots.
Context {A : Type}.
Implicit Types (arr : list A) (f : request -> A) (es : list request).

Lemma ring_at_lt tail k : 0 <= tail < N -> 0 <= k < N -> 0 <= ring_at N tail k < N.
Proof. intros. apply ring_at_range; lia. Qed.

Lemma slots_update tail arr f es k e es' arr' :
  0 <= tail < N -> zlen es <= N ->
  slots tail arr f es -> zset es k e = Some es' ->
  zset arr (ring_at N tail k) (f e) = Some arr' -> slots tail arr' f es'.
Proof.
  intros Ht Hn Hs He Ha j x Hj. pose proof (zget_lt _ _ _ Hj) as Hjr.
  rewrite (zset_length _ _ _ _ He) in Hjr.
  apply zset_inv in He as Hk. destruct Hk as [Hk _].
  rewrite (zget_zset _ _ _ _ _ He) in Hj. case_decide as Hd.
  - subst. simplify_eq. by eapply zget_zset_eq.
  - rewrite (zget_zset_ne _ _ _ _ _ Ha); [by apply Hs|].
    intros Heq. apply ring_at_inj in Heq; lia.
Qed.

(** A field that an update leaves alone. *)
Lemma slots_keep tail arr f es k e e' es' :
  slots tail arr f es -> zget es k = Some e -> zset es k e' = Some es' -> f e' = f e ->
  slots tail arr f es'.
Proof.
  intros Hs Hk He Hf j x Hj. rewrite (zget_zset _ _ _ _ _ He) in Hj.
  case_decide; [simplify_eq; rewrite Hf|]; by apply Hs.
Qed.

Lemma slots_snoc tail arr f es e arr' :
  0 <= tail < N -> zlen es < N -> slots tail arr f es ->
  zset arr (ring_at N tail (zlen es)) (f e) = Some arr' -> slots tail arr' f (es ++ [e]).
Proof.
  intros Ht Hn Hs Ha k x. rewrite zget_snoc. case_decide as Hd; intros Hx.
  - subst. simplify_eq. by eapply zget_zset_eq.
  - pose proof (zget_lt _ _ _ Hx).
    rewrite (zget_zset_ne _ _ _ _ _ Ha); [by apply Hs|].
    intros Heq. apply ring_at_inj in Heq; lia.
Qed.

Lemma slots_tail tail arr f e es :
  0 <= tail < N -> zlen (e :: es) <= N ->
  slots tail arr f (e :: es) -> slots (ring_next N tail) arr f es.
Proof.
  intros Ht Hn Hs k x Hx. pose proof (zget_lt _ _ _ Hx). unfold zlen in *. cbn in Hn.
  rewrite ring_at_next by lia. apply Hs. rewrite zget_cons, decide_False by lia.
  by replace (k + 1 - 1) with k by lia.
Qed.

(** The slot of the request that leaves may hold anything. *)
Lemma slots_drop tail arr f e es x arr' :
  0 <= tail < N -> zlen (e :: es) <= N ->
  slots tail arr f (e :: es) -> zset arr tail x = Some arr' ->
  slots (ring_next N tail) arr' f es.
Proof.
  intros Ht Hn Hs Ha k y Hy. pose proof (zget_lt _ _ _ Hy). unfold zlen in *. cbn in Hn.
  rewrite (zget_zset_ne _ _ _ _ _ Ha).
  - eapply slots_tail; eauto.
  - rewrite ring_at_next by lia. rewrite <- (ring_at_0 tail) at 1 by done.
    intros Heq. apply ring_at_inj in Heq; lia.
Qed.
End Slots.

(** ** Tickets *)

Lemma held_unique tail tickets es k1 k2 e1 e2 t :
  0 <= tail < N -> zlen es <= N -> held tail tickets es ->
  zget es k1 = Some e1 -> zget es k2 = Some e2 ->
  r_ticket e1 = Some t -> r_ticket e2 = Some t -> k1 = k2.
Proof.
  intros Ht Hn Hh H1 H2 T1 T2. pose proof (zget_lt _ _ _ H1). pose proof (zget_lt _ _ _ H2).
  pose proof (Hh _ _ _ H1 T1) as E1. pose proof (Hh _ _ _ H2 T2) as E2. rewrite E1 in E2.
  injection E2 as E2. apply ring_at_inj in E2; lia.
Qed.

(** The tickets that are out. *)
Definition tickets_of (es : list request) : list Z := omap r_ticket es.

Lemma length_tickets_of es : (length (tickets_of es) <= length es)%nat.
Proof.
  unfold tickets_of. induction es as [|e es IH]; [done|]. csimpl.
  destruct (r_ticket e); csimpl; lia.
Qed.

(** While the queue is not full there is a free ticket. *)
Lemma free_ticket tickets es :
  zlen es < N -> accounted tickets es ->
  ~ (forall t, 0 <= t < N -> exists v, zget tickets t = Some v /\ 0 <= v).
Proof.
  intros Hn Hacc Hall.
  assert (Hsub : seqZ 0 N ⊆+ tickets_of es).
  { apply NoDup_submseteq; [apply NoDup_seqZ|]. intros t Ht%elem_of_seqZ.
    destruct (Hall t ltac:(lia)) as (v & Hv & Hv0).
    destruct (Hacc t v Hv) as [->|(k & e & Hk & He)]; [lia|].
    apply list_elem_of_omap. exists e. split; [|done]. apply zget_elem_of. by exists k. }
  apply submseteq_length in Hsub. rewrite length_seqZ in Hsub.
  pose proof (length_tickets_of es). unfold zlen in Hn. lia.
Qed.

Lemma held_same_tickets tail tickets es k e e' es' :
  held tail tickets es -> zget es k = Some e -> zset es k e' = Some es' ->
  r_ticket e' = r_ticket e -> held tail tickets es'.
Proof.
  intros Hh Hk He Ht j x t Hj Hx. rewrite (zget_zset _ _ _ _ _ He) in Hj.
  case_decide; [simplify_eq; rewrite Ht in Hx|]; by eapply Hh.
Qed.

Lemma accounted_same_tickets tickets es k e e' es' :
  accounted tickets es -> zget es k = Some e -> zset es k e' = Some es' ->
  r_ticket e' = r_ticket e -> accounted tickets es'.
Proof.
  intros Hacc Hk He Ht t v Hv. destruct (Hacc t v Hv) as [|(j & x & Hj & Hx)]; [by left|right].
  destruct (decide (k = j)) as [<-|Hne].
  - simplify_eq. exists k, e'. split; [by eapply zget_zset_eq | congruence].
  - exists j, x. split; [|done]. by rewrite (zget_zset_ne _ _ _ _ _ He).
Qed.

Lemma held_release tail tickets es k e t es' tickets' :
  0 <= tail < N -> zlen es <= N -> held tail tickets es -> zget es k = Some e ->
  r_ticket e = Some t -> zset es k (e <| r_ticket := None |>) = Some es' ->
  zset tickets t (-1) = Some tickets' -> held tail tickets' es'.
Proof.
  intros Ht Hn Hh Hk He Hes Htk j x t' Hj Hx. rewrite (zget_zset _ _ _ _ _ Hes) in Hj.
  case_decide as Hd; [simplify_eq|].
  rewrite (zget_zset_ne _ _ _ _ _ Htk); [by eapply Hh|].
  intros <-. apply Hd. by eapply held_unique.
Qed.

Lemma accounted_release tickets es k e t es' tickets' :
  accounted tickets es -> zget es k = Some e -> r_ticket e = Some t ->
  zset es k (e <| r_ticket := None |>) = Some es' ->
  zset tickets t (-1) = Some tickets' -> accounted tickets' es'.
Proof.
  intros Hacc Hk He Hes Htk t' v Hv. rewrite (zget_zset _ _ _ _ _ Htk) in Hv.
  case_decide as Hd; [simplify_eq; by left|].
  destruct (Hacc t' v Hv) as [|(j & x & Hj & Hx)]; [by left|right].
  exists j, x. split; [|done]. rewrite (zget_zset_ne _ _ _ _ _ Hes); [done|].
  intros <-. simplify_eq.
Qed.

Lemma held_tail tail tickets e es :
  0 <= tail < N -> zlen (e :: es) <= N ->
  held tail tickets (e :: es) -> held (ring_next N tail) tickets es.
Proof.
  intros Ht Hn Hh k x t Hx Hxt. pose proof (zget_lt _ _ _ Hx). unfold zlen in *. cbn in Hn.
  rewrite ring_at_next by lia. eapply Hh; [|done]. rewrite zget_cons, decide_False by lia.
  by replace (k + 1 - 1) with k by lia.
Qed.

Lemma accounted_tail tickets e es :
  r_ticket e = None -> accounted tickets (e :: es) -> accounted tickets es.
Proof.
  intros He Hacc t v Hv. destruct (Hacc t v Hv) as [|(k & x & Hk & Hx)]; [by left|right].
  rewrite zget_cons in Hk. case_decide; [simplify_eq; congruence | eauto].
Qed.

(** Giving the request at the end the ticket [t]. *)
Lemma held_snoc tail tickets es e t tickets' :
  0 <= tail < N -> zlen es < N -> held tail tickets es -> r_ticket e = Some t ->
  (forall k x, zget es k = Some x -> r_ticket x <> Some t) ->
  zset tickets t (ring_at N tail (zlen es)) = Some tickets' -> held tail tickets' (es ++ [e]).
Proof.
  intros Ht Hn Hh He Hfree Htk k x t' Hx Hxt. rewrite zget_snoc in Hx. case_decide; simplify_eq.
  - by eapply zget_zset_eq.
  - rewrite (zget_zset_ne _ _ _ _ _ Htk); [by eapply Hh|]. intros <-. by eapply Hfree.
Qed.

Lemma accounted_snoc tickets es e t v tickets' :
  accounted tickets es -> r_ticket e = Some t ->
  zset tickets t v = Some tickets' -> accounted tickets' (es ++ [e]).
Proof.
  intros Hacc He Htk t' v' Hv. rewrite (zget_zset _ _ _ _ _ Htk) in Hv.
  case_decide; simplify_eq.
  - right. exists (zlen es), e. by rewrite zget_snoc, decide_True.
  - destruct (Hacc t' v' Hv) as [|(k & x & Hk & Hx)]; [by left|right].
    exists k, x. split; [|done]. pose proof (zget_lt _ _ _ Hk).
    by rewrite zget_snoc, decide_False by lia.
Qed.

(** * The operations of the mailbox transmit queue against its contract *)

(** ** Accesses to the arrays *)

Section Access.
Context (F : fault -> Prop) (q : ec_mbxqueuet).

Lemma wp_qget {A} (f : ec_mbxqueuet -> list A) i x Q :
  zget (f q) i = Some x -> Q x q -> wp F (qget f i) Q q.
Proof. intros. unfold qget. wp_steps. by eapply wp_of_opt. Qed.

Lemma wp_set_mbx i v l Q :
  zset (mbx q) i v = Some l -> Q tt (q <| mbx := l |>) -> wp F (set_mbx i v) Q q.
Proof. intros. unfold set_mbx. wp_steps. eapply wp_of_opt; [done|]. by wp_steps. Qed.

Lemma wp_set_mbxstate i v l Q :
  zset (mbxstate q) i v = Some l -> Q tt (q <| mbxstate := l |>) -> wp F (set_mbxstate i v) Q q.
Proof. intros. unfold set_mbxstate. wp_steps. eapply wp_of_opt; [done|]. by wp_steps. Qed.

Lemma wp_set_mbxremove i v l Q :
  zset (mbxremove q) i v = Some l -> Q tt (q <| mbxremove := l |>) -> wp F (set_mbxremove i v) Q q.
Proof. intros. unfold set_mbxremove. wp_steps. eapply wp_of_opt; [done|]. by wp_steps. Qed.

Lemma wp_set_mbxticket i v l Q :
  zset (mbxticket q) i v = Some l -> Q tt (q <| mbxticket := l |>) -> wp F (set_mbxticket i v) Q q.
Proof. intros. unfold set_mbxticket. wp_steps. eapply wp_of_opt; [done|]. by wp_steps. Qed.

Lemma wp_set_mbxslave i v l Q :
  zset (mbxslave q) i v = Some l -> Q tt (q <| mbxslave := l |>) -> wp F (set_mbxslave i v) Q q.
Proof. intros. unfold set_mbxslave. wp_steps. eapply wp_of_opt; [done|]. by wp_steps. Qed.
End Access.

(** [lia] with the size of the pool. *)
Ltac pool_lia := change EC_MBXPOOLSIZE with 32 in *; lia.

(** Write slot [loc] of an array, naming the result. *)
Ltac q_set lem :=
  wp_steps; eapply lem;
  [apply zset_some; first [lia | cbn; lia]|]; wp_steps; cbn -[Z.add wrap_next].

Lemma wrap_next_eq i : wrap_next i = ring_next N i.
Proof. reflexivity. Qed.

(** ** Initialisation *)

Definition queue_shape (q : ec_mbxqueuet) : Prop :=
  zlen (mbx q) = N /\ zlen (mbxstate q) = N /\ zlen (mbxremove q) = N
  /\ zlen (mbxticket q) = N /\ zlen (mbxslave q) = N.

Lemma slots_nil {A} tail (arr : list A) f : slots tail arr f [].
Proof. intros k e Hk. by pose proof (zget_lt _ _ _ Hk); unfold zlen in *; cbn in *; lia. Qed.

Lemma initmbxqueue_spec q :
  queue_shape q -> total ecx_initmbxqueue (fun r q' => r = 0 /\ queue_rep q' []) q.
Proof.
  intros (Hm & Hs & Hr & Ht & Hsl). unfold ecx_initmbxqueue. wp_steps. cbn.
  eapply wp_mono.
  - apply wp_for_range with (I := fun i _ q' => queue_shape q' /\ listhead q' = 0
      /\ listtail q' = 0 /\ listcount q' = 0
      /\ forall j, 0 <= j < i -> zget (mbxticket q') j = Some (-1)).
    + split_and!; cbn; done || lia.
    + intros j _ s Hj ((Hm' & Hs' & Hr' & Ht' & Hsl') & Hh & Htl & Hc & Hf).
      pose proof (zset_some (mbxticket s) j (-1)) as Hset. rewrite Ht' in Hset.
      specialize (Hset ltac:(pool_lia)).
      eapply wp_set_mbxticket; [exact Hset|]. cbn. pose proof (zset_length _ _ _ _ Hset).
      split; [unfold queue_shape; cbn; split_and!; try done; lia|].
      split_and!; try done.
      intros i Hi. rewrite (zget_zset _ _ _ _ _ Hset). case_decide; [done|]. apply Hf. lia.
  - intros _ s ((Hm' & Hs' & Hr' & Ht' & Hsl') & Hh & Htl & Hc & Hf). wp_steps. split; [done|].
    assert (Hz : forall k e, zget (@nil request) k = Some e -> False).
    { intros k e Hk. pose proof (zget_lt _ _ _ Hk). unfold zlen in *. cbn in *. lia. }
    constructor; rewrite ?Hh, ?Htl, ?Hc; try apply slots_nil; try done.
    + intros k e t Hk. by apply Hz in Hk.
    + intros t v Hv. left. pose proof (zget_lt _ _ _ Hv) as Hlt. rewrite Ht' in Hlt.
      rewrite Hf in Hv by pool_lia. congruence.
Qed.

(** ** Adding a request *)

(** The search for a free ticket: fewer than [N] tickets are out, so it finds one. *)
Lemma ticket_search q es :
  queue_rep q es -> zlen es < N ->
  total (while_do (S (S (Z.to_nat N)))
      (fun ticket => if ticket <? N
                     then let* v := qget mbxticket ticket in ret (0 <=? v)
                     else ret false)
      (fun ticket => ret (ticket + 1)) 0)
    (fun t q' => q' = q /\ 0 <= t < N /\ forall k e, zget es k = Some e -> r_ticket e <> Some t) q.
Proof.
  intros Hrep Hn. pose proof (rep_ticket_len _ _ Hrep) as Htl.
  eapply (wp_while_do _ (fun t q' => q' = q /\ 0 <= t <= N
      /\ forall i, 0 <= i < t -> exists v, zget (mbxticket q) i = Some v /\ 0 <= v)
    (fun t _ => Z.to_nat (N - t))); [| split_and!; done || pool_lia | pool_lia].
  intros t s (-> & Ht & Hall). apply wp_if; intros Hlt.
  - destruct (zget_some (mbxticket q) t) as [v Hv]; [lia|]. wp_steps.
    eapply wp_qget; [exact Hv|]. wp_steps. destruct (Z.leb_spec 0 v) as [Hv0|Hv0].
    + wp_steps. split; [|lia]. split_and!; [done | lia | lia |].
      intros i Hi. destruct (decide (i = t)) as [->|]; [eauto|]. apply Hall. lia.
    + split_and!; [done | lia | lia |]. intros k e Hk Ht'.
      pose proof (rep_held _ _ Hrep _ _ _ Hk Ht') as Hh. rewrite Hv in Hh. injection Hh as ->.
      pose proof (zget_lt _ _ _ Hk). pose proof (rep_tail _ _ Hrep).
      pose proof (ring_at_lt (listtail q) k ltac:(lia) ltac:(lia)). lia.
  - wp_steps. exfalso. apply (free_ticket (mbxticket q) es); [done | apply Hrep |].
    intros i Hi. apply Hall. lia.
Qed.

Lemma addqueue_spec q es slave m :
  queue_rep q es -> zlen es < N ->
  total (ecx_mbxaddqueue slave m) (fun t q' =>
    0 <= t < N /\ (forall k e, zget es k = Some e -> r_ticket e <> Some t)
    /\ queue_rep q' (es ++ [Request (Some t) slave m EC_MBXQUEUESTATE_REQ])) q.
Proof.
  intros Hrep Hn. unfold ecx_mbxaddqueue. wp_steps.
  pose proof (zlen_nonneg es) as Hz.
  rewrite (rep_count _ _ Hrep), (proj2 (Z.ltb_lt _ _)) by done. wp_steps.
  eapply wp_mono; [by apply (ticket_search q es)|]. intros t q' (-> & Ht & Hfree).
  destruct Hrep as [Hml Hstl Hrml Htkl Hsll Hta Hct Hroom Hhd Hm Hst Hrm Hsl Hpe Hhe Hac].
  pose proof (ring_at_lt (listtail q) (zlen es) Hta ltac:(lia)) as Hloc.
  rewrite <- Hhd in Hloc.
  q_set @wp_set_mbxticket. q_set @wp_set_mbxslave. q_set @wp_set_mbx.
  q_set @wp_set_mbxremove. q_set @wp_set_mbxstate.
  split; [done|]. split; [done|]. rewrite Hhd.
  set (e := Request _ _ _ _).
  constructor; cbn -[Z.add wrap_next].
  all: try (unfold zlen; rewrite length_insert; done).
  - done.
  - rewrite zlen_app, zlen_single. lia.
  - rewrite zlen_app, zlen_single. lia.
  - by rewrite wrap_next_eq, ring_next_at, zlen_app, zlen_single by lia.
  - eapply slots_snoc; [done..| by apply zset_some; lia].
  - eapply slots_snoc; [done..| by apply zset_some; lia].
  - eapply slots_snoc; [done..| by apply zset_some; lia].
  - eapply slots_snoc; [done..| by apply zset_some; lia].
  - apply Forall_app. split; [done|]. constructor; [by left | done].
  - eapply held_snoc; [done.. | apply zset_some; lia].
  - eapply accounted_snoc; [done.. | apply zset_some; lia].
Qed.

Lemma addqueue_full q es slave m :
  queue_rep q es -> zlen es = N -> ecx_mbxaddqueue slave m q = Ok (-1, q).
Proof.
  intros Hrep Hn. unfold ecx_mbxaddqueue, bind, gets.
  rewrite (rep_count _ _ Hrep), Hn. reflexivity.
Qed.

(** ** Releasing a ticket *)

Lemma rep_slot q es k e :
  queue_rep q es -> zget es k = Some e -> 0 <= ring_at N (listtail q) k < N /\ 0 <= k < zlen es.
Proof.
  intros Hrep Hk. pose proof (zget_lt _ _ _ Hk). pose proof (rep_room _ _ Hrep).
  split; [|done]. apply ring_at_lt; [apply Hrep | lia].
Qed.

Lemma release_spec q es k e t es' :
  queue_rep q es -> zget es k = Some e -> r_ticket e = Some t ->
  zset es k (e <| r_ticket := None |>) = Some es' ->
  total (do* set_mbxremove (ring_at N (listtail q) k) 1 in
         do* set_mbxticket t (-1) in ret 1)
    (fun r q' => r = 1 /\ queue_rep q' es') q.
Proof.
  intros Hrep Hk He Hes. destruct (rep_slot _ _ _ _ Hrep Hk) as [Hloc Hkr].
  destruct Hrep as [Hml Hstl Hrml Htkl Hsll Hta Hct Hroom Hhd Hm Hst Hrm Hsl Hpe Hhe Hac].
  pose proof (zget_lt _ _ _ (Hhe _ _ _ Hk He)) as Htr.
  q_set @wp_set_mbxremove. q_set @wp_set_mbxticket. split; [done|].
  pose proof (zset_length _ _ _ _ Hes) as Hlen.
  constructor; cbn; rewrite ?Hlen; try done.
  - unfold zlen. by rewrite length_insert.
  - unfold zlen. by rewrite length_insert.
  - by eapply (slots_keep _ _ _ es k e).
  - by eapply (slots_keep _ _ _ es k e).
  - eapply (slots_update _ (mbxremove q) removed es k); [done.. | apply zset_some; lia].
  - by eapply (slots_keep _ _ _ es k e).
  - eapply Forall_zset; [done | | done]. cbn.
    rewrite Forall_forall in Hpe. apply Hpe, zget_elem_of. eauto.
  - eapply held_release; [done.. | apply zset_some; lia].
  - eapply accounted_release; [done.. | apply zset_some; lia].
Qed.

Lemma holds_ticket q es k e t :
  queue_rep q es -> zget es k = Some e -> r_ticket e = Some t ->
  zget (mbxticket q) t = Some (ring_at N (listtail q) k) /\ 0 <= t < N.
Proof.
  intros Hrep Hk He. pose proof (rep_held _ _ Hrep _ _ _ Hk He) as Hh. split; [done|].
  rewrite <- (rep_ticket_len _ _ Hrep). by eapply zget_lt.
Qed.

Lemma donequeue_spec q es k e t es' :
  queue_rep q es -> zget es k = Some e -> r_ticket e = Some t ->
  zset es k (e <| r_ticket := None |>) = Some es' ->
  total (ecx_mbxdonequeue t) (fun r q' =>
    if decide (r_state e = EC_MBXQUEUESTATE_DONE)
    then r = 1 /\ queue_rep q' es' else r = 0 /\ q' = q) q.
Proof.
  intros Hrep Hk He Hes. destruct (holds_ticket _ _ _ _ _ Hrep Hk He) as [Hh Ht].
  unfold ecx_mbxdonequeue. apply wp_if; intros Hif; [|lia]. wp_steps.
  eapply wp_qget; [exact Hh|]. wp_steps.
  eapply wp_qget; [by apply (rep_state _ _ Hrep)|].
  case_decide as Hd.
  - rewrite Hd. cbn [EC_MBXQUEUESTATE_DONE Z.eqb]. by eapply release_spec.
  - apply wp_if; intros Hs; [lia|]. by wp_steps.
Qed.

Lemma expirequeue_spec q es k e t es' :
  queue_rep q es -> zget es k = Some e -> r_ticket e = Some t ->
  zset es k (e <| r_ticket := None |>) = Some es' ->
  total (ecx_mbxexpirequeue t) (fun r q' => r = 1 /\ queue_rep q' es') q.
Proof.
  intros Hrep Hk He Hes. destruct (holds_ticket _ _ _ _ _ Hrep Hk He) as [Hh Ht].
  unfold ecx_mbxexpirequeue. apply wp_if; intros Hif; [|lia]. wp_steps.
  eapply wp_qget; [exact Hh|]. wp_steps.
  eapply wp_qget; [by apply (rep_state _ _ Hrep)|].
  assert (pending (r_state e)) as Hp.
  { pose proof (rep_pending _ _ Hrep) as Hpe. rewrite Forall_forall in Hpe.
    apply Hpe, zget_elem_of. eauto. }
  apply wp_if; intros Hs.
  - by eapply release_spec.
  - unfold pending, EC_MBXQUEUESTATE_REQ, EC_MBXQUEUESTATE_FAIL, EC_MBXQUEUESTATE_DONE,
      EC_MBXQUEUESTATE_NONE in *. lia.
Qed.

Lemma ticket_outside t q :
  ~ (0 <= t < N) -> ecx_mbxdonequeue t q = Ok (0, q) /\ ecx_mbxexpirequeue t q = Ok (0, q).
Proof.
  intros Ht. unfold ecx_mbxdonequeue, ecx_mbxexpirequeue.
  destruct ((0 <=? t) && (t <? N)) eqn:E; [lia | done].
Qed.

(** ** The handler's operations on the oldest request *)

Lemma rep_head_slot q e es :
  queue_rep q (e :: es) -> zget (e :: es) 0 = Some e /\ ring_at N (listtail q) 0 = listtail q.
Proof. intros Hrep. split; [done|]. apply ring_at_0, Hrep. Qed.

(** Record that the oldest request could not be sent. *)
Lemma rep_set_state q e es st l :
  queue_rep q (e :: es) -> pending st -> zset (mbxstate q) (listtail q) st = Some l ->
  queue_rep (q <| mbxstate := l |>) (e <| r_state := st |> :: es).
Proof.
  intros Hrep Hp Hset. destruct (rep_head_slot _ _ _ Hrep) as [Hk Hloc].
  destruct Hrep as [Hml Hstl Hrml Htkl Hsll Hta Hct Hroom Hhd Hm Hst Hrm Hsl Hpe Hhe Hac].
  set (e' := e <| r_state := st |>).
  assert (Hes : zset (e :: es) 0 e' = Some (e' :: es)).
  { by rewrite zset_some by (unfold zlen; cbn; lia). }
  constructor; cbn; try done.
  - by rewrite (zset_length _ _ _ _ Hset).
  - by eapply (slots_keep _ _ _ (e :: es) 0 e).
  - eapply (slots_update _ (mbxstate q) r_state (e :: es) 0 e'); [done..|]. by rewrite Hloc.
  - by eapply (slots_keep _ _ _ (e :: es) 0 e).
  - by eapply (slots_keep _ _ _ (e :: es) 0 e).
  - constructor; [done|]. by apply Forall_cons in Hpe as [_ ?].
  - by eapply (held_same_tickets _ _ (e :: es) 0 e).
  - by eapply (accounted_same_tickets _ (e :: es) 0 e).
Qed.

(** Take the mailbox of the oldest request away. *)
Lemma rep_clear_mbx q e es l :
  queue_rep q (e :: es) -> zset (mbx q) (listtail q) None = Some l ->
  queue_rep (q <| mbx := l |>) (e <| r_mbx := None |> :: es).
Proof.
  intros Hrep Hset. destruct (rep_head_slot _ _ _ Hrep) as [Hk Hloc].
  destruct Hrep as [Hml Hstl Hrml Htkl Hsll Hta Hct Hroom Hhd Hm Hst Hrm Hsl Hpe Hhe Hac].
  set (e' := e <| r_mbx := None |>).
  assert (Hes : zset (e :: es) 0 e' = Some (e' :: es)).
  { by rewrite zset_some by (unfold zlen; cbn; lia). }
  constructor; cbn; try done.
  - by rewrite (zset_length _ _ _ _ Hset).
  - eapply (slots_update _ (mbx q) r_mbx (e :: es) 0 e'); [done..|]. by rewrite Hloc.
  - by eapply (slots_keep _ _ _ (e :: es) 0 e).
  - by eapply (slots_keep _ _ _ (e :: es) 0 e).
  - by eapply (slots_keep _ _ _ (e :: es) 0 e).
  - apply Forall_cons in Hpe as [? ?]. by constructor.
  - by eapply (held_same_tickets _ _ (e :: es) 0 e).
  - by eapply (accounted_same_tickets _ (e :: es) 0 e).
Qed.

Lemma set_state_spec q e es st :
  queue_rep q (e :: es) -> pending st ->
  total (set_mbxstate (listtail q) st)
    (fun _ q' => queue_rep q' (e <| r_state := st |> :: es) /\ listtail q' = listtail q) q.
Proof.
  intros Hrep Hp. pose proof (rep_tail _ _ Hrep). pose proof (rep_state_len _ _ Hrep).
  eapply wp_set_mbxstate; [apply zset_some; lia|]. split; [|done].
  eapply rep_set_state; [done..|]. apply zset_some. lia.
Qed.

Lemma clear_mbx_spec q e es :
  queue_rep q (e :: es) ->
  total (set_mbx (listtail q) None)
    (fun _ q' => queue_rep q' (e <| r_mbx := None |> :: es) /\ listtail q' = listtail q) q.
Proof.
  intros Hrep. pose proof (rep_tail _ _ Hrep). pose proof (rep_mbx_len _ _ Hrep).
  eapply wp_set_mbx; [apply zset_some; lia|]. split; [|done].
  eapply rep_clear_mbx; [done..|]. apply zset_some. lia.
Qed.

(** The rotation looks for the ticket of the oldest request. *)
Lemma rotate_search q e es :
  queue_rep q (e :: es) ->
  total (while_do (S (Z.to_nat N))
      (fun cnt => if cnt <? N
                  then let* v := qget mbxticket cnt in ret (negb (v =? listtail q))
                  else ret false)
      (fun cnt => ret (cnt + 1)) 0)
    (fun c q' => q' = q /\ match r_ticket e with Some t => c = t /\ 0 <= t < N | None => c = N end) q.
Proof.
  intros Hrep. destruct (rep_head_slot _ _ _ Hrep) as [Hk Hloc].
  pose proof (rep_ticket_len _ _ Hrep) as Htl. pose proof (rep_tail _ _ Hrep) as Hta.
  eapply (wp_while_do _ (fun t q' => q' = q /\ 0 <= t <= N
      /\ forall i, 0 <= i < t -> zget (mbxticket q) i <> Some (listtail q))
    (fun t _ => Z.to_nat (N - t))); [| split_and!; done || pool_lia | pool_lia].
  intros t s (-> & Ht & Hall). apply wp_if; intros Hlt.
  - destruct (zget_some (mbxticket q) t) as [v Hv]; [lia|]. wp_steps.
    eapply wp_qget; [exact Hv|]. wp_steps. destruct (Z.eqb_spec v (listtail q)) as [->|Hne]; cbn.
    + split; [done|]. destruct (rep_accounted _ _ Hrep t _ Hv) as [|(k & x & Hx & Hxt)]; [lia|].
      pose proof (rep_held _ _ Hrep _ _ _ Hx Hxt) as Hh. rewrite Hv in Hh. injection Hh as Hh.
      destruct (rep_slot _ _ _ _ Hrep Hx). pose proof (rep_room _ _ Hrep).
      rewrite <- Hloc in Hh at 1. apply ring_at_inj in Hh; [|lia..]. subst k. simplify_eq.
      rewrite Hxt. split; [done | lia].
    + wp_steps. split; [|lia]. split_and!; [done | lia | lia |].
      intros i Hi. destruct (decide (i = t)) as [->|]; [congruence|]. apply Hall. lia.
  - wp_steps. split; [done|]. destruct (r_ticket e) as [t'|] eqn:He; [|lia].
    destruct (holds_ticket _ _ _ _ _ Hrep Hk He) as [Hh Ht']. rewrite Hloc in Hh.
    exfalso. apply (Hall t'); [lia | done].
Qed.

Lemma zlen_cons {A} (x : A) l : zlen (x :: l) = zlen l + 1.
Proof. unfold zlen. cbn. lia. Qed.

(** A request moved from the front to the end keeps its ticket. *)
Lemma held_rotate tail tickets e es t tickets' :
  0 <= tail < N -> zlen (e :: es) < N -> held tail tickets (e :: es) -> r_ticket e = Some t ->
  zset tickets t (ring_at N tail (zlen (e :: es))) = Some tickets' ->
  held (ring_next N tail) tickets' (es ++ [e]).
Proof.
  intros Ht Hn Hh He Htk. rewrite zlen_cons in *. pose proof (zlen_nonneg es).
  eapply held_snoc; [by apply ring_next_range | lia | | done | |].
  - eapply (held_tail _ _ e); [done | rewrite zlen_cons; lia | done].
  - intros k x Hx Hxt. pose proof (zget_lt _ _ _ Hx).
    assert (k + 1 = 0); [|lia].
    apply (held_unique tail tickets (e :: es) (k + 1) 0 x e t);
      [done | rewrite zlen_cons; lia | done | | done | done | done].
    rewrite zget_cons, decide_False by lia. by replace (k + 1 - 1) with k by lia.
  - by rewrite ring_at_next by lia.
Qed.

Lemma accounted_rotate tickets e es t v tickets' :
  accounted tickets (e :: es) -> r_ticket e = Some t -> zset tickets t v = Some tickets' ->
  accounted tickets' (es ++ [e]).
Proof.
  intros Hacc He Htk t' v' Hv. rewrite (zget_zset _ _ _ _ _ Htk) in Hv. case_decide; simplify_eq.
  - right. exists (zlen es), e. by rewrite zget_snoc, decide_True.
  - destruct (Hacc t' v' Hv) as [|(k & x & Hk & Hx)]; [by left|right].
    rewrite zget_cons in Hk. case_decide; [simplify_eq|]. exists (k - 1), x. split; [|done].
    pose proof (zget_lt _ _ _ Hk). by rewrite zget_snoc, decide_False by lia.
Qed.

Lemma slots_rotate {A} tail (arr : list A) f e es arr' :
  0 <= tail < N -> zlen (e :: es) < N -> slots tail arr f (e :: es) ->
  zset arr (ring_at N tail (zlen (e :: es))) (f e) = Some arr' ->
  slots (ring_next N tail) arr' f (es ++ [e]).
Proof.
  intros Ht Hn Hs Ha. rewrite zlen_cons in Hn.
  eapply (slots_tail _ _ _ e); [done | rewrite zlen_cons, zlen_app, zlen_single; lia |].
  eapply (slots_snoc _ _ _ (e :: es)); [done | rewrite zlen_cons; lia | done..].
Qed.

Lemma rotatequeue_spec q e es :
  queue_rep q (e :: es) ->
  total (ecx_mbxrotatequeue (listtail q)) (fun r q' =>
    if decide (zlen (e :: es) = N) then r = 1 /\ q' = q
    else match r_ticket e with
         | Some _ => r = 1 /\ queue_rep q' (es ++ [e])
         | None => r = 0 /\ q' = q
         end) q.
Proof.
  intros Hrep. destruct (rep_head_slot _ _ _ Hrep) as [Hk Hloc].
  pose proof (rep_room _ _ Hrep) as Hroom. pose proof (rep_tail _ _ Hrep) as Hta.
  unfold ecx_mbxrotatequeue. wp_steps.
  rewrite (rep_head _ _ Hrep). pose proof (zlen_cons e es) as Hlc. pose proof (zlen_nonneg es).
  case_decide as Hfull.
  { rewrite Hfull. unfold ring_at. rewrite (proj2 (Z.leb_le _ _)) by lia.
    replace (listtail q + N - N =? listtail q) with true by lia. by wp_steps. }
  assert (ring_at N (listtail q) (zlen (e :: es)) <> listtail q) as Hne.
  { rewrite <- Hloc at 2. intros Heq. apply ring_at_inj in Heq; lia. }
  rewrite (proj2 (Z.eqb_neq _ _) Hne). cbn [negb]. wp_steps.
  eapply wp_mono; [by eapply rotate_search|]. intros c q' [-> Hc].
  destruct (r_ticket e) as [t|] eqn:He.
  - destruct Hc as [-> Ht]. apply wp_if; intros Hif; [|lia].
    pose proof Hrep as [Hml Hstl Hrml Htkl Hsll _ Hct _ Hhd Hm Hst Hrm Hsl Hpe Hhe Hac].
    assert (0 <= ring_at N (listtail q) (zlen (e :: es)) < N) as Hhr by (apply ring_at_lt; lia).
    q_set @wp_set_mbxticket.
    eapply wp_qget; [cbn; rewrite <- Hloc; by apply Hrm|]. q_set @wp_set_mbxremove.
    eapply wp_qget; [cbn; rewrite <- Hloc; by apply Hst|]. q_set @wp_set_mbxstate.
    eapply wp_qget; [cbn; rewrite <- Hloc; by apply Hsl|]. q_set @wp_set_mbxslave.
    eapply wp_qget; [cbn; rewrite <- Hloc; by apply Hm|]. q_set @wp_set_mbx.
    split; [done|]. rewrite !wrap_next_eq.
    assert (zlen (es ++ [e]) = zlen (e :: es)) as Hlen by (rewrite zlen_app, zlen_single; lia).
    constructor; cbn -[Z.add ring_next]; rewrite ?Hlen; try done.
    all: try (unfold zlen; rewrite length_insert; done).
    + by apply ring_next_range.
    + rewrite Hhd, ring_next_at by lia. symmetry. apply ring_at_next; lia.
    + eapply slots_rotate; [done | lia | done | apply zset_some; lia].
    + eapply slots_rotate; [done | lia | done | apply zset_some; lia].
    + eapply slots_rotate; [done | lia | done | apply zset_some; lia].
    + eapply slots_rotate; [done | lia | done | apply zset_some; lia].
    + apply Forall_cons in Hpe as [? ?]. apply Forall_app. split; [done|]. by constructor.
    + eapply held_rotate; [done | lia | done | done | apply zset_some; lia].
    + eapply accounted_rotate; [done | done | apply zset_some; lia].
  - subst c. apply wp_if; intros Hif; [lia|]. by wp_steps.
Qed.

(** Dropping the oldest request, which its owner must have released. *)
Lemma dropqueue_spec q e es :
  queue_rep q (e :: es) -> r_ticket e = None ->
  total (ecx_mbxdropqueue (listtail q)) (fun r q' => r = r_mbx e /\ queue_rep q' es) q.
Proof.
  intros Hrep He. destruct (rep_head_slot _ _ _ Hrep) as [Hk Hloc].
  pose proof (zlen_cons e es) as Hlc. pose proof (zlen_nonneg es).
  destruct Hrep as [Hml Hstl Hrml Htkl Hsll Hta Hct Hroom Hhd Hm Hst Hrm Hsl Hpe Hhe Hac].
  unfold ecx_mbxdropqueue.
  q_set @wp_set_mbxstate. q_set @wp_set_mbxremove. q_set @wp_set_mbxslave.
  eapply wp_qget; [cbn; rewrite <- Hloc; by apply Hm|]. q_set @wp_set_mbx.
  split; [done|]. rewrite wrap_next_eq.
  constructor; cbn -[Z.sub ring_next]; try done; try lia.
  all: try (unfold zlen; rewrite length_insert; done).
  - by apply ring_next_range.
  - rewrite Hhd, ring_at_next by lia. f_equal. lia.
  - eapply (slots_drop _ (mbx q)); [done.. | apply zset_some; lia].
  - eapply (slots_drop _ (mbxstate q)); [done.. | apply zset_some; lia].
  - eapply (slots_drop _ (mbxremove q)); [done.. | apply zset_some; lia].
  - eapply (slots_drop _ (mbxslave q)); [done.. | apply zset_some; lia].
  - by apply Forall_cons in Hpe as [_ ?].
  - by eapply held_tail.
  - by eapply accounted_tail.
Qed.
