(* ===== verification/QueueTheorems.v ===== *)
(** * Theorems on the mailbox transmit queue

    A client of the queue adds requests and polls or expires its tickets; the handler
    sends, rotates and drops the oldest request.  Their calls interleave in any order,
    each one step under the mutex of the queue. *)

From S2P Require Import Prelude Ring Types Mailbox QueueSpec.
Import MbxQueue stdpp.list_relations.list stdpp.list_basics.list.

(** ** Calls *)

Inductive qcall : Type :=
| Add (slave : Z) (m : option Z)
| Done (ticket : Z)
| Expire (ticket : Z)
| Sent          (** the handler sent the oldest request *)
| Failed        (** it could not *)
| Rotate
| Drop.

Inductive qres : Type := RInt (r : Z) | RMbx (m : option Z) | RUnit.

(** The code of each call; the handler's ones work on the slot of the tail. *)
Definition queue_do (c : qcall) : QM qres :=
  match c with
  | Add slave m => let* t := ecx_mbxaddqueue slave m in ret (RInt t)
  | Done t => let* r := ecx_mbxdonequeue t in ret (RInt r)
  | Expire t => let* r := ecx_mbxexpirequeue t in ret (RInt r)
  | Sent =>
      let* loc := gets listtail in
      do* set_mbxstate loc EC_MBXQUEUESTATE_DONE in
      do* set_mbx loc None in ret RUnit
  | Failed =>
      let* loc := gets listtail in
      do* set_mbxstate loc EC_MBXQUEUESTATE_FAIL in ret RUnit
  | Rotate => let* loc := gets listtail in let* r := ecx_mbxrotatequeue loc in ret (RInt r)
  | Drop => let* loc := gets listtail in let* m := ecx_mbxdropqueue loc in ret (RMbx m)
  end.

(** ** The abstract steps *)

Definition fresh (es : list request) (t : Z) : Prop :=
  forall k e, zget es k = Some e -> r_ticket e <> Some t.

(** [es'] is [es] with the ticket [t] released; [st] is the state of its request. *)
Definition releases_ticket (es : list request) (t st : Z) (es' : list request) : Prop :=
  exists k e, zget es k = Some e /\ r_ticket e = Some t /\ r_state e = st
    /\ zset es k (e <| r_ticket := None |>) = Some es'.

Inductive qstep : list request -> qcall -> qres -> list request -> Prop :=
| q_add es slave m t :
    zlen es < N -> 0 <= t < N -> fresh es t ->
    qstep es (Add slave m) (RInt t)
      (es ++ [Request (Some t) slave m EC_MBXQUEUESTATE_REQ])
| q_add_full es slave m : zlen es = N -> qstep es (Add slave m) (RInt (-1)) es
| q_done es t es' :
    releases_ticket es t EC_MBXQUEUESTATE_DONE es' -> qstep es (Done t) (RInt 1) es'
| q_not_done es t st es' :
    releases_ticket es t st es' -> st <> EC_MBXQUEUESTATE_DONE -> qstep es (Done t) (RInt 0) es
| q_expire es t st es' : releases_ticket es t st es' -> qstep es (Expire t) (RInt 1) es'
| q_sent e es :
    qstep (e :: es) Sent RUnit (e <| r_state := EC_MBXQUEUESTATE_DONE |> <| r_mbx := None |> :: es)
| q_failed e es :
    qstep (e :: es) Failed RUnit (e <| r_state := EC_MBXQUEUESTATE_FAIL |> :: es)
| q_rotate e es :
    zlen (e :: es) <> N -> is_Some (r_ticket e) -> qstep (e :: es) Rotate (RInt 1) (es ++ [e])
| q_rotate_full e es : zlen (e :: es) = N -> qstep (e :: es) Rotate (RInt 1) (e :: es)
| q_rotate_released e es :
    zlen (e :: es) <> N -> r_ticket e = None -> qstep (e :: es) Rotate (RInt 0) (e :: es)
| q_drop e es : r_ticket e = None -> qstep (e :: es) Drop (RMbx (r_mbx e)) es.

(** What a call may rely on: a client uses a ticket it holds, the handler finds a
    request, and drops only a released one. *)
Definition qallowed (es : list request) (c : qcall) : Prop :=
  match c with
  | Add _ _ => True
  | Done t | Expire t => exists k e, zget es k = Some e /\ r_ticket e = Some t
  | Sent | Failed | Rotate => es <> []
  | Drop => exists e es', es = e :: es' /\ r_ticket e = None
  end.

Lemma release_exists es k e t :
  zget es k = Some e -> r_ticket e = Some t ->
  exists es', zset es k (e <| r_ticket := None |>) = Some es'
    /\ releases_ticket es t (r_state e) es'.
Proof.
  intros Hk He. pose proof (zget_lt _ _ _ Hk) as Hr.
  eexists. split; [by apply zset_some|]. exists k, e. split_and!; try done.
  by apply zset_some.
Qed.

Lemma queue_simulates (q : ec_mbxqueuet) (es : list request) (c : qcall) :
  queue_rep q es -> qallowed es c ->
  total (queue_do c) (fun r q' => exists es', qstep es c r es' /\ queue_rep q' es') q.
Proof.
  intros Hrep Hok. destruct c as [slave m|t|t| | | |]; cbn [queue_do qallowed] in *; wp_steps.
  - destruct (decide (zlen es < N)) as [Hlt|Hge].
    + eapply wp_mono; [by apply addqueue_spec|]. intros t q' (Ht & Hf & Hrep').
      wp_steps. eexists. split; [by apply q_add | done].
    + pose proof (rep_room _ _ Hrep). eapply wp_ok; [eapply addqueue_full; [done | lia]|].
      wp_steps. exists es. split; [apply q_add_full; lia | done].
  - destruct Hok as (k & e & Hk & He). destruct (release_exists es k e t Hk He) as (es' & Hes & Hrel).
    eapply wp_mono; [by eapply donequeue_spec|]. intros r q' Hr. wp_steps.
    case_decide as Hd; destruct Hr as [-> Hq].
    + exists es'. split; [|done]. apply q_done. by rewrite <- Hd.
    + exists es. subst q'. split; [|done]. by eapply q_not_done.
  - destruct Hok as (k & e & Hk & He). destruct (release_exists es k e t Hk He) as (es' & Hes & Hrel).
    eapply wp_mono; [by eapply expirequeue_spec|]. intros r q' [-> Hq]. wp_steps.
    exists es'. split; [|done]. by eapply q_expire.
  - destruct es as [|e es]; [done|].
    eapply wp_mono; [apply (set_state_spec q e es EC_MBXQUEUESTATE_DONE);
      [done | by right; right]|]. intros _ q1 [Hq1 Hl]. rewrite <- Hl. wp_steps.
    eapply wp_mono; [by eapply clear_mbx_spec|]. intros _ q2 [Hq2 _]. wp_steps.
    eexists. split; [apply q_sent | done].
  - destruct es as [|e es]; [done|].
    eapply wp_mono; [apply (set_state_spec q e es EC_MBXQUEUESTATE_FAIL);
      [done | by right; left]|]. intros _ q' [Hq _]. wp_steps.
    eexists. split; [apply q_failed | done].
  - destruct es as [|e es]; [done|].
    eapply wp_mono; [by apply (rotatequeue_spec q e es)|]. intros r q' Hr. wp_steps.
    case_decide as Hf; [|destruct (r_ticket e) as [t|] eqn:He]; destruct Hr as [-> Hq].
    + subst q'. eexists. split; [by apply q_rotate_full | done].
    + eexists. split; [by apply q_rotate | done].
    + subst q'. eexists. split; [by apply q_rotate_released | done].
  - destruct Hok as (e & es' & -> & He).
    eapply wp_mono; [by apply (dropqueue_spec q e es')|]. intros r q' [-> Hq]. wp_steps.
    eexists. split; [by apply q_drop | done].
Qed.

(** C2: Every call on a queue that represents a list of requests is a step of the
    abstract queue: requests enter at the end with a ticket no other request has, a
    ticket finds its request wherever rotation has moved it, releasing it marks exactly
    that request, and the handler works on the oldest one.  No call leaves an array.  The
    calls are those the protocol allows ([qallowed]): with a ticket that is in the queue,
    and by the handler on a queue that is not empty, dropping only a released request. *)
Theorem queue_simulation (q : ec_mbxqueuet) (es : list request) (c : qcall) :
  queue_rep q es -> qallowed es c ->
  total (queue_do c) (fun r q' => exists es', qstep es c r es' /\ queue_rep q' es') q.
Proof. apply queue_simulates. Qed.

(** ** Tickets survive the handler *)

(** What the code may rely on in a call, read from the arrays: a client passes a ticket
    that is out, the handler finds a request, and drops only one marked for removal. *)
Definition code_allows (q : ec_mbxqueuet) (c : qcall) : Prop :=
  match c with
  | Add _ _ => True
  | Done t | Expire t => exists loc, zget (mbxticket q) t = Some loc /\ 0 <= loc
  | Sent | Failed | Rotate => 0 < listcount q
  | Drop => 0 < listcount q /\ zget (mbxremove q) (listtail q) = Some 1
  end.

(** A call that does not release the ticket [t]. *)
Definition keeps (t : Z) (c : qcall) : Prop :=
  match c with Done t' | Expire t' => t' <> t | _ => True end.

(** Interleavings of calls, none of which releases [t]. *)
Inductive qrun (t : Z) : ec_mbxqueuet -> ec_mbxqueuet -> Prop :=
| qrun_refl q : qrun t q q
| qrun_step q c r q1 q2 :
    code_allows q c -> keeps t c -> queue_do c q = Ok (r, q1) -> qrun t q1 q2 -> qrun t q q2.

Lemma code_allows_allowed q es c : queue_rep q es -> code_allows q c -> qallowed es c.
Proof.
  intros Hrep Hok. pose proof (rep_count _ _ Hrep) as Hc.
  assert (Hne : 0 < listcount q -> es <> []).
  { intros Hpos ->. rewrite Hc in Hpos. unfold zlen in Hpos. cbn in Hpos. lia. }
  destruct c as [slave m|t|t| | | |]; cbn in *; auto.
  - destruct Hok as (loc & Hl & H0). destruct (rep_accounted _ _ Hrep _ _ Hl); [lia | done].
  - destruct Hok as (loc & Hl & H0). destruct (rep_accounted _ _ Hrep _ _ Hl); [lia | done].
  - destruct Hok as [Hpos Hr]. destruct es as [|e es]; [by apply Hne in Hpos|].
    exists e, es. split; [done|]. destruct (rep_head_slot _ _ _ Hrep) as [Hk Hloc].
    pose proof (rep_remove _ _ Hrep _ _ Hk) as Hrm. rewrite Hloc, Hr in Hrm.
    unfold removed in Hrm. by destruct (r_ticket e).
Qed.

(** The request of a ticket: its slave does not change. *)
Definition owns (es : list request) (t slave : Z) : Prop :=
  exists e, e ∈ es /\ r_ticket e = Some t /\ r_slave e = slave.

Lemma owns_release es t' st es' t slave :
  releases_ticket es t' st es' -> t' <> t -> owns es t slave -> owns es' t slave.
Proof.
  intros (k & e & Hk & He & _ & Hes) Hne (x & Hx & Hxt & Hxs).
  exists x. split; [|done]. apply zget_elem_of in Hx as [j Hj]. apply zget_elem_of. exists j.
  rewrite (zget_zset_ne _ _ _ _ _ Hes); [done|]. intros <-. simplify_eq.
Qed.

Lemma owns_step es c r es' t slave :
  qstep es c r es' -> keeps t c -> owns es t slave -> owns es' t slave.
Proof.
  intros Hs Hk Ho. destruct Hs; cbn in Hk; try done.
  - destruct Ho as (x & Hx & Hxt). exists x. split; [|done]. by apply elem_of_app; left.
  - by eapply owns_release.
  - by eapply owns_release.
  - destruct Ho as (x & [->|Hx]%elem_of_cons & Hxt).
    + eexists. split; [by apply elem_of_cons; left | done].
    + exists x. split; [by apply elem_of_cons; right | done].
  - destruct Ho as (x & [->|Hx]%elem_of_cons & Hxt).
    + eexists. split; [by apply elem_of_cons; left | done].
    + exists x. split; [by apply elem_of_cons; right | done].
  - destruct Ho as (x & Hx & Hxt). exists x. split; [|done].
    apply elem_of_app. apply elem_of_cons in Hx as [->|Hx]; [right; by left | by left].
  - destruct Ho as (x & [->|Hx]%elem_of_cons & Hxt & Hxs); [congruence|].
    by exists x.
Qed.

Lemma run_owns t q q' es slave :
  qrun t q q' -> queue_rep q es -> owns es t slave ->
  exists es', queue_rep q' es' /\ owns es' t slave.
Proof.
  intros Hrun. revert es. induction Hrun as [q|q c r q1 q2 Hok Hkeep Hdo Hrun IH]; intros es Hrep Ho.
  { eauto. }
  pose proof (queue_simulates q es c Hrep (code_allows_allowed _ _ _ Hrep Hok)) as Hsim.
  destruct (wp_run _ _ _ _ _ _ Hsim Hdo) as (es1 & Hstep & Hrep1).
  eapply IH; [done|]. by eapply owns_step.
Qed.

(** C28: The ticket a client gets from adding a mailbox stays valid whatever the handler
    and the other clients do until the client itself releases it: it keeps pointing to a
    slot of the queue that holds a request for the same slave and is not removed. *)
Theorem ticket_stays_valid (q q1 q2 : ec_mbxqueuet) (es : list request)
    (slave : Z) (m : option Z) (t : Z) :
  queue_rep q es -> ecx_mbxaddqueue slave m q = Ok (t, q1) -> 0 <= t -> qrun t q1 q2 ->
  exists loc, zget (mbxticket q2) t = Some loc /\ 0 <= loc < N
    /\ zget (mbxslave q2) loc = Some slave /\ zget (mbxremove q2) loc = Some 0.
Proof.
  intros Hrep Hadd Ht Hrun.
  destruct (decide (zlen es = N)) as [Hfull|Hroom].
  { rewrite (addqueue_full q es) in Hadd by done. injection Hadd as <- _. lia. }
  pose proof (rep_room _ _ Hrep).
  pose proof (addqueue_spec q es slave m Hrep ltac:(lia)) as Hspec.
  destruct (wp_run _ _ _ _ _ _ Hspec Hadd) as (_ & _ & Hrep1).
  destruct (run_owns t q1 q2 _ slave Hrun Hrep1) as (es2 & Hrep2 & x & Hx & Hxt & Hxs).
  { eexists. split; [apply elem_of_app; right; by apply list_elem_of_singleton | done]. }
  apply zget_elem_of in Hx as [k Hk]. destruct (rep_slot _ _ _ _ Hrep2 Hk) as [Hloc _].
  exists (ring_at N (listtail q2) k). split_and!; try done; try lia.
  - by apply (rep_held _ _ Hrep2 _ _ _ Hk).
  - rewrite <- Hxs. by apply (rep_slave _ _ Hrep2).
  - pose proof (rep_remove _ _ Hrep2 _ _ Hk) as Hrm. unfold removed in Hrm. by rewrite Hxt in Hrm.
Qed.

(** ** Witnesses *)

Definition queue_zero : ec_mbxqueuet :=
  EcMbxQueue 0 0 0 (replicate 32 None) (replicate 32 0) (replicate 32 0) (replicate 32 (-1))
    (replicate 32 0).

Lemma queue_zero_rep : queue_rep queue_zero [].
Proof.
  assert (Hrun : ecx_initmbxqueue queue_zero = Ok (0, queue_zero)) by (vm_compute; reflexivity).
  pose proof (initmbxqueue_spec queue_zero ltac:(by split_and!)) as H.
  by destruct (wp_run _ _ _ _ _ _ H Hrun).
Qed.

Lemma queue_simulation_witness :
  queue_rep queue_zero [] /\ qallowed [] (Add 3 (Some 5))
  /\ total (queue_do (Add 3 (Some 5)))
       (fun r q' => exists es', qstep [] (Add 3 (Some 5)) r es' /\ queue_rep q' es') queue_zero.
Proof.
  split; [exact queue_zero_rep|]. split; [exact I|].
  exact (queue_simulation queue_zero [] (Add 3 (Some 5)) queue_zero_rep I).
Defined.

(** Slave 3 gets ticket 0, another request is added, the first one fails and is rotated
    behind it: ticket 0 points to slot 2. *)
Definition queue_after (cs : list qcall) (q : ec_mbxqueuet) : ec_mbxqueuet :=
  foldl (fun q c => match queue_do c q with Ok (_, q') => q' | Err _ => q end) q cs.

Definition queue_one : ec_mbxqueuet := queue_after [Add 3 (Some 5)] queue_zero.
Definition queue_rotated : ec_mbxqueuet := queue_after [Add 4 (Some 6); Failed; Rotate] queue_one.

Lemma ticket_stays_valid_witness :
  ecx_mbxaddqueue 3 (Some 5) queue_zero = Ok (0, queue_one)
  /\ qrun 0 queue_one queue_rotated
  /\ zget (mbxticket queue_rotated) 0 = Some 2
  /\ exists loc, zget (mbxticket queue_rotated) 0 = Some loc /\ 0 <= loc < N
       /\ zget (mbxslave queue_rotated) loc = Some 3 /\ zget (mbxremove queue_rotated) loc = Some 0.
Proof.
  assert (Hadd : ecx_mbxaddqueue 3 (Some 5) queue_zero = Ok (0, queue_one)) by (vm_compute; reflexivity).
  assert (Hrun : qrun 0 queue_one queue_rotated).
  { eapply (qrun_step _ _ (Add 4 (Some 6))); [exact I | exact I | vm_compute; reflexivity|].
    eapply (qrun_step _ _ Failed); [reflexivity | exact I | vm_compute; reflexivity|].
    eapply (qrun_step _ _ Rotate); [reflexivity | exact I | vm_compute; reflexivity|].
    vm_compute. apply qrun_refl. }
  split; [exact Hadd|]. split; [exact Hrun|]. split; [reflexivity|].
  exact (ticket_stays_valid queue_zero queue_one queue_rotated [] 3 (Some 5) 0
    queue_zero_rep Hadd ltac:(lia) Hrun).
Defined.
