(* ===== verification/Context.v ===== *)
(** * The master context (include/soem/ec_main.h) and the link interface

    [ecx_contextt] collects the state of the main functions.  The port and the kernel
    are its field [link], of a type [L] the functions above the datagram layer do not
    look into: what they need of it is the class [EcLink], which Link.v implements with
    the transfers of ec_base.c. *)

From S2P Require Import Prelude Types Osal ErrorRing Mailbox.

(** ** The interface of the datagram layer *)

Class EcLink (L : Type) : Type := {
  lk_BRD : Z -> Z -> Z -> list Z -> Z -> M L (Z * list Z);
  lk_BWR : Z -> Z -> Z -> list Z -> Z -> M L Z;
  lk_APRD : Z -> Z -> Z -> list Z -> Z -> M L (Z * list Z);
  lk_APWR : Z -> Z -> Z -> list Z -> Z -> M L Z;
  lk_FPRD : Z -> Z -> Z -> list Z -> Z -> M L (Z * list Z);
  lk_FPWR : Z -> Z -> Z -> list Z -> Z -> M L Z;
  lk_timer_start : Z -> M L ec_timet;
  lk_timer_is_expired : ec_timet -> M L bool;
  lk_usleep : Z -> M L Z;
  lk_current_time : M L ec_timet;
}.

(** The frame operations that state reading and the process data use below the
    transfers: [lk_setupdatagram] and [lk_adddatagram] build in the transmit buffer of
    index [idx], [lk_rxbuf idx off n] reads [n] bytes of the receive buffer. *)
Class EcFrame (L : Type) : Type := {
  lk_getindex : M L Z;
  lk_setupdatagram : Z -> Z -> Z -> Z -> Z -> list Z -> M L Z;
  lk_adddatagram : Z -> Z -> bool -> Z -> Z -> Z -> list Z -> M L Z;
  lk_srconfirm : Z -> Z -> M L Z;
  lk_outframe_red : Z -> M L Z;
  lk_waitinframe : Z -> Z -> M L Z;
  lk_rxbuf : Z -> Z -> Z -> M L (list Z);
  lk_setbufstat : Z -> Z -> M L unit;
}.

(** ** Data *)

(** A mailbox buffer pointer of a slave: null, [EC_MBXINENABLE], or a pool mailbox. *)
Inductive mbxin : Type := MbxNull | MbxInEnable | MbxAt (item : Z).

(** Sync manager and FMMU entities, as they are sent to a slave. *)
Record ec_smt : Type := EcSm { StartAddr : Z; SMlength : Z; SMflags : Z }.
Definition ec_sm_zero : ec_smt := EcSm 0 0 0.
Definition sm_bytes (m : ec_smt) : list Z :=
  le_bytes 2 (StartAddr m) ++ le_bytes 2 (SMlength m) ++ le_bytes 4 (SMflags m).

Record ec_fmmut : Type := EcFmmu {
  LogStart : Z;
  LogLength : Z;
  LogStartbit : Z;
  LogEndbit : Z;
  PhysStart : Z;
  PhysStartBit : Z;
  FMMUtype : Z;
  FMMUactive : Z;
}.
Definition ec_fmmu_zero : ec_fmmut := EcFmmu 0 0 0 0 0 0 0 0.
(** The two unused fields at the end are never written and stay zero. *)
Definition fmmu_bytes (f : ec_fmmut) : list Z :=
  le_bytes 4 (LogStart f) ++ le_bytes 2 (LogLength f) ++ [u8 (LogStartbit f); u8 (LogEndbit f)]
  ++ le_bytes 2 (PhysStart f) ++ [u8 (PhysStartBit f); u8 (FMMUtype f); u8 (FMMUactive f)]
  ++ [0; 0; 0].

(** The fields of [ec_slavet] the main functions use.  Pointers into the process data image
    ([mbxstatus], [s_outputs], [s_inputs]) are offsets in it.  A field whose name a group
    has too is prefixed with [s_]. *)
Record ec_slavet : Type := EcSlave {
  state : Z;
  ALstatuscode : Z;
  configadr : Z;
  eep_man : Z;
  eep_id : Z;
  eep_rev : Z;
  mbx_l : Z;
  mbx_wo : Z;
  mbx_rl : Z;
  mbx_ro : Z;
  mbx_proto : Z;
  eep_8byte : Z;
  eep_pdi : Z;
  group : Z;
  islost : bool;
  mbxhandlerstate : Z;
  mbxrmpstate : Z;
  mbxinstateex : Z;
  coembxin : mbxin; coembxinfull : bool; coembxoverrun : Z;
  soembxin : mbxin; soembxinfull : bool; soembxoverrun : Z;
  foembxin : mbxin; foembxinfull : bool; foembxoverrun : Z;
  eoembxin : mbxin; eoembxinfull : bool; eoembxoverrun : Z;
  voembxin : mbxin; voembxinfull : bool; voembxoverrun : Z;
  aoembxin : mbxin; aoembxinfull : bool; aoembxoverrun : Z;
  mbxstatus : option Z;
  aliasadr : Z;
  eep_ser : Z;
  Itype : Z;
  Obits : Z; s_Obytes : Z; s_outputs : option Z; Ostartbit : Z;
  Ibits : Z; s_Ibytes : Z; s_inputs : option Z; Istartbit : Z;
  SM : list ec_smt;
  SMtype : list Z;
  FMMU : list ec_fmmut;
  FMMU0func : Z; FMMU1func : Z; FMMU2func : Z; FMMU3func : Z;
  mbx_cnt : Z;
  s_hasdc : bool;
  ptype : Z;
  topology : Z;
  activeports : Z;
  consumedports : Z;
  parent : Z;
  parentport : Z;
  entryport : Z;
  DCrtA : Z; DCrtB : Z; DCrtC : Z; DCrtD : Z;
  pdelay : Z;
  s_DCnext : Z;
  DCprevious : Z;
  DCcycle : Z;
  DCshift : Z;
  DCactive : Z;
  CoEdetails : Z; FoEdetails : Z; EoEdetails : Z; SoEdetails : Z;
  Ebuscurrent : Z;
  s_blockLRW : Z;
  FMMUunused : Z;
  name : list Z;
}.

Definition ec_slave_zero : ec_slavet :=
  EcSlave 0 0 0 0 0 0 0 0 0 0 0 0 0 0 false 0 0 0
    MbxNull false 0 MbxNull false 0 MbxNull false 0 MbxNull false 0 MbxNull false 0
    MbxNull false 0 None
    0 0 0 0 0 None 0 0 0 None 0
    (replicate (Z.to_nat EC_MAXSM) ec_sm_zero) (replicate (Z.to_nat EC_MAXSM) 0)
    (replicate (Z.to_nat EC_MAXFMMU) ec_fmmu_zero) 0 0 0 0
    0 false 0 0 0 0 0 0 0 0 0 0 0 0 0 0 0 0 0 0 0 0 0 0 0 0
    (replicate (Z.to_nat (EC_MAXNAME + 1)) 0).

(** The fields of [ec_groupt] the main functions use; [outputs], [inputs] and
    [gmbxstatus] are offsets in the process data image. *)
Record ec_groupt : Type := EcGroup {
  logstartaddr : Z;
  Obytes : Z;
  outputs : Z;
  Ibytes : Z;
  inputs : Z;
  hasdc : bool;
  DCnext : Z;
  blockLRW : Z;
  nsegments : Z;
  Isegment : Z;
  Ioffset : Z;
  IOsegment : list Z;
  gmbxstatus : option Z;
  mbxstatuslength : Z;
  mbxstatuslookup : list Z;
  lastmbxpos : Z;
  mbxtxqueue : MbxQueue.ec_mbxqueuet;
  outputsWKC : Z;
  inputsWKC : Z;
  g_Ebuscurrent : Z;
}.

(** The stack of frames in flight; [data] are offsets in the process data image. *)
Record ec_idxstackT : Type := EcIdxStack {
  pushed : Z;
  pulled : Z;
  ix_idx : list Z;
  ix_data : list Z;
  ix_length : list Z;
  ix_dcoffset : list Z;
}.

(** ENI: the CoE commands a configuration file asks for. *)
Record ec_enicoecmdt : Type := EcEniCoeCmd {
  Transition : Z;
  CA : bool;
  Ccs : Z;
  eni_Index : Z;
  eni_SubIdx : Z;
  eni_Timeout : Z;
  eni_DataSize : Z;
  eni_Data : list Z;
}.
Record ec_enislavet : Type := EcEniSlave {
  eni_Slave : Z;
  VendorId : Z;
  ProductCode : Z;
  RevisionNo : Z;
  CoECmds : list ec_enicoecmdt;
}.

(** The buffers a mapping thread reads object lists into, one element per thread:
    [ec_SMcommtypet], [ec_PDOassignt] and [ec_PDOdesct] as their bytes. *)
Record ec_mapbuf : Type := EcMapBuf {
  SMcommtype : list Z;
  PDOassign : list Z;
  PDOdesc : list Z;
}.

(** [FOEhook] is a function of the application, which acts on the world outside the master. *)
Record ecx_contextt (L : Type) : Type := EcxContext {
  link : L;
  slavelist : list ec_slavet;
  slavecount : Z;
  grouplist : list ec_groupt;
  errors : estate;
  DCtime : Z;
  esibuf : list Z;
  esimap : list Z;
  esislave : Z;
  idxstack : ec_idxstackT;
  mbxpool : MbxPool.ec_mbxpoolt;
  EOEhook : option (Z -> list Z -> Z);
  overlappedMode : bool;
  iomap : list Z;
  manualstatechange : Z;
  packedMode : bool;
  mapbufs : list ec_mapbuf;
  ENI : list ec_enislavet;
  FOEhook : option (Z -> Z -> Z -> L -> L);
}.
Arguments EcxContext {L}.
Arguments link {L}.
Arguments slavelist {L}.
Arguments slavecount {L}.
Arguments grouplist {L}.
Arguments errors {L}.
Arguments DCtime {L}.
Arguments esibuf {L}.
Arguments esimap {L}.
Arguments esislave {L}.
Arguments idxstack {L}.
Arguments mbxpool {L}.
Arguments EOEhook {L}.
Arguments overlappedMode {L}.
Arguments iomap {L}.
Arguments manualstatechange {L}.
Arguments packedMode {L}.
Arguments mapbufs {L}.
Arguments ENI {L}.
Arguments FOEhook {L}.

Definition ECT_MBXH_NONE : Z := 0.
Definition ECT_MBXH_CYCLIC : Z := 1.
Definition EC_LOCALDELAY : Z := 200.

(** ** Access to the context *)

Section Access.
Context {L : Type}.
Abbreviation C := (M (ecx_contextt L)).

(** A computation of the datagram layer. *)
Definition onlink {A} (m : M L A) : C A :=
  zoom link (fun l c => c <| link := l |>) m.
(** A computation on the error list. *)
Definition onerrors {A} (m : M estate A) : C A :=
  zoom errors (fun e c => c <| errors := e |>) m.
(** A computation on the mailbox pool. *)
Definition onpool {A} (m : M MbxPool.ec_mbxpoolt A) : C A :=
  zoom mbxpool (fun p c => c <| mbxpool := p |>) m.

Definition get_slave (slave : Z) : C ec_slavet :=
  let* l := gets slavelist in of_opt OutOfBounds (zget l slave).
Definition mod_slave (slave : Z) (f : ec_slavet -> ec_slavet) : C unit :=
  let* l := gets slavelist in
  let* s := of_opt OutOfBounds (zget l slave) in
  let* l' := of_opt OutOfBounds (zset l slave (f s)) in
  modify (fun c => c <| slavelist := l' |>).
Definition get_group (g : Z) : C ec_groupt :=
  let* l := gets grouplist in of_opt OutOfBounds (zget l g).
Definition mod_group (g : Z) (f : ec_groupt -> ec_groupt) : C unit :=
  let* l := gets grouplist in
  let* s := of_opt OutOfBounds (zget l g) in
  let* l' := of_opt OutOfBounds (zset l g (f s)) in
  modify (fun c => c <| grouplist := l' |>).
(** A computation on the transmit queue of group [g]. *)
Definition onqueue {A} (g : Z) (m : M MbxQueue.ec_mbxqueuet A) : C A :=
  let* gr := get_group g in
  fun c => match m (mbxtxqueue gr) with
           | Ok (a, q) =>
               bind (mod_group g (fun gr => gr <| mbxtxqueue := q |>)) (fun _ => ret a) c
           | Err f => Err f
           end.
End Access.

Section LinkOps.
Context {L : Type} `{EcLink L}.
Abbreviation C := (M (ecx_contextt L)).

Definition ctx_FPRD (ADP ADO length : Z) (data : list Z) (timeout : Z) : C (Z * list Z) :=
  onlink (lk_FPRD ADP ADO length data timeout).
Definition ctx_FPWR (ADP ADO length : Z) (data : list Z) (timeout : Z) : C Z :=
  onlink (lk_FPWR ADP ADO length data timeout).
Definition ctx_APRD (ADP ADO length : Z) (data : list Z) (timeout : Z) : C (Z * list Z) :=
  onlink (lk_APRD ADP ADO length data timeout).
Definition ctx_APWR (ADP ADO length : Z) (data : list Z) (timeout : Z) : C Z :=
  onlink (lk_APWR ADP ADO length data timeout).
Definition ctx_BRD (ADP ADO length : Z) (data : list Z) (timeout : Z) : C (Z * list Z) :=
  onlink (lk_BRD ADP ADO length data timeout).
Definition ctx_BWR (ADP ADO length : Z) (data : list Z) (timeout : Z) : C Z :=
  onlink (lk_BWR ADP ADO length data timeout).
Definition ctx_usleep (usec : Z) : C unit :=
  let* _r := onlink (lk_usleep usec) in ret tt.
End LinkOps.
