(* ===== verification/Eeprom.v ===== *)
(** * EEPROM access (src/ec_main.c)

    Control of the slave's EEPROM interface and the reads and writes that bypass the
    cache.  The code has each access twice, with auto increment addresses ([...AP]) and
    with configured ones ([...FP]); the two copies differ only in the transfers they
    call, so they are one definition here, with the transfers as parameters, and two
    instances. *)

From S2P Require Import Prelude Types Osal ErrorRing Mailbox Context.

Section Eeprom.
Context {L : Type} `{EcLink L} `{LoopFuel}.
Abbreviation C := (M (ecx_contextt L)).

(** [do { wkc = op } while ((wkc <= 0) && (cnt++ < EC_DEFAULTRETRIES))], the transfer
    reading into or from the variable [A]. *)
Definition retry {A} (op : A -> C (Z * A)) (a : A) : C (Z * A) :=
  let* r := do_while (S (Z.to_nat EC_DEFAULTRETRIES)) (fun '(cnt, _, a) =>
      let* w := op a in
      let again := (w.1 <=? 0) && (cnt <? EC_DEFAULTRETRIES) in
      ret (again, (if w.1 <=? 0 then cnt + 1 else cnt, w.1, w.2))) (0, 0, a) in
  ret (r.1.2, r.2).
Definition retry_wr (op : C Z) : C Z :=
  let* r := retry (fun _ : unit => let* w := op in ret (w, tt)) tt in ret r.1.

(** ** EEPROM control *)

(** Set EEPROM control to the master, only if it is with the PDI. *)
Definition ecx_eeprom2master (slave : Z) : C Z :=
  let* s := get_slave slave in
  if negb (eep_pdi s =? 0) then
    let adr := configadr s in
    let* _w := retry_wr (ctx_FPWR adr ECT_REG_EEPCFG 1 [2] EC_TIMEOUTRET) in
    let* wkc := retry_wr (ctx_FPWR adr ECT_REG_EEPCFG 1 [0] EC_TIMEOUTRET) in
    do* mod_slave slave (fun s => s <| eep_pdi := 0 |>) in
    ret wkc
  else ret 1.

(** Set EEPROM control to the PDI, only if it is with the master. *)
Definition ecx_eeprom2pdi (slave : Z) : C Z :=
  let* s := get_slave slave in
  if eep_pdi s =? 0 then
    let adr := configadr s in
    let* wkc := retry_wr (ctx_FPWR adr ECT_REG_EEPCFG 1 [1] EC_TIMEOUTRET) in
    do* mod_slave slave (fun s => s <| eep_pdi := 1 |>) in
    ret wkc
  else ret 1.

(** ** Accesses, for the transfers [rd] and [wr] *)
Section Access.
Context (rd : Z -> Z -> Z -> list Z -> Z -> C (Z * list Z))
        (wr : Z -> Z -> Z -> list Z -> Z -> C Z).

(** The polling loop of [waitnotbusy]: the last status word. *)
Definition waitnotbusy_poll (adr : Z) (timer : ec_timet) (cnt : Z) : C (Z * Z) :=
  do_while loop_fuel (fun '(cnt, _) =>
      do* when (negb (cnt =? 0)) (ctx_usleep EC_LOCALDELAY) in
      let cnt := cnt + 1 in
      let* r := rd adr ECT_REG_EEPSTAT 2 [0; 0] EC_TIMEOUTRET in
      let estat := of_le r.2 in
      if (r.1 <=? 0) || (0 <? Z.land estat EC_ESTAT_BUSY) then
        let* expired := onlink (lk_timer_is_expired timer) in
        ret (negb expired, (cnt, estat))
      else ret (false, (cnt, estat))) (cnt, 0).

(** Wait until the EEPROM is ready: 1 when it is, and the status word. *)
Definition eeprom_waitnotbusy (adr timeout : Z) : C (Z * Z) :=
  let* timer := onlink (lk_timer_start timeout) in
  let* p := waitnotbusy_poll adr timer 0 in
  let estat := p.2 in
  ret (if Z.land estat EC_ESTAT_BUSY =? 0 then 1 else 0, estat).

(** [if (estat & EC_ESTAT_EMASK)] clear the error bits. *)
Definition clear_errors (adr estat : Z) : C unit :=
  when (negb (Z.land estat EC_ESTAT_EMASK =? 0))
    (let* _w := wr adr ECT_REG_EEPCTL 2 (le_bytes 2 EC_ECMD_NOP) EC_TIMEOUTRET3 in
     ret tt).

(** The bytes of [ec_eepromt]. *)
Definition eepromt_bytes (comm addr d2 : Z) : list Z :=
  le_bytes 2 comm ++ le_bytes 2 addr ++ le_bytes 2 d2.

(** One round of the read loop: the NACK counter and the data read so far. *)
Definition read_round (adr eeproma timeout nackcnt edat64 edat32 : Z) : C (Z * Z * Z) :=
  let* wkc := retry_wr (wr adr ECT_REG_EEPCTL 6
                          (eepromt_bytes EC_ECMD_READ eeproma 0) EC_TIMEOUTRET) in
  if negb (wkc =? 0) then
    do* ctx_usleep EC_LOCALDELAY in
    let* b := eeprom_waitnotbusy adr timeout in
    let estat := b.2 in
    if negb (b.1 =? 0) then
      if negb (Z.land estat EC_ESTAT_NACK =? 0) then
        do* ctx_usleep (EC_LOCALDELAY * 5) in
        ret (nackcnt + 1, edat64, edat32)
      else if negb (Z.land estat EC_ESTAT_R64 =? 0) then
        let* r := retry (fun d => rd adr ECT_REG_EEPDAT 8 d EC_TIMEOUTRET)
                    (le_bytes 8 edat64) in
        ret (0, of_le r.2, edat32)
      else
        let* r := retry (fun d => rd adr ECT_REG_EEPDAT 4 d EC_TIMEOUTRET)
                    (le_bytes 4 edat32) in
        ret (0, of_le r.2, of_le r.2)
    else ret (nackcnt, edat64, edat32)
  else ret (nackcnt, edat64, edat32).

(** The loop over the rounds. *)
Definition read_loop (adr eeproma timeout : Z) (v : Z * Z * Z) : C (Z * Z * Z) :=
  do_while loop_fuel (fun '(nackcnt, edat64, edat32) =>
      let* r := read_round adr eeproma timeout nackcnt edat64 edat32 in
      let nackcnt := r.1.1 in
      ret ((0 <? nackcnt) && (nackcnt <? 3), r)) v.

Definition eeprom_read (adr eeproma timeout : Z) : C Z :=
  let* b := eeprom_waitnotbusy adr timeout in
  if negb (b.1 =? 0) then
    do* clear_errors adr b.2 in
    let* r := read_loop adr eeproma timeout (0, 0, 0) in
    ret r.1.2
  else ret 0.

(** One round of the write loop: the NACK counter and the result so far.  [delay] is
    the pause after a NACK. *)
Definition write_round (adr eeproma dat timeout delay nackcnt rval : Z) : C (Z * Z) :=
  let* _w := retry_wr (wr adr ECT_REG_EEPDAT 2 (le_bytes 2 dat) EC_TIMEOUTRET) in
  let* wkc := retry_wr (wr adr ECT_REG_EEPCTL 6
                          (eepromt_bytes EC_ECMD_WRITE eeproma 0) EC_TIMEOUTRET) in
  if negb (wkc =? 0) then
    do* ctx_usleep (EC_LOCALDELAY * 2) in
    let* b := eeprom_waitnotbusy adr timeout in
    if negb (b.1 =? 0) then
      if negb (Z.land b.2 EC_ESTAT_NACK =? 0) then
        do* ctx_usleep delay in
        ret (nackcnt + 1, rval)
      else ret (0, 1)
    else ret (nackcnt, rval)
  else ret (nackcnt, rval).

Definition eeprom_write (adr eeproma dat timeout delay : Z) : C Z :=
  let* b := eeprom_waitnotbusy adr timeout in
  if negb (b.1 =? 0) then
    do* clear_errors adr b.2 in
    let* r := do_while loop_fuel (fun '(nackcnt, rval) =>
        let* r := write_round adr eeproma dat timeout delay nackcnt rval in
        ret ((0 <? r.1) && (r.1 <? 3), r)) (0, 0) in
    ret r.2
  else ret 0.
End Access.

(** ** The two instances *)

Definition ecx_eeprom_waitnotbusyAP (aiadr timeout : Z) : C (Z * Z) :=
  eeprom_waitnotbusy ctx_APRD aiadr timeout.
Definition ecx_readeepromAP (aiadr eeproma timeout : Z) : C Z :=
  eeprom_read ctx_APRD ctx_APWR aiadr eeproma timeout.
Definition ecx_writeeepromAP (aiadr eeproma dat timeout : Z) : C Z :=
  eeprom_write ctx_APRD ctx_APWR aiadr eeproma dat timeout (EC_LOCALDELAY * 25).

Definition ecx_eeprom_waitnotbusyFP (configadr timeout : Z) : C (Z * Z) :=
  eeprom_waitnotbusy ctx_FPRD configadr timeout.
Definition ecx_readeepromFP (configadr eeproma timeout : Z) : C Z :=
  eeprom_read ctx_FPRD ctx_FPWR configadr eeproma timeout.
Definition ecx_writeeepromFP (configadr eeproma dat timeout : Z) : C Z :=
  eeprom_write ctx_FPRD ctx_FPWR configadr eeproma dat timeout (EC_LOCALDELAY * 5).

(** ** Accesses by slave number *)

Definition ecx_readeeprom (slave eeproma timeout : Z) : C Z :=
  let* _w := ecx_eeprom2master slave in
  let* s := get_slave slave in
  let* v := ecx_readeepromFP (configadr s) eeproma timeout in
  ret (u32 v).

Definition ecx_writeeeprom (slave eeproma dat timeout : Z) : C Z :=
  let* _w := ecx_eeprom2master slave in
  let* s := get_slave slave in
  ecx_writeeepromFP (configadr s) eeproma dat timeout.

(** Parallel read, step 1: the request. *)
Definition ecx_readeeprom1 (slave eeproma : Z) : C unit :=
  let* _w := ecx_eeprom2master slave in
  let* s := get_slave slave in
  let adr := configadr s in
  let* b := ecx_eeprom_waitnotbusyFP adr EC_TIMEOUTEEP in
  when (negb (b.1 =? 0))
    (do* clear_errors ctx_FPWR adr b.2 in
     let* _w := retry_wr (ctx_FPWR adr ECT_REG_EEPCTL 6
                            (eepromt_bytes EC_ECMD_READ eeproma 0) EC_TIMEOUTRET) in
     ret tt).

(** Parallel read, step 2: the data. *)
Definition ecx_readeeprom2 (slave timeout : Z) : C Z :=
  let* s := get_slave slave in
  let adr := configadr s in
  let* b := ecx_eeprom_waitnotbusyFP adr timeout in
  if negb (b.1 =? 0) then
    let* r := retry (fun d => ctx_FPRD adr ECT_REG_EEPDAT 4 d EC_TIMEOUTRET) (le_bytes 4 0) in
    ret (of_le r.2)
  else ret 0.

(** Dump the EEPROM from the first SII section on into the caller's buffer. *)
Definition ecx_esidump (slave : Z) (buf : list Z) : C (list Z) :=
  let* s := get_slave slave in
  let eectl := eep_pdi s in
  let* _w := ecx_eeprom2master slave in
  let* s := get_slave slave in
  let incr := if negb (eep_8byte s =? 0) then 4 else 2 in
  let* r := do_while (Z.to_nat EC_MAXEEPBUF) (fun '(p16, address, buf) =>
      let* edat := ecx_readeepromFP (configadr s) address EC_TIMEOUTEEP in
      let* buf := of_opt OutOfBounds (zblit buf (2 * p16) (le_bytes 8 edat)) in
      let address := u16 (address + incr) in
      ret ((address <=? Z.shiftr EC_MAXEEPBUF 1) && negb (u32 edat =? 0xffffffff),
           (p16 + incr, address, buf))) (0, ECT_SII_START, buf) in
  let* _w := (if negb (eectl =? 0) then ecx_eeprom2pdi slave else ret 0) in
  ret r.2.
End Eeprom.
