(* ===== verification/Sii.v ===== *)
(** * Slave information interface (src/ec_main.c, [ecx_sii...])

    The cached byte access to a slave's EEPROM and the parsers of its SII sections. *)

From S2P Require Import Prelude Types Osal ErrorRing Mailbox Context Eeprom.

(** ** Data (ec_main.h) *)

Record ec_eepromFMMUt : Type := EcEepromFMMU {
  FMMU_Startpos : Z;
  nFMMU : Z;
  FMMU0 : Z;
  FMMU1 : Z;
  FMMU2 : Z;
  FMMU3 : Z;
}.

Record ec_eepromSMt : Type := EcEepromSM {
  SM_Startpos : Z;
  nSM : Z;
  PhStart : Z;
  Plength : Z;
  Creg : Z;
  Sreg : Z;
  Activate : Z;
  PDIctrl : Z;
}.

Record ec_eepromPDOt : Type := EcEepromPDO {
  PDO_Startpos : Z;
  PDO_Length : Z;
  nPDO : Z;
  PDO_Index : list Z;
  SyncM : list Z;
  BitSize : list Z;
  SMbitsize : list Z;
}.

Section Sii.
Context {L : Type} `{EcLink L} `{LoopFuel}.
Abbreviation C := (M (ecx_contextt L)).

(** ** The cache *)

(** [context->esimap[mapw] |= (1U << mapb)], for [cnt] bytes. *)
Definition esimap_mark (mapw mapb cnt : Z) : C unit :=
  let* _r := for_range (Z.to_nat cnt) (fun _ '(mapw, mapb) =>
      let* m := gets esimap in
      let* w := of_opt OutOfBounds (zget m mapw) in
      let* m' := of_opt OutOfBounds (zset m mapw (Z.lor w (Z.shiftl 1 mapb))) in
      do* modify (fun c => c <| esimap := m' |>) in
      let mapb := mapb + 1 in
      ret (if 31 <? mapb then (mapw + 1, 0) else (mapw, mapb))) 0 (mapw, mapb) in
  ret tt.

(** [put_unaligned64/32(edat, &(context->esibuf[off]))]. *)
Definition esibuf_put (off : Z) (bs : list Z) : C unit :=
  let* b := gets esibuf in
  let* b' := of_opt OutOfBounds (zblit b off bs) in
  modify (fun c => c <| esibuf := b' |>).

(** Put the group of bytes read for [address] into the cache; the byte itself. *)
Definition cache_fill (slave address edat64 : Z) : C Z :=
  let eadr := Z.shiftr address 1 in
  let* s := get_slave slave in
  let* cnt :=
    (if negb (eep_8byte s =? 0) then
       do* esibuf_put (Z.shiftl eadr 1) (le_bytes 8 edat64) in ret 8
     else
       let edat32 := u32 edat64 in
       do* esibuf_put (Z.shiftl eadr 1) (le_bytes 4 edat32) in ret 4) in
  let mapw := Z.shiftr eadr 4 in
  let mapb := u16 (Z.shiftl eadr 1 - Z.shiftl mapw 5) in
  do* esimap_mark mapw mapb cnt in
  let* b := gets esibuf in of_opt OutOfBounds (zget b address).

(** Read one byte of the slave's EEPROM through the cache, 0xff when out of reach. *)
Definition ecx_siigetbyte (slave address : Z) : C Z :=
  let* es := gets esislave in
  do* when (negb (slave =? es))
    (modify (fun c => c <| esimap := replicate (Z.to_nat EC_MAXEEPBITMAP) 0 |>
                        <| esislave := slave |>)) in
  if address <? EC_MAXEEPBUF then
    let mapw := Z.shiftr address 5 in
    let mapb := u16 (address - Z.shiftl mapw 5) in
    let* m := gets esimap in
    let* w := of_opt OutOfBounds (zget m mapw) in
    if negb (Z.land w (Z.shiftl 1 mapb) =? 0) then
      let* b := gets esibuf in of_opt OutOfBounds (zget b address)
    else
      let* s := get_slave slave in
      let adr := configadr s in
      let* _w := ecx_eeprom2master slave in
      let eadr := Z.shiftr address 1 in
      let* edat64 := ecx_readeepromFP adr eadr EC_TIMEOUTEEP in
      cache_fill slave address edat64
  else ret 0xff.

(** [v = getbyte(a++); v += getbyte(a++) << 8], [a] a 16-bit variable. *)
Definition sii_word (slave a : Z) : C Z :=
  let* b0 := ecx_siigetbyte slave (u16 a) in
  let* b1 := ecx_siigetbyte slave (u16 (a + 1)) in
  ret (u16 (b0 + Z.shiftl b1 8)).

(** [if (eectl) ecx_eeprom2pdi(context, slave)]. *)
Definition restore_eectl (eectl slave : Z) : C unit :=
  when (negb (eectl =? 0)) (let* _w := ecx_eeprom2pdi slave in ret tt).

(** ** Sections *)

(** The traversal of the section headers, from the position [a] after a category
    word [p]: the final position and category. *)
Definition siifind_walk (slave cat a p : Z) : C (Z * Z) :=
  while_do loop_fuel
    (fun '(a, p) => ret (negb (p =? cat) && negb (p =? 0xffff)))
    (fun '(a, p) =>
       let* p := sii_word slave a in
       let a := s16 (a + 2) in
       let a := s16 (a + Z.shiftl p 1) in
       let* p := sii_word slave a in
       ret (s16 (a + 2), p))
    (a, p).

(** Find a section: the byte address of its length word, 0 when there is none. *)
Definition ecx_siifind (slave cat : Z) : C Z :=
  let* s := get_slave slave in
  let eectl := eep_pdi s in
  let a := Z.shiftl ECT_SII_START 1 in
  let* p := sii_word slave a in
  let* r := siifind_walk slave cat (s16 (a + 2)) p in
  let a := if negb (r.2 =? cat) then 0 else r.1 in
  do* restore_eectl eectl slave in
  ret a.

(** The copy of one string of length [l] into the caller's buffer: [ba] and [ptr]. *)
Definition siistring_copy (slave l ba : Z) (str : list Z) : C (Z * Z * list Z) :=
  for_range (Z.to_nat l) (fun j '(ba, ptr, str) =>
      if j <=? EC_MAXNAME then
        let* b := ecx_siigetbyte slave ba in
        let* str := of_opt OutOfBounds (zset str ptr b) in
        ret (u16 (ba + 1), ptr + 1, str)
      else ret (u16 (ba + 1), ptr, str)) 1 (ba, 0, str).

(** The walk through the strings [i..Sn] of the section. *)
Definition siistring_walk (slave Sn ba : Z) (str : list Z) : C (Z * Z * list Z) :=
  for_range (Z.to_nat Sn) (fun i '(ba, ptr, str) =>
      let* l := ecx_siigetbyte slave ba in
      let ba := u16 (ba + 1) in
      if i <? Sn then ret (u16 (ba + l), ptr, str)
      else siistring_copy slave l ba str) 1 (ba, 0, str).

(** Copy string [Sn] of the string section into the caller's buffer [str]. *)
Definition ecx_siistring (str : list Z) (slave Sn : Z) : C (list Z) :=
  let* s := get_slave slave in
  let eectl := eep_pdi s in
  let* a := ecx_siifind slave ECT_SII_STRING in
  let a := u16 a in
  let* str :=
    (if 0 <? a then
       let ba := u16 (a + 2) in
       let* n := ecx_siigetbyte slave ba in
       let ba := u16 (ba + 1) in
       if Sn <=? n then
         let* r := siistring_walk slave Sn ba str in
         of_opt OutOfBounds (zset r.2 r.1.2 0)
       else of_opt OutOfBounds (zset str 0 0)
     else ret str) in
  do* restore_eectl eectl slave in
  ret str.

(** FMMU section. *)
Definition ecx_siiFMMU (slave : Z) : C (Z * ec_eepromFMMUt) :=
  let* s := get_slave slave in
  let eectl := eep_pdi s in
  let* pos := ecx_siifind slave ECT_SII_FMMU in
  let FMMU := EcEepromFMMU (u16 pos) 0 0 0 0 0 in
  let* FMMU :=
    (if 0 <? FMMU_Startpos FMMU then
       let a := FMMU_Startpos FMMU in
       let* w := sii_word slave a in
       let FMMU := FMMU <| nFMMU := u8 (u8 w * 2) |> in
       let* v0 := ecx_siigetbyte slave (u16 (a + 2)) in
       let* v1 := ecx_siigetbyte slave (u16 (a + 3)) in
       let FMMU := FMMU <| FMMU0 := v0 |> <| FMMU1 := v1 |> in
       if 2 <? nFMMU FMMU then
         let* v2 := ecx_siigetbyte slave (u16 (a + 4)) in
         let* v3 := ecx_siigetbyte slave (u16 (a + 5)) in
         ret (FMMU <| FMMU2 := v2 |> <| FMMU3 := v3 |>)
       else ret FMMU
     else ret FMMU) in
  do* restore_eectl eectl slave in
  ret (nFMMU FMMU, FMMU).

(** The eight bytes of one sync manager at [a]. *)
Definition siiSM_entry (slave a : Z) (SM : ec_eepromSMt) : C ec_eepromSMt :=
  let* ph := sii_word slave a in
  let* pl := sii_word slave (a + 2) in
  let* cr := ecx_siigetbyte slave (u16 (a + 4)) in
  let* sr := ecx_siigetbyte slave (u16 (a + 5)) in
  let* ac := ecx_siigetbyte slave (u16 (a + 6)) in
  let* pd := ecx_siigetbyte slave (u16 (a + 7)) in
  ret (SM <| PhStart := ph |> <| Plength := pl |> <| Creg := cr |> <| Sreg := sr |>
          <| Activate := ac |> <| PDIctrl := pd |>).

(** First sync manager of the SM section. *)
Definition ecx_siiSM (slave : Z) (SM : ec_eepromSMt) : C (Z * ec_eepromSMt) :=
  let* s := get_slave slave in
  let eectl := eep_pdi s in
  let* pos := ecx_siifind slave ECT_SII_SM in
  let SM := SM <| nSM := 0 |> <| SM_Startpos := u16 pos |> in
  let* SM :=
    (if 0 <? SM_Startpos SM then
       let a := SM_Startpos SM in
       let* w := sii_word slave a in
       siiSM_entry slave (a + 2) (SM <| nSM := u8 (w / 4) |>)
     else ret SM) in
  do* restore_eectl eectl slave in
  ret (nSM SM, SM).

(** Sync manager [n] of the section found by [ecx_siiSM]. *)
Definition ecx_siiSMnext (slave : Z) (SM : ec_eepromSMt) (n : Z) : C (Z * ec_eepromSMt) :=
  let* s := get_slave slave in
  let eectl := eep_pdi s in
  let* r :=
    (if n <? nSM SM then
       let* SM := siiSM_entry slave (u16 (SM_Startpos SM + 2 + n * 8)) SM in
       ret (1, SM)
     else ret (0, SM)) in
  do* restore_eectl eectl slave in
  ret r.

(** ** PDO section *)

(** The entries of one PDO: their bit sizes, eight bytes each. *)
Definition siiPDO_entries (slave e a c bits : Z) : C (Z * Z * Z) :=
  for_range (Z.to_nat e) (fun _ '(a, c, bits) =>
      let c := u16 (c + 4) in
      let a := u16 (a + 5) in
      let* b := ecx_siigetbyte slave a in
      ret (u16 (a + 3), c, u16 (bits + b))) 1 (a, c, bits).

(** One PDO: the loop body, with the variables [a], [c], [Size]. *)
Definition siiPDO_step (slave : Z) (v : Z * Z * Z * ec_eepromPDOt)
    : C (bool * (Z * Z * Z * ec_eepromPDOt)) :=
  let '(a, c, Size, PDO) := v in
  let n := u16 (nPDO PDO + 1) in
  let* index := sii_word slave a in
  let* Index' := of_opt OutOfBounds (zset (PDO_Index PDO) n index) in
  let* bs := of_opt OutOfBounds (zset (BitSize PDO) n 0) in
  let c := u16 (c + 1) in
  let* e := ecx_siigetbyte slave (u16 (a + 2)) in
  let* sm := ecx_siigetbyte slave (u16 (a + 3)) in
  let* sync := of_opt OutOfBounds (zset (SyncM PDO) n sm) in
  let a := u16 (a + 8) in
  let c := u16 (c + 2) in
  let PDO := PDO <| nPDO := n |> <| PDO_Index := Index' |> <| SyncM := sync |> in
  let* v :=
    (if sm <? EC_MAXSM then
       let* r := siiPDO_entries slave e a c 0 in
       let bits := r.2 in
       let* bs := of_opt OutOfBounds (zset bs n bits) in
       let* old := of_opt OutOfBounds (zget (SMbitsize PDO) sm) in
       let* smb := of_opt OutOfBounds (zset (SMbitsize PDO) sm (u16 (old + bits))) in
       ret (r.1.1, u16 (r.1.2 + 1), u16 (Size + bits),
            PDO <| BitSize := bs |> <| SMbitsize := smb |>)
     else
       ret (u16 (a + 8 * e), u16 (u16 (c + 4 * e) + 1), Size, PDO <| BitSize := bs |>)) in
  let '(a, c, Size, PDO) := v in
  let c := if EC_MAXEEPDO - 1 <=? n then PDO_Length PDO else c in
  ret (c <? PDO_Length PDO, (a, c, Size, PDO)).

(** PDO section of the outputs ([t] = 0) or inputs ([t] = 1): the size in bits. *)
Definition ecx_siiPDO (slave : Z) (PDO : ec_eepromPDOt) (t : Z) : C (Z * ec_eepromPDOt) :=
  let* s := get_slave slave in
  let eectl := eep_pdi s in
  let* idx := of_opt OutOfBounds (zset (PDO_Index PDO) 1 0) in
  let t := if 1 <? t then 1 else t in
  let* pos := ecx_siifind slave (ECT_SII_PDO + t) in
  let PDO := PDO <| nPDO := 0 |> <| PDO_Length := 0 |> <| PDO_Index := idx |>
                 <| SMbitsize := replicate (Z.to_nat EC_MAXSM) 0 |>
                 <| PDO_Startpos := u16 pos |> in
  let* r :=
    (if 0 <? PDO_Startpos PDO then
       let a := PDO_Startpos PDO in
       let* w := sii_word slave a in
       let* v := do_while (Z.to_nat EC_MAXEEPDO) (siiPDO_step slave)
                   (u16 (a + 2), 1, 0, PDO <| PDO_Length := w |>) in
       ret (v.1.2, v.2)
     else ret (0, PDO)) in
  do* restore_eectl eectl slave in
  ret r.
End Sii.
