(* ===== verification/Link.v ===== *)
(** * The datagram layer as a link of the context

    The classes [EcLink] and [EcFrame], which the functions of ec_main.c are written
    against, implemented by the port and the kernel with the operations of ec_base.c,
    nicdrv.c and osal.c. *)

From S2P Require Import Prelude Types Osal Nicdrv Datagram ErrorRing Mailbox Context.

Section Link.
Context {E : Type} `{OS E} `{LoopFuel}.

#[export] Instance world_link : EcLink (world E) := {
  lk_BRD := ecx_BRD;
  lk_BWR := ecx_BWR;
  lk_APRD := ecx_APRD;
  lk_APWR := ecx_APWR;
  lk_FPRD := ecx_FPRD;
  lk_FPWR := ecx_FPWR;
  lk_timer_start timeout := kern (osal_timer_start timeout);
  lk_timer_is_expired t := kern (osal_timer_is_expired t);
  lk_usleep usec := kern (osal_usleep usec);
  lk_current_time := kern osal_current_time;
}.

#[export] Instance world_frame : EcFrame (world E) := {
  lk_getindex := ecx_getindex;
  lk_setupdatagram com idx := ecx_setupdatagram (TxBuf idx) com idx;
  lk_adddatagram com idx := ecx_adddatagram (TxBuf idx) com idx;
  lk_srconfirm := ecx_srconfirm;
  lk_outframe_red := ecx_outframe_red;
  lk_waitinframe := ecx_waitinframe;
  lk_rxbuf := read_rxbuf;
  lk_setbufstat := ecx_setbufstat;
}.

(** ** Start and end of the master *)

Definition ecx_init (ifname : list Z) : M (ecx_contextt (world E)) Z :=
  let* _r := onpool MbxPool.ecx_initmbxpool in
  onlink (ecx_setupnic ifname false).

(** Redundant mode: [red] is the caller's redundant port.  The dummy frame of the
    secondary interface is built once. *)
Definition ecx_init_redundant (red : ec_stackT) (ifname if2name : list Z)
    : M (ecx_contextt (world E)) Z :=
  let* _r := onpool MbxPool.ecx_initmbxpool in
  do* onlink (pmod (fun p => p <| redport := Some red |>)) in
  let* _r := onlink (ecx_setupnic ifname false) in
  let* rval := onlink (ecx_setupnic if2name true) in
  do* onlink (write_txbuf2 ETH_sa1 (htons_bytes 0x0404)) in
  let* _r := onlink (ecx_setupdatagram TxBuf2 EC_CMD_BRD 0 0x0000 0x0000 2 [0; 0]) in
  do* onlink (pmod (fun p => p <| txbuflength2 :=
                ETH_HEADERSIZE + EC_HEADERSIZE + EC_WKCSIZE + 2 |>)) in
  ret rval.

(** The mutexes are not state of the model. *)
Definition ecx_close : M (ecx_contextt (world E)) unit :=
  let* _r := onlink ecx_closenic in ret tt.
End Link.
