(* ===== verification/Dc.v ===== *)
(** * Distributed clocks (src/ec_dc.c)

    The sync signals of a slave, and the search for slaves with a distributed clock with
    the measurement of their propagation delays.  Signed sums and differences of clock
    values wrap around, as the counters they come from do. *)

From S2P Require Import Prelude Types Osal ErrorRing Mailbox Context.

Definition PORTM0 : Z := 0x01.
Definition PORTM1 : Z := 0x02.
Definition PORTM2 : Z := 0x04.
Definition PORTM3 : Z := 0x08.
(** Delay of the first sync pulse, 100 ms in nanoseconds. *)
Definition SyncDelay : Z := 100000000.
(** Seconds from 1970-01-01 to 2000-01-01, the epoch of EtherCAT. *)
Definition EC_EPOCH : Z := 946684800.

Section Dc.
Context {L : Type} `{EcLink L} `{LoopFuel}.
Abbreviation C := (M (ecx_contextt L)).

(** An integer division, undefined for a divisor of zero. *)
Definition c_div (a b : Z) : C Z := if b =? 0 then fail DivByZero else ret (Z.quot a b).

(** ** Sync signals *)

(** The first trigger time: a whole multiple of [cycle] after [t1] and [SyncDelay], and the
    shift; [cyclic] is the test of the cycle time. *)
Definition first_trigger (cyclic : bool) (cycle CyclShift t1 : Z) : C Z :=
  if cyclic then
    let* q := c_div (s64 (t1 + SyncDelay)) cycle in
    ret (s64 (q * cycle + cycle + CyclShift))
  else ret (s64 (t1 + SyncDelay + CyclShift)).

(** Stop the cyclic operation, take over the unit and read the local time. *)
Definition dcsync_stop (slaveh : Z) : C Z :=
  let* _w := ctx_FPWR slaveh ECT_REG_DCSYNCACT 1 [0] EC_TIMEOUTRET in
  let* _w := ctx_FPWR slaveh ECT_REG_DCCUC 1 [0] EC_TIMEOUTRET in
  let* r := ctx_FPRD slaveh ECT_REG_DCSYSTIME 8 (le_bytes 8 0) EC_TIMEOUTRET in
  ret (s64 (of_le r.2)).

Definition dcsync_store (slave : Z) (act : bool) (CyclTime CyclShift : Z) : C unit :=
  mod_slave slave (fun s => s <| DCactive := b2z act |> <| DCshift := CyclShift |>
                              <| DCcycle := s32 CyclTime |>).

Definition ecx_dcsync0 (slave : Z) (act : bool) (CyclTime CyclShift : Z) : C unit :=
  let* s := get_slave slave in
  let slaveh := configadr s in
  let* t1 := dcsync_stop slaveh in
  let RA := if act then 1 + 2 else 0 in
  let* t := first_trigger (0 <? CyclTime) CyclTime CyclShift t1 in
  let* _w := ctx_FPWR slaveh ECT_REG_DCSTART0 8 (le_bytes 8 t) EC_TIMEOUTRET in
  let* _w := ctx_FPWR slaveh ECT_REG_DCCYCLE0 4 (le_bytes 4 CyclTime) EC_TIMEOUTRET in
  let* _w := ctx_FPWR slaveh ECT_REG_DCSYNCACT 1 [RA] EC_TIMEOUTRET in
  dcsync_store slave act CyclTime CyclShift.

Definition ecx_dcsync01 (slave : Z) (act : bool) (CyclTime0 CyclTime1 CyclShift : Z) : C unit :=
  let* q := c_div CyclTime1 CyclTime0 in
  let TrueCyclTime := u32 ((q + 1) * CyclTime0) in
  let* s := get_slave slave in
  let slaveh := configadr s in
  let* t1 := dcsync_stop slaveh in
  let RA := if act then 1 + 2 + 4 else 0 in
  let* t := first_trigger (0 <? CyclTime0) TrueCyclTime CyclShift t1 in
  let* _w := ctx_FPWR slaveh ECT_REG_DCSTART0 8 (le_bytes 8 t) EC_TIMEOUTRET in
  let* _w := ctx_FPWR slaveh ECT_REG_DCCYCLE0 4 (le_bytes 4 CyclTime0) EC_TIMEOUTRET in
  let* _w := ctx_FPWR slaveh ECT_REG_DCCYCLE1 4 (le_bytes 4 CyclTime1) EC_TIMEOUTRET in
  let* _w := ctx_FPWR slaveh ECT_REG_DCSYNCACT 1 [RA] EC_TIMEOUTRET in
  dcsync_store slave act CyclTime0 CyclShift.

(** ** Ports *)

(** Latched port time of a slave. *)
Definition porttime (s : ec_slavet) (port : Z) : Z :=
  match port with 0 => DCrtA s | 1 => DCrtB s | 2 => DCrtC s | 3 => DCrtD s | _ => 0 end.
Definition ecx_porttime (slave port : Z) : C Z :=
  let* s := get_slave slave in ret (porttime s port).

Definition has_port (ports mask : Z) : bool := negb (Z.land ports mask =? 0).

(** Previous active port of a slave. *)
Definition prevport (aport port : Z) : Z :=
  match port with
  | 0 => if has_port aport PORTM2 then 2 else if has_port aport PORTM1 then 1
         else if has_port aport PORTM3 then 3 else port
  | 1 => if has_port aport PORTM3 then 3 else if has_port aport PORTM0 then 0
         else if has_port aport PORTM2 then 2 else port
  | 2 => if has_port aport PORTM1 then 1 else if has_port aport PORTM3 then 3
         else if has_port aport PORTM0 then 0 else port
  | 3 => if has_port aport PORTM0 then 0 else if has_port aport PORTM2 then 2
         else if has_port aport PORTM1 then 1 else port
  | _ => port
  end.
Definition ecx_prevport (slave port : Z) : C Z :=
  let* s := get_slave slave in ret (prevport (activeports s) port).

(** The first unconsumed port, and the ports left: the order is 3, 1, 2, 0. *)
Definition take_port (b : Z) : Z * Z :=
  if has_port b PORTM3 then (3, Z.land b (u8 (Z.lnot PORTM3)))
  else if has_port b PORTM1 then (1, Z.land b (u8 (Z.lnot PORTM1)))
  else if has_port b PORTM2 then (2, Z.land b (u8 (Z.lnot PORTM2)))
  else if has_port b PORTM0 then (0, Z.land b (u8 (Z.lnot PORTM0)))
  else (0, b).
Definition ecx_parentport (parent : Z) : C Z :=
  let* s := get_slave parent in
  let r := take_port (consumedports s) in
  do* mod_slave parent (fun s => s <| consumedports := r.2 |>) in
  ret r.1.

(** ** Search for slaves and propagation delays *)

(** The local variables that live across the slaves: [hrt], [plist] and [tlist] are not
    initialised by the code. *)
Record dc_locals : Type := DcLocals {
  parenthold : Z;
  prevDCslave : Z;
  ht : Z;
  hrt : Z;
  plist : list Z;
  tlist : list Z;
}.

(** Chain slave [i] into the list of slaves with a clock. *)
Definition dc_chain (i prev : Z) : C unit :=
  let* master := get_slave 0 in
  if negb (s_hasdc master) then
    do* mod_slave 0 (fun s => s <| s_hasdc := true |> <| s_DCnext := i |>) in
    do* mod_slave i (fun s => s <| DCprevious := 0 |>) in
    let* s := get_slave i in
    mod_group (group s) (fun g => g <| hasdc := true |> <| DCnext := i |>)
  else
    do* mod_slave prev (fun s => s <| s_DCnext := i |>) in
    mod_slave i (fun s => s <| DCprevious := prev |>).

(** A 32 bit register read into [ht], which keeps its value when no answer comes. *)
Definition dc_read_ht (slaveh ADO ht : Z) : C Z :=
  let* r := ctx_FPRD slaveh ADO 4 (le_bytes 4 ht) EC_TIMEOUTRET in ret (s32 (of_le r.2)).

(** Read the latched times and set the offset of the local time. *)
Definition dc_latch (i mastertime64 : Z) (l : dc_locals) : C dc_locals :=
  let* s := get_slave i in
  let slaveh := configadr s in
  let* ht := dc_read_ht slaveh ECT_REG_DCTIME0 (ht l) in
  do* mod_slave i (fun s => s <| DCrtA := ht |>) in
  let* r := ctx_FPRD slaveh ECT_REG_DCSOF 8 (le_bytes 8 (hrt l)) EC_TIMEOUTRET in
  let hrt := s64 (- of_le r.2 + mastertime64) in
  let* _w := ctx_FPWR slaveh ECT_REG_DCSYSOFFSET 8 (le_bytes 8 hrt) EC_TIMEOUTRET in
  let* ht := dc_read_ht slaveh ECT_REG_DCTIME1 ht in
  do* mod_slave i (fun s => s <| DCrtB := ht |>) in
  let* ht := dc_read_ht slaveh ECT_REG_DCTIME2 ht in
  do* mod_slave i (fun s => s <| DCrtC := ht |>) in
  let* ht := dc_read_ht slaveh ECT_REG_DCTIME3 ht in
  do* mod_slave i (fun s => s <| DCrtD := ht |>) in
  ret (l <| Dc.ht := ht |> <| Dc.hrt := hrt |>).

(** The list of active ports and their times, written over what the lists held. *)
Definition port_list (s : ec_slavet) (plist tlist : list Z) : nat * (list Z * list Z) :=
  let add mask p t (a : nat * (list Z * list Z)) :=
    if has_port (activeports s) mask
    then (S a.1, (<[a.1 := p]> a.2.1, <[a.1 := t]> a.2.2)) else a in
  add PORTM2 2 (DCrtC s) (add PORTM1 1 (DCrtB s) (add PORTM3 3 (DCrtD s)
    (add PORTM0 0 (DCrtA s) (0%nat, (plist, tlist))))).

(** The index of the lowest time of the first [nlist] ones. *)
Definition lowest_time (nlist : nat) (tlist : list Z) : nat :=
  let t k := nth k tlist 0 in
  let better k e := if (k <? nlist)%nat && (t k <? t e) then k else e in
  better 3%nat (better 2%nat (better 1%nat 0%nat)).

(** The entry port is the one with the lowest time; it is consumed. *)
Definition dc_entryport (i : Z) (l : dc_locals) : C dc_locals :=
  let* s := get_slave i in
  let '(nlist, (plist, tlist)) := port_list s (plist l) (tlist l) in
  let entryport := u8 (nth (lowest_time nlist tlist) plist 0) in
  do* mod_slave i (fun s => s <| Context.entryport := entryport |>
         <| consumedports ::= (fun b => Z.land b (u8 (Z.lnot (Z.shiftl 1 entryport)))) |>) in
  ret (l <| Dc.plist := plist |> <| Dc.tlist := tlist |>).

(** The next slave upwards with a clock, and the slave on the way before it. *)
Definition dc_parent (i : Z) : C (Z * Z) :=
  do_while loop_fuel (fun '(parent, _) =>
    let child := parent in
    let* s := get_slave parent in
    let parent := Context.parent s in
    let* p := get_slave parent in
    ret (negb ((parent =? 0) || s_hasdc p), (parent, child))) (i, i).

(** The delay of slave [i] from the times of its own ports and of its parent's. *)
Definition dc_pdelay (i parent child : Z) : C Z :=
  let* s := get_slave i in
  let* p := get_slave parent in
  let* tpp := ecx_porttime parent (parentport s) in
  let* prev := ecx_prevport parent (parentport s) in
  let* tprev := ecx_porttime parent prev in
  let dt3 := s32 (tpp - tprev) in
  let* dt1 :=
    (if 1 <? topology s then
       let* last := ecx_prevport i (entryport s) in
       let* tlast := ecx_porttime i last in
       let* tentry := ecx_porttime i (entryport s) in
       ret (s32 (tlast - tentry))
     else ret 0) in
  let dt1 := if dt3 <? dt1 then s32 (- dt1) else dt1 in
  let* dt2 :=
    (if 1 <? child - parent then
       let* tentry := ecx_porttime parent (entryport p) in
       ret (s32 (tprev - tentry))
     else ret 0) in
  let dt2 := if dt2 <? 0 then s32 (- dt2) else dt2 in
  ret (s32 (s32 (Z.quot (s32 (dt3 - dt1)) 2 + dt2) + pdelay p)).

(** Find the port on the parent, compute the delay, and send it. *)
Definition dc_delay (i parent child : Z) (l : dc_locals) : C dc_locals :=
  let* pp := ecx_parentport parent in
  do* mod_slave i (fun s => s <| parentport := pp |>) in
  let* p := get_slave parent in
  do* when (topology p =? 1) (mod_slave i (fun s => s <| parentport := entryport p |>)) in
  let* d := dc_pdelay i parent child in
  do* mod_slave i (fun s => s <| pdelay := d |>) in
  let* s := get_slave i in
  let* _w := ctx_FPWR (configadr s) ECT_REG_DCSYSDELAY 4 (le_bytes 4 d) EC_TIMEOUTRET in
  ret (l <| Dc.ht := d |>).

Definition dc_with_clock (i mastertime64 : Z) (l : dc_locals) : C dc_locals :=
  do* dc_chain i (prevDCslave l) in
  let l := l <| parenthold := 0 |> <| prevDCslave := i |> in
  let* l := dc_latch i mastertime64 l in
  let* l := dc_entryport i l in
  let* pc := dc_parent i in
  if 0 <? pc.1 then dc_delay i pc.1 pc.2 l else ret l.

(** A slave without a clock: a branch without any consumes a port of the slave it starts
    from. *)
Definition dc_without_clock (i : Z) (l : dc_locals) : C dc_locals :=
  do* mod_slave i (fun s => s <| DCrtA := 0 |> <| DCrtB := 0 |> <| DCrtC := 0 |>
                              <| DCrtD := 0 |>) in
  let* s := get_slave i in
  let parent := Context.parent s in
  let* hold :=
    (if 0 <? parent then
       let* p := get_slave parent in
       ret (if 2 <? topology p then parent else parenthold l)
     else ret (parenthold l)) in
  if negb (hold =? 0) && (topology s =? 1) then
    let* _p := ecx_parentport hold in
    ret (l <| parenthold := 0 |>)
  else ret (l <| parenthold := hold |>).

Definition dc_slave (mastertime64 i : Z) (l : dc_locals) : C dc_locals :=
  do* mod_slave i (fun s => s <| consumedports := activeports s |>) in
  let* s := get_slave i in
  if s_hasdc s then dc_with_clock i mastertime64 l else dc_without_clock i l.

(** [junk] is what the uninitialised local variables hold. *)
Definition ecx_configdc (junk : Z * (list Z * list Z)) : C bool :=
  do* mod_slave 0 (fun s => s <| s_hasdc := false |>) in
  do* mod_group 0 (fun g => g <| hasdc := false |>) in
  let* _w := ctx_BWR 0 ECT_REG_DCTIME0 4 (le_bytes 4 0) EC_TIMEOUTRET in
  let* mastertime := onlink lk_current_time in
  let mastertime64 :=
    u64 ((tv_sec mastertime - EC_EPOCH) * 1000 * 1000 * 1000 + tv_nsec mastertime) in
  let* n := gets slavecount in
  let* _l := for_range (Z.to_nat n) (dc_slave mastertime64) 1
    (DcLocals 0 0 0 junk.1 junk.2.1 junk.2.2) in
  let* s := get_slave 0 in
  ret (s_hasdc s).
End Dc.
