(* ===== verification/AlState.v ===== *)
(** * Application layer state of the slaves (src/ec_main.c)

    Reading, writing and waiting for the state of the slaves, and the mailbox status
    registers. *)

From S2P Require Import Prelude Types Osal ErrorRing Mailbox Context Eeprom.

(** [ec_alstatust]; on the wire: status, unused, code, two bytes each. *)
Record ec_alstatust : Type := EcAlStatus { alstatus : Z; unused : Z; alstatuscode : Z }.
Definition al_bytes (s : ec_alstatust) : list Z :=
  le_bytes 2 (alstatus s) ++ le_bytes 2 (unused s) ++ le_bytes 2 (alstatuscode s).
Definition al_of (l : list Z) : ec_alstatust :=
  EcAlStatus (of_le (take 2 l)) (of_le (take 2 (drop 2 l))) (of_le (take 2 (drop 4 l))).
Definition al_size : Z := 6.
Definition al_zero : ec_alstatust := EcAlStatus 0 0 0.
Definition MAX_FPRD_MULTI : Z := 64.

(** Index of the next mailbox counter value. *)
Definition ec_nextmbxcnt (cnt : Z) : Z :=
  let cnt := u8 (cnt + 1) in if 7 <? cnt then 1 else cnt.

(** Clear a mailbox buffer; the last of its [EC_MAXMBX + 1] bytes is not written. *)
Definition ec_clearmbx (Mbx : list Z) : option (list Z) :=
  zblit Mbx 0 (replicate (Z.to_nat EC_MAXMBX) 0).

Section AlState.
Context {L : Type} `{EcLink L} `{EcFrame L} `{LoopFuel}.
Abbreviation C := (M (ecx_contextt L)).

(** ** Multiple status reads in one frame *)

(** One datagram of the frame, and its position in [sldatapos]. *)
Definition fprd_add (idx : Z) (more : bool) (adr : Z) (st : ec_alstatust) : C Z :=
  onlink (lk_adddatagram EC_CMD_FPRD idx more adr ECT_REG_ALSTAT al_size (al_bytes st)).

Definition FPRD_multi_build (idx n : Z) (configlst : list Z) (slstatlst : list ec_alstatust)
    : C (list Z) :=
  let* c0 := of_opt OutOfBounds (zget configlst 0) in
  let* s0 := of_opt OutOfBounds (zget slstatlst 0) in
  let* _r := onlink (lk_setupdatagram EC_CMD_FPRD idx c0 ECT_REG_ALSTAT al_size (al_bytes s0)) in
  let* r := while_do (S (Z.to_nat n))
    (fun '(slcnt, pos) => ret (slcnt <? n - 1))
    (fun '(slcnt, pos) =>
       let* c := of_opt OutOfBounds (zget configlst slcnt) in
       let* s := of_opt OutOfBounds (zget slstatlst slcnt) in
       let* p := fprd_add idx true c s in
       ret (slcnt + 1, pos ++ [p]))
    (1, [EC_HEADERSIZE]) in
  let '(slcnt, pos) := r in
  if slcnt <? n then
    let* c := of_opt OutOfBounds (zget configlst slcnt) in
    let* s := of_opt OutOfBounds (zget slstatlst slcnt) in
    let* p := fprd_add idx false c s in
    ret (pos ++ [p])
  else ret pos.

(** Read the status of [n] slaves: the work counter and the status list. *)
Definition ecx_FPRD_multi (n : Z) (configlst : list Z) (slstatlst : list ec_alstatust)
    (timeout : Z) : C (Z * list ec_alstatust) :=
  let* idx := onlink lk_getindex in
  let* sldatapos := FPRD_multi_build idx n configlst slstatlst in
  let* wkc := onlink (lk_srconfirm idx timeout) in
  let* lst :=
    (if 0 <=? wkc then
       for_range (Z.to_nat n) (fun slcnt lst =>
           let* pos := of_opt OutOfBounds (zget sldatapos slcnt) in
           let* bs := onlink (lk_rxbuf idx pos al_size) in
           of_opt OutOfBounds (zset lst slcnt (al_of bs))) 0 slstatlst
     else ret slstatlst) in
  do* onlink (lk_setbufstat idx EC_BUF_EMPTY) in
  ret (wkc, lst).

(** ** Read the state of all slaves *)

(** The fast path: every slave answered the broadcast with the same state. *)
Definition readstate_same (bitwisestate : Z) : C unit :=
  let* cnt := gets slavecount in
  for_range (Z.to_nat cnt) (fun slave _ =>
      mod_slave slave (fun s => s <| ALstatuscode := 0 |> <| state := bitwisestate |>)) 1 tt.

(** The states of the slaves [fslave..lslave], with the lowest one so far. *)
Definition readstate_batch (fslave lslave lowest : Z) : C Z :=
  let n := lslave - fslave + 1 in
  let* slca := for_range (Z.to_nat n) (fun slave slca =>
      let* s := get_slave slave in ret (slca ++ [configadr s])) fslave [] in
  let sl := replicate (Z.to_nat n) al_zero in
  let* r := ecx_FPRD_multi n slca sl EC_TIMEOUTRET3 in
  for_range (Z.to_nat n) (fun slave lowest =>
      let* st := of_opt OutOfBounds (zget r.2 (slave - fslave)) in
      let rval := alstatus st in
      do* mod_slave slave (fun s => s <| ALstatuscode := alstatuscode st |>
                                      <| state := rval |>) in
      do* mod_slave 0 (fun s => s <| ALstatuscode ::= (fun c => Z.lor c (alstatuscode st)) |>) in
      ret (if Z.land rval 0xf <? lowest then Z.land rval 0xf else lowest)) fslave lowest.

(** The slow path: one datagram per slave, [MAX_FPRD_MULTI] of them in a frame. *)
Definition readstate_each : C Z :=
  do* mod_slave 0 (fun s => s <| ALstatuscode := 0 |>) in
  let* r := do_while (Z.to_nat EC_MAXSLAVE) (fun '(fslave, lowest) =>
      let* cnt := gets slavecount in
      let lslave := u16 cnt in
      let lslave := if MAX_FPRD_MULTI <=? lslave - fslave
                    then u16 (fslave + MAX_FPRD_MULTI - 1) else lslave in
      let* lowest := readstate_batch fslave lslave lowest in
      ret (lslave <? cnt, (u16 (lslave + 1), lowest))) (1, 0xff) in
  do* mod_slave 0 (fun s => s <| state := r.2 |>) in
  ret r.2.

(** Read all slave states; the result is the lowest one. *)
Definition ecx_readstate : C Z :=
  let* r := ctx_BRD 0 ECT_REG_ALSTAT 2 [0; 0] EC_TIMEOUTRET in
  let wkc := r.1 in
  let* cnt := gets slavecount in
  let allslavespresent := cnt <=? wkc in
  let rval := of_le r.2 in
  let bitwisestate := Z.land rval 0x0f in
  let noerrorflag := Z.land rval EC_STATE_ERROR =? 0 in
  do* when noerrorflag (mod_slave 0 (fun s => s <| ALstatuscode := 0 |>)) in
  let allslavessamestate :=
    (bitwisestate =? EC_STATE_INIT) || (bitwisestate =? EC_STATE_PRE_OP)
    || (bitwisestate =? EC_STATE_SAFE_OP) || (bitwisestate =? EC_STATE_OPERATIONAL) in
  do* when allslavessamestate (mod_slave 0 (fun s => s <| state := bitwisestate |>)) in
  if noerrorflag && allslavessamestate && allslavespresent then
    do* readstate_same bitwisestate in
    ret bitwisestate
  else readstate_each.

(** ** Write and check *)

(** Write the state of a slave, of all slaves when [slave] is 0. *)
Definition ecx_writestate (slave : Z) : C Z :=
  let* s := get_slave slave in
  let slstate := le_bytes 2 (state s) in
  if slave =? 0 then ctx_BWR 0 ECT_REG_ALCTL 2 slstate EC_TIMEOUTRET3
  else ctx_FPWR (configadr s) ECT_REG_ALCTL 2 slstate EC_TIMEOUTRET3.

(** One reading of the state register: its value. *)
Definition statecheck_read (slave adr : Z) : C Z :=
  if slave <? 1 then
    let* r := ctx_BRD 0 ECT_REG_ALSTAT 2 [0; 0] EC_TIMEOUTRET in
    ret (of_le r.2)
  else
    (* [unused] is not initialised in the code; it is not read either *)
    let* r := ctx_FPRD adr ECT_REG_ALSTAT al_size (al_bytes al_zero) EC_TIMEOUTRET in
    let slstat := al_of r.2 in
    do* mod_slave slave (fun s => s <| ALstatuscode := alstatuscode slstat |>) in
    ret (alstatus slstat).

(** Wait for a slave to reach [reqstate]: the state found last. *)
Definition ecx_statecheck (slave reqstate timeout : Z) : C Z :=
  let* cnt := gets slavecount in
  if cnt <? slave then ret 0 else
  let* timer := onlink (lk_timer_start timeout) in
  let* s := get_slave slave in
  let adr := configadr s in
  let* rval := do_while loop_fuel (fun _ : Z =>
      let* rval := statecheck_read slave adr in
      let st := Z.land rval 0x000f in
      do* when (negb (st =? reqstate)) (ctx_usleep 1000) in
      if negb (st =? reqstate) then
        let* expired := onlink (lk_timer_is_expired timer) in
        ret (negb expired, rval)
      else ret (false, rval)) 0 in
  do* mod_slave slave (fun s => s <| state := rval |>) in
  ret (Z.land rval 0x000f).

(** ** Mailbox status registers *)

(** [memset(&iomap[off], 0, len)] and other writes to the process data image. *)
Definition iomap_write (off : Z) (bs : list Z) : C unit :=
  let* m := gets iomap in
  let* m' := of_opt OutOfBounds (zblit m off bs) in
  modify (fun c => c <| iomap := m' |>).
Definition iomap_read (off n : Z) : C (list Z) :=
  let* m := gets iomap in of_opt OutOfBounds (zslice m off n).

Definition ecx_clearmbxstatus (group : Z) : C Z :=
  let* g := get_group group in
  match gmbxstatus g with
  | Some off =>
      if negb (mbxstatuslength g =? 0) then
        do* iomap_write off (replicate (Z.to_nat (mbxstatuslength g)) 0) in ret 1
      else ret 0
  | None => ret 0
  end.

(** The status byte of the slave's IN mailbox: from the process data for a cyclic
    handler, from the slave otherwise. *)
Definition ecx_readmbxstatus (slave SMstat : Z) : C (Z * Z) :=
  let* s := get_slave slave in
  if mbxhandlerstate s =? ECT_MBXH_CYCLIC then
    let* off := of_opt NullPointer (mbxstatus s) in
    let* b := iomap_read off 1 in
    ret (1, of_le b)
  else
    let* r := ctx_FPRD (configadr s) ECT_REG_SM1STAT 1 [SMstat] EC_TIMEOUTRET in
    ret (r.1, of_le r.2).

(** The status word; the local variable it is read into is not initialised, [junk]
    is its value when no frame comes back. *)
Definition ecx_readmbxstatusex (junk slave : Z) : C (Z * Z) :=
  let* s := get_slave slave in
  let* r := ctx_FPRD (configadr s) ECT_REG_SM1STAT 2 (le_bytes 2 junk) EC_TIMEOUTRET in
  ret (r.1, of_le r.2).

(** Wait until the slave can take a mailbox: 1 when it can. *)
Definition ecx_mbxempty (slave timeout : Z) : C Z :=
  let* timer := onlink (lk_timer_start timeout) in
  let* s := get_slave slave in
  let adr := configadr s in
  let* r := do_while loop_fuel (fun _ : Z * Z =>
      let* r := ctx_FPRD adr ECT_REG_SM0STAT 1 [0] EC_TIMEOUTRET in
      let SMstat := of_le r.2 in
      let full := negb (Z.land SMstat 0x08 =? 0) in
      do* when (full && (EC_LOCALDELAY <? timeout)) (ctx_usleep EC_LOCALDELAY) in
      if (r.1 <=? 0) || full then
        let* expired := onlink (lk_timer_is_expired timer) in
        ret (negb expired, (r.1, SMstat))
      else ret (false, (r.1, SMstat))) (0, 0) in
  ret (if (0 <? r.1) && (Z.land r.2 0x08 =? 0) then 1 else 0).
End AlState.
