(* ===== verification/MbxHandler.v ===== *)
(** * Mailbox handlers (src/ec_main.c)

    The cyclic handlers that move mailboxes between the slaves, the pool and the
    transmit queue of a group, and the blocking send and receive.  A mailbox pointer is
    [option Z], the index of a pool buffer or null; the content of a buffer is in the
    pool. *)

From S2P Require Import Prelude Types Osal ErrorRing Mailbox Context Eeprom AlState.

(** What other threads do to the context while the calling thread sleeps: the cyclic
    handler runs in a thread of its own, [ecx_mbxsend] and [ecx_mbxreceive] wait for it. *)
Class Interference (L : Type) : Type := other_threads : M (ecx_contextt L) unit.

Definition EOE_FRAG_DATA : Z := 0.
Definition EOE_HDR_FRAME_TYPE_GET (x : Z) : Z := Z.land x 0xF.

(** ** Fields of the packed mailbox structures *)
Definition field_u8 (m : list Z) (off : Z) : option Z := zget m off.
Definition field_u16 (m : list Z) (off : Z) : option Z :=
  b0 ← zget m off; b1 ← zget m (off + 1); Some (b0 + 256 * b1).
Definition MBXH_mbxtype : Z := 5.
Definition MBXE_Detail : Z := 8.
Definition EMC_CANOpen : Z := 6.
Definition EMC_ErrorCode : Z := 8.
Definition EMC_ErrorReg : Z := 10.
Definition EMC_bData : Z := 11.
Definition EMC_w1 : Z := 12.
Definition EMC_w2 : Z := 14.
Definition EOE_frameinfo1 : Z := 6.

(** The mailbox-in slot of one protocol of a slave. *)
Record mbxslot : Type := MbxSlot {
  slot_in : ec_slavet -> mbxin;
  slot_full : ec_slavet -> bool;
  slot_fill : Z -> ec_slavet -> ec_slavet;
  slot_release : ec_slavet -> ec_slavet;
  slot_overrun : ec_slavet -> ec_slavet;
}.

Definition coe_slot : mbxslot := MbxSlot coembxin coembxinfull
  (fun m s => s <| coembxin := MbxAt m |> <| coembxinfull := true |>)
  (fun s => s <| coembxin := MbxInEnable |> <| coembxinfull := false |>)
  (fun s => s <| coembxoverrun ::= (fun c => s32 (c + 1)) |>).
Definition soe_slot : mbxslot := MbxSlot soembxin soembxinfull
  (fun m s => s <| soembxin := MbxAt m |> <| soembxinfull := true |>)
  (fun s => s <| soembxin := MbxInEnable |> <| soembxinfull := false |>)
  (fun s => s <| soembxoverrun ::= (fun c => s32 (c + 1)) |>).
Definition foe_slot : mbxslot := MbxSlot foembxin foembxinfull
  (fun m s => s <| foembxin := MbxAt m |> <| foembxinfull := true |>)
  (fun s => s <| foembxin := MbxInEnable |> <| foembxinfull := false |>)
  (fun s => s <| foembxoverrun ::= (fun c => s32 (c + 1)) |>).
Definition eoe_slot : mbxslot := MbxSlot eoembxin eoembxinfull
  (fun m s => s <| eoembxin := MbxAt m |> <| eoembxinfull := true |>)
  (fun s => s <| eoembxin := MbxInEnable |> <| eoembxinfull := false |>)
  (fun s => s <| eoembxoverrun ::= (fun c => s32 (c + 1)) |>).
Definition voe_slot : mbxslot := MbxSlot voembxin voembxinfull
  (fun m s => s <| voembxin := MbxAt m |> <| voembxinfull := true |>)
  (fun s => s <| voembxin := MbxInEnable |> <| voembxinfull := false |>)
  (fun s => s <| voembxoverrun ::= (fun c => s32 (c + 1)) |>).
Definition aoe_slot : mbxslot := MbxSlot aoembxin aoembxinfull
  (fun m s => s <| aoembxin := MbxAt m |> <| aoembxinfull := true |>)
  (fun s => s <| aoembxin := MbxInEnable |> <| aoembxinfull := false |>)
  (fun s => s <| aoembxoverrun ::= (fun c => s32 (c + 1)) |>).

Definition mbxin_set (m : mbxin) : bool := match m with MbxNull => false | _ => true end.

Section Handlers.
Context {L : Type} `{EcLink L} `{EcFrame L} `{LoopFuel} `{Interference L}.
Abbreviation C := (M (ecx_contextt L)).
Definition oobC {A} (o : option A) : C A := of_opt OutOfBounds o.

(** ** Buffers of the pool *)

Definition get_buffer (item : Z) : C (list Z) :=
  let* p := gets mbxpool in oobC (zget (MbxPool.mbx p) item).
Definition put_buffer (item : Z) (b : list Z) : C unit :=
  let* p := gets mbxpool in
  let* l := oobC (zset (MbxPool.mbx p) item b) in
  modify (fun c => c <| mbxpool := p <| MbxPool.mbx := l |> |>).
(** The buffer a mailbox pointer points to. *)
Definition deref (m : option Z) : C Z := of_opt NullPointer m.

(** [ecx_FPRD(..., mbx, ...)] into a pool buffer. *)
Definition mbx_FPRD (ADP ADO length : Z) (m : option Z) (timeout : Z) : C Z :=
  match m with
  | Some item =>
      let* b := get_buffer item in
      let* r := ctx_FPRD ADP ADO length b timeout in
      do* put_buffer item r.2 in
      ret r.1
  | None =>
      (* into a null pointer: fine as long as nothing is received *)
      let* r := ctx_FPRD ADP ADO length (replicate (Z.to_nat length) 0) timeout in
      if 0 <? r.1 then fail NullPointer else ret r.1
  end.
(** [ecx_FPWR(..., mbx, ...)] from a pool buffer. *)
Definition mbx_FPWR (ADP ADO length : Z) (m : option Z) (timeout : Z) : C Z :=
  let* item := deref m in
  let* b := get_buffer item in
  ctx_FPWR ADP ADO length b timeout.

Definition ctx_getmbx : C (option Z) := onpool MbxPool.ecx_getmbx.
Definition ctx_dropmbx (item : Z) : C Z := onpool (MbxPool.ecx_dropmbx item).

(** ** Error reports *)

Definition ctx_mbxerror (slave Detail : Z) : C unit :=
  let* now := onlink lk_current_time in
  onerrors (ecx_mbxerror now slave Detail).
Definition ctx_emergency (slave : Z) (b : list Z) : C unit :=
  let* code := oobC (field_u16 b EMC_ErrorCode) in
  let* reg := oobC (field_u8 b EMC_ErrorReg) in
  let* bData := oobC (field_u8 b EMC_bData) in
  let* w1 := oobC (field_u16 b EMC_w1) in
  let* w2 := oobC (field_u16 b EMC_w2) in
  let* now := onlink lk_current_time in
  onerrors (ecx_mbxemergencyerror now slave code reg bData w1 w2).

(** ** Incoming mailboxes *)

(** Hand the mailbox to the protocol's slot, or count an overrun.  The result is the
    mailbox the handler still owns. *)
Definition slot_deliver (sl : mbxslot) (slave item : Z) : C (option Z) :=
  let* s := get_slave slave in
  if mbxin_set (slot_in sl s) && negb (slot_full sl s) then
    do* mod_slave slave (slot_fill sl item) in ret None
  else do* mod_slave slave (slot_overrun sl) in ret (Some item).

(** Dispatch of a received mailbox on its type. *)
Definition inhandler_dispatch (slave item : Z) : C (option Z) :=
  let* b := get_buffer item in
  let* ty := oobC (field_u8 b MBXH_mbxtype) in
  let ty := Z.land ty 0x0f in
  if ty =? ECT_MBXT_ERR then
    let* detail := oobC (field_u16 b MBXE_Detail) in
    do* ctx_mbxerror slave detail in
    ret (Some item)
  else if ty =? ECT_MBXT_COE then
    let* canopen := oobC (field_u16 b EMC_CANOpen) in
    if Z.shiftr canopen 12 =? 0x01 then
      do* ctx_emergency slave b in ret (Some item)
    else slot_deliver coe_slot slave item
  else if ty =? ECT_MBXT_SOE then slot_deliver soe_slot slave item
  else if ty =? ECT_MBXT_EOE then
    let* info := oobC (field_u16 b EOE_frameinfo1) in
    let* hook := gets EOEhook in
    let handled :=
      (EOE_HDR_FRAME_TYPE_GET info =? EOE_FRAG_DATA)
      && match hook with Some h => 0 <? h slave b | None => false end in
    if negb handled then slot_deliver eoe_slot slave item
    else do* mod_slave slave (slot_overrun eoe_slot) in ret (Some item)
  else if ty =? ECT_MBXT_FOE then slot_deliver foe_slot slave item
  else if ty =? ECT_MBXT_VOE then slot_deliver voe_slot slave item
  else if ty =? ECT_MBXT_AOE then slot_deliver aoe_slot slave item
  else ret (Some item).

(** The robust mailbox protocol, states 1 to 3.  [junk] is the value of the
    uninitialised variable of [ecx_readmbxstatusex]. *)
Definition inhandler_rmp (junk slave : Z) : C unit :=
  let* s := get_slave slave in
  let adr := configadr s in
  let st := mbxrmpstate s in
  if st =? 1 then
    let* r := ecx_readmbxstatusex junk slave in
    do* mod_slave slave (fun s => s <| mbxinstateex := r.2 |>) in
    when (0 <? r.1)
      (mod_slave slave (fun s => s <| mbxinstateex ::= (fun x => Z.lxor x 0x0200) |>
                                   <| mbxrmpstate ::= (fun x => x + 1) |>))
  else if st =? 2 then
    let* wkc := ctx_FPWR adr ECT_REG_SM1STAT 2 (le_bytes 2 (mbxinstateex s)) EC_TIMEOUTRET in
    when (0 <? wkc) (mod_slave slave (fun s => s <| mbxrmpstate ::= (fun x => x + 1) |>))
  else if st =? 3 then
    let SMstatex := mbxinstateex s in
    let* r := ctx_FPRD adr ECT_REG_SM1CONTR 1 [0] EC_TIMEOUTRET in
    let SMcontr := of_le r.2 in
    when ((0 <? r.1) && (Z.land SMcontr 0x02 =? Z.land (HI_BYTE SMstatex) 0x02))
      (mod_slave slave (fun s => s <| mbxrmpstate := 0 |>))
  else ret tt.

(** Fetch the mailbox of a slave whose IN mailbox is full; false when there is none
    to fetch or no buffer for it. *)
Definition inhandler_fetch (slave : Z) : C bool :=
  let* s := get_slave slave in
  let mbxl := mbx_rl s in
  let mbxro := mbx_ro s in
  if 0 <? mbxl then
    let* m := ctx_getmbx in
    match m with
    | None => ret false
    | Some item =>
        let* wkc := mbx_FPRD (configadr s) mbxro mbxl (Some item) EC_TIMEOUTRET in
        let* own :=
          (if 0 <? wkc then inhandler_dispatch slave item
           else do* mod_slave slave (fun s => s <| mbxrmpstate := 1 |>) in
                ret (Some item)) in
        do* match own with
            | Some item => let* _r := ctx_dropmbx item in ret tt
            | None => ret tt
            end in
        ret true
    end
  else ret false.

(** One position of the round: whether it counts against the work limit. *)
Definition inhandler_visit (junk group cntoffset : Z) : C bool :=
  do* mod_group group (fun g => g <| lastmbxpos := cntoffset |>) in
  let* g := get_group group in
  let* slave := oobC (zget (mbxstatuslookup g) cntoffset) in
  let* s := get_slave slave in
  if mbxhandlerstate s =? ECT_MBXH_CYCLIC then
    if negb (mbxrmpstate s =? 0) then
      if islost s then
        do* mod_slave slave (fun s => s <| mbxrmpstate := 0 |>) in ret false
      else do* inhandler_rmp junk slave in ret true
    else
      let* off := of_opt NullPointer (gmbxstatus g) in
      let* b := iomap_read (off + cntoffset) 1 in
      if 0 <? Z.land (of_le b) 0x08 then inhandler_fetch slave else ret false
  else ret false.

Definition inhandler_offset (firstmbxpos maxcntstored cnt : Z) : Z :=
  let cntoffset := firstmbxpos + cnt in
  if maxcntstored <=? cntoffset then cntoffset - maxcntstored else cntoffset.

(** Handle the incoming mailboxes of a group: the number of mailbox operations. *)
Definition ecx_mbxinhandler (junk group limit : Z) : C Z :=
  let* g := get_group group in
  let maxcnt := mbxstatuslength g in
  let firstmbxpos := lastmbxpos g + 1 in
  let maxcntstored := maxcnt in
  let* r := while_do (S (Z.to_nat maxcnt))
    (fun '(cnt, limitcnt, maxcnt) => ret (cnt <? maxcnt))
    (fun '(cnt, limitcnt, maxcnt) =>
       let* worked := inhandler_visit junk group (inhandler_offset firstmbxpos maxcntstored cnt) in
       let limitcnt := if (worked : bool) then limitcnt + 1 else limitcnt in
       let maxcnt := if worked && (limit <=? limitcnt) then 0 else maxcnt in
       ret (cnt + 1, limitcnt, maxcnt))
    (0, 0, maxcnt) in
  ret r.1.2.

(** ** Outgoing mailboxes *)

(** Try to send the mailbox at the tail; [st] is its state. *)
Definition outhandler_send (group ticketloc st : Z) : C unit :=
  let* slave := onqueue group (MbxQueue.qget MbxQueue.mbxslave ticketloc) in
  let* m := onqueue group (MbxQueue.qget MbxQueue.mbx ticketloc) in
  let* s := get_slave slave in
  when (EC_STATE_PRE_OP <=? state s)
    (let* wkc := mbx_FPWR (configadr s) (mbx_wo s) (mbx_l s) m EC_TIMEOUTRET in
     if 0 <? wkc then
       do* onqueue group (MbxQueue.set_mbxstate ticketloc MbxQueue.EC_MBXQUEUESTATE_DONE) in
       let* item := deref m in
       let* _r := ctx_dropmbx item in
       onqueue group (MbxQueue.set_mbx ticketloc None)
     else
       when (negb (st =? MbxQueue.EC_MBXQUEUESTATE_FAIL))
         (onqueue group (MbxQueue.set_mbxstate ticketloc MbxQueue.EC_MBXQUEUESTATE_FAIL))).

(** One entry of the queue: whether it was one to send. *)
Definition outhandler_entry (group : Z) : C bool :=
  let* g := get_group group in
  let ticketloc := MbxQueue.listtail (mbxtxqueue g) in
  let* st := onqueue group (MbxQueue.qget MbxQueue.mbxstate ticketloc) in
  let tosend := (st =? MbxQueue.EC_MBXQUEUESTATE_REQ) || (st =? MbxQueue.EC_MBXQUEUESTATE_FAIL) in
  do* when tosend (outhandler_send group ticketloc st) in
  do* when (tosend || (st =? MbxQueue.EC_MBXQUEUESTATE_DONE))
    (let* _r := onqueue group (MbxQueue.ecx_mbxrotatequeue ticketloc) in ret tt) in
  let* rm := onqueue group (MbxQueue.qget MbxQueue.mbxremove ticketloc) in
  do* when (negb (rm =? 0))
    (let* m := onqueue group (MbxQueue.ecx_mbxdropqueue ticketloc) in
     match m with
     | Some item => let* _r := ctx_dropmbx item in ret tt
     | None => ret tt
     end) in
  ret tosend.

(** Handle the outgoing mailboxes of a group: the number of mailboxes processed. *)
Definition ecx_mbxouthandler (group limit : Z) : C Z :=
  let* g := get_group group in
  let listcount := MbxQueue.listcount (mbxtxqueue g) in
  let* r := while_do (S (Z.to_nat listcount))
    (fun '(limitcnt, listcount) => ret ((limitcnt <=? limit) && negb (listcount =? 0)))
    (fun '(limitcnt, listcount) =>
       let* sent := outhandler_entry group in
       ret (if (sent : bool) then limitcnt + 1 else limitcnt, listcount - 1))
    (0, listcount) in
  ret r.1.

Definition ecx_mbxhandler (junk group limit : Z) : C Z :=
  let* limitcnt := ecx_mbxinhandler junk group limit in
  ecx_mbxouthandler group (limit - limitcnt).

(** ** Blocking send *)

(** [osal_usleep(EC_LOCALDELAY)], while other threads run. *)
Definition local_delay : C unit := do* ctx_usleep EC_LOCALDELAY in other_threads.

(** The cyclic branch of [ecx_mbxsend]: work counter and the mailbox still owned. *)
Definition mbxsend_cyclic (slave group : Z) (m : option Z) (timeout : Z) : C (Z * option Z) :=
  let* timer := onlink (lk_timer_start timeout) in
  do_while loop_fuel (fun '(wkc, m) =>
      let* ticket := onqueue group (MbxQueue.ecx_mbxaddqueue slave m) in
      let* wm :=
        (if 0 <=? ticket then
           let* wkc := do_while loop_fuel (fun _ : Z =>
               let* wkc := onqueue group (MbxQueue.ecx_mbxdonequeue ticket) in
               do* when ((wkc =? 0) && (EC_LOCALDELAY <? timeout)) local_delay in
               if wkc <=? 0 then
                 let* expired := onlink (lk_timer_is_expired timer) in
                 ret (negb expired, wkc)
               else ret (false, wkc)) wkc in
           do* when (wkc <=? 0)
             (let* _r := onqueue group (MbxQueue.ecx_mbxexpirequeue ticket) in ret tt) in
           ret (wkc, None)
         else
           do* when (EC_LOCALDELAY <? timeout) local_delay in
           ret (wkc, m)) in
      if wm.1 <=? 0 then
        let* expired := onlink (lk_timer_is_expired timer) in
        ret (negb expired, wm)
      else ret (false, wm)) (0, m).

(** Write a mailbox to a slave; the pool gets it back in every case. *)
Definition ecx_mbxsend (slave : Z) (m : option Z) (timeout : Z) : C Z :=
  let* s := get_slave slave in
  let adr := configadr s in
  let mbxl := mbx_l s in
  let* wm :=
    (if mbxhandlerstate s =? ECT_MBXH_CYCLIC then
       if 0 <? mbxl then mbxsend_cyclic slave (group s) m timeout
       else let* _t := onlink (lk_timer_start timeout) in ret (0, m)
     else if (0 <? mbxl) && (mbxl <=? EC_MAXMBX) && (EC_STATE_PRE_OP <=? state s) then
       let mbxwo := mbx_wo s in
       let* wkc := mbx_FPWR adr mbxwo mbxl m EC_TIMEOUTRET3 in
       let* wkc :=
         (if wkc <=? 0 then
            let* e := ecx_mbxempty slave timeout in
            if negb (e =? 0) then mbx_FPWR adr mbxwo mbxl m EC_TIMEOUTRET3 else ret wkc
          else ret wkc) in
       ret (if wkc <? 0 then 0 else wkc, m)
     else ret (0, m)) in
  do* match wm.2 with
      | Some item => let* _r := ctx_dropmbx item in ret tt
      | None => ret tt
      end in
  ret wm.1.

(** ** Blocking receive *)

Definition mbxin_item (m : mbxin) : option Z :=
  match m with MbxAt i => Some i | _ => None end.

(** Take the mailbox of a full slot. *)
Definition slot_take (sl : mbxslot) (slave : Z) : C (option Z) :=
  let* s := get_slave slave in
  do* mod_slave slave (slot_release sl) in
  ret (mbxin_item (slot_in sl s)).

(** The cyclic branch: the slots the handler fills, in the order of the code. *)
Definition mbxreceive_cyclic (slave timeout : Z) (mbx : option Z) : C (Z * option Z) :=
  let* timer := onlink (lk_timer_start timeout) in
  do_while loop_fuel (fun '(wkc, mbx) =>
      let* s := get_slave slave in
      let* r :=
        (if coembxinfull s then let* m := slot_take coe_slot slave in ret (1, m)
         else if soembxinfull s then let* m := slot_take soe_slot slave in ret (1, m)
         else if foembxinfull s then let* m := slot_take foe_slot slave in ret (1, m)
         else if eoembxinfull s then let* m := slot_take eoe_slot slave in ret (1, m)
         else ret (wkc, mbx)) in
      do* when ((r.1 =? 0) && (EC_LOCALDELAY <? timeout)) local_delay in
      if r.1 <=? 0 then
        let* expired := onlink (lk_timer_is_expired timer) in
        ret (negb expired, r)
      else ret (false, r)) (0, mbx).

(** The repeat request of the mailbox link layer, after a lost mailbox. *)
Definition mbxreceive_repeat (junk slave adr timeout : Z) (timer : ec_timet) : C unit :=
  let* SMstatex := do_while loop_fuel (fun _ : Z =>
      let* r := ecx_readmbxstatusex junk slave in
      if r.1 <=? 0 then
        let* expired := onlink (lk_timer_is_expired timer) in
        ret (negb expired, r.2)
      else ret (false, r.2)) 0 in
  let SMstatex := Z.lxor SMstatex 0x0200 in
  let* _w := ctx_FPWR adr ECT_REG_SM1STAT 2 (le_bytes 2 SMstatex) EC_TIMEOUTRET in
  let* _r := do_while loop_fuel (fun SMcontr : Z =>
      let* r := ctx_FPRD adr ECT_REG_SM1CONTR 1 [SMcontr] EC_TIMEOUTRET in
      let SMcontr := of_le r.2 in
      if (r.1 <=? 0) || negb (Z.land SMcontr 0x02 =? Z.land (HI_BYTE SMstatex) 0x02) then
        let* expired := onlink (lk_timer_is_expired timer) in
        ret (negb expired, SMcontr)
      else ret (false, SMcontr)) 0 in
  let* _r := do_while loop_fuel (fun _ : unit =>
      let* r := ecx_readmbxstatusex junk slave in
      let empty := Z.land r.2 0x08 =? 0 in
      do* when (empty && (EC_LOCALDELAY <? timeout)) (ctx_usleep EC_LOCALDELAY) in
      if (r.1 <=? 0) || empty then
        let* expired := onlink (lk_timer_is_expired timer) in
        ret (negb expired, tt)
      else ret (false, tt)) tt in
  ret tt.

(** Dispatch of a mailbox read: work counter, the buffer still owned, and the result. *)
Definition mbxreceive_dispatch (slave : Z) (mbxh : Z) (mbxin mbx : option Z) (wkc : Z)
    : C (Z * option Z * option Z) :=
  let* b := get_buffer mbxh in
  let* ty := oobC (field_u8 b MBXH_mbxtype) in
  let ty := Z.land ty 0x0f in
  let* item := deref mbxin in
  if ty =? ECT_MBXT_ERR then
    let* detail := oobC (field_u16 b MBXE_Detail) in
    do* ctx_mbxerror slave detail in
    let* _r := ctx_dropmbx item in
    ret (0, None, mbx)
  else if ty =? ECT_MBXT_COE then
    let* canopen := oobC (field_u16 b EMC_CANOpen) in
    if Z.shiftr canopen 12 =? 0x01 then
      do* ctx_emergency slave b in
      let* _r := ctx_dropmbx item in
      ret (0, None, mbx)
    else ret (wkc, None, mbxin)
  else if ty =? ECT_MBXT_EOE then
    let* info := oobC (field_u16 b EOE_frameinfo1) in
    let* hook := gets EOEhook in
    if (EOE_HDR_FRAME_TYPE_GET info =? EOE_FRAG_DATA)
       && match hook with Some h => 0 <? h slave b | None => false end
    then let* _r := ctx_dropmbx item in ret (0, None, mbx)
    else ret (wkc, None, mbxin)
  else ret (wkc, None, mbxin).

(** The reading loop: work counter, buffer still owned, result. *)
Definition mbxreceive_read (junk slave adr mbxro mbxl timeout : Z) (timer : ec_timet)
    (mbxh mbx : option Z) : C (Z * option Z * option Z) :=
  do_while loop_fuel (fun '(_, mbxin, mbx) =>
      let* wkc := mbx_FPRD adr mbxro mbxl mbxin EC_TIMEOUTRET in
      let* r :=
        (if 0 <? wkc then
           let* h := deref mbxh in mbxreceive_dispatch slave h mbxin mbx wkc
         else
           do* mbxreceive_repeat junk slave adr timeout timer in
           ret (wkc, mbxin, mbx)) in
      if r.1.1 <=? 0 then
        let* expired := onlink (lk_timer_is_expired timer) in
        ret (negb expired, r)
      else ret (false, r)) (0, mbxh, mbx).

(** Read a mailbox from a slave: work counter, and the mailbox, which the caller owns. *)
Definition ecx_mbxreceive (junk slave : Z) (mbx : option Z) (timeout : Z) : C (Z * option Z) :=
  let* s := get_slave slave in
  let adr := configadr s in
  let mbxl := mbx_rl s in
  if mbxhandlerstate s =? ECT_MBXH_CYCLIC then mbxreceive_cyclic slave timeout mbx
  else if (0 <? mbxl) && (mbxl <=? EC_MAXMBX) then
    let* timer := onlink (lk_timer_start timeout) in
    let* r := do_while loop_fuel (fun _ : Z * Z =>
        let* r := ecx_readmbxstatus slave 0 in
        let empty := Z.land r.2 0x08 =? 0 in
        do* when (empty && (EC_LOCALDELAY <? timeout)) (ctx_usleep EC_LOCALDELAY) in
        if (r.1 <=? 0) || empty then
          let* expired := onlink (lk_timer_is_expired timer) in
          ret (negb expired, r)
        else ret (false, r)) (0, 0) in
    let wkc := r.1 in
    if (0 <? wkc) && (0 <? Z.land r.2 0x08) then
      let* mbxin := ctx_getmbx in
      let* r := mbxreceive_read junk slave adr (mbx_ro s) mbxl timeout timer mbxin mbx in
      let '(wkc, mbxin, mbx) := r in
      do* match mbxin with
          | Some item => let* _r := ctx_dropmbx item in ret tt
          | None => ret tt
          end in
      ret (wkc, mbx)
    else ret (if 0 <? wkc then EC_TIMEOUT else wkc, mbx)
  else ret (0, mbx).

(** Put the mailbox of a slave under the cyclic handler. *)
Definition ecx_slavembxcyclic (slave : Z) : C Z :=
  let* s := get_slave slave in
  match mbxstatus s with
  | Some _ =>
      do* mod_slave slave (fun s => s <| coembxin := MbxInEnable |>
                                      <| mbxhandlerstate := ECT_MBXH_CYCLIC |>) in
      ret 1
  | None => ret 0
  end.
End Handlers.
