(* ===== verification/MbxClient.v ===== *)
(** * What the mailbox protocols share

    Building a request in a pool mailbox, the session counter, and the fields of an answer.
    The clients of ec_coe.c, ec_soe.c, ec_foe.c and ec_eoe.c are written with these. *)

From S2P Require Import Prelude Types Osal ErrorRing Mailbox Context Eeprom AlState MbxHandler.

Section MbxClient.
Context {L : Type} `{EcLink L} `{EcFrame L} `{LoopFuel} `{Interference L}.
Abbreviation C := (M (ecx_contextt L)).

(** Four bytes of a packed structure. *)
Definition field_u32 (m : list Z) (off : Z) : option Z :=
  bs ← zslice m off 4; Some (of_le bs).

(** The fields of a mailbox the caller owns. *)
Definition get_u8 (item off : Z) : C Z := let* b := get_buffer item in oobC (field_u8 b off).
Definition get_u16 (item off : Z) : C Z := let* b := get_buffer item in oobC (field_u16 b off).
Definition get_u32 (item off : Z) : C Z := let* b := get_buffer item in oobC (field_u32 b off).
Definition get_bytes (item off n : Z) : C (list Z) :=
  let* b := get_buffer item in oobC (zslice b off n).

(** Store bytes in a mailbox. *)
Definition mbx_write (item off : Z) (bytes : list Z) : C unit :=
  let* b := get_buffer item in
  let* b' := oobC (zblit b off bytes) in
  put_buffer item b'.
Definition mbx_clear (item : Z) : C unit :=
  let* b := get_buffer item in
  let* b' := oobC (ec_clearmbx b) in
  put_buffer item b'.

(** A copy into a buffer of the caller. *)
Definition copy_to (p : list Z) (off : Z) (bytes : list Z) : C (list Z) := oobC (zblit p off bytes).

(** [if (m) ecx_dropmbx(context, m)] *)
Definition drop_mbx (m : option Z) : C unit :=
  match m with
  | Some item => let* _r := ctx_dropmbx item in ret tt
  | None => ret tt
  end.

(** The next value of the session counter of a slave. *)
Definition next_mbxcnt (slave : Z) : C Z :=
  let* s := get_slave slave in
  let cnt := ec_nextmbxcnt (mbx_cnt s) in
  do* mod_slave slave (fun s => s <| mbx_cnt := cnt |>) in
  ret cnt.

(** [ec_mbxheadert] of a request: length, address 0, priority 0, type and counter. *)
Definition mbx_header (length proto cnt : Z) : list Z :=
  le_bytes 2 length ++ [0; 0; 0; u8 (proto + MBX_HDR_SET_CNT cnt)].

(** An error record on the list; [AbortCode] fills the first four bytes of the union. *)
Definition abort_error (now : ec_timet) (Slave Index SubIdx Etype AbortCode : Z) : ec_errort :=
  EcError now false Slave Index SubIdx Etype (u16 AbortCode) (u8 (Z.shiftr AbortCode 16))
    (u8 (Z.shiftr AbortCode 24)) 0 0.
Definition push_error (e : ec_errort) : C unit :=
  onerrors (do* modify (fun s => s <| ecaterror := true |>) in ecx_pusherror e).
Definition ctx_packeterror (Slave Index SubIdx ErrorCode : Z) : C unit :=
  let* now := onlink lk_current_time in
  onerrors (ecx_packeterror now Slave Index SubIdx ErrorCode).
End MbxClient.
