(* ===== verification/CoE.v ===== *)
(** * CAN over EtherCAT (src/ec_coe.c)

    Reading and writing objects of a slave's dictionary, expedited, in one mailbox or in
    segments, PDO transfers by mailbox, the PDO mapping of a slave, and the description of its
    dictionary.  A parameter buffer of the caller is a list of bytes, the object the pointer
    refers to; the size the caller claims it has comes beside it, as in the code.  [junk] is
    what the uninitialised variable of [ecx_mbxreceive] holds. *)

From S2P Require Import Prelude Types Osal ErrorRing Mailbox Context Eeprom AlState MbxHandler MbxClient.

(** [ec_SDOt] and [ec_SDOservicet]: offsets of their fields in a mailbox. *)
Definition SDO_CANOpen : Z := 6.
Definition SDO_Command : Z := 8.
Definition SDO_Index : Z := 9.
Definition SDO_SubIndex : Z := 11.
Definition SDO_data : Z := 12.
Definition SDOS_Opcode : Z := 8.
Definition SDOS_Fragments : Z := 10.

Definition coe_service (service : Z) : Z := Z.shiftl service 12.

Section CoE.
Context {L : Type} `{EcLink L} `{EcFrame L} `{LoopFuel} `{Interference L}.
Abbreviation C := (M (ecx_contextt L)).

(** ** Errors *)

Definition ecx_SDOerror (Slave Index SubIdx AbortCode : Z) : C unit :=
  let* now := onlink lk_current_time in
  push_error (abort_error now Slave Index SubIdx EC_ERR_TYPE_SDO_ERROR AbortCode).
Definition ecx_SDOinfoerror (Slave Index SubIdx AbortCode : Z) : C unit :=
  push_error (abort_error (TimeSpec 0 0) Slave Index SubIdx EC_ERR_TYPE_SDOINFO_ERROR AbortCode).

(** An answer that is not the expected one: an abort of the slave or an unexpected frame. *)
Definition sdo_refused (slave index subindex item : Z) : C unit :=
  let* cmd := get_u8 item SDO_Command in
  if cmd =? ECT_SDO_ABORT then
    let* code := get_u32 item SDO_data in ecx_SDOerror slave index subindex code
  else ctx_packeterror slave index subindex 1.

(** The header of an SDO request up to its index and subindex. *)
Definition sdo_header (length cnt command index subindex : Z) : list Z :=
  mbx_header length ECT_MBXT_COE cnt ++ le_bytes 2 (coe_service ECT_COES_SDOREQ)
  ++ [u8 command] ++ le_bytes 2 index ++ [u8 subindex].

(** Is the mailbox an SDO response? *)
Definition is_sdo_response (item : Z) : C bool :=
  let* ty := get_u8 item MBXH_mbxtype in
  let* canopen := get_u16 item SDO_CANOpen in
  ret ((Z.land ty 0x0f =? ECT_MBXT_COE) && (Z.shiftr canopen 12 =? ECT_COES_SDORES)).

(** ** Reading an object *)

(** What [ecx_SDOread] has: work counter, the answer it owns, size and parameter buffer. *)
Record sdo_state : Type := SdoState {
  so_wkc : Z;
  so_in : option Z;
  so_size : Z;
  so_p : list Z;
}.

(** An expedited answer holds up to four bytes. *)
Definition sdo_expedited (slave index subindex item cmd : Z) (st : sdo_state) : C sdo_state :=
  let bytesize := u16 (4 - Z.land (Z.shiftr cmd 2) 0x03) in
  if bytesize <=? so_size st then
    let* bs := get_bytes item SDO_data bytesize in
    let* p := copy_to (so_p st) 0 bs in
    ret (st <| so_p := p |> <| so_size := bytesize |>)
  else
    do* ctx_packeterror slave index subindex 3 in
    ret (st <| so_wkc := 0 |>).

(** One request for a segment; [hp] is the offset the next bytes go to. *)
Definition sdo_segment_answer (slave index subindex hp : Z) (st : sdo_state)
    : C (bool * (Z * sdo_state)) :=
  let* item := deref (so_in st) in
  let* ok := is_sdo_response item in
  let* cmd := get_u8 item SDO_Command in
  if ok && (Z.land cmd 0xe0 =? 0x00) then
    let* len := get_u16 item 0 in
    let size := u16 (len - 3) in
    if 0 <? Z.land cmd 0x01 then
      let size := if size =? 7 then u16 (size - Z.shiftr (Z.land cmd 0x0e) 1) else size in
      let* bs := get_bytes item SDO_Index size in
      let* p := copy_to (so_p st) hp bs in
      ret (false, (hp, st <| so_p := p |> <| so_size ::= (fun n => s32 (n + size)) |>))
    else
      let* bs := get_bytes item SDO_Index size in
      let* p := copy_to (so_p st) hp bs in
      ret (true, (hp + size, st <| so_p := p |> <| so_size ::= (fun n => s32 (n + size)) |>))
  else
    do* sdo_refused slave index subindex item in
    ret (false, (hp, st <| so_wkc := 0 |>)).

Definition sdo_segment (junk slave index subindex timeout : Z)
    (r : Z * Z * sdo_state) : C (bool * (Z * Z * sdo_state)) :=
  let '(toggle, hp, st) := r in
  let* out := ctx_getmbx in
  match out with
  | None => ret (false, (toggle, hp, st))
  | Some out =>
      let* cnt := next_mbxcnt slave in
      do* mbx_write out 0 (sdo_header 0x000a cnt (ECT_SDO_SEG_UP_REQ + toggle) index subindex
                           ++ le_bytes 4 0) in
      let* wkc := ecx_mbxsend slave (Some out) EC_TIMEOUTTXM in
      let st := st <| so_wkc := wkc |> in
      let* c :=
        (if 0 <? wkc then
           do* drop_mbx (so_in st) in
           let* r := ecx_mbxreceive junk slave None timeout in
           let st := st <| so_wkc := r.1 |> <| so_in := r.2 |> in
           if 0 <? r.1 then sdo_segment_answer slave index subindex hp st
           else ret (true, (hp, st))
         else ret (true, (hp, st))) in
      ret (c.1, (Z.lxor toggle 0x10, c.2.1, c.2.2))
  end.

(** A normal answer carries the length of the object, and its beginning or all of it. *)
Definition sdo_normal (junk slave index subindex timeout item : Z) (st : sdo_state) : C sdo_state :=
  let* l := get_u32 item SDO_data in
  let SDOlen := s32 l in
  if SDOlen <=? so_size st then
    let* len := get_u16 item 0 in
    let Framedatasize := u16 (len - 10) in
    if Framedatasize <? SDOlen then
      let* bs := get_bytes item (SDO_data + 4) Framedatasize in
      let* p := copy_to (so_p st) 0 bs in
      let st := st <| so_p := p |> <| so_size := Framedatasize |> in
      let* r := do_while loop_fuel (sdo_segment junk slave index subindex timeout)
                  (0, Framedatasize, st) in
      ret r.2
    else
      let* bs := get_bytes item (SDO_data + 4) SDOlen in
      let* p := copy_to (so_p st) 0 bs in
      ret (st <| so_p := p |> <| so_size := SDOlen |>)
  else
    do* ctx_packeterror slave index subindex 3 in
    ret (st <| so_wkc := 0 |>).

(** The answer to an upload request; [out] is the mailbox of the request, which has been sent
    and given back to the pool: the code still reads the index from it. *)
Definition sdo_answer (junk slave index subindex timeout out item : Z) (st : sdo_state)
    : C sdo_state :=
  let* ok := is_sdo_response item in
  let* aindex := get_u16 item SDO_Index in
  let* oindex := get_u16 out SDO_Index in
  if ok && (aindex =? oindex) then
    let* cmd := get_u8 item SDO_Command in
    if 0 <? Z.land cmd 0x02 then sdo_expedited slave index subindex item cmd st
    else sdo_normal junk slave index subindex timeout item st
  else
    do* sdo_refused slave index subindex item in
    ret (st <| so_wkc := 0 |>).

(** [while ((wkc > 0) && !MbxIn)] *)
Definition receive_some (junk slave timeout : Z) : C (Z * option Z) :=
  do_while loop_fuel (fun r : Z * option Z =>
      let* r := ecx_mbxreceive junk slave r.2 timeout in
      ret ((0 <? r.1) && negb (bool_decide (is_Some r.2)), r)) (0, None).

(** Read an object: work counter, the size and the parameter buffer. *)
Definition ecx_SDOread (junk slave index subindex : Z) (CA : bool) (psize : Z) (p : list Z)
    (timeout : Z) : C (Z * (Z * list Z)) :=
  let* r := ecx_mbxreceive junk slave None 0 in
  let* out := ctx_getmbx in
  match out with
  | None => ret (r.1, (psize, p))
  | Some out =>
      do* mbx_clear out in
      let* cnt := next_mbxcnt slave in
      let subindex := if CA && (1 <? subindex) then 1 else subindex in
      do* mbx_write out 0
        (sdo_header 0x000a cnt (if CA then ECT_SDO_UP_REQ_CA else ECT_SDO_UP_REQ) index subindex
         ++ le_bytes 4 0) in
      let* wkc := ecx_mbxsend slave (Some out) EC_TIMEOUTTXM in
      let* st :=
        (if 0 <? wkc then
           do* drop_mbx r.2 in
           let* a := receive_some junk slave timeout in
           let st := SdoState a.1 a.2 psize p in
           match a.2 with
           | Some item =>
               if 0 <? a.1 then sdo_answer junk slave index subindex timeout out item st
               else ret st
           | None => ret st
           end
         else ret (SdoState wkc r.2 psize p)) in
      do* drop_mbx (so_in st) in
      ret (so_wkc st, (so_size st, so_p st))
  end.

(** ** Writing an object *)

(** Is the answer to a download the one expected?  Its index and subindex are compared with
    those of the request in the mailbox given back. *)
Definition sdo_write_ok (out item : Z) : C bool :=
  let* ok := is_sdo_response item in
  let* aindex := get_u16 item SDO_Index in
  let* oindex := get_u16 out SDO_Index in
  let* asub := get_u8 item SDO_SubIndex in
  let* osub := get_u8 out SDO_SubIndex in
  ret (ok && (aindex =? oindex) && (asub =? osub)).

(** Send a request and take the answer in place of the mailbox [m_in]: work counter and answer. *)
Definition sdo_exchange (junk slave timeout out : Z) (m_in : option Z) : C (Z * option Z) :=
  let* wkc := ecx_mbxsend slave (Some out) EC_TIMEOUTTXM in
  if 0 <? wkc then
    do* drop_mbx m_in in
    ecx_mbxreceive junk slave None timeout
  else ret (wkc, m_in).

(** The short download: up to four bytes. *)
Definition sdo_write_expedited (junk slave index subindex psize : Z) (p : list Z)
    (timeout out : Z) (m_in : option Z) : C (Z * option Z) :=
  let* cnt := next_mbxcnt slave in
  let command := Z.lor ECT_SDO_DOWN_EXP (Z.land (Z.shiftl (4 - psize) 2) 0x0c) in
  do* mbx_write out 0 (sdo_header 0x000a cnt command index subindex) in
  let* data := oobC (zslice p 0 psize) in
  do* mbx_write out SDO_data data in
  let* r := sdo_exchange junk slave timeout out m_in in
  if 0 <? r.1 then
    let* item := deref r.2 in
    let* ok := sdo_write_ok out item in
    if (ok : bool) then ret r
    else do* sdo_refused slave index subindex item in ret (0, r.2)
  else ret r.

(** What the segmented download keeps: toggle bit, position, bytes left, work counter and
    answer. *)
Record sdo_down : Type := SdoDown {
  sd_toggle : Z;
  sd_hp : Z;
  sd_left : Z;
  sd_wkc : Z;
  sd_in : option Z;
}.

(** One segment of at most [maxdata] bytes. *)
Definition sdo_write_segment (junk slave index subindex maxdata : Z) (p : list Z) (timeout : Z)
    (st : sdo_down) : C (bool * sdo_down) :=
  let* out := ctx_getmbx in
  match out with
  | None => ret (false, st)
  | Some out =>
      do* mbx_clear out in
      let NotLast := maxdata <? sd_left st in
      let framedatasize := if NotLast then maxdata else sd_left st in
      let short := negb NotLast && (framedatasize <? 7) in
      let command :=
        if short then u8 (0x01 + Z.shiftl (7 - framedatasize) 1) else if NotLast then 0x00 else 0x01 in
      let length := if short then 0x0a else u16 (framedatasize + 3) in
      let* cnt := next_mbxcnt slave in
      do* mbx_write out 0
        (mbx_header length ECT_MBXT_COE cnt ++ le_bytes 2 (coe_service ECT_COES_SDOREQ)
         ++ [u8 (command + sd_toggle st)]) in
      let* data := oobC (zslice p (sd_hp st) framedatasize) in
      do* mbx_write out SDO_Index data in
      let st := st <| sd_hp ::= (fun h => h + framedatasize) |>
                   <| sd_left ::= (fun n => n - framedatasize) |> in
      let* r := sdo_exchange junk slave timeout out (sd_in st) in
      let st := st <| sd_wkc := r.1 |> <| sd_in := r.2 |> in
      let* c :=
        (if 0 <? r.1 then
           let* item := deref r.2 in
           let* ok := is_sdo_response item in
           let* cmd := get_u8 item SDO_Command in
           if ok && (Z.land cmd 0xe0 =? 0x20) then ret (NotLast, st)
           else
             do* sdo_refused slave index subindex item in
             ret (false, st <| sd_wkc := 0 |>)
         else ret (NotLast, st)) in
      ret (c.1, c.2 <| sd_toggle ::= (fun t => Z.lxor t 0x10) |>)
  end.

(** The normal download: the first mailbox holds up to [maxdata] bytes. *)
Definition sdo_write_normal (junk slave index subindex : Z) (CA : bool) (psize : Z) (p : list Z)
    (maxdata timeout out : Z) (m_in : option Z) : C (Z * option Z) :=
  let NotLast := maxdata <? psize in
  let framedatasize := if NotLast then maxdata else psize in
  let* cnt := next_mbxcnt slave in
  do* mbx_write out 0
    (sdo_header (u16 (0x0a + framedatasize)) cnt
       (if CA then ECT_SDO_DOWN_INIT_CA else ECT_SDO_DOWN_INIT) index
       (if CA && (1 <? subindex) then 1 else subindex)
     ++ le_bytes 4 psize) in
  let* data := oobC (zslice p 0 framedatasize) in
  do* mbx_write out (SDO_data + 4) data in
  let* r := sdo_exchange junk slave timeout out m_in in
  if 0 <? r.1 then
    let* item := deref r.2 in
    let* ok := sdo_write_ok out item in
    if (ok : bool) then
      let st := SdoDown 0 framedatasize (psize - framedatasize) r.1 r.2 in
      let* st :=
        (if NotLast
         then do_while loop_fuel
                (sdo_write_segment junk slave index subindex (maxdata + 7) p timeout) st
         else ret st) in
      ret (sd_wkc st, sd_in st)
    else do* sdo_refused slave index subindex item in ret (0, r.2)
  else ret r.

Definition ecx_SDOwrite (junk Slave Index SubIndex : Z) (CA : bool) (psize : Z) (p : list Z)
    (Timeout : Z) : C Z :=
  let* r := ecx_mbxreceive junk Slave None 0 in
  let* out := ctx_getmbx in
  match out with
  | None => ret r.1
  | Some out =>
      do* mbx_clear out in
      let* s := get_slave Slave in
      let maxdata := mbx_l s - 0x10 in
      let* r :=
        (if (psize <=? 4) && negb CA
         then sdo_write_expedited junk Slave Index SubIndex psize p Timeout out r.2
         else sdo_write_normal junk Slave Index SubIndex CA psize p maxdata Timeout out r.2) in
      do* drop_mbx r.2 in
      ret r.1
  end.

(** ** PDO transfers by mailbox *)

(** Empty the slave's mailbox and get one for a request: work counter, the mailbox that was
    read, and the new one.  The first is given back to the pool here, but the code keeps the
    pointer to it and gives it back again when the request has been sent. *)
Definition coe_start (junk slave : Z) : C (Z * option Z * option Z) :=
  let* r := ecx_mbxreceive junk slave None 0 in
  do* drop_mbx r.2 in
  let* out := ctx_getmbx in
  do* match out with Some item => mbx_clear item | None => ret tt end in
  ret (r.1, r.2, out).

Definition ecx_RxPDO (junk Slave RxPDOnumber psize : Z) (p : list Z) : C Z :=
  let* r := coe_start junk Slave in
  match r.2 with
  | None => ret r.1.1
  | Some out =>
      let* s := get_slave Slave in
      let maxdata := mbx_l s - 0x08 in
      let framedatasize := if maxdata <? psize then maxdata else psize in
      let* cnt := next_mbxcnt Slave in
      do* mbx_write out 0
        (mbx_header (u16 (0x02 + framedatasize)) ECT_MBXT_COE cnt
         ++ le_bytes 2 (Z.land RxPDOnumber 0x01ff + coe_service ECT_COES_RXPDO)) in
      let* data := oobC (zslice p 0 framedatasize) in
      do* mbx_write out SDO_Command data in
      ecx_mbxsend Slave (Some out) EC_TIMEOUTTXM
  end.

(** The answer to a request for a TxPDO: work counter, size and buffer. *)
Definition txpdo_answer (slave item wkc psize : Z) (p : list Z) : C (Z * (Z * list Z)) :=
  let* ty := get_u8 item MBXH_mbxtype in
  let* canopen := get_u16 item SDO_CANOpen in
  if (Z.land ty 0x0f =? ECT_MBXT_COE) && (Z.shiftr canopen 12 =? ECT_COES_TXPDO) then
    let* len := get_u16 item 0 in
    let framedatasize := u16 (len - 2) in
    if framedatasize <=? psize then
      let* bs := get_bytes item SDO_Command framedatasize in
      let* p := copy_to p 0 bs in
      ret (wkc, (framedatasize, p))
    else
      do* ctx_packeterror slave 0 0 3 in
      ret (0, (psize, p))
  else
    do* sdo_refused slave 0 0 item in
    ret (0, (psize, p)).

Definition ecx_TxPDO (junk slave TxPDOnumber psize : Z) (p : list Z) (timeout : Z)
    : C (Z * (Z * list Z)) :=
  let* r := coe_start junk slave in
  match r.2 with
  | None => ret (r.1.1, (psize, p))
  | Some out =>
      let* cnt := next_mbxcnt slave in
      do* mbx_write out 0
        (mbx_header 0x02 ECT_MBXT_COE cnt
         ++ le_bytes 2 (Z.land TxPDOnumber 0x01ff + coe_service ECT_COES_TXPDO_RR)) in
      let* a := sdo_exchange junk slave timeout out r.1.2 in
      let* res :=
        (if 0 <? a.1 then
           let* item := deref a.2 in txpdo_answer slave item a.1 psize p
         else ret (a.1, (psize, p))) in
      do* drop_mbx a.2 in
      ret res
  end.

(** ** PDO mapping *)

(** One value of an object: [ecx_SDOread] into a variable of [n] bytes that starts at zero. *)
Definition read_value (junk slave index subindex n : Z) : C (Z * Z) :=
  let* r := ecx_SDOread junk slave index subindex false n (le_bytes (Z.to_nat n) 0) EC_TIMEOUTRXM in
  ret (r.1, of_le r.2.2).

(** The bits of one mapped PDO: the bit lengths of its objects.  A length of 0xff is added as
    it is, too. *)
Definition pdo_bits (junk slave idx bsize : Z) : C Z :=
  let* sc := read_value junk slave idx 0x00 1 in
  for_range (Z.to_nat sc.2) (fun subidxloop bsize =>
      let* d := read_value junk slave idx (u8 subidxloop) 4 in
      ret (u32 (bsize + LO_BYTE d.2))) 1 bsize.

(** [for (i = 1; i <= n; i++)] with a 16 bit counter: for the largest [n] it never ends. *)
Definition for_u16 {A} (n : Z) (body : Z -> A -> C A) (a : A) : C A :=
  let* a := for_range (Z.to_nat n) body 1 a in
  if n =? 0xffff then fail OutOfFuel else ret a.

Definition ecx_readPDOassign (junk Slave PDOassign : Z) : C Z :=
  let* r := read_value junk Slave PDOassign 0x00 2 in
  if (0 <? r.1) && (0 <? r.2) then
    for_u16 r.2 (fun idxloop bsize =>
        let* i := read_value junk Slave PDOassign (u8 idxloop) 2 in
        if 0 <? i.2 then pdo_bits junk Slave i.2 bsize else ret bsize) 0
  else ret 0.

(** The buffers of mapping thread [n]. *)
Definition get_mapbuf (n : Z) : C ec_mapbuf :=
  let* l := gets mapbufs in oobC (zget l n).
Definition mod_mapbuf (n : Z) (f : ec_mapbuf -> ec_mapbuf) : C unit :=
  let* l := gets mapbufs in
  let* b := oobC (zget l n) in
  let* l' := oobC (zset l n (f b)) in
  modify (fun c => c <| mapbufs := l' |>).
Definition PDOassign_size : Z := 514.
Definition PDOdesc_size : Z := 1026.
Definition SMcommtype_size : Z := 10.

(** Read an object with complete access into a buffer whose first byte, the count, is set to
    zero before: work counter and buffer. *)
Definition read_whole (junk slave index size : Z) (buf : list Z) : C (Z * list Z) :=
  let* buf := copy_to buf 0 [0] in
  let* r := ecx_SDOread junk slave index 0x00 true size buf EC_TIMEOUTRXM in
  ret (r.1, r.2.2).

Definition ecx_readPDOassignCA (junk Slave Thread_n PDOassign_ : Z) : C Z :=
  let* mb := get_mapbuf Thread_n in
  let* r := read_whole junk Slave PDOassign_ PDOassign_size (PDOassign mb) in
  do* mod_mapbuf Thread_n (fun mb => mb <| PDOassign := r.2 |>) in
  let* nidx := oobC (field_u8 r.2 0) in
  if (0 <? r.1) && (0 <? nidx) then
    for_range (Z.to_nat nidx) (fun idxloop bsize =>
        let* mb := get_mapbuf Thread_n in
        let* idx := oobC (field_u16 (PDOassign mb) (2 + 2 * (idxloop - 1))) in
        if 0 <? idx then
          let* d := read_whole junk Slave idx PDOdesc_size (PDOdesc mb) in
          do* mod_mapbuf Thread_n (fun mb => mb <| PDOdesc := d.2 |>) in
          let* subidx := oobC (field_u8 d.2 0) in
          for_range (Z.to_nat subidx) (fun subidxloop bsize =>
              let* pdo := oobC (field_u32 d.2 (2 + 4 * (subidxloop - 1))) in
              ret (u32 (bsize + LO_BYTE pdo))) 1 bsize
        else ret bsize) 1 0
  else ret 0.

(** The sync manager flags of sync manager [i] of a slave. *)
Definition mod_sm (slave i : Z) (f : ec_smt -> ec_smt) : C unit :=
  let* s := get_slave slave in
  let* sm := oobC (zget (SM s) i) in
  let* l := oobC (zset (SM s) i (f sm)) in
  mod_slave slave (fun s => s <| SM := l |>).
Definition set_smtype (slave i t : Z) : C unit :=
  let* s := get_slave slave in
  let* l := oobC (zset (SMtype s) i t) in
  mod_slave slave (fun s => s <| SMtype := l |>).

(** Store the type of a sync manager and add the size of its assigned PDOs, which [assign]
    reads, to the sizes [(Osize, Isize)]. *)
Definition map_sm_type (slave iSM tSM : Z) (assign : C Z) (sizes : Z * Z) : C (Z * Z) :=
  do* set_smtype slave iSM tSM in
  do* when (tSM =? 0) (mod_sm slave iSM (fun m => m <| SMflags ::= (fun f => Z.land f EC_SMENABLEMASK) |>)) in
  if (tSM =? 3) || (tSM =? 4) then
    let* Tsize := assign in
    if negb (Tsize =? 0) then
      do* mod_sm slave iSM (fun m => m <| SMlength := u16 (Z.quot (u32 (Tsize + 7)) 8) |>) in
      ret (if tSM =? 3 then (u32 (sizes.1 + Tsize), sizes.2) else (sizes.1, u32 (sizes.2 + Tsize)))
    else ret sizes
  else ret sizes.

(** The sizes found, and whether there are any. *)
Definition map_result (sizes : Z * Z) : Z * (Z * Z) :=
  (b2z ((0 <? sizes.2) || (0 <? sizes.1)), sizes).

(** The result is the return value with [Osize] and [Isize]. *)
Definition ecx_readPDOmap (junk Slave : Z) : C (Z * (Z * Z)) :=
  let* r := read_value junk Slave ECT_SDO_SMCOMMTYPE 0x00 1 in
  if (0 <? r.1) && (2 <? r.2) then
    let nSM := if EC_MAXSM <? r.2 then EC_MAXSM else r.2 in
    let* res := for_range (Z.to_nat (nSM - 2)) (fun iSM '(bug_add, sizes) =>
        let* t := read_value junk Slave ECT_SDO_SMCOMMTYPE (iSM + 1) 1 in
        if 0 <? t.1 then
          let tSM := t.2 in
          let bug_add := if (iSM =? 2) && (tSM =? 2) then 1 else bug_add in
          let tSM := if negb (tSM =? 0) then u8 (tSM + bug_add) else tSM in
          let tSM := if (iSM =? 2) && (tSM =? 0) then 3 else tSM in
          let tSM := if (iSM =? 3) && (tSM =? 0) then 4 else tSM in
          let* sizes := map_sm_type Slave iSM tSM
                          (ecx_readPDOassign junk Slave (ECT_SDO_PDOASSIGN + iSM)) sizes in
          ret (bug_add, sizes)
        else ret (bug_add, sizes)) 2 (0, (0, 0)) in
    ret (map_result res.2)
  else ret (0, (0, 0)).

Definition ecx_readPDOmapCA (junk Slave Thread_n : Z) : C (Z * (Z * Z)) :=
  let* mb := get_mapbuf Thread_n in
  let* r := read_whole junk Slave ECT_SDO_SMCOMMTYPE SMcommtype_size (SMcommtype mb) in
  do* mod_mapbuf Thread_n (fun mb => mb <| SMcommtype := r.2 |>) in
  let* n := oobC (field_u8 r.2 0) in
  if (0 <? r.1) && (2 <? n) then
    do* when (EC_MAXSM <? n) (ctx_packeterror Slave 0 0 10) in
    let nSM := if EC_MAXSM <? n then EC_MAXSM else n in
    let* res := for_range (Z.to_nat (nSM - 2)) (fun iSM '(bug_add, sizes) =>
        let* tSM := oobC (field_u8 r.2 (2 + iSM)) in
        let bug_add := if (iSM =? 2) && (tSM =? 2) then 1 else bug_add in
        let tSM := if negb (tSM =? 0) then u8 (tSM + bug_add) else tSM in
        let* sizes := map_sm_type Slave iSM tSM
                        (ecx_readPDOassignCA junk Slave Thread_n (ECT_SDO_PDOASSIGN + iSM)) sizes in
        ret (bug_add, sizes)) 2 (0, (0, 0)) in
    ret (map_result res.2)
  else ret (0, (0, 0)).

(** ** Description of the dictionary *)

(** [ec_ODlistt] and [ec_OElistt]; names are C strings in arrays of [EC_MAXNAME + 1]. *)
Record ec_ODlistt : Type := EcODlist {
  od_Slave : Z;
  od_Entries : Z;
  od_Index : list Z;
  od_DataType : list Z;
  ObjectCode : list Z;
  MaxSub : list Z;
  od_Name : list (list Z);
}.
Record ec_OElistt : Type := EcOElist {
  oe_Entries : Z;
  ValueInfo : list Z;
  oe_DataType : list Z;
  BitLength : list Z;
  ObjAccess : list Z;
  oe_Name : list (list Z);
}.

(** A request of the SDO information service. *)
Definition sdoinfo_header (length cnt opcode : Z) : list Z :=
  mbx_header length ECT_MBXT_COE cnt ++ le_bytes 2 (coe_service ECT_COES_SDOINFO)
  ++ [u8 opcode; 0] ++ le_bytes 2 0.

(** Is the mailbox an answer with this opcode? *)
Definition is_sdoinfo (item opcode : Z) : C bool :=
  let* ty := get_u8 item MBXH_mbxtype in
  let* op := get_u8 item SDOS_Opcode in
  ret ((Z.land ty 0x0f =? ECT_MBXT_COE) && (Z.land op 0x7f =? opcode)).

Definition sdoinfo_refused (slave index subindex item : Z) : C unit :=
  let* op := get_u8 item SDOS_Opcode in
  if Z.land op 0x7f =? ECT_SDOINFO_ERROR then
    let* code := get_u32 item SDO_data in ecx_SDOinfoerror slave index subindex code
  else ctx_packeterror slave index subindex 1.

(** The indexes of one fragment of the list, from offset [offset] of its words; [sp] is the
    place of the first one. *)
Definition odlist_fragment (item sp offset : Z) (first : bool) (od : ec_ODlistt)
    : C (Z * ec_ODlistt) :=
  let* len := get_u16 item 0 in
  let n := u16 (if first then Z.quot (len - (6 + 2)) 2 else Z.quot (len - 6) 2) in
  let* n :=
    (if EC_MAXODLIST <? sp + n then
       do* ecx_SDOinfoerror (od_Slave od) 0 0 0xf000000 in
       ret (u16 (EC_MAXODLIST + 1 - sp))
     else ret n) in
  let n := if EC_MAXODLIST <? od_Entries od + n then u16 (EC_MAXODLIST - od_Entries od) else n in
  let od := od <| od_Entries := u16 (od_Entries od + n) |> in
  let* index := for_range (Z.to_nat n) (fun i index =>
      let* w := get_u16 item (SDO_data + 2 * (i + offset)) in
      oobC (zset index (sp + i) w)) 0 (od_Index od) in
  ret (u16 (sp + n), od <| od_Index := index |>).

(** What the loop over the fragments keeps. *)
Record od_state : Type := OdState {
  os_x : Z;
  os_sp : Z;
  os_first : bool;
  os_offset : Z;
  os_wkc : Z;
  os_in : option Z;
  os_od : ec_ODlistt;
}.

Definition odlist_step (junk : Z) (st : od_state) : C (bool * od_state) :=
  let slave := od_Slave (os_od st) in
  do* drop_mbx (os_in st) in
  let* r := ecx_mbxreceive junk slave None EC_TIMEOUTRXM in
  let st := st <| os_wkc := r.1 |> <| os_in := r.2 |> in
  let* c :=
    (if 0 <? r.1 then
       let* item := deref r.2 in
       let* ok := is_sdoinfo item ECT_GET_ODLIST_RES in
       if (ok : bool) then
         let* f := odlist_fragment item (os_sp st) (os_offset st) (os_first st) (os_od st) in
         let* left := get_u16 item SDOS_Fragments in
         ret (0 <? left, st <| os_sp := f.1 |> <| os_od := f.2 |> <| os_first := false |>
                           <| os_offset := 0 |>)
       else
         do* sdoinfo_refused slave 0 0 item in
         ret (false, st <| os_wkc := 0 |> <| os_x ::= (fun x => u16 (x + 20)) |>)
     else ret (false, st)) in
  let st := c.2 <| os_x ::= (fun x => u16 (x + 1)) |> in
  ret ((os_x st <=? 128) && c.1, st).

(** At most 129 rounds, since each one counts. *)
Definition ecx_readODlist (junk Slave : Z) (pODlist : ec_ODlistt) : C (Z * ec_ODlistt) :=
  let od := pODlist <| od_Slave := Slave |> <| od_Entries := 0 |> in
  let* r := coe_start junk Slave in
  match r.2 with
  | None => ret (r.1.1, od)
  | Some out =>
      let* cnt := next_mbxcnt Slave in
      do* mbx_write out 0 (sdoinfo_header 0x0008 cnt ECT_GET_ODLIST_REQ ++ le_bytes 2 0x01) in
      let* wkc := ecx_mbxsend Slave (Some out) EC_TIMEOUTTXM in
      let* st :=
        (if 0 <? wkc then
           do_while 130 (odlist_step junk) (OdState 0 0 true 1 wkc r.1.2 od)
         else ret (OdState 0 0 true 1 wkc r.1.2 od)) in
      do* drop_mbx (os_in st) in
      ret (os_wkc st, os_od st)
  end.

(** A name of at most [EC_MAXNAME] bytes, copied into an element of a list of names. *)
Definition set_name (names : list (list Z)) (i : Z) (bs : list Z) : C (list (list Z)) :=
  let* name := oobC (zget names i) in
  let* name := copy_to name 0 (bs ++ [0]) in
  oobC (zset names i name).

Definition oddescription_answer (item Item : Z) (od : ec_ODlistt) : C ec_ODlistt :=
  let* len := get_u16 item 0 in
  let n := u16 (len - 12) in
  let n := if EC_MAXNAME <? n then EC_MAXNAME else n in
  let* dt := get_u16 item (SDO_data + 2) in
  let* dts := oobC (zset (od_DataType od) Item dt) in
  let* oc := get_u8 item (SDO_data + 5) in
  let* ocs := oobC (zset (ObjectCode od) Item oc) in
  let* ms := get_u8 item (SDO_data + 4) in
  let* mss := oobC (zset (MaxSub od) Item ms) in
  let* bs := get_bytes item (SDO_data + 6) n in
  let* names := set_name (od_Name od) Item bs in
  ret (od <| od_DataType := dts |> <| ObjectCode := ocs |> <| MaxSub := mss |> <| od_Name := names |>).

(** The common shape of the two descriptions: send a request whose data is [data], and treat
    an answer with opcode [res]. *)
Definition sdoinfo_request {A} (junk slave index subindex length req res : Z) (data : list Z)
    (a : A) (answer : Z -> C A) : C (Z * A) :=
  let* r := coe_start junk slave in
  match r.2 with
  | None => ret (r.1.1, a)
  | Some out =>
      let* cnt := next_mbxcnt slave in
      do* mbx_write out 0 (sdoinfo_header length cnt req ++ data) in
      let* x := sdo_exchange junk slave EC_TIMEOUTRXM out r.1.2 in
      let* res :=
        (if 0 <? x.1 then
           let* item := deref x.2 in
           let* ok := is_sdoinfo item res in
           if (ok : bool) then let* a := answer item in ret (x.1, a)
           else
             do* sdoinfo_refused slave index subindex item in
             ret (0, a)
         else ret (x.1, a)) in
      do* drop_mbx x.2 in
      ret res
  end.

Definition ecx_readODdescription (junk Item : Z) (pODlist : ec_ODlistt) : C (Z * ec_ODlistt) :=
  let* dts := oobC (zset (od_DataType pODlist) Item 0) in
  let* ocs := oobC (zset (ObjectCode pODlist) Item 0) in
  let* mss := oobC (zset (MaxSub pODlist) Item 0) in
  let* name := oobC (zget (od_Name pODlist) Item) in
  let* name := copy_to name 0 [0] in
  let* names := oobC (zset (od_Name pODlist) Item name) in
  let* index := oobC (zget (od_Index pODlist) Item) in
  let od := pODlist <| od_DataType := dts |> <| ObjectCode := ocs |> <| MaxSub := mss |>
                    <| od_Name := names |> in
  sdoinfo_request junk (od_Slave pODlist) index 0 0x0008 ECT_GET_OD_REQ ECT_GET_OD_RES
    (le_bytes 2 index) od (fun item => oddescription_answer item Item od).

Definition oesingle_answer (item SubI : Z) (oe : ec_OElistt) : C ec_OElistt :=
  let* len := get_u16 item 0 in
  let n := s16 (len - 16) in
  let n := if EC_MAXNAME <? n then EC_MAXNAME else n in
  let n := if n <? 0 then 0 else n in
  let* vi := get_u8 item (SDO_data + 3) in
  let* vis := oobC (zset (ValueInfo oe) SubI vi) in
  let* dt := get_u16 item (SDO_data + 4) in
  let* dts := oobC (zset (oe_DataType oe) SubI dt) in
  let* bl := get_u16 item (SDO_data + 6) in
  let* bls := oobC (zset (BitLength oe) SubI bl) in
  let* oa := get_u16 item (SDO_data + 8) in
  let* oas := oobC (zset (ObjAccess oe) SubI oa) in
  let* bs := get_bytes item (SDO_data + 10) n in
  let* names := set_name (oe_Name oe) SubI bs in
  ret (oe <| oe_Entries ::= (fun e => u16 (e + 1)) |> <| ValueInfo := vis |> <| oe_DataType := dts |>
          <| BitLength := bls |> <| ObjAccess := oas |> <| oe_Name := names |>).

Definition ecx_readOEsingle (junk Item SubI : Z) (pODlist : ec_ODlistt) (pOElist : ec_OElistt)
    : C (Z * ec_OElistt) :=
  let* index := oobC (zget (od_Index pODlist) Item) in
  sdoinfo_request junk (od_Slave pODlist) index SubI 0x000a ECT_GET_OE_REQ ECT_GET_OE_RES
    (le_bytes 2 index ++ [u8 SubI; 1 + 2 + 4]) pOElist (fun item => oesingle_answer item SubI pOElist).

Definition ecx_readOE (junk Item : Z) (pODlist : ec_ODlistt) (pOElist : ec_OElistt)
    : C (Z * ec_OElistt) :=
  let* SubI := oobC (zget (MaxSub pODlist) Item) in
  for_range (Z.to_nat (SubI + 1)) (fun SubCount r =>
      ecx_readOEsingle junk Item (u8 SubCount) pODlist r.2) 0
    (0, pOElist <| oe_Entries := 0 |>).

(** ** Commands of the network information *)

(** [ecx_mbxENIinitcmds] of ec_main.c: the commands of a slave for a transition.  A read
    stores its data in the command's buffer. *)
Definition eni_find (slave : Z) (l : list ec_enislavet) : option nat :=
  let fix go i l :=
    match l with
    | [] => None
    | [e] => Some i
    | e :: l => if slave <=? eni_Slave e then Some i else go (S i) l
    end in
  go 0%nat l.

Definition eni_command (junk slave transition : Z) (cmd : ec_enicoecmdt) : C (Z * ec_enicoecmdt) :=
  if negb (Z.land (Transition cmd) transition =? 0) then
    if Ccs cmd =? 2 then
      let* wkc := ecx_SDOwrite junk slave (eni_Index cmd) (eni_SubIdx cmd) (CA cmd)
                    (eni_DataSize cmd) (eni_Data cmd) (eni_Timeout cmd) in
      ret (wkc, cmd)
    else if Ccs cmd =? 1 then
      let* r := ecx_SDOread junk slave (eni_Index cmd) (eni_SubIdx cmd) (CA cmd)
                  (eni_DataSize cmd) (eni_Data cmd) (eni_Timeout cmd) in
      ret (r.1, cmd <| eni_Data := r.2.2 |>)
    else ret (1, cmd)
  else ret (1, cmd).

(** The commands in turn; the first one that fails ends the list. *)
Fixpoint eni_commands (junk slave transition : Z) (done_ todo : list ec_enicoecmdt)
    : C (Z * list ec_enicoecmdt) :=
  match todo with
  | [] => ret (1, done_)
  | cmd :: todo =>
      let* r := eni_command junk slave transition cmd in
      if r.1 <? 1 then ret (0, done_ ++ r.2 :: todo)
      else eni_commands junk slave transition (done_ ++ [r.2]) todo
  end.

Definition ecx_mbxENIinitcmds (junk slave transition : Z) : C Z :=
  let* l := gets ENI in
  match eni_find slave l with
  | None => ret 1
  | Some i =>
      let* e := of_opt OutOfBounds (l !! i) in
      let* s := get_slave slave in
      if (slave =? eni_Slave e) && (VendorId e =? eep_man s) && (ProductCode e =? eep_id s)
         && (RevisionNo e =? eep_rev s) && negb (Z.land (mbx_proto s) ECT_MBXPROT_COE =? 0)
      then
        let* r := eni_commands junk slave transition [] (CoECmds e) in
        do* modify (fun c => c <| ENI := <[i := e <| CoECmds := r.2 |>]> l |>) in
        ret r.1
      else ret 1
  end.
End CoE.
