(* ===== verification/SoE.v ===== *)
(** * Servo drive profile over EtherCAT (src/ec_soe.c)

    Reading and writing the identification numbers (IDN) of a drive, and its mapping.  In the
    read the source of the copy is computed from the mailbox received before the request,
    which is null when the slave's mailbox was empty; the model keeps this pointer. *)

From S2P Require Import Prelude Types Osal ErrorRing Mailbox Context Eeprom AlState MbxHandler MbxClient.

Definition EC_SOE_MAX_DRIVES : Z := 8.
Definition EC_SOE_MAXMAPPING : Z := 64.
Definition EC_SOE_ATTRIBUTE_B : Z := 0x04.
Definition EC_SOE_VALUE_B : Z := 0x40.
Definition EC_IDN_MDTCONFIG : Z := 24.
Definition EC_IDN_ATCONFIG : Z := 16.
Definition ECT_SOE_READREQ : Z := 0x01.
Definition ECT_SOE_READRES : Z := 0x02.
Definition ECT_SOE_WRITEREQ : Z := 0x03.
Definition ECT_SOE_WRITERES : Z := 0x04.

(** [ec_SoEt]: its size, and the byte of its bit fields. *)
Definition soe_size : Z := 10.
Definition soe_flags (opCode incomplete error driveNo : Z) : Z :=
  Z.lor (Z.lor (Z.land opCode 7) (Z.shiftl (Z.land incomplete 1) 3))
        (Z.lor (Z.shiftl (Z.land error 1) 4) (Z.shiftl (Z.land driveNo 7) 5)).
Definition soe_opCode (b : Z) : Z := Z.land b 7.
Definition soe_incomplete (b : Z) : Z := Z.land (Z.shiftr b 3) 1.
Definition soe_error (b : Z) : Z := Z.land (Z.shiftr b 4) 1.
Definition soe_driveNo (b : Z) : Z := Z.land (Z.shiftr b 5) 7.

Section SoE.
Context {L : Type} `{EcLink L} `{EcFrame L} `{LoopFuel} `{Interference L}.
Abbreviation C := (M (ecx_contextt L)).

Definition ecx_SoEerror (Slave idn Error : Z) : C unit :=
  let* now := onlink lk_current_time in
  push_error (EcError now false Slave idn 0 EC_ERR_TYPE_SOE_ERROR Error 0 0 0 0).

(** The header of a request up to the IDN. *)
Definition soe_header (length cnt flags elementflags idn : Z) : list Z :=
  mbx_header length ECT_MBXT_SOE cnt ++ [u8 flags; u8 elementflags] ++ le_bytes 2 idn.

(** Is the mailbox an SoE answer without error from this drive? *)
Definition is_soe_answer (item opCode driveNo elementflags : Z) : C bool :=
  let* ty := get_u8 item MBXH_mbxtype in
  let* b := get_u8 item 6 in
  let* ef := get_u8 item 7 in
  ret ((Z.land ty 0x0f =? ECT_MBXT_SOE) && (soe_opCode b =? opCode) && (soe_error b =? 0)
       && (soe_driveNo b =? driveNo) && (ef =? elementflags)).

(** Another answer: the error code is the last word of an error answer. *)
Definition soe_refused (slave idn item : Z) : C unit :=
  let* ty := get_u8 item MBXH_mbxtype in
  let* b := get_u8 item 6 in
  if (Z.land ty 0x0f =? ECT_MBXT_SOE) && (soe_opCode b =? ECT_SOE_READRES) && (soe_error b =? 1) then
    let* len := get_u16 item 0 in
    let* code := get_u16 item (len + 6 - 2) in
    ecx_SoEerror slave idn code
  else ctx_packeterror slave idn 0 1.

(** [memcpy(bp, mp, n)]: [base] is the mailbox [mp] was computed from. *)
Definition soe_source (base : option Z) (n : Z) : C (list Z) :=
  if n =? 0 then ret [] else let* item := deref base in get_bytes item soe_size n.

(** ** Reading *)

Record soe_state : Type := SoeState {
  se_wkc : Z;
  se_in : option Z;
  se_total : Z;
  se_bp : Z;
  se_size : Z;
  se_p : list Z;
}.

(** Copy the data of one answer, as far as it fits. *)
Definition soe_copy (base : option Z) (item : Z) (st : soe_state) : C soe_state :=
  let* len := get_u16 item 0 in
  let framedatasize := s32 (len - soe_size + 6) in
  let total := s32 (se_total st + framedatasize) in
  if total <=? se_size st then
    let* bs := soe_source base framedatasize in
    let* p := copy_to (se_p st) (se_bp st) bs in
    ret (st <| se_p := p |> <| se_total := total |> <| se_bp ::= (fun b => b + framedatasize) |>)
  else
    let framedatasize := s32 (framedatasize - (total - se_size st)) in
    let st := st <| se_total := se_size st |> in
    if 0 <? framedatasize then
      let* bs := soe_source base framedatasize in
      let* p := copy_to (se_p st) (se_bp st) bs in
      ret (st <| se_p := p |>)
    else ret st.

Definition soe_read_step (junk slave driveNo elementflags idn timeout : Z) (base : option Z)
    (st : soe_state) : C (bool * soe_state) :=
  do* drop_mbx (se_in st) in
  let* r := ecx_mbxreceive junk slave None timeout in
  let st := st <| se_wkc := r.1 |> <| se_in := r.2 |> in
  if 0 <? r.1 then
    let* item := deref r.2 in
    let* ok := is_soe_answer item ECT_SOE_READRES driveNo elementflags in
    if (ok : bool) then
      let* st := soe_copy base item st in
      let* b := get_u8 item 6 in
      if soe_incomplete b =? 0 then ret (false, st <| se_size := se_total st |>)
      else ret (true, st)
    else
      do* soe_refused slave idn item in
      ret (false, st <| se_wkc := 0 |>)
  else
    do* ctx_packeterror slave idn 0 4 in
    ret (false, st).

Definition ecx_SoEread (junk slave driveNo elementflags idn psize : Z) (p : list Z) (timeout : Z)
    : C (Z * (Z * list Z)) :=
  let* r := ecx_mbxreceive junk slave None 0 in
  let* out := ctx_getmbx in
  let* out := deref out in
  do* mbx_clear out in
  let* cnt := next_mbxcnt slave in
  do* mbx_write out 0 (soe_header (soe_size - 6) cnt (soe_flags ECT_SOE_READREQ 0 0 driveNo)
                         elementflags idn) in
  let base := r.2 in
  let* wkc := ecx_mbxsend slave (Some out) EC_TIMEOUTTXM in
  let st := SoeState wkc r.2 0 0 psize p in
  let* st :=
    (if 0 <? wkc then
       do_while loop_fuel (soe_read_step junk slave driveNo elementflags idn timeout base) st
     else ret st) in
  do* drop_mbx (se_in st) in
  ret (se_wkc st, (se_size st, se_p st)).

(** ** Writing *)

Record soe_write_state : Type := SoeWrite {
  sw_hp : Z;
  sw_left : Z;
  sw_wkc : Z;
  sw_in : option Z;
}.

(** The answer to the last fragment, or to one the slave did not take. *)
Definition soe_write_answer (junk slave driveNo elementflags idn timeout : Z) (NotLast : bool)
    (st : soe_write_state) : C (bool * soe_write_state) :=
  do* drop_mbx (sw_in st) in
  let* r := ecx_mbxreceive junk slave None timeout in
  let st := st <| sw_wkc := r.1 |> <| sw_in := r.2 |> in
  if 0 <? r.1 then
    let* item := deref r.2 in
    let* ok := is_soe_answer item ECT_SOE_WRITERES driveNo elementflags in
    if (ok : bool) then ret (false, st)
    else
      do* soe_refused slave idn item in
      ret (false, st <| sw_wkc := 0 |>)
  else
    do* ctx_packeterror slave idn 0 4 in
    ret (NotLast, st).

Definition soe_write_step (junk slave driveNo elementflags idn maxdata : Z) (p : list Z)
    (timeout : Z) (st : soe_write_state) : C (bool * soe_write_state) :=
  let* out := ctx_getmbx in
  let* out := deref out in
  do* mbx_clear out in
  let NotLast := maxdata <? sw_left st in
  let framedatasize := if NotLast then maxdata else sw_left st in
  let* fragmentsleft :=
    (if NotLast then
       if maxdata =? 0 then fail DivByZero else ret (u16 (Z.quot (sw_left st) maxdata))
     else ret idn) in
  let* cnt := next_mbxcnt slave in
  do* mbx_write out 0
    (soe_header (u16 (soe_size - 6 + framedatasize)) cnt
       (soe_flags ECT_SOE_WRITEREQ (b2z NotLast) 0 driveNo) elementflags fragmentsleft) in
  let* data := oobC (zslice p (sw_hp st) framedatasize) in
  do* mbx_write out soe_size data in
  let* wkc := ecx_mbxsend slave (Some out) EC_TIMEOUTTXM in
  let st := st <| sw_hp ::= (fun h => h + framedatasize) |>
               <| sw_left ::= (fun n => n - framedatasize) |> <| sw_wkc := wkc |> in
  if 0 <? wkc then
    let* wait :=
      (if NotLast then let* e := ecx_mbxempty slave timeout in ret (e =? 0) else ret true) in
    if (wait : bool)
    then soe_write_answer junk slave driveNo elementflags idn timeout NotLast st
    else ret (NotLast, st)
  else ret (NotLast, st).

Definition ecx_SoEwrite (junk slave driveNo elementflags idn psize : Z) (p : list Z) (timeout : Z)
    : C Z :=
  let* r := ecx_mbxreceive junk slave None 0 in
  let* s := get_slave slave in
  let maxdata := mbx_l s - soe_size in
  let* st := do_while loop_fuel
    (soe_write_step junk slave driveNo elementflags idn maxdata p timeout)
    (SoeWrite 0 psize r.1 r.2) in
  do* drop_mbx (sw_in st) in
  ret (sw_wkc st).

(** ** Mapping *)

(** [ec_SoEmappingt] and [ec_SoEattributet]. *)
Definition SoEmapping_size : Z := 4 + 2 * EC_SOE_MAXMAPPING.
Definition SoEattribute_size : Z := 4.
Definition soe_attr_length (a : Z) : Z := Z.land (Z.shiftr a 16) 3.
Definition soe_attr_list (a : Z) : Z := Z.land (Z.shiftr a 18) 1.

(** The bits one list of IDNs of a drive maps, added to [bits]; the two variables keep what
    was read before. *)
Definition idn_bits (junk slave driveNr config : Z) (r : Z * (list Z * list Z))
    : C (Z * (list Z * list Z)) :=
  let '(bits, (map_, attr)) := r in
  let* m := ecx_SoEread junk slave driveNr EC_SOE_VALUE_B config SoEmapping_size map_ EC_TIMEOUTRXM in
  let map_ := m.2.2 in
  let* len := oobC (field_u16 map_ 0) in
  let entries := len / 2 in
  if (0 <? m.1) && (4 <=? m.2.1) && (0 <? entries) && (entries <=? EC_SOE_MAXMAPPING) then
    let* r := for_range (Z.to_nat entries) (fun itemcount '(bits, attr) =>
        let* idn := oobC (field_u16 map_ (4 + 2 * itemcount)) in
        let* a := ecx_SoEread junk slave driveNr EC_SOE_ATTRIBUTE_B idn SoEattribute_size attr
                    EC_TIMEOUTRXM in
        let attr := a.2.2 in
        let v := of_le attr in
        if (0 <? a.1) && (soe_attr_list v =? 0)
        then ret (u32 (bits + Z.shiftl 8 (soe_attr_length v)), attr)
        else ret (bits, attr)) 0 (u32 (bits + 16), attr) in
    ret (r.1, (map_, r.2))
  else ret (bits, (map_, attr)).

(** The result is the return value with [Osize] and [Isize]; [vars] is what the uninitialised
    variables for a mapping and an attribute hold. *)
Definition ecx_readIDNmap (junk slave : Z) (vars : list Z * list Z) : C (Z * (Z * Z)) :=
  let* r := for_range (Z.to_nat EC_SOE_MAX_DRIVES) (fun driveNr '(sizes, vars) =>
      let* o := idn_bits junk slave driveNr EC_IDN_MDTCONFIG (sizes.1, vars) in
      let* i := idn_bits junk slave driveNr EC_IDN_ATCONFIG (sizes.2, o.2) in
      ret ((o.1, i.1), i.2)) 0 ((0, 0), vars) in
  ret (b2z ((0 <? r.1.2) || (0 <? r.1.1)), r.1).
End SoE.
