(* ===== verification/FoE.v ===== *)
(** * File access over EtherCAT (src/ec_foe.c)

    Reading a file from a slave and writing one to it, packet by packet.  A file name is the
    list of its characters without the final zero; a file buffer of the caller is a list of
    bytes, and the position of the moving pointer is kept beside it. *)

From S2P Require Import Prelude Types Osal ErrorRing Mailbox Context Eeprom AlState MbxHandler MbxClient.

(** [ec_FOEt]: offsets of its fields in a mailbox. *)
Definition FOE_OpCode : Z := 6.
Definition FOE_PacketNumber : Z := 8.
Definition FOE_Data : Z := 12.
Definition EC_MAXFOEDATA : Z := EC_MAXMBX - (6 + 1 + 1 + 4).

Section FoE.
Context {L : Type} `{EcLink L} `{EcFrame L} `{LoopFuel} `{Interference L}.
Abbreviation C := (M (ecx_contextt L)).

Definition ecx_FOEdefinehook (hook : option (Z -> Z -> Z -> L -> L)) : C Z :=
  do* modify (fun c => c <| FOEhook := hook |>) in ret 1.

(** [if (context->FOEhook) context->FOEhook(slave, packetnumber, size)] *)
Definition call_FOEhook (slave packetnumber size : Z) : C unit :=
  let* hook := gets FOEhook in
  match hook with
  | Some h => modify (fun c => c <| link := h slave packetnumber size (link c) |>)
  | None => ret tt
  end.

(** Data bytes of a packet: 16 bits, as the code computes it. *)
Definition foe_maxdata (mbx_l : Z) : Z := u16 (mbx_l - 12).

(** A request: operation, and password, packet number or error code. *)
Definition foe_header (length cnt opcode value : Z) : list Z :=
  mbx_header length ECT_MBXT_FOE cnt ++ [opcode; 0] ++ le_bytes 4 value.

(** Get a mailbox, fill it and send it.  The result of [ecx_getmbx] is not tested. *)
Definition foe_send (slave length opcode value : Z) (data : list Z) : C Z :=
  let* out := ctx_getmbx in
  let* out := deref out in
  do* mbx_clear out in
  let* cnt := next_mbxcnt slave in
  do* mbx_write out 0 (foe_header length cnt opcode value) in
  do* mbx_write out FOE_Data data in
  ecx_mbxsend slave (Some out) EC_TIMEOUTTXM.

(** The request with the file name, cut to what the mailbox holds. *)
Definition foe_request (slave opcode password : Z) (filename : list Z) : C Z :=
  let* s := get_slave slave in
  let maxdata := foe_maxdata (mbx_l s) in
  let fnsize := u16 (zlen filename) in
  let fnsize := if EC_MAXFOEDATA <? fnsize then EC_MAXFOEDATA else fnsize in
  let fnsize := if maxdata <? fnsize then maxdata else fnsize in
  let* nm := oobC (zslice filename 0 fnsize) in
  foe_send slave (0x0006 + fnsize) opcode password nm.

(** ** Reading *)

Record foe_read : Type := FoeRead {
  fr_wkc : Z;
  fr_in : option Z;
  fr_read : Z;
  fr_prev : Z;
  fr_size : Z;
  fr_p : list Z;
}.

(** A data packet: store it, acknowledge it; true when more packets follow. *)
Definition foe_data (slave item maxdata buffersize : Z) (st : foe_read) : C (bool * foe_read) :=
  let* len := get_u16 item 0 in
  let segmentdata := u16 (len - 0x0006) in
  let* pn := get_u32 item FOE_PacketNumber in
  let packetnumber := s32 pn in
  let st := st <| fr_prev := s32 (fr_prev st + 1) |> in
  if (packetnumber =? fr_prev st) && (fr_read st + segmentdata <=? buffersize) then
    let* bs := get_bytes item FOE_Data segmentdata in
    let* p := copy_to (fr_p st) (fr_read st) bs in
    let st := st <| fr_p := p |> <| fr_read ::= (fun n => n + segmentdata) |> in
    let* wkc := foe_send slave 0x0006 ECT_FOE_ACK packetnumber [] in
    do* call_FOEhook slave packetnumber (fr_read st) in
    ret ((segmentdata =? maxdata) && (0 <? wkc), st <| fr_wkc := wkc |>)
  else ret (false, st <| fr_wkc := - EC_ERR_TYPE_FOE_BUF2SMALL |>).

Definition foe_read_step (junk slave maxdata buffersize timeout : Z) (st : foe_read)
    : C (bool * foe_read) :=
  do* drop_mbx (fr_in st) in
  let* r := ecx_mbxreceive junk slave None timeout in
  let st := st <| fr_wkc := r.1 |> <| fr_in := r.2 |> in
  if 0 <? r.1 then
    let* item := deref r.2 in
    let* ty := get_u8 item MBXH_mbxtype in
    let* op := get_u8 item FOE_OpCode in
    let* c :=
      (if Z.land ty 0x0f =? ECT_MBXT_FOE then
         if op =? ECT_FOE_DATA then foe_data slave item maxdata buffersize st
         else if op =? ECT_FOE_ERROR then ret (false, st <| fr_wkc := - EC_ERR_TYPE_FOE_ERROR |>)
         else ret (false, st <| fr_wkc := - EC_ERR_TYPE_PACKET_ERROR |>)
       else ret (false, st <| fr_wkc := - EC_ERR_TYPE_PACKET_ERROR |>)) in
    ret (c.1, c.2 <| fr_size := fr_read c.2 |>)
  else ret (false, st).

(** Read a file: work counter or error, size and buffer. *)
Definition ecx_FOEread (junk slave : Z) (filename : list Z) (password psize : Z) (p : list Z)
    (timeout : Z) : C (Z * (Z * list Z)) :=
  let* r := ecx_mbxreceive junk slave None 0 in
  let* s := get_slave slave in
  let maxdata := foe_maxdata (mbx_l s) in
  let* wkc := foe_request slave ECT_FOE_READ password filename in
  let st := FoeRead wkc r.2 0 0 psize p in
  let* st :=
    (if 0 <? wkc
     then do_while loop_fuel (foe_read_step junk slave maxdata psize timeout) st
     else ret st) in
  do* drop_mbx (fr_in st) in
  ret (fr_wkc st, (fr_size st, fr_p st)).

(** ** Writing *)

(** [w_left] are the bytes not sent yet, [w_pos] the position of the pointer. *)
Record foe_write : Type := FoeWrite {
  w_wkc : Z;
  w_in : option Z;
  w_sendpacket : Z;
  w_segment : Z;
  w_left : Z;
  w_pos : Z;
  w_dofinalzero : bool;
}.

(** Send the next packet, if there is one: at most [maxdata] bytes, and an empty packet after
    a last one of full size. *)
Definition foe_next (slave maxdata : Z) (p : list Z) (st : foe_write) : C (bool * foe_write) :=
  let tsize := if maxdata <? w_left st then maxdata else w_left st in
  if negb (tsize =? 0) || w_dofinalzero st then
    let left := w_left st - tsize in
    let sendpacket := w_sendpacket st + 1 in
    let* data := oobC (zslice p (w_pos st) tsize) in
    let* wkc := foe_send slave (u16 (0x0006 + tsize)) ECT_FOE_DATA sendpacket data in
    ret (0 <? wkc,
         st <| w_wkc := wkc |> <| w_sendpacket := sendpacket |> <| w_segment := tsize |>
            <| w_left := left |> <| w_pos := w_pos st + tsize |>
            <| w_dofinalzero := (left =? 0) && (tsize =? maxdata) |>)
  else ret (false, st).

(** The answer to a packet: an acknowledgement, busy, or an error. *)
Definition foe_write_answer (slave item maxdata : Z) (p : list Z) (st : foe_write)
    : C (bool * foe_write) :=
  let* op := get_u8 item FOE_OpCode in
  let* v := get_u32 item FOE_PacketNumber in
  if op =? ECT_FOE_ACK then
    let packetnumber := s32 v in
    if packetnumber =? w_sendpacket st then
      do* call_FOEhook slave packetnumber (w_left st) in
      foe_next slave maxdata p st
    else ret (false, st <| w_wkc := - EC_ERR_TYPE_FOE_PACKETNUMBER |>)
  else if op =? ECT_FOE_BUSY then
    if w_sendpacket st =? 0 then ret (false, st)
    else
      foe_next slave maxdata p
        (st <| w_left ::= (fun n => n + w_segment st) |> <| w_pos ::= (fun n => n - w_segment st) |>
            <| w_sendpacket ::= (fun n => n - 1) |>)
  else if op =? ECT_FOE_ERROR then
    ret (false, st <| w_wkc := if v =? 0x8001 then - EC_ERR_TYPE_FOE_FILE_NOTFOUND
                               else - EC_ERR_TYPE_FOE_ERROR |>)
  else ret (false, st <| w_wkc := - EC_ERR_TYPE_PACKET_ERROR |>).

Definition foe_write_step (junk slave maxdata : Z) (p : list Z) (timeout : Z) (st : foe_write)
    : C (bool * foe_write) :=
  do* drop_mbx (w_in st) in
  let* r := ecx_mbxreceive junk slave None timeout in
  let st := st <| w_wkc := r.1 |> <| w_in := r.2 |> in
  if 0 <? r.1 then
    let* item := deref r.2 in
    let* ty := get_u8 item MBXH_mbxtype in
    if Z.land ty 0x0f =? ECT_MBXT_FOE then foe_write_answer slave item maxdata p st
    else ret (false, st <| w_wkc := - EC_ERR_TYPE_PACKET_ERROR |>)
  else ret (false, st).

Definition ecx_FOEwrite (junk slave : Z) (filename : list Z) (password psize : Z) (p : list Z)
    (timeout : Z) : C Z :=
  let* r := ecx_mbxreceive junk slave None 0 in
  let* s := get_slave slave in
  let maxdata := foe_maxdata (mbx_l s) in
  let* wkc := foe_request slave ECT_FOE_WRITE password filename in
  let st := FoeWrite wkc r.2 0 0 psize 0 true in
  let* st :=
    (if 0 <? wkc
     then do_while loop_fuel (foe_write_step junk slave maxdata p timeout) st
     else ret st) in
  do* drop_mbx (w_in st) in
  ret (w_wkc st).
End FoE.
