(* ===== verification/EoE.v ===== *)
(** * Ethernet over EtherCAT (src/ec_eoe.c)

    The IP parameters of a slave, and Ethernet frames in fragments.  The number of the last
    frame sent, a static variable of [ecx_EOEsend], is passed and returned. *)

From S2P Require Import Prelude Types Osal ErrorRing Mailbox Context Eeprom AlState MbxHandler MbxClient.

(** [ec_EOEt]: offsets of its fields in a mailbox. *)
Definition EOE_frameinfo2 : Z := 8.
Definition EOE_data : Z := 10.

(** ** The two words of frame information *)
Definition EOE_HDR_FRAME_TYPE_SET (x : Z) : Z := Z.land x 0xF.
Definition EOE_HDR_FRAME_PORT_SET (x : Z) : Z := Z.shiftl (Z.land x 0xF) 4.
Definition EOE_HDR_FRAME_PORT_GET (x : Z) : Z := Z.land (Z.shiftr x 4) 0xF.
Definition EOE_HDR_LAST_FRAGMENT : Z := 0x100.
Definition EOE_HDR_LAST_FRAGMENT_SET (x : Z) : Z := Z.shiftl (Z.land x 0x1) 8.
Definition EOE_HDR_LAST_FRAGMENT_GET (x : Z) : Z := Z.land (Z.shiftr x 8) 0x1.
Definition EOE_HDR_TIME_APPEND_GET (x : Z) : Z := Z.land (Z.shiftr x 9) 0x1.
Definition EOE_HDR_FRAG_NO_SET (x : Z) : Z := Z.land x 0x3F.
Definition EOE_HDR_FRAG_NO_GET (x : Z) : Z := Z.land x 0x3F.
Definition EOE_HDR_FRAME_OFFSET_SET (x : Z) : Z := Z.shiftl (Z.land x 0x3F) 6.
Definition EOE_HDR_FRAME_OFFSET_GET (x : Z) : Z := Z.land (Z.shiftr x 6) 0x3F.
Definition EOE_HDR_FRAME_NO_SET (x : Z) : Z := Z.shiftl (Z.land x 0xF) 12.
Definition EOE_HDR_FRAME_NO_GET (x : Z) : Z := Z.land (Z.shiftr x 12) 0xF.

Definition EOE_PARAM_OFFSET : Z := 4.
Definition EOE_PARAM_MAC_INCLUDE : Z := 0x01.
Definition EOE_PARAM_IP_INCLUDE : Z := 0x02.
Definition EOE_PARAM_SUBNET_IP_INCLUDE : Z := 0x04.
Definition EOE_PARAM_DEFAULT_GATEWAY_INCLUDE : Z := 0x08.
Definition EOE_PARAM_DNS_IP_INCLUDE : Z := 0x10.
Definition EOE_PARAM_DNS_NAME_INCLUDE : Z := 0x20.
Definition EOE_INIT_REQ : Z := 2.
Definition EOE_INIT_RESP : Z := 3.
Definition EOE_GET_IP_PARAM_REQ : Z := 6.
Definition EOE_GET_IP_PARAM_RESP : Z := 7.
Definition EOE_RESULT_SUCCESS : Z := 0x0000.
Definition EOE_RESULT_UNSUPPORTED_FRAME_TYPE : Z := 0x0002.
Definition EOE_ETHADDR_LENGTH : Z := 6.
Definition EOE_IP4_LENGTH : Z := 4.
Definition EOE_DNS_NAME_LENGTH : Z := 32.

(** ** IP parameters *)

(** [eoe_param_t]; a parameter that is not set is none.  An IP address is the number in
    network order, as [eoe_ip4_addr_t] has it. *)
Record eoe_param_t : Type := EoeParam {
  mac_set : bool; mac : list Z;
  ip_set : bool; ip : Z;
  subnet_set : bool; subnet : Z;
  default_gateway_set : bool; default_gateway : Z;
  dns_ip_set : bool; dns_ip : Z;
  dns_name_set : bool; dns_name : list Z;
}.

Definition EOE_MAKEU32 (a b c d : Z) : Z :=
  Z.lor (Z.lor (Z.shiftl (Z.land a 0xff) 24) (Z.shiftl (Z.land b 0xff) 16))
        (Z.lor (Z.shiftl (Z.land c 0xff) 8) (Z.land d 0xff)).
Definition EOE_HTONL (x : Z) : Z :=
  Z.lor (Z.lor (Z.shiftl (Z.land x 0xff) 24) (Z.shiftl (Z.land x 0xff00) 8))
        (Z.lor (Z.shiftr (Z.land x 0xff0000) 8) (Z.shiftr (Z.land x 0xff000000) 24)).

(** The octets of an address, the fourth first. *)
Definition EOE_ip_uint32_to_byte (addr : Z) : list Z := rev (le_bytes 4 addr).
Definition EOE_ip_byte_to_uint32 (byte_ip : list Z) : Z :=
  match byte_ip with
  | [b0; b1; b2; b3] => EOE_HTONL (EOE_MAKEU32 b3 b2 b1 b0)
  | _ => 0
  end.

(** The parameters of a request: the flags and the data after them. *)
Definition eoe_params (q : eoe_param_t) : Z * list Z :=
  let item (b : bool) flag bytes := if b then (flag, bytes) else (0, []) in
  let l := [item (mac_set q) EOE_PARAM_MAC_INCLUDE (mac q);
            item (ip_set q) EOE_PARAM_IP_INCLUDE (EOE_ip_uint32_to_byte (ip q));
            item (subnet_set q) EOE_PARAM_SUBNET_IP_INCLUDE (EOE_ip_uint32_to_byte (subnet q));
            item (default_gateway_set q) EOE_PARAM_DEFAULT_GATEWAY_INCLUDE
              (EOE_ip_uint32_to_byte (default_gateway q));
            item (dns_ip_set q) EOE_PARAM_DNS_IP_INCLUDE (EOE_ip_uint32_to_byte (dns_ip q));
            item (dns_name_set q) EOE_PARAM_DNS_NAME_INCLUDE (dns_name q)] in
  (fold_right (fun x acc => Z.lor x.1 acc) 0 l, concat (map snd l)).

Section EoE.
Context {L : Type} `{EcLink L} `{EcFrame L} `{LoopFuel} `{Interference L}.
Abbreviation C := (M (ecx_contextt L)).

Definition ecx_EOEdefinehook (hook : option (Z -> list Z -> Z)) : C Z :=
  do* modify (fun c => c <| EOEhook := hook |>) in ret 1.

(** The request of an IP service: [data] starts with the flags and three unused bytes. *)
Definition eoe_header (length cnt frameinfo1 frameinfo2 : Z) : list Z :=
  mbx_header length ECT_MBXT_EOE cnt ++ le_bytes 2 frameinfo1 ++ le_bytes 2 frameinfo2.

(** Send a request and treat the answer with [answer], which gives a work counter or error. *)
Definition eoe_exchange {A} (junk slave port type length timeout : Z) (data : list Z) (a : A)
    (answer : Z -> Z -> C (Z * A)) : C (Z * A) :=
  let* r := ecx_mbxreceive junk slave None 0 in
  let* out := ctx_getmbx in
  let* out := deref out in
  do* mbx_clear out in
  let* cnt := next_mbxcnt slave in
  let info := Z.lor (Z.lor (EOE_HDR_FRAME_TYPE_SET type) (EOE_HDR_FRAME_PORT_SET port))
                    EOE_HDR_LAST_FRAGMENT in
  do* mbx_write out 0 (eoe_header length cnt info 0) in
  do* mbx_write out EOE_data data in
  let* wkc := ecx_mbxsend slave (Some out) EC_TIMEOUTTXM in
  if 0 <? wkc then
    do* drop_mbx r.2 in
    let* x := ecx_mbxreceive junk slave None timeout in
    let* res :=
      (if 0 <? x.1 then
         let* item := deref x.2 in
         let* ty := get_u8 item MBXH_mbxtype in
         if Z.land ty 0x0f =? ECT_MBXT_EOE then answer item x.1
         else ret (- EC_ERR_TYPE_PACKET_ERROR, a)
       else ret (x.1, a)) in
    do* drop_mbx x.2 in
    ret res
  else
    do* drop_mbx r.2 in
    ret (wkc, a).

Definition ecx_EOEsetIp (junk slave port : Z) (ipparam : eoe_param_t) (timeout : Z) : C Z :=
  let p := eoe_params ipparam in
  let data_offset := u8 (EOE_PARAM_OFFSET + zlen p.2) in
  let* r := eoe_exchange junk slave port EOE_INIT_REQ (EOE_PARAM_OFFSET + data_offset) timeout
    ([p.1; 0; 0; 0] ++ p.2) tt
    (fun item wkc =>
       let* info := get_u16 item EOE_frameinfo1 in
       let* result := get_u16 item EOE_frameinfo2 in
       if negb (EOE_HDR_FRAME_TYPE_GET info =? EOE_INIT_RESP) || negb (result =? EOE_RESULT_SUCCESS)
       then ret (- result, tt) else ret (wkc, tt)) in
  ret r.1.

(** One parameter of the answer, if its flag is set; [off] is the offset of the next one. *)
Definition eoe_get_param (item flags flag n : Z) (store : list Z -> eoe_param_t -> eoe_param_t)
    (r : Z * eoe_param_t) : C (Z * eoe_param_t) :=
  if negb (Z.land flags flag =? 0) then
    let* bs := get_bytes item (EOE_data + r.1) n in
    ret (u8 (r.1 + n), store bs r.2)
  else ret r.

(** The name is cut to the data of the mailbox, in 16 bits; the offset always moves by its
    full length. *)
Definition eoe_get_name (item flags eoedatasize : Z) (r : Z * eoe_param_t) : C (Z * eoe_param_t) :=
  if negb (Z.land flags EOE_PARAM_DNS_NAME_INCLUDE =? 0) then
    let dns_len := if eoedatasize - r.1 <? EOE_DNS_NAME_LENGTH then u16 (eoedatasize - r.1)
                   else EOE_DNS_NAME_LENGTH in
    let* bs := get_bytes item (EOE_data + r.1) dns_len in
    let* nm := copy_to (dns_name r.2) 0 bs in
    ret (u8 (r.1 + EOE_DNS_NAME_LENGTH), r.2 <| dns_name := nm |> <| dns_name_set := true |>)
  else ret r.

Definition eoe_get_params (item wkc : Z) (q : eoe_param_t) : C (Z * eoe_param_t) :=
  let* info := get_u16 item EOE_frameinfo1 in
  let* len := get_u16 item 0 in
  let eoedatasize := u16 (len - 0x0004) in
  if negb (EOE_HDR_FRAME_TYPE_GET info =? EOE_GET_IP_PARAM_RESP)
  then ret (- EOE_RESULT_UNSUPPORTED_FRAME_TYPE, q)
  else
    let* flags := get_u8 item EOE_data in
    let* r := eoe_get_param item flags EOE_PARAM_MAC_INCLUDE EOE_ETHADDR_LENGTH
      (fun bs q => q <| mac := bs |> <| mac_set := true |>) (EOE_PARAM_OFFSET, q) in
    let* r := eoe_get_param item flags EOE_PARAM_IP_INCLUDE EOE_IP4_LENGTH
      (fun bs q => q <| ip := EOE_ip_byte_to_uint32 bs |> <| ip_set := true |>) r in
    let* r := eoe_get_param item flags EOE_PARAM_SUBNET_IP_INCLUDE EOE_IP4_LENGTH
      (fun bs q => q <| subnet := EOE_ip_byte_to_uint32 bs |> <| subnet_set := true |>) r in
    let* r := eoe_get_param item flags EOE_PARAM_DEFAULT_GATEWAY_INCLUDE EOE_IP4_LENGTH
      (fun bs q => q <| default_gateway := EOE_ip_byte_to_uint32 bs |>
                     <| default_gateway_set := true |>) r in
    let* r := eoe_get_param item flags EOE_PARAM_DNS_IP_INCLUDE EOE_IP4_LENGTH
      (fun bs q => q <| dns_ip := EOE_ip_byte_to_uint32 bs |> <| dns_ip_set := true |>) r in
    let* r := eoe_get_name item flags eoedatasize r in
    ret (if eoedatasize <? r.1 then - EC_ERR_TYPE_MBX_ERROR else wkc, r.2).

Definition ecx_EOEgetIp (junk slave port : Z) (ipparam : eoe_param_t) (timeout : Z)
    : C (Z * eoe_param_t) :=
  eoe_exchange junk slave port EOE_GET_IP_PARAM_REQ 0x0004 timeout [0] ipparam
    (fun item wkc => eoe_get_params item wkc ipparam).

(** ** Frames in fragments *)

(** Size of the fragment at [txframeoffset]: what is left, or whole blocks of 32 bytes. *)
Definition eoe_fragment_size (maxdata psize txframeoffset : Z) : Z :=
  let left := psize - txframeoffset in
  if maxdata <? left then Z.shiftl (Z.shiftr maxdata 5) 5 else left.

(** The frame information of fragment [txfragmentno]: the first one has the size of the frame
    in blocks, the others the offset. *)
Definition eoe_frameinfo1 (port : Z) (last : bool) : Z :=
  if last then Z.lor (EOE_HDR_LAST_FRAGMENT_SET 1) (EOE_HDR_FRAME_PORT_SET port)
  else EOE_HDR_FRAME_PORT_SET port.
Definition eoe_frameinfo2 (psize txframeoffset txfragmentno txframeno : Z) : Z :=
  Z.lor
    (Z.lor (EOE_HDR_FRAG_NO_SET txfragmentno)
       (EOE_HDR_FRAME_OFFSET_SET
          (if 0 <? txfragmentno then Z.shiftr txframeoffset 5 else Z.shiftr (psize + 31) 5)))
    (EOE_HDR_FRAME_NO_SET txframeno).

(** What the loop keeps: fragment number, offset, work counter, frame number. *)
Record eoe_tx : Type := EoeTx { tx_no : Z; tx_offset : Z; tx_wkc : Z; tx_frame : Z }.

Definition eoe_send_step (slave port maxdata psize : Z) (p : list Z) (timeout : Z) (st : eoe_tx)
    : C (bool * eoe_tx) :=
  let* out := ctx_getmbx in
  let* out := deref out in
  do* mbx_clear out in
  let size := eoe_fragment_size maxdata psize (tx_offset st) in
  let last := size =? psize - tx_offset st in
  let frame := if 0 <? tx_no st then tx_frame st else u8 (tx_frame st + 1) in
  let* cnt := next_mbxcnt slave in
  do* mbx_write out 0
    (eoe_header (u16 (4 + size)) cnt (eoe_frameinfo1 port last)
       (eoe_frameinfo2 psize (tx_offset st) (tx_no st) frame)) in
  let* data := oobC (zslice p (tx_offset st) size) in
  do* mbx_write out EOE_data data in
  let* wkc := ecx_mbxsend slave (Some out) timeout in
  let st := st <| tx_wkc := wkc |> <| tx_frame := frame |> in
  if negb last && (0 <? wkc)
  then ret (true, st <| tx_offset ::= (fun o => o + size) |> <| tx_no ::= (fun n => u8 (n + 1)) |>)
  else ret (false, st).

(** Send a frame: work counter, and the static frame number. *)
Definition ecx_EOEsend (txframeno slave port psize : Z) (p : list Z) (timeout : Z) : C (Z * Z) :=
  let* s := get_slave slave in
  let maxdata := mbx_l s - 0x0A in
  if maxdata <? 0 then ret (-1, txframeno)
  else
    let* st := do_while loop_fuel (eoe_send_step slave port maxdata psize p timeout)
                 (EoeTx 0 0 0 txframeno) in
    ret (tx_wkc st, tx_frame st).

(** What the receiving loop keeps. *)
Record eoe_rx : Type := EoeRx {
  rx_wkc : Z;
  rx_in : option Z;
  rx_no : Z;
  rx_frameno : Z;
  rx_offset : Z;
  rx_size : Z;
  rx_p : list Z;
}.

(** Does the fragment continue the frame?  The first one must fit the buffer and be for the
    port; the others must have the number of the frame and the offset reached. *)
Definition eoe_rx_ok (port buffersize info1 info2 : Z) (st : eoe_rx) : bool :=
  let no := EOE_HDR_FRAG_NO_GET info2 in
  ((rx_no st =? no) || negb (0 <? no))
  && (if rx_no st =? 0
      then negb (buffersize <? Z.shiftl (EOE_HDR_FRAME_OFFSET_GET info2) 5)
           && (port =? EOE_HDR_FRAME_PORT_GET info1)
      else (rx_frameno st =? EOE_HDR_FRAME_NO_GET info2)
           && (rx_offset st =? Z.shiftl (EOE_HDR_FRAME_OFFSET_GET info2) 5)).

(** A fragment: copy it if it fits; the time stamp of the last one is cut off. *)
Definition eoe_rx_fragment (junk slave port buffersize timeout item : Z) (st : eoe_rx)
    : C (bool * eoe_rx) :=
  let* len := get_u16 item 0 in
  let eoedatasize := len - 0x0004 in
  let* info1 := get_u16 item EOE_frameinfo1 in
  let* info2 := get_u16 item EOE_frameinfo2 in
  if negb (eoe_rx_ok port buffersize info1 info2 st)
  then ret (false, st <| rx_wkc := - EC_ERR_TYPE_EOE_INVALID_RX_DATA |>)
  else
    let st := if rx_no st =? 0 then st <| rx_frameno := EOE_HDR_FRAME_NO_GET info2 |> else st in
    let* st :=
      (if rx_offset st + eoedatasize <=? buffersize then
         let* bs := get_bytes item EOE_data eoedatasize in
         let* p := copy_to (rx_p st) (rx_offset st) bs in
         ret (st <| rx_p := p |> <| rx_offset ::= (fun o => o + eoedatasize) |>
                 <| rx_no ::= (fun n => u8 (n + 1)) |>)
       else ret st) in
    if negb (EOE_HDR_LAST_FRAGMENT_GET info1 =? 0) then
      let off := if negb (EOE_HDR_TIME_APPEND_GET info1 =? 0) then rx_offset st - 4 else rx_offset st in
      ret (false, st <| rx_offset := off |> <| rx_size := off |>)
    else
      do* drop_mbx (rx_in st) in
      let* r := ecx_mbxreceive junk slave None timeout in
      ret (true, st <| rx_wkc := r.1 |> <| rx_in := r.2 |>).

Definition eoe_recv_step (junk slave port buffersize timeout : Z) (st : eoe_rx)
    : C (bool * eoe_rx) :=
  if 0 <? rx_wkc st then
    let* item := deref (rx_in st) in
    let* ty := get_u8 item MBXH_mbxtype in
    if Z.land ty 0x0f =? ECT_MBXT_EOE
    then eoe_rx_fragment junk slave port buffersize timeout item st
    else ret (false, st <| rx_wkc := - EC_ERR_TYPE_PACKET_ERROR |>)
  else ret (false, st).

(** Receive a frame: work counter or error, size and buffer. *)
Definition ecx_EOErecv (junk slave port psize : Z) (p : list Z) (timeout : Z)
    : C (Z * (Z * list Z)) :=
  let* r := ecx_mbxreceive junk slave None timeout in
  let* st := do_while loop_fuel (eoe_recv_step junk slave port psize timeout)
               (EoeRx r.1 r.2 0 0xff 0 psize p) in
  do* drop_mbx (rx_in st) in
  ret (rx_wkc st, (rx_size st, rx_p st)).
End EoE.

(** ** The fragment reader of an application

    [ecx_EOEreadfragment] has its state with the caller: fragment number, size, offset and
    number of the frame. *)
Record eoe_reader : Type := EoeReader {
  rxfragmentno : Z;
  rxframesize : Z;
  rxframeoffset : Z;
  rxframeno : Z;
}.
Definition eoe_reader_zero : eoe_reader := EoeReader 0 0 0 0.

(** The checks of the fragment number, the frame number and the offset: the state after them,
    or a rejected fragment with the state it leaves. *)
Definition eoe_reader_check (info2 : Z) (st : eoe_reader) : eoe_reader + eoe_reader :=
  let no := EOE_HDR_FRAG_NO_GET info2 in
  let st' := if negb (rxfragmentno st =? no) && negb (rxfragmentno st =? 0) then eoe_reader_zero else st in
  if negb (rxfragmentno st =? no) && (0 <? no) then inr st'
  else if rxfragmentno st' =? 0 then
    inl (EoeReader 0 (u16 (Z.shiftl (EOE_HDR_FRAME_OFFSET_GET info2) 5)) 0
           (EOE_HDR_FRAME_NO_GET info2))
  else if (rxframeno st' =? EOE_HDR_FRAME_NO_GET info2)
          && (rxframeoffset st' =? Z.shiftl (EOE_HDR_FRAME_OFFSET_GET info2) 5)
  then inl st' else inr eoe_reader_zero.

(** The result: 0 for a fragment, 1 for the last one, or an error, with the state, the size
    and the buffer of the frame; none is an access outside the mailbox or the buffer. *)
Definition ecx_EOEreadfragment (MbxIn : list Z) (st : eoe_reader) (psize : Z) (p : list Z)
    : option (Z * eoe_reader * Z * list Z) :=
  ty ← field_u8 MbxIn MBXH_mbxtype;
  if Z.land ty 0x0f =? ECT_MBXT_EOE then
    len ← field_u16 MbxIn 0;
    info1 ← field_u16 MbxIn EOE_frameinfo1;
    info2 ← field_u16 MbxIn EOE_frameinfo2;
    let eoedatasize := u16 (len - 0x0004) in
    match eoe_reader_check info2 st with
    | inr st => Some (- EC_ERR_TYPE_EOE_INVALID_RX_DATA, st, psize, p)
    | inl st =>
        let fin := rxframeoffset st + eoedatasize in
        r ← (if (fin <=? rxframesize st) && (fin <=? psize) then
               bs ← zslice MbxIn EOE_data eoedatasize;
               p' ← zblit p (rxframeoffset st) bs;
               Some (st <| rxframeoffset := u16 fin |> <| rxfragmentno ::= (fun n => u8 (n + 1)) |>, p')
             else Some (st, p));
        if negb (EOE_HDR_LAST_FRAGMENT_GET info1 =? 0) then
          let off := if negb (EOE_HDR_TIME_APPEND_GET info1 =? 0)
                     then u16 (rxframeoffset r.1 - 4) else rxframeoffset r.1 in
          Some (1, eoe_reader_zero, off, r.2)
        else Some (0, r.1, psize, r.2)
    end
  else Some (- EC_ERR_TYPE_PACKET_ERROR, st, psize, p).
