(* ===== verification/Config.v ===== *)
(** * Network configuration (src/ec_config.c)

    Clearing the context, counting the slaves on the network, setting them to their defaults,
    and the enumeration [ecx_config_init]: addresses, identity from the EEPROM, topology with
    the parent of each slave, mailboxes and sync managers from the SII; then the functions
    that bring a lost slave back.  The process data mapping is in MapGroup.v. *)

From S2P Require Import Prelude Types Osal ErrorRing Mailbox Context Eeprom Sii AlState MbxHandler MbxClient CoE.

Definition EC_DEFAULTMBXSM0 : Z := 0x00010026.
Definition EC_DEFAULTMBXSM1 : Z := 0x00010022.

(** What [memset] leaves in a transmit queue and in a group. *)
Definition ec_mbxqueue_zero : MbxQueue.ec_mbxqueuet :=
  let n := Z.to_nat EC_MBXPOOLSIZE in
  MbxQueue.EcMbxQueue 0 0 0 (replicate n None) (replicate n 0) (replicate n 0) (replicate n 0)
    (replicate n 0).
Definition ec_group_zero : ec_groupt :=
  EcGroup 0 0 0 0 0 false 0 0 0 0 0 (replicate (Z.to_nat EC_MAXIOSEGMENTS) 0) None 0
    (replicate (Z.to_nat EC_MAXSLAVE) 0) 0 ec_mbxqueue_zero 0 0 0.

(** [%8.8x]: eight hexadecimal digits. *)
Definition hex_digit (d : Z) : Z := if d <? 10 then 48 + d else 87 + d.
Fixpoint hex_digits (n : nat) (v : Z) : list Z :=
  match n with
  | O => []
  | S n => hex_digits n (v / 16) ++ [hex_digit (v mod 16)]
  end.
(** [snprintf(name, EC_MAXNAME, "? M:%8.8x I:%8.8x", man, id)] *)
Definition constructed_name (man id : Z) : list Z :=
  [63; 32; 77; 58] ++ hex_digits 8 man ++ [32; 73; 58] ++ hex_digits 8 id ++ [0].

(** ** Topology *)

(** Number and mask of the ports that are open with communication established, from the DL
    status register. *)
Definition open_ports (topology : Z) : Z * Z :=
  let p0 := Z.land topology 0x0300 =? 0x0200 in
  let p1 := Z.land topology 0x0c00 =? 0x0800 in
  let p2 := Z.land topology 0x3000 =? 0x2000 in
  let p3 := Z.land topology 0xc000 =? 0x8000 in
  (b2z p0 + b2z p1 + b2z p2 + b2z p3,
   Z.lor (Z.lor (if p0 then 1 else 0) (if p1 then 2 else 0))
         (Z.lor (if p2 then 4 else 0) (if p3 then 8 else 0))).

(** The change of the count of open branches at a slave of this topology: an end point closes
    one, a split opens one, a cross two. *)
Definition topo_step (topology topoc : Z) : Z :=
  if topology =? 1 then topoc - 1
  else if topology =? 3 then topoc + 1
  else if topology =? 4 then topoc + 2
  else topoc.

Section Config.
Context {L : Type} `{EcLink L} `{EcFrame L} `{LoopFuel} `{Interference L}.
Abbreviation C := (M (ecx_contextt L)).

(** ** Words and loops over the slaves *)

Definition ctx_APRDw (ADP ADO timeout : Z) : C Z :=
  let* r := ctx_APRD ADP ADO 2 [0; 0] timeout in ret (of_le r.2).
Definition ctx_FPRDw (ADP ADO timeout : Z) : C Z :=
  let* r := ctx_FPRD ADP ADO 2 [0; 0] timeout in ret (of_le r.2).
Definition ctx_APWRw (ADP ADO data timeout : Z) : C Z :=
  ctx_APWR ADP ADO 2 (le_bytes 2 data) timeout.
Definition ctx_FPWRw (ADP ADO data timeout : Z) : C Z :=
  ctx_FPWR ADP ADO 2 (le_bytes 2 data) timeout.
(** A call whose result is not used. *)
Definition ignore {A} (m : C A) : C unit := let* _r := m in ret tt.

(** [for (slave = 1; slave <= slavecount; slave++)] *)
Definition for_slaves {A} (body : Z -> A -> C A) (a : A) : C A :=
  let* n := gets slavecount in for_range (Z.to_nat n) body 1 a.
Definition each_slave (body : Z -> C unit) : C unit := for_slaves (fun slave _ => body slave) tt.

(** ** The context and the slaves at their defaults *)

Definition ecx_init_context : C unit :=
  do* modify (fun c => c <| slavecount := 0 |>
                         <| slavelist := replicate (length (slavelist c)) ec_slave_zero |>
                         <| grouplist := replicate (length (grouplist c)) ec_group_zero |>) in
  do* ignore (ecx_siigetbyte 0 EC_MAXEEPBUF) in
  for_range (Z.to_nat EC_MAXGROUP) (fun lp _ =>
      do* mod_group lp (fun g => g <| logstartaddr := Z.shiftl lp EC_LOGGROUPOFFSET |>) in
      ignore (onqueue lp MbxQueue.ecx_initmbxqueue)) 0 tt.

(** A write to all slaves of the value [v] of [n] bytes. *)
Definition write_all (ADO n v : Z) : C unit :=
  ignore (ctx_BWR 0x0000 ADO n (le_bytes (Z.to_nat n) v) EC_TIMEOUTRET3).

(** The work counter of the broadcast read is the number of slaves. *)
Definition ecx_detect_slaves : C Z :=
  do* write_all ECT_REG_DLALIAS 1 0x00 in
  do* write_all ECT_REG_ALCTL 2 (Z.lor EC_STATE_INIT EC_STATE_ACK) in
  do* write_all ECT_REG_ALCTL 2 (Z.lor EC_STATE_INIT EC_STATE_ACK) in
  let* r := ctx_BRD 0x0000 ECT_REG_TYPE 2 (le_bytes 2 (Z.lor EC_STATE_INIT EC_STATE_ACK))
              EC_TIMEOUTSAFE in
  let wkc := r.1 in
  if 0 <? wkc then
    if wkc <? EC_MAXSLAVE then
      do* modify (fun c => c <| slavecount := wkc |>) in
      ret wkc
    else ret EC_SLAVECOUNTEXCEEDED
  else ret wkc.

Definition ecx_set_slaves_to_default : C unit :=
  do* write_all ECT_REG_DLPORT 1 0x00 in
  do* write_all ECT_REG_IRQMASK 2 0x0004 in
  do* write_all ECT_REG_RXERR 8 0 in
  do* write_all ECT_REG_FMMU0 (16 * 3) 0 in
  do* write_all ECT_REG_SM0 (8 * 4) 0 in
  do* write_all ECT_REG_DCSYNCACT 1 0x00 in
  do* write_all ECT_REG_DCSYSTIME 4 0 in
  do* write_all ECT_REG_DCSPEEDCNT 2 0x1000 in
  do* write_all ECT_REG_DCTIMEFILT 2 0x0c00 in
  do* write_all ECT_REG_DLALIAS 1 0x00 in
  do* write_all ECT_REG_ALCTL 2 (Z.lor EC_STATE_INIT EC_STATE_ACK) in
  do* write_all ECT_REG_EEPCFG 1 2 in
  write_all ECT_REG_EEPCFG 1 0.

(** ** Data of an earlier slave of the same kind *)

Definition same_id (a b : ec_slavet) : bool :=
  (eep_man a =? eep_man b) && (eep_id a =? eep_id b) && (eep_rev a =? eep_rev b).

(** The first slave from [i] on with the identity of [slave]; it ends at [slave]. *)
Definition find_same (slave : Z) : C Z :=
  do_while (Z.to_nat slave) (fun i =>
    let* a := get_slave i in
    let* b := get_slave slave in
    if negb (same_id a b) && (i <? slave) then ret (true, i + 1) else ret (false, i)) 1.

Definition ecx_lookup_prev_sii (slave : Z) : C bool :=
  let* n := gets slavecount in
  if (1 <? slave) && (0 <? n) then
    let* i := find_same slave in
    if i <? slave then
      let* p := get_slave i in
      do* mod_slave slave (fun s => s <| CoEdetails := CoEdetails p |> <| FoEdetails := FoEdetails p |>
            <| EoEdetails := EoEdetails p |> <| SoEdetails := SoEdetails p |>) in
      do* when (0 <? s_blockLRW p)
        (do* mod_slave slave (fun s => s <| s_blockLRW := 1 |>) in
         mod_slave 0 (fun s => s <| s_blockLRW ::= (fun n => u8 (n + 1)) |>)) in
      do* mod_slave slave (fun s => s <| Ebuscurrent := Ebuscurrent p |>) in
      do* mod_slave 0 (fun s => s <| Ebuscurrent ::= (fun n => s16 (n + Ebuscurrent p)) |>) in
      do* mod_slave slave (fun s => s <| name := name p |> <| SM := SM p |>
            <| FMMU0func := FMMU0func p |> <| FMMU1func := FMMU1func p |>
            <| FMMU2func := FMMU2func p |> <| FMMU3func := FMMU3func p |>) in
      ret true
    else ret false
  else ret false.

(** ** Enumeration *)

(** Address of a slave by its position. *)
Definition auto_address (slave : Z) : Z := u16 (1 - slave).

(** Node address, alias, and whether the EEPROM reads eight bytes; then the first EEPROM read
    is started.  The two variables keep their value when a read fails. *)
Definition init_address (slave : Z) (vars : list Z * list Z) : C (list Z * list Z) :=
  let ADPh := auto_address slave in
  let* val16 := ctx_APRDw ADPh ECT_REG_PDICTL EC_TIMEOUTRET3 in
  do* mod_slave slave (fun s => s <| Itype := val16 |>) in
  do* ignore (ctx_APWRw ADPh ECT_REG_STADR (slave + EC_NODEOFFSET) EC_TIMEOUTRET3) in
  let b := if slave =? 1 then 1 else 0 in
  do* ignore (ctx_APWRw ADPh ECT_REG_DLCTL b EC_TIMEOUTRET3) in
  let* adr := ctx_APRDw ADPh ECT_REG_STADR EC_TIMEOUTRET3 in
  do* mod_slave slave (fun s => s <| configadr := adr |>) in
  let* al := ctx_FPRD adr ECT_REG_ALIAS 2 vars.1 EC_TIMEOUTRET3 in
  do* mod_slave slave (fun s => s <| aliasadr := of_le al.2 |>) in
  let* es := ctx_FPRD adr ECT_REG_EEPSTAT 2 vars.2 EC_TIMEOUTRET3 in
  do* when (negb (Z.land (of_le es.2) EC_ESTAT_R64 =? 0))
    (mod_slave slave (fun s => s <| eep_8byte := 1 |>)) in
  do* ecx_readeeprom1 slave ECT_SII_MANUF in
  ret (al.2, es.2).

(** Take the EEPROM value that was asked for and ask for the next one. *)
Definition take_eeprom (next : Z) (store : Z -> ec_slavet -> ec_slavet) (slave : Z) : C unit :=
  let* eedat := ecx_readeeprom2 slave EC_TIMEOUTEEP in
  do* mod_slave slave (store eedat) in
  ecx_readeeprom1 slave next.

(** Write mailbox; the read mailbox is asked for when there is one. *)
Definition take_rxmailbox (slave : Z) : C unit :=
  let* eedat := ecx_readeeprom2 slave EC_TIMEOUTEEP in
  do* mod_slave slave (fun s => s <| mbx_wo := u16 (LO_WORD eedat) |> <| mbx_l := u16 (HI_WORD eedat) |>) in
  let* s := get_slave slave in
  when (0 <? mbx_l s) (ecx_readeeprom1 slave ECT_SII_TXMBXADR).

Definition take_txmailbox (slave : Z) : C unit :=
  let* s := get_slave slave in
  when (0 <? mbx_l s)
    (let* eedat := ecx_readeeprom2 slave EC_TIMEOUTEEP in
     let rl := u16 (HI_WORD eedat) in
     do* mod_slave slave (fun s => s <| mbx_ro := u16 (LO_WORD eedat) |>
                                     <| mbx_rl := if rl =? 0 then mbx_l s else rl |>) in
     ecx_readeeprom1 slave ECT_SII_MBXPROTO).

(** The parent: back through the slaves to the first one with a branch still open. *)
Definition find_parent (slave : Z) : C Z :=
  let* r := do_while (Z.to_nat slave) (fun '(topoc, slavec, par) =>
      let* s := get_slave slavec in
      let topoc := topo_step (topology s) topoc in
      let found := ((0 <=? topoc) && (1 <? topology s)) || (slavec =? 1) in
      let par := if found then slavec else par in
      let slavec := if found then 0 else slavec - 1 in
      ret (0 <? slavec, (topoc, slavec, par))) (0, slave - 1, 0) in
  ret r.2.

Definition init_topology (slave : Z) : C unit :=
  let* s := get_slave slave in
  let adr := configadr s in
  let* sup := ctx_FPRDw adr ECT_REG_ESCSUP EC_TIMEOUTRET3 in
  do* mod_slave slave (fun s => s <| s_hasdc := 0 <? Z.land sup 0x04 |>) in
  let* topo := ctx_FPRDw adr ECT_REG_DLSTAT EC_TIMEOUTRET3 in
  let* ports := ctx_FPRDw adr ECT_REG_PORTDES EC_TIMEOUTRET3 in
  do* mod_slave slave (fun s => s <| ptype := LO_BYTE ports |> <| topology := (open_ports topo).1 |>
                                  <| activeports := (open_ports topo).2 |> <| parent := 0 |>) in
  when (1 <? slave) (let* p := find_parent slave in
                     mod_slave slave (fun s => s <| parent := p |>)).

(** Set a sync manager, and its type. *)
Definition put_sm (slave i adr length flags : Z) : C unit :=
  mod_sm slave i (fun _ => EcSm adr length flags).

Definition default_mailbox (slave : Z) : C unit :=
  let* s := get_slave slave in
  when (0 <? mbx_l s)
    (do* set_smtype slave 0 1 in
     do* set_smtype slave 1 2 in
     do* set_smtype slave 2 3 in
     do* set_smtype slave 3 4 in
     do* put_sm slave 0 (mbx_wo s) (mbx_l s) EC_DEFAULTMBXSM0 in
     do* put_sm slave 1 (mbx_ro s) (mbx_rl s) EC_DEFAULTMBXSM1 in
     let* eedat := ecx_readeeprom2 slave EC_TIMEOUTEEP in
     mod_slave slave (fun s => s <| mbx_proto := u16 eedat |>)).

(** ** Configuration from the SII *)

Definition sii_general (slave ssigen : Z) : C unit :=
  let* v := ecx_siigetbyte slave (u16 (ssigen + 0x07)) in
  do* mod_slave slave (fun s => s <| CoEdetails := v |>) in
  let* v := ecx_siigetbyte slave (u16 (ssigen + 0x08)) in
  do* mod_slave slave (fun s => s <| FoEdetails := v |>) in
  let* v := ecx_siigetbyte slave (u16 (ssigen + 0x09)) in
  do* mod_slave slave (fun s => s <| EoEdetails := v |>) in
  let* v := ecx_siigetbyte slave (u16 (ssigen + 0x0a)) in
  do* mod_slave slave (fun s => s <| SoEdetails := v |>) in
  let* v := ecx_siigetbyte slave (u16 (ssigen + 0x0d)) in
  do* when (0 <? Z.land v 0x02)
    (do* mod_slave slave (fun s => s <| s_blockLRW := 1 |>) in
     mod_slave 0 (fun s => s <| s_blockLRW ::= (fun n => u8 (n + 1)) |>)) in
  let* lo := ecx_siigetbyte slave (u16 (ssigen + 0x0e)) in
  do* mod_slave slave (fun s => s <| Ebuscurrent := lo |>) in
  let* hi := ecx_siigetbyte slave (u16 (ssigen + 0x0f)) in
  do* mod_slave slave (fun s => s <| Ebuscurrent ::= (fun n => s16 (n + Z.shiftl hi 8)) |>) in
  let* s := get_slave slave in
  mod_slave 0 (fun m => m <| Ebuscurrent ::= (fun n => s16 (n + Ebuscurrent s)) |>).

Definition sii_name (slave : Z) : C unit :=
  let* pos := ecx_siifind slave ECT_SII_STRING in
  let* s := get_slave slave in
  let* nm :=
    (if 0 <? pos then ecx_siistring (name s) slave 1
     else copy_to (name s) 0 (constructed_name (eep_man s) (eep_id s))) in
  mod_slave slave (fun s => s <| name := nm |>).

Definition put_eepsm (slave i : Z) (m : ec_eepromSMt) : C unit :=
  put_sm slave i (PhStart m) (Plength m) (u32 (Creg m + Z.shiftl (Activate m) 16)).

(** The sync managers of the SII.  The variable of the context they are read into has no
    other use; it starts cleared here. *)
Definition sii_sms (slave : Z) : C unit :=
  let* r := ecx_siiSM slave (EcEepromSM 0 0 0 0 0 0 0 0) in
  when (0 <? r.1)
    (do* put_eepsm slave 0 r.2 in
     ignore (do_while (Z.to_nat EC_MAXSM) (fun '(SMc, m) =>
       if SMc <? EC_MAXSM then
         let* r := ecx_siiSMnext slave m SMc in
         if negb (r.1 =? 0) then
           do* put_eepsm slave SMc r.2 in ret (true, (SMc + 1, r.2))
         else ret (false, (SMc, m))
       else ret (false, (SMc, m))) (1, r.2))).

Definition sii_fmmus (slave : Z) : C unit :=
  let* r := ecx_siiFMMU slave in
  when (negb (r.1 =? 0))
    (let f := r.2 in
     do* when (negb (FMMU0 f =? 0xff)) (mod_slave slave (fun s => s <| FMMU0func := FMMU0 f |>)) in
     do* when (negb (FMMU1 f =? 0xff)) (mod_slave slave (fun s => s <| FMMU1func := FMMU1 f |>)) in
     do* when (negb (FMMU2 f =? 0xff)) (mod_slave slave (fun s => s <| FMMU2func := FMMU2 f |>)) in
     when (negb (FMMU3 f =? 0xff)) (mod_slave slave (fun s => s <| FMMU3func := FMMU3 f |>))).

Definition config_from_sii (slave : Z) : C unit :=
  let* prev := ecx_lookup_prev_sii slave in
  when (negb prev)
    (let* g := ecx_siifind slave ECT_SII_GENERAL in
     let ssigen := u16 g in
     do* when (negb (ssigen =? 0)) (sii_general slave ssigen) in
     do* sii_name slave in
     do* sii_sms slave in
     sii_fmmus slave).

(** Program the two mailbox sync managers in one datagram. *)
Definition program_mailbox (slave : Z) : C unit :=
  let* s := get_slave slave in
  when (0 <? mbx_l s)
    (let* m0 := oobC (zget (SM s) 0) in
     do* when (StartAddr m0 =? 0x0000)
       (do* put_sm slave 0 0x1000 0x0080 EC_DEFAULTMBXSM0 in set_smtype slave 0 1) in
     let* m1 := oobC (zget (SM s) 1) in
     do* when (StartAddr m1 =? 0x0000)
       (do* put_sm slave 1 0x1080 0x0080 EC_DEFAULTMBXSM1 in set_smtype slave 1 2) in
     let* s := get_slave slave in
     let* m0 := oobC (zget (SM s) 0) in
     let* m1 := oobC (zget (SM s) 1) in
     ignore (ctx_FPWR (configadr s) ECT_REG_SM0 (8 * 2) (sm_bytes m0 ++ sm_bytes m1) EC_TIMEOUTRET3)).

Definition init_slave (slave : Z) : C unit :=
  do* take_txmailbox slave in
  do* init_topology slave in
  do* ignore (ecx_statecheck slave EC_STATE_INIT EC_TIMEOUTSTATE) in
  do* default_mailbox slave in
  do* config_from_sii slave in
  do* program_mailbox slave in
  do* ignore (ecx_eeprom2pdi slave) in
  let* manual := gets manualstatechange in
  when (manual =? 0)
    (let* s := get_slave slave in
     ignore (ctx_FPWRw (configadr s) ECT_REG_ALCTL (Z.lor EC_STATE_PRE_OP EC_STATE_ACK) EC_TIMEOUTRET3)).

(** [vars] is what the uninitialised variables for the alias and the EEPROM status hold. *)
Definition ecx_config_init (vars : list Z * list Z) : C Z :=
  do* ecx_init_context in
  let* wkc := ecx_detect_slaves in
  do* when (0 <? wkc)
    (do* ecx_set_slaves_to_default in
     do* ignore (for_slaves init_address vars) in
     do* each_slave (take_eeprom ECT_SII_ID (fun d s => s <| eep_man := d |>)) in
     do* each_slave (take_eeprom ECT_SII_REV (fun d s => s <| eep_id := d |>)) in
     do* each_slave (take_eeprom ECT_SII_SER (fun d s => s <| eep_rev := d |>)) in
     do* each_slave (take_eeprom ECT_SII_RXMBXADR (fun d s => s <| eep_ser := d |>)) in
     do* each_slave take_rxmailbox in
     each_slave init_slave) in
  ret wkc.

(** ** A slave that comes back *)

(** Is the slave at the temporary address the one configured before? *)
Definition same_slave (slave timeout : Z) : C bool :=
  let* s := get_slave slave in
  let* al := ctx_FPRDw EC_TEMPNODE ECT_REG_ALIAS timeout in
  if al =? aliasadr s then
    let* v := ecx_readeeprom slave ECT_SII_ID EC_TIMEOUTEEP in
    if v =? eep_id s then
      let* v := ecx_readeeprom slave ECT_SII_MANUF EC_TIMEOUTEEP in
      if v =? eep_man s then
        let* v := ecx_readeeprom slave ECT_SII_REV EC_TIMEOUTEEP in
        ret (v =? eep_rev s)
      else ret false
    else ret false
  else ret false.

Definition ecx_recover_slave (slave timeout : Z) : C Z :=
  let* s := get_slave slave in
  let adr := configadr s in
  let ADPh := auto_address slave in
  let* r := ctx_APRD ADPh ECT_REG_STADR 2 (le_bytes 2 0xfffe) timeout in
  let readadr := of_le r.2 in
  if readadr =? adr then ret 1
  else if (0 <? r.1) && (readadr =? 0) then
    do* ignore (ctx_FPWRw EC_TEMPNODE ECT_REG_STADR 0 0) in
    let* w := ctx_APWRw ADPh ECT_REG_STADR EC_TEMPNODE timeout in
    if w <=? 0 then
      do* ignore (ctx_FPWRw EC_TEMPNODE ECT_REG_STADR 0 0) in
      ret 0
    else
      do* mod_slave slave (fun s => s <| configadr := EC_TEMPNODE |>) in
      do* ignore (ecx_eeprom2master slave) in
      let* same := same_slave slave timeout in
      if (same : bool) then
        let* rval := ctx_FPWRw EC_TEMPNODE ECT_REG_STADR adr timeout in
        do* mod_slave slave (fun s => s <| configadr := adr |>) in
        ret rval
      else
        do* ignore (ctx_FPWRw EC_TEMPNODE ECT_REG_STADR 0 timeout) in
        do* mod_slave slave (fun s => s <| configadr := adr |>) in
        ret 0
  else ret 0.

(** [PO2SOconfig] is the hook of the slave for the way from Pre-Op to Safe-Op, a function of
    the application. *)
Variable PO2SOconfig : Z -> option (C Z).

Definition run_PO2SOconfig (slave : Z) : C unit :=
  match PO2SOconfig slave with Some hook => ignore hook | None => ret tt end.

(** Program sync manager or FMMU [i]. *)
Definition program_sm (adr timeout i : Z) (m : ec_smt) : C unit :=
  ignore (ctx_FPWR adr (u16 (ECT_REG_SM0 + i * 8)) 8 (sm_bytes m) timeout).
Definition program_fmmu (adr timeout i : Z) (f : ec_fmmut) : C unit :=
  ignore (ctx_FPWR adr (u16 (ECT_REG_FMMU0 + 16 * i)) 16 (fmmu_bytes f) timeout).

(** [junk] is what the uninitialised variable of [ecx_mbxreceive] holds. *)
Definition ecx_reconfig_slave (junk slave timeout : Z) : C Z :=
  let* s := get_slave slave in
  let adr := configadr s in
  let* w := ctx_FPWRw adr ECT_REG_ALCTL EC_STATE_INIT timeout in
  if w <=? 0 then ret 0
  else
    do* ignore (ecx_eeprom2pdi slave) in
    let* st := ecx_statecheck slave EC_STATE_INIT EC_TIMEOUTSTATE in
    if st =? EC_STATE_INIT then
      do* for_range (Z.to_nat EC_MAXSM) (fun nSM _ =>
        let* s := get_slave slave in
        let* m := oobC (zget (SM s) nSM) in
        when (negb (StartAddr m =? 0)) (program_sm adr timeout nSM m)) 0 tt in
      do* ctx_usleep 5000 in
      do* ignore (ctx_FPWRw adr ECT_REG_ALCTL EC_STATE_PRE_OP timeout) in
      let* st := ecx_statecheck slave EC_STATE_PRE_OP EC_TIMEOUTSTATE in
      if st =? EC_STATE_PRE_OP then
        do* ignore (ecx_mbxENIinitcmds junk slave ECT_ESMTRANS_PS) in
        do* run_PO2SOconfig slave in
        do* ignore (ctx_FPWRw adr ECT_REG_ALCTL EC_STATE_SAFE_OP timeout) in
        let* st := ecx_statecheck slave EC_STATE_SAFE_OP EC_TIMEOUTSTATE in
        let* s := get_slave slave in
        do* for_range (Z.to_nat (FMMUunused s)) (fun FMMUc _ =>
          let* s := get_slave slave in
          let* f := oobC (zget (FMMU s) FMMUc) in
          program_fmmu adr timeout FMMUc f) 0 tt in
        ret st
      else ret st
    else ret st.
End Config.
