(* ===== verification/MapGroup.v ===== *)
(** * Process data mapping (src/ec_config.c)

    The sizes of the process data of each slave, from its mailbox or from its SII, the
    programming of its sync managers and FMMUs, and the layout of the process data image:
    outputs, inputs and mailbox states of the slaves of a group one after the other, or the
    inputs over the outputs, cut into segments that fit a frame.  [EC_MAX_MAPT] is 1: the
    mappings are read one slave after the other.

    A logical address counts from the start address of the group; [pIOmap] is the offset of
    the caller's image. *)

From S2P Require Import Prelude Types Osal ErrorRing Mailbox Context Eeprom Sii AlState MbxHandler MbxClient CoE SoE Config.

Section Mapping.
Context {L : Type} `{EcLink L} `{EcFrame L} `{LoopFuel} `{Interference L}.
Abbreviation C := (M (ecx_contextt L)).

(** Hooks of the application, and what uninitialised variables of the mailbox functions hold. *)
Variable PO2SOconfig : Z -> option (C Z).
Variable junk : Z.
Variable soe_vars : list Z * list Z.

(** ** Sizes of the process data *)

(** The mapping of an earlier slave with the same identity: the sizes [(Osize, Isize)]. *)
Definition ecx_lookup_mapping (slave : Z) (sizes : Z * Z) : C (Z * Z) :=
  let* n := gets slavecount in
  if (1 <? slave) && (0 <? n) then
    let* i := find_same slave in
    if i <? slave then
      let* p := get_slave i in
      do* for_range (Z.to_nat EC_MAXSM) (fun nSM _ =>
        let* m := oobC (zget (SM p) nSM) in
        let* t := oobC (zget (SMtype p) nSM) in
        do* mod_sm slave nSM (fun x => x <| SMlength := SMlength m |>) in
        set_smtype slave nSM t) 0 tt in
      do* mod_slave slave (fun s => s <| Obits := Obits p |> <| Ibits := Ibits p |>) in
      ret (Obits p, Ibits p)
    else ret sizes
  else ret sizes.

Definition set_bits (slave : Z) (sizes : Z * Z) : C unit :=
  mod_slave slave (fun s => s <| Obits := u16 sizes.1 |> <| Ibits := u16 sizes.2 |>).

(** Bits to bytes, in 32 bits. *)
Definition bytes_of_bits (bits : Z) : Z := u32 (bits + 7) / 8.

Definition ecx_map_coe_soe (slave thread_n : Z) : C Z :=
  do* ignore (ecx_statecheck slave EC_STATE_PRE_OP EC_TIMEOUTSTATE) in
  do* ignore (ecx_mbxENIinitcmds junk slave ECT_ESMTRANS_PS) in
  do* run_PO2SOconfig PO2SOconfig slave in
  let* s := get_slave slave in
  let* sizes :=
    (if negb (Z.land (mbx_proto s) ECT_MBXPROT_COE =? 0) then
       let* r :=
         (if negb (Z.land (CoEdetails s) ECT_COEDET_SDOCA =? 0)
          then ecx_readPDOmapCA junk slave thread_n else ret (0, (0, 0))) in
       let* r := (if r.1 =? 0 then ecx_readPDOmap junk slave else ret r) in
       ret r.2
     else ret (0, 0)) in
  let* s := get_slave slave in
  let* sizes :=
    (if (sizes.2 =? 0) && (sizes.1 =? 0) && negb (Z.land (mbx_proto s) ECT_MBXPROT_SOE =? 0) then
       let* r := ecx_readIDNmap junk slave soe_vars in
       do* mod_sm slave 2 (fun m => m <| SMlength := u16 (bytes_of_bits r.2.1) |>) in
       do* mod_sm slave 3 (fun m => m <| SMlength := u16 (bytes_of_bits r.2.2) |>) in
       ret r.2
     else ret sizes) in
  do* set_bits slave sizes in
  ret 1.

(** Length and type of the sync managers that PDOs of the SII use. *)
Definition sii_sm_lengths (slave t : Z) (SMbits : list Z) : C unit :=
  for_range (Z.to_nat EC_MAXSM) (fun nSM _ =>
    let* b := oobC (zget SMbits nSM) in
    when (0 <? b)
      (do* mod_sm slave nSM (fun m => m <| SMlength := u16 ((b + 7) / 8) |>) in
       set_smtype slave nSM t)) 0 tt.

Definition ec_eepromPDO_zero : ec_eepromPDOt :=
  let z := replicate (Z.to_nat EC_MAXEEPDO) 0 in
  EcEepromPDO 0 0 0 z z z (replicate (Z.to_nat EC_MAXSM) 0).

Definition ecx_map_sii (slave : Z) : C Z :=
  let* s := get_slave slave in
  let* sizes :=
    (if (Ibits s =? 0) && (Obits s =? 0) then ecx_lookup_mapping slave (0, 0)
     else ret (Obits s, Ibits s)) in
  let* sizes :=
    (if (sizes.2 =? 0) && (sizes.1 =? 0) then
       let* i := ecx_siiPDO slave ec_eepromPDO_zero 0 in
       do* sii_sm_lengths slave 4 (SMbitsize i.2) in
       let* o := ecx_siiPDO slave i.2 1 in
       do* sii_sm_lengths slave 3 (SMbitsize o.2) in
       ret (u32 o.1, u32 i.1)
     else ret sizes) in
  do* set_bits slave sizes in
  ret 1.

(** A sync manager from 2 on is enabled when it has a length. *)
Definition enable_sm (m : ec_smt) : ec_smt :=
  m <| SMflags := if SMlength m =? 0 then Z.land (SMflags m) EC_SMENABLEMASK
                  else Z.lor (SMflags m) (Z.ldiff 0xffffffff EC_SMENABLEMASK) |>.

Definition ecx_map_sm (slave : Z) : C Z :=
  let* s := get_slave slave in
  let adr := configadr s in
  do* for_range 2 (fun nSM _ =>
    let* m := oobC (zget (SM s) nSM) in
    when ((mbx_l s =? 0) && negb (StartAddr m =? 0)) (program_sm adr EC_TIMEOUTRET3 nSM m)) 0 tt in
  do* for_range (Z.to_nat (EC_MAXSM - 2)) (fun nSM _ =>
    let* m := oobC (zget (SM s) nSM) in
    when (negb (StartAddr m =? 0))
      (do* mod_sm slave nSM enable_sm in
       program_sm adr EC_TIMEOUTRET3 nSM (enable_sm m))) 2 tt in
  do* mod_slave slave (fun s =>
    s <| s_Ibytes := if 7 <? Ibits s then (Ibits s + 7) / 8 else s_Ibytes s |>
      <| s_Obytes := if 7 <? Obits s then (Obits s + 7) / 8 else s_Obytes s |>) in
  ret 1.

(** [if (!group || (group == slavelist[slave].group))] *)
Definition each_member (g : Z) (body : Z -> C unit) : C unit :=
  each_slave (fun slave =>
    let* s := get_slave slave in
    when ((g =? 0) || (g =? group s)) (body slave)).

Definition ecx_config_find_mappings (g : Z) : C unit :=
  do* each_member g (fun slave => ignore (ecx_map_coe_soe slave 0)) in
  each_member g (fun slave => do* ignore (ecx_map_sii slave) in ignore (ecx_map_sm slave)).
End Mapping.

(** ** Directions

    [ecx_config_create_output_mappings] and [ecx_config_create_input_mappings] are one text
    but for the fields and constants collected here. *)

Inductive direction : Type := Outputs | Inputs.

Definition dir_smtype (d : direction) : Z := match d with Outputs => 3 | Inputs => 4 end.
Definition dir_fmmutype (d : direction) : Z := match d with Outputs => 2 | Inputs => 1 end.
Definition dir_bits (d : direction) (s : ec_slavet) : Z :=
  match d with Outputs => Obits s | Inputs => Ibits s end.
Definition dir_bytes (d : direction) (s : ec_slavet) : Z :=
  match d with Outputs => s_Obytes s | Inputs => s_Ibytes s end.
(** [if (!slave.outputs)]: the place of the data of a slave is stored once. *)
Definition dir_place (d : direction) (place startbit : Z) (s : ec_slavet) : ec_slavet :=
  match d with
  | Outputs => match s_outputs s with
               | None => s <| s_outputs := Some place |> <| Ostartbit := startbit |>
               | Some _ => s
               end
  | Inputs => match s_inputs s with
              | None => s <| s_inputs := Some place |> <| Istartbit := startbit |>
              | Some _ => s
              end
  end.

(** ** Sync managers of one FMMU *)

(** The next sync manager of type [t] from [SMc] on, or the last one. *)
Fixpoint next_sm (fuel : nat) (types : list Z) (t SMc : Z) : Z :=
  match fuel with
  | O => SMc
  | S n => if (SMc <? EC_MAXSM - 1) && negb (default 0 (zget types SMc) =? t)
           then next_sm n types t (SMc + 1) else SMc
  end.
Definition seek_sm (types : list Z) (t SMc : Z) : Z := next_sm (Z.to_nat EC_MAXSM) types t SMc.

Definition sm_at (s : ec_slavet) (i : Z) : ec_smt := default ec_sm_zero (zget (SM s) i).

(** What the search keeps: sync manager, bytes (16 bits), bits, end address. *)
Record sm_run : Type := SmRun { r_SMc : Z; r_ByteCount : Z; r_BitCount : Z; r_EndAddr : Z }.

(** Take sync manager [SMc] into the run. *)
Definition take_sm (s : ec_slavet) (SMc ByteCount BitCount : Z) : sm_run :=
  let m := sm_at s SMc in
  SmRun SMc (u16 (ByteCount + SMlength m)) (BitCount + SMlength m * 8) (u16 (StartAddr m + SMlength m)).

(** Take the following sync managers of the direction as long as bits are missing and their
    addresses connect; the one that does not connect is left for the next FMMU. *)
Fixpoint gather_sms (fuel : nat) (d : direction) (s : ec_slavet) (r : sm_run) : sm_run :=
  match fuel with
  | O => r
  | S n =>
      if (r_BitCount r <? dir_bits d s) && (r_SMc r <? EC_MAXSM - 1) then
        let SMc := seek_sm (SMtype s) (dir_smtype d) (r_SMc r + 1) in
        if r_EndAddr r <? StartAddr (sm_at s SMc) then r <| r_SMc := SMc |>
        else gather_sms n d s (take_sm s SMc (r_ByteCount r) (r_BitCount r))
      else r
  end.

(** ** Logical addresses *)

(** Advance by [bits] bits from the position [(LogAddr, BitPos)]. *)
Definition advance_bits (bits LogAddr BitPos : Z) : Z * Z :=
  let BitPos := u8 (BitPos + bits) in
  if 7 <? BitPos then (u32 (LogAddr + 1), u8 (BitPos - 8)) else (LogAddr, BitPos).

(** The logical part of an FMMU, and the position after it: a slave of less than eight bits
    is packed, another starts at a byte and takes [ByteCount] bytes, or what is left. *)
Definition place_fmmu (bits bytes done_ ByteCount LogAddr BitPos : Z)
    : Z * Z * Z * Z * (Z * Z) :=
  if bytes =? 0 then
    let e := advance_bits (bits - 1) LogAddr BitPos in
    let size := u16 (e.1 - LogAddr + 1) in
    (LogAddr, BitPos, size, e.2, advance_bits 1 e.1 e.2)
  else
    let LogAddr := if BitPos =? 0 then LogAddr else u32 (LogAddr + 1) in
    let size := if bytes <? ByteCount + done_ then u16 (bytes - done_) else ByteCount in
    (LogAddr, 0, size, 7, (u32 (LogAddr + size), 0)).

Section MapGroup.
Context {L : Type} `{EcLink L} `{EcFrame L} `{LoopFuel} `{Interference L}.
Abbreviation C := (M (ecx_contextt L)).

Definition put_fmmu (slave i : Z) (f : ec_fmmut) : C unit :=
  let* s := get_slave slave in
  let* l := oobC (zset (FMMU s) i f) in
  mod_slave slave (fun s => s <| FMMU := l |>).

(** ** The FMMUs of one direction *)

(** What the loop over the FMMUs keeps. *)
Record fmmu_state : Type := FmmuState {
  f_SMc : Z;
  f_done : Z;
  f_FMMUc : Z;
  f_ByteCount : Z;
  f_BitCount : Z;
  f_LogAddr : Z;
  f_BitPos : Z;
}.

(** One FMMU: the sync managers it covers, its place, and its programming. *)
Definition create_fmmu (d : direction) (pIOmap g slave : Z) (st : fmmu_state) : C fmmu_state :=
  let* s := get_slave slave in
  let SMc := seek_sm (SMtype s) (dir_smtype d) (f_SMc st) in
  let FMMUc := f_FMMUc st in
  let* f := oobC (zget (FMMU s) FMMUc) in
  let run := gather_sms (Z.to_nat EC_MAXSM) d s (take_sm s SMc (f_ByteCount st) (f_BitCount st)) in
  let '(start, startbit, size, endbit, pos) :=
    place_fmmu (dir_bits d s) (dir_bytes d s) (f_done st) (r_ByteCount run)
      (f_LogAddr st) (f_BitPos st) in
  let f := f <| PhysStart := StartAddr (sm_at s SMc) |> <| LogStart := start |>
             <| LogStartbit := startbit |> <| LogLength := size |> <| LogEndbit := endbit |> in
  let f := if size =? 0 then f
           else f <| PhysStartBit := 0 |> <| FMMUtype := dir_fmmutype d |> <| FMMUactive := 1 |> in
  do* put_fmmu slave FMMUc f in
  do* when (negb (size =? 0))
    (ignore (ctx_FPWR (configadr s) (ECT_REG_FMMU0 + 16 * FMMUc) 16 (fmmu_bytes f) EC_TIMEOUTRET3)) in
  let* gr := get_group g in
  let place := pIOmap + start - (if g =? 0 then 0 else logstartaddr gr) in
  do* mod_slave slave (dir_place d place startbit) in
  ret (FmmuState (r_SMc run) (f_done st + size) (u8 (FMMUc + 1)) (r_ByteCount run) (r_BitCount run)
         pos.1 pos.2).

(** The loop; an FMMU past the last one of the slave is outside the array, so
    [EC_MAXFMMU + 1] rounds are enough. *)
Definition create_fmmus (d : direction) (pIOmap g slave FMMUc : Z) (pos : Z * Z) : C (Z * Z) :=
  let* st := while_do (Z.to_nat EC_MAXFMMU + 2)
    (fun st =>
       let* s := get_slave slave in
       ret ((f_SMc st <? EC_MAXSM) && (f_done st <? (dir_bits d s + 7) / 8)))
    (create_fmmu d pIOmap g slave) (FmmuState 0 0 FMMUc 0 0 pos.1 pos.2) in
  do* mod_slave slave (fun s => s <| FMMUunused := f_FMMUc st |>) in
  ret (f_LogAddr st, f_BitPos st).

Definition ecx_config_create_output_mappings (pIOmap g slave : Z) (pos : Z * Z) : C (Z * Z) :=
  let* s := get_slave slave in
  create_fmmus Outputs pIOmap g slave (FMMUunused s) pos.

(** The first FMMU that has no logical address yet. *)
Definition free_fmmu (slave FMMUc : Z) : C Z :=
  while_do (Z.to_nat EC_MAXFMMU + 2)
    (fun i => let* s := get_slave slave in
              let* f := oobC (zget (FMMU s) i) in
              ret (negb (LogStart f =? 0)))
    (fun i => ret (u8 (i + 1))) FMMUc.

Definition ecx_config_create_input_mappings (pIOmap g slave : Z) (pos : Z * Z) : C (Z * Z) :=
  let* s := get_slave slave in
  let* FMMUc := (if Obits s =? 0 then ret (FMMUunused s) else free_fmmu slave (FMMUunused s)) in
  create_fmmus Inputs pIOmap g slave FMMUc pos.

(** The state of the read mailbox of a slave, one byte of the image. *)
Definition ecx_config_create_mbxstatus_mappings (pIOmap g slave LogAddr : Z) : C Z :=
  let* s := get_slave slave in
  let FMMUc := FMMUunused s in
  if negb (mbx_l s =? 0) && (FMMUc <? EC_MAXFMMU) then
    let f := EcFmmu LogAddr 1 0 7 ECT_REG_SM1STAT 0 1 1 in
    do* put_fmmu slave FMMUc f in
    do* ignore (ctx_FPWR (configadr s) (ECT_REG_FMMU0 + 16 * FMMUc) 16 (fmmu_bytes f) EC_TIMEOUTRET3) in
    do* mod_slave slave (fun s => s <| mbxstatus := Some (pIOmap + s32 LogAddr) |>) in
    let* gr := get_group g in
    let* lookup := oobC (zset (mbxstatuslookup gr) (mbxstatuslength gr) slave) in
    do* mod_group g (fun gr => gr <| mbxstatuslookup := lookup |>
                                  <| mbxstatuslength ::= (fun n => n + 1) |>) in
    do* mod_slave slave (fun s => s <| FMMUunused := FMMUc + 1 |>) in
    do* when (s_Ibytes s =? 0) (mod_group g (fun gr => gr <| inputsWKC ::= (fun n => u16 (n + 1)) |>)) in
    ret (u32 (LogAddr + 1))
  else ret LogAddr.

(** ** Segments *)

(** Position in the image and the segment being filled: its number, size and limit. *)
Record map_state : Type := MapState {
  m_LogAddr : Z;
  m_oLogAddr : Z;
  m_BitPos : Z;
  m_seg : Z;
  m_size : Z;
  m_max : Z;
}.

(** [IOsegment[currentsegment++] = size], and a new limit. *)
Definition close_segment (g size newsize : Z) (st : map_state) : C map_state :=
  let* gr := get_group g in
  let* l := oobC (zset (IOsegment gr) (m_seg st) size) in
  do* mod_group g (fun gr => gr <| IOsegment := l |>) in
  ret (st <| m_seg := u16 (m_seg st + 1) |> <| m_size := newsize |> <| m_max := EC_MAXLRWDATA |>).

(** Close the segment when [diff] more bytes do not fit in it but fit in a new one. *)
Definition open_segment (g diff : Z) (st : map_state) : C map_state :=
  if (m_max st <? u32 (m_size st + diff)) && (diff <=? m_max st) && (m_seg st <? EC_MAXIOSEGMENTS)
  then close_segment g (m_size st) 0 st else ret st.

(** Cut full segments off; [count] is done for each. *)
Definition cut_segments (g : Z) (count : Z -> C unit) (st : map_state) : C map_state :=
  while_do (S (Z.to_nat EC_MAXIOSEGMENTS))
    (fun st => ret ((m_max st <? m_size st) && (m_seg st <? EC_MAXIOSEGMENTS)))
    (fun st =>
       let max := m_max st in
       let* st := close_segment g max (m_size st - max) st in
       do* count max in
       ret st) st.

Definition add_outputsWKC (g n : Z) : C unit :=
  mod_group g (fun gr => gr <| outputsWKC ::= (fun w => u16 (w + n)) |>).
Definition add_inputsWKC (g n : Z) : C unit :=
  mod_group g (fun gr => gr <| inputsWKC ::= (fun w => u16 (w + n)) |>).
Definition add_wkc (d : direction) (g : Z) : C unit :=
  match d with Outputs => add_outputsWKC g 1 | Inputs => add_inputsWKC g 1 end.

(** In byte mode the data of a slave ends with a whole byte. *)
Definition align (packed : bool) (pos : Z * Z) : Z * Z :=
  if negb packed && negb (pos.2 =? 0) then (u32 (pos.1 + 1), 0) else pos.

(** The data of one slave in the segments: [diff] bytes more. *)
Definition add_data (d : direction) (g : Z) (pos : Z * Z) (st : map_state) : C map_state :=
  let diff := u32 (pos.1 - m_oLogAddr st) in
  let* st := open_segment g diff (st <| m_LogAddr := pos.1 |> <| m_BitPos := pos.2 |> <| m_oLogAddr := pos.1 |>) in
  let st := st <| m_size := u32 (m_size st + diff) |> in
  let* st := cut_segments g (fun _ => add_wkc d g) st in
  do* when (negb (m_size st =? 0) && negb (diff =? 0)) (add_wkc d g) in
  ret st.

(** The outputs or the inputs of slave [slave]. *)
Definition map_slave (d : direction) (pIOmap g slave : Z) (st : map_state) : C map_state :=
  let* s := get_slave slave in
  if ((g =? 0) || (g =? group s)) && negb (dir_bits d s =? 0) then
    let* pos :=
      (match d with
       | Outputs => ecx_config_create_output_mappings pIOmap g slave (m_LogAddr st, m_BitPos st)
       | Inputs => ecx_config_create_input_mappings pIOmap g slave (m_LogAddr st, m_BitPos st)
       end) in
    let* packed := gets packedMode in
    add_data d g (align packed pos) st
  else ret st.

(** A byte that is begun is a byte of the image. *)
Definition finish_byte (d : direction) (g : Z) (st : map_state) : C map_state :=
  if m_BitPos st =? 0 then ret st
  else
    let adr := u32 (m_LogAddr st + 1) in
    let st := st <| m_LogAddr := adr |> <| m_oLogAddr := adr |> <| m_BitPos := 0 |> in
    let* st :=
      (if (m_max st <? u32 (m_size st + 1)) && (m_seg st <? EC_MAXIOSEGMENTS) then
         let* st' := close_segment g (m_size st) 0 st in
         do* add_wkc d g in
         ret (match d with Outputs => st' | Inputs => st' <| m_max := m_max st |> end)
       else ret st) in
    ret (st <| m_size := u32 (m_size st + 1) |>).

Definition set_segment (g i size : Z) : C unit :=
  let* gr := get_group g in
  let* l := oobC (zset (IOsegment gr) i size) in
  mod_group g (fun gr => gr <| IOsegment := l |>).

(** The mailbox state of a slave in the segments: [diff] is 0 or 1. *)
Definition add_mbxstatus (g LogAddr : Z) (st : map_state) : C map_state :=
  let diff := u32 (LogAddr - m_oLogAddr st) in
  let st := st <| m_LogAddr := LogAddr |> <| m_oLogAddr := LogAddr |> in
  if EC_MAXLRWDATA - EC_FIRSTDCDATAGRAM <? u32 (m_size st + diff) then
    do* set_segment g (m_seg st) (m_size st) in
    ret (if m_seg st <? EC_MAXIOSEGMENTS - 1
         then st <| m_seg := m_seg st + 1 |> <| m_size := diff |> else st)
  else ret (st <| m_size := u32 (m_size st + diff) |>).

Definition map_mbxstatus (pIOmap g slave : Z) (st : map_state) : C map_state :=
  let* s := get_slave slave in
  if (g =? 0) || (g =? group s) then
    let* adr := ecx_config_create_mbxstatus_mappings pIOmap g slave (m_LogAddr st) in
    add_mbxstatus g adr st
  else ret st.

(** EEPROM to the PDI, Safe-Op, and the properties of the slave in the group. *)
Definition post_mapping (g slave : Z) : C unit :=
  do* ignore (ecx_eeprom2pdi slave) in
  let* manual := gets manualstatechange in
  let* s := get_slave slave in
  do* when (manual =? 0)
    (ignore (ctx_FPWRw (configadr s) ECT_REG_ALCTL EC_STATE_SAFE_OP EC_TIMEOUTRET3)) in
  do* when (negb (s_blockLRW s =? 0)) (mod_group g (fun gr => gr <| blockLRW ::= (fun n => u8 (n + 1)) |>)) in
  mod_group g (fun gr => gr <| g_Ebuscurrent ::= (fun n => s16 (n + Ebuscurrent s)) |>).

(** Size of the image: outputs, inputs and mailbox states. *)
Definition iomap_size (g : Z) : C Z :=
  let* gr := get_group g in
  ret (s32 (u32 (Obytes gr + Ibytes gr + mbxstatuslength gr))).

(** ** Outputs, then inputs *)

Definition start_segments (start : Z) : map_state :=
  MapState start start 0 0 0 (EC_MAXLRWDATA - EC_FIRSTDCDATAGRAM).

Definition map_outputs (pIOmap g : Z) (st : map_state) : C map_state :=
  let* st := for_slaves (map_slave Outputs pIOmap g) st in
  let* st := finish_byte Outputs g st in
  do* mod_group g (fun gr =>
    gr <| outputs := pIOmap |> <| Obytes := u32 (m_LogAddr st - logstartaddr gr) |>
       <| nsegments := u16 (m_seg st + 1) |> <| Isegment := m_seg st |> <| Ioffset := u16 (m_size st) |>) in
  let* gr := get_group g in
  do* when (g =? 0) (mod_slave 0 (fun s => s <| s_outputs := Some pIOmap |> <| s_Obytes := Obytes gr |>)) in
  ret st.

Definition map_inputs (pIOmap g : Z) (st : map_state) : C map_state :=
  let* st := for_slaves (map_slave Inputs pIOmap g) st in
  let* st := finish_byte Inputs g st in
  do* set_segment g (m_seg st) (m_size st) in
  do* mod_group g (fun gr =>
    gr <| nsegments := u16 (m_seg st + 1) |> <| inputs := pIOmap + Obytes gr |>
       <| Ibytes := u32 (m_LogAddr st - logstartaddr gr - Obytes gr) |>) in
  ret st.

Definition map_mailboxes (pIOmap g : Z) (st : map_state) : C map_state :=
  let* st := for_slaves (map_mbxstatus pIOmap g) st in
  do* set_segment g (m_seg st) (m_size st) in
  do* mod_group g (fun gr =>
    gr <| nsegments := u16 (m_seg st + 1) |> <| gmbxstatus := Some (pIOmap + Obytes gr + Ibytes gr) |>
       <| mbxstatuslength := s32 (m_LogAddr st - Obytes gr - Ibytes gr) |>) in
  let* gr := get_group g in
  do* when (g =? 0)
    (mod_slave 0 (fun s =>
       let ib := u32 (m_LogAddr st - logstartaddr gr - s_Obytes s) in
       s <| s_inputs := Some (pIOmap + s_Obytes s) |> <| s_Ibytes := ib |>
         <| mbxstatus := Some (pIOmap + s_Obytes s + ib) |>)) in
  ret st.

(** Hooks of the application, and what uninitialised variables of the mailbox functions hold. *)
Variable PO2SOconfig : Z -> option (C Z).
Variable junk : Z.
Variable soe_vars : list Z * list Z.

Definition map_start (g : Z) : C Z :=
  do* mod_group g (fun gr => gr <| nsegments := 0 |> <| outputsWKC := 0 |> <| inputsWKC := 0 |>) in
  let* gr := get_group g in
  do* ecx_config_find_mappings PO2SOconfig junk soe_vars g in
  ret (logstartaddr gr).

Definition ecx_main_config_map_group (pIOmap g : Z) : C Z :=
  let* n := gets slavecount in
  if (0 <? n) && (g <? EC_MAXGROUP) then
    let* start := map_start g in
    let* st := map_outputs pIOmap g (start_segments start) in
    let* st := map_inputs pIOmap g st in
    let* _st := map_mailboxes pIOmap g st in
    do* each_member g (post_mapping g) in
    iomap_size g
  else ret 0.

(** ** Inputs over the outputs *)

(** What the loop of the overlapping layout keeps: the position of the slave, the ends of its
    outputs and of its inputs, and the segment. *)
Record overlap_state : Type := OverlapState { o_so : Z; o_si : Z; o_st : map_state }.

(** The outputs and the inputs of a slave both start at the position of the slave. *)
Definition overlap_slave (pIOmap g slave : Z) (r : overlap_state) : C overlap_state :=
  let st := o_st r in
  let m := m_LogAddr st in
  let* s := get_slave slave in
  if (g =? 0) || (g =? group s) then
    let* so :=
      (if Obits s =? 0 then ret (m, m_BitPos st)
       else let* pos := ecx_config_create_output_mappings pIOmap g slave (m, m_BitPos st) in
            ret (align false pos)) in
    let* s := get_slave slave in
    let* si :=
      (if Ibits s =? 0 then ret (m, so.2)
       else let* pos := ecx_config_create_input_mappings pIOmap g slave (m, so.2) in
            ret (align false pos)) in
    let temp := if so.1 <? si.1 then si.1 else so.1 in
    let diff := u32 (temp - m) in
    let soLength := s32 (so.1 - m) in
    let siLength := s32 (si.1 - m) in
    let* st := open_segment g diff (st <| m_LogAddr := temp |> <| m_BitPos := si.2 |>) in
    let st := st <| m_size := u32 (m_size st + diff) |> in
    let* r := while_do (S (Z.to_nat EC_MAXIOSEGMENTS))
      (fun '(st, _, _) => ret ((m_max st <? m_size st) && (m_seg st <? EC_MAXIOSEGMENTS)))
      (fun '(st, so, si) =>
         let max := m_max st in
         let* st := close_segment g max (m_size st - max) st in
         do* add_inputsWKC g (b2z (0 <? si)) in
         do* add_outputsWKC g (b2z (0 <? so)) in
         ret (st, s32 (so - max), s32 (si - max))) (st, soLength, siLength) in
    let '(st, soLength, siLength) := r in
    do* when (negb (m_size st =? 0) && negb (diff =? 0))
      (do* add_inputsWKC g (b2z (0 <? siLength)) in add_outputsWKC g (b2z (0 <? soLength))) in
    ret (OverlapState so.1 si.1 st)
  else ret (OverlapState m m st).

(** The mailbox state of a slave, behind the outputs and the inputs.  A null pointer stays
    null: the place the code computes from it is not in the image. *)
Definition overlap_mbxstatus (pIOmap g slave : Z) (st : map_state) : C map_state :=
  let* s := get_slave slave in
  if (g =? 0) || (g =? group s) then
    let* st := map_mbxstatus pIOmap g slave st in
    let* gr := get_group g in
    do* mod_slave slave (fun s =>
      s <| mbxstatus ::= option_map (fun p => p + Obytes gr + Ibytes gr) |>) in
    ret st
  else ret st.

Definition ecx_config_overlap_map_group (pIOmap g : Z) : C Z :=
  let* n := gets slavecount in
  if (0 <? n) && (g <? EC_MAXGROUP) then
    let* start := map_start g in
    let* r := for_slaves (overlap_slave pIOmap g) (OverlapState start start (start_segments start)) in
    let st := o_st r in
    do* set_segment g (m_seg st) (m_size st) in
    do* mod_group g (fun gr =>
      let ob := u32 (o_so r - logstartaddr gr) in
      let ib := u32 (o_si r - logstartaddr gr) in
      gr <| nsegments := u16 (m_seg st + 1) |> <| Isegment := 0 |> <| Ioffset := 0 |>
         <| Obytes := ob |> <| Ibytes := ib |> <| outputs := pIOmap |> <| inputs := pIOmap + ob |>
         <| gmbxstatus := Some (pIOmap + ob + ib) |>) in
    let* gr := get_group g in
    do* each_member g (fun slave =>
      mod_slave slave (fun s =>
        if 0 <? Ibits s then s <| s_inputs ::= option_map (fun p => p + Obytes gr) |> else s)) in
    let* st := for_slaves (overlap_mbxstatus pIOmap g) (st <| m_oLogAddr := m_LogAddr st |>) in
    do* set_segment g (m_seg st) (m_size st) in
    do* mod_group g (fun gr => gr <| nsegments := u16 (m_seg st + 1) |>) in
    do* when (g =? 0)
      (mod_slave 0 (fun s =>
         let ob := u32 (o_so r - logstartaddr gr) in
         let ib := u32 (o_si r - logstartaddr gr) in
         s <| s_outputs := Some pIOmap |> <| s_Obytes := ob |> <| s_inputs := Some (pIOmap + ob) |>
           <| s_Ibytes := ib |> <| mbxstatus := Some (pIOmap + ob + ib) |>)) in
    do* each_member g (post_mapping g) in
    iomap_size g
  else ret 0.

Definition ecx_config_map_group (pIOmap g : Z) : C Z :=
  let* overlapped := gets overlappedMode in
  if (overlapped : bool) then ecx_config_overlap_map_group pIOmap g
  else ecx_main_config_map_group pIOmap g.
End MapGroup.
