(* ===== verification/ProcessData.v ===== *)
(** * Process data exchange (src/ec_main.c)

    The stack of frames in flight, the cyclic send that cuts the process data of a
    group into logical datagrams, and the receive that puts the answers back. *)

From S2P Require Import Prelude Types Osal ErrorRing Mailbox Context Eeprom AlState.

Section ProcessData.
Context {L : Type} `{EcLink L} `{EcFrame L} `{LoopFuel}.
Abbreviation C := (M (ecx_contextt L)).

(** ** The index stack *)

Definition ecx_pushindex (idx data length DCO : Z) : C unit :=
  let* st := gets idxstack in
  when (pushed st <? EC_MAXBUF)
    (let p := pushed st in
     let* li := of_opt OutOfBounds (zset (ix_idx st) p idx) in
     let* ld := of_opt OutOfBounds (zset (ix_data st) p data) in
     let* ll := of_opt OutOfBounds (zset (ix_length st) p length) in
     let* lo := of_opt OutOfBounds (zset (ix_dcoffset st) p DCO) in
     modify (fun c => c <| idxstack := EcIdxStack (p + 1) (pulled st) li ld ll lo |>)).

(** The stack location to pull, -1 when the stack is empty. *)
Definition ecx_pullindex : C Z :=
  let* st := gets idxstack in
  if pulled st <? pushed st then
    do* modify (fun c => c <| idxstack := st <| pulled := pulled st + 1 |> |>) in
    ret (pulled st)
  else ret (-1).

Definition ecx_clearindex : C unit :=
  modify (fun c => c <| idxstack ::= (fun st => st <| pushed := 0 |> <| pulled := 0 |>) |>).

(** ** Send *)

(** One frame: the logical datagram for [sublength] bytes at offset [data] of the
    process data image, the clock datagram when it is the [first] frame of a group
    with clocks, transmission, and the entry of the index stack, whose data go to
    offset [iodata].  The result is the new value of [first]. *)
Definition send_segment (group com : Z) (first : bool) (LogAdr data iodata sublength : Z)
    : C bool :=
  let* idx := onlink lk_getindex in
  let w1 := LO_WORD LogAdr in
  let w2 := HI_WORD LogAdr in
  let* m := gets iomap in
  let* _r := onlink (lk_setupdatagram com idx w1 w2 sublength (drop (Z.to_nat data) m)) in
  let* DCO :=
    (if first then
       let* g := get_group group in
       let* s := get_slave (DCnext g) in
       let* t := gets DCtime in
       onlink (lk_adddatagram EC_CMD_FRMW idx false (configadr s) ECT_REG_DCSYSTIME 8
                 (le_bytes 8 t))
     else ret 0) in
  let* _r := onlink (lk_outframe_red idx) in
  do* ecx_pushindex idx iodata sublength DCO in
  ret false.

(** The variables of the segment loops: [currentsegment], [first], [length], [LogAdr]
    and [data]. *)
Definition segvars : Type := Z * bool * Z * Z * Z.

(** End of a loop body: advance by the segment sent. *)
Definition next_segment (g : ec_groupt) (seg : Z) (first : bool) (length LogAdr data sublength : Z)
    : bool * segvars :=
  let length := length - sublength in
  (negb (length =? 0) && (seg <? nsegments g),
   (seg, first, length, u32 (LogAdr + sublength), data + sublength)).

(** Bodies of the three loops. *)
Definition lrd_body (group : Z) (g : ec_groupt) (v : segvars) : C (bool * segvars) :=
  let '(seg, first, length, LogAdr, data) := v in
  let* s := of_opt OutOfBounds (zget (IOsegment g) seg) in
  let sublength := if seg =? Isegment g then u16 (s - Ioffset g) else u16 s in
  let* first := send_segment group EC_CMD_LRD first LogAdr data data sublength in
  ret (next_segment g (u16 (seg + 1)) first length LogAdr data sublength).

Definition lwr_body (group : Z) (g : ec_groupt) (v : segvars) : C (bool * segvars) :=
  let '(seg, first, length, LogAdr, data) := v in
  let* s := of_opt OutOfBounds (zget (IOsegment g) seg) in
  let sublength := if length - u16 s <? 0 then u16 length else u16 s in
  let* first := send_segment group EC_CMD_LWR first LogAdr data data sublength in
  ret (next_segment g (u16 (seg + 1)) first length LogAdr data sublength).

Definition lrw_body (group : Z) (g : ec_groupt) (iomapinputoffset : Z) (v : segvars)
    : C (bool * segvars) :=
  let '(seg, first, length, LogAdr, data) := v in
  let* s := of_opt OutOfBounds (zget (IOsegment g) seg) in
  let sublength := u16 s in
  let* first := send_segment group EC_CMD_LRW first LogAdr data (data + iomapinputoffset)
                  sublength in
  ret (next_segment g (u16 (seg + 1)) first length LogAdr data sublength).

(** [length] and [iomapinputoffset] of a group. *)
Definition pd_length (overlapped : bool) (g : ec_groupt) : Z :=
  if overlapped
  then s32 ((if Ibytes g <? Obytes g then Obytes g else Ibytes g) + mbxstatuslength g)
  else s32 (Obytes g + Ibytes g + mbxstatuslength g).
Definition pd_inputoffset (overlapped : bool) (g : ec_groupt) : Z :=
  if overlapped then Obytes g else 0.

Definition seg_fuel (g : ec_groupt) : nat := S (Z.to_nat (nsegments g)).

(** Transmit the process data of a group: 1 when there is any. *)
Definition ecx_send_processdata_group (group : Z) : C Z :=
  let* g := get_group group in
  let first := hasdc g in
  let* _r := ecx_clearmbxstatus group in
  let* overlapped := gets overlappedMode in
  let length := pd_length overlapped g in
  let iomapinputoffset := pd_inputoffset overlapped g in
  let LogAdr := logstartaddr g in
  if length =? 0 then ret 0 else
  if negb (blockLRW g =? 0) then
    let* first :=
      (if negb (Ibytes g =? 0) then
         let* v := do_while (seg_fuel g) (lrd_body group g)
           (Isegment g, first, s32 (Ibytes g), u32 (LogAdr + Obytes g), inputs g) in
         ret v.1.1.1.2
       else ret first) in
    do* when (negb (Obytes g =? 0))
      (let* _v := do_while (seg_fuel g) (lwr_body group g)
         (0, first, s32 (Obytes g), logstartaddr g, outputs g) in
       ret tt) in
    ret 1
  else
    let data := if negb (Obytes g =? 0) then outputs g else inputs g in
    let iomapinputoffset := if negb (Obytes g =? 0) then iomapinputoffset else 0 in
    let* _v := do_while (seg_fuel g) (lrw_body group g iomapinputoffset)
      (0, first, length, LogAdr, data) in
    ret 1.

(** ** Receive *)

(** The work counter and the clock of a frame with a clock datagram at [dco]. *)
Definition recv_dc (idx length dco : Z) : C Z :=
  let* w := onlink (lk_rxbuf idx (EC_HEADERSIZE + length) EC_WKCSIZE) in
  let* t := onlink (lk_rxbuf idx dco 8) in
  do* modify (fun c => c <| DCtime := s64 (of_le t) |>) in
  ret (of_le w).

(** One answered frame: the work counter so far and whether one was valid. *)
Definition recv_frame (pos idx wkc2 wkc : Z) (valid : bool) : C (Z * bool) :=
  let* cmd := onlink (lk_rxbuf idx EC_CMDOFFSET 1) in
  let cmd := of_le cmd in
  let* st := gets idxstack in
  let* length := of_opt OutOfBounds (zget (ix_length st) pos) in
  let* data := of_opt OutOfBounds (zget (ix_data st) pos) in
  let* dco := of_opt OutOfBounds (zget (ix_dcoffset st) pos) in
  if (cmd =? EC_CMD_LRD) || (cmd =? EC_CMD_LRW) then
    let* bs := onlink (lk_rxbuf idx EC_HEADERSIZE length) in
    do* iomap_write data bs in
    if 0 <? dco then
      let* wkc := recv_dc idx length dco in ret (wkc, true)
    else ret (wkc + wkc2, true)
  else if cmd =? EC_CMD_LWR then
    if 0 <? dco then
      let* wkc := recv_dc idx length dco in ret (wkc * 2, true)
    else ret (wkc + wkc2 * 2, true)
  else ret (wkc, valid).

(** Receive the process data of the frames on the stack: the work counter, or
    [EC_NOFRAME] when no frame came back.  The code does not use [group]. *)
Definition ecx_receive_processdata_group (group timeout : Z) : C Z :=
  let* pos := ecx_pullindex in
  let* r := while_do (S (S (Z.to_nat EC_MAXBUF)))
    (fun '(pos, _, _) => ret (0 <=? pos))
    (fun '(pos, wkc, valid) =>
       let* st := gets idxstack in
       let* idx := of_opt OutOfBounds (zget (ix_idx st) pos) in
       let* wkc2 := onlink (lk_waitinframe idx timeout) in
       let* wv := (if EC_NOFRAME <? wkc2 then recv_frame pos idx wkc2 wkc valid
                   else ret (wkc, valid)) in
       do* onlink (lk_setbufstat idx EC_BUF_EMPTY) in
       let* pos := ecx_pullindex in
       ret (pos, wv.1, wv.2))
    (pos, 0, false) in
  do* ecx_clearindex in
  ret (if (r.2 : bool) then r.1.2 else EC_NOFRAME).

Definition ecx_send_processdata : C Z := ecx_send_processdata_group 0.
Definition ecx_receive_processdata (timeout : Z) : C Z :=
  ecx_receive_processdata_group 0 timeout.
End ProcessData.
