(* ===== verification/Cia402.v ===== *)
(** * CiA 402 drive states and motion outputs (linux_rt/ethercat_rt_core/src/motion_cia402.c)

    Decoding of the statusword, the control words of the power sequences, and the
    outputs of a motion command without a profile.  The generator of profiles is in
    Profile.v. *)

From Stdlib Require Import String.
From S2P Require Import Prelude.

(** ** Data (include/motion_cia402.h) *)

Inductive Cia402State : Type :=
| CIA402_STATE_NOT_READY
| CIA402_STATE_SWITCH_ON_DISABLED
| CIA402_STATE_READY_TO_SWITCH_ON
| CIA402_STATE_SWITCHED_ON
| CIA402_STATE_OPERATION_ENABLED
| CIA402_STATE_QUICK_STOP_ACTIVE
| CIA402_STATE_FAULT_REACTION_ACTIVE
| CIA402_STATE_FAULT
| CIA402_STATE_UNKNOWN.

#[export] Instance Cia402State_eq_dec : EqDecision Cia402State.
Proof. solve_decision. Defined.

Inductive Cia402Sequence : Type :=
| CIA402_SEQ_NONE
| CIA402_SEQ_FAULT_RESET
| CIA402_SEQ_SHUTDOWN
| CIA402_SEQ_SWITCH_ON
| CIA402_SEQ_ENABLE
| CIA402_SEQ_DISABLE.

Definition CIA402_MODE_PROFILE_POSITION : Z := 1.
Definition CIA402_MODE_PROFILE_VELOCITY : Z := 3.
Definition CIA402_MODE_HOMING : Z := 6.
Definition CIA402_MODE_CSP : Z := 8.
Definition CIA402_MODE_CSV : Z := 9.
Definition CIA402_MODE_CST : Z := 10.

Inductive Cia402MotionType : Type :=
| CIA402_MOTION_NONE
| CIA402_MOTION_SERVO_STOP
| CIA402_MOTION_JOG_VELOCITY
| CIA402_MOTION_PROFILE_POSITION
| CIA402_MOTION_HOME.

#[export] Instance Cia402MotionType_eq_dec : EqDecision Cia402MotionType.
Proof. solve_decision. Defined.

(** The [double] field of the command has the type [F] of Profile.v's numbers. *)
Record Cia402MotionCommand (F : Type) : Type := MotionCommand {
  c_type : Cia402MotionType;
  c_target_position : Z;
  c_target_velocity : Z;
  c_profile_velocity : Z;
  c_acceleration : Z;
  c_deceleration : Z;
  c_mode : Z;
  c_pulse_cycles : Z;
  c_relative : Z;
  c_profile_type : Z;
  c_jerk_ratio : F;
}.
Arguments MotionCommand {F}.
Arguments c_type {F}.
Arguments c_target_position {F}.
Arguments c_target_velocity {F}.
Arguments c_profile_velocity {F}.
Arguments c_acceleration {F}.
Arguments c_deceleration {F}.
Arguments c_mode {F}.
Arguments c_pulse_cycles {F}.
Arguments c_relative {F}.
Arguments c_profile_type {F}.
Arguments c_jerk_ratio {F}.

Record Cia402PdoOutput : Type := PdoOutput {
  controlword : Z;
  o_target_position : Z;
  o_target_velocity : Z;
  o_mode : Z;
}.

(** ** Statusword *)

Definition cia402_state_from_status (statusword : Z) : Cia402State :=
  if Z.land statusword 0x004f =? 0x0000 then CIA402_STATE_NOT_READY
  else if Z.land statusword 0x004f =? 0x0040 then CIA402_STATE_SWITCH_ON_DISABLED
  else if Z.land statusword 0x006f =? 0x0021 then CIA402_STATE_READY_TO_SWITCH_ON
  else if Z.land statusword 0x006f =? 0x0023 then CIA402_STATE_SWITCHED_ON
  else if Z.land statusword 0x006f =? 0x0027 then CIA402_STATE_OPERATION_ENABLED
  else if Z.land statusword 0x006f =? 0x0007 then CIA402_STATE_QUICK_STOP_ACTIVE
  else if Z.land statusword 0x004f =? 0x000f then CIA402_STATE_FAULT_REACTION_ACTIVE
  else if Z.land statusword 0x004f =? 0x0008 then CIA402_STATE_FAULT
  else CIA402_STATE_UNKNOWN.

(** ** Texts *)

Definition cia402_status_text (state : Cia402State) : string :=
  match state with
  | CIA402_STATE_NOT_READY => "NotReady"
  | CIA402_STATE_SWITCH_ON_DISABLED => "SwitchOnDisabled"
  | CIA402_STATE_READY_TO_SWITCH_ON => "ReadyToSwitchOn"
  | CIA402_STATE_SWITCHED_ON => "SwitchedOn"
  | CIA402_STATE_OPERATION_ENABLED => "OperationEnabled"
  | CIA402_STATE_QUICK_STOP_ACTIVE => "QuickStopActive"
  | CIA402_STATE_FAULT_REACTION_ACTIVE => "FaultReactionActive"
  | CIA402_STATE_FAULT => "Fault"
  | CIA402_STATE_UNKNOWN => "Unknown"
  end.

Definition cia402_mode_text (mode : Z) : string :=
  if mode =? 1 then "PP" else if mode =? 3 then "PV" else if mode =? 6 then "HM"
  else if mode =? 8 then "CSP" else if mode =? 9 then "CSV"
  else if mode =? 10 then "CST" else "-".

Definition cia402_sequence_text (sequence : Cia402Sequence) : string :=
  match sequence with
  | CIA402_SEQ_FAULT_RESET => "FaultReset"
  | CIA402_SEQ_SHUTDOWN => "Shutdown"
  | CIA402_SEQ_SWITCH_ON => "SwitchOn"
  | CIA402_SEQ_ENABLE => "EnableOperation"
  | CIA402_SEQ_DISABLE => "DisableVoltage"
  | CIA402_SEQ_NONE => "None"
  end.

Definition cia402_motion_text (type : Cia402MotionType) : string :=
  match type with
  | CIA402_MOTION_SERVO_STOP => "ServoStop"
  | CIA402_MOTION_JOG_VELOCITY => "JogVelocity"
  | CIA402_MOTION_PROFILE_POSITION => "ProfilePosition"
  | CIA402_MOTION_HOME => "Home"
  | CIA402_MOTION_NONE => "None"
  end.

(** ** Power sequences *)

(** Control word for a sequence in a drive state, and whether its target is reached. *)
Definition cia402_sequence_controlword (sequence : Cia402Sequence) (state : Cia402State)
    (manual_controlword : Z) : Z * bool :=
  match sequence with
  | CIA402_SEQ_NONE => (manual_controlword, true)
  | CIA402_SEQ_FAULT_RESET =>
      match state with
      | CIA402_STATE_FAULT | CIA402_STATE_FAULT_REACTION_ACTIVE => (0x0080, false)
      | _ => (0x0000, true)
      end
  | CIA402_SEQ_SHUTDOWN =>
      (0x0006, bool_decide (state = CIA402_STATE_READY_TO_SWITCH_ON))
  | CIA402_SEQ_SWITCH_ON =>
      match state with
      | CIA402_STATE_SWITCHED_ON | CIA402_STATE_OPERATION_ENABLED => (0x0007, true)
      | CIA402_STATE_READY_TO_SWITCH_ON => (0x0007, false)
      | CIA402_STATE_FAULT | CIA402_STATE_FAULT_REACTION_ACTIVE => (0x0080, false)
      | _ => (0x0006, false)
      end
  | CIA402_SEQ_ENABLE =>
      match state with
      | CIA402_STATE_OPERATION_ENABLED => (0x000f, true)
      | CIA402_STATE_SWITCHED_ON => (0x000f, false)
      | CIA402_STATE_READY_TO_SWITCH_ON => (0x0007, false)
      | CIA402_STATE_FAULT | CIA402_STATE_FAULT_REACTION_ACTIVE => (0x0080, false)
      | _ => (0x0006, false)
      end
  | CIA402_SEQ_DISABLE =>
      (0x0000, bool_decide (state = CIA402_STATE_SWITCH_ON_DISABLED))
  end.

(** ** Motion commands without a profile *)

(** [cia402_motion_init]; [jerk_ratio] is the constant 0.75. *)
Definition cia402_motion_init {F} (jerk_ratio : F) : Cia402MotionCommand F :=
  MotionCommand CIA402_MOTION_NONE 0 0 0 0 0 0 20 0 1 jerk_ratio.

Definition cia402_motion_apply {F} (command : Cia402MotionCommand F) (sequence_done : bool)
    (cycle_after_sequence : Z) (output : Cia402PdoOutput) : Cia402PdoOutput :=
  match c_type command with
  | CIA402_MOTION_NONE => output
  | CIA402_MOTION_SERVO_STOP =>
      output <| controlword := 0x010f |> <| o_target_velocity := 0 |>
             <| o_mode ::= (fun m => if m =? 0 then CIA402_MODE_CSV else m) |>
  | ty =>
      if negb sequence_done then output else
      match ty with
      | CIA402_MOTION_JOG_VELOCITY =>
          output <| controlword := 0x000f |>
                 <| o_target_velocity := c_target_velocity command |>
                 <| o_mode := if negb (c_mode command =? 0) then c_mode command
                              else CIA402_MODE_CSV |>
      | CIA402_MOTION_PROFILE_POSITION =>
          let new_setpoint :=
            (0 <=? cycle_after_sequence) && (cycle_after_sequence <? c_pulse_cycles command) in
          output <| controlword :=
                      if c_mode command =? CIA402_MODE_CSP then 0x000f
                      else Z.lor 0x000f (if new_setpoint then 0x0010 else 0) |>
                 <| o_target_position := c_target_position command |>
                 <| o_target_velocity := c_profile_velocity command |>
                 <| o_mode := if negb (c_mode command =? 0) then c_mode command
                              else CIA402_MODE_PROFILE_POSITION |>
      | CIA402_MOTION_HOME =>
          output <| controlword := 0x001f |>
                 <| o_target_velocity := c_target_velocity command |>
                 <| o_mode := CIA402_MODE_HOMING |>
      | _ => output
      end
  end.
