(* ===== verification/Cia402Theorems.v ===== *)
(** * Theorems on the drive states and the power sequences

    The decoding of the statusword against the table of the CiA 402 profile, and the
    closed loop of a power sequence with a drive. *)

From S2P Require Import Prelude Cia402.
Import stdpp.list_relations.list stdpp.list_basics.list.

(** ** Decoding *)

(** The table of the profile: mask and value of the statusword in each state. *)
Definition status_pattern (s : Cia402State) : option (Z * Z) :=
  match s with
  | CIA402_STATE_NOT_READY => Some (0x4f, 0x00)
  | CIA402_STATE_SWITCH_ON_DISABLED => Some (0x4f, 0x40)
  | CIA402_STATE_READY_TO_SWITCH_ON => Some (0x6f, 0x21)
  | CIA402_STATE_SWITCHED_ON => Some (0x6f, 0x23)
  | CIA402_STATE_OPERATION_ENABLED => Some (0x6f, 0x27)
  | CIA402_STATE_QUICK_STOP_ACTIVE => Some (0x6f, 0x07)
  | CIA402_STATE_FAULT_REACTION_ACTIVE => Some (0x4f, 0x0f)
  | CIA402_STATE_FAULT => Some (0x4f, 0x08)
  | CIA402_STATE_UNKNOWN => None
  end.

Definition matches (s : Cia402State) (w : Z) : bool :=
  match status_pattern s with Some (m, v) => Z.land w m =? v | None => false end.

Definition known_states : list Cia402State :=
  [CIA402_STATE_NOT_READY; CIA402_STATE_SWITCH_ON_DISABLED; CIA402_STATE_READY_TO_SWITCH_ON;
   CIA402_STATE_SWITCHED_ON; CIA402_STATE_OPERATION_ENABLED; CIA402_STATE_QUICK_STOP_ACTIVE;
   CIA402_STATE_FAULT_REACTION_ACTIVE; CIA402_STATE_FAULT].

(** Only the seven bits under the mask 0x6f matter. *)
Lemma land_sub w m : Z.land 0x6f m = m -> Z.land w m = Z.land (Z.land w 0x6f) m.
Proof. intros H. by rewrite <- Z.land_assoc, H. Qed.

Lemma decode_masked w :
  cia402_state_from_status w = cia402_state_from_status (Z.land w 0x6f)
  /\ forall s, matches s w = matches s (Z.land w 0x6f).
Proof.
  assert (H4 : Z.land w 0x4f = Z.land (Z.land w 0x6f) 0x4f) by by apply land_sub.
  assert (H6 : Z.land w 0x6f = Z.land (Z.land w 0x6f) 0x6f) by by apply land_sub.
  split.
  - unfold cia402_state_from_status. by rewrite <- H4, <- H6.
  - intros s. unfold matches. destruct s; cbn [status_pattern]; by rewrite <- ?H4, <- ?H6.
Qed.

Lemma masked_range w : 0 <= Z.land w 0x6f < 128.
Proof.
  assert (Hle : Z.land w 0x6f = Z.land (Z.land w 0x6f) (Z.ones 7)).
  { by rewrite <- Z.land_assoc. }
  rewrite Hle, Z.land_ones by lia. apply Z.mod_pos_bound. lia.
Qed.

(** Every one of the 128 values decodes as the table says. *)
Definition decode_agrees (w : Z) : bool :=
  forallb (fun s => eqb (bool_decide (cia402_state_from_status w = s)) (matches s w)) known_states.

Lemma decode_agrees_all : forallb decode_agrees (seqZ 0 128) = true.
Proof. vm_compute. reflexivity. Qed.

(** C38: A statusword decodes to a state exactly when it matches that state's pattern in
    the table of the profile, so at most one pattern matches, and to UNKNOWN exactly when
    no pattern matches. *)
Theorem statusword_table (w : Z) :
  (forall s, s <> CIA402_STATE_UNKNOWN ->
     (cia402_state_from_status w = s <-> matches s w = true))
  /\ (cia402_state_from_status w = CIA402_STATE_UNKNOWN <->
      forall s, matches s w = false).
Proof.
  destruct (decode_masked w) as [Hd Hm]. rewrite Hd.
  pose proof (masked_range w) as Hr. set (v := Z.land w 0x6f) in *.
  assert (Hv : decode_agrees v = true).
  { pose proof decode_agrees_all as Hall. rewrite forallb_forall in Hall. apply Hall.
    apply list_elem_of_In, elem_of_seqZ. lia. }
  assert (Hs : forall s, s <> CIA402_STATE_UNKNOWN ->
            (cia402_state_from_status v = s <-> matches s v = true)).
  { intros s Hne. unfold decode_agrees in Hv. rewrite forallb_forall in Hv.
    assert (Hin : In s known_states) by (destruct s; cbn; tauto).
    specialize (Hv s Hin). apply eqb_prop in Hv. rewrite <- Hv. by rewrite bool_decide_eq_true. }
  split; [intros s Hne; rewrite (Hm s); by apply Hs|].
  split.
  - intros Hu s. rewrite (Hm s). destruct (decide (s = CIA402_STATE_UNKNOWN)) as [->|Hne]; [done|].
    apply not_true_is_false. intros Ht. apply Hs in Ht; [|done]. congruence.
  - intros Hall. destruct (decide (cia402_state_from_status v = CIA402_STATE_UNKNOWN)) as [|Hne]; [done|].
    pose proof (proj1 (Hs _ Hne) eq_refl) as Ht. rewrite <- Hm, Hall in Ht. done.
Qed.

(** ** A drive

    What the sequences rely on: the state machine of the CiA 402 profile, with a drive
    that needs at most [T] cycles for a transition.  The drive is not code of the
    repository; it is any type of the class. *)

Class Drive (D : Type) : Type := {
  statusword : D -> Z;
  drive_cycle : D -> Z -> D;   (** one cycle with a control word *)
  last_command : D -> Z;
}.

Section Drive.
Context {D : Type} `{Drive D}.

Definition power_state (d : D) : Cia402State := cia402_state_from_status (statusword d).

(** The drive under a constant control word. *)
Definition hold (d : D) (cw : Z) (n : nat) : D := Nat.iter n (fun d => drive_cycle d cw) d.

(** One cycle of the closed loop of a controller, which answers the state of the drive with
    a control word, and [n] of them. *)
Definition loop_cycle (answer : Cia402State -> Z) (d : D) : D := drive_cycle d (answer (power_state d)).
Definition loop_run (answer : Cia402State -> Z) (n : nat) (d : D) : D := Nat.iter n (loop_cycle answer) d.

(** The loop of a sequence. *)
Definition sequence_answer (seq : Cia402Sequence) (s : Cia402State) : Z := (cia402_sequence_controlword seq s 0).1.
Definition sequence_cycle (seq : Cia402Sequence) (d : D) : D := loop_cycle (sequence_answer seq) d.
Definition sequence_run (seq : Cia402Sequence) (n : nat) (d : D) : D := loop_run (sequence_answer seq) n d.
Definition sequence_reached (seq : Cia402Sequence) (d : D) : bool :=
  (cia402_sequence_controlword seq (power_state d) 0).2.
End Drive.

(** Bit 7 of the control word resets a fault when it rises. *)
Definition reset_edge (prev cw : Z) : bool := Z.testbit cw 7 && negb (Z.testbit prev 7).

(** The transitions of the profile the sequences use: two are automatic, the others
    follow the command bits of the control word. *)
Definition commanded (s : Cia402State) (prev cw : Z) : option Cia402State :=
  match s with
  | CIA402_STATE_NOT_READY => Some CIA402_STATE_SWITCH_ON_DISABLED
  | CIA402_STATE_FAULT_REACTION_ACTIVE => Some CIA402_STATE_FAULT
  | CIA402_STATE_SWITCH_ON_DISABLED =>
      if Z.land cw 0x87 =? 0x06 then Some CIA402_STATE_READY_TO_SWITCH_ON else None
  | CIA402_STATE_READY_TO_SWITCH_ON =>
      if Z.land cw 0x8f =? 0x07 then Some CIA402_STATE_SWITCHED_ON else None
  | CIA402_STATE_SWITCHED_ON =>
      if Z.land cw 0x8f =? 0x0f then Some CIA402_STATE_OPERATION_ENABLED else None
  | CIA402_STATE_FAULT =>
      if reset_edge prev cw then Some CIA402_STATE_SWITCH_ON_DISABLED else None
  | _ => None
  end.

Class DriveLaws (D : Type) `{Drive D} (T : nat) : Prop := {
  drive_remembers : forall (d : D) cw, last_command (drive_cycle d cw) = cw;
  drive_responds : forall (d : D) cw s',
    commanded (power_state d) (last_command d) cw = Some s' ->
    exists n, (0 < n <= T)%nat /\ (forall i, (i < n)%nat -> power_state (hold d cw i) = power_state d)
      /\ power_state (hold d cw n) = s';
  drive_stays_enabled : forall (d : D) cw,
    power_state d = CIA402_STATE_OPERATION_ENABLED -> Z.land cw 0x8f = 0x0f ->
    power_state (drive_cycle d cw) = CIA402_STATE_OPERATION_ENABLED;
  drive_keeps_fault : forall (d : D) cw,
    power_state d = CIA402_STATE_FAULT -> reset_edge (last_command d) cw = false ->
    power_state (drive_cycle d cw) = CIA402_STATE_FAULT;
  drive_reaction : forall (d : D) cw,
    power_state d = CIA402_STATE_FAULT_REACTION_ACTIVE ->
    power_state (drive_cycle d cw) = CIA402_STATE_FAULT_REACTION_ACTIVE
    \/ power_state (drive_cycle d cw) = CIA402_STATE_FAULT;
}.

Section Sequences.
Context {D : Type} `{HD : Drive D} {T : nat} `{!DriveLaws D T}.
Implicit Types d : D.

Lemma loop_S answer n d : loop_run answer (S n) d = loop_cycle answer (loop_run answer n d).
Proof. reflexivity. Qed.
Lemma hold_S d cw n : hold d cw (S n) = drive_cycle (hold d cw n) cw.
Proof. reflexivity. Qed.

(** While the state does not change, neither does the control word. *)
Lemma loop_hold answer d n :
  (forall i, (i < n)%nat -> power_state (hold d (answer (power_state d)) i) = power_state d) ->
  loop_run answer n d = hold d (answer (power_state d)) n.
Proof.
  induction n as [|n IH]; intros Hc; [done|]. rewrite loop_S, hold_S.
  rewrite IH by (intros; apply Hc; lia). unfold loop_cycle. by rewrite Hc by lia.
Qed.
Lemma loop_remembers answer d n : (0 < n)%nat ->
  last_command (loop_run answer n d) = answer (power_state (loop_run answer (n - 1) d)).
Proof.
  intros Hn. destruct n as [|n]; [lia|]. rewrite loop_S. replace (S n - 1)%nat with n by lia. apply drive_remembers.
Qed.

(** One transition of the closed loop, and the control word it ends with. *)
Lemma loop_transition answer d s' :
  commanded (power_state d) (last_command d) (answer (power_state d)) = Some s' ->
  exists n, (n <= T)%nat /\ power_state (loop_run answer n d) = s'
    /\ last_command (loop_run answer n d) = answer (power_state d).
Proof.
  intros Hc. destruct (drive_responds d _ _ Hc) as (n & Hn & Hi & Hs).
  exists n. rewrite loop_hold by done. split; [lia|]. split; [done|].
  destruct n as [|n]; [lia|]. apply drive_remembers.
Qed.
Lemma loop_add answer n m d : loop_run answer (n + m) d = loop_run answer n (loop_run answer m d).
Proof. unfold loop_run. apply Nat.iter_add. Qed.

(** Chaining: after a transition to a state from which [m] cycles reach the goal. *)
Lemma loop_chain answer d s' (m : nat) (goal : Cia402State) :
  commanded (power_state d) (last_command d) (answer (power_state d)) = Some s' ->
  (forall d', power_state d' = s' -> last_command d' = answer (power_state d) ->
     exists n, (n <= m)%nat /\ power_state (loop_run answer n d') = goal) ->
  exists n, (n <= m + T)%nat /\ power_state (loop_run answer n d) = goal.
Proof.
  intros Hc Hrest. destruct (loop_transition answer d s' Hc) as (n1 & Hn1 & Hs1 & Hl1).
  destruct (Hrest _ Hs1 Hl1) as (n2 & Hn2 & Hs2).
  exists (n2 + n1)%nat. split; [lia|]. by rewrite loop_add.
Qed.

(** A controller that leads the drive through the states of the profile. *)
Record leads (answer : Cia402State -> Z) : Prop := Leads {
  leads_disabled : Z.land (answer CIA402_STATE_SWITCH_ON_DISABLED) 0x87 = 0x06;
  leads_ready : Z.land (answer CIA402_STATE_READY_TO_SWITCH_ON) 0x8f = 0x07;
  leads_on : Z.land (answer CIA402_STATE_SWITCHED_ON) 0x8f = 0x0f;
  leads_enabled : Z.land (answer CIA402_STATE_OPERATION_ENABLED) 0x8f = 0x0f;
  leads_fault : Z.testbit (answer CIA402_STATE_FAULT) 7 = true;
}.
Definition lead_steps (s : Cia402State) : option nat :=
  match s with
  | CIA402_STATE_OPERATION_ENABLED => Some 0%nat
  | CIA402_STATE_SWITCHED_ON => Some 1%nat
  | CIA402_STATE_READY_TO_SWITCH_ON => Some 2%nat
  | CIA402_STATE_SWITCH_ON_DISABLED => Some 3%nat
  | CIA402_STATE_NOT_READY | CIA402_STATE_FAULT => Some 4%nat
  | CIA402_STATE_FAULT_REACTION_ACTIVE => Some 5%nat
  | _ => None
  end.
(** The reset bit must be able to rise. *)
Definition resettable (answer : Cia402State -> Z) (d : D) : Prop :=
  match power_state d with
  | CIA402_STATE_FAULT => Z.testbit (last_command d) 7 = false
  | CIA402_STATE_FAULT_REACTION_ACTIVE => Z.testbit (answer CIA402_STATE_FAULT_REACTION_ACTIVE) 7 = false
  | _ => True
  end.

Lemma leads_commanded answer d k : leads answer -> resettable answer d -> lead_steps (power_state d) = Some (S k) ->
  exists s', commanded (power_state d) (last_command d) (answer (power_state d)) = Some s' /\ lead_steps s' = Some k
    /\ (s' = CIA402_STATE_FAULT -> Z.testbit (answer (power_state d)) 7 = false).
Proof.
  intros [Hd Hr Ho He Hf] Hreset Hk. unfold resettable in Hreset.
  destruct (power_state d); cbn [lead_steps] in Hk; try discriminate; injection Hk as <-; cbn [commanded];
    rewrite ?Hd, ?Hr, ?Ho; cbn [Z.eqb Pos.eqb]; unfold reset_edge; rewrite ?Hf, ?Hreset; cbn [andb negb];
    eexists; (split; [reflexivity|]); (split; [done|]); done.
Qed.

Lemma leads_reaches answer k : leads answer -> forall d, resettable answer d -> lead_steps (power_state d) = Some k ->
  exists n, (n <= k * T)%nat /\ power_state (loop_run answer n d) = CIA402_STATE_OPERATION_ENABLED.
Proof.
  intros Hl. induction k as [|k IH]; intros d Hr Hk.
  - exists 0%nat. split; [lia|]. cbn. by destruct (power_state d).
  - destruct (leads_commanded answer d k Hl Hr Hk) as (s' & Hc & Hk' & Hedge).
    destruct (loop_chain answer d s' (k * T) CIA402_STATE_OPERATION_ENABLED Hc) as (n & Hn & Hs).
    + intros d' Hs' Hlast. apply IH; [|by rewrite Hs']. unfold resettable. rewrite Hs'.
      destruct s'; try done; [|rewrite Hlast; by apply Hedge].
      exfalso. destruct (power_state d); cbn in Hc; repeat case_match; congruence.
    + exists n. split; [lia | done].
Qed.

Lemma leads_stays answer d n : leads answer -> power_state d = CIA402_STATE_OPERATION_ENABLED ->
  power_state (loop_run answer n d) = CIA402_STATE_OPERATION_ENABLED.
Proof.
  intros Hl Hs. induction n as [|n IH]; [done|]. rewrite loop_S. unfold loop_cycle.
  apply drive_stays_enabled; [exact IH|]. rewrite IH. apply Hl.
Qed.

Lemma enable_leads : leads (sequence_answer CIA402_SEQ_ENABLE).
Proof. by split. Qed.

(** States from which the enabling sequence works: not a quick stop, not a fault whose
    reset bit is already set. *)
Definition enableable (d : D) : Prop :=
  match power_state d with
  | CIA402_STATE_NOT_READY | CIA402_STATE_SWITCH_ON_DISABLED | CIA402_STATE_READY_TO_SWITCH_ON
  | CIA402_STATE_SWITCHED_ON | CIA402_STATE_OPERATION_ENABLED => True
  | CIA402_STATE_FAULT => Z.testbit (last_command d) 7 = false
  | _ => False
  end.

Lemma enable_reaches d :
  enableable d ->
  exists n, (n <= 4 * T)%nat /\ power_state (sequence_run CIA402_SEQ_ENABLE n d) = CIA402_STATE_OPERATION_ENABLED.
Proof.
  unfold enableable. intros He. assert (exists k, lead_steps (power_state d) = Some k /\ (k <= 4)%nat) as (k & Hk & Hle).
  { destruct (power_state d); try done; (eexists; split; [reflexivity | lia]). }
  destruct (leads_reaches _ k enable_leads d) as (n & Hn & Hs); [|done|].
  - unfold resettable. by destruct (power_state d).
  - exists n. split; [nia | exact Hs].
Qed.

Lemma enabled_stays d n :
  power_state d = CIA402_STATE_OPERATION_ENABLED ->
  power_state (sequence_run CIA402_SEQ_ENABLE n d) = CIA402_STATE_OPERATION_ENABLED.
Proof. apply leads_stays, enable_leads. Qed.

(** A fault whose reset bit is set stays one while the bit does not fall. *)
Lemma fault_stuck d n :
  power_state d = CIA402_STATE_FAULT_REACTION_ACTIVE
  \/ (power_state d = CIA402_STATE_FAULT /\ Z.testbit (last_command d) 7 = true) ->
  let d' := sequence_run CIA402_SEQ_FAULT_RESET n d in
  power_state d' = CIA402_STATE_FAULT_REACTION_ACTIVE
  \/ (power_state d' = CIA402_STATE_FAULT /\ Z.testbit (last_command d') 7 = true).
Proof.
  intros Hd. cbn zeta. induction n as [|n IH]; [exact Hd|]. unfold sequence_run. rewrite loop_S.
  fold (sequence_run CIA402_SEQ_FAULT_RESET n d). set (e := sequence_run CIA402_SEQ_FAULT_RESET n d) in *.
  assert (Hcw : (cia402_sequence_controlword CIA402_SEQ_FAULT_RESET (power_state e) 0).1 = 0x80).
  { by destruct IH as [->|[-> _]]. }
  unfold loop_cycle, sequence_answer. rewrite Hcw, drive_remembers. destruct IH as [Hr|[Hf Hb]].
  - destruct (drive_reaction e 0x80 Hr) as [|]; [by left | by right].
  - right. split; [|done]. apply drive_keeps_fault; [done|]. unfold reset_edge. by rewrite Hb.
Qed.
End Sequences.

(** The enabling sequence brings every drive that follows the profile from any state
    but a quick stop or a fault with the reset bit already set to OPERATION ENABLED, within
    four transitions, keeps it there and reports the target as reached. *)
Theorem enable_sequence_reaches_operation {D} `{Drive D} {T : nat} `{!DriveLaws D T} (d : D) :
  enableable d ->
  exists n, (n <= 4 * T)%nat /\ forall m,
    power_state (sequence_run CIA402_SEQ_ENABLE (m + n) d) = CIA402_STATE_OPERATION_ENABLED
    /\ sequence_reached CIA402_SEQ_ENABLE (sequence_run CIA402_SEQ_ENABLE (m + n) d) = true.
Proof.
  intros He. destruct (enable_reaches d He) as (n & Hn & Hs). exists n. split; [done|].
  intros m. pose proof (enabled_stays _ m Hs) as Hm.
  assert (E : sequence_run CIA402_SEQ_ENABLE (m + n) d
              = sequence_run CIA402_SEQ_ENABLE m (sequence_run CIA402_SEQ_ENABLE n d)) by apply loop_add.
  rewrite E. unfold sequence_reached. by rewrite Hm.
Qed.

(** The fault reset sequence holds its reset bit from the fault reaction on, so a
    drive that resets on the rising edge of that bit never leaves the fault, and the
    sequence never reports its target as reached. *)
Theorem fault_reset_has_no_edge {D} `{Drive D} {T : nat} `{!DriveLaws D T} (d : D) (n : nat) :
  power_state d = CIA402_STATE_FAULT_REACTION_ACTIVE ->
  (power_state (sequence_run CIA402_SEQ_FAULT_RESET n d) = CIA402_STATE_FAULT_REACTION_ACTIVE
   \/ power_state (sequence_run CIA402_SEQ_FAULT_RESET n d) = CIA402_STATE_FAULT)
  /\ sequence_reached CIA402_SEQ_FAULT_RESET (sequence_run CIA402_SEQ_FAULT_RESET n d) = false.
Proof.
  intros Hd. unfold sequence_reached.
  destruct (fault_stuck d n) as [->|[-> _]]; [by left | tauto | tauto].
Qed.

(** ** A drive that needs no cycle more than one *)

Record quick_drive : Type := QuickDrive { qd_state : Cia402State; qd_last : Z }.

Definition status_of (s : Cia402State) : Z :=
  match status_pattern s with Some (_, v) => v | None => 0x41 end.

#[export] Instance quick_drive_drive : Drive quick_drive := {
  statusword d := status_of (qd_state d);
  drive_cycle d cw :=
    QuickDrive (default (qd_state d) (commanded (qd_state d) (qd_last d) cw)) cw;
  last_command := qd_last;
}.

Lemma quick_state d : power_state d = qd_state d.
Proof. by destruct d as [[] ?]. Qed.

#[export] Instance quick_drive_laws : DriveLaws quick_drive 1.
Proof.
  split.
  - done.
  - intros d cw s' Hc. exists 1%nat. split; [lia|]. split.
    + intros i Hi. assert (i = 0)%nat as -> by lia. done.
    + cbn. rewrite quick_state in *. cbn in *. by rewrite Hc.
  - intros d cw Hs _. rewrite quick_state in *. cbn. by rewrite Hs.
  - intros d cw Hs He. rewrite quick_state in *. cbn [last_command quick_drive_drive] in He.
    cbn [drive_cycle quick_drive_drive qd_state]. rewrite Hs. cbn [commanded]. by rewrite He.
  - intros d cw Hs. rewrite !quick_state in *. cbn in *. rewrite Hs. by right.
Qed.

Lemma enable_sequence_reaches_operation_witness :
  enableable (QuickDrive CIA402_STATE_FAULT 0)
  /\ exists n, (n <= 4)%nat /\ forall m,
       power_state (sequence_run CIA402_SEQ_ENABLE (m + n) (QuickDrive CIA402_STATE_FAULT 0))
       = CIA402_STATE_OPERATION_ENABLED.
Proof.
  assert (He : enableable (QuickDrive CIA402_STATE_FAULT 0)) by reflexivity.
  split; [exact He|].
  destruct (enable_sequence_reaches_operation (T := 1) _ He) as (n & Hn & Hm).
  exists n. split; [exact Hn|]. intros m. exact (proj1 (Hm m)).
Defined.

Lemma fault_reset_has_no_edge_witness :
  power_state (QuickDrive CIA402_STATE_FAULT_REACTION_ACTIVE 0x0f) = CIA402_STATE_FAULT_REACTION_ACTIVE
  /\ sequence_reached CIA402_SEQ_FAULT_RESET
       (sequence_run CIA402_SEQ_FAULT_RESET 5 (QuickDrive CIA402_STATE_FAULT_REACTION_ACTIVE 0x0f)) = false.
Proof.
  split; [reflexivity|].
  exact (proj2 (fault_reset_has_no_edge (T := 1)
    (QuickDrive CIA402_STATE_FAULT_REACTION_ACTIVE 0x0f) 5 eq_refl)).
Defined.

(** ** Motion outputs *)

(** In profile position mode with a set-point handshake, nothing is sent before the
    sequence is done; after it, the drive stays enabled and the new-set-point bit is set
    in exactly the first [pulse_cycles] cycles, so it rises once per command. *)
Theorem position_setpoint_pulse {F} (command : Cia402MotionCommand F) (cycle : Z)
    (output : Cia402PdoOutput) :
  c_type command = CIA402_MOTION_PROFILE_POSITION -> c_mode command <> CIA402_MODE_CSP ->
  cia402_motion_apply command false cycle output = output
  /\ (let out := cia402_motion_apply command true cycle output in
      Z.land (controlword out) 0x8f = 0x0f
      /\ Z.testbit (controlword out) 4 = (0 <=? cycle) && (cycle <? c_pulse_cycles command)
      /\ o_target_position out = c_target_position command).
Proof.
  intros Ht Hm. unfold cia402_motion_apply. rewrite Ht. cbn [negb]. split; [done|].
  rewrite (proj2 (Z.eqb_neq (c_mode command) CIA402_MODE_CSP)) by done. cbn -[Z.land Z.lor Z.testbit].
  destruct ((0 <=? cycle) && (cycle <? c_pulse_cycles command)); split_and!; reflexivity.
Qed.

Lemma position_setpoint_pulse_witness :
  let command := (cia402_motion_init tt) <| c_type := CIA402_MOTION_PROFILE_POSITION |>
                   <| c_target_position := 500 |> in
  c_mode command <> CIA402_MODE_CSP
  /\ Z.testbit (controlword (cia402_motion_apply command true 19 (PdoOutput 0 0 0 0))) 4 = true
  /\ Z.testbit (controlword (cia402_motion_apply command true 20 (PdoOutput 0 0 0 0))) 4 = false.
Proof.
  intros command. assert (Hm : c_mode command <> CIA402_MODE_CSP) by discriminate.
  split; [exact Hm|]. split.
  - exact (proj1 (proj2 (proj2 (position_setpoint_pulse command 19 (PdoOutput 0 0 0 0) eq_refl Hm)))).
  - exact (proj1 (proj2 (proj2 (position_setpoint_pulse command 20 (PdoOutput 0 0 0 0) eq_refl Hm)))).
Defined.
