(* ===== verification/Num.v ===== *)
(** * Numbers of the profile generator

    The generator computes with C's [double].  Its definitions are written against the
    class [Num], with two instances: [binary64], IEEE 754 double precision with round to
    nearest even, on which they run, and [real], the real numbers, on which their
    kinematics is proved. *)

From Stdlib Require Import SpecFloat Reals Lra.
From S2P Require Import Prelude.

(** Comparisons are those of C: every one of them is false on a NaN.  [n_trunc] is the
    conversion to a 32-bit integer, [None] where it is undefined: for infinities, for a NaN and
    outside the range.  [n_inf] and [n_nan] are [None] when the numbers have none. *)
Class Num (F : Type) : Type := {
  n_of_Z : Z -> F;
  n_frac : Z -> Z -> F;
  n_add : F -> F -> F;
  n_sub : F -> F -> F;
  n_mul : F -> F -> F;
  n_div : F -> F -> F;
  n_opp : F -> F;
  n_sqrt : F -> F;
  n_ltb : F -> F -> bool;
  n_leb : F -> F -> bool;
  n_eqb : F -> F -> bool;
  n_trunc : F -> option Z;
  n_inf : option F;
  n_nan : option F;
}.

Declare Scope num_scope.
Delimit Scope num_scope with num.
Infix "+" := n_add : num_scope.
Infix "-" := n_sub : num_scope.
Infix "*" := n_mul : num_scope.
Infix "/" := n_div : num_scope.
Notation "- x" := (n_opp x) : num_scope.
Infix "<?" := n_ltb : num_scope.
Infix "<=?" := n_leb : num_scope.
Infix "=?" := n_eqb : num_scope.

(** [v], when 32 bits hold it. *)
Definition to_int32 (v : Z) : option Z := if (- 2 ^ 31 <=? v) && (v <? 2 ^ 31) then Some v else None.

Arguments to_int32 : simpl never.

Lemma to_int32_some v : - 2 ^ 31 <= v < 2 ^ 31 -> to_int32 v = Some v.
Proof. intros. unfold to_int32. by replace ((- 2 ^ 31 <=? v) && (v <? 2 ^ 31)) with true by lia. Qed.

(** A number that is not above another is below everything that one is below; this holds in
    the presence of NaNs. *)
Class NumOrder (F : Type) `{Num F} : Prop := {
  n_le_lt : forall x y z, n_leb x y = true -> n_ltb y z = true -> n_ltb x z = true;
}.

(** ** Double precision *)

Definition prec64 : Z := 53.
Definition emax64 : Z := 1024.

Definition sf_of_Z (z : Z) : spec_float := binary_normalize prec64 emax64 z 0 false.

Definition sf_trunc (x : spec_float) : option Z :=
  match x with
  | S754_zero _ => Some 0
  | S754_finite s m e =>
      let v := if 0 <=? e then Z.pos m * 2 ^ e else Z.pos m / 2 ^ (- e) in
      to_int32 (if s then - v else v)
  | S754_infinity _ | S754_nan => None
  end.

(** An integer as it is, with as many bits as it needs. *)
Definition sf_exact (z : Z) : spec_float :=
  match z with Z0 => S754_zero false | Zpos m => S754_finite false m 0 | Zneg m => S754_finite true m 0 end.

(** A decimal constant is the double nearest to it: the quotient of the exact integers is
    rounded once. *)
#[export] Instance binary64 : Num spec_float := {
  n_of_Z := sf_of_Z;
  n_frac p q := SFdiv prec64 emax64 (sf_exact p) (sf_exact q);
  n_add := SFadd prec64 emax64;
  n_sub := SFsub prec64 emax64;
  n_mul := SFmul prec64 emax64;
  n_div := SFdiv prec64 emax64;
  n_opp := SFopp;
  n_sqrt := SFsqrt prec64 emax64;
  n_ltb := SFltb;
  n_leb := SFleb;
  n_eqb := SFeqb;
  n_trunc := sf_trunc;
  n_inf := Some (S754_infinity false);
  n_nan := Some S754_nan;
}.

Lemma sf_le_lt x y z : SFleb x y = true -> SFltb y z = true -> SFltb x z = true.
Proof.
  unfold SFleb, SFltb. destruct x as [sx|sx| |sx mx ex], y as [sy|sy| |sy my ey], z as [sz|sz| |sz mz ez]; cbn; try done.
  all: repeat match goal with b : bool |- _ => destruct b; cbn; try done end.
  all: change PosDef.Pos.compare_cont with Pos.compare_cont; change (Pos.compare_cont Eq) with Pos.compare.
  all: destruct (Z.compare_spec ex ey), (Z.compare_spec ey ez), (Z.compare_spec ex ez); try lia; try done.
  all: destruct (Pos.compare_spec mx my), (Pos.compare_spec my mz), (Pos.compare_spec mx mz); cbn; done || lia.
Qed.

#[export] Instance binary64_order : NumOrder spec_float.
Proof. split. exact sf_le_lt. Qed.

(** ** Real numbers *)

Definition Rltb (x y : R) : bool := if Rlt_dec x y then true else false.
Definition Rleb (x y : R) : bool := if Rle_dec x y then true else false.
Definition Reqb (x y : R) : bool := if Req_dec_T x y then true else false.
Definition Rtrunc (x : R) : Z := if Rleb 0 x then Int_part x else (- Int_part (- x))%Z.

#[export] Instance real : Num R := {
  n_of_Z := IZR;
  n_frac p q := (IZR p / IZR q)%R;
  n_add := Rplus;
  n_sub := Rminus;
  n_mul := Rmult;
  n_div := Rdiv;
  n_opp := Ropp;
  n_sqrt := sqrt;
  n_ltb := Rltb;
  n_leb := Rleb;
  n_eqb := Reqb;
  n_trunc x := to_int32 (Rtrunc x);
  n_inf := None;
  n_nan := None;
}.

Lemma Rltb_spec x y : BoolSpec (x < y)%R (y <= x)%R (Rltb x y).
Proof. unfold Rltb. destruct (Rlt_dec x y); constructor; lra. Qed.
Lemma Rleb_spec x y : BoolSpec (x <= y)%R (y < x)%R (Rleb x y).
Proof. unfold Rleb. destruct (Rle_dec x y); constructor; lra. Qed.
Lemma Reqb_spec x y : BoolSpec (x = y) (x <> y) (Reqb x y).
Proof. unfold Reqb. destruct (Req_dec_T x y); constructor; done. Qed.

#[export] Instance real_order : NumOrder R.
Proof.
  split. intros x y z. cbn. destruct (Rleb_spec x y); [|done]. destruct (Rltb_spec y z); [|done].
  destruct (Rltb_spec x z); [done | lra].
Qed.
