(* ===== verification/Profile.v ===== *)
(** * Motion profile generator (linux_rt/ethercat_rt_core/src/motion_cia402.c)

    The trapezoidal and the seven-segment generators and the cyclic step, over any
    numbers of the class [Num].  The state of the generator is passed along; only the
    conversion of the outputs to integers can fail. *)

From Stdlib Require Import String SpecFloat.
From S2P Require Import Prelude Num Cia402.

(** ** Data *)

Definition CIA402_PROFILE_LMS : Z := 0.
Definition CIA402_PROFILE_TRAPEZOIDAL : Z := 1.
Definition CIA402_PROFILE_SCURVE : Z := 2.
Definition CIA402_PROFILE_JERK_RATIO : Z := 3.
Definition CIA402_SCURVE_SEGMENTS : nat := 7.
Definition CIA402_SCURVE_SOLVE_ITERATIONS : nat := 80.
Definition INT32_MAX : Z := 2147483647.
Definition INT32_MIN : Z := -2147483648.

Record ScurvePhase (F : Type) : Type := Phase { tj : F; ta : F; distance : F }.
Arguments Phase {F}.
Arguments tj {F}.
Arguments ta {F}.
Arguments distance {F}.

Record Cia402MotionProfile (F : Type) : Type := MotionProfile {
  p_type : Cia402MotionType;
  active : bool;
  done_ : bool;
  p_relative : Z;
  cycles : Z;
  position : F;
  velocity : F;
  target_position : F;
  target_velocity : F;
  max_velocity : F;
  acceleration : F;
  deceleration : F;
  acceleration_state : F;
  planner_valid : bool;
  planner_start_position : F;
  planner_distance : F;
  planner_direction : F;
  planner_elapsed_s : F;
  planner_total_s : F;
  planner_segment_time : list F;
  planner_segment_start_s : list F;
  planner_segment_position : list F;
  planner_segment_velocity : list F;
  planner_segment_acceleration : list F;
  planner_segment_jerk : list F;
  profile_type : Z;
  jerk_ratio : F;
  output_position : Z;
  output_velocity : Z;
}.
Arguments MotionProfile {F}.
Arguments p_type {F}.
Arguments active {F}.
Arguments done_ {F}.
Arguments p_relative {F}.
Arguments cycles {F}.
Arguments position {F}.
Arguments velocity {F}.
Arguments target_position {F}.
Arguments target_velocity {F}.
Arguments max_velocity {F}.
Arguments acceleration {F}.
Arguments deceleration {F}.
Arguments acceleration_state {F}.
Arguments planner_valid {F}.
Arguments planner_start_position {F}.
Arguments planner_distance {F}.
Arguments planner_direction {F}.
Arguments planner_elapsed_s {F}.
Arguments planner_total_s {F}.
Arguments planner_segment_time {F}.
Arguments planner_segment_start_s {F}.
Arguments planner_segment_position {F}.
Arguments planner_segment_velocity {F}.
Arguments planner_segment_acceleration {F}.
Arguments planner_segment_jerk {F}.
Arguments profile_type {F}.
Arguments jerk_ratio {F}.
Arguments output_position {F}.
Arguments output_velocity {F}.

(** The configured kind of profile; an unknown one is trapezoidal. *)
Definition normalize_profile_type (profile_type : Z) : Z :=
  if (profile_type =? CIA402_PROFILE_LMS) || (profile_type =? CIA402_PROFILE_TRAPEZOIDAL)
     || (profile_type =? CIA402_PROFILE_SCURVE) || (profile_type =? CIA402_PROFILE_JERK_RATIO)
  then profile_type else CIA402_PROFILE_TRAPEZOIDAL.

Definition cia402_profile_type_text (profile_type : Z) : string :=
  let t := normalize_profile_type profile_type in
  if t =? CIA402_PROFILE_LMS then "LMS"
  else if t =? CIA402_PROFILE_SCURVE then "SCurve"
  else if t =? CIA402_PROFILE_JERK_RATIO then "JerkRatio"
  else "Trapezoidal".

Section Profile.
Context {F : Type} `{Num F}.
Local Open Scope num_scope.
Abbreviation prof := (Cia402MotionProfile F).
Implicit Types p : prof.

(** ** Numbers *)
Definition zero : F := n_of_Z 0.
Definition one : F := n_of_Z 1.
Definition half : F := n_frac 1 2.
Definition CIA402_DEFAULT_PROFILE_VELOCITY : F := n_of_Z 1000.
Definition CIA402_DEFAULT_ACCELERATION : F := n_of_Z 10000.
Definition CIA402_POSITION_EPSILON : F := half.
Definition CIA402_VELOCITY_EPSILON : F := half.
Definition CIA402_MIN_JERK_RAMP_TIME_S : F := n_frac 1 1000.

Definition abs_double (value : F) : F := if value <? zero then - value else value.
Definition max_double (lhs rhs : F) : F := if rhs <? lhs then lhs else rhs.
Definition min_double (lhs rhs : F) : F := if lhs <? rhs then lhs else rhs.
Definition clamp_double (value min_value max_value : F) : F :=
  if value <? min_value then min_value
  else if max_value <? value then max_value else value.

Definition normalize_jerk_ratio (jerk_ratio : F) : F := clamp_double jerk_ratio zero one.

(** [None] where the conversion has no defined result. *)
Definition round_to_i32 (value : F) : option Z :=
  if n_of_Z INT32_MAX <? value then Some INT32_MAX
  else if value <? n_of_Z INT32_MIN then Some INT32_MIN
  else n_trunc (if zero <=? value then value + half else value - half).

Definition configured_speed (value : Z) : F :=
  let speed := abs_double (n_of_Z value) in
  if zero <? speed then speed else CIA402_DEFAULT_PROFILE_VELOCITY.

Definition configured_accel (value : Z) (reference_speed : F) : F :=
  if (0 <? value)%Z then n_of_Z value
  else max_double CIA402_DEFAULT_ACCELERATION (reference_speed * n_of_Z 10).

(** ** Start of a motion *)

Definition zeros7 : list F := replicate CIA402_SCURVE_SEGMENTS zero.

Definition cia402_profile_reset : prof :=
  MotionProfile CIA402_MOTION_NONE false true 0 0 zero zero zero zero zero zero zero zero
    false zero zero zero zero zero zeros7 zeros7 zeros7 zeros7 zeros7 zeros7 0 zero 0 0.

(** [max_velocity], [acceleration] and [deceleration] of a motion. *)
Definition set_limits (command : Cia402MotionCommand F) (reference_speed : F) (p : prof) : prof :=
  p <| max_velocity := reference_speed |>
    <| acceleration := configured_accel (c_acceleration command) reference_speed |>
    <| deceleration := configured_accel (c_deceleration command) reference_speed |>.

Definition cia402_profile_begin (command : Cia402MotionCommand F)
    (actual_position actual_velocity : Z) : prof :=
  let p := cia402_profile_reset in
  if bool_decide (c_type command = CIA402_MOTION_NONE) then p else
  let p := p <| p_type := c_type command |> <| active := true |> <| done_ := false |>
             <| p_relative := c_relative command |> <| cycles := 0%Z |>
             <| position := n_of_Z actual_position |>
             <| velocity := n_of_Z actual_velocity |>
             <| output_position := actual_position |>
             <| output_velocity := actual_velocity |>
             <| acceleration_state := zero |>
             <| profile_type := normalize_profile_type (c_profile_type command) |>
             <| jerk_ratio := normalize_jerk_ratio (c_jerk_ratio command) |> in
  match c_type command with
  | CIA402_MOTION_PROFILE_POSITION =>
      let reference_speed := configured_speed (c_profile_velocity command) in
      let p := p <| target_position :=
                      if negb (c_relative command =? 0)%Z
                      then n_of_Z actual_position + n_of_Z (c_target_position command)
                      else n_of_Z (c_target_position command) |> in
      let p := set_limits command reference_speed p in
      if (abs_double (target_position p - position p) <=? CIA402_POSITION_EPSILON)
         && (abs_double (velocity p) <=? CIA402_VELOCITY_EPSILON)
      then p <| position := target_position p |> <| velocity := zero |> <| done_ := true |>
      else p
  | CIA402_MOTION_JOG_VELOCITY | CIA402_MOTION_HOME =>
      let reference_speed := configured_speed (c_target_velocity command) in
      set_limits command reference_speed
        (p <| target_velocity := n_of_Z (c_target_velocity command) |>)
  | CIA402_MOTION_SERVO_STOP =>
      let reference_speed := configured_speed actual_velocity in
      set_limits command reference_speed (p <| target_velocity := zero |>)
  | CIA402_MOTION_NONE => p <| active := false |> <| done_ := true |>
  end.

(** ** Velocity ramps *)

Definition ramp_velocity (current target acceleration deceleration dt_s : F) : F :=
  let delta := target - current in
  if abs_double delta <=? CIA402_VELOCITY_EPSILON then target else
  let limit := (if (target =? zero) || (abs_double target <? abs_double current)
                then deceleration else acceleration) * dt_s in
  if limit <=? zero then target
  else if abs_double delta <=? limit then target
  else current + (if zero <? delta then limit else - limit).

Definition profile_ramp_time_s (p : prof) : F :=
  let t := normalize_profile_type (profile_type p) in
  if (t =? CIA402_PROFILE_LMS)%Z then n_frac 35 100
  else if (t =? CIA402_PROFILE_SCURVE)%Z then n_frac 25 100
  else if (t =? CIA402_PROFILE_JERK_RATIO)%Z then
    n_frac 3 100 + normalize_jerk_ratio (jerk_ratio p) * n_frac 30 100
  else zero.

(** The new [acceleration_state], which is also the result of the function. *)
Definition slew_acceleration (p : prof) (target_acceleration dt_s : F) : F :=
  let ramp_time := profile_ramp_time_s p in
  if ramp_time <=? zero then target_acceleration else
  let max_acceleration := max_double (acceleration p) (deceleration p) in
  if max_acceleration <=? zero then target_acceleration else
  let jerk_limit := max_acceleration / ramp_time in
  let max_delta := jerk_limit * dt_s in
  let delta := target_acceleration - acceleration_state p in
  if abs_double delta <=? max_delta then target_acceleration
  else acceleration_state p + (if zero <? delta then max_delta else - max_delta).

(** The next velocity, and the profile with its new [acceleration_state]. *)
Definition ramp_velocity_by_profile (p : prof) (target dt_s : F) : F * prof :=
  if profile_ramp_time_s p <=? zero then
    (ramp_velocity (velocity p) target (acceleration p) (deceleration p) dt_s, p)
  else
    let delta := target - velocity p in
    if abs_double delta <=? CIA402_VELOCITY_EPSILON
    then (target, p <| acceleration_state := zero |>)
    else
      let limit_acceleration :=
        if (target =? zero) || (abs_double target <? abs_double (velocity p))
        then deceleration p else acceleration p in
      let target_acceleration :=
        if zero <? delta then limit_acceleration else - limit_acceleration in
      let a := slew_acceleration p target_acceleration dt_s in
      let next_velocity := velocity p + a * dt_s in
      if ((zero <? delta) && (target <? next_velocity))
         || ((delta <? zero) && (next_velocity <? target))
      then (target, p <| acceleration_state := zero |>)
      else (next_velocity, p <| acceleration_state := a |>).

(** ** The seven-segment plan *)

Definition scurve_phase_from_peak_velocity (peak_velocity acceleration jerk : F)
    : ScurvePhase F :=
  if (peak_velocity <=? zero) || (acceleration <=? zero) || (jerk <=? zero)
  then Phase zero zero zero
  else
    let full_tj := acceleration / jerk in
    if acceleration * full_tj <=? peak_velocity then
      let tj := full_tj in
      let ta := peak_velocity / acceleration - full_tj in
      Phase tj ta (acceleration * tj * tj + n_frac 3 2 * acceleration * tj * ta
                   + half * acceleration * ta * ta)
    else
      let tj := n_sqrt (peak_velocity / jerk) in
      Phase tj zero (peak_velocity * tj).

Definition scurve_distance_for_peak_velocity
    (peak_velocity acceleration deceleration accel_jerk decel_jerk : F) : F :=
  distance (scurve_phase_from_peak_velocity peak_velocity acceleration accel_jerk)
  + distance (scurve_phase_from_peak_velocity peak_velocity deceleration decel_jerk).

Definition scurve_store_segment (p : prof) (segment : nat)
    (start_s position velocity acceleration jerk duration : F) : prof :=
  p <| planner_segment_start_s ::= <[segment := start_s]> |>
    <| planner_segment_position ::= <[segment := position]> |>
    <| planner_segment_velocity ::= <[segment := velocity]> |>
    <| planner_segment_acceleration ::= <[segment := acceleration]> |>
    <| planner_segment_jerk ::= <[segment := jerk]> |>
    <| planner_segment_time ::= <[segment := duration]> |>.

Definition scurve_advance_segment (pva : F * F * F) (jerk duration : F) : F * F * F :=
  let '(position, velocity, acceleration) := pva in
  let dt2 := duration * duration in
  let dt3 := dt2 * duration in
  (position + (velocity * duration + half * acceleration * dt2 + (jerk * dt3) / n_of_Z 6),
   velocity + (acceleration * duration + half * jerk * dt2),
   acceleration + jerk * duration).

(** The bisection for the peak velocity: [low] after [n] rounds. *)
Fixpoint scurve_bisect (n : nat) (p : prof) (accel_jerk decel_jerk dist low high : F) : F :=
  match n with
  | O => low
  | S n' =>
      let mid := (low + high) * half in
      let mid_distance := scurve_distance_for_peak_velocity mid (acceleration p)
                            (deceleration p) accel_jerk decel_jerk in
      if mid_distance <=? dist then scurve_bisect n' p accel_jerk decel_jerk dist mid high
      else scurve_bisect n' p accel_jerk decel_jerk dist low mid
  end.

(** Peak velocity and cruise time for a distance. *)
Definition scurve_peak (p : prof) (accel_jerk decel_jerk dist : F) : F * F :=
  let accel_decel_distance :=
    scurve_distance_for_peak_velocity (max_velocity p) (acceleration p) (deceleration p)
      accel_jerk decel_jerk in
  if accel_decel_distance <=? dist
  then (max_velocity p, (dist - accel_decel_distance) / max_velocity p)
  else (scurve_bisect CIA402_SCURVE_SOLVE_ITERATIONS p accel_jerk decel_jerk dist zero
          (max_velocity p), zero).

(** The loop over the segments: position, velocity and acceleration at the end of
    them, the time they take, and the profile with the segments stored. *)
Fixpoint scurve_segments (i : nat) (segs : list (F * F)) (pva : F * F * F) (elapsed : F)
    (p : prof) : F * F * F * F * prof :=
  match segs with
  | [] => (pva, elapsed, p)
  | (time, jerk) :: segs' =>
      let p := scurve_store_segment p i elapsed pva.1.1 pva.1.2 pva.2 jerk time in
      scurve_segments (S i) segs' (scurve_advance_segment pva jerk time) (elapsed + time) p
  end.

(** [segment_time] and [segment_jerk] of the seven segments. *)
Definition scurve_plan_segments (accel_phase decel_phase : ScurvePhase F)
    (cruise_time accel_jerk decel_jerk : F) : list (F * F) :=
  [(tj accel_phase, accel_jerk); (ta accel_phase, zero); (tj accel_phase, - accel_jerk);
   (cruise_time, zero);
   (tj decel_phase, - decel_jerk); (ta decel_phase, zero); (tj decel_phase, decel_jerk)].

Definition scurve_clear_plan (p : prof) : prof :=
  p <| planner_valid := false |> <| planner_elapsed_s := zero |>
    <| planner_total_s := zero |>
    <| planner_segment_time := zeros7 |> <| planner_segment_start_s := zeros7 |>
    <| planner_segment_position := zeros7 |> <| planner_segment_velocity := zeros7 |>
    <| planner_segment_acceleration := zeros7 |> <| planner_segment_jerk := zeros7 |>.

(** The second half of the construction, from the jerks on: whether there is a plan, and
    the profile. *)
Definition scurve_fill_plan (p : prof) (dist accel_jerk decel_jerk : F) : bool * prof :=
  let '(peak_velocity, cruise_time) := scurve_peak p accel_jerk decel_jerk dist in
  if peak_velocity <=? CIA402_VELOCITY_EPSILON then (false, p) else
  let accel_phase := scurve_phase_from_peak_velocity peak_velocity (acceleration p) accel_jerk in
  let decel_phase := scurve_phase_from_peak_velocity peak_velocity (deceleration p) decel_jerk in
  let '(_, elapsed, p) := scurve_segments 0
    (scurve_plan_segments accel_phase decel_phase cruise_time accel_jerk decel_jerk)
    (zero, zero, zero) zero p in
  if elapsed <=? zero then (false, p) else
  (true, p <| planner_valid := true |> <| planner_start_position := position p |>
           <| planner_distance := dist |>
           <| planner_direction :=
                if position p <=? target_position p then one else - one |>
           <| planner_total_s := elapsed |>).

(** Build the plan: whether there is one, and the profile. *)
Definition scurve_build_position_plan (p : prof) : bool * prof :=
  let p := scurve_clear_plan p in
  let dist := abs_double (target_position p - position p) in
  if dist <=? CIA402_POSITION_EPSILON then (false, p) else
  if CIA402_VELOCITY_EPSILON <? abs_double (velocity p) then (false, p) else
  if (max_velocity p <=? zero) || (acceleration p <=? zero) || (deceleration p <=? zero)
  then (false, p) else
  let ramp_time := profile_ramp_time_s p in
  if ramp_time <=? zero then (false, p) else
  let ramp_time := max_double ramp_time CIA402_MIN_JERK_RAMP_TIME_S in
  let accel_jerk := acceleration p / ramp_time in
  let decel_jerk := deceleration p / ramp_time in
  if (accel_jerk <=? zero) || (decel_jerk <=? zero) then (false, p) else
  scurve_fill_plan p dist accel_jerk decel_jerk.

(** ** One cycle of a position profile *)

(** The speed along the direction of motion after one cycle. *)
Definition trapezoidal_speed (p : prof) (velocity_along remaining dt_s : F) : F :=
  if velocity_along <? zero then
    let v := velocity_along + deceleration p * dt_s in
    if zero <? v then zero else v
  else
    let stop_distance := (velocity_along * velocity_along) / (n_of_Z 2 * deceleration p) in
    if remaining <=? stop_distance + CIA402_POSITION_EPSILON then
      let v := velocity_along - deceleration p * dt_s in
      if v <? zero then zero else v
    else
      let v := velocity_along + acceleration p * dt_s in
      if max_velocity p <? v then max_velocity p else v.

Definition step_position_profile_trapezoidal (p : prof) (dt_s : F) : prof :=
  if done_ p then p else
  let error := target_position p - position p in
  let remaining := abs_double error in
  if (remaining <=? CIA402_POSITION_EPSILON)
     && (abs_double (velocity p) <=? CIA402_VELOCITY_EPSILON)
  then p <| position := target_position p |> <| velocity := zero |> <| done_ := true |>
  else
    let direction := if zero <=? error then one else - one in
    let velocity_along := trapezoidal_speed p (velocity p * direction) remaining dt_s in
    let p := p <| velocity := direction * velocity_along |> in
    let p := p <| position := position p + velocity p * dt_s |> in
    if ((zero <? direction) && (target_position p <=? position p))
       || ((direction <? zero) && (position p <=? target_position p))
    then p <| position := target_position p |> <| velocity := zero |> <| done_ := true |>
    else p.

(** The segment the time [elapsed] falls in. *)
Fixpoint find_segment (i n : nat) (p : prof) (elapsed : F) : nat :=
  match n with
  | O => O
  | S n' =>
      let start := nth i (planner_segment_start_s p) zero in
      let end_ := start + nth i (planner_segment_time p) zero in
      if (elapsed <=? end_) || bool_decide (i = CIA402_SCURVE_SEGMENTS - 1)%nat then i
      else find_segment (S i) n' p elapsed
  end.

(** Position, velocity and acceleration of the plan at time [elapsed]. *)
Definition plan_sample (p : prof) (elapsed : F) : F * F * F :=
  let segment := find_segment 0 CIA402_SCURVE_SEGMENTS p elapsed in
  let tau := elapsed - nth segment (planner_segment_start_s p) zero in
  let tau := clamp_double tau zero (nth segment (planner_segment_time p) zero) in
  let tau2 := tau * tau in
  let tau3 := tau2 * tau in
  (nth segment (planner_segment_position p) zero
     + nth segment (planner_segment_velocity p) zero * tau
     + half * nth segment (planner_segment_acceleration p) zero * tau2
     + (nth segment (planner_segment_jerk p) zero * tau3) / n_of_Z 6,
   nth segment (planner_segment_velocity p) zero
     + nth segment (planner_segment_acceleration p) zero * tau
     + half * nth segment (planner_segment_jerk p) zero * tau2,
   nth segment (planner_segment_acceleration p) zero
     + nth segment (planner_segment_jerk p) zero * tau).

Definition step_position_profile_smooth (p : prof) (dt_s : F) : prof :=
  if done_ p then p else
  let bp := if planner_valid p then (true, p) else scurve_build_position_plan p in
  let p := bp.2 in
  if negb bp.1 then step_position_profile_trapezoidal p dt_s else
  let p := p <| planner_elapsed_s := planner_elapsed_s p + dt_s |> in
  if planner_total_s p <=? planner_elapsed_s p
  then p <| position := target_position p |> <| velocity := zero |>
         <| acceleration_state := zero |> <| done_ := true |>
  else
    let elapsed := clamp_double (planner_elapsed_s p) zero (planner_total_s p) in
    let s := plan_sample p elapsed in
    let pos := min_double (max_double s.1.1 zero) (planner_distance p) in
    let vel := min_double (max_double s.1.2 zero) (max_velocity p) in
    p <| position := planner_start_position p + planner_direction p * pos |>
      <| velocity := planner_direction p * vel |>
      <| acceleration_state := planner_direction p * s.2 |>.

Definition step_position_profile (p : prof) (dt_s : F) : prof :=
  if profile_ramp_time_s p <=? zero then step_position_profile_trapezoidal p dt_s
  else step_position_profile_smooth p dt_s.

(** ** The cyclic step *)

Definition cia402_dt_s (period_us : Z) : F :=
  let dt_s := (if (0 <? period_us)%Z then n_of_Z period_us else n_of_Z 1000)
              / n_of_Z 1000000 in
  if dt_s <=? zero then n_frac 1 1000 else dt_s.

(** The motion part of the step: the profile and the outputs but for the rounding. *)
Definition cia402_motion_step (p : prof) (command : Cia402MotionCommand F)
    (actual_position : Z) (dt_s : F) : prof :=
  match c_type command with
  | CIA402_MOTION_PROFILE_POSITION => step_position_profile p dt_s
  | CIA402_MOTION_JOG_VELOCITY =>
      let r := ramp_velocity_by_profile p (target_velocity p) dt_s in
      let p := r.2 <| velocity := r.1 |> <| position := n_of_Z actual_position |> in
      p <| done_ := (target_velocity p =? zero)
                    && (abs_double (velocity p) <=? CIA402_VELOCITY_EPSILON) |>
  | CIA402_MOTION_SERVO_STOP =>
      let r := ramp_velocity_by_profile p zero dt_s in
      let p := r.2 <| velocity := r.1 |> <| position := n_of_Z actual_position |> in
      let p := p <| done_ := abs_double (velocity p) <=? CIA402_VELOCITY_EPSILON |> in
      if done_ p then p <| velocity := zero |> else p
  | CIA402_MOTION_HOME =>
      let r := ramp_velocity_by_profile (p <| position := n_of_Z actual_position |>)
                 (target_velocity p) dt_s in
      r.2 <| velocity := r.1 |> <| done_ := false |>
  | CIA402_MOTION_NONE => p <| done_ := true |>
  end.

Definition mode_or (command : Cia402MotionCommand F) (mode : Z) : Z :=
  if negb (c_mode command =? 0)%Z then c_mode command else mode.

(** The PDO outputs of a motion: [None] when a rounding is undefined. *)
Definition cia402_motion_output (p : prof) (command : Cia402MotionCommand F)
    (actual_position : Z) (output : Cia402PdoOutput) : option Cia402PdoOutput :=
  match c_type command with
  | CIA402_MOTION_PROFILE_POSITION =>
      pos ← round_to_i32 (position p);
      vel ← round_to_i32 (velocity p);
      Some (PdoOutput 0x000f pos vel (mode_or command CIA402_MODE_CSP))
  | CIA402_MOTION_JOG_VELOCITY =>
      vel ← round_to_i32 (velocity p);
      Some (PdoOutput 0x000f actual_position vel (mode_or command CIA402_MODE_CSV))
  | CIA402_MOTION_SERVO_STOP =>
      vel ← round_to_i32 (velocity p);
      Some (PdoOutput 0x010f actual_position vel (mode_or command CIA402_MODE_CSV))
  | CIA402_MOTION_HOME =>
      vel ← round_to_i32 (velocity p);
      Some (PdoOutput 0x001f actual_position vel CIA402_MODE_HOMING)
  | CIA402_MOTION_NONE => Some output
  end.

(** One cycle: done, the profile and the outputs. *)
Definition cia402_profile_step (p : prof) (command : Cia402MotionCommand F)
    (actual_position actual_velocity period_us : Z) (output : Cia402PdoOutput)
    : res (bool * prof * Cia402PdoOutput) :=
  if bool_decide (c_type command = CIA402_MOTION_NONE) then Ok (true, p, output) else
  let p := if negb (active p) || negb (bool_decide (p_type p = c_type command))
           then cia402_profile_begin command actual_position actual_velocity else p in
  let dt_s := cia402_dt_s period_us in
  let p := cia402_motion_step p command actual_position dt_s in
  match cia402_motion_output p command actual_position output with
  | None => Err BadConversion
  | Some output =>
      let p := p <| output_position := o_target_position output |>
                 <| output_velocity := o_target_velocity output |>
                 <| cycles := s64 (cycles p + 1) |> in
      Ok (done_ p, p, output)
  end.
End Profile.
