(* ===== verification/PlanBuild.v ===== *)
(** * The seven-segment plan and how it is built, over the real numbers

    The kinematics of segments and samples first, then the search for the peak speed and the
    plan it gives. *)

From Stdlib Require Import Reals Lra Psatz.
From S2P Require Import Prelude Cia402 Num Profile.
Open Scope R_scope.

(** * The seven-segment plan over the real numbers

    Each segment has a constant jerk.  The lemmas follow the code: the phase of a ramp,
    the segments in sequence, and the samples taken from them. *)

(** Unfold the operations of the class at the real numbers. *)
Ltac num_unfold :=
  unfold CIA402_DEFAULT_PROFILE_VELOCITY, CIA402_DEFAULT_ACCELERATION,
    CIA402_POSITION_EPSILON, CIA402_VELOCITY_EPSILON, CIA402_MIN_JERK_RAMP_TIME_S,
    zero, one, half in *;
  cbn [n_of_Z n_frac n_add n_sub n_mul n_div n_opp n_sqrt n_ltb n_leb n_eqb real] in *.

(** Case analysis on the comparisons of the goal. *)
Ltac num_cases :=
  repeat match goal with
  | |- context [Rleb ?x ?y] => destruct (Rleb_spec x y)
  | |- context [Rltb ?x ?y] => destruct (Rltb_spec x y)
  | |- context [Reqb ?x ?y] => destruct (Reqb_spec x y)
  end.

Lemma abs_double_Rabs x : abs_double x = Rabs x.
Proof.
  unfold abs_double. num_unfold. destruct (Rltb_spec x 0).
  - by rewrite Rabs_left.
  - rewrite Rabs_right; lra.
Qed.

Lemma max_double_Rmax x y : max_double x y = Rmax x y.
Proof.
  unfold max_double. num_unfold. destruct (Rltb_spec y x).
  - rewrite Rmax_left; lra.
  - rewrite Rmax_right; lra.
Qed.

Lemma min_double_Rmin x y : min_double x y = Rmin x y.
Proof.
  unfold min_double. num_unfold. destruct (Rltb_spec x y).
  - rewrite Rmin_left; lra.
  - rewrite Rmin_right; lra.
Qed.

Lemma clamp_between x lo hi : lo <= hi -> lo <= clamp_double x lo hi <= hi.
Proof. intros. unfold clamp_double. num_unfold. num_cases; lra. Qed.

Lemma clamp_id x lo hi : lo <= x <= hi -> clamp_double x lo hi = x.
Proof. intros. unfold clamp_double. num_unfold. num_cases; lra. Qed.

(** ** Ramps *)

(** A ramp of jerk [j] to the speed [V]: jerk for [tj], constant acceleration for [ta],
    jerk back for [tj]. *)
Record ramp_ok (ph : ScurvePhase R) (V A j : R) : Prop := RampOk {
  ramp_tj : 0 < tj ph;
  ramp_ta : 0 <= ta ph;
  ramp_speed : V = j * tj ph * (tj ph + ta ph);
  ramp_accel : j * tj ph <= A;
  ramp_distance : distance ph = V * (2 * tj ph + ta ph) / 2;
}.

Lemma phase_ok (V A j : R) :
  0 < V -> 0 < A -> 0 < j -> ramp_ok (scurve_phase_from_peak_velocity V A j) V A j.
Proof.
  intros HV HA Hj. unfold scurve_phase_from_peak_velocity. num_unfold.
  destruct (Rleb_spec V 0); [lra|]. destruct (Rleb_spec A 0); [lra|].
  destruct (Rleb_spec j 0); [lra|]. cbn [orb].
  assert (Hjt : j * (A / j) = A) by (field; lra).
  assert (0 < A / j) by (by apply Rdiv_lt_0_compat).
  destruct (Rleb_spec (A * (A / j)) V) as [Hle|Hlt].
  - assert (HVA : A * (V / A) = V) by (field; lra).
    split; cbn; [done | nra | rewrite Hjt; nra | lra |].
    set (u := A / j) in *. set (w := V / A) in *. nra.
  - assert (0 < V / j) by (by apply Rdiv_lt_0_compat).
    pose proof (sqrt_lt_R0 (V / j) ltac:(done)) as Hs.
    pose proof (sqrt_sqrt (V / j) ltac:(lra)) as Hss.
    assert (HVj : j * (V / j) = V) by (field; lra).
    set (s := sqrt (V / j)) in *.
    split; cbn; [done | lra | nra | | lra].
    apply Rnot_lt_le. intros Hgt.
    assert (V < A * (A / j)) by lra.
    assert (V = j * s * s) by nra.
    assert (A * A < j * s * (j * s)) by nra.
    assert (A * (A / j) * j = A * A) by (field; lra). nra.
Qed.

(** ** A segment of constant jerk *)

Abbreviation motion := (R * R * R)%type.
Definition speed (s : motion) : R := s.1.2.
Definition accel (s : motion) : R := s.2.
Definition place (s : motion) : R := s.1.1.

(** Equality of two motions, field by field. *)
Ltac motion_eq := apply f_equal2; [apply f_equal2|].

(** The motion at time [tau] of a segment that starts at [s]. *)
Abbreviation at_time s j tau := (scurve_advance_segment (F := R) s j tau).

Lemma at_time_eq (p v a j tau : R) :
  at_time (p, v, a) j tau
  = (p + v * tau + a * tau * tau / 2 + j * tau * tau * tau / 6,
     v + a * tau + j * tau * tau / 2, a + j * tau).
Proof. unfold scurve_advance_segment. num_unfold. motion_eq; field. Qed.

(** Speed and acceleration stay in their bounds during [T]. *)
Definition seg_bounds (V A D : R) (s : motion) (j T : R) : Prop :=
  forall tau, 0 <= tau <= T ->
    0 <= speed (at_time s j tau) <= V /\ - D <= accel (at_time s j tau) <= A.

(** Simpson's rule is exact on a segment, so the place does not go back where the speed is
    not negative. *)
Lemma simpson s j sigma tau :
  place (at_time s j tau) - place (at_time s j sigma)
  = (tau - sigma) / 6 * (speed (at_time s j sigma) + 4 * speed (at_time s j ((sigma + tau) / 2))
                         + speed (at_time s j tau)).
Proof. destruct s as [[p v] a]. rewrite !at_time_eq. cbn. field. Qed.

Lemma seg_monotone V A D s j T sigma tau :
  seg_bounds V A D s j T -> 0 <= sigma <= tau -> tau <= T ->
  place (at_time s j sigma) <= place (at_time s j tau).
Proof.
  intros Hb Hs Ht.
  destruct (Hb sigma ltac:(lra)) as [[? _] _]. destruct (Hb tau ltac:(lra)) as [[? _] _].
  destruct (Hb ((sigma + tau) / 2) ltac:(lra)) as [[? _] _].
  pose proof (simpson s j sigma tau). nra.
Qed.

Lemma at_time_0 s j : at_time s j 0 = s.
Proof. destruct s as [[p v] a]. rewrite at_time_eq. motion_eq; field. Qed.

(** ** The seven segments *)

Section Seven.
Context (ph1 ph2 : ScurvePhase R) (V A D j1 j2 tc : R).
Hypotheses (H1 : ramp_ok ph1 V A j1) (H2 : ramp_ok ph2 V D j2).
Hypotheses (Hj1 : 0 < j1) (Hj2 : 0 < j2) (Htc : 0 <= tc) (HV : 0 < V) (HA : 0 < A) (HD : 0 < D).

Definition seven : list (R * R) := scurve_plan_segments ph1 ph2 tc j1 j2.

(** The motion at the start of segment [k]; at 7, the end of the plan. *)
Definition start (k : nat) : motion :=
  foldl (fun s x => at_time s x.2 x.1) (0, 0, 0) (take k seven).

Abbreviation t1 := (tj ph1).
Abbreviation a1 := (ta ph1).
Abbreviation t2 := (tj ph2).
Abbreviation a2 := (ta ph2).

Lemma start_1 : start 1 = (j1 * t1 * t1 * t1 / 6, j1 * t1 * t1 / 2, j1 * t1).
Proof.
  change (start 1) with (at_time (0, 0, 0) j1 t1). rewrite at_time_eq. motion_eq; field.
Qed.

Lemma start_2 : start 2 = (j1 * t1 * t1 * t1 / 6 + j1 * t1 * t1 / 2 * a1 + j1 * t1 * a1 * a1 / 2,
                           V - j1 * t1 * t1 / 2, j1 * t1).
Proof.
  change (start 2) with (at_time (start 1) zero a1). rewrite start_1, at_time_eq. num_unfold.
  pose proof (ramp_speed _ _ _ _ H1) as Hs.
  motion_eq; [field | rewrite Hs; field | field].
Qed.

Lemma start_3 : start 3 = (distance ph1, V, 0).
Proof.
  change (start 3) with (at_time (start 2) (- j1) t1). rewrite start_2, at_time_eq.
  pose proof (ramp_speed _ _ _ _ H1) as Hs. pose proof (ramp_distance _ _ _ _ H1) as Hd.
  rewrite Hd. motion_eq; [rewrite Hs; field | field | field].
Qed.

Lemma start_4 : start 4 = (distance ph1 + V * tc, V, 0).
Proof.
  change (start 4) with (at_time (start 3) zero tc). rewrite start_3, at_time_eq. num_unfold.
  motion_eq; field.
Qed.

Lemma start_5 : start 5 = (distance ph1 + V * tc + V * t2 - j2 * t2 * t2 * t2 / 6,
                           V - j2 * t2 * t2 / 2, - (j2 * t2)).
Proof.
  change (start 5) with (at_time (start 4) (- j2) t2). rewrite start_4, at_time_eq.
  motion_eq; field.
Qed.

Lemma start_6 : start 6 = (distance ph1 + V * tc + V * t2 - j2 * t2 * t2 * t2 / 6
                           + (V - j2 * t2 * t2 / 2) * a2 - j2 * t2 * a2 * a2 / 2,
                           j2 * t2 * t2 / 2, - (j2 * t2)).
Proof.
  change (start 6) with (at_time (start 5) zero a2). rewrite start_5, at_time_eq. num_unfold.
  pose proof (ramp_speed _ _ _ _ H2) as Hs.
  motion_eq; [field | rewrite Hs; field | field].
Qed.

(** The plan ends at rest, after the two ramps and the cruise. *)
Lemma start_7 : start 7 = (distance ph1 + V * tc + distance ph2, 0, 0).
Proof.
  change (start 7) with (at_time (start 6) j2 t2). rewrite start_6, at_time_eq.
  pose proof (ramp_speed _ _ _ _ H2) as Hs. pose proof (ramp_distance _ _ _ _ H2) as Hd.
  rewrite Hd. motion_eq; [rewrite Hs; field | field | field].
Qed.

Lemma start_S k t j : seven !! k = Some (t, j) -> start (S k) = at_time (start k) j t.
Proof. intros Hk. unfold start. by rewrite (take_S_r _ _ _ Hk), foldl_app. Qed.

Lemma seven_time k t j : seven !! k = Some (t, j) -> 0 <= t.
Proof.
  pose proof (ramp_tj _ _ _ _ H1). pose proof (ramp_ta _ _ _ _ H1).
  pose proof (ramp_tj _ _ _ _ H2). pose proof (ramp_ta _ _ _ _ H2).
  intros Hk. do 7 (destruct k as [|k]; [cbn in Hk; injection Hk as <- <-; lra|]). done.
Qed.

(** A jerk [j] for a time [tau] of at most [t]. *)
Lemma jerk_bounds j t tau :
  0 < j -> 0 <= tau <= t -> 0 <= j * tau <= j * t /\ 0 <= j * tau * tau <= j * t * t.
Proof. intros Hj Ht. assert (0 <= j * tau <= j * t) by nra. split_and!; nra. Qed.

(** In every segment the speed is between 0 and [V] and the acceleration in its bounds. *)
Lemma seven_bounds k t j : seven !! k = Some (t, j) -> seg_bounds V A D (start k) j t.
Proof.
  pose proof (ramp_tj _ _ _ _ H1) as P1. pose proof (ramp_ta _ _ _ _ H1) as Q1.
  pose proof (ramp_tj _ _ _ _ H2) as P2. pose proof (ramp_ta _ _ _ _ H2) as Q2.
  pose proof (ramp_speed _ _ _ _ H1) as S1. pose proof (ramp_speed _ _ _ _ H2) as S2.
  pose proof (ramp_accel _ _ _ _ H1) as A1. pose proof (ramp_accel _ _ _ _ H2) as A2.
  intros Hk tau Htau.
  assert (0 < j1 * t1) by nra. assert (0 < j2 * t2) by nra.
  assert (0 <= j1 * t1 * a1) by nra. assert (0 <= j2 * t2 * a2) by nra.
  assert (0 <= j1 * t1 * t1) by nra. assert (0 <= j2 * t2 * t2) by nra.
  assert (V = j1 * t1 * t1 + j1 * t1 * a1) by nra. assert (V = j2 * t2 * t2 + j2 * t2 * a2) by nra.
  destruct k as [|[|[|[|[|[|[|k]]]]]]]; [.. | done]; cbn in Hk; injection Hk as <- <-.
  - change (start 0) with ((0, 0, 0) : motion). rewrite at_time_eq. unfold speed, accel. cbn.
    destruct (jerk_bounds j1 t1 tau Hj1 Htau). split_and!; lra.
  - rewrite start_1, at_time_eq. unfold speed, accel. num_unfold. cbn.
    assert (0 <= j1 * t1 * tau <= j1 * t1 * a1) by nra. split_and!; lra.
  - rewrite start_2, at_time_eq. unfold speed, accel. num_unfold. cbn.
    destruct (jerk_bounds j1 t1 (t1 - tau) Hj1 ltac:(lra)). split_and!; lra.
  - rewrite start_3, at_time_eq. unfold speed, accel. num_unfold. cbn. split_and!; lra.
  - rewrite start_4, at_time_eq. unfold speed, accel. num_unfold. cbn.
    destruct (jerk_bounds j2 t2 tau Hj2 Htau). split_and!; lra.
  - rewrite start_5, at_time_eq. unfold speed, accel. num_unfold. cbn.
    assert (0 <= j2 * t2 * tau <= j2 * t2 * a2) by nra. split_and!; lra.
  - rewrite start_6, at_time_eq. unfold speed, accel. num_unfold. cbn.
    destruct (jerk_bounds j2 t2 (t2 - tau) Hj2 ltac:(lra)). split_and!; lra.
Qed.

(** The places at the starts of the segments are in order. *)
Lemma start_place_S k t j :
  seven !! k = Some (t, j) -> place (start k) <= place (start (S k)).
Proof.
  intros Hk. rewrite (start_S _ _ _ Hk). rewrite <- (at_time_0 (start k) j) at 1.
  eapply seg_monotone; [by apply (seven_bounds k t) | | lra].
  pose proof (seven_time _ _ _ Hk). lra.
Qed.

Lemma seven_lookup k : (k < 7)%nat -> exists t j, seven !! k = Some (t, j).
Proof. intros Hk. do 7 (destruct k as [|k]; [cbn; eauto|]). lia. Qed.

Lemma start_place_mono k l : (k <= l <= 7)%nat -> place (start k) <= place (start l).
Proof.
  intros [Hkl Hl]. induction l as [|l IH].
  - assert (k = 0)%nat as -> by lia. lra.
  - destruct (decide (k = S l)) as [->|Hne]; [lra|].
    destruct (seven_lookup l) as (t & j & Hk); [lia|].
    pose proof (start_place_S _ _ _ Hk). specialize (IH ltac:(lia) ltac:(lia)). lra.
Qed.

(** A sample of any segment is a place between the start and the end of the plan. *)
Lemma seven_place k t j tau :
  seven !! k = Some (t, j) -> 0 <= tau <= t ->
  0 <= place (at_time (start k) j tau) <= distance ph1 + V * tc + distance ph2.
Proof.
  intros Hk Htau. pose proof (lookup_lt_Some _ _ _ Hk) as Hlt. cbn in Hlt.
  pose proof (seven_bounds _ _ _ Hk) as Hb.
  pose proof (seg_monotone _ _ _ _ _ _ 0 tau Hb ltac:(lra) ltac:(lra)) as Hlo.
  pose proof (seg_monotone _ _ _ _ _ _ tau t Hb ltac:(lra) ltac:(lra)) as Hhi.
  rewrite at_time_0 in Hlo. rewrite <- (start_S _ _ _ Hk) in Hhi.
  pose proof (start_place_mono 0 k ltac:(lia)) as H0.
  pose proof (start_place_mono (S k) 7 ltac:(lia)) as H7.
  rewrite start_7 in H7. change (place (start 0)) with 0 in H0. unfold place in H7 at 2.
  cbn [fst snd] in H7. lra.
Qed.
End Seven.

(** ** The peak speed *)

Section Peak.
Context (p : Cia402MotionProfile R) (j1 j2 dist : R).
Hypotheses (HA : 0 < acceleration p) (HD : 0 < deceleration p) (Hj1 : 0 < j1) (Hj2 : 0 < j2).

(** The distance of the two ramps at peak speed [V]. *)
Definition ramps (V : R) : R :=
  scurve_distance_for_peak_velocity V (acceleration p) (deceleration p) j1 j2.

Lemma ramps_0 : ramps 0 = 0.
Proof.
  unfold ramps, scurve_distance_for_peak_velocity, scurve_phase_from_peak_velocity. num_unfold.
  destruct (Rleb_spec 0 0); [|lra]. cbn. lra.
Qed.

Lemma ramps_pos V : 0 < V -> 0 < ramps V.
Proof.
  intros HV. unfold ramps, scurve_distance_for_peak_velocity. num_unfold.
  destruct (phase_ok V _ j1 HV HA Hj1) as [P1 Q1 _ _ ->].
  destruct (phase_ok V _ j2 HV HD Hj2) as [P2 Q2 _ _ ->].
  assert (Hpos : forall x y, 0 < x -> 0 <= y -> 0 < V * (2 * x + y)).
  { intros. apply Rmult_lt_0_compat; lra. }
  pose proof (Hpos _ _ P1 Q1). pose proof (Hpos _ _ P2 Q2). lra.
Qed.

(** The bisection keeps [ramps low <= dist < ramps high] and halves the interval. *)
Lemma bisect_spec n low high :
  low <= high -> ramps low <= dist -> dist < ramps high ->
  let r := scurve_bisect n p j1 j2 dist low high in
  low <= r <= high /\ ramps r <= dist /\ dist < ramps (r + (high - low) / 2 ^ n).
Proof.
  revert low high. induction n as [|n IH]; intros low high Hlh Hl Hh; cbn [scurve_bisect].
  { cbn [pow]. cbn zeta. replace (low + (high - low) / 1) with high by field.
    split_and!; done || lra. }
  num_unfold. change (2 ^ S n) with (2 * 2 ^ n).
  assert (0 < 2 ^ n) by (apply pow_lt; lra).
  set (mid := (low + high) * (1 / 2)). assert (low <= mid <= high) by (unfold mid; lra).
  fold (ramps mid). destruct (Rleb_spec (ramps mid) dist) as [Hm|Hm].
  - destruct (IH mid high ltac:(lra) Hm Hh) as (Hr & Hd & Hu).
    replace ((high - low) / (2 * 2 ^ n)) with ((high - mid) / 2 ^ n) by (unfold mid; field; lra).
    split_and!; done || lra.
  - destruct (IH low mid ltac:(lra) Hl Hm) as (Hr & Hd & Hu).
    replace ((high - low) / (2 * 2 ^ n)) with ((mid - low) / 2 ^ n) by (unfold mid; field; lra).
    split_and!; done || lra.
Qed.

Lemma peak_spec :
  0 < max_velocity p -> 0 < dist ->
  let V := (scurve_peak p j1 j2 dist).1 in
  let tc := (scurve_peak p j1 j2 dist).2 in
  0 <= V <= max_velocity p /\ 0 <= tc /\ ramps V + V * tc <= dist
  /\ (ramps (max_velocity p) <= dist -> V = max_velocity p /\ ramps V + V * tc = dist)
  /\ (dist < ramps (max_velocity p) -> dist < ramps (V + max_velocity p / 2 ^ 80)).
Proof.
  intros Hv Hd. unfold scurve_peak. num_unfold. fold (ramps (max_velocity p)).
  destruct (Rleb_spec (ramps (max_velocity p)) dist) as [Hm|Hm]; cbn [fst snd].
  - assert (max_velocity p * ((dist - ramps (max_velocity p)) / max_velocity p)
            = dist - ramps (max_velocity p)) by (field; lra).
    assert (0 <= (dist - ramps (max_velocity p)) / max_velocity p).
    { apply Rmult_le_pos; [lra|]. apply Rlt_le, Rinv_0_lt_compat. lra. }
    split_and!; try lra; intros; try split; lra.
  - destruct (bisect_spec CIA402_SCURVE_SOLVE_ITERATIONS 0 (max_velocity p)) as (Hr & Hb & Hu);
      [lra | rewrite ramps_0; lra | done |].
    rewrite Rminus_0_r in Hu. unfold CIA402_SCURVE_SOLVE_ITERATIONS in *.
    split_and!; try lra; intros; first [lra | exact Hu].
Qed.
End Peak.

(** ** The plan *)

(** The parameters of a plan. *)
Record plan_data : Type := PlanData {
  pd_accel : ScurvePhase R;
  pd_decel : ScurvePhase R;
  pd_peak : R;
  pd_cruise : R;
  pd_accel_jerk : R;
  pd_decel_jerk : R;
}.

Definition pd_seven (d : plan_data) : list (R * R) :=
  seven (pd_accel d) (pd_decel d) (pd_accel_jerk d) (pd_decel_jerk d) (pd_cruise d).
Definition pd_start (d : plan_data) (k : nat) : motion :=
  start (pd_accel d) (pd_decel d) (pd_accel_jerk d) (pd_decel_jerk d) (pd_cruise d) k.
(** The length of the way, and the time before segment [k]. *)
Definition pd_length (d : plan_data) : R :=
  distance (pd_accel d) + pd_peak d * pd_cruise d + distance (pd_decel d).
Definition pd_time (d : plan_data) (k : nat) : R :=
  foldl (fun t x => t + x.1) 0 (take k (pd_seven d)).

Record plan_ok (V A D : R) (d : plan_data) : Prop := PlanOk {
  plan_accel : ramp_ok (pd_accel d) (pd_peak d) A (pd_accel_jerk d);
  plan_decel : ramp_ok (pd_decel d) (pd_peak d) D (pd_decel_jerk d);
  plan_accel_jerk : 0 < pd_accel_jerk d;
  plan_decel_jerk : 0 < pd_decel_jerk d;
  plan_cruise : 0 <= pd_cruise d;
  plan_peak : 0 < pd_peak d <= V;
}.

(** Equality of two profiles but for the plan. *)
Record same_motion (p p' : Cia402MotionProfile R) : Prop := SameMotion {
  sm_type : p_type p' = p_type p;
  sm_active : active p' = active p;
  sm_done : done_ p' = done_ p;
  sm_position : position p' = position p;
  sm_velocity : velocity p' = velocity p;
  sm_target : target_position p' = target_position p;
  sm_target_velocity : target_velocity p' = target_velocity p;
  sm_max : max_velocity p' = max_velocity p;
  sm_acc : acceleration p' = acceleration p;
  sm_dec : deceleration p' = deceleration p;
  sm_kind : profile_type p' = profile_type p;
  sm_ratio : jerk_ratio p' = jerk_ratio p;
}.

(** The arrays of [p'] hold the plan [d], for the way from [p]'s position to its target. *)
Record plan_stored (d : plan_data) (p p' : Cia402MotionProfile R) : Prop := PlanStored {
  ps_same : same_motion p p';
  ps_valid : planner_valid p' = true;
  ps_elapsed : planner_elapsed_s p' = 0;
  ps_total : planner_total_s p' = pd_time d 7;
  ps_from : planner_start_position p' = position p;
  ps_distance : planner_distance p' = Rabs (target_position p - position p);
  ps_direction : planner_direction p' = (if Rleb (position p) (target_position p) then 1 else -1);
  ps_segments : forall k t j, pd_seven d !! k = Some (t, j) ->
    (nth k (planner_segment_position p') 0, nth k (planner_segment_velocity p') 0,
     nth k (planner_segment_acceleration p') 0) = pd_start d k
    /\ nth k (planner_segment_jerk p') 0 = j /\ nth k (planner_segment_time p') 0 = t
    /\ nth k (planner_segment_start_s p') 0 = pd_time d k;
}.

(** What a failed attempt leaves. *)
Record plan_cleared (p p' : Cia402MotionProfile R) : Prop := PlanCleared {
  pc_same : same_motion p p';
  pc_invalid : planner_valid p' = false;
}.

Lemma same_motion_clear p : same_motion p (scurve_clear_plan p).
Proof. by split. Qed.

Lemma ramp_time_pos_jerk A t : 0 < A -> 0 < t -> 0 < A / t.
Proof. intros. by apply Rdiv_lt_0_compat. Qed.

Lemma profile_ramp_time_eq p p' :
  same_motion p p' -> profile_ramp_time_s p' = profile_ramp_time_s p.
Proof.
  intros Hs. unfold profile_ramp_time_s. by rewrite (sm_kind _ _ Hs), (sm_ratio _ _ Hs).
Qed.

(** [p] has no plan, as [scurve_clear_plan] leaves it. *)
Record plan_empty (p : Cia402MotionProfile R) : Prop := PlanEmpty {
  pe_valid : planner_valid p = false;
  pe_elapsed : planner_elapsed_s p = 0;
  pe_time : planner_segment_time p = zeros7;
  pe_start : planner_segment_start_s p = zeros7;
  pe_position : planner_segment_position p = zeros7;
  pe_velocity : planner_segment_velocity p = zeros7;
  pe_acceleration : planner_segment_acceleration p = zeros7;
  pe_jerk : planner_segment_jerk p = zeros7;
}.

Lemma clear_plan_empty p : plan_empty (scurve_clear_plan p).
Proof. by split. Qed.

(** Filling the arrays of an empty plan. *)
Lemma segments_stored d p pva el p1 :
  plan_empty p -> scurve_segments 0 (pd_seven d) (zero, zero, zero) zero p = (pva, el, p1) ->
  el = pd_time d 7 /\ same_motion p p1 /\ planner_valid p1 = false /\ planner_elapsed_s p1 = 0
  /\ forall k t j, pd_seven d !! k = Some (t, j) ->
      (nth k (planner_segment_position p1) 0, nth k (planner_segment_velocity p1) 0,
       nth k (planner_segment_acceleration p1) 0) = pd_start d k
      /\ nth k (planner_segment_jerk p1) 0 = j /\ nth k (planner_segment_time p1) 0 = t
      /\ nth k (planner_segment_start_s p1) 0 = pd_time d k.
Proof.
  intros [Hv He Ht Hs Hp Hvl Ha Hj]. destruct p. cbn in Hv, He, Ht, Hs, Hp, Hvl, Ha, Hj. subst.
  unfold pd_seven, seven, scurve_plan_segments. cbn [scurve_segments fst snd]. intros [= <- <- <-].
  split; [reflexivity|]. split; [by split|]. split; [done|]. split; [done|].
  intros k t j Hk.
  destruct k as [|[|[|[|[|[|[|k]]]]]]]; [.. | done]; cbn in Hk; injection Hk as <- <-.
  all: split_and!; reflexivity.
Qed.

Definition way (p : Cia402MotionProfile R) : R := Rabs (target_position p - position p).
Definition limits_pos (p : Cia402MotionProfile R) : Prop :=
  0 < max_velocity p /\ 0 < acceleration p /\ 0 < deceleration p.

(** How exactly the plan covers the way: completely when the peak speed is the maximum,
    otherwise up to the last step of the bisection. *)
Definition covers (p : Cia402MotionProfile R) (d : plan_data) : Prop :=
  0 < pd_length d <= way p
  /\ ((pd_peak d = max_velocity p /\ pd_length d = way p)
      \/ way p < ramps p (pd_accel_jerk d) (pd_decel_jerk d) (pd_peak d + max_velocity p / 2 ^ 80)).

(** A plan for a profile is one for every profile with the same motion. *)
Lemma same_motion_trans p p0 p1 : same_motion p p0 -> same_motion p0 p1 -> same_motion p p1.
Proof. intros [] []. split; congruence. Qed.

Lemma cleared_transfer p p0 p1 : same_motion p p0 -> plan_cleared p0 p1 -> plan_cleared p p1.
Proof. intros Hs [Hs1 Hv]. split; [|done]. by eapply same_motion_trans. Qed.

Lemma plan_transfer p p0 p1 :
  same_motion p p0 ->
  (exists d, plan_ok (max_velocity p0) (acceleration p0) (deceleration p0) d
             /\ plan_stored d p0 p1 /\ covers p0 d) ->
  exists d, plan_ok (max_velocity p) (acceleration p) (deceleration p) d
            /\ plan_stored d p p1 /\ covers p d.
Proof.
  intros Hs (d & Hok & Hst & Hcov). exists d.
  unfold covers, way, ramps in *.
  rewrite (sm_max _ _ Hs), (sm_acc _ _ Hs), (sm_dec _ _ Hs) in *.
  rewrite (sm_target _ _ Hs), (sm_position _ _ Hs) in Hcov. split; [done|]. split; [|done].
  destruct Hst as [Hs1 Hv He Ht Hf Hd Hdir Hseg].
  rewrite (sm_target _ _ Hs), (sm_position _ _ Hs) in *.
  split; try done. by eapply same_motion_trans.
Qed.

Lemma fill_spec p j1 j2 :
  limits_pos p -> plan_empty p -> 0 < way p -> 0 < j1 -> 0 < j2 ->
  let r := scurve_fill_plan p (way p) j1 j2 in
  if r.1 then exists d, plan_ok (max_velocity p) (acceleration p) (deceleration p) d
                        /\ plan_stored d p r.2 /\ covers p d
  else plan_cleared p r.2.
Proof.
  intros (HV & HA & HD) Hemp Hway Hj1 Hj2. cbn zeta. unfold scurve_fill_plan.
  assert (Hsame0 : same_motion p p) by (by split).
  pose proof (pe_valid _ Hemp) as Hinv0.
  pose proof (peak_spec p j1 j2 (way p) HV Hway) as Hpk. cbn zeta in Hpk.
  destruct (scurve_peak p j1 j2 (way p)) as [V tc]. cbn [fst snd] in Hpk.
  destruct Hpk as (HVr & Htc & Hle & Hfull & Hbis).
  change (V <=? CIA402_VELOCITY_EPSILON)%num with (Rleb V (1 / 2)).
  destruct (Rleb_spec V (1 / 2)) as [|HVp]; [by split|].
  set (d := PlanData (scurve_phase_from_peak_velocity V (acceleration p) j1)
    (scurve_phase_from_peak_velocity V (deceleration p) j2) V tc j1 j2).
  change (scurve_plan_segments _ _ tc j1 j2) with (pd_seven d).
  destruct (scurve_segments 0 (pd_seven d) (zero, zero, zero) zero p) as [[pva el] p1] eqn:Hrun.
  destruct (segments_stored d p _ _ _ Hemp Hrun) as (-> & Hsame & Hinv & Hel & Hseg).
  clear Hrun. num_unfold.
  assert (Hok : plan_ok (max_velocity p) (acceleration p) (deceleration p) d).
  { split; cbn; try done; try (apply phase_ok; lra). split; lra. }
  destruct (Rleb_spec (pd_time d 7) 0) as [Ht|Ht]; [by split|].
  assert (Hlen : pd_length d = ramps p j1 j2 V + V * tc).
  { unfold pd_length, ramps, scurve_distance_for_peak_velocity. cbn. num_unfold. lra. }
  cbn [fst snd]. exists d. split; [done|]. split; [|split].
  - pose proof (sm_position _ _ Hsame) as Hpos. pose proof (sm_target _ _ Hsame) as Htgt.
    destruct Hsame. split; cbn; try done; by rewrite Hpos, Htgt.
  - pose proof (ramps_pos p j1 j2 HA HD Hj1 Hj2 V ltac:(lra)).
    assert (0 <= V * tc) by (apply Rmult_le_pos; lra). rewrite Hlen. split; lra.
  - destruct (Rle_lt_dec (ramps p j1 j2 (max_velocity p)) (way p)) as [Hr|Hr].
    + left. destruct (Hfull Hr) as [HVm Hex]. split; [done|]. by rewrite Hlen.
    + right. by apply Hbis.
Qed.

Lemma build_spec p :
  limits_pos p ->
  let r := scurve_build_position_plan p in
  if r.1 then exists d, plan_ok (max_velocity p) (acceleration p) (deceleration p) d
                        /\ plan_stored d p r.2 /\ covers p d
  else plan_cleared p r.2.
Proof.
  intros Hlim. cbn zeta. unfold scurve_build_position_plan.
  pose proof (same_motion_clear p) as Hs0.
  assert (Hinv : planner_valid (scurve_clear_plan p) = false) by done.
  pose proof (clear_plan_empty p) as Hemp.
  set (p0 := scurve_clear_plan p) in *. clearbody p0.
  assert (Hclear : plan_cleared p p0) by (by split).
  assert (Hlim0 : limits_pos p0).
  { destruct Hlim as (? & ? & ?). unfold limits_pos.
    by rewrite (sm_max _ _ Hs0), (sm_acc _ _ Hs0), (sm_dec _ _ Hs0). }
  cbn zeta. rewrite abs_double_Rabs, max_double_Rmax. num_unfold. fold (way p0).
  destruct (Rleb_spec (way p0) (1 / 2)) as [|Hway]; [done|].
  destruct (Rltb (1 / 2) _); [done|].
  destruct (Rleb (max_velocity p0) 0 || _ || _); [done|].
  destruct (Rleb_spec (profile_ramp_time_s p0) 0) as [|Hrt]; [done|].
  pose proof (Rmax_l (profile_ramp_time_s p0) (1 / 1000)) as Hmax.
  set (rt := Rmax (profile_ramp_time_s p0) (1 / 1000)) in *.
  destruct (Rleb (acceleration p0 / rt) 0 || _); [done|].
  pose proof Hlim0 as (HV0 & HA0 & HD0).
  assert (Hrtp : 0 < rt) by lra. clearbody rt.
  pose proof (fill_spec p0 (acceleration p0 / rt) (deceleration p0 / rt) Hlim0 Hemp ltac:(lra)
    (Rdiv_lt_0_compat _ _ HA0 Hrtp) (Rdiv_lt_0_compat _ _ HD0 Hrtp)) as Hf.
  cbn zeta in Hf. destruct (scurve_fill_plan p0 _ _ _) as [[] p1]; cbn [fst snd] in *.
  - by apply (plan_transfer p p0).
  - by apply (cleared_transfer p p0).
Qed.

(** ** When a plan is found *)

(** The ramp time the jerks are computed with. *)
Definition jerk_time (p : Cia402MotionProfile R) : R := Rmax (profile_ramp_time_s p) (1 / 1000).

Lemma pd_time_pos V A D d : plan_ok V A D d -> 0 < pd_time d 7.
Proof.
  intros [Hacc Hdec _ _ Hc _]. destruct Hacc, Hdec. unfold pd_time. cbn. lra.
Qed.

Lemma fill_found p j1 j2 :
  limits_pos p -> plan_empty p -> 0 < way p -> 0 < j1 -> 0 < j2 ->
  1 / 2 < (scurve_peak p j1 j2 (way p)).1 -> (scurve_fill_plan p (way p) j1 j2).1 = true.
Proof.
  intros (HV & HA & HD) Hemp Hway Hj1 Hj2 Hpeak. unfold scurve_fill_plan.
  pose proof (peak_spec p j1 j2 (way p) HV Hway) as Hpk. cbn zeta in Hpk.
  destruct (scurve_peak p j1 j2 (way p)) as [V tc]. cbn [fst snd] in Hpk, Hpeak.
  destruct Hpk as (HVr & Htc & _).
  change (V <=? CIA402_VELOCITY_EPSILON)%num with (Rleb V (1 / 2)).
  destruct (Rleb_spec V (1 / 2)) as [|_]; [lra|].
  set (d := PlanData (scurve_phase_from_peak_velocity V (acceleration p) j1)
    (scurve_phase_from_peak_velocity V (deceleration p) j2) V tc j1 j2).
  change (scurve_plan_segments _ _ tc j1 j2) with (pd_seven d).
  destruct (scurve_segments 0 (pd_seven d) (zero, zero, zero) zero p) as [[pva el] p1] eqn:Hrun.
  destruct (segments_stored d p _ _ _ Hemp Hrun) as (-> & _). clear Hrun.
  assert (Hok : plan_ok (max_velocity p) (acceleration p) (deceleration p) d).
  { split; cbn; try done; try (apply phase_ok; lra). split; lra. }
  pose proof (pd_time_pos _ _ _ _ Hok). num_unfold.
  destruct (Rleb_spec (pd_time d 7) 0) as [Ht|Ht]; [lra | done].
Qed.

(** A motion from (nearly) rest with a ramp, over a way that takes the full speed. *)
Lemma build_found p :
  limits_pos p -> 1 / 2 < way p -> Rabs (velocity p) <= 1 / 2 -> 0 < profile_ramp_time_s p ->
  1 / 2 < max_velocity p ->
  ramps p (acceleration p / jerk_time p) (deceleration p / jerk_time p) (max_velocity p) <= way p ->
  (scurve_build_position_plan p).1 = true.
Proof.
  intros Hlim Hway Hvel Hrt HV Hr. unfold scurve_build_position_plan.
  pose proof (same_motion_clear p) as Hs0. pose proof (clear_plan_empty p) as Hemp.
  set (p0 := scurve_clear_plan p) in *. clearbody p0.
  assert (Hlim0 : limits_pos p0).
  { destruct Hlim as (? & ? & ?). unfold limits_pos.
    by rewrite (sm_max _ _ Hs0), (sm_acc _ _ Hs0), (sm_dec _ _ Hs0). }
  unfold jerk_time, way, ramps in *. rewrite <- (profile_ramp_time_eq _ _ Hs0) in Hrt, Hr.
  rewrite <- (sm_acc _ _ Hs0), <- (sm_dec _ _ Hs0), <- (sm_target _ _ Hs0),
    <- (sm_position _ _ Hs0), <- (sm_max _ _ Hs0) in *. rewrite <- (sm_velocity _ _ Hs0) in Hvel.
  fold (way p0) (jerk_time p0) in *. cbn zeta.
  rewrite !abs_double_Rabs, max_double_Rmax. num_unfold. fold (way p0) (jerk_time p0).
  pose proof Hlim0 as (HV0 & HA0 & HD0).
  assert (Hj : 0 < jerk_time p0) by (unfold jerk_time; pose proof (Rmax_l (profile_ramp_time_s p0) (1/1000)); lra).
  pose proof (Rdiv_lt_0_compat _ _ HA0 Hj) as HjA. pose proof (Rdiv_lt_0_compat _ _ HD0 Hj) as HjD.
  destruct (Rleb_spec (way p0) (1 / 2)); [lra|]. destruct (Rltb_spec (1 / 2) (Rabs (velocity p0))); [lra|].
  destruct (Rleb_spec (max_velocity p0) 0); [lra|]. destruct (Rleb_spec (acceleration p0) 0); [lra|].
  destruct (Rleb_spec (deceleration p0) 0); [lra|]. cbn [orb].
  destruct (Rleb_spec (profile_ramp_time_s p0) 0); [lra|].
  destruct (Rleb_spec (acceleration p0 / jerk_time p0) 0); [lra|].
  destruct (Rleb_spec (deceleration p0 / jerk_time p0) 0); [lra|]. cbn [orb].
  apply fill_found; try done; try lra.
  destruct (peak_spec p0 (acceleration p0 / jerk_time p0) (deceleration p0 / jerk_time p0) (way p0)
    HV0 ltac:(lra)) as (_ & _ & _ & Hfull & _).
  destruct (Hfull Hr) as [-> _]. lra.
Qed.
