(* ===== verification/PlanTheorems.v ===== *)
(** * Theorems on the seven-segment plan *)

From Stdlib Require Import Reals Lra Psatz.
From S2P Require Import Prelude Num Cia402 Profile PlanBuild.
Open Scope R_scope.

(** ** Finding the segment of a time *)

Definition seg_end (p : Cia402MotionProfile R) (k : nat) : R :=
  nth k (planner_segment_start_s p) 0 + nth k (planner_segment_time p) 0.

Lemma find_spec p e n : forall i, (i + n = 7)%nat -> (0 < n)%nat ->
  let k := find_segment i n p e in
  (i <= k < 7)%nat /\ (forall j, (i <= j < k)%nat -> seg_end p j < e)
  /\ (e <= seg_end p k \/ k = 6%nat).
Proof.
  induction n as [|n IH]; intros i Hin Hn; [lia|]. cbn zeta. cbn [find_segment].
  num_unfold. fold (seg_end p i).
  destruct (Rleb_spec e (seg_end p i)) as [He|He]; cbn [orb].
  - split_and!; [lia | lia | intros; lia | by left].
  - case_bool_decide as H6; unfold CIA402_SCURVE_SEGMENTS in H6.
    + split_and!; [lia | lia | intros; lia | by right].
    + destruct (IH (S i) ltac:(lia) ltac:(lia)) as (Hk & Hlt & Hend).
      split_and!; [lia | lia | | done]. intros j Hj.
      destruct (decide (j = i)) as [->|]; [done|]. apply Hlt. lia.
Qed.

(** ** Samples of a stored plan *)

Section Stored.
Context (d : plan_data) (p p' : Cia402MotionProfile R) (V A D : R).
Hypotheses (Hok : plan_ok V A D d) (Hst : plan_stored d p p') (HA : 0 < A) (HD : 0 < D).

Lemma pd_lookup k : (k < 7)%nat -> exists t j, pd_seven d !! k = Some (t, j) /\ 0 <= t.
Proof.
  intros Hk. destruct (seven_lookup (pd_accel d) (pd_decel d) (pd_accel_jerk d) (pd_decel_jerk d)
    (pd_cruise d) k Hk) as (t & j & Hl). exists t, j. split; [exact Hl|].
  destruct Hok as [Hacc Hdec Hj1 Hj2 Hc Hpk].
  exact (seven_time _ _ _ _ _ _ _ _ Hacc Hdec Hc k t j Hl).
Qed.

Lemma pd_time_S k t j : pd_seven d !! k = Some (t, j) -> pd_time d (S k) = pd_time d k + t.
Proof. intros Hk. unfold pd_time. by rewrite (take_S_r _ _ _ Hk), foldl_app. Qed.

Lemma pd_time_mono k l : (k <= l <= 7)%nat -> pd_time d k <= pd_time d l.
Proof.
  intros [Hkl Hl]. induction l as [|l IH]; [replace k with 0%nat by lia; lra|].
  destruct (decide (k = S l)) as [->|]; [lra|].
  destruct (pd_lookup l ltac:(lia)) as (t & j & Hk & Ht). rewrite (pd_time_S _ _ _ Hk).
  specialize (IH ltac:(lia) ltac:(lia)). lra.
Qed.

(** A sample is a motion of one segment, at a time inside it. *)
Lemma sample_spec e :
  exists k t j, pd_seven d !! k = Some (t, j)
    /\ k = find_segment 0 7 p' e
    /\ plan_sample p' e = at_time (pd_start d k) j (clamp_double (e - pd_time d k) 0 t)
    /\ 0 <= clamp_double (e - pd_time d k) 0 t <= t.
Proof.
  destruct (find_spec p' e 7 0 eq_refl ltac:(lia)) as (Hk & _ & _). cbn zeta in Hk.
  set (k := find_segment 0 7 p' e) in *.
  destruct (pd_lookup k ltac:(lia)) as (t & j & Hl & Ht). exists k, t, j.
  split; [done|]. split; [done|]. split; [|by apply clamp_between].
  destruct (ps_segments _ _ _ Hst _ _ _ Hl) as (Hs & Hj & Htm & Hst').
  unfold plan_sample. change CIA402_SCURVE_SEGMENTS with 7%nat. fold k. num_unfold.
  rewrite Hj, Htm, Hst'. rewrite <- Hs, at_time_eq. motion_eq; field.
Qed.

Lemma sample_bounds e :
  0 <= place (plan_sample p' e) <= pd_length d
  /\ 0 <= speed (plan_sample p' e) <= pd_peak d
  /\ - D <= accel (plan_sample p' e) <= A.
Proof.
  destruct (sample_spec e) as (k & t & j & Hl & _ & -> & Hc).
  destruct Hok as [Hacc Hdec Hj1 Hj2 Hcr Hpk]. assert (HV : 0 < pd_peak d) by lra.
  destruct (seven_bounds _ _ _ _ _ _ _ _ Hacc Hdec Hj1 Hj2 HV HA HD k t j Hl _ Hc) as [Hs Ha].
  split; [|by split].
  exact (seven_place _ _ _ _ _ _ _ _ Hacc Hdec Hj1 Hj2 Hcr HV HA HD k t j _ Hl Hc).
Qed.

(** At the start and at the end of the plan the motion is at rest. *)
Lemma sample_start : plan_sample p' 0 = (0, 0, 0).
Proof.
  destruct (sample_spec 0) as (k & t & j & Hl & Hk & -> & Hc).
  assert (k = 0)%nat as ->.
  { destruct (find_spec p' 0 7 0 eq_refl ltac:(lia)) as (_ & Hlt & _). cbn zeta in Hlt.
    rewrite <- Hk in Hlt. destruct (decide (k = 0)%nat) as [|Hne]; [done|].
    specialize (Hlt 0%nat ltac:(lia)). destruct (pd_lookup 0 ltac:(lia)) as (t0 & j0 & Hl0 & Ht0).
    destruct (ps_segments _ _ _ Hst _ _ _ Hl0) as (_ & _ & Htm & Hs). unfold seg_end in Hlt.
    rewrite Htm, Hs in Hlt. change (pd_time d 0) with 0 in Hlt. lra. }
  change (pd_time d 0) with 0. rewrite clamp_id by (pose proof (clamp_between (0-0) 0 t); lra).
  change (pd_start d 0) with ((0, 0, 0) : motion). rewrite at_time_eq. motion_eq; field.
Qed.

Lemma sample_end : plan_sample p' (planner_total_s p') = (pd_length d, 0, 0).
Proof.
  rewrite (ps_total _ _ _ Hst). set (e := pd_time d 7).
  destruct (sample_spec e) as (k & t & j & Hl & Hk & -> & Hc).
  assert (H6 : pd_seven d !! 6%nat = Some (tj (pd_decel d), pd_decel_jerk d)) by done.
  pose proof (pd_time_S _ _ _ H6) as He. fold e in He.
  destruct Hok as [Hacc Hdec Hj1 Hj2 Hcr Hpk]. pose proof (ramp_tj _ _ _ _ Hdec) as Ht6.
  assert (k = 6)%nat as ->.
  { destruct (find_spec p' e 7 0 eq_refl ltac:(lia)) as (Hr & _ & Hend). cbn zeta in Hr, Hend.
    rewrite <- Hk in Hr, Hend. destruct Hend as [Hend|]; [|done].
    destruct (decide (k = 6)%nat) as [|Hne]; [done|].
    destruct (ps_segments _ _ _ Hst _ _ _ Hl) as (_ & _ & Htm & Hs). unfold seg_end in Hend.
    rewrite Htm, Hs, <- (pd_time_S _ _ _ Hl) in Hend.
    pose proof (pd_time_mono (S k) 6 ltac:(lia)). lra. }
  rewrite H6 in Hl. injection Hl as <- <-.
  replace (e - pd_time d 6) with (tj (pd_decel d)) by lra. rewrite clamp_id by lra.
  pose proof (start_7 _ _ _ _ _ _ _ (pd_cruise d) Hacc Hdec) as H7.
  rewrite (start_S _ _ _ _ _ _ _ _ H6) in H7. exact H7.
Qed.
End Stored.

(** ** The theorems *)

(** A plan starts and ends at rest.  Its end is on the way to the target: exactly at
    the target when the maximum speed is reached, and otherwise short of it by less than
    the last step of the bisection for the peak speed. *)
Theorem plan_ends_at_rest (p p' : Cia402MotionProfile R) :
  limits_pos p -> scurve_build_position_plan p = (true, p') ->
  plan_sample p' 0 = (0, 0, 0)
  /\ exists d, plan_sample p' (planner_total_s p') = (pd_length d, 0, 0) /\ covers p d.
Proof.
  intros Hlim Hb. pose proof (build_spec p Hlim) as Hs. cbn zeta in Hs. rewrite Hb in Hs.
  destruct Hs as (d & Hok & Hst & Hcov). cbn in Hst.
  split; [by eapply sample_start|]. exists d. split; [by eapply sample_end | done].
Qed.

(** C29: At every time of a plan the motion keeps its limits: the place is between the
    start and the target, the speed between zero and the maximum, and the acceleration
    between the configured deceleration and acceleration. *)
Theorem plan_keeps_limits (p p' : Cia402MotionProfile R) (elapsed : R) :
  limits_pos p -> scurve_build_position_plan p = (true, p') ->
  let '(position, velocity, acceleration_state) := plan_sample p' elapsed in
  0 <= position <= planner_distance p' /\ 0 <= velocity <= max_velocity p'
  /\ - deceleration p' <= acceleration_state <= acceleration p'.
Proof.
  intros Hlim Hb. pose proof (build_spec p Hlim) as Hs. cbn zeta in Hs. rewrite Hb in Hs.
  destruct Hs as (d & Hok & Hst & Hcov & _). cbn in Hst. destruct Hlim as (HV & HA & HD).
  pose proof (sample_bounds d p p' _ _ _ Hok Hst HA HD elapsed) as (Hp & Hv & Ha).
  unfold place, speed, accel in *. destruct (plan_sample p' elapsed) as [[x v] a]. cbn in *.
  pose proof (ps_same _ _ _ Hst) as Hsm.
  rewrite (ps_distance _ _ _ Hst), (sm_max _ _ Hsm), (sm_acc _ _ Hsm), (sm_dec _ _ Hsm).
  fold (way p). pose proof (plan_peak _ _ _ _ Hok). split_and!; lra.
Qed.

(** ** Witnesses *)

(** Ten units at speed 1 with an S-curve of a quarter of a second. *)
Definition move_ten : Cia402MotionProfile R :=
  cia402_profile_reset <| target_position := 10 |> <| max_velocity := 1 |> <| acceleration := 4 |>
    <| deceleration := 4 |> <| profile_type := CIA402_PROFILE_SCURVE |> <| done_ := false |>.

Lemma move_ten_limits : limits_pos move_ten.
Proof. unfold limits_pos. cbn. lra. Qed.

Lemma move_ten_found : exists p', scurve_build_position_plan move_ten = (true, p').
Proof.
  assert (Hway : way move_ten = 10) by (unfold way; cbn; rewrite Rabs_right; lra).
  assert (Hrt : profile_ramp_time_s move_ten = 25 / 100) by reflexivity.
  assert (Hj : jerk_time move_ten = 25 / 100) by (unfold jerk_time; rewrite Hrt, Rmax_left; lra).
  pose proof (build_found move_ten move_ten_limits) as Hf.
  rewrite Hway, Hrt, Hj in Hf. cbn [max_velocity velocity acceleration deceleration move_ten] in Hf.
  destruct (scurve_build_position_plan move_ten) as [[] p']; [by exists p'|].
  exfalso. discriminate Hf; cbn; try lra.
  - rewrite Rabs_R0. lra.
  - unfold ramps, scurve_distance_for_peak_velocity, scurve_phase_from_peak_velocity. cbn. num_unfold.
    destruct (Rleb_spec 1 0); [lra|]. destruct (Rleb_spec 4 0); [lra|].
    destruct (Rleb_spec (4 / (25 / 100)) 0); [lra|]. cbn.
    destruct (Rleb_spec (4 * (4 / (4 / (25 / 100)))) 1); cbn; lra.
Qed.

Lemma plan_ends_at_rest_witness :
  exists p', limits_pos move_ten /\ scurve_build_position_plan move_ten = (true, p')
    /\ exists d, plan_sample p' (planner_total_s p') = (pd_length d, 0, 0) /\ covers move_ten d.
Proof.
  destruct move_ten_found as [p' Hp]. exists p'.
  split; [exact move_ten_limits|]. split; [exact Hp|].
  exact (proj2 (plan_ends_at_rest move_ten p' move_ten_limits Hp)).
Defined.

Lemma plan_keeps_limits_witness :
  exists p', scurve_build_position_plan move_ten = (true, p')
    /\ let '(position, velocity, acceleration_state) := plan_sample p' 5 in
       0 <= position <= planner_distance p' /\ 0 <= velocity <= max_velocity p'
       /\ - deceleration p' <= acceleration_state <= acceleration p'.
Proof.
  destruct move_ten_found as [p' Hp]. exists p'. split; [exact Hp|].
  exact (plan_keeps_limits move_ten p' 5 move_ten_limits Hp).
Defined.
