(* ===== verification/Motion.v ===== *)
(** * The trapezoidal step, and position profiles that arrive

    The step of a position profile, of every kind: a stored plan runs out, a failed plan
    falls back on the trapezoidal step, and both end at the target. *)

From Stdlib Require Import Reals Lra Psatz.
From S2P Require Import Prelude Cia402 Num Profile PlanBuild PlanTheorems.
Open Scope R_scope.

(** * The trapezoidal step over the real numbers

    One cycle of the trapezoidal generator in coordinates along the way: the distance
    left and the speed towards the target. *)

Abbreviation profile := (Cia402MotionProfile R).

(** Direction to the target and speed along it. *)
Definition dir (p : profile) : R := if Rleb 0 (target_position p - position p) then 1 else -1.
Definition along (p : profile) : R := velocity p * dir p.

Lemma dir_way p : target_position p - position p = dir p * way p.
Proof.
  unfold dir, way. destruct (Rleb_spec 0 (target_position p - position p)).
  - rewrite Rabs_right; lra.
  - rewrite Rabs_left; lra.
Qed.

Lemma dir_unit p : dir p = 1 \/ dir p = -1.
Proof. unfold dir. destruct (Rleb _ _); lra. Qed.

Lemma dir_square p : dir p * dir p = 1.
Proof. destruct (dir_unit p) as [-> | ->]; lra. Qed.

Lemma way_nonneg p : 0 <= way p.
Proof. apply Rabs_pos. Qed.

Lemma along_abs p : Rabs (along p) = Rabs (velocity p).
Proof.
  unfold along. rewrite Rabs_mult. destruct (dir_unit p) as [-> | ->].
  - rewrite Rabs_R1. lra.
  - rewrite (Rabs_left (-1)) by lra. lra.
Qed.

(** The end of a motion. *)
Definition arrived (p p' : profile) : Prop :=
  done_ p' = true /\ position p' = target_position p /\ velocity p' = 0
  /\ target_position p' = target_position p.

(** A step that does not arrive moves by its new speed. *)
Record moved (p p' : profile) (v : R) (dt : R) : Prop := Moved {
  mv_way : way p' = way p - v * dt;
  mv_left : 0 < way p';
  mv_along : along p' = v;
  mv_dir : dir p' = dir p;
  mv_done : done_ p' = false;
  mv_target : target_position p' = target_position p;
  mv_limits : max_velocity p' = max_velocity p /\ acceleration p' = acceleration p
              /\ deceleration p' = deceleration p;
  mv_rest : ~ (way p <= 1 / 2 /\ Rabs (along p) <= 1 / 2);
}.

(** The profile after the motion of a cycle. *)
Definition advanced (p : profile) (v dt : R) : profile :=
  p <| velocity := dir p * v |> <| position := position p + dir p * v * dt |>.

Lemma advanced_moved p v dt :
  done_ p = false -> ~ (way p <= 1 / 2 /\ Rabs (along p) <= 1 / 2) -> 0 < way p - v * dt ->
  moved p (advanced p v dt) v dt.
Proof.
  intros Hd Hrest Hleft. pose proof (dir_way p) as Hw. pose proof (dir_square p) as Hsq.
  assert (He : target_position p - (position p + dir p * v * dt) = dir p * (way p - v * dt)).
  { replace (target_position p - (position p + dir p * v * dt))
      with ((target_position p - position p) - dir p * v * dt) by ring. rewrite Hw. ring. }
  assert (Hway : way (advanced p v dt) = way p - v * dt).
  { unfold way at 1. cbn. rewrite He, Rabs_mult, (Rabs_right (way p - v * dt)) by lra.
    destruct (dir_unit p) as [-> | ->]; [rewrite Rabs_R1 | rewrite (Rabs_left (-1)) by lra]; lra. }
  assert (Hdir : dir (advanced p v dt) = dir p).
  { unfold dir at 1. cbn. rewrite He. destruct (dir_unit p) as [-> | ->].
    - destruct (Rleb_spec 0 (1 * (way p - v * dt))); lra.
    - destruct (Rleb_spec 0 (-1 * (way p - v * dt))); lra. }
  split; try done.
  - by rewrite Hway.
  - unfold along. rewrite Hdir. cbn. replace (dir p * v * dir p) with (v * (dir p * dir p)) by ring.
    rewrite Hsq. ring.
Qed.

(** The two outcomes of a step: it ends near the target or where the motion of the cycle
    reaches it, or it moves. *)
Lemma trapezoid_step p dt :
  done_ p = false -> 0 < dt ->
  let p' := step_position_profile_trapezoidal p dt in
  let v := trapezoidal_speed p (along p) (way p) dt in
  (arrived p p' /\ way p <= Rmax (1 / 2) (v * dt)) \/ moved p p' v dt.
Proof.
  intros Hd Hdt. cbn zeta. unfold step_position_profile_trapezoidal. rewrite Hd.
  change (if (zero <=? target_position p - position p)%num then one else (- one)%num) with (dir p).
  rewrite !abs_double_Rabs. change (target_position p - position p)%num with (target_position p - position p).
  fold (way p). change (velocity p * dir p)%num with (along p).
  set (v := trapezoidal_speed p (along p) (way p) dt). num_unfold.
  destruct (Rleb (way p) (1 / 2) && Rleb (Rabs (velocity p)) (1 / 2)) eqn:Hnear.
  { left. split; [by repeat split|]. apply andb_prop in Hnear as [Hw _].
    destruct (Rleb_spec (way p) (1 / 2)); [|done]. pose proof (Rmax_l (1 / 2) (v * dt)). lra. }
  assert (Hrest : ~ (way p <= 1 / 2 /\ Rabs (along p) <= 1 / 2)).
  { rewrite along_abs. intros [H1 H2].
    destruct (Rleb_spec (way p) (1 / 2)), (Rleb_spec (Rabs (velocity p)) (1 / 2)); done || lra. }
  cbn -[Rleb Rltb]. pose proof (dir_way p) as Hw.
  match goal with |- context [if ?c then _ else _] => destruct c eqn:Hc end.
  { left. split; [by repeat split|]. pose proof (Rmax_r (1 / 2) (v * dt)).
    enough (way p <= v * dt) by lra. clear -Hc Hw.
    destruct (dir_unit p) as [Hu|Hu]; rewrite Hu in *.
    - destruct (Rltb_spec (-1) 0), (Rltb_spec 1 0); try lra. cbn in Hc.
      destruct (Rltb 0 1); [|done]. destruct (Rleb_spec (target_position p) (position p + 1 * v * dt)); [|done].
      lra.
    - destruct (Rltb_spec 0 (-1)); [lra|]. destruct (Rltb_spec (-1) 0); [|lra].
      destruct (Rleb_spec (position p + -1 * v * dt) (target_position p)); [|done]. lra. }
  right. change (moved p (advanced p v dt) v dt). apply advanced_moved; [done | done |].
  apply orb_false_iff in Hc as [Hc1 Hc2]. destruct (dir_unit p) as [Hu|Hu]; rewrite Hu in *.
  - destruct (Rltb_spec 0 1); [|lra]. destruct (Rleb_spec (target_position p) (position p + 1 * v * dt)); [done|].
    lra.
  - destruct (Rltb_spec (-1) 0); [|lra]. destruct (Rleb_spec (position p + -1 * v * dt) (target_position p)); [done|].
    lra.
Qed.

(** ** The speed of a cycle *)

Section Speed.
Context (p : profile) (va w dt : R).
Hypotheses (Hlim : limits_pos p) (Hdt : 0 < dt).
Abbreviation v := (trapezoidal_speed p va w dt).

(** Away from the target: slow down towards zero. *)
Lemma speed_back : va < 0 -> va <= v <= 0 /\ (v = 0 \/ v = va + deceleration p * dt).
Proof.
  destruct Hlim as (? & ? & ?). intros Hva. unfold trapezoidal_speed. num_unfold.
  assert (0 < deceleration p * dt) by nra.
  destruct (Rltb_spec va 0); [|lra]. destruct (Rltb_spec 0 (va + deceleration p * dt)); lra.
Qed.

(** Towards the target: brake inside the stopping distance, accelerate outside. *)
Lemma speed_forth :
  0 <= va ->
  (w <= va * va / (2 * deceleration p) + 1 / 2 /\ v = Rmax 0 (va - deceleration p * dt))
  \/ (va * va / (2 * deceleration p) + 1 / 2 < w
      /\ v = Rmin (max_velocity p) (va + acceleration p * dt)).
Proof.
  intros Hva. unfold trapezoidal_speed. num_unfold.
  destruct (Rltb_spec va 0); [lra|].
  destruct (Rleb_spec w (va * va / (2 * deceleration p) + 1 / 2)).
  - left. split; [done|]. destruct (Rltb_spec (va - deceleration p * dt) 0).
    + rewrite Rmax_left; lra.
    + rewrite Rmax_right; lra.
  - right. split; [done|]. destruct (Rltb_spec (max_velocity p) (va + acceleration p * dt)).
    + rewrite Rmin_left; lra.
    + rewrite Rmin_right; lra.
Qed.

Lemma speed_forth_range : 0 <= va <= max_velocity p -> 0 <= v <= max_velocity p.
Proof.
  destruct Hlim as (? & ? & ?). intros Hva.
  assert (0 < deceleration p * dt) by nra. assert (0 < acceleration p * dt) by nra.
  destruct (speed_forth ltac:(lra)) as [[_ ->]|[_ ->]].
  - split; [apply Rmax_l|]. apply Rmax_lub; lra.
  - split; [apply Rmin_glb; lra | apply Rmin_l].
Qed.
End Speed.

(** ** Arrival

    [step] is a cycle that arrives, moves as the trapezoidal step does, or begins a motion
    that is known to arrive. *)

Section Arrival.
Context (dt : R) (step : profile -> profile) (good : profile -> Prop).
Hypothesis Hdt : 0 < dt.

Definition arrives (p : profile) : Prop := exists n, arrived p (Nat.iter n step p).

Hypothesis Hgood : forall p, good p -> limits_pos p.
Hypothesis Hstep : forall p, good p -> arrives p
  \/ (moved p (step p) (trapezoidal_speed p (along p) (way p) dt) dt /\ good (step p)).

Lemma arrives_step p v : moved p (step p) v dt -> arrives (step p) -> arrives p.
Proof.
  intros Hm (n & Hd & Hp & Hv & Ht). exists (S n). rewrite Nat.iter_succ_r.
  rewrite (mv_target _ _ _ _ Hm) in *. by split.
Qed.

(** The least progress of an accelerating cycle. *)
Definition gain (p : profile) : R := Rmin (max_velocity p) (acceleration p * dt) * dt.

Lemma gain_pos p : limits_pos p -> 0 < gain p.
Proof.
  intros (? & ? & ?). unfold gain. apply Rmult_lt_0_compat; [|done].
  apply Rmin_glb_lt; [done | by apply Rmult_lt_0_compat].
Qed.

(** Every bound is a number of positive steps. *)
Lemma steps_bound x y : 0 < y -> exists n : nat, x <= INR n * y.
Proof.
  intros Hy. destruct (archimed (x / y)) as [Hup _].
  exists (Z.to_nat (up (x / y))). assert (Hx : x = x / y * y) by (field; lra).
  destruct (Z_lt_le_dec (up (x / y)) 0) as [Hn|Hn].
  - assert (IZR (up (x / y)) <= 0) by (apply IZR_le; lia). replace (Z.to_nat (up (x / y))) with 0%nat by lia. cbn. nra.
  - rewrite INR_IZR_INZ, Z2Nat.id by done. nra.
Qed.

(** An accelerating cycle gains on the way. *)
Lemma accelerated (n1 : R) p :
  (forall p, good p -> 0 <= along p -> way p <= n1 * gain p - gain p -> arrives p) ->
  limits_pos p -> good (step p) -> gain (step p) = gain p ->
  0 <= along p -> way p <= n1 * gain p ->
  way (step p) = way p - Rmin (max_velocity p) (along p + acceleration p * dt) * dt ->
  along (step p) = Rmin (max_velocity p) (along p + acceleration p * dt) ->
  arrives (step p).
Proof.
  intros IH (HV & HA & HD) Hg Hge Ha Hw Mw Ma. assert (0 < acceleration p * dt) by nra.
  assert (Hle : Rmin (max_velocity p) (acceleration p * dt)
                <= Rmin (max_velocity p) (along p + acceleration p * dt)).
  { apply Rmin_glb; [apply Rmin_l|]. pose proof (Rmin_r (max_velocity p) (acceleration p * dt)). lra. }
  assert (0 < Rmin (max_velocity p) (acceleration p * dt)) by (by apply Rmin_glb_lt).
  apply IH; [done | lra |]. rewrite Hge, Mw. unfold gain in *. nra.
Qed.

(** Towards the target, while the distance left is at most [n1] gains: the speed falls
    until a cycle accelerates. *)
Lemma arrives_brake (n1 : R) :
  (forall p, good p -> 0 <= along p -> way p <= n1 * gain p - gain p -> arrives p) ->
  forall n2 p, good p -> 0 <= along p -> along p <= INR n2 * (deceleration p * dt) ->
  way p <= n1 * gain p -> arrives p.
Proof.
  intros IH1 n2. induction n2 as [|n2 IH2]; intros p Hg Ha Hv Hw.
  all: pose proof (Hgood _ Hg) as Hlim; pose proof Hlim as (HV & HA & HD).
  all: assert (Hd : 0 < deceleration p * dt) by nra; assert (Haa : 0 < acceleration p * dt) by nra.
  all: destruct (Hstep p Hg) as [|[Hm Hg']]; [done|]; apply (arrives_step _ _ Hm).
  all: destruct Hm as [Mw _ Ma _ _ _ (MV & MA & MD) Mr].
  all: assert (Hge : gain (step p) = gain p) by (unfold gain; by rewrite MV, MA).
  all: destruct (speed_forth p (along p) (way p) dt Ha) as [[Hb Hs]|[Hb Hs]]; rewrite Hs in *.
  - exfalso. cbn in Hv. assert (along p = 0) as H0 by lra. rewrite H0 in *. apply Mr.
    rewrite Rabs_R0. replace (0 * 0 / (2 * deceleration p)) with 0 in Hb by (field; lra). lra.
  - by apply (accelerated n1 p).
  - rewrite S_INR in Hv. pose proof (Rmax_l 0 (along p - deceleration p * dt)).
    apply IH2; [done | lra | | rewrite Hge, Mw; nra].
    rewrite Ma, MD. pose proof (pos_INR n2). apply Rmax_lub; nra.
  - by apply (accelerated n1 p).
Qed.

Lemma arrives_forth n1 : forall p,
  good p -> 0 <= along p -> way p <= INR n1 * gain p -> arrives p.
Proof.
  induction n1 as [|n1 IH]; intros p Hg Ha Hw.
  all: pose proof (Hgood _ Hg) as (HV & HA & HD).
  all: assert (Hd : 0 < deceleration p * dt) by nra.
  all: destruct (steps_bound (along p) (deceleration p * dt) Hd) as [n2 Hn2].
  - eapply (arrives_brake (INR 0)); [|done..]. intros q Hq _ Hwq. exfalso. cbn in Hwq.
    pose proof (gain_pos q (Hgood _ Hq)). pose proof (way_nonneg q). lra.
  - eapply (arrives_brake (INR (S n1))); [|done..]. intros q Hq Haq Hwq. apply IH; [done..|].
    rewrite S_INR in Hwq. lra.
Qed.

(** Away from the target: the speed reaches zero first. *)
Lemma arrives_back n : forall p,
  good p -> - along p <= INR n * (deceleration p * dt) -> arrives p.
Proof.
  induction n as [|n IH]; intros p Hg Hn.
  all: pose proof (Hgood _ Hg) as Hlim; pose proof (gain_pos p Hlim) as Hgain.
  all: pose proof Hlim as (HV & HA & HD); assert (Hd : 0 < deceleration p * dt) by nra.
  all: destruct (steps_bound (way p) (gain p) Hgain) as [n1 Hn1].
  - cbn in Hn. apply (arrives_forth n1); [done | lra | done].
  - destruct (Rle_lt_dec 0 (along p)) as [Ha|Ha]; [by apply (arrives_forth n1)|].
    destruct (Hstep p Hg) as [|[Hm Hg']]; [done|]. apply (arrives_step _ _ Hm).
    apply IH; [done|]. destruct Hm as [_ _ Ma _ _ _ (_ & _ & MD) _]. rewrite Ma, MD.
    destruct (speed_back p (along p) (way p) dt Hlim Hdt Ha) as [_ [Hs|Hs]]; rewrite Hs.
    + pose proof (pos_INR n). nra.
    + rewrite S_INR in Hn. lra.
Qed.

Lemma always_arrives p : good p -> arrives p.
Proof.
  intros Hg. pose proof (Hgood _ Hg) as (HV & HA & HD).
  assert (Hd : 0 < deceleration p * dt) by nra.
  destruct (steps_bound (- along p) (deceleration p * dt) Hd) as [n Hn].
  by apply (arrives_back n).
Qed.
End Arrival.

(** What a caller may do to a profile between two steps: everything but touch the motion
    and the plan. *)
Record untouched (p p' : profile) : Prop := Untouched {
  ut_same : same_motion p p';
  ut_valid : planner_valid p' = planner_valid p;
  ut_elapsed : planner_elapsed_s p' = planner_elapsed_s p;
  ut_total : planner_total_s p' = planner_total_s p;
}.

Lemma arrived_untouched p q r : arrived p q -> untouched q r -> arrived p r.
Proof.
  intros (Hd & Hp & Hv & Ht) [Hs _ _ _].
  split_and!; [rewrite (sm_done _ _ Hs) | rewrite (sm_position _ _ Hs)
              | rewrite (sm_velocity _ _ Hs) | rewrite (sm_target _ _ Hs)]; done.
Qed.

Lemma same_motion_way p q : same_motion p q -> way q = way p /\ dir q = dir p /\ along q = along p.
Proof.
  intros Hs. unfold along, way, dir.
  by rewrite (sm_target _ _ Hs), (sm_position _ _ Hs), (sm_velocity _ _ Hs).
Qed.

Lemma moved_untouched p q r v dt : moved p q v dt -> untouched q r -> moved p r v dt.
Proof.
  intros [] [Hs _ _ _]. destruct (same_motion_way _ _ Hs) as (Hw & Hd & Ha).
  split; rewrite ?Hw, ?Hd, ?Ha, ?(sm_done _ _ Hs), ?(sm_target _ _ Hs), ?(sm_max _ _ Hs),
    ?(sm_acc _ _ Hs), ?(sm_dec _ _ Hs); done.
Qed.

Section Motion.
Context (dt : R) (Hdt : 0 < dt) (tag : profile -> profile) (Htag : forall p, untouched p (tag p)).
Abbreviation raw := (fun p : profile => step_position_profile p dt).
Abbreviation step := (fun p : profile => tag (step_position_profile p dt)).

(** ** A plan that runs *)

Record running (p : profile) : Prop := Running {
  run_valid : planner_valid p = true;
  run_done : done_ p = false;
  run_ramp : 0 < profile_ramp_time_s p;
}.

(** One cycle of a running plan: the end, or the next sample. *)
Lemma run_step p :
  running p ->
  arrived p (raw p)
  \/ (running (raw p) /\ target_position (raw p) = target_position p
      /\ planner_total_s (raw p) = planner_total_s p
      /\ planner_elapsed_s (raw p) = planner_elapsed_s p + dt
      /\ planner_elapsed_s p + dt < planner_total_s p).
Proof.
  intros [Hv Hd Hr]. unfold step_position_profile. num_unfold.
  destruct (Rleb_spec (profile_ramp_time_s p) 0); [lra|].
  unfold step_position_profile_smooth. rewrite Hd, Hv. cbn [negb fst snd].
  set (p1 := p <| planner_elapsed_s := _ |>).
  assert (Hel : planner_elapsed_s p1 = planner_elapsed_s p + dt) by done.
  assert (Htot : planner_total_s p1 = planner_total_s p) by done. num_unfold.
  rewrite Hel, Htot. destruct (Rleb_spec (planner_total_s p) (planner_elapsed_s p + dt)).
  - left. by repeat split.
  - right. by repeat split.
Qed.

Lemma running_untouched p q : running p -> untouched p q -> running q.
Proof.
  intros [Hv Hd Hr] Hu. pose proof (ut_same _ _ Hu) as Hs.
  split; [by rewrite (ut_valid _ _ Hu) | by rewrite (sm_done _ _ Hs)
         | by rewrite (profile_ramp_time_eq _ _ Hs)].
Qed.

Lemma arrived_trans p q r :
  target_position q = target_position p -> arrived q r -> arrived p r.
Proof. intros Ht (Hd & Hp & Hv & Htr). split_and!; congruence. Qed.

Lemma run_arrives n : forall p,
  running p -> planner_total_s p <= planner_elapsed_s p + INR n * dt -> arrives step p.
Proof.
  induction n as [|n IH]; intros p Hrun Ht.
  all: pose proof (Htag (raw p)) as Hu.
  all: destruct (run_step p Hrun) as [Ha|(Hrun' & Htp & Htot & Hel & Hlt)];
    [exists 1%nat; by eapply arrived_untouched|].
  - cbn in Ht. lra.
  - rewrite S_INR in Ht. destruct (IH (step p)) as (m & Hm).
    + by eapply running_untouched.
    + rewrite (ut_total _ _ Hu), (ut_elapsed _ _ Hu), Htot, Hel. lra.
    + exists (S m). rewrite Nat.iter_succ_r. eapply arrived_trans; [|done].
      by rewrite (sm_target _ _ (ut_same _ _ Hu)).
Qed.

Lemma running_arrives p : running p -> arrives step p.
Proof.
  intros Hrun. destruct (steps_bound (planner_total_s p - planner_elapsed_s p) dt Hdt) as [n Hn].
  apply (run_arrives n); [done | lra].
Qed.

(** ** Any cycle without a plan *)

Record idle (p : profile) : Prop := Idle {
  idle_limits : limits_pos p;
  idle_done : done_ p = false;
  idle_plan : planner_valid p = false;
}.

Lemma trapezoidal_plan p : planner_valid (step_position_profile_trapezoidal p dt) = planner_valid p.
Proof.
  unfold step_position_profile_trapezoidal.
  repeat match goal with |- context [if ?c then _ else _] => destruct c; try done end.
Qed.

Lemma moved_idle p p' v :
  limits_pos p -> moved p p' v dt -> planner_valid p' = false -> idle p'.
Proof.
  intros (? & ? & ?) Hm Hv. destruct (mv_limits _ _ _ _ Hm) as (MV & MA & MD).
  split; [|apply Hm | done]. unfold limits_pos. by rewrite MV, MA, MD.
Qed.

(** The trapezoidal step sees only the motion of the profile. *)
Lemma moved_same p p1 p' :
  same_motion p p1 ->
  moved p1 p' (trapezoidal_speed p1 (along p1) (way p1) dt) dt ->
  moved p p' (trapezoidal_speed p (along p) (way p) dt) dt.
Proof.
  intros Hs Hm. destruct (same_motion_way _ _ Hs) as (Hw & Hd & Ha).
  assert (Hv : trapezoidal_speed p1 (along p1) (way p1) dt = trapezoidal_speed p (along p) (way p) dt).
  { unfold trapezoidal_speed. by rewrite Hw, Ha, (sm_max _ _ Hs), (sm_acc _ _ Hs), (sm_dec _ _ Hs). }
  rewrite Hv in Hm. destruct Hm as [? ? ? ? ? Ht Hl ?].
  rewrite (sm_max _ _ Hs), (sm_acc _ _ Hs), (sm_dec _ _ Hs) in Hl.
  rewrite Hw, ?Ha, ?Hd, (sm_target _ _ Hs) in *. by split.
Qed.

(** A trapezoidal cycle on a profile with the same motion. *)
Lemma trapezoidal_outcome p p1 :
  idle p -> same_motion p p1 -> planner_valid p1 = false ->
  raw p = step_position_profile_trapezoidal p1 dt ->
  arrives step p \/ (moved p (step p) (trapezoidal_speed p (along p) (way p) dt) dt /\ idle (step p)).
Proof.
  intros [Hlim Hd Hv] Hs Hv1 Heq.
  assert (Hd1 : done_ p1 = false) by (by rewrite (sm_done _ _ Hs)).
  destruct (trapezoid_step p1 dt Hd1 Hdt) as [[Ha _]|Hm].
  all: pose proof (Htag (raw p)) as Hu; rewrite <- Heq in *.
  - left. exists 1%nat. cbn. eapply arrived_trans; [apply (sm_target _ _ Hs)|].
    by eapply arrived_untouched.
  - right. apply (moved_same _ _ _ Hs) in Hm. eapply moved_untouched in Hm; [|done].
    split; [done|]. eapply moved_idle; [done..|].
    by rewrite (ut_valid _ _ Hu), Heq, trapezoidal_plan.
Qed.

Lemma step_outcome p :
  idle p ->
  arrives step p \/ (moved p (step p) (trapezoidal_speed p (along p) (way p) dt) dt /\ idle (step p)).
Proof.
  intros Hidle. pose proof Hidle as [Hlim Hd Hv].
  destruct (Rleb_spec (profile_ramp_time_s p) 0) as [Hr|Hr].
  { apply (trapezoidal_outcome p p); [done | by split | done |].
    unfold step_position_profile. num_unfold. destruct (Rleb_spec (profile_ramp_time_s p) 0); [done | lra]. }
  pose proof (build_spec p Hlim) as Hb. cbn zeta in Hb.
  assert (Hstep : raw p = if (scurve_build_position_plan p).1 then raw (scurve_build_position_plan p).2
                           else step_position_profile_trapezoidal (scurve_build_position_plan p).2 dt).
  { unfold step_position_profile at 1. num_unfold. destruct (Rleb_spec (profile_ramp_time_s p) 0); [lra|].
    unfold step_position_profile_smooth at 1. rewrite Hd, Hv.
    destruct (scurve_build_position_plan p) as [[] p1]; cbn [fst snd negb] in *; [|done].
    destruct Hb as (d & _ & Hst & _). pose proof (ps_same _ _ _ Hst) as Hs.
    unfold step_position_profile. num_unfold. rewrite (profile_ramp_time_eq _ _ Hs).
    destruct (Rleb_spec (profile_ramp_time_s p) 0); [lra|].
    unfold step_position_profile_smooth.
    by rewrite (sm_done _ _ Hs), Hd, (ps_valid _ _ _ Hst). }
  destruct (scurve_build_position_plan p) as [[] p1]; cbn [fst snd] in *.
  - destruct Hb as (d & _ & Hst & _). pose proof (ps_same _ _ _ Hst) as Hs. left.
    destruct (running_arrives p1) as (n & Hn).
    { split; [apply (ps_valid _ _ _ Hst) | by rewrite (sm_done _ _ Hs) | by rewrite (profile_ramp_time_eq _ _ Hs)]. }
    destruct n as [|n].
    { destruct Hn as [Hn _]. cbn in Hn. rewrite (sm_done _ _ Hs), Hd in Hn. done. }
    exists (S n). rewrite Nat.iter_succ_r in *. rewrite Hstep.
    eapply arrived_trans; [|done]. apply (sm_target _ _ Hs).
  - destruct Hb as [Hs Hv1]. by apply (trapezoidal_outcome p p1).
Qed.

Lemma idle_arrives p : idle p -> arrives step p.
Proof. apply (always_arrives dt step idle Hdt (fun p Hi => idle_limits p Hi) step_outcome). Qed.
End Motion.
