(* ===== verification/MotionTheorems.v ===== *)
(** * Theorems on the motion of a position command

    The guarantees of a position profile over the real numbers: it arrives, a trapezoidal
    cycle keeps its limits and does not run past the target, and the cyclic step of a
    position command ends at the commanded position whatever the drive reports. *)

From Stdlib Require Import Reals Lra Psatz.
From S2P Require Import Prelude Num Cia402 Profile PlanBuild PlanTheorems Motion.
Open Scope R_scope.

(** ** Rounding of the outputs *)

Lemma Int_part_IZR z : Int_part (IZR z) = z.
Proof. symmetry. apply Int_part_spec. lra. Qed.

Lemma Int_part_between (x : R) a b : IZR a <= x -> x < IZR b + 1 -> (a <= Int_part x <= b)%Z.
Proof.
  intros Ha Hb. destruct (base_Int_part x) as [H1 H2]. split.
  - apply Z.lt_succ_r, lt_IZR. rewrite succ_IZR. lra.
  - apply Z.lt_succ_r, lt_IZR. rewrite succ_IZR. lra.
Qed.

(** The number that is converted is one of 32 bits, so the conversion is defined. *)
Lemma round_in_range (x : R) : exists z, round_to_i32 x = Some z /\ (INT32_MIN <= z <= INT32_MAX)%Z.
Proof.
  unfold round_to_i32, INT32_MIN, INT32_MAX. num_unfold.
  destruct (Rltb_spec (IZR 2147483647) x) as [|Hhi]; [eexists; split; [reflexivity|lia]|].
  destruct (Rltb_spec x (IZR (-2147483648))) as [|Hlo]; [eexists; split; [reflexivity|lia]|].
  cbn. unfold Rtrunc. destruct (Rleb_spec 0 x) as [H0|H0].
  - destruct (Rleb_spec 0 (x + 1 / 2)); [|lra].
    assert (0 <= Int_part (x + 1 / 2) <= 2147483647)%Z by (apply Int_part_between; lra).
    rewrite to_int32_some by lia. eexists. split; [reflexivity|lia].
  - destruct (Rleb_spec 0 (x - 1 / 2)); [lra|].
    assert (0 <= Int_part (- (x - 1 / 2)) <= 2147483648)%Z by (apply Int_part_between; lra).
    rewrite to_int32_some by lia. eexists. split; [reflexivity|lia].
Qed.

(** The conversion is always defined, and exact on the 32-bit integers. *)
Lemma round_total (x : R) : exists z, round_to_i32 x = Some z.
Proof. destruct (round_in_range x) as (z & Hz & _). by exists z. Qed.

Lemma round_half z : Int_part (IZR z + 1 / 2) = z.
Proof. symmetry. apply Int_part_spec. lra. Qed.

Lemma round_IZR z : (INT32_MIN <= z <= INT32_MAX)%Z -> round_to_i32 (IZR z) = Some z.
Proof.
  intros Hz. unfold round_to_i32. num_unfold.
  assert (Hlo : IZR INT32_MIN <= IZR z) by (apply IZR_le; lia).
  assert (Hhi : IZR z <= IZR INT32_MAX) by (apply IZR_le; lia).
  destruct (Rltb_spec (IZR INT32_MAX) (IZR z)); [lra|].
  destruct (Rltb_spec (IZR z) (IZR INT32_MIN)); [lra|].
  cbn. unfold Rtrunc. destruct (Rleb_spec 0 (IZR z)) as [Hz0|Hz0].
  - destruct (Rleb_spec 0 (IZR z + 1 / 2)); [|lra]. rewrite round_half. apply to_int32_some. unfold INT32_MIN, INT32_MAX in Hz. lia.
  - destruct (Rleb_spec 0 (IZR z - 1 / 2)); [lra|].
    replace (- (IZR z - 1 / 2)) with (IZR (- z) + 1 / 2) by (rewrite opp_IZR; lra).
    rewrite round_half, Z.opp_involutive. apply to_int32_some. unfold INT32_MIN, INT32_MAX in Hz. lia.
Qed.

Lemma round_target z : (INT32_MIN <= z <= INT32_MAX)%Z -> default 0%Z (round_to_i32 (IZR z)) = z.
Proof. intros Hz. by rewrite round_IZR. Qed.

(** ** The start of a motion *)

Lemma configured_speed_pos z : 0 < configured_speed (F := R) z.
Proof. unfold configured_speed. rewrite abs_double_Rabs. num_unfold. num_cases; lra. Qed.

Lemma configured_accel_pos z s : 0 < configured_accel (F := R) z s.
Proof.
  unfold configured_accel. rewrite max_double_Rmax. num_unfold.
  destruct (Z.ltb_spec 0 z); [by apply IZR_lt|].
  pose proof (Rmax_l 10000 (s * 10)). lra.
Qed.

(** The position a command asks for, from the position at its start. *)
Definition goal_of (command : Cia402MotionCommand R) (start : Z) : Z :=
  if (c_relative command =? 0)%Z then c_target_position command
  else (start + c_target_position command)%Z.

Lemma begin_position command start speed :
  c_type command = CIA402_MOTION_PROFILE_POSITION ->
  let p := cia402_profile_begin command start speed in
  active p = true /\ p_type p = CIA402_MOTION_PROFILE_POSITION
  /\ target_position p = IZR (goal_of command start)
  /\ (idle p \/ (done_ p = true /\ position p = target_position p /\ velocity p = 0)).
Proof.
  intros Ht. unfold cia402_profile_begin, goal_of. rewrite Ht. cbn zeta.
  rewrite bool_decide_eq_false_2 by done. cbn -[Rleb configured_speed configured_accel abs_double].
  pose proof (configured_speed_pos (c_profile_velocity command)).
  match goal with |- context [if ?c then _ else _] => destruct c end.
  all: split_and!; try done.
  1, 3: by destruct (c_relative command =? 0)%Z; cbn; rewrite ?plus_IZR.
  - right. by repeat split.
  - left. split; [|done..]. split_and!; cbn; auto using configured_accel_pos.
Qed.

(** ** A position command over cycles *)

(** What a cycle stores beside the motion. *)
Definition tag (p : profile) : profile :=
  p <| output_position := default 0%Z (round_to_i32 (position p)) |>
    <| output_velocity := default 0%Z (round_to_i32 (velocity p)) |>
    <| cycles := s64 (cycles p + 1)%Z |>.

Lemma tag_untouched p : untouched p (tag p).
Proof. by repeat split. Qed.

Lemma cia402_dt_pos period_us : 0 < cia402_dt_s (F := R) period_us.
Proof.
  unfold cia402_dt_s. num_unfold.
  match goal with |- context [Rleb ?x 0] => destruct (Rleb_spec x 0); lra end.
Qed.

(** The outputs of a position command. *)
Definition position_output (command : Cia402MotionCommand R) (p : profile) : Cia402PdoOutput :=
  PdoOutput 0x000f (default 0%Z (round_to_i32 (position p)))
    (default 0%Z (round_to_i32 (velocity p))) (mode_or command CIA402_MODE_CSP).

Lemma profile_step_position p command pos vel period_us output :
  c_type command = CIA402_MOTION_PROFILE_POSITION -> active p = true ->
  p_type p = CIA402_MOTION_PROFILE_POSITION ->
  cia402_profile_step p command pos vel period_us output
  = let q := step_position_profile p (cia402_dt_s period_us) in
    Ok (done_ q, tag q, position_output command q).
Proof.
  intros Ht Ha Hp. unfold cia402_profile_step, cia402_motion_step, cia402_motion_output.
  rewrite Ht, Ha, Hp. rewrite bool_decide_eq_false_2, bool_decide_eq_true_2 by done. cbn [negb orb].
  cbv zeta. unfold position_output, tag.
  destruct (round_total (position (step_position_profile p (cia402_dt_s period_us)))) as [z1 Hz1].
  destruct (round_total (velocity (step_position_profile p (cia402_dt_s period_us)))) as [z2 Hz2].
  rewrite Hz1, Hz2. cbn. done.
Qed.

(** The step that starts the motion begins it first. *)
Lemma profile_step_begin p command pos vel period_us output :
  c_type command = CIA402_MOTION_PROFILE_POSITION -> active p = false ->
  cia402_profile_step p command pos vel period_us output
  = cia402_profile_step (cia402_profile_begin command pos vel) command pos vel period_us output.
Proof.
  intros Ht Ha. destruct (begin_position command pos vel Ht) as (Hba & Hbt & _).
  unfold cia402_profile_step. rewrite Ha, Hba, Hbt, Ht. cbn [negb orb].
  done.
Qed.

(** Cycles of a command: what the drive reports in each of them is arbitrary. *)
Fixpoint profile_run (command : Cia402MotionCommand R) (period_us : Z)
    (feedback : list (Z * Z)) (p : profile) (output : Cia402PdoOutput)
    : res (bool * profile * Cia402PdoOutput) :=
  match feedback with
  | [] => Ok (done_ p, p, output)
  | (pos, vel) :: feedback =>
      match cia402_profile_step p command pos vel period_us output with
      | Ok (_, p, output) => profile_run command period_us feedback p output
      | Err e => Err e
      end
  end.

Lemma step_active (p : profile) dt :
  active (step_position_profile p dt) = active p /\ p_type (step_position_profile p dt) = p_type p.
Proof.
  assert (Htr : forall q : profile, active (step_position_profile_trapezoidal q dt) = active q
                        /\ p_type (step_position_profile_trapezoidal q dt) = p_type q).
  { intros q. unfold step_position_profile_trapezoidal.
    repeat match goal with |- context [if ?c then _ else _] => destruct c; try done end. }
  assert (Hseg : forall segs i pva e (q : profile),
    active (scurve_segments i segs pva e q).2 = active q
    /\ p_type (scurve_segments i segs pva e q).2 = p_type q).
  { induction segs as [|[t j] segs IH]; intros i pva e q; [done|]. cbn [scurve_segments].
    split; (etrans; [apply IH | done]). }
  assert (Hbp : active (scurve_build_position_plan p).2 = active p
                /\ p_type (scurve_build_position_plan p).2 = p_type p).
  { unfold scurve_build_position_plan.
    repeat match goal with |- context [if ?c then _ else _] => destruct c; try done end.
    unfold scurve_fill_plan. destruct (scurve_peak _ _ _ _) as [peak cruise].
    destruct (n_leb peak _); [done|].
    match goal with |- context [scurve_segments ?i ?s ?x ?e ?q] => 
      pose proof (Hseg s i x e q) as Hs; destruct (scurve_segments i s x e q) as [[pva el] q'] end.
    destruct (n_leb el zero); apply Hs. }
  unfold step_position_profile, step_position_profile_smooth. destruct (n_leb _ _); [apply Htr|].
  destruct (done_ p); [done|]. destruct (planner_valid p); cbn [fst snd negb].
  - match goal with |- context [if ?c then _ else _] => destruct c; done end.
  - destruct (scurve_build_position_plan p) as [[] p1]; cbn [fst snd negb] in *.
    + match goal with |- context [if ?c then _ else _] => destruct c; done end.
    + destruct (Htr p1) as [-> ->]. done.
Qed.

(** ** The properties *)

Lemma arrived_stays p q dt : arrived p q -> arrived p (tag (step_position_profile q dt)).
Proof.
  intros (Hd & Hp & Hv & Ht).
  assert (Hs : step_position_profile q dt = q).
  { unfold step_position_profile, step_position_profile_smooth, step_position_profile_trapezoidal.
    rewrite Hd. by destruct (n_leb _ _). }
  rewrite Hs. by split_and!.
Qed.

Lemma arrived_later p q dt n :
  arrived p q -> arrived p (Nat.iter n (fun q => tag (step_position_profile q dt)) q).
Proof. intros Ha. induction n as [|n IH]; [done|]. cbn. by apply arrived_stays. Qed.

(** A run of an active position command is the iteration of its step. *)
Lemma profile_run_iter command period_us feedback : forall p output,
  c_type command = CIA402_MOTION_PROFILE_POSITION -> active p = true ->
  p_type p = CIA402_MOTION_PROFILE_POSITION -> feedback <> [] ->
  profile_run command period_us feedback p output
  = let q := Nat.iter (length feedback)
               (fun q => tag (step_position_profile q (cia402_dt_s period_us))) p in
    Ok (done_ q, q, position_output command q).
Proof.
  induction feedback as [|[pos vel] feedback IH]; intros p output Ht Ha Hp Hne; [done|].
  cbn [profile_run length]. rewrite profile_step_position by done. cbv zeta.
  rewrite Nat.iter_succ_r. destruct feedback as [|f feedback]; [done|].
  destruct (step_active p (cia402_dt_s period_us)) as [Ha' Hp'].
  rewrite IH; [done | done | cbn; congruence | cbn; congruence | done].
Qed.

(** Every position command arrives and stays there. *)
Lemma position_arrives command start speed period_us :
  c_type command = CIA402_MOTION_PROFILE_POSITION ->
  let p := cia402_profile_begin command start speed in
  exists n, forall j, (n <= j)%nat ->
    arrived p (Nat.iter j (fun q => tag (step_position_profile q (cia402_dt_s period_us))) p).
Proof.
  intros Ht p. destruct (begin_position command start speed Ht) as (_ & _ & _ & Hb). fold p in Hb.
  set (step := fun q : profile => tag (step_position_profile q (cia402_dt_s period_us))).
  assert (Harr : exists n, arrived p (Nat.iter n step p)).
  { destruct Hb as [Hidle|(Hd & Hp & Hv)]; [|by exists O; split_and!].
    apply (idle_arrives _ (cia402_dt_pos period_us) tag tag_untouched p Hidle). }
  destruct Harr as [n Hn]. exists n. intros j Hj. replace j with ((j - n) + n)%nat by lia.
  rewrite Nat.iter_add. by apply arrived_later.
Qed.

(** C5: a position command completes.  Whatever the drive reports while it runs, the
    cyclic step of a command with any configured speed, accelerations, kind of profile,
    jerk ratio and period ends, after a number of cycles, with the motion done and the
    commanded 32-bit position and speed zero at the outputs, and stays there. *)
Theorem position_command_completes (command : Cia402MotionCommand R) (period_us : Z)
    (p0 : Cia402MotionProfile R) (output : Cia402PdoOutput) (start speed : Z) :
  c_type command = CIA402_MOTION_PROFILE_POSITION -> active p0 = false ->
  (INT32_MIN <= goal_of command start <= INT32_MAX)%Z ->
  exists n, forall feedback, (n <= length feedback)%nat ->
    exists p, profile_run command period_us ((start, speed) :: feedback) p0 output
      = Ok (true, p, PdoOutput 0x000f (goal_of command start) 0 (mode_or command CIA402_MODE_CSP)).
Proof.
  intros Ht Ha Hgoal.
  destruct (begin_position command start speed Ht) as (Hba & Hbt & Hbp & _).
  destruct (position_arrives command start speed period_us Ht) as [n Hn].
  set (p := cia402_profile_begin command start speed) in *.
  set (step := fun q : profile => tag (step_position_profile q (cia402_dt_s period_us))).
  exists n. intros feedback Hlen.
  exists (Nat.iter (S (length feedback)) step p).
  assert (Harr : arrived p (Nat.iter (S (length feedback)) step p)) by (apply Hn; lia).
  assert (Hrun : profile_run command period_us ((start, speed) :: feedback) p0 output
                 = profile_run command period_us ((start, speed) :: feedback) p output).
  { cbn [profile_run]. rewrite (profile_step_begin p0) by done. done. }
  rewrite Hrun, profile_run_iter by done. cbv zeta. cbn [length]. fold step.
  destruct Harr as (Hd & Hp & Hv & _). rewrite Hd. unfold position_output.
  rewrite Hp, Hv, Hbp, round_target by done. rewrite (round_target 0) by (unfold INT32_MIN, INT32_MAX; lia).
  done.
Qed.

(** a trapezoidal cycle that moves towards the target within the configured speed
    does not leave the interval between its position and the target, does not move
    farther than the configured speed allows (or the rounding distance at the end), keeps
    the configured speed, and, until it is done, changes its speed by at most the
    configured acceleration or deceleration. *)
Theorem trapezoidal_cycle_keeps_limits (p : Cia402MotionProfile R) (dt : R) :
  limits_pos p -> done_ p = false -> 0 < dt -> 0 <= along p <= max_velocity p ->
  let p' := step_position_profile_trapezoidal p dt in
  0 <= dir p * (target_position p - position p') <= way p
  /\ Rabs (position p' - position p) <= Rmax (1 / 2) (max_velocity p * dt)
  /\ Rabs (velocity p') <= max_velocity p
  /\ (done_ p' = true
      \/ - deceleration p * dt <= along p' - along p <= acceleration p * dt).
Proof.
  intros Hlim Hd Hdt Hal. cbn zeta. pose proof (dir_way p) as Hw. pose proof (dir_square p) as Hsq.
  pose proof (way_nonneg p) as Hw0. destruct (speed_forth_range p (along p) (way p) dt Hlim Hdt Hal) as [Hv0 Hv1].
  pose proof Hlim as (HV & HA & HD).
  destruct (trapezoid_step p dt Hd Hdt) as [[(Hd' & Hp' & Hv' & Ht') Hle]|Hm].
  - rewrite Hp', Hv', Rabs_R0. split_and!; [rewrite Rminus_diag; lra | | | lra | by left].
    + rewrite Rminus_diag, Rmult_0_r. lra.
    + fold (way p). etrans; [apply Hle|]. apply Rle_max_compat_l. nra.
  - destruct Hm as [Mw Ml Ma Md Mn Mt _ _].
    assert (Hpos : target_position p - position (step_position_profile_trapezoidal p dt)
                   = dir p * way (step_position_profile_trapezoidal p dt)).
    { pose proof (dir_way (step_position_profile_trapezoidal p dt)) as Hw'. by rewrite Mt, Md in Hw'. }
    assert (Hmul : dir p * (dir p * way (step_position_profile_trapezoidal p dt))
                   = way (step_position_profile_trapezoidal p dt)).
    { rewrite <- Rmult_assoc, Hsq. ring. }
    split_and!.
    + rewrite Hpos, Hmul. lra.
    + rewrite Hpos, Hmul. nra.
    + replace (position (step_position_profile_trapezoidal p dt) - position p)
        with (dir p * (trapezoidal_speed p (along p) (way p) dt * dt)) by nra.
      rewrite Rabs_mult, (Rabs_right (_ * dt)) by nra.
      replace (Rabs (dir p)) with 1 by (destruct (dir_unit p) as [-> | ->]; [by rewrite Rabs_R1 | rewrite Rabs_left; lra]).
      etrans; [|apply Rmax_r]. nra.
    + rewrite <- along_abs, Ma, Rabs_right; lra.
    + right. rewrite Ma. assert (0 < deceleration p * dt) by nra. assert (0 < acceleration p * dt) by nra.
      destruct (speed_forth p (along p) (way p) dt ltac:(lra)) as [[_ ->]|[_ ->]].
      * pose proof (Rmax_r 0 (along p - deceleration p * dt)).
        assert (Rmax 0 (along p - deceleration p * dt) <= along p) by (apply Rmax_lub; lra). lra.
      * pose proof (Rmin_r (max_velocity p) (along p + acceleration p * dt)).
        assert (along p <= Rmin (max_velocity p) (along p + acceleration p * dt)) by (apply Rmin_glb; lra). lra.
Qed.

(** ** Witnesses *)

(** A relative move by -250 from position 100, with an S-curve profile. *)
Definition move_back : Cia402MotionCommand R :=
  MotionCommand CIA402_MOTION_PROFILE_POSITION (-250) 0 500 2000 4000 0 0 1 CIA402_PROFILE_SCURVE 0.

Lemma position_command_completes_witness :
  exists n, forall feedback, (n <= length feedback)%nat ->
    exists p, profile_run move_back 1000 ((100, 3)%Z :: feedback) cia402_profile_reset (PdoOutput 0 0 0 0)
      = Ok (true, p, PdoOutput 0x000f (-150) 0 CIA402_MODE_CSP).
Proof.
  exact (position_command_completes move_back 1000 cia402_profile_reset (PdoOutput 0 0 0 0) 100 3
           eq_refl eq_refl ltac:(vm_compute; split; discriminate)).
Defined.

(** A cycle from rest. *)
Lemma trapezoidal_cycle_keeps_limits_witness :
  limits_pos move_ten /\ 0 <= along move_ten <= max_velocity move_ten
  /\ Rabs (velocity (step_position_profile_trapezoidal move_ten (1 / 1000))) <= 1.
Proof.
  assert (Ha : along move_ten = 0) by (unfold along; cbn; ring).
  assert (Hm : 0 <= along move_ten <= max_velocity move_ten) by (rewrite Ha; cbn; lra).
  split; [exact move_ten_limits|]. split; [exact Hm|].
  exact (proj1 (proj2 (proj2 (trapezoidal_cycle_keeps_limits move_ten (1 / 1000) move_ten_limits
           eq_refl ltac:(lra) Hm)))).
Defined.
