(* ===== verification/PortWf.v ===== *)
(** * The port invariant

    Well-formed ports, the views of the driver's state its theorems speak about, and the
    rules for its state accesses. *)

From S2P Require Import Prelude Types Osal Nicdrv.

(** ** Views *)

(** The stack a stack number names. *)
Definition stack_of (n : Z) (p : ecx_portt) : option ec_stackT :=
  if n =? 0 then Some (stack p) else redport p.
Definition set_stack (n : Z) (s : ec_stackT) (p : ecx_portt) : ecx_portt :=
  if n =? 0 then p <| stack := s |> else p <| redport := Some s |>.

(** Status of receive buffer [i] of a stack. *)
Definition bufstat (s : ec_stackT) (i : Z) : option Z := zget (rxbufstat s) i.

(** ** Well-formedness *)

Definition is_buf (b : list Z) : Prop := zlen b = EC_BUFSIZE.
Definition is_rxbuf (b : list Z) : Prop := is_buf b /\ bytes_ok b.
(** The length field of a receive buffer never points outside it. *)
Definition rx_length (b : list Z) : option Z :=
  b0 ← zget b 0; b1 ← zget b 1; Some (b0 + Z.shiftl (Z.land b1 0x0f) 8).
Definition rx_fits (b : list Z) : Prop :=
  exists l, rx_length b = Some l /\ 0 <= l <= EC_BUFSIZE - 2.
Definition is_framebuf (b : list Z) : Prop := is_rxbuf b /\ rx_fits b.

Definition buf_index (i : Z) : Prop := 0 <= i < EC_MAXBUF.

Record stack_wf (s : ec_stackT) : Prop := StackWf {
  wf_tempbuf : is_rxbuf (tempbuf s);
  wf_rxbuf : zlen (rxbuf s) = EC_MAXBUF;
  wf_rxbufs : Forall is_framebuf (rxbuf s);
  wf_rxbufstat : zlen (rxbufstat s) = EC_MAXBUF;
  wf_rxsa : zlen (rxsa s) = EC_MAXBUF;
}.

(** A frame that is in flight or back has been built. *)
Definition frame_length (n : Z) : Prop :=
  ETH_HEADERSIZE + EC_HEADERSIZE + EC_WKCSIZE <= n <= EC_BUFSIZE.
Definition in_flight (st : Z) : Prop := EC_BUF_TX <= st.
Definition lens_cover (lens : list Z) (s : ec_stackT) : Prop :=
  forall i st n, bufstat s i = Some st -> zget lens i = Some n -> in_flight st -> frame_length n.

Record port_wf (p : ecx_portt) : Prop := PortWf {
  wf_stack : stack_wf (stack p);
  wf_txbuf : zlen (txbuf p) = EC_MAXBUF;
  wf_txbufs : Forall is_buf (txbuf p);
  wf_txbuflength : zlen (txbuflength p) = EC_MAXBUF;
  wf_lens : Forall (fun n => 0 <= n <= EC_BUFSIZE) (txbuflength p);
  wf_txbuf2 : is_buf (txbuf2 p);
  wf_txbuflength2 : 0 <= txbuflength2 p <= EC_BUFSIZE;
  wf_lastidx : buf_index (lastidx p);
  wf_cover : lens_cover (txbuflength p) (stack p);
  wf_red : redstate p <> ECT_RED_NONE -> exists r, redport p = Some r;
  wf_redstack : forall r, redport p = Some r ->
    stack_wf r /\ lens_cover (txbuflength p) r;
}.

(** ** Rules *)

Section Rules.
Context {E : Type} `{OS E} (F : fault -> Prop).
Implicit Types w : world E.

Lemma wp_kern {A} (m : M E A) Q w :
  wp F m (fun a e => Q a (World (port w) e)) (kernel w) -> wp F (kern m) Q w.
Proof. intros Hm. apply wp_zoom. by destruct w. Qed.

Lemma wp_pget {A} (f : ecx_portt -> A) Q w : Q (f (port w)) w -> wp F (pget f) Q w.
Proof. done. Qed.

Lemma wp_pmod f Q w : Q tt (World (f (port w)) (kernel w)) -> wp F (pmod f) Q w.
Proof. intros HQ. apply wp_modify. by destruct w. Qed.

Lemma wp_oob {A} (o : option A) a Q w : o = Some a -> Q a w -> wp F (oob o) Q w.
Proof. by intros ->. Qed.

Lemma wp_get_stack n s Q w :
  stack_of n (port w) = Some s -> Q s w -> wp F (get_stack n) Q w.
Proof.
  unfold stack_of, get_stack. intros Hs HQ. destruct (n =? 0).
  - injection Hs as <-. done.
  - apply wp_bind, wp_pget. rewrite Hs. done.
Qed.

Lemma wp_put_stack n s Q w :
  Q tt (World (set_stack n s (port w)) (kernel w)) -> wp F (put_stack n s) Q w.
Proof. unfold set_stack, put_stack. destruct (n =? 0); apply wp_pmod. Qed.

Lemma wp_set_rxbufstat n idx v s l Q w :
  stack_of n (port w) = Some s -> zset (rxbufstat s) idx v = Some l ->
  Q tt (World (set_stack n (s <| rxbufstat := l |>) (port w)) (kernel w)) ->
  wp F (set_rxbufstat n idx v) Q w.
Proof.
  intros Hs Hl HQ. unfold set_rxbufstat. apply wp_bind. eapply wp_get_stack; [exact Hs|].
  apply wp_bind. eapply wp_oob; [exact Hl|]. by apply wp_put_stack.
Qed.
End Rules.

(** ** Algebra of the views *)

Lemma stack_of_set_same n s p : stack_of n (set_stack n s p) = Some s.
Proof. unfold stack_of, set_stack. by destruct (n =? 0), p. Qed.

Lemma set_stack_0 s p : set_stack 0 s p = p <| stack := s |>.
Proof. done. Qed.

Lemma stack_of_wf n s p :
  port_wf p -> stack_of n p = Some s -> stack_wf s.
Proof.
  intros Hwf. unfold stack_of. destruct (n =? 0).
  - intros [= <-]. apply Hwf.
  - intros Hr. by apply (wf_redstack _ Hwf).
Qed.

Lemma stack_of_cover n s p :
  port_wf p -> stack_of n p = Some s -> lens_cover (txbuflength p) s.
Proof.
  intros Hwf. unfold stack_of. destruct (n =? 0).
  - intros [= <-]. apply Hwf.
  - intros Hr. by apply (wf_redstack _ Hwf).
Qed.

(** Replacing a stack by a well-formed one keeps the port well formed. *)
Lemma port_wf_set_stack n s p :
  port_wf p -> stack_wf s -> lens_cover (txbuflength p) s ->
  port_wf (set_stack n s p).
Proof.
  intros [] Hs Hc. unfold set_stack. destruct (n =? 0), p; split; cbn in *; try done.
  - intros Hred. by eexists.
  - intros r [= <-]. done.
Qed.

(** A buffer of a well-formed list of buffers. *)
Lemma buf_lookup (P : list Z -> Prop) l i : zlen l = EC_MAXBUF -> Forall P l -> buf_index i ->
  exists b, zget l i = Some b /\ P b.
Proof.
  intros Hl Hb Hi. destruct (zget_some l i) as [b Hb']; [unfold buf_index in Hi; lia|].
  exists b. split; [done|]. by eapply Forall_zget.
Qed.

Lemma buf_lookup_len p i : port_wf p -> buf_index i ->
  exists n, zget (txbuflength p) i = Some n /\ 0 <= n <= EC_BUFSIZE.
Proof.
  intros Hp Hi. destruct (zget_some (txbuflength p) i) as [n Hn].
  { rewrite (wf_txbuflength _ Hp). exact Hi. }
  exists n. split; [done|]. exact (Forall_zget _ _ _ _ (wf_lens _ Hp) Hn).
Qed.

(** Changing one status to one that needs no frame. *)
Lemma stack_wf_stat s l idx v :
  stack_wf s -> zset (rxbufstat s) idx v = Some l -> stack_wf (s <| rxbufstat := l |>).
Proof.
  intros [] Hl. destruct s; split; cbn in *; try done. by rewrite (zset_length _ _ _ _ Hl).
Qed.

Lemma bufstat_set s l idx v i :
  zset (rxbufstat s) idx v = Some l ->
  bufstat (s <| rxbufstat := l |>) i = if decide (idx = i) then Some v else bufstat s i.
Proof. intros Hl. destruct s; cbn. by apply zget_zset. Qed.

Lemma lens_cover_stat lens s l idx v :
  lens_cover lens s -> zset (rxbufstat s) idx v = Some l ->
  (in_flight v -> exists n, zget lens idx = Some n /\ frame_length n) ->
  lens_cover lens (s <| rxbufstat := l |>).
Proof.
  intros Hc Hl Hv i st n. rewrite (bufstat_set _ _ _ _ _ Hl). case_decide as Hi; [|apply Hc].
  subst. intros [= <-] Hn Hf. destruct (Hv Hf) as (n' & Hn' & ?). by simplify_eq.
Qed.

(** ** Bytes of a window *)

Lemma bytes_ok_zslice l off n r : bytes_ok l -> zslice l off n = Some r -> bytes_ok r.
Proof. intros Hl (_&_&_&->)%zslice_inv. by apply Forall_take, Forall_drop. Qed.

Lemma bytes_ok_zblit l off src l' :
  bytes_ok l -> bytes_ok src -> zblit l off src = Some l' -> bytes_ok l'.
Proof.
  intros Hl Hs (_&_&->)%zblit_inv.
  rewrite !Forall_app. split_and!; [by apply Forall_take | done | by apply Forall_drop].
Qed.

Lemma is_rxbuf_zblit b off src b' :
  is_rxbuf b -> bytes_ok src -> zblit b off src = Some b' -> is_rxbuf b'.
Proof.
  intros [Hl Hb] Hs Hz. split; [unfold is_buf; by rewrite (zblit_length _ _ _ _ Hz)|].
  exact (bytes_ok_zblit _ _ _ _ Hb Hs Hz).
Qed.
