(* ===== verification/NicRecv.v ===== *)
(** * Frame indices, reception and waiting

    Lemmas on [ecx_getindex] and [ecx_setbufstat]; on [ecx_inframe] and its parts, which
    buffer a frame goes to, what the caller gets, and that a frame that arrives while another
    one is awaited is kept for its own caller; and on the loops that wait for a frame. *)

From S2P Require Import Prelude Ring Osal Types Nicdrv PortWf.

(** * Frame indices: allocation and release of receive buffers

    Theorems on [ecx_getindex] and [ecx_setbufstat] of Nicdrv.v. *)

(** ** The effect on the port *)

(** Status [v] for buffer [idx], in both stacks when the port is redundant. *)
Definition stat_put (idx v : Z) (s : ec_stackT) : ec_stackT :=
  s <| rxbufstat ::= <[Z.to_nat idx := v]> |>.
Definition set_stats (idx v : Z) (p : ecx_portt) : ecx_portt :=
  let p := p <| stack ::= stat_put idx v |> in
  if redstate p =? ECT_RED_NONE then p else p <| redport ::= fmap (stat_put idx v) |>.

Lemma stat_put_zset s idx v :
  stack_wf s -> buf_index idx ->
  zset (rxbufstat s) idx v = Some (rxbufstat (stat_put idx v s)).
Proof.
  intros Hs Hi. rewrite zset_some; [by destruct s|]. rewrite (wf_rxbufstat _ Hs). exact Hi.
Qed.

Lemma stat_put_eq s idx v : s <| rxbufstat := rxbufstat (stat_put idx v s) |> = stat_put idx v s.
Proof. by destruct s. Qed.

Lemma bufstat_put s idx v i :
  stack_wf s -> buf_index idx ->
  bufstat (stat_put idx v s) i = if decide (idx = i) then Some v else bufstat s i.
Proof.
  intros Hs Hi. rewrite <- stat_put_eq. apply bufstat_set. by apply stat_put_zset.
Qed.

Section StatPut.
Context (lens : list Z) (s : ec_stackT) (idx v : Z).
Hypothesis Hs : stack_wf s.
Hypothesis Hi : buf_index idx.

Lemma stat_put_wf : stack_wf (stat_put idx v s).
Proof. rewrite <- stat_put_eq. eapply stack_wf_stat; [done | by apply stat_put_zset]. Qed.

Lemma stat_put_cover :
  lens_cover lens s ->
  (in_flight v -> exists n, zget lens idx = Some n /\ frame_length n) ->
  lens_cover lens (stat_put idx v s).
Proof.
  intros Hc Hv. rewrite <- stat_put_eq.
  eapply lens_cover_stat; [done | by apply stat_put_zset | done].
Qed.

End StatPut.

Lemma port_wf_set_stats idx v p :
  port_wf p -> buf_index idx ->
  (in_flight v -> exists n, zget (txbuflength p) idx = Some n /\ frame_length n) ->
  port_wf (set_stats idx v p).
Proof.
  intros Hp Hi Hn. unfold set_stats.
  assert (Hred : forall r, redport p = Some r ->
    stack_wf (stat_put idx v r) /\ lens_cover (txbuflength p) (stat_put idx v r)).
  { intros r Hr. destruct (wf_redstack _ Hp _ Hr) as (?&?).
    split; [by apply stat_put_wf | by apply stat_put_cover]. }
  destruct Hp, p; cbn in *. case_match; split; cbn; try done.
  all: try (by apply stat_put_wf); try (by apply stat_put_cover).
  - intros Hne. destruct (wf_red Hne) as [r ->]. by eexists.
  - intros r. destruct redport as [r0|]; [|done]. intros [= <-]. by apply Hred.
Qed.

Lemma set_stats_fields idx v p :
  txbuf (set_stats idx v p) = txbuf p /\ txbuflength (set_stats idx v p) = txbuflength p
  /\ txbuf2 (set_stats idx v p) = txbuf2 p /\ txbuflength2 (set_stats idx v p) = txbuflength2 p
  /\ redstate (set_stats idx v p) = redstate p /\ lastidx (set_stats idx v p) = lastidx p
  /\ stack (set_stats idx v p) = stat_put idx v (stack p).
Proof. unfold set_stats. destruct p; cbn. by case_match. Qed.

Section Index.
Context {E : Type} `{OS E} `{LoopFuel} (F : fault -> Prop).
Implicit Types w : world E.

Lemma wp_setbufstat idx v Q w :
  port_wf (port w) -> buf_index idx ->
  Q tt (World (set_stats idx v (port w)) (kernel w)) ->
  wp F (ecx_setbufstat idx v) Q w.
Proof.
  intros Hp Hi HQ. destruct w as [p e]. unfold ecx_setbufstat. cbn [port kernel] in *.
  apply wp_bind. eapply wp_set_rxbufstat; [done | by apply stat_put_zset; [apply Hp|] |].
  rewrite stat_put_eq, set_stack_0. apply wp_bind, wp_pget. cbn [port kernel].
  unfold set_stats in HQ. destruct p as [st ? ? ? ? ? ? rs rp]; cbn in *.
  apply wp_when; intros Hr.
  - destruct (rs =? ECT_RED_NONE) eqn:Hrs; [done|].
    destruct (wf_red _ Hp) as [r Hr']; cbn in *; [lia|]. subst rp.
    eapply wp_set_rxbufstat; [done | apply stat_put_zset; [|done] |].
    + by apply (wf_redstack _ Hp).
    + rewrite stat_put_eq. done.
  - destruct (rs =? ECT_RED_NONE); done.
Qed.

(** The search of [ecx_getindex], from index [i0]. *)
Lemma getindex_search s i0 w :
  stack_wf s -> stack (port w) = s -> buf_index i0 ->
  wp F (while_do (S (Z.to_nat EC_MAXBUF))
    (fun '(idx, cnt) =>
       let* s := pget stack in
       let* st := oob (zget (rxbufstat s) idx) in
       ret (negb (st =? EC_BUF_EMPTY) && (cnt <? EC_MAXBUF)))
    (fun '(idx, cnt) =>
       let idx := u8 (idx + 1) in
       let cnt := u8 (cnt + 1) in
       let idx := if EC_MAXBUF <=? idx then 0 else idx in
       ret (idx, cnt))
    (i0, 0))
    (fun r w' => w' = w /\ exists k, 0 <= k <= EC_MAXBUF /\ r.1 = ring_at EC_MAXBUF i0 k
       /\ (forall j, 0 <= j < k -> bufstat s (ring_at EC_MAXBUF i0 j) <> Some EC_BUF_EMPTY)
       /\ (k < EC_MAXBUF -> bufstat s r.1 = Some EC_BUF_EMPTY)) w.
Proof.
  intros Hs Hst Hi0. unfold buf_index in *.
  assert (N16 : EC_MAXBUF = 16) by done.
  eapply (wp_while_do F (fun '(idx, cnt) w' => w' = w /\ 0 <= cnt <= EC_MAXBUF
      /\ idx = ring_at EC_MAXBUF i0 cnt
      /\ (forall j, 0 <= j < cnt -> bufstat s (ring_at EC_MAXBUF i0 j) <> Some EC_BUF_EMPTY))
    (fun '(idx, cnt) _ => Z.to_nat (EC_MAXBUF - cnt))); [| |cbn; lia].
  2: { split_and!; [done | lia | lia | by rewrite ring_at_0 | lia]. }
  intros [idx cnt] w' (-> & Hc & Hidx & Hall).
  assert (Hir : 0 <= idx < EC_MAXBUF) by (subst idx; apply ring_at_range; lia).
  apply wp_bind, wp_pget. rewrite Hst.
  destruct (zget_some (rxbufstat s) idx) as [st Hst']; [by rewrite (wf_rxbufstat _ Hs)|].
  apply wp_bind. eapply wp_oob; [exact Hst'|]. apply wp_ret.
  destruct (Z.eqb_spec st EC_BUF_EMPTY) as [->|Hne]; cbn [negb andb].
  { split; [done|]. exists cnt. done. }
  destruct (Z.ltb_spec cnt EC_MAXBUF).
  2: { split; [done|]. exists cnt. split_and!; try done; lia. }
  apply wp_ret. rewrite !u8_id by lia.
  split_and!; [done | lia | lia | | | lia].
  - subst idx. rewrite <- ring_next_at by lia. unfold ring_next. done.
  - intros j Hj. destruct (decide (j = cnt)) as [->|]; [|apply Hall; lia].
    rewrite <- Hidx. unfold bufstat. rewrite Hst'. congruence.
Qed.

(** The first empty buffer after the last one handed out; when there is none, the
    next one, whoever uses it. *)
Definition chosen_index (p : ecx_portt) (idx : Z) : Prop :=
  exists k, 0 <= k <= EC_MAXBUF
    /\ idx = ring_at EC_MAXBUF (ring_next EC_MAXBUF (lastidx p)) k
    /\ (forall j, 0 <= j < k ->
          bufstat (stack p) (ring_at EC_MAXBUF (ring_next EC_MAXBUF (lastidx p)) j)
          <> Some EC_BUF_EMPTY)
    /\ (k < EC_MAXBUF -> bufstat (stack p) idx = Some EC_BUF_EMPTY).

Lemma wp_getindex Q w :
  port_wf (port w) ->
  (forall idx, buf_index idx -> chosen_index (port w) idx ->
     Q idx (World ((set_stats idx EC_BUF_ALLOC (port w)) <| lastidx := idx |>) (kernel w))) ->
  wp F ecx_getindex Q w.
Proof.
  intros Hp HQ. unfold ecx_getindex. apply wp_bind, wp_pget.
  pose proof (wf_lastidx _ Hp) as Hl. unfold buf_index in Hl.
  assert (N16 : EC_MAXBUF = 16) by done.
  rewrite u8_id by lia. change (if EC_MAXBUF <=? lastidx (port w) + 1 then 0 else
    lastidx (port w) + 1) with (ring_next EC_MAXBUF (lastidx (port w))).
  apply wp_bind. eapply wp_mono.
  { apply getindex_search; [apply Hp | done | by apply ring_next_range]. }
  intros [idx cnt] w' [-> (k & Hk & Hidx & Hall & Hempty)]. cbn [fst] in *.
  assert (Hi : buf_index idx).
  { subst idx. apply ring_at_range; [by apply ring_next_range | lia]. }
  specialize (HQ idx Hi ltac:(by exists k)).
  assert (Hgoal : wp F (bind (ecx_setbufstat idx EC_BUF_ALLOC) (fun _ =>
    bind (pmod (fun p => p <| lastidx := idx |>)) (fun _ => ret idx))) Q w).
  { apply wp_bind. eapply wp_setbufstat; [done..|]. apply wp_bind, wp_pmod.
    apply wp_ret. exact HQ. }
  revert Hgoal. unfold ecx_setbufstat, wp, bind.
  destruct (set_rxbufstat 0 idx EC_BUF_ALLOC w) as [[[] w1]|]; [|done].
  destruct (pget redstate w1) as [[red w2]|]; [|done]. done.
Qed.
End Index.

(** ** Packets *)

Definition byte_at (l : list Z) (i : Z) : Z := default 0 (zget l i).
Definition packet_etype (t : list Z) : Z :=
  ntohs_of (byte_at t ETH_etype) (byte_at t (ETH_etype + 1)).
Definition packet_length (t : list Z) : Z :=
  Z.land (byte_at t (ETH_HEADERSIZE + COM_elength)
          + Z.shiftl (byte_at t (ETH_HEADERSIZE + COM_elength + 1)) 8) 0x0fff.
Definition packet_index (t : list Z) : Z := byte_at t (ETH_HEADERSIZE + COM_index).
Definition packet_sa (t : list Z) : Z := ntohs_of (byte_at t ETH_sa1) (byte_at t (ETH_sa1 + 1)).

(** What the kernel may hand over for a buffer of [n] bytes: at least the 60 bytes of the
    smallest ethernet frame, and an EtherCAT length that does not point outside the
    receive buffer. *)
Record packet_ok (n : Z) (bs : list Z) : Prop := PacketOk {
  pk_size : 60 <= zlen bs <= n;
  pk_bytes : bytes_ok bs;
  pk_length : packet_etype bs = ETH_P_ECAT -> packet_length bs <= EC_BUFSIZE - 2;
}.

Class NetLaws (E : Type) `{OS E} : Prop :=
  recv_packet : forall fd n (e : E) bs,
    (os_recv fd n e).1 = Some bs -> bs = [] \/ packet_ok n bs.

Lemma packet_of_recv {E} `{OS E} `{!NetLaws E} fd n (e : E) bs :
  (os_recv fd n e).1 = Some bs -> packet_etype bs = ETH_P_ECAT -> packet_ok n bs.
Proof. intros [->|Hk]%recv_packet He; [by vm_compute in He | done]. Qed.

(** The temporary buffer after a packet. *)
Definition load (bs t : list Z) : list Z := bs ++ drop (length bs) t.

Lemma zblit_load bs t : zlen bs <= zlen t -> zblit t 0 bs = Some (load bs t).
Proof. intros Hl. rewrite zblit_some by lia. done. Qed.

Lemma zlen_load bs t : zlen bs <= zlen t -> zlen (load bs t) = zlen t.
Proof. unfold load, zlen. autorewrite with len. lia. Qed.

Lemma byte_at_load bs t i : 0 <= i < zlen bs -> byte_at (load bs t) i = byte_at bs i.
Proof.
  intros Hi. unfold byte_at, load, zget, zlen in *. destruct (i <? 0) eqn:?; [lia|].
  by rewrite lookup_app_l by lia.
Qed.

Lemma byte_at_range t i : bytes_ok t -> 0 <= byte_at t i < 256.
Proof.
  intros Ht. unfold byte_at. destruct (zget t i) as [b|] eqn:Hb; [|cbn; lia].
  exact (Forall_zget _ _ _ _ Ht Hb).
Qed.

Lemma zget_byte_at t i : 0 <= i < zlen t -> zget t i = Some (byte_at t i).
Proof. intros Hi. unfold byte_at. destruct (zget_some t i Hi) as [b Hb]. by rewrite Hb. Qed.

Lemma length_field b0 b1 : 0 <= b0 < 256 -> 0 <= b1 < 256 ->
  Z.land (b0 + Z.shiftl b1 8) 0x0fff = b0 + Z.shiftl (Z.land b1 0x0f) 8.
Proof.
  intros H0 H1. change 0x0fff with (Z.ones 12). change 0x0f with (Z.ones 4).
  rewrite !Z.land_ones, !Z.shiftl_mul_pow2 by lia.
  change (2 ^ 12) with 4096. change (2 ^ 4) with 16. change (2 ^ 8) with 256.
  Z.div_mod_to_equations. lia.
Qed.

(** ** Storing a frame *)

(** Frame [t] is stored in buffer [i] with status [status]; the other buffers of the
    stack stay as they are. *)
Record delivered (status i : Z) (t lens : list Z) (s s' : ec_stackT) : Prop := Delivered {
  dl_stat : bufstat s' i = Some status;
  dl_sa : zget (rxsa s') i = Some (packet_sa t);
  dl_payload : forall n, zget lens i = Some n -> exists b, zget (rxbuf s') i = Some b
     /\ zslice b 0 (n - ETH_HEADERSIZE) = zslice t ETH_HEADERSIZE (n - ETH_HEADERSIZE);
  dl_tempbuf : tempbuf s' = t;
  dl_sock : sock s' = sock s;
  dl_others : forall j, j <> i -> bufstat s' j = bufstat s j
     /\ zget (rxbuf s') j = zget (rxbuf s) j /\ zget (rxsa s') j = zget (rxsa s) j;
}.

Lemma delivered_cover status i t lens s s' :
  delivered status i t lens s s' -> lens_cover lens s ->
  (exists n, zget lens i = Some n /\ frame_length n) -> lens_cover lens s'.
Proof.
  intros [] Hc (n & Hn & Hfl) j st m Hst Hm Hf. destruct (decide (j = i)) as [->|Hne].
  - by simplify_eq.
  - destruct (dl_others0 j Hne) as (Ho & _ & _). rewrite Ho in Hst. by eapply Hc.
Qed.

(** The length field of a stored frame is that of the packet. *)
Lemma payload_rx_length t b n :
  is_rxbuf t -> is_rxbuf b -> frame_length n ->
  zslice b 0 (n - ETH_HEADERSIZE) = zslice t ETH_HEADERSIZE (n - ETH_HEADERSIZE) ->
  rx_length b = Some (packet_length t).
Proof.
  intros [Ht Htb] [Hb _] Hn Heq. unfold is_buf, frame_length in *. ec_unfold.
  destruct (zslice b 0 (n - 14)) as [r|] eqn:Hr.
  2: { rewrite zslice_some in Hr by lia. done. }
  assert (Hg : forall i, 0 <= i < 2 -> zget b i = Some (byte_at t (14 + i))).
  { intros i Hi. rewrite <- zget_byte_at by lia. change (zget b i) with (zget b (0 + i)).
    rewrite <- (zget_zslice _ _ _ _ i Hr), (zget_zslice _ _ _ _ i (eq_sym Heq)) by lia. done. }
  unfold rx_length. rewrite (Hg 0), (Hg 1) by lia. cbn. f_equal. unfold packet_length. ec_unfold.
  rewrite length_field by (by apply byte_at_range). done.
Qed.

Section Store.
Context {E : Type} `{OS E} `{LoopFuel} (F : fault -> Prop).
Implicit Types w : world E.

Lemma wp_store_frame n i status s len Q w :
  stack_of n (port w) = Some s -> stack_wf s -> buf_index i ->
  zget (txbuflength (port w)) i = Some len -> frame_length len ->
  packet_length (tempbuf s) <= EC_BUFSIZE - 2 ->
  (forall s' b, delivered status i (tempbuf s) (txbuflength (port w)) s s' -> stack_wf s' ->
     zget (rxbuf s') i = Some b -> is_framebuf b ->
     Q b (World (set_stack n s' (port w)) (kernel w))) ->
  wp F (store_frame n i status) Q w.
Proof.
  intros Hs Hwf Hi Hlen Hfl Hpk HQ. pose proof Hwf as [[Ht Htb] Hrx Hrxs Hst Hsa].
  unfold is_buf in Ht. unfold frame_length in Hfl.
  unfold store_frame. apply wp_bind. eapply wp_get_stack; [exact Hs|].
  apply wp_bind, wp_pget. apply wp_bind. eapply wp_oob; [exact Hlen|].
  destruct (zslice (tempbuf s) ETH_HEADERSIZE (len - ETH_HEADERSIZE)) as [pl|] eqn:Hpl.
  2: { rewrite zslice_some in Hpl by (ec_unfold; lia). done. }
  apply wp_bind. eapply wp_oob; [reflexivity|].
  destruct (buf_lookup _ _ i Hrx Hrxs Hi) as (b & Hb & Hbb).
  apply wp_bind. eapply wp_oob; [exact Hb|].
  pose proof (zslice_length _ _ _ _ Hpl) as Hpll.
  destruct (zblit b 0 pl) as [b'|] eqn:Hb'.
  2: { destruct Hbb as [[Hbl _] _]. unfold is_buf in Hbl.
       rewrite zblit_some in Hb' by (ec_unfold; lia). done. }
  apply wp_bind. eapply wp_oob; [reflexivity|]. unfold buf_index in Hi.
  pose proof (zset_some (rxbuf s) i b' ltac:(lia)) as Hset1.
  apply wp_bind. eapply wp_oob; [exact Hset1|].
  pose proof (zset_some (rxbufstat s) i status ltac:(lia)) as Hset2.
  apply wp_bind. eapply wp_oob; [exact Hset2|].
  apply wp_bind. eapply wp_oob; [apply zget_byte_at; ec_unfold; lia|].
  apply wp_bind. eapply wp_oob; [apply zget_byte_at; ec_unfold; lia|].
  pose proof (zset_some (rxsa s) i (packet_sa (tempbuf s)) ltac:(lia)) as Hset3.
  apply wp_bind. eapply wp_oob; [exact Hset3|].
  apply wp_bind, wp_put_stack, wp_ret.
  assert (Hbb' : is_framebuf b').
  { assert (Hrb : is_rxbuf b').
    { eapply is_rxbuf_zblit; [apply Hbb | exact (bytes_ok_zslice _ _ _ _ Htb Hpl) | exact Hb']. }
    split; [exact Hrb|]. exists (packet_length (tempbuf s)).
    split; [|split; [apply Z.land_nonneg; right; lia | done]].
    apply (payload_rx_length _ _ len); [done.. |].
    rewrite Hpl, <- Hpll. by apply zslice_zblit_same with (l := b). }
  apply HQ; [| |by apply (zget_zset_eq _ _ _ _ Hset1) | done].
  - split; [by apply (zget_zset_eq _ _ _ _ Hset2) | by apply (zget_zset_eq _ _ _ _ Hset3) | |
            done | done |].
    + intros m Hm. simplify_eq. exists b'. split; [by apply (zget_zset_eq _ _ _ _ Hset1)|].
      rewrite Hpl, <- Hpll. by apply zslice_zblit_same with (l := b).
    + intros j Hj. unfold bufstat. destruct s; cbn in *.
      rewrite (zget_zset_ne _ _ j _ _ Hset2), (zget_zset_ne _ _ j _ _ Hset1),
        (zget_zset_ne _ _ j _ _ Hset3) by done. done.
  - split; cbn; [done | by rewrite <- (zset_length _ _ _ _ Hset1) in Hrx |
      by apply (Forall_zset _ _ _ _ _ Hrxs Hbb' Hset1) |
      by rewrite <- (zset_length _ _ _ _ Hset2) in Hst |
      by rewrite <- (zset_length _ _ _ _ Hset3) in Hsa].
Qed.

(** The work counter of a frame whose length stays in the buffer. *)
Lemma wkc_at_some b l : is_rxbuf b -> 0 <= l <= EC_BUFSIZE - 2 ->
  exists wkc, wkc_at b l = Some wkc /\ 0 <= wkc < 65536.
Proof.
  intros [Hb Hbb] Hl. unfold is_buf in Hb. unfold wkc_at. ec_unfold.
  rewrite !zget_byte_at by lia. cbn. eexists. split; [done|].
  pose proof (byte_at_range b l Hbb). pose proof (byte_at_range b (l + 1) Hbb).
  rewrite Z.shiftl_mul_pow2 by lia. lia.
Qed.
End Store.

(** ** One call of [ecx_inframe] *)

(** The parts of the port a reception on stack [n] leaves alone. *)
Record port_frame (n : Z) (p p' : ecx_portt) : Prop := PortFrame {
  pf_txbuf : txbuf p' = txbuf p;
  pf_txbuflength : txbuflength p' = txbuflength p;
  pf_txbuf2 : txbuf2 p' = txbuf2 p;
  pf_txbuflength2 : txbuflength2 p' = txbuflength2 p;
  pf_lastidx : lastidx p' = lastidx p;
  pf_redstate : redstate p' = redstate p;
  pf_other : forall m, (m =? 0) <> (n =? 0) -> stack_of m p' = stack_of m p;
}.

(** The receive buffers are as before. *)
Definition quiet (s s' : ec_stackT) : Prop :=
  rxbuf s' = rxbuf s /\ rxbufstat s' = rxbufstat s /\ rxsa s' = rxsa s /\ sock s' = sock s.

(** What a packet does to a stack whose buffer [idx] has no frame yet, and the result of
    the call. *)
Inductive recv_outcome (idx : Z) (lens : list Z) (s s' : ec_stackT)
    : option (list Z) -> Z -> Prop :=
| ro_none : quiet s s' -> recv_outcome idx lens s s' None EC_NOFRAME
| ro_empty : quiet s s' -> recv_outcome idx lens s s' (Some []) EC_NOFRAME
| ro_foreign bs :
    packet_etype bs <> ETH_P_ECAT -> quiet s s' ->
    recv_outcome idx lens s s' (Some bs) EC_OTHERFRAME
| ro_mine bs b wkc :
    packet_etype bs = ETH_P_ECAT -> packet_index bs = idx ->
    delivered EC_BUF_COMPLETE idx (load bs (tempbuf s)) lens s s' ->
    zget (rxbuf s') idx = Some b -> wkc_at b (packet_length bs) = Some wkc ->
    0 <= wkc < 65536 ->
    recv_outcome idx lens s s' (Some bs) wkc
| ro_other bs j :
    packet_etype bs = ETH_P_ECAT -> packet_index bs = j -> j <> idx -> buf_index j ->
    bufstat s j = Some EC_BUF_TX ->
    delivered EC_BUF_RCVD j (load bs (tempbuf s)) lens s s' ->
    recv_outcome idx lens s s' (Some bs) EC_OTHERFRAME
| ro_dropped bs :
    packet_etype bs = ETH_P_ECAT -> packet_index bs <> idx ->
    bufstat s (packet_index bs) <> Some EC_BUF_TX -> quiet s s' ->
    recv_outcome idx lens s s' (Some bs) EC_OTHERFRAME.

(** The answer to a frame that is already in its buffer. *)
Definition ready_outcome (idx : Z) (s s' : ec_stackT) (rc : Z) : Prop :=
  s' = stat_put idx EC_BUF_COMPLETE s /\ 0 <= rc < 65536
  /\ exists b l, zget (rxbuf s) idx = Some b /\ rx_length b = Some l /\ wkc_at b l = Some rc.

Lemma packet_load bs t :
  60 <= zlen bs ->
  packet_etype (load bs t) = packet_etype bs /\ packet_length (load bs t) = packet_length bs
  /\ packet_index (load bs t) = packet_index bs.
Proof.
  intros Hl. unfold packet_etype, packet_length, packet_index. ec_unfold.
  rewrite !byte_at_load by lia. done.
Qed.

Lemma quiet_wf s s' :
  quiet s s' -> stack_wf s -> is_rxbuf (tempbuf s') -> stack_wf s'.
Proof. intros (E1&E2&E3&E4) [] Ht. split; rewrite ?E1, ?E2, ?E3; done. Qed.

Lemma quiet_cover lens s s' : quiet s s' -> lens_cover lens s -> lens_cover lens s'.
Proof. unfold lens_cover, bufstat. intros (_&->&_) Hc. exact Hc. Qed.

Lemma quiet_bufstat s s' i : quiet s s' -> bufstat s' i = bufstat s i.
Proof. unfold bufstat. by intros (_&->&_). Qed.

Lemma port_frame_tib n p v : port_frame n p (p <| tempinbufs := v |>).
Proof. destruct p; split; try done. Qed.

Lemma port_frame_set n s p : port_frame n p (set_stack n s p).
Proof.
  unfold set_stack. split; try (by destruct (n =? 0), p).
  intros m Hm. unfold stack_of. destruct p, (n =? 0), (m =? 0); cbn; congruence.
Qed.

Lemma port_frame_trans n p1 p2 p3 : port_frame n p1 p2 -> port_frame n p2 p3 -> port_frame n p1 p3.
Proof.
  intros [] []. split; try congruence. intros m Hm.
  transitivity (stack_of m p2); auto.
Qed.

Lemma stack_of_tib n p v : stack_of n (p <| tempinbufs := v |>) = stack_of n p.
Proof. by destruct p. Qed.

Lemma port_wf_tib p v : port_wf p -> port_wf (p <| tempinbufs := v |>).
Proof. destruct p. intros []; split; done. Qed.

Section Inframe.
Context {E : Type} `{OS E} `{LoopFuel} (F : fault -> Prop).
Implicit Types w : world E.

Lemma wp_inframe_rcvd idx n s Q w :
  port_wf (port w) -> stack_of n (port w) = Some s -> buf_index idx ->
  bufstat s idx = Some EC_BUF_RCVD ->
  (forall rc, ready_outcome idx s (stat_put idx EC_BUF_COMPLETE s) rc ->
     Q rc (World (set_stack n (stat_put idx EC_BUF_COMPLETE s) (port w)) (kernel w))) ->
  wp F (inframe_rcvd idx n) Q w.
Proof.
  intros Hp Hs Hi Hst HQ. pose proof (stack_of_wf _ _ _ Hp Hs) as Hwf.
  destruct (buf_lookup _ _ idx (wf_rxbuf _ Hwf) (wf_rxbufs _ Hwf) Hi)
    as (b & Hb & Hbb & l & Hl & Hlr).
  destruct (wkc_at_some b l Hbb Hlr) as (wkc & Hwkc & Hwr).
  pose proof Hl as Hl'. unfold rx_length in Hl'.
  unfold inframe_rcvd. apply wp_bind. eapply wp_get_stack; [exact Hs|].
  apply wp_bind. eapply wp_oob; [exact Hb|].
  destruct (zget b 0) as [b0|] eqn:Hb0; [|done]. apply wp_bind. eapply wp_oob; [reflexivity|].
  destruct (zget b 1) as [b1|] eqn:Hb1; [|done]. apply wp_bind. eapply wp_oob; [reflexivity|].
  cbn in Hl'. injection Hl' as Hl'. rewrite Hl'.
  apply wp_bind. eapply wp_oob; [exact Hwkc|].
  apply wp_bind. eapply wp_set_rxbufstat; [done | by apply stat_put_zset |].
  rewrite stat_put_eq. apply wp_ret, HQ. split_and!; [done | lia | lia |]. by exists b, l.
Qed.

(** The receive path, after a packet [bs] has been loaded. *)
Lemma wp_inframe_sort idx n s s0 bs Q w :
  port_wf (port w) -> stack_of n (port w) = Some s -> buf_index idx ->
  (exists len, zget (txbuflength (port w)) idx = Some len /\ frame_length len) ->
  bufstat s idx <> Some EC_BUF_RCVD ->
  packet_ok EC_BUFSIZE bs -> stack_wf s0 -> quiet s0 s -> tempbuf s = load bs (tempbuf s0) ->
  (forall rc s', stack_wf s' -> lens_cover (txbuflength (port w)) s' ->
     recv_outcome idx (txbuflength (port w)) s0 s' (Some bs) rc ->
     Q rc (World (set_stack n s' (port w)) (kernel w))) ->
  wp F (inframe_sort idx n) Q w.
Proof.
  intros Hp Hs Hi (len & Hlen & Hfl) Hnr [[Hbl _] Hbb Hpl] Hwf0 Hq Ht HQ.
  pose proof (stack_of_wf _ _ _ Hp Hs) as Hwf. pose proof (stack_of_cover _ _ _ Hp Hs) as Hc.
  destruct (wf_tempbuf _ Hwf) as [Htl Htb]. unfold is_buf in Htl.
  destruct (packet_load bs (tempbuf s0) Hbl) as (Het & Hln & Hix).
  rewrite <- Ht in Het, Hln, Hix.
  set (s1 := s <| rxcnt ::= (fun c => u64 (c + 1)) |>).
  assert (Hq1 : quiet s0 s1) by (destruct s; exact Hq).
  assert (Ht1 : tempbuf s1 = tempbuf s) by (by destruct s).
  assert (Hwf1 : stack_wf s1) by (destruct s, Hwf; split; done).
  unfold inframe_sort. apply wp_bind. eapply wp_get_stack; [exact Hs|].
  apply wp_bind. eapply wp_oob; [apply zget_byte_at; ec_unfold; lia|].
  apply wp_bind. eapply wp_oob; [apply zget_byte_at; ec_unfold; lia|].
  fold (packet_etype (tempbuf s)). rewrite Het.
  destruct (Z.eqb_spec (packet_etype bs) ETH_P_ECAT) as [Hec|Hec]; cbn [negb].
  2: { apply wp_ret. replace w with (World (set_stack n s (port w)) (kernel w)).
       { apply HQ; [done..|]. by apply ro_foreign. }
       destruct w as [p e]; cbn in *. f_equal. unfold set_stack, stack_of in *.
       destruct p, (n =? 0); cbn in *; congruence. }
  apply wp_bind, wp_put_stack. fold s1.
  apply wp_bind. eapply wp_oob; [apply zget_byte_at; ec_unfold; lia|].
  apply wp_bind. eapply wp_oob; [apply zget_byte_at; ec_unfold; lia|].
  fold (packet_length (tempbuf s)). rewrite Hln.
  apply wp_bind. eapply wp_oob; [apply zget_byte_at; ec_unfold; lia|].
  fold (packet_index (tempbuf s)). rewrite Hix.
  assert (Hlens : txbuflength (set_stack n s1 (port w)) = txbuflength (port w))
    by (apply (port_frame_set n s1 (port w))).
  assert (Hss : forall s', set_stack n s' (set_stack n s1 (port w)) = set_stack n s' (port w)).
  { intros s'. unfold set_stack. by destruct (n =? 0), (port w). }
  assert (Hplr : 0 <= packet_length bs <= EC_BUFSIZE - 2).
  { split; [apply Z.land_nonneg; right; lia | by apply Hpl]. }
  (* a frame [i] is stored *)
  assert (Hstore : forall i status (K : list Z -> M (world E) Z),
    buf_index i -> (exists m, zget (txbuflength (port w)) i = Some m /\ frame_length m) ->
    (forall s' b, delivered status i (load bs (tempbuf s0)) (txbuflength (port w)) s0 s' ->
       stack_wf s' -> lens_cover (txbuflength (port w)) s' ->
       zget (rxbuf s') i = Some b -> is_framebuf b ->
       wp F (K b) Q (World (set_stack n s' (port w)) (kernel w))) ->
    wp F (bind (store_frame n i status) K) Q (World (set_stack n s1 (port w)) (kernel w))).
  { intros i status K Hib (m & Hm & Hmf) HK. apply wp_bind.
    eapply (wp_store_frame F n i status s1 m); cbn [port kernel].
    - apply stack_of_set_same.
    - done.
    - done.
    - by rewrite Hlens.
    - done.
    - rewrite Ht1, Hln. lia.
    - intros s' b Hd Hwf' Hb Hrb. rewrite Hss. rewrite Hlens, Ht1, Ht in Hd.
      assert (Hd0 : delivered status i (load bs (tempbuf s0)) (txbuflength (port w)) s0 s').
      { destruct Hq1 as (E1&E2&E3&E4), Hd. unfold bufstat in *.
        split; unfold bufstat; [done..| by rewrite <- E4 |].
        rewrite <- E1, <- E2, <- E3. done. }
      apply HK; [done | done | | done | done].
      eapply delivered_cover; [exact Hd0 | | by exists m].
      destruct Hq as (_&E2&_). unfold lens_cover, bufstat in *. rewrite <- E2. exact Hc. }
  destruct (Z.eqb_spec (packet_index bs) idx) as [Hidx|Hidx].
  - apply Hstore; [done | by eauto |]. intros s' b Hd Hwf' Hc' Hb [Hrb _].
    destruct (wkc_at_some b _ Hrb Hplr) as (wkc & Hwkc & Hwr).
    eapply wp_oob; [exact Hwkc|]. apply HQ; [done..|]. by eapply ro_mine.
  - pose proof (byte_at_range bs (ETH_HEADERSIZE + COM_index) Hbb) as Hjr.
    fold (packet_index bs) in Hjr. set (j := packet_index bs) in *.
    assert (Hst0 : forall i, bufstat s i = bufstat s0 i) by (intros; by apply quiet_bufstat).
    assert (Hdrop : bufstat s j <> Some EC_BUF_TX ->
      Q EC_OTHERFRAME (World (set_stack n s1 (port w)) (kernel w))).
    { intros Hne. apply HQ; [done | |].
      - destruct s; exact Hc.
      - rewrite Hst0 in Hne. by apply ro_dropped. }
    destruct (Z.ltb_spec j EC_MAXBUF) as [Hj|Hj].
    + destruct (zget_some (rxbufstat s) j) as [st Hst]; [rewrite (wf_rxbufstat _ Hwf); lia|].
      apply wp_bind. eapply wp_oob; [exact Hst|]. cbn [andb].
      destruct (Z.eqb_spec st EC_BUF_TX) as [->|Hne].
      * apply Hstore; [split; [lia|done] | |].
        { destruct (zget_some (txbuflength (port w)) j) as [m Hm].
          { rewrite (wf_txbuflength _ Hp). lia. }
          exists m. split; [done|]. eapply (Hc j EC_BUF_TX); [exact Hst | done |].
          unfold in_flight. lia. }
        intros s' b Hd Hwf' Hc' Hb Hrb. apply wp_ret, HQ; [done..|].
        eapply (ro_other _ _ _ _ _ j); [done | done | done | split; [lia|done] | by rewrite <- Hst0 | done].
      * apply wp_ret. apply Hdrop. unfold bufstat. rewrite Hst. congruence.
    + apply wp_bind, wp_ret. cbn [andb]. apply wp_ret. apply Hdrop.
      unfold bufstat. rewrite zget_none; [done|]. rewrite (wf_rxbufstat _ Hwf). lia.
Qed.

(** The receive path from the socket. *)
Lemma wp_inframe_recv `{!NetLaws E} idx n s Q w :
  port_wf (port w) -> stack_of n (port w) = Some s -> buf_index idx ->
  (exists len, zget (txbuflength (port w)) idx = Some len /\ frame_length len) ->
  bufstat s idx <> Some EC_BUF_RCVD ->
  (forall rc p' s', port_wf p' -> port_frame n (port w) p' -> stack_of n p' = Some s' ->
     recv_outcome idx (txbuflength (port w)) s s' (os_recv (sock s) EC_BUFSIZE (kernel w)).1 rc ->
     Q rc (World p' (os_recv (sock s) EC_BUFSIZE (kernel w)).2)) ->
  wp F (let* got := ecx_recvpkt n in
        if negb got then ret EC_NOFRAME else inframe_sort idx n) Q w.
Proof.
  intros Hp Hs Hi Hlen Hnr HQ. destruct w as [p e]. cbn [port kernel] in *.
  pose proof (stack_of_wf _ _ _ Hp Hs) as Hwf. pose proof (stack_of_cover _ _ _ Hp Hs) as Hc.
  pose proof (wf_tempbuf _ Hwf) as [Htl Htb]. unfold is_buf in Htl.
  unfold ecx_recvpkt. do 2 apply wp_bind. eapply wp_get_stack; [exact Hs|].
  apply wp_bind, wp_kern, wp_syscall. cbn [port kernel].
  destruct (os_recv (sock s) EC_BUFSIZE e) as [got e'] eqn:Hrecv. cbn [fst snd] in *.
  destruct got as [bs|].
  2: { apply wp_bind, wp_pmod. cbn [port kernel]. apply wp_ret. cbn [negb]. apply wp_ret.
       eapply HQ; [by apply port_wf_tib | apply port_frame_tib | by rewrite stack_of_tib |].
       by apply ro_none. }
  assert (Hpk : bs = [] \/ packet_ok EC_BUFSIZE bs).
  { apply (recv_packet (sock s) _ e). by rewrite Hrecv. }
  assert (Hbl : zlen bs <= EC_BUFSIZE).
  { destruct Hpk as [->|[[_ ?] _ _]]; [unfold zlen; ec_unfold; cbn; lia | done]. }
  rewrite (take_ge bs) by (unfold zlen in Hbl; lia).
  apply wp_bind. eapply wp_oob; [apply zblit_load; lia|].
  apply wp_bind, wp_put_stack. cbn [port kernel]. apply wp_bind, wp_pmod. cbn [port kernel].
  apply wp_ret. set (s1 := s <| tempbuf := load bs (tempbuf s) |>).
  assert (Hbytes : bytes_ok bs) by (destruct Hpk as [->|[]]; [constructor | done]).
  assert (Hrb : is_rxbuf (load bs (tempbuf s))).
  { eapply is_rxbuf_zblit; [split; [exact Htl | exact Htb] | exact Hbytes | apply zblit_load; lia]. }
  assert (Hq : quiet s s1) by (by destruct s).
  assert (Hwf1 : stack_wf s1) by (eapply quiet_wf; [exact Hq | done | by destruct s]).
  set (p1 := (set_stack n s1 p) <| tempinbufs := zlen bs |>).
  assert (Hp1 : port_wf p1).
  { apply port_wf_tib, port_wf_set_stack; [done | done |]. by eapply quiet_cover. }
  assert (Hf1 : port_frame n p p1).
  { eapply port_frame_trans; [apply (port_frame_set n s1) | apply port_frame_tib]. }
  assert (Hs1 : stack_of n p1 = Some s1).
  { unfold p1. rewrite stack_of_tib. apply stack_of_set_same. }
  destruct Hpk as [->|Hpk].
  { cbn [negb]. apply wp_ret. eapply HQ; [done | done | exact Hs1 |]. by apply ro_empty. }
  replace (0 <? zlen bs) with true by (destruct Hpk as [[? _] _ _]; symmetry; apply Z.ltb_lt; lia).
  cbn [negb]. eapply (wp_inframe_sort idx n s1 s bs); cbn [port kernel];
    [done | done | done | | | done | done | done | by destruct s |].
  - by rewrite (pf_txbuflength _ _ _ Hf1).
  - rewrite (quiet_bufstat _ _ _ Hq). done.
  - intros rc s' Hwf' Hc' Ho. rewrite (pf_txbuflength _ _ _ Hf1) in Hc', Ho.
    apply (HQ rc _ s'); [ | | apply stack_of_set_same | exact Ho].
    + apply port_wf_set_stack; [done.. |]. by rewrite (pf_txbuflength _ _ _ Hf1).
    + eapply port_frame_trans; [exact Hf1 | apply port_frame_set].
Qed.

Lemma wp_inframe `{!NetLaws E} idx n s Q w :
  port_wf (port w) -> stack_of n (port w) = Some s -> buf_index idx ->
  (exists len, zget (txbuflength (port w)) idx = Some len /\ frame_length len) ->
  (bufstat s idx = Some EC_BUF_RCVD -> forall rc,
     ready_outcome idx s (stat_put idx EC_BUF_COMPLETE s) rc ->
     Q rc (World (set_stack n (stat_put idx EC_BUF_COMPLETE s) (port w)) (kernel w))) ->
  (bufstat s idx <> Some EC_BUF_RCVD -> forall rc p' s',
     port_wf p' -> port_frame n (port w) p' -> stack_of n p' = Some s' ->
     recv_outcome idx (txbuflength (port w)) s s' (os_recv (sock s) EC_BUFSIZE (kernel w)).1 rc ->
     Q rc (World p' (os_recv (sock s) EC_BUFSIZE (kernel w)).2)) ->
  wp F (ecx_inframe idx n) Q w.
Proof.
  intros Hp Hs Hi Hlen HQ1 HQ2. pose proof (stack_of_wf _ _ _ Hp Hs) as Hwf.
  destruct (zget_some (rxbufstat s) idx) as [st Hst]; [by rewrite (wf_rxbufstat _ Hwf)|].
  assert (Hlt : (idx <? EC_MAXBUF) = true) by (unfold buf_index in Hi; lia).
  unfold ecx_inframe. apply wp_bind. eapply wp_get_stack; [exact Hs|]. rewrite Hlt.
  apply wp_bind. eapply wp_oob; [exact Hst|]. cbn [andb].
  destruct (Z.eqb_spec st EC_BUF_RCVD) as [->|Hne].
  - eapply wp_inframe_rcvd; [done | done | done | exact Hst |]. by apply HQ1.
  - apply wp_bind. eapply wp_get_stack; [exact Hs|].
    apply wp_bind. eapply wp_oob; [exact Hst|].
    destruct (Z.eqb_spec st EC_BUF_RCVD) as [->|_]; [done|].
    assert (Hnr : bufstat s idx <> Some EC_BUF_RCVD) by (unfold bufstat; congruence).
    eapply wp_inframe_recv; [done..|]. by apply HQ2.
Qed.
End Inframe.

(** * Waiting for frames

    The receive loops of Nicdrv.v end, whatever arrives, because their timers expire on
    a clock that advances; what they leave of the port is well formed, and the buffers of
    the other callers keep their frames. *)

(** ** How a port evolves while frame [idx] is awaited *)

(** The buffer of another caller keeps its status and content, or it was waiting for a
    frame that has come. *)
Record rx_evolves (idx : Z) (s s' : ec_stackT) : Prop := RxEvolves {
  ev_sock : sock s' = sock s;
  ev_others : forall i, i <> idx ->
    (bufstat s' i = bufstat s i /\ zget (rxbuf s') i = zget (rxbuf s) i)
    \/ (bufstat s i = Some EC_BUF_TX /\ bufstat s' i = Some EC_BUF_RCVD);
}.

Lemma rx_evolves_refl idx s : rx_evolves idx s s.
Proof. split; [done|]. intros i _. by left. Qed.

Lemma rx_evolves_trans idx s1 s2 s3 :
  rx_evolves idx s1 s2 -> rx_evolves idx s2 s3 -> rx_evolves idx s1 s3.
Proof.
  intros [E1 H1] [E2 H2]. split; [congruence|]. intros i Hi.
  destruct (H1 i Hi) as [[A1 B1]|[A1 B1]], (H2 i Hi) as [[A2 B2]|[A2 B2]].
  - left. split; congruence.
  - right. split; congruence.
  - right. split; congruence.
  - rewrite B1 in A2. done.
Qed.

Lemma rx_evolves_outcome idx lens s s' pk rc :
  recv_outcome idx lens s s' pk rc -> rx_evolves idx s s'.
Proof.
  assert (Hq : quiet s s' -> rx_evolves idx s s').
  { intros (E1&E2&_&E4). split; [done|]. intros i _. left. unfold bufstat. by rewrite E1, E2. }
  intros [ | | | bs b wkc ? ? Hd | bs j ? ? Hj ? Htx Hd | ]; auto.
  - split; [apply Hd|]. intros i Hi. left.
    destruct (dl_others _ _ _ _ _ _ Hd i Hi) as (?&?&_). done.
  - split; [apply Hd|]. intros i Hi. destruct (decide (i = j)) as [->|Hij].
    + right. split; [done | apply Hd].
    + left. destruct (dl_others _ _ _ _ _ _ Hd i Hij) as (?&?&_). done.
Qed.

Lemma rx_evolves_stat idx v s :
  stack_wf s -> buf_index idx -> rx_evolves idx s (stat_put idx v s).
Proof.
  intros Hs Hi. split; [by destruct s|]. intros i Hne. left.
  rewrite bufstat_put by done. rewrite decide_False by done. by destruct s.
Qed.

Record port_evolves (idx : Z) (p p' : ecx_portt) : Prop := PortEvolves {
  pe_lens : txbuflength p' = txbuflength p;
  pe_len2 : txbuflength2 p' = txbuflength2 p;
  pe_lastidx : lastidx p' = lastidx p;
  pe_redstate : redstate p' = redstate p;
  pe_txbuf : forall i, i <> idx -> zget (txbuf p') i = zget (txbuf p) i;
  pe_stack : forall n s, stack_of n p = Some s ->
    exists s', stack_of n p' = Some s' /\ rx_evolves idx s s';
}.

Lemma port_evolves_refl idx p : port_evolves idx p p.
Proof. split; try done. intros n s Hs. exists s. split; [done | apply rx_evolves_refl]. Qed.

Lemma port_evolves_trans idx p1 p2 p3 :
  port_evolves idx p1 p2 -> port_evolves idx p2 p3 -> port_evolves idx p1 p3.
Proof.
  intros [] []. split; try congruence.
  - intros i Hi. rewrite pe_txbuf1, pe_txbuf0 by done. done.
  - intros n s Hs. destruct (pe_stack0 n s Hs) as (s2 & Hs2 & He2).
    destruct (pe_stack1 n s2 Hs2) as (s3 & Hs3 & He3). exists s3.
    split; [done | by eapply rx_evolves_trans].
Qed.

(** A change of one stack. *)
Lemma port_evolves_frame idx n p p' s s' :
  port_frame n p p' -> stack_of n p = Some s -> stack_of n p' = Some s' ->
  rx_evolves idx s s' -> port_evolves idx p p'.
Proof.
  intros Hf Hs Hs' He. pose proof (pf_other n p p' Hf) as Hother. destruct Hf. split; try done.
  - intros i _. congruence.
  - intros m t Ht. destruct (decide ((m =? 0) = (n =? 0))) as [Hmn|Hmn].
    + unfold stack_of in *. rewrite Hmn in *. exists s'. split; [done|]. congruence.
    + exists t. rewrite Hother by done. split; [done | apply rx_evolves_refl].
Qed.

Lemma port_evolves_set idx n p s s' :
  stack_of n p = Some s -> rx_evolves idx s s' -> port_evolves idx p (set_stack n s' p).
Proof.
  intros Hs He. eapply port_evolves_frame; [apply port_frame_set | exact Hs | | exact He].
  apply stack_of_set_same.
Qed.

(** ** Results *)

Definition rc_range (rc : Z) : Prop := rc = EC_OTHERFRAME \/ EC_NOFRAME <= rc < 65536.

Lemma outcome_range idx lens s s' pk rc : recv_outcome idx lens s s' pk rc -> rc_range rc.
Proof. unfold rc_range. destruct 1; ec_unfold; lia. Qed.

(** The frame of index [idx] has been built. *)
Definition built (idx : Z) (p : ecx_portt) : Prop :=
  exists len, zget (txbuflength p) idx = Some len /\ frame_length len.

Lemma built_lens idx p p' : txbuflength p' = txbuflength p -> built idx p -> built idx p'.
Proof. unfold built. by intros ->. Qed.

Section Wait.
Context {E : Type} `{OS E} `{LoopFuel} `{!NetLaws E} `{!ClockLaws E} (F : fault -> Prop).
Implicit Types w : world E.

(** The state while frame [idx] is awaited, from port [p0] and time [t0] on. *)
Definition waiting (idx : Z) (p0 : ecx_portt) (t0 : Z) (w : world E) : Prop :=
  port_wf (port w) /\ port_evolves idx p0 (port w) /\ t0 <= clock_now (kernel w).

Lemma waiting_built idx p0 t0 w : waiting idx p0 t0 w -> built idx p0 -> built idx (port w).
Proof. intros (_ & He & _). apply built_lens, He. Qed.

Lemma waiting_stack idx p0 t0 w n s0 :
  waiting idx p0 t0 w -> stack_of n p0 = Some s0 -> exists s, stack_of n (port w) = Some s.
Proof. intros (_ & He & _) Hs. destruct (pe_stack _ _ _ He _ _ Hs) as (s & Hs' & _). by exists s. Qed.

Lemma wp_inframe_waiting idx n p0 t0 s0 Q w :
  waiting idx p0 t0 w -> stack_of n p0 = Some s0 -> buf_index idx -> built idx p0 ->
  (forall rc w', rc_range rc -> waiting idx p0 t0 w' ->
     clock_now (kernel w) <= clock_now (kernel w') -> Q rc w') ->
  wp F (ecx_inframe idx n) Q w.
Proof.
  intros Hw Hs0 Hi Hb HQ. destruct (waiting_stack _ _ _ _ _ _ Hw Hs0) as [s Hs].
  pose proof (waiting_built _ _ _ _ Hw Hb) as Hb'. destruct Hw as (Hp & He & Ht).
  pose proof (stack_of_wf _ _ _ Hp Hs) as Hwf. pose proof (stack_of_cover _ _ _ Hp Hs) as Hc.
  eapply wp_inframe; [exact _ | exact Hp | exact Hs | done | done | |].
  - intros _ rc (_ & Hrc & _). apply HQ; [unfold rc_range; ec_unfold; lia | | cbn; lia].
    split_and!; cbn [port kernel]; [ | | done].
    + apply port_wf_set_stack; [done | by apply stat_put_wf |].
      by apply stat_put_cover.
    + eapply port_evolves_trans; [exact He|]. eapply port_evolves_set; [exact Hs|].
      by apply rx_evolves_stat.
  - intros _ rc p' s' Hp' Hf Hs' Ho.
    pose proof (clock_recv (sock s) EC_BUFSIZE (kernel w)) as Hck.
    apply HQ; [by eapply outcome_range | | done].
    split_and!; cbn [port kernel]; [done | | lia].
    eapply port_evolves_trans; [exact He|]. eapply port_evolves_frame; [done..|].
    by eapply rx_evolves_outcome.
Qed.

(** Testing a timer. *)
Lemma wp_expired t Q w :
  ts_normal t ->
  (forall e', clock_now (kernel w) < clock_now e' ->
     Q (ns t <=? clock_now (kernel w)) (World (port w) e')) ->
  wp F (kern (osal_timer_is_expired t)) Q w.
Proof.
  intros Ht HQ. apply wp_kern.
  pose proof (timer_expired_spec t (kernel w) Ht) as Hspec.
  revert Hspec. unfold wp, no_fault. destruct (osal_timer_is_expired t (kernel w)) as [[b e']|f].
  - intros [-> Hlt]. by apply HQ.
  - done.
Qed.

Lemma wp_timer_start usec Q w :
  (forall t e', ns t = clock_now (kernel w) + u32 usec * 1000 -> ts_normal t ->
     clock_now (kernel w) < clock_now e' -> Q t (World (port w) e')) ->
  wp F (kern (osal_timer_start usec)) Q w.
Proof.
  intros HQ. apply wp_kern.
  pose proof (timer_start_spec usec (kernel w)) as Hspec.
  revert Hspec. unfold wp, no_fault. destruct (osal_timer_start usec (kernel w)) as [[t e']|f].
  - intros (Hns & Hn & Hlt). by apply HQ.
  - done.
Qed.

Lemma waiting_kernel idx p0 t0 w e :
  waiting idx p0 t0 w -> clock_now (kernel w) <= clock_now e ->
  waiting idx p0 t0 (World (port w) e).
Proof. intros (Hp & He & Ht) Hle. split_and!; cbn; [done | done | lia]. Qed.

(** The time left on a timer, in nanoseconds. *)
Definition left (t : ec_timet) (w : world E) : Z := Z.max 0 (ns t - clock_now (kernel w)).

(** A loop that polls and tests a timer each time it goes round ends with enough fuel. *)
Lemma wp_timed_loop {A} (I : A -> world E -> Prop) t (body : A -> M (world E) (bool * A)) Q :
  ts_normal t ->
  (forall a w, I a w -> wp F (body a) (fun (r : bool * A) w' =>
     if r.1 then I r.2 w' /\ clock_now (kernel w) < ns t
                 /\ clock_now (kernel w) < clock_now (kernel w')
     else Q r.2 w') w) ->
  forall fuel a w, I a w -> left t w < Z.of_nat fuel -> wp F (do_while fuel body a) Q w.
Proof.
  intros Ht Hbody fuel a w HI Hf.
  eapply (wp_do_while F I (fun _ w => Z.to_nat (left t w))); [|done|unfold left in *; lia].
  intros a' w' HI'. eapply wp_mono; [by apply Hbody|].
  intros [[] a''] w''; [|done]. cbn. intros (HI'' & Hlt & Hadv). split; [done|].
  unfold left. lia.
Qed.

(** The test that ends the body of such a loop. *)
Lemma wp_again {A} (I : A -> world E -> Prop) t (a : A) w0 (Q : A -> world E -> Prop) w :
  ts_normal t -> clock_now (kernel w0) <= clock_now (kernel w) ->
  (forall e', clock_now (kernel w) < clock_now e' ->
     I a (World (port w) e') /\ Q a (World (port w) e')) ->
  wp F (let* expired := kern (osal_timer_is_expired t) in ret (negb expired, a))
    (fun (r : bool * A) w' =>
       if r.1 then I r.2 w' /\ clock_now (kernel w0) < ns t
                   /\ clock_now (kernel w0) < clock_now (kernel w')
       else Q r.2 w') w.
Proof.
  intros Ht Hle HQ. apply wp_bind, wp_expired; [done|]. intros e' He'. apply wp_ret.
  destruct (HQ e' He') as [HI HQ'].
  destruct (Z.leb_spec (ns t) (clock_now (kernel w))); cbn; [done|].
  split_and!; [done | lia | lia].
Qed.

(** Kernel calls that only take time. *)
Lemma wp_kern_call {A} (f : E -> A * E) Q w :
  (forall e, clock_now e <= clock_now (f e).2) ->
  (forall a e', clock_now (kernel w) <= clock_now e' -> Q a (World (port w) e')) ->
  wp F (kern (syscall f)) Q w.
Proof. intros Hf HQ. apply wp_kern, wp_syscall, HQ. apply Hf. Qed.

Definition red_ready (p : ecx_portt) : Prop :=
  exists s, stack_of 0 p = Some s /\ (redstate p <> ECT_RED_NONE -> exists r, stack_of 1 p = Some r).

Lemma port_wf_red_ready p : port_wf p -> red_ready p.
Proof. intros Hp. exists (stack p). split; [done|]. intros Hr. by apply (wf_red _ Hp). Qed.

Lemma wp_waitinframe_poll idx t p0 t0 Q w :
  waiting idx p0 t0 w -> port_wf p0 -> buf_index idx -> built idx p0 -> ts_normal t ->
  left t w < Z.of_nat loop_fuel ->
  (forall r w', rc_range r.1 -> rc_range r.2 -> waiting idx p0 t0 w' ->
     clock_now (kernel w) <= clock_now (kernel w') -> Q r w') ->
  wp F (waitinframe_poll idx t) Q w.
Proof.
  intros Hw Hp0 Hi Hb Ht Hfuel HQ. destruct (port_wf_red_ready _ Hp0) as (s0 & Hs0 & Hr0).
  pose proof Hw as (Hp & He & _). pose proof (pe_redstate _ _ _ He) as Hred.
  unfold waitinframe_poll. apply wp_bind, wp_pget. apply wp_bind, wp_pget. rewrite Hred.
  set (red := redstate p0) in *. apply wp_bind.
  assert (Hloop : forall fds wkc2, rc_range wkc2 ->
    wp F (do_while loop_fuel (fun '(wkc, wkc2) =>
      let* poll_err := kern (syscall (os_ppoll fds)) in
      let* w :=
        (if 0 <=? poll_err then
           let* wkc := (if wkc <=? EC_NOFRAME then ecx_inframe idx 0 else ret wkc) in
           let* wkc2 :=
             (if negb (red =? ECT_RED_NONE) && (wkc2 <=? EC_NOFRAME)
              then ecx_inframe idx 1 else ret wkc2) in
           ret (wkc, wkc2)
         else ret (wkc, wkc2)) in
      if (w.1 <=? EC_NOFRAME) || (w.2 <=? EC_NOFRAME) then
        let* expired := kern (osal_timer_is_expired t) in
        ret (negb expired, w)
      else ret (false, w)) (EC_NOFRAME, wkc2)) Q w).
  { intros fds wkc2 Hwkc2.
    pose (I := fun (r : Z * Z) w' => rc_range r.1 /\ rc_range r.2 /\ waiting idx p0 t0 w'
      /\ clock_now (kernel w) <= clock_now (kernel w')).
    eapply (wp_timed_loop I t); [done | |
      unfold I, rc_range; cbn; split_and!; [ec_unfold; lia | done | done | lia] | done].
    intros [wkc wk2] w1 (Hr1 & Hr2 & Hw1 & Hc1). cbn [fst snd] in *.
    apply wp_bind, wp_kern_call; [intros; apply clock_ppoll|]. intros pe e1 He1.
    pose proof (waiting_kernel _ _ _ _ _ Hw1 He1) as Hw2.
    apply wp_bind. eapply (wp_mono F _ (fun r w' => I r w'
      /\ clock_now (kernel w1) <= clock_now (kernel w'))).
    - apply wp_if; intros _.
      2: { apply wp_ret. unfold I. cbn in *. split_and!; [done | done | done | lia | lia]. }
      apply wp_bind. eapply (wp_mono F _ (fun r w' => rc_range r /\ waiting idx p0 t0 w'
        /\ clock_now e1 <= clock_now (kernel w'))).
      { apply wp_if; intros _; [|by apply wp_ret].
        eapply wp_inframe_waiting; [exact Hw2 | exact Hs0 | done | done |]. by intros. }
      intros rc1 w3 (Hrc1 & Hw3 & Hc3). apply wp_bind.
      eapply (wp_mono F _ (fun r w' => rc_range r /\ waiting idx p0 t0 w'
        /\ clock_now e1 <= clock_now (kernel w'))).
      { destruct (Z.eqb_spec red ECT_RED_NONE) as [|Hne]; [by apply wp_ret|].
        destruct (Hr0 Hne) as [r0 Hr0']. apply wp_if; intros _; [|by apply wp_ret].
        eapply wp_inframe_waiting; [exact Hw3 | exact Hr0' | done | done |].
        intros rc w' Hrc Hw' Hc'. split_and!; [done | done | lia]. }
      intros rc2 w4 (Hrc2 & Hw4 & Hc4). apply wp_ret. unfold I. cbn in *.
      split_and!; [done | done | done | lia | lia].
    - intros r w5 ((Hq1 & Hq2 & Hw5 & Hc5) & Hc6). apply wp_if; intros _.
      + apply wp_again; [done | done |]. intros e' He'.
        assert (Hw6 : waiting idx p0 t0 (World (port w5) e')) by (apply waiting_kernel; [done | lia]).
        split; [unfold I; cbn; split_and!; done || lia | apply HQ; cbn; done || lia].
      + apply wp_ret. cbn. by apply HQ. }
  destruct (Z.eqb_spec red ECT_RED_NONE) as [Hn|Hn].
  - apply wp_ret. apply Hloop. unfold rc_range. ec_unfold. lia.
  - destruct (Hr0 Hn) as [r0 Hr0']. destruct (waiting_stack _ _ _ _ _ _ Hw Hr0') as [r Hr].
    apply wp_bind. eapply wp_get_stack; [exact Hr|]. apply wp_ret. apply Hloop.
    unfold rc_range. ec_unfold. lia.
Qed.

(** ** Buffer accesses while a frame is awaited *)

Lemma wp_set_stat_waiting n idx v p0 t0 s0 Q w :
  waiting idx p0 t0 w -> stack_of n p0 = Some s0 -> buf_index idx -> built idx p0 ->
  (forall w', waiting idx p0 t0 w' -> kernel w' = kernel w -> Q tt w') ->
  wp F (set_rxbufstat n idx v) Q w.
Proof.
  intros Hw Hs0 Hi Hb HQ. destruct (waiting_stack _ _ _ _ _ _ Hw Hs0) as [s Hs].
  pose proof (waiting_built _ _ _ _ Hw Hb) as Hb'. destruct Hw as (Hp & He & Ht).
  pose proof (stack_of_wf _ _ _ Hp Hs) as Hwf. pose proof (stack_of_cover _ _ _ Hp Hs) as Hc.
  eapply wp_set_rxbufstat; [exact Hs | by apply stat_put_zset |]. rewrite stat_put_eq.
  apply HQ; [|done]. split_and!; cbn [port kernel]; [ | | done].
  - apply port_wf_set_stack; [done | by apply stat_put_wf |]. by apply stat_put_cover.
  - eapply port_evolves_trans; [exact He|]. eapply port_evolves_set; [exact Hs|].
    by apply rx_evolves_stat.
Qed.

(** A new transmit buffer for [idx]. *)
Lemma waiting_txbuf idx p0 t0 w b l :
  waiting idx p0 t0 w -> is_buf b -> zset (txbuf (port w)) idx b = Some l ->
  waiting idx p0 t0 (World ((port w) <| txbuf := l |>) (kernel w)).
Proof.
  intros (Hp & He & Ht) Hb Hl. destruct w as [p e]. cbn [port kernel] in *.
  split_and!; cbn [port kernel]; [ | | done].
  - pose proof (Forall_zset _ _ _ _ _ (wf_txbufs _ Hp) Hb Hl) as Hf.
    pose proof (zset_length _ _ _ _ Hl) as Hll.
    destruct Hp, p; split; cbn in *; try done. congruence.
  - eapply port_evolves_trans; [exact He|]. destruct p; cbn in *. split; cbn; try done.
    + intros i Hi. by apply (zget_zset_ne _ _ _ _ _ Hl).
    + intros n s Hs. exists s. split; [exact Hs | apply rx_evolves_refl].
Qed.

Lemma wp_write_txbuf_waiting idx off bs p0 t0 Q w :
  waiting idx p0 t0 w -> buf_index idx -> 0 <= off -> off + zlen bs <= EC_BUFSIZE ->
  (forall w', waiting idx p0 t0 w' -> kernel w' = kernel w -> Q tt w') ->
  wp F (write_txbuf idx off bs) Q w.
Proof.
  intros Hw Hi H1 H2 HQ. pose proof Hw as (Hp & _ & _).
  destruct (buf_lookup _ _ idx (wf_txbuf _ Hp) (wf_txbufs _ Hp) Hi) as (b & Hb & Hbl).
  unfold is_buf in Hbl. unfold write_txbuf. apply wp_bind, wp_pget.
  apply wp_bind. eapply wp_oob; [exact Hb|].
  destruct (zblit b off bs) as [b'|] eqn:Hb'; [|rewrite zblit_some in Hb' by lia; done].
  apply wp_bind. eapply wp_oob; [reflexivity|]. unfold buf_index in Hi.
  pose proof (zset_some (txbuf (port w)) idx b' ltac:(rewrite (wf_txbuf _ Hp); lia)) as Hset.
  apply wp_bind. eapply wp_oob; [exact Hset|]. apply wp_pmod. apply HQ; [|done].
  eapply waiting_txbuf; [exact Hw | | exact Hset]. unfold is_buf.
  rewrite (zblit_length _ _ _ _ Hb'). done.
Qed.

Lemma wp_outframe_waiting idx n p0 t0 s0 Q w :
  waiting idx p0 t0 w -> stack_of n p0 = Some s0 -> buf_index idx -> built idx p0 ->
  (forall r w', waiting idx p0 t0 w' -> clock_now (kernel w) <= clock_now (kernel w') -> Q r w') ->
  wp F (ecx_outframe idx n) Q w.
Proof.
  intros Hw Hs0 Hi Hb HQ. destruct (waiting_stack _ _ _ _ _ _ Hw Hs0) as [s Hs].
  destruct (waiting_built _ _ _ _ Hw Hb) as (len & Hlen & Hfl). unfold frame_length in Hfl.
  unfold ecx_outframe. apply wp_bind. eapply wp_get_stack; [exact Hs|].
  apply wp_bind, wp_pget. apply wp_bind. eapply wp_oob; [exact Hlen|].
  apply wp_bind. eapply wp_set_stat_waiting; [exact Hw | exact Hs0 | done | done |].
  intros w1 Hw1 Hk1. pose proof Hw1 as (Hp1 & _). apply wp_bind, wp_pget.
  destruct (buf_lookup _ _ idx (wf_txbuf _ Hp1) (wf_txbufs _ Hp1) Hi) as (b & Hbb & Hbl).
  unfold is_buf in Hbl. apply wp_bind. eapply wp_oob; [exact Hbb|].
  apply wp_bind. eapply wp_oob; [apply zslice_some; ec_unfold; lia|].
  apply wp_bind, wp_kern_call; [intros; apply clock_send|]. intros r e He.
  pose proof (waiting_kernel _ _ _ _ _ Hw1 He) as Hw2.
  apply wp_bind, wp_when; intros _.
  - eapply wp_set_stat_waiting; [exact Hw2 | exact Hs0 | done | done |].
    intros w3 Hw3 Hk3. apply wp_ret, HQ; [done|]. rewrite Hk3, <- Hk1. exact He.
  - apply wp_ret, HQ; [done|]. rewrite <- Hk1. exact He.
Qed.

(** Copying the receive buffer of the secondary stack. *)
Lemma wp_copy_red_waiting idx p0 t0 s1 Q w :
  waiting idx p0 t0 w -> stack_of 1 p0 = Some s1 -> buf_index idx -> built idx p0 ->
  (forall w', waiting idx p0 t0 w' -> kernel w' = kernel w -> Q tt w') ->
  wp F (copy_red_to_primary idx) Q w.
Proof.
  intros Hw Hs1 Hi Hb HQ. destruct (waiting_stack _ _ _ _ _ _ Hw Hs1) as [r Hr].
  destruct (waiting_built _ _ _ _ Hw Hb) as (len & Hlen & Hfl). unfold frame_length in Hfl.
  destruct w as [p e]. pose proof Hw as (Hp & He & Ht). cbn [port kernel] in *.
  pose proof (stack_of_wf 1 _ _ Hp Hr) as Hwr. pose proof (wf_stack _ Hp) as Hws.
  destruct (buf_lookup _ _ idx (wf_rxbuf _ Hwr) (wf_rxbufs _ Hwr) Hi) as (src & Hsrc & [[Hsl Hsb] Hsf]).
  destruct (buf_lookup _ _ idx (wf_rxbuf _ Hws) (wf_rxbufs _ Hws) Hi) as (b & Hbb & [[Hbl Hbo] Hbf]).
  unfold is_buf in *. unfold copy_red_to_primary.
  apply wp_bind. eapply wp_get_stack; [done|]. apply wp_bind. eapply wp_get_stack; [exact Hr|].
  apply wp_bind, wp_pget. apply wp_bind. eapply wp_oob; [exact Hlen|].
  apply wp_bind. eapply wp_oob; [exact Hsrc|].
  destruct (zslice src 0 (len - ETH_HEADERSIZE)) as [pl|] eqn:Hpl.
  2: { rewrite zslice_some in Hpl by (ec_unfold; lia). done. }
  pose proof (zslice_length _ _ _ _ Hpl) as Hpll.
  apply wp_bind. eapply wp_oob; [reflexivity|]. apply wp_bind. eapply wp_oob; [exact Hbb|].
  destruct (zblit b 0 pl) as [b'|] eqn:Hb'; [|rewrite zblit_some in Hb' by (ec_unfold; lia); done].
  apply wp_bind. eapply wp_oob; [reflexivity|]. unfold buf_index in Hi.
  pose proof (zset_some (rxbuf (stack p)) idx b' ltac:(rewrite (wf_rxbuf _ Hws); lia)) as Hset.
  apply wp_bind. eapply wp_oob; [exact Hset|]. apply wp_put_stack. apply HQ; [|done].
  assert (Hrb : is_rxbuf b').
  { eapply is_rxbuf_zblit; [by split | exact (bytes_ok_zslice _ _ _ _ Hsb Hpl) | exact Hb']. }
  assert (Hfb : is_framebuf b').
  { split; [exact Hrb|]. destruct Hsf as (l & Hl & Hlr). exists l. split; [|exact Hlr].
    rewrite <- Hl. pose proof (zslice_zblit_same _ _ _ _ Hb') as Hsame. rewrite Hpll in Hsame.
    assert (Hg : forall i, 0 <= i < 2 -> zget b' i = zget src i).
    { intros i Hir. change (zget b' i) with (zget b' (0 + i)).
      change (zget src i) with (zget src (0 + i)). ec_unfold.
      rewrite <- (zget_zslice _ _ _ _ _ Hsame), <- (zget_zslice _ _ _ _ _ Hpl) by lia. done. }
    unfold rx_length. by rewrite (Hg 0), (Hg 1) by lia. }
  split_and!; cbn [port kernel]; [ | | done].
  - apply port_wf_set_stack; [done | |].
    + pose proof (Forall_zset _ _ _ _ _ (wf_rxbufs _ Hws) Hfb Hset) as Hall.
      pose proof (zset_length _ _ _ _ Hset) as Hll.
      destruct Hws, (stack p); split; cbn in *; congruence.
    + pose proof (wf_cover _ Hp) as Hc. destruct (stack p); exact Hc.
  - eapply port_evolves_trans; [exact He|]. eapply (port_evolves_set _ 0); [done|].
    split; [by destruct (stack p)|]. intros i Hne. left.
    pose proof (zget_zset_ne _ _ i _ _ Hset ltac:(congruence)) as Hg.
    destruct (stack p); cbn in *. done.
Qed.

Lemma wp_copy_tx_waiting idx p0 t0 Q w :
  waiting idx p0 t0 w -> buf_index idx -> built idx p0 ->
  (forall w', waiting idx p0 t0 w' -> kernel w' = kernel w -> Q tt w') ->
  wp F (copy_rx_to_tx idx) Q w.
Proof.
  intros Hw Hi Hb HQ. destruct (waiting_built _ _ _ _ Hw Hb) as (len & Hlen & Hfl).
  unfold frame_length in Hfl. pose proof Hw as (Hp & He & Ht).
  pose proof (wf_stack _ Hp) as Hws.
  destruct (buf_lookup _ _ idx (wf_rxbuf _ Hws) (wf_rxbufs _ Hws) Hi) as (b & Hbb & [[Hbl Hbo] Hbf]).
  unfold is_buf in *. unfold copy_rx_to_tx. apply wp_bind. eapply wp_get_stack; [done|].
  apply wp_bind, wp_pget. apply wp_bind. eapply wp_oob; [exact Hlen|].
  apply wp_bind. eapply wp_oob; [exact Hbb|].
  destruct (zslice b 0 (len - ETH_HEADERSIZE)) as [pl|] eqn:Hpl.
  2: { rewrite zslice_some in Hpl by (ec_unfold; lia). done. }
  pose proof (zslice_length _ _ _ _ Hpl) as Hpll.
  apply wp_bind. eapply wp_oob; [reflexivity|].
  eapply wp_write_txbuf_waiting; [exact Hw | done | ec_unfold; lia | ec_unfold; lia | done].
Qed.

(** ** The waiting functions *)

(** Fuel for a timer of [ns] nanoseconds, and for the retransmission over the secondary
    interface. *)
Definition fuel_for (ns : Z) : Prop :=
  ns < Z.of_nat loop_fuel /\ EC_TIMEOUTRET * 1000 < Z.of_nat loop_fuel.

(** Started timers have at most their timeout left. *)
Lemma wp_timer_start_waiting usec idx p0 t0 Q w :
  waiting idx p0 t0 w ->
  (forall t w', ts_normal t -> left t w' <= u32 usec * 1000 -> waiting idx p0 t0 w' ->
     clock_now (kernel w) < clock_now (kernel w') -> Q t w') ->
  wp F (kern (osal_timer_start usec)) Q w.
Proof.
  intros Hw HQ. apply wp_timer_start. intros t e Hns Hn He.
  apply HQ; [done | | by apply waiting_kernel; [|lia] | done].
  unfold left. cbn. pose proof (u32_range usec). lia.
Qed.

Lemma wp_waitinframe_resend idx wkc2 p0 t0 s1 Q w :
  waiting idx p0 t0 w -> stack_of 1 p0 = Some s1 -> buf_index idx -> built idx p0 ->
  EC_TIMEOUTRET * 1000 < Z.of_nat loop_fuel ->
  (forall rc w', rc_range rc -> waiting idx p0 t0 w' ->
     clock_now (kernel w) <= clock_now (kernel w') -> Q rc w') ->
  wp F (waitinframe_resend idx wkc2) Q w.
Proof.
  intros Hw Hs1 Hi Hb Hfuel HQ. unfold waitinframe_resend.
  apply wp_bind. eapply wp_timer_start_waiting; [exact Hw|]. intros t w1 Ht Hleft Hw1 Hc1.
  apply wp_bind. eapply wp_outframe_waiting; [exact Hw1 | exact Hs1 | done | done |].
  intros r w2 Hw2 Hc2.
  pose (I := fun (_ : Z) w' => waiting idx p0 t0 w'
    /\ clock_now (kernel w) <= clock_now (kernel w')).
  eapply (wp_timed_loop I t); [done | | split; [done|lia] |].
  2: { unfold left in *. change (u32 EC_TIMEOUTRET) with EC_TIMEOUTRET in Hleft. lia. }
  intros _ w3 [Hw3 Hc3]. apply wp_bind.
  eapply wp_inframe_waiting; [exact Hw3 | exact Hs1 | done | done |].
  intros rc w4 Hrc Hw4 Hc4. apply wp_if; intros _.
  - apply (wp_again I); [done | done |]. intros e He.
    assert (Hw5 : waiting idx p0 t0 (World (port w4) e)) by (apply waiting_kernel; [done | lia]).
    split; [split; [done | cbn; lia] | apply HQ; [done | done | cbn; lia]].
  - apply wp_ret. cbn. apply HQ; [done | done | lia].
Qed.

Lemma wp_waitinframe_red idx t p0 t0 Q w :
  waiting idx p0 t0 w -> port_wf p0 -> buf_index idx -> built idx p0 -> ts_normal t ->
  fuel_for (left t w) ->
  (forall rc w', rc_range rc -> waiting idx p0 t0 w' ->
     clock_now (kernel w) <= clock_now (kernel w') -> Q rc w') ->
  wp F (ecx_waitinframe_red idx t) Q w.
Proof.
  intros Hw Hp0 Hi Hb Ht [Hf1 Hf2] HQ. destruct (port_wf_red_ready _ Hp0) as (s0 & Hs0 & Hr0).
  unfold ecx_waitinframe_red. apply wp_bind.
  eapply wp_waitinframe_poll; [exact Hw | done | done | done | done | done |].
  intros [wkc wkc2] w1 Hr1 Hr2 Hw1 Hc1. cbn [fst snd] in *.
  pose proof Hw1 as (Hp1 & He1 & _). apply wp_bind, wp_pget.
  rewrite (pe_redstate _ _ _ He1).
  destruct (Z.eqb_spec (redstate p0) ECT_RED_NONE) as [Hn|Hn].
  { apply wp_ret. by apply HQ. }
  destruct (Hr0 Hn) as [r0 Hr0']. destruct (waiting_stack _ _ _ _ _ _ Hw1 Hr0') as [r Hr].
  apply wp_bind. eapply wp_get_stack; [done|]. apply wp_bind. eapply wp_get_stack; [exact Hr|].
  pose proof (wf_stack _ Hp1) as Hws. pose proof (stack_of_wf _ _ _ Hp1 Hr) as Hwr.
  assert (Hsa : forall s (b : bool) K, stack_wf s ->
    (forall v, wp F (K v) Q w1) ->
    wp F (bind (if b then oob (zget (rxsa s) idx) else ret 0) K) Q w1).
  { intros s b K Hs HK. apply wp_bind. destruct b; [|by apply wp_ret].
    destruct (zget_some (rxsa s) idx) as [v Hv]; [by rewrite (wf_rxsa _ Hs)|].
    eapply wp_oob; [exact Hv|]. apply HK. }
  apply Hsa; [done|]. intros primrx. apply Hsa; [done|]. intros secrx.
  apply wp_bind. eapply (wp_mono F _ (fun rc w' => rc_range rc /\ waiting idx p0 t0 w'
    /\ clock_now (kernel w) <= clock_now (kernel w'))).
  { apply wp_if; intros _; [|by apply wp_ret]. apply wp_bind.
    eapply wp_copy_red_waiting; [exact Hw1 | exact Hr0' | done | done |].
    intros w2 Hw2 Hk2. apply wp_ret. by rewrite Hk2. }
  intros rc w2 (Hrc & Hw2 & Hc2). apply wp_if; intros _; [|apply wp_ret; by apply HQ].
  apply wp_bind. eapply (wp_mono F _ (fun _ w' => waiting idx p0 t0 w'
    /\ clock_now (kernel w) <= clock_now (kernel w'))).
  { apply wp_when; intros _; [|done].
    eapply wp_copy_tx_waiting; [exact Hw2 | done | done |]. intros w3 Hw3 Hk3. by rewrite Hk3. }
  intros _ w3 [Hw3 Hc3]. apply wp_bind.
  eapply wp_waitinframe_resend; [exact Hw3 | exact Hr0' | done | done | done |].
  intros rc2 w4 Hrc2 Hw4 Hc4. apply wp_if; intros _.
  - apply wp_bind. eapply wp_copy_red_waiting; [exact Hw4 | exact Hr0' | done | done |].
    intros w5 Hw5 Hk5. apply wp_ret, HQ; [done | done | rewrite Hk5; lia].
  - apply wp_ret, HQ; [done | done | lia].
Qed.

Lemma wp_write_txbuf2_waiting idx off bs p0 t0 Q w :
  waiting idx p0 t0 w -> 0 <= off -> off + zlen bs <= EC_BUFSIZE ->
  (forall w', waiting idx p0 t0 w' -> kernel w' = kernel w -> Q tt w') ->
  wp F (write_txbuf2 off bs) Q w.
Proof.
  intros (Hp & He & Ht) H1 H2 HQ. pose proof (wf_txbuf2 _ Hp) as Hb. unfold is_buf in Hb.
  unfold write_txbuf2. apply wp_bind, wp_pget.
  destruct (zblit (txbuf2 (port w)) off bs) as [b'|] eqn:Hb'; [|rewrite zblit_some in Hb' by lia; done].
  apply wp_bind. eapply wp_oob; [reflexivity|]. apply wp_pmod. apply HQ; [|done].
  pose proof (zblit_length _ _ _ _ Hb') as Hl.
  destruct w as [p e]. cbn [port kernel] in *. split_and!; cbn [port kernel]; [ | | done].
  - destruct Hp, p; split; cbn in *; try done. unfold is_buf. congruence.
  - eapply port_evolves_trans; [exact He|]. destruct p; split; cbn; try done.
    intros n s Hs. exists s. split; [exact Hs | apply rx_evolves_refl].
Qed.

Lemma wp_outframe_red_waiting idx p0 t0 Q w :
  waiting idx p0 t0 w -> port_wf p0 -> buf_index idx -> built idx p0 ->
  (forall r w', waiting idx p0 t0 w' -> clock_now (kernel w) <= clock_now (kernel w') -> Q r w') ->
  wp F (ecx_outframe_red idx) Q w.
Proof.
  intros Hw Hp0 Hi Hb HQ. destruct (port_wf_red_ready _ Hp0) as (s0 & Hs0 & Hr0).
  unfold ecx_outframe_red. apply wp_bind.
  eapply wp_write_txbuf_waiting; [exact Hw | done | ec_unfold; lia | unfold zlen; ec_unfold; cbn; lia |].
  intros w1 Hw1 Hk1. apply wp_bind.
  eapply wp_outframe_waiting; [exact Hw1 | exact Hs0 | done | done |].
  intros rval w2 Hw2 Hc2. rewrite Hk1 in Hc2. apply wp_bind, wp_pget.
  pose proof Hw2 as (Hp2 & He2 & _). rewrite (pe_redstate _ _ _ He2).
  apply wp_bind, wp_when; intros Hn; [|apply wp_ret; by apply HQ].
  destruct (Hr0 ltac:(intros Heq; rewrite Heq in Hn; done)) as [r0 Hr0'].
  apply wp_bind. eapply wp_write_txbuf2_waiting; [exact Hw2 | ec_unfold; lia |
    unfold zlen; ec_unfold; cbn; lia |]. intros w3 Hw3 Hk3.
  apply wp_bind. eapply wp_write_txbuf2_waiting; [exact Hw3 | ec_unfold; lia |
    unfold zlen; ec_unfold; cbn; lia |]. intros w4 Hw4 Hk4.
  apply wp_bind. eapply wp_set_stat_waiting; [exact Hw4 | exact Hr0' | done | done |].
  intros w5 Hw5 Hk5. destruct (waiting_stack _ _ _ _ _ _ Hw5 Hr0') as [r Hr].
  pose proof Hw5 as (Hp5 & _). pose proof (wf_txbuf2 _ Hp5) as Hb2. unfold is_buf in Hb2.
  pose proof (wf_txbuflength2 _ Hp5) as Hl2.
  apply wp_bind. eapply wp_get_stack; [exact Hr|]. apply wp_bind, wp_pget. apply wp_bind, wp_pget.
  apply wp_bind. eapply wp_oob; [apply zslice_some; lia|].
  apply wp_bind, wp_kern_call; [intros; apply clock_send|]. intros rr e Hce.
  pose proof (waiting_kernel _ _ _ _ _ Hw5 Hce) as Hw6.
  assert (Hce' : clock_now (kernel w) <= clock_now e) by (rewrite Hk5, Hk4, Hk3 in Hce; lia).
  apply wp_when; intros _; [|apply wp_ret; by apply HQ].
  eapply wp_set_stat_waiting; [exact Hw6 | exact Hr0' | done | done |].
  intros w7 Hw7 Hk7. apply wp_ret, HQ; [done|]. by rewrite Hk7.
Qed.

Lemma wp_srconfirm idx timeout p0 t0 Q w :
  waiting idx p0 t0 w -> port_wf p0 -> buf_index idx -> built idx p0 -> 0 <= timeout ->
  fuel_for (u32 timeout * 1000) ->
  (forall rc w', rc_range rc -> waiting idx p0 t0 w' -> Q rc w') ->
  wp F (ecx_srconfirm idx timeout) Q w.
Proof.
  intros Hw Hp0 Hi Hb Hto [Hf1 Hf2] HQ. unfold ecx_srconfirm.
  apply wp_bind. eapply wp_timer_start_waiting; [exact Hw|]. intros t1 w1 Ht1 Hleft Hw1 Hc1.
  pose (I := fun rc w' => waiting idx p0 t0 w' /\ rc_range rc).
  eapply (wp_timed_loop I t1);
    [done | | split; [done | unfold rc_range; ec_unfold; lia] | lia].
  intros _ w2 [Hw2 _]. apply wp_bind.
  eapply wp_outframe_red_waiting; [exact Hw2 | done | done | done |]. intros _ w3 Hw3 Hc3.
  apply wp_bind. eapply wp_timer_start_waiting; [exact Hw3|]. intros t2 w4 Ht2 Hleft2 Hw4 Hc4.
  apply wp_bind. eapply wp_waitinframe_red; [exact Hw4 | done | done | done | done | |].
  { split; [|done]. destruct (Z.ltb_spec timeout EC_TIMEOUTRET); [lia|].
    change (u32 EC_TIMEOUTRET) with EC_TIMEOUTRET in Hleft2. lia. }
  intros rc w5 Hrc Hw5 Hc5. apply wp_if; intros _.
  - apply (wp_again I); [done | lia |]. intros e He.
    assert (Hw6 : waiting idx p0 t0 (World (port w5) e)) by (apply waiting_kernel; [done | lia]).
    split; [done | by apply HQ].
  - apply wp_ret. cbn. by apply HQ.
Qed.
End Wait.
