(* ===== verification/Sim.v ===== *)
(** * A simulated kernel

    A concrete instance of the kernel interface, on which the witnesses of the theorems
    about the driver run: a clock that advances at every reading, a queue of packets to
    receive, and a function that says what the wire answers to a packet sent.  It
    satisfies the laws [ClockLaws] and [NetLaws]. *)

From S2P Require Import Prelude Types Osal Nicdrv PortWf NicRecv.

Record sim : Type := Sim {
  clk : Z;
  inbox : list (list Z);
  sent : list (list Z);
  reply : list Z -> list (list Z);
}.

Definition packet_okb (n : Z) (bs : list Z) : bool :=
  (60 <=? zlen bs) && (zlen bs <=? n) && forallb (fun b => (0 <=? b) && (b <? 256)) bs
  && (negb (packet_etype bs =? ETH_P_ECAT) || (packet_length bs <=? EC_BUFSIZE - 2)).

Definition sim_recv (n : Z) (e : sim) : option (list Z) * sim :=
  match inbox e with
  | [] => (None, e)
  | bs :: r => (if packet_okb n bs then Some bs else None, e <| inbox := r |>)
  end.

#[export] Instance sim_os : OS sim := {
  os_clock_monotonic e :=
    (TimeSpec (clk e / 1000000000) (clk e mod 1000000000), e <| clk := clk e + 1000 |>);
  os_clock_realtime e := (TimeSpec 0 0, e);
  os_nanosleep ts e := (0, e <| clk := clk e + Z.max 0 (ns ts) |>);
  os_ppoll _ e := (1, e);
  os_send _ bs e := (zlen bs, e <| inbox := inbox e ++ reply e bs |> <| sent := bs :: sent e |>);
  os_recv _ n e := sim_recv n e;
  os_socket e := (3, e);
  os_nicconf _ _ e := (0, e);
  os_close _ e := e;
}.

Lemma packet_okb_spec n bs : packet_okb n bs = true -> packet_ok n bs.
Proof.
  unfold packet_okb. rewrite !andb_true_iff, orb_true_iff, negb_true_iff.
  intros (((H1 & H2) & H3) & H4). split; [lia | |].
  - rewrite Forall_forall. intros b Hb. apply forallb_forall with (x := b) in H3.
    + unfold is_byte. lia.
    + done.
  - intros He. destruct H4 as [H4|H4]; [rewrite Z.eqb_neq in H4; done | lia].
Qed.

#[export] Instance sim_net : NetLaws sim.
Proof.
  intros fd n e bs. cbn. unfold sim_recv. destruct (inbox e) as [|x r]; [done|].
  destruct (packet_okb n x) eqn:Hk; [|done]. cbn. intros [= <-]. right. by apply packet_okb_spec.
Qed.

#[export] Instance sim_clock : ClockLaws sim.
Proof.
  assert (Hnow : forall e : sim, clock_now e = clk e).
  { intros e. unfold clock_now, ns. cbn. pose proof (Z.div_mod (clk e) 1000000000). lia. }
  split; intros; try rewrite !Hnow; cbn; try lia.
  - apply Z.mod_pos_bound. lia.
  - unfold sim_recv. destruct (inbox e); cbn; lia.
Qed.

(** A port as [ecx_setupnic] leaves it, and the kernel of a quiet network. *)
Definition stack0 : ec_stackT :=
  EcStack 3 (replicate 1518 0) (replicate 16 (replicate 1518 0)) (replicate 16 0)
    (replicate 16 0) 0.
Definition port0 : ecx_portt :=
  EcxPort stack0 0 (replicate 16 (replicate 1518 0)) (replicate 16 0) (replicate 1518 0) 0 0
    ECT_RED_NONE None.
Definition sim0 : sim := Sim 0 [] [] (fun _ => []).

Lemma rxbuf0_ok : is_rxbuf (replicate 1518 0).
Proof. split; [done|]. apply Forall_replicate. unfold is_byte. lia. Qed.

Lemma framebuf0_ok : is_framebuf (replicate 1518 0).
Proof. split; [exact rxbuf0_ok|]. exists 0. split; [reflexivity | ec_unfold; lia]. Qed.

Lemma zget_replicate {A} n (x : A) i y : zget (replicate n x) i = Some y -> y = x.
Proof.
  unfold zget. destruct (i <? 0); [done|]. intros Hl. by apply lookup_replicate in Hl as [].
Qed.

Lemma stack0_wf : stack_wf stack0.
Proof. split; try done; [apply rxbuf0_ok | apply Forall_replicate, framebuf0_ok]. Qed.

Lemma port0_wf : port_wf port0.
Proof.
  split; try done.
  - apply stack0_wf.
  - by apply Forall_replicate.
  - by apply Forall_replicate.
  - intros i st n Hst _. apply zget_replicate in Hst. subst st. unfold in_flight. ec_unfold. lia.
Qed.
