(* ===== verification/NicTheorems.v ===== *)
(** * Properties of the raw socket driver

    The claims about frame indices and reception, with their witnesses on the simulated
    kernel of Sim.v. *)

From S2P Require Import Prelude Ring Types Osal Nicdrv PortWf NicRecv Sim.

#[local] Existing Instance sim_os.
#[local] Instance fuel1 : LoopFuel := 1%nat.

(** Allocating a frame index always succeeds: the result is the index of a buffer,
    the first one marked [EC_BUF_EMPTY] in round-robin order after the index handed out
    last, and only when no buffer is empty the next index in that order; the buffer is
    marked [EC_BUF_ALLOC] in the primary stack, no other buffer changes, and the port
    stays well formed. *)
Theorem getindex_allocates {E} `{OS E} `{LoopFuel} (w : world E) :
  port_wf (port w) ->
  wp no_fault ecx_getindex
    (fun idx w' => buf_index idx /\ chosen_index (port w) idx /\ port_wf (port w')
       /\ lastidx (port w') = idx /\ kernel w' = kernel w
       /\ forall i, bufstat (stack (port w')) i
                    = if decide (idx = i) then Some EC_BUF_ALLOC
                      else bufstat (stack (port w)) i) w.
Proof.
  intros Hp. apply wp_getindex; [done|]. intros idx Hi Hch. cbn [port kernel].
  assert (Hp' : port_wf (set_stats idx EC_BUF_ALLOC (port w))).
  { apply port_wf_set_stats; [done | done |].
    unfold in_flight. ec_unfold. lia. }
  destruct (set_stats_fields idx EC_BUF_ALLOC (port w)) as (_&_&_&_&_&_&Hst).
  split_and!; [done | done | | by destruct set_stats | done |].
  - destruct (set_stats _ _ _), Hp'; split; cbn in *; done.
  - intros i. transitivity (bufstat (stack (set_stats idx EC_BUF_ALLOC (port w))) i).
    + by destruct set_stats.
    + rewrite Hst. apply bufstat_put; [apply Hp | done].
Qed.

Lemma getindex_allocates_witness :
  port_wf (port (World port0 sim0))
  /\ wp no_fault (ecx_getindex (E := sim))
       (fun idx w' => idx = 1 /\ bufstat (stack (port w')) 1 = Some EC_BUF_ALLOC)
       (World port0 sim0).
Proof.
  split; [exact port0_wf|].
  eapply wp_mono; [exact (getindex_allocates (World port0 sim0) port0_wf)|].
  intros idx w' (Hi & (k & Hk & Hidx & Hall & _) & _ & _ & _ & Hst). cbn [port] in *.
  assert (idx = 1) as ->.
  { destruct (decide (k = 0)) as [->|]; [by rewrite Hidx|].
    exfalso. apply (Hall 0); [lia | reflexivity]. }
  split; [done|]. rewrite Hst. reflexivity.
Defined.

(** C17: One non-blocking reception, for a frame that has been built, has exactly the
    outcomes of the driver's contract and goes out of bounds in none of them, provided the
    packet has 60 bytes at least and its length field points into the receive buffer
    ([NetLaws]; [long_answer_overruns] is what happens otherwise): an answer
    that is already in its buffer is handed out without touching the socket; otherwise
    one packet is read, and it is the caller's (its work counter is the result and its
    payload is in the caller's buffer), another frame in flight (kept as received in
    that frame's own buffer), or foreign or unexpected (dropped without a trace in any
    receive buffer).  Everything else in the port stays as it was. *)
Theorem inframe_outcomes {E} `{OS E} `{LoopFuel} `{!NetLaws E}
    (w : world E) (idx n : Z) (s : ec_stackT) (len : Z) :
  port_wf (port w) -> stack_of n (port w) = Some s -> buf_index idx ->
  zget (txbuflength (port w)) idx = Some len -> frame_length len ->
  wp no_fault (ecx_inframe idx n)
    (fun rc w' => exists s', port_wf (port w') /\ port_frame n (port w) (port w')
       /\ stack_of n (port w') = Some s'
       /\ (bufstat s idx = Some EC_BUF_RCVD -> kernel w' = kernel w /\ ready_outcome idx s s' rc)
       /\ (bufstat s idx <> Some EC_BUF_RCVD ->
            kernel w' = (os_recv (sock s) EC_BUFSIZE (kernel w)).2
            /\ recv_outcome idx (txbuflength (port w)) s s'
                 (os_recv (sock s) EC_BUFSIZE (kernel w)).1 rc)) w.
Proof.
  intros Hp Hs Hi Hlen Hfl.
  eapply wp_inframe; [done..| by eauto | |].
  - intros Hst rc Hro. exists (stat_put idx EC_BUF_COMPLETE s). cbn [port kernel].
    pose proof (stack_of_wf _ _ _ Hp Hs) as Hwf. pose proof (stack_of_cover _ _ _ Hp Hs) as Hc.
    split_and!; [| apply port_frame_set | apply stack_of_set_same | done | done].
    apply port_wf_set_stack; [done | by apply stat_put_wf |].
    apply stat_put_cover; [done..|]. by eauto.
  - intros Hst rc p' s' Hp' Hf Hs' Ho. exists s'. by split_and!.
Qed.

(** An EtherCAT packet for frame [idx] with a two byte payload: length 14 + 2 octets of
    data, work counter [wkc]. *)
Definition answer (idx wkc : Z) : list Z :=
  replicate 12 0 ++ [0x88; 0xa4] ++ [14; 16] ++ [4; idx] ++ replicate 10 0 ++ [wkc; 0]
  ++ replicate 30 0.

(** A port with frames 1 and 2 in flight, [inbox] waiting in the kernel. *)
Definition port12 : ecx_portt :=
  port0 <| stack := stat_put 1 EC_BUF_TX (stat_put 2 EC_BUF_TX stack0) |>
        <| txbuflength := <[1%nat := 30]> (<[2%nat := 30]> (replicate 16 0)) |>.
Definition world12 (packets : list (list Z)) : world sim :=
  World port12 (sim0 <| inbox := packets |>).

Lemma port12_wf : port_wf port12.
Proof.
  pose proof port0_wf as Hp. pose proof stack0_wf as Hs.
  assert (Hi1 : buf_index 1) by done. assert (Hi2 : buf_index 2) by done.
  assert (Hl1 : frame_length 30) by (unfold frame_length; ec_unfold; lia).
  assert (Hs2 : stack_wf (stat_put 2 EC_BUF_TX stack0)) by (by apply stat_put_wf).
  destruct Hp. split; try done.
  - by apply stat_put_wf.
  - repeat constructor; ec_unfold; lia.
  - unfold port12. cbn [txbuflength stack].
    apply (stat_put_cover _ _ _ _ Hs2 Hi1); [apply (stat_put_cover _ _ _ _ Hs Hi2)|].
    + intros i st n Hst _. apply zget_replicate in Hst. subst st. unfold in_flight. ec_unfold. lia.
    + intros _. by exists 30.
    + intros _. by exists 30.
Qed.

Lemma inframe_outcomes_witness :
  port_wf port12
  /\ wp no_fault (ecx_inframe 1 0)
       (fun rc w' => recv_outcome 1 (txbuflength port12) (stack port12) (stack (port w'))
                       (Some (answer 1 5)) rc)
       (world12 [answer 1 5]).
Proof.
  split; [exact port12_wf|].
  eapply wp_mono.
  { apply (inframe_outcomes (world12 [answer 1 5]) 1 0 (stack port12) 30);
      [exact port12_wf | reflexivity | done | reflexivity | unfold frame_length; ec_unfold; lia]. }
  intros rc w' (s' & _ & _ & Hs' & _ & Hr).
  destruct Hr as [_ Ho]; [vm_compute; discriminate|]. injection Hs' as <-. exact Ho.
Defined.

(** C1: Frames may come back in any order: a frame that arrives while another caller
    waits is kept, and the caller it belongs to gets its payload and work counter
    without reading the socket again. *)
Theorem out_of_order_delivery {E} `{OS E} `{LoopFuel} `{!NetLaws E}
    (w : world E) (idx j n : Z) (s : ec_stackT) (len lenj : Z) (bs : list Z) :
  port_wf (port w) -> stack_of n (port w) = Some s -> buf_index idx -> buf_index j -> j <> idx ->
  zget (txbuflength (port w)) idx = Some len -> frame_length len ->
  zget (txbuflength (port w)) j = Some lenj -> frame_length lenj ->
  bufstat s idx <> Some EC_BUF_RCVD -> bufstat s j = Some EC_BUF_TX ->
  (os_recv (sock s) EC_BUFSIZE (kernel w)).1 = Some bs ->
  packet_etype bs = ETH_P_ECAT -> packet_index bs = j ->
  wp no_fault (let* r1 := ecx_inframe idx n in let* r2 := ecx_inframe j n in ret (r1, r2))
    (fun r w' => r.1 = EC_OTHERFRAME
       /\ kernel w' = (os_recv (sock s) EC_BUFSIZE (kernel w)).2
       /\ exists s' b, stack_of n (port w') = Some s' /\ bufstat s' j = Some EC_BUF_COMPLETE
            /\ zget (rxbuf s') j = Some b
            /\ zslice b 0 (lenj - ETH_HEADERSIZE)
               = zslice (load bs (tempbuf s)) ETH_HEADERSIZE (lenj - ETH_HEADERSIZE)
            /\ wkc_at b (packet_length bs) = Some r.2) w.
Proof.
  intros Hp Hs Hi Hj Hne Hlen Hfl Hlenj Hflj Hnr Htx Hrecv Het Hix.
  apply wp_bind. eapply wp_inframe; [done..| by eauto | done |].
  intros _ rc p1 s1 Hp1 Hf1 Hs1 Ho. rewrite Hrecv in Ho.
  apply wp_bind. inversion Ho as [| | ? He | ? ? ? ? He | ? j' ? He ? ? Htx' Hd | ? ? ? Hno Hq];
    subst; try congruence; [by vm_compute in Het|].
  pose proof (pf_txbuflength _ _ _ Hf1) as Hlens.
  pose proof (dl_stat _ _ _ _ _ _ Hd) as Hst.
  eapply wp_inframe; cbn [port kernel]; [exact _ | exact Hp1 | exact Hs1 | done | | | done].
  { rewrite Hlens. by eauto. }
  intros _ rc2 (_ & Hrc2 & b & l & Hb & Hl & Hwkc). apply wp_ret. cbn [port kernel fst snd].
  split_and!; [done..|]. eexists _, b. split; [apply stack_of_set_same|].
  pose proof (stack_of_wf _ _ _ Hp1 Hs1) as Hwf1.
  destruct (dl_payload _ _ _ _ _ _ Hd _ Hlenj) as (b' & Hb' & Heq).
  assert (b' = b) as -> by congruence.
  split_and!; [ | by destruct s1 | exact Heq |].
  { rewrite bufstat_put by done. by rewrite decide_True. }
  destruct (packet_of_recv _ _ _ _ Hrecv Het) as [[Hbl Hbl'] Hbb _].
  pose proof (stack_of_wf _ _ _ Hp Hs) as Hwf. pose proof (wf_tempbuf _ Hwf) as Hrt.
  pose proof Hrt as [Htl _]. unfold is_buf in Htl.
  rewrite (payload_rx_length (load bs (tempbuf s)) b lenj) in Hl; [ | | |done|done].
  - destruct (packet_load bs (tempbuf s)) as (_ & Hpl & _); [done|]. congruence.
  - eapply is_rxbuf_zblit; [exact Hrt | exact Hbb | apply zblit_load; lia].
  - destruct (buf_lookup _ _ (packet_index bs) (wf_rxbuf _ Hwf1) (wf_rxbufs _ Hwf1) Hj)
      as (b2 & Hb2 & [Hfb _]). assert (b2 = b) as -> by congruence. exact Hfb.
Qed.

Lemma out_of_order_delivery_witness :
  port_wf port12
  /\ wp no_fault (let* r1 := ecx_inframe 1 0 in let* r2 := ecx_inframe 2 0 in ret (r1, r2))
       (fun r w' => r.1 = EC_OTHERFRAME /\ bufstat (stack (port w')) 2 = Some EC_BUF_COMPLETE)
       (world12 [answer 2 7; answer 1 5]).
Proof.
  split; [exact port12_wf|].
  eapply wp_mono.
  { apply (out_of_order_delivery (world12 [answer 2 7; answer 1 5]) 1 2 0 (stack port12) 30 30
             (answer 2 7));
      first [exact port12_wf | reflexivity | done | unfold frame_length; ec_unfold; lia
            | vm_compute; discriminate]. }
  intros r w' (Hr & _ & s' & b & Hs' & Hst & _). injection Hs' as <-. done.
Defined.

(** ** A length field that lies

    A kernel that hands over what is on the wire, as a real one does, also when the length
    field of the frame points behind the receive buffer, which [packet_ok] excludes. *)
Record wire_kernel : Type := WireKernel { on_wire : list (list Z) }.
#[local] Instance wire_os : OS wire_kernel := {
  os_clock_monotonic e := (TimeSpec 0 0, e);
  os_clock_realtime e := (TimeSpec 0 0, e);
  os_nanosleep _ e := (0, e);
  os_ppoll _ e := (1, e);
  os_send _ bs e := (zlen bs, e);
  os_recv _ _ e := match on_wire e with [] => (None, e) | bs :: r => (Some bs, WireKernel r) end;
  os_socket e := (3, e);
  os_nicconf _ _ e := (0, e);
  os_close _ e := e;
}.
Definition long_answer : list Z := replicate 12 0 ++ [0x88; 0xa4; 0xff; 0x1f; 0; 1] ++ replicate 42 0.

Lemma long_answer_overruns :
  ecx_inframe 1 0 (World port12 (WireKernel [long_answer])) = Err OutOfBounds.
Proof. vm_compute. reflexivity. Qed.
