(* ===== verification/DatagramSpec.v ===== *)
(** * Building frames

    A reference reading of the wire format, and the proof that the frames
    [ecx_setupdatagram] and [ecx_adddatagram] leave in a transmit buffer are the ones it
    decodes to the requested datagrams. *)

From S2P Require Import Prelude Osal Types Nicdrv Datagram PortWf.

(** * The EtherCAT frame format

    A reference reading of a frame, independent of the code that builds it: the length
    word, and the chain of datagrams linked by their "more follows" bits.  Datagram.v's
    builders are proved against it below. *)

Record datagram : Type := Dgram {
  d_com : Z;
  d_idx : Z;
  d_ADP : Z;
  d_ADO : Z;
  d_data : list Z;
}.

#[export] Instance datagram_eq_dec : EqDecision datagram.
Proof. solve_decision. Defined.

(** Size of a datagram on the wire: header, data and work counter. *)
Definition dg_size (d : datagram) : Z := 12 + zlen (d_data d).

Definition word_at (b : list Z) (off : Z) : option Z := of_le <$> zslice b off 2.

(** The datagram at offset [off] of a frame buffer, and whether another one follows. *)
Definition read_datagram (b : list Z) (off : Z) : option (datagram * bool) :=
  com ← zget b off;
  idx ← zget b (off + 1);
  adp ← word_at b (off + 2);
  ado ← word_at b (off + 4);
  dl ← word_at b (off + 6);
  data ← zslice b (off + 10) (Z.land dl 0x7ff);
  Some (Dgram com idx adp ado data, Z.testbit dl 15).

(** The chain of at most [n] datagrams from [off] on, with the offset after the last. *)
Fixpoint read_chain (n : nat) (b : list Z) (off : Z) : option (list datagram * Z) :=
  match n with
  | O => None
  | S n' =>
      dm ← read_datagram b off;
      let d := dm.1 in
      let next := off + dg_size d in
      if (dm.2 : bool) then
        r ← read_chain n' b next;
        Some (d :: r.1, r.2)
      else Some ([d], next)
  end.

(** The datagrams of an ethernet frame: the length word of type 1 must be the size of
    the chain, the frame exactly [len] bytes long. *)
Definition read_frame_ref (b : list Z) (len : Z) : option (list datagram) :=
  el ← word_at b 14;
  r ← read_chain (length b) b 16;
  if (Z.shiftr el 12 =? 1) && (Z.land el 0x7ff =? r.2 - 16) && (len =? r.2)
  then Some r.1 else None.

(** ** Transmit buffer [idx] with content [b] and length [len] *)

Definition put_tx (idx : Z) (b : list Z) (len : Z) (p : ecx_portt) : ecx_portt :=
  p <| txbuf ::= <[Z.to_nat idx := b]> |> <| txbuflength ::= <[Z.to_nat idx := len]> |>.

Lemma zget_insert_eq {A} (l : list A) i x : 0 <= i < zlen l -> zget (<[Z.to_nat i := x]> l) i = Some x.
Proof.
  intros Hi. unfold zget, zlen in *. destruct (i <? 0) eqn:?; [lia|].
  apply list_lookup_insert_eq. lia.
Qed.

Lemma put_tx_id idx p : port_wf p -> buf_index idx ->
  exists b len, is_buf b /\ 0 <= len <= EC_BUFSIZE /\ p = put_tx idx b len p
    /\ zget (txbuf p) idx = Some b /\ zget (txbuflength p) idx = Some len.
Proof.
  intros Hp Hi. destruct (buf_lookup _ _ idx (wf_txbuf _ Hp) (wf_txbufs _ Hp) Hi) as (b & Hb & Hbl).
  destruct (buf_lookup_len p idx Hp Hi) as (len & Hlen & Hr).
  exists b, len. split_and!; try done; try lia.
  unfold put_tx. destruct p; cbn in *. unfold zget in *. destruct (idx <? 0); [done|].
  by rewrite !list_insert_id.
Qed.

(** ** The bytes of a frame *)

Definition dl_word (d : datagram) (more : bool) : Z :=
  if more then Z.lor (zlen (d_data d)) EC_DATAGRAMFOLLOWS else zlen (d_data d).

Definition dg_ok (d : datagram) : Prop :=
  0 <= d_com d < 256 /\ 0 <= d_idx d < 256 /\ 0 <= d_ADP d < 65536 /\ 0 <= d_ADO d < 65536
  /\ zlen (d_data d) < 2048.

(** The header fields and the data of [d] at offset [off]. *)
Record dg_bytes (b : list Z) (off : Z) (d : datagram) (more : bool) : Prop := DgBytes {
  db_com : zslice b off 1 = Some [d_com d];
  db_idx : zslice b (off + 1) 1 = Some [d_idx d];
  db_ADP : zslice b (off + 2) 2 = Some (le_bytes 2 (d_ADP d));
  db_ADO : zslice b (off + 4) 2 = Some (le_bytes 2 (d_ADO d));
  db_dl : zslice b (off + 6) 2 = Some (le_bytes 2 (dl_word d more));
  db_data : zslice b (off + 10) (zlen (d_data d)) = Some (d_data d);
}.

Fixpoint chain_bytes (b : list Z) (off : Z) (dms : list (datagram * bool)) : Prop :=
  match dms with
  | [] => True
  | (d, m) :: r => dg_ok d /\ dg_bytes b off d m /\ chain_bytes b (off + dg_size d) r
  end.

Fixpoint chain_size (dms : list (datagram * bool)) : Z :=
  match dms with [] => 0 | (d, _) :: r => dg_size d + chain_size r end.

(** Every datagram but the last announces another one. *)
Fixpoint linked (dms : list (datagram * bool)) : Prop :=
  match dms with
  | [] => False
  | [(_, m)] => m = false
  | (_, m) :: r => m = true /\ linked r
  end.

Record frame_bytes (b : list Z) (dms : list (datagram * bool)) : Prop := FrameBytes {
  fb_len : zslice b 14 2 = Some (le_bytes 2 (EC_ECATTYPE + chain_size dms));
  fb_chain : chain_bytes b 16 dms;
}.

(** ** The reference reading of these bytes *)

Lemma zslice_head {A} (b : list A) off x : zslice b off 1 = Some [x] -> zget b off = Some x.
Proof.
  intros Hs. pose proof (zget_zslice _ _ _ _ 0 Hs ltac:(lia)) as Hg.
  by rewrite Z.add_0_r in Hg.
Qed.

Lemma word_at_le b off z : 0 <= z < 65536 -> zslice b off 2 = Some (le_bytes 2 z) ->
  word_at b off = Some z.
Proof.
  intros Hz Hs. unfold word_at. rewrite Hs. cbn [fmap option_fmap option_map].
  rewrite of_le_le_bytes. f_equal. apply Z.mod_small. exact Hz.
Qed.

Lemma dl_word_len d more : zlen (d_data d) < 2048 -> Z.land (dl_word d more) 0x7ff = zlen (d_data d).
Proof.
  intros Hl. pose proof (zlen_nonneg (d_data d)) as H0. unfold dl_word, EC_DATAGRAMFOLLOWS.
  assert (Hs : Z.land (zlen (d_data d)) 0x7ff = zlen (d_data d)).
  { change 0x7ff with (Z.ones 11). rewrite Z.land_ones by lia. apply Z.mod_small. lia. }
  destruct more; [|done]. rewrite Z.land_lor_distr_l, Hs.
  change (Z.land (Z.shiftl 1 15) 0x7ff) with 0. apply Z.lor_0_r.
Qed.

Lemma testbit_small z n : 0 <= z < 2 ^ n -> 0 <= n -> Z.testbit z n = false.
Proof.
  intros Hz Hn. rewrite <- (Z.mod_small z (2 ^ n)) by done. apply Z.mod_pow2_bits_high. lia.
Qed.

Lemma dl_word_more d more : zlen (d_data d) < 2048 -> Z.testbit (dl_word d more) 15 = more.
Proof.
  intros Hl. pose proof (zlen_nonneg (d_data d)) as H0. unfold dl_word, EC_DATAGRAMFOLLOWS.
  assert (Hs : Z.testbit (zlen (d_data d)) 15 = false) by (apply testbit_small; [change (2 ^ 15) with 32768; lia | lia]).
  destruct more; [|done]. rewrite Z.lor_spec, Hs. done.
Qed.

Lemma dl_word_range d more : zlen (d_data d) < 2048 -> 0 <= dl_word d more < 65536.
Proof.
  intros Hl. pose proof (zlen_nonneg (d_data d)) as H0. unfold dl_word, EC_DATAGRAMFOLLOWS.
  destruct more; [|lia]. change (Z.shiftl 1 15) with 32768.
  assert (Hnn : 0 <= Z.lor (zlen (d_data d)) 32768) by (apply Z.lor_nonneg; lia).
  split; [done|]. apply Z.log2_lt_cancel. rewrite Z.log2_lor by lia.
  change (Z.log2 32768) with 15. change (Z.log2 65536) with 16.
  assert (Z.log2 (zlen (d_data d)) <= 11); [|lia].
  change 11 with (Z.log2 2048). apply Z.log2_le_mono. lia.
Qed.

Lemma read_datagram_bytes b off d more :
  dg_ok d -> dg_bytes b off d more -> read_datagram b off = Some (d, more).
Proof.
  intros (Hc & Hi & Hp & Ho & Hl) []. unfold read_datagram.
  rewrite (zslice_head _ _ _ db_com0), (zslice_head _ _ _ db_idx0),
    (word_at_le _ _ _ Hp db_ADP0), (word_at_le _ _ _ Ho db_ADO0),
    (word_at_le _ _ _ (dl_word_range d more Hl) db_dl0). cbn [mbind option_bind].
  rewrite dl_word_len, db_data0 by done. cbn [mbind option_bind].
  rewrite (dl_word_more d more Hl). by destruct d.
Qed.

Lemma read_chain_bytes b : forall dms n off,
  (length dms <= n)%nat -> linked dms -> chain_bytes b off dms ->
  read_chain n b off = Some (dms.*1, off + chain_size dms).
Proof.
  induction dms as [|[d m] dms IH]; intros n off Hn Hl Hc; [done|].
  destruct n as [|n]; cbn in Hn; [lia|]. destruct Hc as (Hok & Hb & Hc).
  cbn [read_chain]. rewrite (read_datagram_bytes _ _ _ _ Hok Hb). cbn.
  destruct dms as [|[d2 m2] dms].
  - cbn in Hl. subst m. do 2 f_equal. cbn. lia.
  - destruct Hl as [-> Hl]. rewrite (IH n) by (done || lia). cbn. do 2 f_equal. lia.
Qed.

Lemma chain_size_nonneg dms : 0 <= chain_size dms.
Proof.
  induction dms as [|[d m] dms IH]; cbn; [lia|]. unfold dg_size.
  pose proof (zlen_nonneg (d_data d)). lia.
Qed.

Lemma chain_size_length dms : Z.of_nat (length dms) <= chain_size dms.
Proof.
  induction dms as [|[d m] dms IH]; cbn [length chain_size]; [lia|]. unfold dg_size.
  pose proof (zlen_nonneg (d_data d)). lia.
Qed.

Lemma read_frame_bytes b dms :
  is_buf b -> linked dms -> frame_bytes b dms -> 16 + chain_size dms <= EC_BUFSIZE ->
  read_frame_ref b (16 + chain_size dms) = Some dms.*1.
Proof.
  intros Hb Hl [Hlen Hc] Hsz. unfold is_buf, zlen in Hb. pose proof (chain_size_nonneg dms) as H0.
  pose proof (chain_size_length dms) as H1. ec_unfold. unfold read_frame_ref.
  rewrite (word_at_le _ _ (0x1000 + chain_size dms)) by (done || lia). cbn.
  rewrite (read_chain_bytes _ dms) by (done || lia). cbn.
  assert (Hsh : Z.shiftr (4096 + chain_size dms) 12 = 1).
  { rewrite Z.shiftr_div_pow2 by lia. change (2 ^ 12) with 4096. Z.div_mod_to_equations. lia. }
  assert (Hla : Z.land (4096 + chain_size dms) 0x7ff = chain_size dms).
  { change 0x7ff with (Z.ones 11). rewrite Z.land_ones by lia. change (2 ^ 11) with 2048.
    Z.div_mod_to_equations. lia. }
  rewrite Hsh, Hla. replace (16 + chain_size dms - 16) with (chain_size dms) by lia.
  by rewrite !Z.eqb_refl.
Qed.

(** ** The data a command puts on the wire *)

Definition is_read_command (com : Z) : bool :=
  (com =? EC_CMD_NOP) || (com =? EC_CMD_APRD) || (com =? EC_CMD_FPRD)
  || (com =? EC_CMD_BRD) || (com =? EC_CMD_LRD).
Definition wire_data (com length : Z) (data : list Z) : list Z :=
  if is_read_command com then replicate (Z.to_nat length) 0 else take (Z.to_nat length) data.
(** The datagram a call asks for. *)
Definition requested (com idx ADP ADO length : Z) (data : list Z) : datagram :=
  Dgram (u8 com) (u8 idx) (u16 ADP) (u16 ADO) (wire_data com length data).
(** The caller's buffer holds the data that are sent. *)
Definition data_ok (com length : Z) (data : list Z) : Prop :=
  0 <= length /\ (is_read_command com = false -> length <= zlen data).

Lemma zlen_wire_data com length data : data_ok com length data ->
  zlen (wire_data com length data) = length.
Proof.
  intros [H0 Hd]. unfold wire_data, zlen in *. destruct (is_read_command com).
  - rewrite length_replicate. lia.
  - rewrite length_take. specialize (Hd eq_refl). lia.
Qed.

(** ** Reading back after writing *)

Lemma zslice_zblit_eq {A} (l : list A) off src l' off' n :
  zblit l off src = Some l' -> off' = off -> n = zlen src -> zslice l' off' n = Some src.
Proof. intros Hb -> ->. by eapply zslice_zblit_same. Qed.

Lemma zlen_le_bytes2 z : zlen (le_bytes 2 z) = 2.
Proof. done. Qed.

Ltac size_lia := rewrite ?zlen_le_bytes2, ?zlen_single in *; ec_unfold; lia.

(** Resolve a window of a buffer that was written piece by piece. *)
Ltac read_back :=
  repeat match goal with
  | H : zblit ?b ?o ?src = Some ?b' |- context [zslice ?b' ?o' ?n] =>
      first [ rewrite (zslice_zblit_disjoint b o src b' o' n H) by size_lia
            | rewrite (zslice_zblit_eq b o src b' o' n H) by size_lia ]
  end.

Lemma le_bytes_u16 z : le_bytes 2 (u16 z) = le_bytes 2 z.
Proof.
  unfold u16. cbn [le_bytes]. change (2 ^ 16) with 65536.
  f_equal; [|f_equal]; Z.div_mod_to_equations; lia.
Qed.

Lemma requested_ok com idx ADP ADO length data :
  data_ok com length data -> length < 2048 -> dg_ok (requested com idx ADP ADO length data).
Proof.
  intros Hd Hl. unfold dg_ok. cbn. rewrite zlen_wire_data by done.
  pose proof (u8_range com). pose proof (u8_range idx). pose proof (u16_range ADP).
  pose proof (u16_range ADO). change (2 ^ 8) with 256 in *. change (2 ^ 16) with 65536 in *. lia.
Qed.

(** A datagram whose bytes two buffers agree on. *)
Lemma dg_bytes_transfer b b' off d m :
  (forall o n, off <= o -> o + n <= off + dg_size d -> zslice b' o n = zslice b o n) ->
  dg_bytes b off d m -> dg_bytes b' off d m.
Proof.
  intros Heq []. unfold dg_size in Heq. pose proof (zlen_nonneg (d_data d)).
  split; rewrite Heq by lia; done.
Qed.

Lemma chain_bytes_transfer b b' dms : forall off,
  (forall o n, off <= o -> o + n <= off + chain_size dms -> zslice b' o n = zslice b o n) ->
  chain_bytes b off dms -> chain_bytes b' off dms.
Proof.
  induction dms as [|[d m] dms IH]; intros off Heq Hc; [done|].
  destruct Hc as (Hok & Hb & Hc). cbn [chain_size] in Heq.
  pose proof (chain_size_nonneg dms) as H0. unfold dg_size in *.
  pose proof (zlen_nonneg (d_data d)) as H1. split_and!; [done | |].
  - eapply dg_bytes_transfer; [|exact Hb]. unfold dg_size. intros o n Ho Hn. apply Heq; lia.
  - apply IH; [|exact Hc]. intros o n Ho Hn. unfold dg_size in *. apply Heq; lia.
Qed.

Lemma chain_bytes_snoc b dms d m : forall off,
  chain_bytes b off dms -> dg_ok d -> dg_bytes b (off + chain_size dms) d m ->
  chain_bytes b off (dms ++ [(d, m)]).
Proof.
  induction dms as [|[d0 m0] dms IH]; intros off Hc Hok Hb; cbn in *.
  - by rewrite Z.add_0_r in Hb.
  - destruct Hc as (Hok0 & Hb0 & Hc). split_and!; [done..|]. apply IH; [done..|].
    by rewrite <- Z.add_assoc.
Qed.

Lemma chain_size_app l1 l2 : chain_size (l1 ++ l2) = chain_size l1 + chain_size l2.
Proof. induction l1 as [|[d m] l1 IH]; cbn; [done | rewrite IH; lia]. Qed.

(** ** The builders *)

Section Build.
Context {E : Type} `{OS E} `{LoopFuel} (F : fault -> Prop).

Lemma zget_put_tx idx b len p : port_wf p -> buf_index idx ->
  zget (txbuf (put_tx idx b len p)) idx = Some b
  /\ zget (txbuflength (put_tx idx b len p)) idx = Some len.
Proof.
  intros Hp Hi. destruct Hp, p; cbn in *.
  by rewrite !zget_insert_eq by (unfold buf_index in Hi; lia).
Qed.

Lemma wp_write_frame idx off bs b len p e (Q : unit -> world E -> Prop) :
  port_wf p -> buf_index idx -> is_buf b -> 0 <= off -> off + zlen bs <= EC_BUFSIZE ->
  (forall b', zblit b off bs = Some b' -> is_buf b' -> Q tt (World (put_tx idx b' len p) e)) ->
  wp F (write_frame (TxBuf idx) off bs) Q (World (put_tx idx b len p) e).
Proof.
  intros Hp Hi Hb H1 H2 HQ. unfold is_buf in Hb. destruct (zget_put_tx idx b len p Hp Hi) as [Hg _].
  cbn [write_frame]. unfold write_txbuf. apply wp_bind, wp_pget. cbn [port].
  apply wp_bind. eapply wp_oob; [exact Hg|].
  destruct (zblit b off bs) as [b'|] eqn:Hb'; [|rewrite zblit_some in Hb' by lia; done].
  apply wp_bind. eapply wp_oob; [reflexivity|]. apply wp_bind. eapply wp_oob.
  { apply zset_some. pose proof (wf_txbuf _ Hp) as Hl. unfold buf_index in Hi.
    unfold put_tx, zlen in *. destruct p; cbn in *. rewrite length_insert. lia. }
  apply wp_pmod. cbn [port kernel].
  replace (_ <| txbuf := _ |>) with (put_tx idx b' len p).
  - apply HQ; [done|]. unfold is_buf. by rewrite (zblit_length _ _ _ _ Hb').
  - unfold put_tx. destruct p; cbn. by rewrite list_insert_insert_eq.
Qed.

Lemma wp_set_txbuflength idx v b len p e (Q : unit -> world E -> Prop) :
  port_wf p -> buf_index idx ->
  Q tt (World (put_tx idx b v p) e) ->
  wp F (set_txbuflength idx v) Q (World (put_tx idx b len p) e).
Proof.
  intros Hp Hi HQ. unfold set_txbuflength. apply wp_bind, wp_pget. cbn [port].
  apply wp_bind. eapply wp_oob.
  { apply zset_some. pose proof (wf_txbuflength _ Hp) as Hl. unfold buf_index in Hi.
    unfold put_tx, zlen in *. destruct p; cbn in *. rewrite length_insert. lia. }
  apply wp_pmod. cbn [port kernel].
  replace (_ <| txbuflength := _ |>) with (put_tx idx b v p); [done|].
  unfold put_tx. destruct p; cbn. by rewrite list_insert_insert_eq.
Qed.

Lemma wp_read_frame idx off n b len p e r (Q : list Z -> world E -> Prop) :
  port_wf p -> buf_index idx -> zslice b off n = Some r ->
  Q r (World (put_tx idx b len p) e) ->
  wp F (read_frame (TxBuf idx) off n) Q (World (put_tx idx b len p) e).
Proof.
  intros Hp Hi Hr HQ. destruct (zget_put_tx idx b len p Hp Hi) as [Hg _].
  unfold read_frame. do 2 apply wp_bind. apply wp_pget. cbn [port].
  eapply wp_oob; [exact Hg|]. eapply wp_oob; [exact Hr|]. done.
Qed.

(** The data part: the window at [off] holds the data on the wire. *)
Lemma wp_writedatagramdata idx off com length data b len p e (Q : unit -> world E -> Prop) :
  port_wf p -> buf_index idx -> is_buf b -> data_ok com length data ->
  0 <= off -> off + length <= EC_BUFSIZE ->
  (forall b', zblit b off (wire_data com length data) = Some b' -> is_buf b' ->
     Q tt (World (put_tx idx b' len p) e)) ->
  wp F (ecx_writedatagramdata (TxBuf idx) off com length data) Q (World (put_tx idx b len p) e).
Proof.
  intros Hp Hi Hb Hd H1 H2 HQ. pose proof (zlen_wire_data _ _ _ Hd) as Hw.
  unfold ecx_writedatagramdata. fold (is_read_command com).
  destruct (Z.ltb_spec 0 length) as [Hl|Hl].
  - unfold wire_data in *. destruct (is_read_command com) eqn:Hr.
    + apply wp_write_frame; [done..| by rewrite Hw | done].
    + destruct Hd as [_ Hd]. specialize (Hd Hr). apply wp_bind.
      eapply wp_oob; [apply zslice_some; lia|]. rewrite drop_0.
      apply wp_write_frame; [done..| by rewrite Hw | done].
  - apply wp_ret. assert (length = 0) as -> by (destruct Hd; lia).
    assert (Hnil : wire_data com 0 data = []) by (unfold wire_data; by destruct (is_read_command com)).
    apply (HQ b); [|done]. rewrite Hnil. rewrite zblit_some by (unfold is_buf, zlen in *; cbn; lia).
    cbn. rewrite Nat.add_0_r. by rewrite take_drop.
Qed.

(** One write of a field, keeping the hypotheses about the buffers. *)
Ltac wf_field :=
  apply wp_bind; apply wp_write_frame;
  [assumption | assumption | assumption | size_lia | size_lia |];
  let b := fresh "b" in let Hb := fresh "Hw" in let Hbb := fresh "Hbuf" in
  intros b Hb Hbb.

Lemma wp_setupdatagram com idx ADP ADO length data b len p e (Q : Z -> world E -> Prop) :
  port_wf p -> buf_index idx -> is_buf b -> data_ok com length data ->
  ETH_HEADERSIZE + EC_HEADERSIZE + EC_WKCSIZE + length <= EC_BUFSIZE ->
  (forall b', is_buf b' -> zslice b' 0 14 = zslice b 0 14 ->
     frame_bytes b' [(requested com idx ADP ADO length data, false)] ->
     Q 0 (World (put_tx idx b' (28 + length) p) e)) ->
  wp F (ecx_setupdatagram (TxBuf idx) com idx ADP ADO length data) Q
    (World (put_tx idx b len p) e).
Proof.
  intros Hp Hi Hb Hd Hl HQ. pose proof (zlen_wire_data _ _ _ Hd) as Hwl.
  assert (Hln : 0 <= length) by apply Hd.
  assert (Hok : dg_ok (requested com idx ADP ADO length data)).
  { apply requested_ok; [done | ec_unfold; lia]. }
  unfold ecx_setupdatagram. do 6 wf_field.
  apply wp_bind, wp_writedatagramdata; [done..| size_lia | size_lia |].
  intros b6 Hw5 Hbuf5. do 2 wf_field.
  apply wp_bind, wp_set_txbuflength; [done..|]. apply wp_ret.
  replace (ETH_HEADERSIZE + EC_HEADERSIZE + EC_WKCSIZE + length) with (28 + length) by size_lia.
  unfold is_buf in *. ec_unfold. apply HQ; [done | by read_back |].
  split; cbn [chain_size chain_bytes].
  - read_back. f_equal. f_equal. unfold dg_size. cbn. rewrite Hwl. ec_unfold. lia.
  - split_and!; [done | | done]. split; cbn [requested d_com d_idx d_ADP d_ADO d_data];
      rewrite ?le_bytes_u16, ?Hwl; read_back; try done.
    unfold dl_word. cbn. by rewrite Hwl.
Qed.

(** Setting the "more follows" bit of the first datagram. *)
Definition mark_first (dms : list (datagram * bool)) : list (datagram * bool) :=
  match dms with [] => [] | (d, _) :: r => (d, true) :: r end.

Lemma dl_word_mark d m : Z.lor (dl_word d m) EC_DATAGRAMFOLLOWS = dl_word d true.
Proof.
  unfold dl_word. destruct m; [|done]. by rewrite <- Z.lor_assoc, Z.lor_diag.
Qed.

Lemma wp_adddatagram com idx more ADP ADO length data b dms p e (Q : Z -> world E -> Prop) :
  port_wf p -> buf_index idx -> is_buf b -> data_ok com length data ->
  frame_bytes b dms -> dms <> [] ->
  16 + chain_size dms + 12 + length <= EC_BUFSIZE ->
  (forall b', is_buf b' -> zslice b' 0 14 = zslice b 0 14 ->
     frame_bytes b' (mark_first dms ++ [(requested com idx ADP ADO length data, more)]) ->
     Q (12 + chain_size dms)
       (World (put_tx idx b' (16 + chain_size dms + 12 + length) p) e)) ->
  wp F (ecx_adddatagram (TxBuf idx) com idx more ADP ADO length data) Q
    (World (put_tx idx b (16 + chain_size dms) p) e).
Proof.
  intros Hp Hi Hb Hd [Hel Hch] Hne Hl HQ. pose proof (zlen_wire_data _ _ _ Hd) as Hwl.
  assert (Hln : 0 <= length) by apply Hd.
  assert (Hok : dg_ok (requested com idx ADP ADO length data)).
  { apply requested_ok; [done | ec_unfold; pose proof (chain_size_nonneg dms); lia]. }
  destruct dms as [|[d0 m0] dms]; [done|]. destruct Hch as (Hok0 & Hb0 & Hch).
  set (S0 := chain_size ((d0, m0) :: dms)) in *.
  assert (HS0 : S0 = dg_size d0 + chain_size dms) by done.
  pose proof (chain_size_nonneg dms) as Hnn. pose proof (zlen_nonneg (d_data d0)) as Hd0.
  assert (Hsz0 : dg_size d0 = 12 + zlen (d_data d0)) by done.
  assert (Hdl : zslice b 22 2 = Some (le_bytes 2 (dl_word d0 m0))) by apply Hb0.
  pose proof Hok0 as (_&_&_&_&Hl0). pose proof (dl_word_range d0 m0 Hl0) as Hdr.
  assert (Hof : forall z, 0 <= z < 65536 -> of_le (le_bytes 2 z) = z).
  { intros z Hz. rewrite of_le_le_bytes. by apply Z.mod_small. }
  unfold ecx_adddatagram. apply wp_bind, wp_pget. cbn [port]. apply wp_bind.
  eapply wp_oob; [by apply zget_put_tx|]. rewrite u16_id by size_lia.
  apply wp_bind. eapply wp_read_frame; [done..| exact Hel |]. rewrite Hof by size_lia.
  wf_field. apply wp_bind. eapply (wp_read_frame _ _ _ b0); [done..| |].
  { ec_unfold. read_back. exact Hdl. }
  rewrite Hof, dl_word_mark by done. do 6 wf_field.
  apply wp_bind, wp_writedatagramdata; [done..| size_lia | size_lia |].
  intros b8 Hw7 Hbuf7. do 2 wf_field.
  apply wp_bind, wp_set_txbuflength; [done..|]. apply wp_ret.
  replace (16 + S0 + EC_HEADERSIZE - EC_ELENGTHSIZE + EC_WKCSIZE + length)
    with (16 + S0 + 12 + length) by size_lia.
  replace (u16 (16 + S0 + EC_HEADERSIZE - EC_ELENGTHSIZE - ETH_HEADERSIZE)) with (12 + S0).
  2: { rewrite u16_id by size_lia. size_lia. }
  unfold is_buf in *. ec_unfold. apply HQ; [done | by read_back |].
  split; cbn [mark_first].
  - rewrite chain_size_app. read_back. f_equal. f_equal.
    cbn [chain_size]. unfold dg_size at 2. cbn. rewrite Hwl. ec_unfold. lia.
  - cbn [app chain_bytes]. split_and!; [exact Hok0 | |].
    + destruct Hb0. split; read_back; done.
    + apply chain_bytes_snoc.
      * eapply chain_bytes_transfer; [|exact Hch]. intros o n Ho Hn. by read_back.
      * done.
      * replace (16 + dg_size d0 + chain_size dms) with (16 + S0) by lia.
        split; cbn [requested d_com d_idx d_ADP d_ADO d_data];
          rewrite ?le_bytes_u16, ?Hwl; read_back; try done.
        unfold dl_word. cbn. by rewrite Hwl.
Qed.
End Build.
