(* ===== verification/Transfer.v ===== *)
(** * Blocking transfers

    The shape all transfers of ec_base.c share: allocate an index, build a datagram,
    send it and wait, use the answer, release the index. *)

From S2P Require Import Prelude Ring Types Osal Nicdrv Datagram PortWf NicRecv.
From S2P Require Import DatagramSpec.

Lemma port_wf_put_tx idx b len p :
  port_wf p -> buf_index idx -> is_buf b -> frame_length len -> port_wf (put_tx idx b len p).
Proof.
  intros Hp Hi Hb Hl. unfold frame_length in Hl. ec_unfold.
  assert (Hcov : forall s, lens_cover (txbuflength p) s ->
    lens_cover (<[Z.to_nat idx := len]> (txbuflength p)) s).
  { intros s Hc i st n Hst Hn Hf. destruct (decide (i = idx)) as [->|Hne].
    - rewrite zget_insert_eq in Hn; [injection Hn as <-; unfold frame_length; ec_unfold; lia|].
      rewrite (wf_txbuflength _ Hp). exact Hi.
    - apply (Hc i st n Hst); [|done]. rewrite <- Hn. symmetry.
      eapply (zget_zset_ne _ idx); [|congruence]. apply zset_some.
      rewrite (wf_txbuflength _ Hp). exact Hi. }
  destruct Hp, p; split; cbn in *; try done.
  - unfold zlen in *. by rewrite length_insert.
  - by apply Forall_insert.
  - unfold zlen in *. by rewrite length_insert.
  - apply Forall_insert; [done | cbn; ec_unfold; lia].
  - by apply Hcov.
  - intros r Hr. destruct (wf_redstack r Hr). split; [done | by apply Hcov].
Qed.

Lemma put_tx_stack idx b len p : stack (put_tx idx b len p) = stack p.
Proof. by destruct p. Qed.

(** What a transfer does to the world: the clock goes on; some index was free to take, the
    transfer releases it, and the other callers' buffers keep their frames. *)
Definition releases {E} `{OS E} (w w' : world E) : Prop :=
  port_wf (port w') /\ clock_now (kernel w) <= clock_now (kernel w')
  /\ exists idx, chosen_index (port w) idx /\ bufstat (stack (port w')) idx = Some EC_BUF_EMPTY
    /\ forall i, i <> idx -> bufstat (stack (port w')) i = bufstat (stack (port w)) i
         \/ (bufstat (stack (port w)) i = Some EC_BUF_TX
             /\ bufstat (stack (port w')) i = Some EC_BUF_RCVD).

Section Transfer.
Context {E : Type} `{OS E} `{LoopFuel} `{!NetLaws E} `{!ClockLaws E} (F : fault -> Prop).
Implicit Types w : world E.

(** Allocation and building of a single datagram. *)
Lemma wp_alloc_setup com ADP ADO length data w {A} (K : Z -> M (world E) A) Q :
  port_wf (port w) -> data_ok com length data -> length <= EC_BUFSIZE - 28 ->
  (forall idx p1, buf_index idx -> chosen_index (port w) idx -> port_wf p1 ->
     stack p1 = stat_put idx EC_BUF_ALLOC (stack (port w)) ->
     zget (txbuflength p1) idx = Some (28 + length) ->
     (exists b, zget (txbuf p1) idx = Some b /\ is_buf b
        /\ frame_bytes b [(requested com idx ADP ADO length data, false)]) ->
     wp F (K idx) Q (World p1 (kernel w))) ->
  wp F (let* idx := ecx_getindex in
        let* _r := ecx_setupdatagram (TxBuf idx) com idx ADP ADO length data in
        K idx) Q w.
Proof.
  intros Hp Hd Hl HK. apply wp_bind, wp_getindex; [done|]. intros idx Hi Hch.
  set (p1 := (set_stats idx EC_BUF_ALLOC (port w)) <| lastidx := idx |>).
  assert (Hp1 : port_wf p1).
  { assert (Hs : port_wf (set_stats idx EC_BUF_ALLOC (port w))).
    { apply port_wf_set_stats; [done | done |]. unfold in_flight. ec_unfold. lia. }
    subst p1. destruct (set_stats _ _ _), Hs; split; done. }
  destruct (put_tx_id idx p1 Hp1 Hi) as (b & len & Hb & Hlen & Heq & _).
  assert (Hst1 : stack p1 = stat_put idx EC_BUF_ALLOC (stack (port w))).
  { subst p1. pose proof (set_stats_fields idx EC_BUF_ALLOC (port w)) as (_&_&_&_&_&_&Hst).
    rewrite <- Hst. by destruct (set_stats _ _ _). }
  clearbody p1. apply wp_bind. rewrite Heq.
  apply wp_setupdatagram; [done.. | ec_unfold; lia |]. intros b' Hb' _ Hfb.
  pose proof (zget_put_tx idx b' (28 + length) p1 Hp1 Hi) as [Hg1 Hg2].
  apply HK; [done | done | | by rewrite put_tx_stack | done | by eauto].
  apply port_wf_put_tx; [done..|]. unfold frame_length. destruct Hd. ec_unfold. lia.
Qed.

(** Sending, waiting, and the release at the end, around what is done with the
    answer: a computation that only reads the state. *)
Lemma wp_confirm_release {A B} idx timeout p1 w w0 (use : Z -> M (world E) A)
    (f : Z -> A -> B) (R : Z -> A -> Prop) Q :
  w = World p1 (kernel w0) -> port_wf (port w0) -> port_wf p1 -> buf_index idx ->
  chosen_index (port w0) idx -> stack p1 = stat_put idx EC_BUF_ALLOC (stack (port w0)) ->
  built idx p1 -> 0 <= timeout -> fuel_for (u32 timeout * 1000) ->
  (forall wkc w', rc_range wkc -> port_wf (port w') -> exists a, use wkc w' = Ok (a, w') /\ R wkc a) ->
  (forall wkc a w', rc_range wkc -> R wkc a -> releases w0 w' -> Q (f wkc a) w') ->
  wp F (let* wkc := ecx_srconfirm idx timeout in
        let* a := use wkc in
        do* ecx_setbufstat idx EC_BUF_EMPTY in
        ret (f wkc a)) Q w.
Proof.
  intros -> Hp0 Hp1 Hi Hch Hst Hb Hto Hf Huse HQ.
  apply wp_bind. eapply (wp_srconfirm F idx timeout p1 (clock_now (kernel w0)));
    [ | done | done | done | done | done |].
  { split_and!; [done | apply port_evolves_refl | cbn; lia]. }
  intros wkc w1 Hrc Hw1. pose proof Hw1 as (Hpw & He & Hck).
  destruct (Huse wkc w1 Hrc Hpw) as (a & Hua & HR).
  apply wp_bind. eapply wp_ok; [exact Hua|].
  apply wp_bind, wp_setbufstat; [done..|]. apply wp_ret, (HQ wkc); [done | done |].
  cbn [port]. split.
  { apply port_wf_set_stats; [done | done |]. unfold in_flight. ec_unfold. lia. }
  split; [done|]. exists idx. destruct (set_stats_fields idx EC_BUF_EMPTY (port w1)) as (_&_&_&_&_&_&Hs).
  pose proof (wf_stack _ Hpw) as Hws. split; [done|].
  cbn [port]. rewrite Hs.
  split; [rewrite bufstat_put by done; by rewrite decide_True|].
  intros i Hne. rewrite bufstat_put by done. rewrite decide_False by congruence.
  destruct (pe_stack _ _ _ He 0 (stack p1) eq_refl) as (s' & Hs' & Hev). injection Hs' as <-.
  assert (Hi1 : bufstat (stack p1) i = bufstat (stack (port w0)) i).
  { rewrite Hst, bufstat_put by (done || apply Hp0). by rewrite decide_False by congruence. }
  destruct (ev_others _ _ _ Hev i Hne) as [[E1 _]|[E1 E2]]; [left | right]; rewrite <- Hi1; auto.
Qed.

(** Copying the answer to the caller's buffer. *)
Lemma copy_rx_to_data_ok idx off length data w :
  port_wf (port w) -> buf_index idx -> 0 <= off -> 0 <= length -> off + length <= EC_BUFSIZE ->
  length <= zlen data ->
  exists data' b src, copy_rx_to_data idx off length data w = Ok (data', w)
    /\ zget (rxbuf (stack (port w))) idx = Some b /\ zslice b off length = Some src
    /\ zblit data 0 src = Some data'.
Proof.
  intros Hp Hi Ho Hl Hol Hd. pose proof (wf_stack _ Hp) as Hws.
  destruct (buf_lookup _ _ idx (wf_rxbuf _ Hws) (wf_rxbufs _ Hws) Hi) as (b & Hb & [[Hbl _] _]).
  unfold is_buf in Hbl.
  destruct (zslice b off length) as [src|] eqn:Hsrc; [|rewrite zslice_some in Hsrc by lia; done].
  pose proof (zslice_length _ _ _ _ Hsrc) as Hsl.
  destruct (zblit data 0 src) as [data'|] eqn:Hd'; [|rewrite zblit_some in Hd' by lia; done].
  exists data', b, src. split_and!; try done.
  unfold copy_rx_to_data, read_rxbuf, bind, pget, gets, oob, of_opt, ret.
  rewrite Hb. cbn. rewrite Hsrc. cbn. by rewrite Hd'.
Qed.

(** The two shapes of the transfers of ec_base.c. *)
Definition read_transfer (com ADP ADO length : Z) (data : list Z) (timeout : Z)
    : M (world E) (Z * list Z) :=
  let* idx := ecx_getindex in
  let* _r := ecx_setupdatagram (TxBuf idx) com idx ADP ADO length data in
  let* wkc := ecx_srconfirm idx timeout in
  let* data := (if 0 <? wkc then copy_rx_to_data idx EC_HEADERSIZE length data
                else ret data) in
  do* ecx_setbufstat idx EC_BUF_EMPTY in
  ret (wkc, data).

Definition write_transfer (com ADP ADO length : Z) (data : list Z) (timeout : Z)
    : M (world E) Z :=
  let* idx := ecx_getindex in
  let* _r := ecx_setupdatagram (TxBuf idx) com idx ADP ADO length data in
  let* wkc := ecx_srconfirm idx timeout in
  do* ecx_setbufstat idx EC_BUF_EMPTY in
  ret wkc.

(** The data of a read: unchanged without a work counter, otherwise [length] bytes
    have been replaced. *)
Definition read_result (length : Z) (data : list Z) (wkc : Z) (data' : list Z) : Prop :=
  (wkc <= 0 -> data' = data)
  /\ (0 < wkc -> exists src, zlen src = length /\ bytes_ok src /\ zblit data 0 src = Some data').

Lemma wp_read_transfer com ADP ADO length data timeout w :
  port_wf (port w) -> 0 <= length <= EC_BUFSIZE - 28 -> length <= zlen data ->
  0 <= timeout -> fuel_for (u32 timeout * 1000) ->
  wp F (read_transfer com ADP ADO length data timeout)
    (fun r w' => rc_range r.1 /\ read_result length data r.1 r.2
       /\ releases w w') w.
Proof.
  intros Hp Hl Hd Hto Hf. unfold read_transfer.
  apply wp_alloc_setup; [done | split; [lia|done] | lia |].
  intros idx p1 Hi Hch Hp1 Hst Hlen _.
  eapply (wp_confirm_release idx timeout p1 _ w _ _ (read_result length data));
    [done.. | | done | done | |].
  - eexists. split; [done|]. unfold frame_length. ec_unfold. lia.
  - intros wkc w' _ Hpw. unfold read_result. destruct (Z.ltb_spec 0 wkc) as [Hw|Hw].
    + destruct (copy_rx_to_data_ok idx EC_HEADERSIZE length data w' Hpw Hi)
        as (d & b & src & Hd' & Hb & Hsrc & Hz); [ec_unfold; lia..|].
      exists d. split; [done|]. split; [lia|]. intros _. exists src.
      split_and!; [by eapply zslice_length | | done].
      eapply bytes_ok_zslice; [|exact Hsrc]. pose proof (wf_stack _ Hpw) as Hws.
      destruct (Forall_zget _ _ _ _ (wf_rxbufs _ Hws) Hb) as [[_ ?] _]. done.
    + exists data. split; [done|]. split; [done | lia].
  - done.
Qed.

Lemma wp_write_transfer com ADP ADO length data timeout w :
  port_wf (port w) -> 0 <= length <= EC_BUFSIZE - 28 -> length <= zlen data ->
  0 <= timeout -> fuel_for (u32 timeout * 1000) ->
  wp F (write_transfer com ADP ADO length data timeout)
    (fun r w' => rc_range r /\ releases w w') w.
Proof.
  intros Hp Hl Hd Hto Hf. unfold write_transfer.
  apply wp_alloc_setup; [done | split; [lia|done] | lia |].
  intros idx p1 Hi Hch Hp1 Hst Hlen _.
  refine (wp_confirm_release idx timeout p1 _ w (fun _ => ret tt) (fun wkc _ => wkc)
    (fun _ _ => True) _ eq_refl _ _ _ _ _ _ _ _ _ _); try done.
  - eexists. split; [done|]. unfold frame_length. ec_unfold. lia.
  - intros wkc w' _ _. by exists tt.
Qed.
End Transfer.
