(* ===== verification/TransferTheorems.v ===== *)
(** * Properties of datagrams and transfers

    The claims about frames that are built and transfers that are carried out, with their
    witnesses on the simulated kernel of Sim.v. *)

From S2P Require Import Prelude Ring Types Osal Nicdrv Datagram PortWf NicRecv.
From S2P Require Import DatagramSpec Transfer Sim.

(** ** Frames of several datagrams *)

Record request : Type := Request {
  rq_com : Z; rq_ADP : Z; rq_ADO : Z; rq_length : Z; rq_data : list Z;
}.
Definition request_ok (r : request) : Prop := data_ok (rq_com r) (rq_length r) (rq_data r).
Definition want (idx : Z) (r : request) : datagram :=
  requested (rq_com r) idx (rq_ADP r) (rq_ADO r) (rq_length r) (rq_data r).
Definition total_size (rs : list request) : Z := foldr (fun r n => 12 + rq_length r + n) 0 rs.

Lemma total_size_nonneg rs : Forall request_ok rs -> 0 <= total_size rs.
Proof.
  induction 1 as [|x l [Hx _] _ IH]; cbn; [lia|]. fold (total_size l) in *. lia.
Qed.

(** Offsets of the data of datagrams in the received frame, the first one at [off]. *)
Fixpoint data_offsets (off : Z) (ds : list datagram) : list Z :=
  match ds with
  | [] => []
  | d :: r => off + 10 :: data_offsets (off + dg_size d) r
  end.

Section Frames.
Context {E : Type} `{OS E} `{LoopFuel}.

(** A frame as [ecx_FPRD_multi] and [ecx_LRWDC] build it: the offsets of the data. *)
Fixpoint append_all (idx : Z) (rs : list request) : M (world E) (list Z) :=
  match rs with
  | [] => ret []
  | r :: rs' =>
      let* pos := ecx_adddatagram (TxBuf idx) (rq_com r) idx (bool_decide (rs' <> []))
                    (rq_ADP r) (rq_ADO r) (rq_length r) (rq_data r) in
      let* ps := append_all idx rs' in
      ret (pos :: ps)
  end.
Definition build_frame (idx : Z) (r : request) (rs : list request) : M (world E) (list Z) :=
  let* _r := ecx_setupdatagram (TxBuf idx) (rq_com r) idx (rq_ADP r) (rq_ADO r)
               (rq_length r) (rq_data r) in
  let* ps := append_all idx rs in
  ret (EC_HEADERSIZE :: ps).

Lemma linked_snoc_true (dms : list (datagram * bool)) d :
  Forall (fun dm => dm.2 = true) dms -> linked (dms ++ [(d, false)]).
Proof.
  induction 1 as [|[d0 m0] dms Hm _ IH]; [done|]. cbn in *. subst m0.
  destruct dms as [|[d1 m1] dms]; [done | by split].
Qed.

Lemma mark_first_fst dms : (mark_first dms).*1 = dms.*1.
Proof. by destruct dms as [|[d m] dms]. Qed.
Lemma mark_first_size dms : chain_size (mark_first dms) = chain_size dms.
Proof. by destruct dms as [|[d m] dms]. Qed.

Lemma wp_append_all F idx : forall rs b dms p e (Q : list Z -> world E -> Prop),
  port_wf p -> buf_index idx -> is_buf b -> Forall request_ok rs ->
  frame_bytes b dms -> dms <> [] -> Forall (fun dm => dm.2 = true) (tl dms) -> rs <> [] ->
  16 + chain_size dms + total_size rs <= EC_BUFSIZE ->
  (forall b' dms', is_buf b' -> zslice b' 0 14 = zslice b 0 14 -> frame_bytes b' dms' ->
     linked dms' -> dms'.*1 = dms.*1 ++ (want idx <$> rs) ->
     chain_size dms' = chain_size dms + total_size rs ->
     Q (data_offsets (2 + chain_size dms) (want idx <$> rs))
       (World (put_tx idx b' (16 + chain_size dms') p) e)) ->
  wp F (append_all idx rs) Q (World (put_tx idx b (16 + chain_size dms) p) e).
Proof.
  induction rs as [|r rs IH]; intros b dms p e Q Hp Hi Hb Hrs Hfb Hne Htl Hrs0 Hsz HQ; [done|].
  inversion Hrs as [|? ? Hr Hrs']; subst. cbn [total_size foldr] in *. fold (total_size rs) in *.
  assert (Hrl : 0 <= rq_length r) by apply Hr.
  pose proof (total_size_nonneg _ Hrs') as Hts.
  pose proof (zlen_wire_data _ _ _ Hr) as Hwl.
  assert (Hdg : dg_size (want idx r) = 12 + rq_length r) by (unfold dg_size; cbn; by rewrite Hwl).
  cbn [append_all]. apply wp_bind.
  apply wp_adddatagram; [done..| lia |]. intros b' Hb' Heth Hfb'.
  fold (want idx r) in Hfb'. set (more := bool_decide (rs <> [])) in *.
  set (dms1 := mark_first dms ++ [(want idx r, more)]) in *.
  assert (Hcs : chain_size dms1 = chain_size dms + 12 + rq_length r).
  { subst dms1. rewrite chain_size_app, mark_first_size. cbn [chain_size]. lia. }
  assert (Hall : Forall (fun dm => dm.2 = true) (mark_first dms)).
  { destruct dms as [|[d0 m0] dms]; [done|]. by constructor. }
  assert (Hfst : dms1.*1 = dms.*1 ++ [want idx r]).
  { subst dms1. rewrite fmap_app, mark_first_fst. done. }
  assert (Hpos : 12 + chain_size dms = 2 + chain_size dms + 10) by lia.
  replace (16 + chain_size dms + 12 + rq_length r) with (16 + chain_size dms1) by lia.
  apply wp_bind. destruct (decide (rs = [])) as [->|Hrsne].
  - cbn [append_all]. do 2 apply wp_ret. rewrite Hpos.
    apply (HQ b' dms1); [done | done | done | | done | cbn; lia].
    subst dms1 more. rewrite bool_decide_eq_false_2 by naive_solver. by apply linked_snoc_true.
  - eapply IH; [done | done | done | done | exact Hfb' | | | done | lia |].
    + subst dms1. by destruct (mark_first dms).
    + subst dms1 more. rewrite bool_decide_eq_true_2 by done.
      destruct dms as [|[d0 m0] dms]; [done|]. cbn [mark_first tl app] in *.
      apply Forall_app. split; [done|]. by repeat constructor.
    + intros b2 dms2 Hb2 Heth2 Hfb2 Hl2 Hf2 Hc2. apply wp_ret.
      rewrite Hpos. replace (2 + chain_size dms1) with (2 + chain_size dms + dg_size (want idx r)) by lia.
      apply (HQ b2 dms2); [done | congruence | done | done | | lia].
      rewrite Hf2, Hfst, <- app_assoc. done.
Qed.
End Frames.

(** C3: A frame built from a first datagram and any number of appended ones, each but
    the last announcing a successor, decodes by the format's reference reading to
    exactly the requested datagrams; its recorded length is that of the frame, its
    ethernet header is untouched, the port stays well formed, and the offsets returned
    are those of the data in the received frame. *)
Theorem built_frame_decodes {E} `{OS E} `{LoopFuel} (w : world E) (idx : Z) (r : request)
    (rs : list request) (b0 : list Z) :
  port_wf (port w) -> buf_index idx -> Forall request_ok (r :: rs) ->
  16 + total_size (r :: rs) <= EC_BUFSIZE -> zget (txbuf (port w)) idx = Some b0 ->
  wp no_fault (build_frame idx r rs)
    (fun ps w' => exists b len, port_wf (port w') /\ kernel w' = kernel w
       /\ zget (txbuf (port w')) idx = Some b /\ zget (txbuflength (port w')) idx = Some len
       /\ read_frame_ref b len = Some (want idx <$> r :: rs)
       /\ len = 16 + total_size (r :: rs)
       /\ zslice b 0 14 = zslice b0 0 14
       /\ ps = data_offsets 2 (want idx <$> r :: rs)) w.
Proof.
  intros Hp Hi Hrs Hsz Hb0. destruct w as [p e]. cbn [port kernel] in *.
  inversion Hrs as [|? ? Hr Hrs']; subst.
  assert (Hrl : 0 <= rq_length r) by apply Hr.
  pose proof (total_size_nonneg _ Hrs') as Hts.
  cbn [total_size foldr] in *. fold (total_size rs) in *.
  pose proof (zlen_wire_data _ _ _ Hr) as Hwl.
  destruct (put_tx_id idx p Hp Hi) as (b & len & Hb & _ & Heq & Hg & _).
  assert (b = b0) as <- by congruence. rewrite Heq. unfold build_frame.
  apply wp_bind, wp_setupdatagram; [done.. | ec_unfold; lia |]. intros b1 Hb1 Heth Hfb.
  fold (want idx r) in Hfb.
  assert (Hdg : dg_size (want idx r) = 12 + rq_length r) by (unfold dg_size; cbn; by rewrite Hwl).
  set (dms := [(want idx r, false)]) in *.
  assert (Hcs : chain_size dms = 12 + rq_length r) by (unfold dms; cbn [chain_size]; lia).
  replace (28 + rq_length r) with (16 + chain_size dms) by lia.
  assert (Hfin : forall ps b2 dms2, is_buf b2 -> frame_bytes b2 dms2 -> linked dms2 ->
    dms2.*1 = want idx <$> r :: rs -> chain_size dms2 = 12 + rq_length r + total_size rs ->
    zslice b2 0 14 = zslice b 0 14 -> ps = data_offsets 2 (want idx <$> r :: rs) ->
    exists b' len', port_wf (put_tx idx b2 (16 + chain_size dms2) p) /\ e = e
      /\ zget (txbuf (put_tx idx b2 (16 + chain_size dms2) p)) idx = Some b'
      /\ zget (txbuflength (put_tx idx b2 (16 + chain_size dms2) p)) idx = Some len'
      /\ read_frame_ref b' len' = Some (want idx <$> r :: rs)
      /\ len' = 16 + (12 + rq_length r + total_size rs)
      /\ zslice b' 0 14 = zslice b 0 14 /\ ps = data_offsets 2 (want idx <$> r :: rs)).
  { intros ps b2 dms2 Hb2 Hfb2 Hl2 Hf2 Hc2 He2 Hps. exists b2, (16 + chain_size dms2).
    destruct (zget_put_tx idx b2 (16 + chain_size dms2) p Hp Hi) as [? ?].
    split_and!; [ | done | done | done | | lia | done | done].
    - apply port_wf_put_tx; [done..|]. unfold frame_length. ec_unfold. lia.
    - rewrite <- Hf2. apply read_frame_bytes; [done..| lia]. }
  apply wp_bind. destruct (decide (rs = [])) as [->|Hne].
  - cbn [append_all]. do 2 apply wp_ret. apply (Hfin _ b1 dms); try done. cbn in *. lia.
  - eapply wp_append_all; [done | done | done | done | exact Hfb | done | done | done | lia |].
    intros b2 dms2 Hb2 He2 Hfb2 Hl2 Hf2 Hc2. apply wp_ret. cbn [port kernel].
    apply Hfin; [done | done | done | done | lia | congruence |].
    cbn [fmap list_fmap data_offsets]. f_equal. f_equal. lia.
Qed.

#[local] Existing Instance sim_os.
#[local] Instance fuel_big : LoopFuel := Z.to_nat 5000000.

Lemma fuel_big_ok n : n < 5000000 -> fuel_for n.
Proof. intros Hn. unfold fuel_for, loop_fuel, fuel_big. ec_unfold. lia. Qed.

Definition two_reads : list request :=
  [Request EC_CMD_FPRD 0x1001 ECT_REG_ALSTAT 6 (replicate 6 0);
   Request EC_CMD_FRMW 0x1001 ECT_REG_DCSYSTIME 8 (replicate 8 1)].

Lemma built_frame_decodes_witness :
  Forall request_ok two_reads
  /\ wp no_fault (build_frame (E := sim) 3 (Request EC_CMD_BWR 0 ECT_REG_ALCTL 2 [1; 0]) two_reads)
       (fun ps _ => ps = [12; 26; 44]) (World port0 sim0).
Proof.
  assert (Hok : Forall request_ok two_reads).
  { repeat constructor; unfold zlen; cbn; try lia; discriminate. }
  split; [exact Hok|].
  eapply wp_mono.
  { apply (built_frame_decodes (World port0 sim0) 3 _ two_reads (replicate 1518 0));
      [exact port0_wf | done | | vm_compute; discriminate | reflexivity].
    constructor; [|exact Hok]. split; [cbn; lia | done]. }
  intros ps w' (b & len & _ & _ & _ & _ & _ & _ & _ & ->). reflexivity.
Defined.

(** C18: A blocking exchange always comes back, whatever frames arrive or fail to, on a
    network that keeps [NetLaws]: packets have 60 bytes at least and a length field that points
    into the receive buffer.  With a clock that advances and fuel for the timeout, the
    result is a work counter, [EC_NOFRAME] or [EC_OTHERFRAME], the port stays well
    formed, and the buffers of all other callers keep their frames or receive the one
    they wait for. *)
Theorem srconfirm_comes_back {E} `{OS E} `{LoopFuel} `{!NetLaws E} `{!ClockLaws E}
    (w : world E) (idx timeout : Z) :
  port_wf (port w) -> buf_index idx -> built idx (port w) -> 0 <= timeout ->
  fuel_for (u32 timeout * 1000) ->
  wp no_fault (ecx_srconfirm idx timeout)
    (fun rc w' => rc_range rc /\ port_wf (port w') /\ port_evolves idx (port w) (port w')) w.
Proof.
  intros Hp Hi Hb Hto Hf.
  eapply (wp_srconfirm no_fault idx timeout (port w) (clock_now (kernel w))); [ | done.. |].
  - split_and!; [done | apply port_evolves_refl | lia].
  - intros rc w' Hrc (Hp' & He & _). done.
Qed.

Lemma srconfirm_comes_back_witness :
  built 3 (port0 <| txbuflength := replicate 16 28 |>)
  /\ wp no_fault (ecx_srconfirm 3 EC_TIMEOUTRET) (fun rc _ => rc_range rc)
       (World (port0 <| txbuflength := replicate 16 28 |>) sim0).
Proof.
  assert (Hb : built 3 (port0 <| txbuflength := replicate 16 28 |>)).
  { exists 28. split; [reflexivity|]. unfold frame_length. ec_unfold. lia. }
  split; [exact Hb|]. eapply wp_mono.
  { apply (srconfirm_comes_back (World (port0 <| txbuflength := replicate 16 28 |>) sim0) 3
             EC_TIMEOUTRET); [ | done | exact Hb | done | apply fuel_big_ok; reflexivity].
    pose proof port0_wf as []. split; try done.
    - apply Forall_replicate. ec_unfold. lia.
    - intros i st n Hst _. apply zget_replicate in Hst. subst st. unfold in_flight. ec_unfold. lia. }
  intros rc w' [Hrc _]. exact Hrc.
Defined.

(** The blocking reads (broadcast, auto increment, configured, and the two
    read-multiple-write commands) never go out of bounds and always end: without a
    positive work counter the caller's data are unchanged, with one exactly [length]
    bytes of them have been replaced by received ones; and the frame index they
    allocate is released, the other callers' frames being kept. *)
Theorem reads_end_and_release {E} `{OS E} `{LoopFuel} `{!NetLaws E} `{!ClockLaws E}
    rd (w : world E) (ADP ADO length timeout : Z) (data : list Z) :
  rd ∈ [ecx_BRD; ecx_APRD; ecx_FPRD; ecx_ARMW; ecx_FRMW] ->
  port_wf (port w) -> 0 <= length <= EC_BUFSIZE - 28 -> length <= zlen data ->
  0 <= timeout -> fuel_for (u32 timeout * 1000) ->
  wp no_fault (rd ADP ADO length data timeout)
    (fun r w' => rc_range r.1 /\ read_result length data r.1 r.2
       /\ releases w w') w.
Proof.
  intros Hrd Hp Hl Hd Hto Hf. revert Hrd.
  rewrite !elem_of_cons. intros [->|[->|[->|[->|[->|Hrd]]]]]; [..|by apply elem_of_nil in Hrd].
  - by apply (wp_read_transfer no_fault EC_CMD_BRD).
  - by apply (wp_read_transfer no_fault EC_CMD_APRD).
  - by apply (wp_read_transfer no_fault EC_CMD_FPRD).
  - by apply (wp_read_transfer no_fault EC_CMD_ARMW).
  - by apply (wp_read_transfer no_fault EC_CMD_FRMW).
Qed.

Lemma reads_end_and_release_witness :
  port_wf port0
  /\ wp no_fault (ecx_FPRD 0x1001 ECT_REG_ALSTAT 2 [0; 0] EC_TIMEOUTRET)
       (fun r w' => rc_range r.1 /\ releases (World port0 sim0) w') (World port0 sim0).
Proof.
  split; [exact port0_wf|]. eapply wp_mono.
  { apply (reads_end_and_release ecx_FPRD (World port0 sim0) 0x1001 ECT_REG_ALSTAT 2 EC_TIMEOUTRET
             [0; 0]); [ | exact port0_wf | ec_unfold; lia | vm_compute; discriminate | done
             | apply fuel_big_ok; reflexivity].
    rewrite !elem_of_cons. auto. }
  intros r w' (Hr & _ & Hrel). by split.
Defined.

(** The blocking writes always end without going out of bounds, and release the
    frame index they allocate. *)
Theorem writes_end_and_release {E} `{OS E} `{LoopFuel} `{!NetLaws E} `{!ClockLaws E}
    wr (w : world E) (ADP ADO length timeout : Z) (data : list Z) :
  wr ∈ [ecx_BWR; ecx_APWR; ecx_FPWR] ->
  port_wf (port w) -> 0 <= length <= EC_BUFSIZE - 28 -> length <= zlen data ->
  0 <= timeout -> fuel_for (u32 timeout * 1000) ->
  wp no_fault (wr ADP ADO length data timeout)
    (fun r w' => rc_range r /\ releases w w') w.
Proof.
  intros Hwr Hp Hl Hd Hto Hf. revert Hwr.
  rewrite !elem_of_cons. intros [->|[->|[->|Hwr]]]; [..|by apply elem_of_nil in Hwr].
  - by apply (wp_write_transfer no_fault EC_CMD_BWR).
  - by apply (wp_write_transfer no_fault EC_CMD_APWR).
  - by apply (wp_write_transfer no_fault EC_CMD_FPWR).
Qed.

Lemma writes_end_and_release_witness :
  port_wf port0
  /\ wp no_fault (ecx_FPWR 0x1001 ECT_REG_ALCTL 2 [1; 0] EC_TIMEOUTRET)
       (fun r w' => rc_range r /\ releases (World port0 sim0) w') (World port0 sim0).
Proof.
  split; [exact port0_wf|].
  apply (writes_end_and_release ecx_FPWR (World port0 sim0) 0x1001 ECT_REG_ALCTL 2 EC_TIMEOUTRET
           [1; 0]); [ | exact port0_wf | ec_unfold; lia | vm_compute; discriminate | done
           | apply fuel_big_ok; reflexivity].
  rewrite !elem_of_cons. auto.
Defined.
