(* ===== verification/LinkSpec.v ===== *)
(** * What the datagram layer promises to the functions above it

    The laws of the class [EcLink], the rules they give for computations on the context,
    and the proof that the port and the kernel keep them; and a link that answers from an
    oracle. *)

From S2P Require Import Prelude Osal Types Nicdrv Datagram ErrorRing Mailbox Context Link PortWf NicRecv.
From S2P Require Import Transfer.

(** A total computation also satisfies every weaker judgement. *)
Lemma wp_total {S A} F (m : M S A) Q s : wp no_fault m Q s -> wp F m Q s.
Proof. unfold wp. destruct (m s) as [[a s']|f]; [done | intros []]. Qed.

(** ** The laws

    [lk_ok] is the well-formedness of the link, [lk_now] its clock in nanoseconds and
    [lk_patient usec] says that a transfer with this timeout ends. *)

Class LinkLaws (L : Type) `{EcLink L} : Type := {
  lk_ok : L -> Prop;
  lk_now : L -> Z;
  lk_patient : Z -> Prop;
  law_read : forall rd ADP ADO length data timeout l,
    rd ∈ [lk_BRD; lk_APRD; lk_FPRD] -> lk_ok l -> lk_patient timeout ->
    0 <= length <= EC_BUFSIZE - 28 -> length <= zlen data ->
    wp no_fault (rd ADP ADO length data timeout)
      (fun r l' => rc_range r.1 /\ read_result length data r.1 r.2
         /\ lk_ok l' /\ lk_now l <= lk_now l') l;
  law_write : forall wr ADP ADO length data timeout l,
    wr ∈ [lk_BWR; lk_APWR; lk_FPWR] -> lk_ok l -> lk_patient timeout ->
    0 <= length <= EC_BUFSIZE - 28 -> length <= zlen data ->
    wp no_fault (wr ADP ADO length data timeout)
      (fun r l' => rc_range r /\ lk_ok l' /\ lk_now l <= lk_now l') l;
  law_timer_start : forall usec l, lk_ok l ->
    wp no_fault (lk_timer_start usec)
      (fun t l' => ns t = lk_now l + u32 usec * 1000 /\ ts_normal t
         /\ lk_ok l' /\ lk_now l < lk_now l') l;
  law_timer_is_expired : forall t l, lk_ok l -> ts_normal t ->
    wp no_fault (lk_timer_is_expired t)
      (fun b l' => b = (ns t <=? lk_now l) /\ lk_ok l' /\ lk_now l < lk_now l') l;
  law_usleep : forall usec l, lk_ok l ->
    wp no_fault (lk_usleep usec) (fun _ l' => lk_ok l' /\ lk_now l <= lk_now l') l;
  law_current_time : forall l, lk_ok l ->
    wp no_fault lk_current_time (fun _ l' => lk_ok l' /\ lk_now l <= lk_now l') l;
}.

(** The port and the kernel keep them. *)
Section WorldLaws.
Context {E : Type} `{OS E} `{LoopFuel} `{!NetLaws E} `{!ClockLaws E}.

Lemma kern_wp {A} (m : M E A) (Q : A -> E -> Prop) (w : world E) :
  wp no_fault m Q (kernel w) ->
  wp no_fault (kern m) (fun a w' => port w' = port w /\ Q a (kernel w')) w.
Proof. intros Hm. apply wp_kern. eapply wp_mono; [exact Hm|]. done. Qed.

#[export] Instance world_laws : LinkLaws (world E).
Proof.
  refine {| lk_ok w := port_wf (port w); lk_now w := clock_now (kernel w);
            lk_patient timeout := 0 <= timeout /\ fuel_for (u32 timeout * 1000) |}.
  - intros rd ADP ADO length data timeout w Hrd Hw [Hto Hf] Hl Hd. rewrite !elem_of_cons in Hrd.
    destruct Hrd as [->|[->|[->|Hrd]]]; [..|by apply elem_of_nil in Hrd].
    all: eapply wp_mono; [by apply (wp_read_transfer no_fault)|].
    all: intros r w' (Hrc & Hr & Hp & Hn & _); done.
  - intros wr ADP ADO length data timeout w Hwr Hw [Hto Hf] Hl Hd. rewrite !elem_of_cons in Hwr.
    destruct Hwr as [->|[->|[->|Hwr]]]; [..|by apply elem_of_nil in Hwr].
    all: eapply wp_mono; [by apply (wp_write_transfer no_fault)|].
    all: intros r w' (Hrc & Hp & Hn & _); done.
  - intros usec w Hw. eapply wp_mono; [apply kern_wp, timer_start_spec|].
    cbn. intros t w' (-> & ? & ? & ?). done.
  - intros t w Hw Ht. eapply wp_mono; [apply kern_wp, (timer_expired_spec t _ Ht)|].
    cbn. intros b w' (-> & ? & ?). done.
  - intros usec w Hw. eapply wp_mono; [apply (kern_wp _ (fun _ e => clock_now (kernel w) <= clock_now e))|].
    { unfold osal_usleep. apply wp_bind, wp_syscall, wp_ret.
      exact (clock_nanosleep (osal_timespec_from_usec (u32 usec)) (kernel w)). }
    cbn. intros b w' (-> & ?). done.
  - intros w Hw. eapply wp_mono; [apply (kern_wp _ (fun _ e => clock_now (kernel w) <= clock_now e))|].
    { apply wp_syscall. apply clock_realtime. }
    cbn. intros b w' (-> & ?). done.
Defined.
End WorldLaws.

(** ** Computations on the context that only use the link *)

Section Rules.
Context {L : Type} `{HL : LinkLaws L} (F : fault -> Prop).
Abbreviation ctx := (ecx_contextt L).
Implicit Types c : ctx.

(** Only the link has changed, and it is as good as before. *)
Record link_step c c' : Prop := LinkStep {
  ls_same : c' = c <| link := link c' |>;
  ls_ok : lk_ok (link c');
  ls_now : lk_now (link c) <= lk_now (link c');
}.

Lemma link_step_refl c : lk_ok (link c) -> link_step c c.
Proof. intros. split; [by destruct c | done | lia]. Qed.

Lemma link_step_trans c1 c2 c3 : link_step c1 c2 -> link_step c2 c3 -> link_step c1 c3.
Proof.
  intros [H1 _ N1] [H2 O2 N2]. split; [|done | lia].
  rewrite H2, H1 at 1. by destruct c1.
Qed.

Lemma wp_onlink {A} (m : M L A) (P : A -> L -> Prop) Q c :
  wp no_fault m P (link c) ->
  (forall a l, P a l -> Q a (c <| link := l |>)) -> wp F (onlink m) Q c.
Proof. intros Hm HQ. apply wp_zoom, wp_total. eapply wp_mono; [exact Hm|]. done. Qed.

Lemma link_stepped c l : lk_ok l -> lk_now (link c) <= lk_now l -> link_step c (c <| link := l |>).
Proof. intros. split; cbn; [by destruct c | done | done]. Qed.

Lemma wp_ctx_read rd ADP ADO length data timeout Q c :
  rd ∈ [lk_BRD; lk_APRD; lk_FPRD] -> lk_ok (link c) -> lk_patient timeout ->
  0 <= length <= EC_BUFSIZE - 28 -> length <= zlen data ->
  (forall r c', rc_range r.1 -> read_result length data r.1 r.2 -> link_step c c' -> Q r c') ->
  wp F (onlink (rd ADP ADO length data timeout)) Q c.
Proof.
  intros Hrd Hc Hp Hl Hd HQ. eapply wp_onlink; [by apply law_read|].
  intros r l (Hr & Hres & Ho & Hn). apply HQ; [done..|]. by apply link_stepped.
Qed.

Lemma wp_ctx_write wr ADP ADO length data timeout Q c :
  wr ∈ [lk_BWR; lk_APWR; lk_FPWR] -> lk_ok (link c) -> lk_patient timeout ->
  0 <= length <= EC_BUFSIZE - 28 -> length <= zlen data ->
  (forall r c', rc_range r -> link_step c c' -> Q r c') ->
  wp F (onlink (wr ADP ADO length data timeout)) Q c.
Proof.
  intros Hwr Hc Hp Hl Hd HQ. eapply wp_onlink; [by apply law_write|].
  intros r l (Hr & Ho & Hn). apply HQ; [done|]. by apply link_stepped.
Qed.

Lemma wp_ctx_usleep usec Q c :
  lk_ok (link c) -> (forall c', link_step c c' -> Q tt c') -> wp F (ctx_usleep usec) Q c.
Proof.
  intros Hc HQ. apply wp_bind. eapply wp_onlink; [by apply law_usleep|].
  intros r l [Ho Hn]. apply wp_ret, HQ. by apply link_stepped.
Qed.

Lemma wp_ctx_current_time Q c :
  lk_ok (link c) -> (forall now c', link_step c c' -> Q now c') -> wp F (onlink lk_current_time) Q c.
Proof.
  intros Hc HQ. eapply wp_onlink; [by apply law_current_time|].
  intros r l [Ho Hn]. apply HQ. by apply link_stepped.
Qed.

Lemma wp_ctx_timer_start usec Q c :
  lk_ok (link c) ->
  (forall t c', ts_normal t -> ns t <= lk_now (link c') + u32 usec * 1000 -> link_step c c' -> Q t c') ->
  wp F (onlink (lk_timer_start usec)) Q c.
Proof.
  intros Hc HQ. eapply wp_onlink; [by apply law_timer_start|].
  intros t l (Ht & Hn & Ho & Hlt). apply HQ; [done | cbn; lia | apply link_stepped; [done | lia]].
Qed.

(** The test of a timer at the end of a loop body. *)
Lemma wp_ctx_expired t Q c :
  lk_ok (link c) -> ts_normal t ->
  (forall b c', b = (ns t <=? lk_now (link c)) -> link_step c c' ->
     lk_now (link c) < lk_now (link c') -> Q b c') ->
  wp F (onlink (lk_timer_is_expired t)) Q c.
Proof.
  intros Hc Ht HQ. eapply wp_onlink; [by apply law_timer_is_expired|].
  intros b l (Hb & Ho & Hlt). apply HQ; [done | apply link_stepped; [done | lia] | done].
Qed.

(** A polling loop that goes round only after it found its timer running. *)
Lemma wp_polling {A} (I : A -> ctx -> Prop) (t : ec_timet) (body : A -> M ctx (bool * A)) Q :
  ts_normal t ->
  (forall a c, I a c -> wp F (body a) (fun (r : bool * A) c' =>
     if r.1 then I r.2 c' /\ lk_now (link c) < ns t /\ lk_now (link c) < lk_now (link c')
     else Q r.2 c') c) ->
  forall fuel a c, I a c -> ns t - lk_now (link c) < Z.of_nat fuel -> (0 < fuel)%nat ->
  wp F (do_while fuel body a) Q c.
Proof.
  intros Ht Hbody fuel a c HI Hf Hpos.
  apply (wp_do_while F I (fun _ c => Z.to_nat (ns t - lk_now (link c)))); [|done|lia].
  intros b c1 HI1. eapply wp_mono; [by apply Hbody|].
  intros [[] b'] c2; cbn; [|done]. intros (? & ? & ?). split; [done | lia].
Qed.

Lemma wp_get_slave slave s Q c :
  zget (slavelist c) slave = Some s -> Q s c -> wp F (get_slave slave) Q c.
Proof. intros Hs HQ. apply wp_bind, wp_gets. by eapply wp_of_opt. Qed.

Lemma wp_mod_slave slave s f Q c :
  zget (slavelist c) slave = Some s ->
  Q tt (c <| slavelist := <[Z.to_nat slave := f s]> (slavelist c) |>) ->
  wp F (mod_slave slave f) Q c.
Proof.
  intros Hs HQ. pose proof (zget_lt _ _ _ Hs) as Hlt.
  apply wp_bind, wp_gets, wp_bind. eapply wp_of_opt; [exact Hs|].
  apply wp_bind. eapply wp_of_opt; [by apply zset_some|]. by apply wp_modify.
Qed.

Lemma wp_get_group g gr Q c :
  zget (grouplist c) g = Some gr -> Q gr c -> wp F (get_group g) Q c.
Proof. intros Hs HQ. apply wp_bind, wp_gets. by eapply wp_of_opt. Qed.

Lemma wp_mod_group g gr f Q c :
  zget (grouplist c) g = Some gr ->
  Q tt (c <| grouplist := <[Z.to_nat g := f gr]> (grouplist c) |>) ->
  wp F (mod_group g f) Q c.
Proof.
  intros Hs HQ. pose proof (zget_lt _ _ _ Hs) as Hlt.
  apply wp_bind, wp_gets, wp_bind. eapply wp_of_opt; [exact Hs|].
  apply wp_bind. eapply wp_of_opt; [by apply zset_some|]. by apply wp_modify.
Qed.
End Rules.

(** * A recording link

    A link whose slaves answer reads from a table of registers and which keeps the list of
    writes, for statements about what an operation sends and for witnesses. *)

(** [answer ADP ADO] is the value a slave holds at a register, if it answers. *)
Record oracle (answer : Z -> Z -> option Z) : Type := Oracle {
  or_log : list (Z * Z * list Z);
  or_now : Z;
}.
Arguments Oracle {answer}.
Arguments or_log {answer}.
Arguments or_now {answer}.

Section Oracle.
Context {answer : Z -> Z -> option Z}.
Abbreviation oracle := (oracle answer).

Definition or_tick {A} (a : A) : M oracle A := fun o => Ok (a, o <| or_now ::= Z.add 1000 |>).

Definition or_read (ADP ADO length : Z) (data : list Z) (timeout : Z) : M oracle (Z * list Z) :=
  fun o => match answer ADP ADO with
           | Some v => or_tick (1, le_bytes (Z.to_nat length) v ++ drop (Z.to_nat length) data) o
           | None => or_tick (EC_NOFRAME, data) o
           end.

Definition or_write (ADP ADO length : Z) (data : list Z) (timeout : Z) : M oracle Z :=
  fun o => or_tick 1 (o <| or_log ::= (fun l => l ++ [(ADP, ADO, data)]) |>).

#[export] Instance oracle_link : EcLink oracle := {
  lk_BRD := or_read; lk_BWR := or_write; lk_APRD := or_read; lk_APWR := or_write;
  lk_FPRD := or_read; lk_FPWR := or_write;
  lk_timer_start usec := fun o =>
    let t := or_now o + u32 usec * 1000 in or_tick (TimeSpec (t / 1000000000) (t mod 1000000000)) o;
  lk_timer_is_expired t := fun o => or_tick (ns t <=? or_now o) o;
  lk_usleep _ := or_tick 0;
  lk_current_time := or_tick (TimeSpec 0 0);
}.

Lemma or_read_law ADP ADO length data timeout o : 0 <= length <= zlen data ->
  wp no_fault (or_read ADP ADO length data timeout)
    (fun r o' => rc_range r.1 /\ read_result length data r.1 r.2
       /\ True /\ or_now o <= or_now o') o.
Proof.
  intros Hl. unfold wp, or_read. destruct (answer ADP ADO) as [v|]; cbn.
  - split; [unfold rc_range; ec_unfold; lia|]. split; [|split; [done | lia]].
    split; cbn; [lia|]. intros _. exists (le_bytes (Z.to_nat length) v).
    split; [unfold zlen; rewrite length_le_bytes; lia|]. split; [apply le_bytes_ok|].
    rewrite zblit_some by (unfold zlen in *; rewrite ?length_le_bytes; lia).
    f_equal. rewrite length_le_bytes. cbn. by rewrite take_0.
  - split; [unfold rc_range; ec_unfold; lia|]. split; [|split; [done | lia]].
    split; [done|]. cbn. ec_unfold. lia.
Qed.

#[export] Instance oracle_laws : LinkLaws oracle.
Proof.
  unshelve refine {| lk_ok _ := True; lk_now := or_now; lk_patient _ := True |}.
  - intros rd ADP ADO length data timeout l Hrd _ _ ? ?. rewrite !elem_of_cons in Hrd.
    destruct Hrd as [->|[->|[->|Hrd]]]; [..|by apply elem_of_nil in Hrd].
    all: apply or_read_law; lia.
  - intros wr ADP ADO length data timeout l Hwr _ _ _ _. rewrite !elem_of_cons in Hwr.
    destruct Hwr as [->|[->|[->|Hwr]]]; [..|by apply elem_of_nil in Hwr].
    all: unfold wp; cbn; unfold rc_range; ec_unfold; split_and!; (lia || done).
  - intros usec l _. unfold wp, ns, ts_normal. cbn.
    pose proof (Z.div_mod (or_now l + u32 usec * 1000) 1000000000).
    pose proof (Z.mod_pos_bound (or_now l + u32 usec * 1000) 1000000000). split_and!; lia.
  - intros t l _ _. unfold wp. cbn. split_and!; [done | done | lia].
  - intros usec l _. unfold wp. cbn. split; [done | lia].
  - intros l _. unfold wp. cbn. split; [done | lia].
Defined.

(** A context after a write of [data] and after a read. *)
Definition after_write (ADP ADO : Z) (data : list Z) (c : ecx_contextt oracle) : ecx_contextt oracle :=
  c <| link := (link c) <| or_log ::= (fun l => l ++ [(ADP, ADO, data)]) |> <| or_now ::= Z.add 1000 |> |>.
Definition after_read (c : ecx_contextt oracle) : ecx_contextt oracle :=
  c <| link := (link c) <| or_now ::= Z.add 1000 |> |>.

Lemma wp_or_FPWR F ADP ADO length data timeout Q c :
  Q 1 (after_write ADP ADO data c) -> wp F (ctx_FPWR ADP ADO length data timeout) Q c.
Proof. intros HQ. exact HQ. Qed.

Lemma wp_or_FPRD F ADP ADO length data timeout v Q c :
  answer ADP ADO = Some v -> zlen data = length ->
  Q (1, le_bytes (Z.to_nat length) v) (after_read c) ->
  wp F (ctx_FPRD ADP ADO length data timeout) Q c.
Proof.
  intros Ha Hl HQ. unfold wp, ctx_FPRD, onlink, zoom, lk_FPRD, oracle_link, or_read.
  rewrite Ha. cbn -[le_bytes drop]. rewrite drop_ge, app_nil_r by (unfold zlen in Hl; lia). exact HQ.
Qed.
End Oracle.
