(* ===== verification/EepromSpec.v ===== *)
(** * The EEPROM interface of a slave

    The device behind the EEPROM registers as a state, what its answers promise, and what
    the accesses of Eeprom.v do with such a device. *)

From S2P Require Import Prelude Types Osal ErrorRing Mailbox Context Eeprom NicRecv Transfer LinkSpec.

(** ** The device

    [ee_busy] is the number of status reads the device will still answer with busy, and
    [ee_loss] a budget of transfers that may get lost. *)

Record eedev : Type := EeDev {
  ee_content : Z -> Z;
  ee_addr : Z;
  ee_latch : Z;
  ee_busy : nat;
  ee_loss : nat;
}.

(** [n] bytes of the content from byte address [a]. *)
Definition window (f : Z -> Z) (a : Z) (n : nat) : list Z :=
  (fun i => f (a + Z.of_nat i)) <$> seq 0 n.

(** The content after a word is written at word address [a]. *)
Definition put_word (f : Z -> Z) (a w : Z) (i : Z) : Z :=
  if i =? 2 * a then w mod 256 else if i =? 2 * a + 1 then w / 256 mod 256 else f i.

(** A status word of a healthy device that transfers 8 bytes ([wide]) or 4. *)
Definition status_word (wide : bool) (d : eedev) (st : Z) : Prop :=
  0 <= st < 65536
  /\ match ee_busy d with
     | O => Z.land st EC_ESTAT_BUSY = 0 /\ Z.land st EC_ESTAT_EMASK = 0
            /\ (Z.land st EC_ESTAT_R64 =? 0) = negb wide
     | S _ => Z.land st EC_ESTAT_BUSY <> 0
     end.

(** The slave at station address [adr], behind a link with a clock.  A transfer is done, or
    lost at the cost of the budget; [dv_polls] bounds the status reads the device is busy for.
    A call takes [dv_tick] nanoseconds at most, the sleep between two polls included, and a
    transfer that is lost [dv_late]; the timers are those of the link. *)
Class EepromDevice (L : Type) `{HL : LinkLaws L} (adr : Z) (wide : bool) : Type := {
  dv : L -> eedev;
  dv_polls : nat;
  dv_tick : Z;
  dv_late : Z;
  dv_step l l' d most := dv l' = d /\ lk_ok l' /\ lk_now l <= lk_now l' <= lk_now l + most;
  dv_lost l l' := exists k, ee_loss (dv l) = S k /\ dv_step l l' ((dv l) <| ee_loss := k |>) dv_late;
  dv_tick_pos : 0 <= dv_tick;
  dv_late_pos : 0 <= dv_late;
  law_status : forall l, lk_ok l ->
    wp no_fault (lk_FPRD adr ECT_REG_EEPSTAT 2 [0; 0] EC_TIMEOUTRET) (fun r l' =>
      (r = (EC_NOFRAME, [0; 0]) /\ dv_lost l l')
      \/ (exists st, r = (1, le_bytes 2 st) /\ status_word wide (dv l) st
            /\ dv_step l l' ((dv l) <| ee_busy ::= Nat.pred |>) dv_tick)) l;
  law_data : forall n data l, lk_ok l ->
    ee_busy (dv l) = O -> length data = n -> n = 4%nat \/ n = 8%nat ->
    wp no_fault (lk_FPRD adr ECT_REG_EEPDAT (Z.of_nat n) data EC_TIMEOUTRET) (fun r l' =>
      (r = (EC_NOFRAME, data) /\ dv_lost l l')
      \/ (r = (1, window (ee_content (dv l)) (2 * ee_addr (dv l)) n) /\ dv_step l l' (dv l) dv_tick)) l;
  law_latch : forall w l, lk_ok l -> 0 <= w < 65536 ->
    wp no_fault (lk_FPWR adr ECT_REG_EEPDAT 2 (le_bytes 2 w) EC_TIMEOUTRET) (fun r l' =>
      (r = EC_NOFRAME /\ dv_lost l l')
      \/ (r = 1 /\ dv_step l l' ((dv l) <| ee_latch := w |>) dv_tick)) l;
  law_read_cmd : forall a l, lk_ok l -> 0 <= a < 65536 ->
    wp no_fault (lk_FPWR adr ECT_REG_EEPCTL 6 (eepromt_bytes EC_ECMD_READ a 0) EC_TIMEOUTRET)
      (fun r l' => (r = EC_NOFRAME /\ dv_lost l l')
         \/ (exists b, (b <= dv_polls)%nat /\ r = 1
               /\ dv_step l l' ((dv l) <| ee_addr := a |> <| ee_busy := b |>) dv_tick)) l;
  law_write_cmd : forall a l, lk_ok l -> 0 <= a < 65536 ->
    wp no_fault (lk_FPWR adr ECT_REG_EEPCTL 6 (eepromt_bytes EC_ECMD_WRITE a 0) EC_TIMEOUTRET)
      (fun r l' => (r = EC_NOFRAME /\ dv_lost l l')
         \/ (exists b, (b <= dv_polls)%nat /\ r = 1
               /\ dv_step l l' ((dv l) <| ee_content ::= (fun f => put_word f a (ee_latch (dv l))) |>
                                     <| ee_addr := a |> <| ee_busy := b |>) dv_tick)) l;
  law_cfg : forall v l, lk_ok l ->
    wp no_fault (lk_FPWR adr ECT_REG_EEPCFG 1 [v] EC_TIMEOUTRET) (fun r l' =>
      (r = EC_NOFRAME /\ dv_lost l l') \/ (r = 1 /\ dv_step l l' (dv l) dv_tick)) l;
  law_ee_timer : forall usec l, lk_ok l ->
    wp no_fault (lk_timer_start usec) (fun _ l' => dv_step l l' (dv l) dv_tick) l;
  law_ee_expired : forall t l, lk_ok l -> ts_normal t ->
    wp no_fault (lk_timer_is_expired t) (fun _ l' => dv_step l l' (dv l) dv_tick) l;
  law_ee_usleep : forall usec l, lk_ok l ->
    wp no_fault (lk_usleep usec)
      (fun _ l' => dv_step l l' (dv l) (dv_tick + Z.max 0 (usec - EC_LOCALDELAY) * 1000)) l;
}.

Lemma wp_conj {S A} (m : M S A) (P Q : A -> S -> Prop) s :
  wp no_fault m P s -> wp no_fault m Q s -> wp no_fault m (fun a s' => P a s' /\ Q a s') s.
Proof. unfold wp. destruct (m s) as [[a s']|f]; done. Qed.

Section Retry.
Context {L : Type} `{EcLink L} `{LoopFuel} (F : fault -> Prop).
Implicit Types c : ecx_contextt L.

(** A transfer that is repeated gets through when at most three of them are lost. *)
Lemma wp_retry {A} (op : A -> M (ecx_contextt L) (Z * A)) (I : nat -> A -> ecx_contextt L -> Prop) Q :
  (forall k a c, I k a c -> wp F (op a) (fun r c' =>
     (r.1 <= 0 /\ exists k', k = S k' /\ I k' r.2 c') \/ (0 < r.1 /\ Q r c')) c) ->
  forall k a c, (k <= 3)%nat -> I k a c -> wp F (retry op a) Q c.
Proof.
  intros Hop k a c Hk HI. unfold retry. apply wp_bind.
  pose (J := fun (v : Z * Z * A) c' => exists k, I k v.2 c' /\ 0 <= v.1.1 /\ Z.of_nat k + v.1.1 <= 3).
  eapply (wp_do_while F J (fun v _ => Z.to_nat (3 - v.1.1))); [| | ec_unfold; cbn; lia].
  2: { exists k. cbn. split_and!; [done | lia | lia]. }
  intros [[cnt w] a0] c0 (k0 & HI0 & Hc0 & Hk0). cbn in *. apply wp_bind.
  eapply wp_mono; [by apply Hop|]. intros [w1 a1] c1 [(Hw & k1 & -> & HI1)|(Hw & HQ)]; apply wp_ret; cbn in *.
  - ec_unfold. replace ((w1 <=? 0) && (cnt <? 3)) with true by lia.
    replace (w1 <=? 0) with true by lia. split; [|lia]. exists k1. cbn. split_and!; [done | lia | lia].
  - replace ((w1 <=? 0) && _) with false by lia. apply wp_ret. cbn. done.
Qed.

Lemma wp_retry_wr (op : M (ecx_contextt L) Z) (I : nat -> ecx_contextt L -> Prop) Q :
  (forall k c, I k c -> wp F op (fun r c' =>
     (r <= 0 /\ exists k', k = S k' /\ I k' c') \/ (0 < r /\ Q r c')) c) ->
  forall k c, (k <= 3)%nat -> I k c -> wp F (retry_wr op) Q c.
Proof.
  intros Hop k c Hk HI. unfold retry_wr. apply wp_bind.
  eapply (wp_retry _ (fun k _ c => I k c)); [|done|done].
  intros k0 _ c0 HI0. apply wp_bind. eapply wp_mono; [by apply Hop|].
  intros r c1 [(Hr & k1 & ? & ?)|(Hr & HQ)]; apply wp_ret; cbn; [left; eauto | right].
  split; [done|]. by apply wp_ret.
Qed.
End Retry.

(** ** Accesses on a healthy device *)

Section Device.
Context {L : Type} `{HL : LinkLaws L} `{LoopFuel} (adr : Z) (wide : bool) `{!EepromDevice L adr wide}.
Context (F : fault -> Prop).
Abbreviation ctx := (ecx_contextt L).
Implicit Types c : ctx.
Definition dev (c : ctx) : eedev := dv (link c).

(** Only the link has changed, and of the device only the time it needs. *)
Record quiet c c' : Prop := Quiet {
  qt_same : c' = c <| link := link c' |>;
  qt_ok : lk_ok (link c');
  qt_content : ee_content (dev c') = ee_content (dev c);
  qt_addr : ee_addr (dev c') = ee_addr (dev c);
  qt_latch : ee_latch (dev c') = ee_latch (dev c);
  qt_loss : (ee_loss (dev c') <= ee_loss (dev c))%nat;
}.

Lemma quiet_refl c : lk_ok (link c) -> quiet c c.
Proof. split; try done. by destruct c. Qed.

Lemma quiet_trans c1 c2 c3 : quiet c1 c2 -> quiet c2 c3 -> quiet c1 c3.
Proof.
  intros [H1 O1 C1 A1 T1 S1] [H2 O2 C2 A2 T2 S2]. split; try congruence.
  - rewrite H2, H1 at 1. by destruct c1.
  - lia.
Qed.

(** Only the link has changed, the device is [d] now, and [most] nanoseconds have passed at most. *)
Record goes c (d : eedev) (most : Z) c' : Prop := Goes {
  gs_same : c' = c <| link := link c' |>;
  gs_ok : lk_ok (link c');
  gs_dev : dev c' = d;
  gs_time : lk_now (link c) <= lk_now (link c') <= lk_now (link c) + most;
}.

Lemma goes_quiet c d most c' :
  goes c d most c' -> ee_content d = ee_content (dev c) -> ee_addr d = ee_addr (dev c) ->
  ee_latch d = ee_latch (dev c) -> (ee_loss d <= ee_loss (dev c))%nat -> quiet c c'.
Proof. intros [Hs Ho <- _] *. by split. Qed.

Lemma goes_idle c most c' : goes c (dev c) most c' -> quiet c c'.
Proof. intros Hg. by apply (goes_quiet c (dev c) most). Qed.

Lemma wp_link {A} (m : M L A) (P : A -> L -> Prop) Q c :
  wp no_fault m P (link c) ->
  (forall a l, P a l -> Q a (c <| link := l |>)) -> wp F (onlink m) Q c.
Proof. intros Hm HQ. apply wp_zoom, wp_total. eapply wp_mono; [exact Hm|]. done. Qed.

Lemma dv_step_goes c l d most : dv_step (link c) l d most -> goes c d most (c <| link := l |>).
Proof. intros (Hd & Ho & Ht). split; [by destruct c | done..]. Qed.

Lemma wp_sleep usec Q c : lk_ok (link c) ->
  (forall c', goes c (dev c) (dv_tick + Z.max 0 (usec - EC_LOCALDELAY) * 1000) c' -> Q tt c') ->
  wp F (ctx_usleep usec) Q c.
Proof.
  intros Hok HQ. apply wp_bind. eapply wp_link; [by apply law_ee_usleep|].
  intros r l Hs. apply wp_ret, HQ. by apply dv_step_goes.
Qed.

Definition lost c c' : Prop := exists k, ee_loss (dev c) = S k /\ goes c ((dev c) <| ee_loss := k |>) dv_late c'.

Lemma dv_lost_goes c l : dv_lost (link c) l -> lost c (c <| link := l |>).
Proof. intros (k & Hk & Hs). exists k. split; [done | by apply dv_step_goes]. Qed.

Lemma wp_status Q c : lk_ok (link c) ->
  (forall c', lost c c' -> Q (EC_NOFRAME, [0; 0]) c') ->
  (forall st c', status_word wide (dev c) st -> goes c ((dev c) <| ee_busy ::= Nat.pred |>) dv_tick c' ->
     Q (1, le_bytes 2 st) c') ->
  wp F (ctx_FPRD adr ECT_REG_EEPSTAT 2 [0; 0] EC_TIMEOUTRET) Q c.
Proof.
  intros Hok HL' HQ. eapply wp_link; [by apply law_status|].
  intros r l [[-> Hl]|(st & -> & Hst & Hs)].
  - apply HL'. by apply dv_lost_goes.
  - apply (HQ st); [done | by apply dv_step_goes].
Qed.

Definition idle_word (st : Z) : Prop :=
  Z.land st EC_ESTAT_BUSY = 0 /\ Z.land st EC_ESTAT_EMASK = 0
  /\ (Z.land st EC_ESTAT_R64 =? 0) = negb wide.

(** The time the device may still need: four calls for every status read it is busy, and what a
    lost transfer takes on top. *)
Definition need (d : eedev) : Z :=
  4 * dv_tick * Z.of_nat (ee_busy d) + (dv_late + 4 * dv_tick) * Z.of_nat (ee_loss d).

(** A timeout, in microseconds, that sees the device through: the longest it is busy, and three
    lost transfers. *)
Definition ee_patient (timeout : Z) : Prop :=
  dv_tick + 4 * dv_tick * Z.of_nat dv_polls + 3 * (dv_late + 4 * dv_tick) < u32 timeout * 1000.

Lemma need_pos d : 0 <= need d.
Proof. unfold need. pose proof dv_tick_pos. pose proof dv_late_pos. nia. Qed.
Lemma need_busy d b : ee_busy d = S b -> need (d <| ee_busy := b |>) + 4 * dv_tick = need d.
Proof. unfold need. cbn. intros ->. lia. Qed.
Lemma need_lost d k : ee_loss d = S k -> need (d <| ee_loss := k |>) + dv_late + 4 * dv_tick = need d.
Proof. unfold need. cbn. intros ->. lia. Qed.
Lemma need_most d : (ee_busy d <= dv_polls)%nat -> (ee_loss d <= 3)%nat ->
  need d <= 4 * dv_tick * Z.of_nat dv_polls + 3 * (dv_late + 4 * dv_tick).
Proof. unfold need. pose proof dv_tick_pos. pose proof dv_late_pos. intros. nia. Qed.

(** The time the device needs is less than what is left of the timer, also when [spent]
    nanoseconds of a round are over. *)
Definition in_time (t : ec_timet) (spent : Z) c : Prop := lk_now (link c) + need (dev c) < ns t + spent.

Lemma wp_still_running t Q c :
  lk_ok (link c) -> ts_normal t -> lk_now (link c) < ns t ->
  (forall c', goes c (dev c) dv_tick c' -> Q false c') ->
  wp F (onlink (lk_timer_is_expired t)) Q c.
Proof.
  intros Hok Hn Ht HQ. eapply wp_link.
  { apply wp_conj; [by apply law_ee_expired | by apply law_timer_is_expired]. }
  intros b l (Hs & -> & _). replace (ns t <=? lk_now (link c)) with false by lia.
  apply HQ. by apply dv_step_goes.
Qed.

(** One poll: the device is seen idle, or some of the time it needs has passed. *)
Lemma wp_poll t (cnt : Z) Q c :
  lk_ok (link c) -> ts_normal t -> in_time t dv_tick c ->
  (forall st c', idle_word st -> quiet c c' -> ee_busy (dev c') = O -> Q (false, (cnt, st)) c') ->
  (forall e c', quiet c c' -> in_time t 0 c' -> (ee_busy (dev c') <= ee_busy (dev c))%nat ->
     (ee_busy (dev c') + ee_loss (dev c') < ee_busy (dev c) + ee_loss (dev c))%nat ->
     Q (true, (cnt, e)) c') ->
  wp F (let* r := ctx_FPRD adr ECT_REG_EEPSTAT 2 [0; 0] EC_TIMEOUTRET in
        let estat := of_le r.2 in
        if (r.1 <=? 0) || (0 <? Z.land estat EC_ESTAT_BUSY) then
          let* expired := onlink (lk_timer_is_expired t) in
          ret (negb expired, (cnt, estat))
        else ret (false, (cnt, estat))) Q c.
Proof.
  unfold in_time. intros Hok Hn Ht Hdone Hgo. apply wp_bind. pose proof dv_tick_pos. pose proof dv_late_pos.
  apply wp_status; [done | |].
  - intros c1 (k & Hk & Hg). change (of_le (EC_NOFRAME, [0; 0]).2) with 0.
    cbn [fst Z.leb orb EC_NOFRAME]. pose proof (gs_time _ _ _ _ Hg) as Ht1.
    assert (Hq1 : quiet c c1) by (eapply goes_quiet; [done..|cbn; lia]).
    pose proof (need_lost _ _ Hk). pose proof (gs_dev _ _ _ _ Hg) as Hd1. pose proof (need_pos (dev c1)) as Hp.
    rewrite Hd1 in Hp.
    apply wp_bind, wp_still_running; [apply Hg | done | lia |]. intros c2 Hg2.
    pose proof (gs_dev _ _ _ _ Hg2) as Hd2. pose proof (gs_time _ _ _ _ Hg2). rewrite Hd1 in Hd2.
    apply wp_ret. cbn [negb].
    apply Hgo; [by eapply quiet_trans, goes_idle | rewrite Hd2; lia | by rewrite Hd2 | rewrite Hd2; cbn; lia].
  - intros st c1 [Hst Hw] Hg. cbn [fst snd]. rewrite of_le_le_bytes, Z.mod_small by (cbn; lia).
    assert (Hq1 : quiet c c1) by (eapply goes_quiet; [done..|cbn; lia]).
    pose proof (gs_time _ _ _ _ Hg) as Ht1. pose proof (gs_dev _ _ _ _ Hg) as Hd1. cbn [Z.leb orb Z.compare].
    destruct (ee_busy (dev c)) as [|b] eqn:Hb.
    + destruct Hw as (Hw1 & Hw2 & Hw3). rewrite Hw1. cbn. apply wp_ret.
      apply Hdone; [done | done | by rewrite Hd1; cbn; rewrite Hb].
    + assert (0 <= Z.land st EC_ESTAT_BUSY) by (apply Z.land_nonneg; lia).
      replace (0 <? Z.land st EC_ESTAT_BUSY) with true by lia.
      assert (Hd1' : dev c1 = (dev c) <| ee_busy := b |>) by (rewrite Hd1; cbn; by rewrite Hb).
      pose proof (need_busy _ _ Hb). pose proof (need_pos (dev c1)) as Hp. rewrite Hd1' in Hp.
      apply wp_bind, wp_still_running; [apply Hg | done | lia |]. intros c2 Hg2.
      pose proof (gs_dev _ _ _ _ Hg2) as Hd2. pose proof (gs_time _ _ _ _ Hg2). rewrite Hd1' in Hd2.
      apply wp_ret. cbn [negb]. apply Hgo; [by eapply quiet_trans, goes_idle | rewrite Hd2; lia | |].
      all: rewrite Hd2; cbn; lia.
Qed.

(** The wait sees the device through. *)
Lemma wp_wait timeout Q c :
  lk_ok (link c) -> ee_patient timeout ->
  (dv_polls + 4 <= loop_fuel)%nat -> (ee_busy (dev c) <= dv_polls)%nat ->
  (ee_loss (dev c) <= 3)%nat ->
  (forall st c', idle_word st -> quiet c c' -> ee_busy (dev c') = O -> Q (1, st) c') ->
  wp F (eeprom_waitnotbusy ctx_FPRD adr timeout) Q c.
Proof.
  intros Hok Hpat Hfuel Hb Hl HQ. unfold eeprom_waitnotbusy. apply wp_bind.
  eapply wp_link; [apply wp_conj; [by apply law_ee_timer | by apply law_timer_start]|].
  intros t l1 [Hs1 (Ht & Hn & _)]. apply dv_step_goes in Hs1. change (dv (link c)) with (dev c) in Hs1.
  set (c1 := c <| link := l1 |>) in *. pose proof (gs_dev _ _ _ _ Hs1) as Hd1. apply wp_bind.
  pose (I := fun (_ : Z * Z) c2 => quiet c c2 /\ in_time t 0 c2 /\ (ee_busy (dev c2) <= dv_polls)%nat).
  eapply (wp_do_while F I (fun _ c2 => (ee_busy (dev c2) + ee_loss (dev c2))%nat)).
  2: { split_and!; [by eapply goes_idle | | by rewrite Hd1]. pose proof (gs_time _ _ _ _ Hs1).
       pose proof (need_most _ Hb Hl). unfold in_time, ee_patient in *. rewrite Hd1. lia. }
  2: { rewrite Hd1. lia. }
  intros [cnt e0] c2 (Hq & Ht2 & Hb2). apply wp_bind. pose proof dv_tick_pos.
  apply (wp_mono F _ (fun _ c3 => quiet c c3 /\ in_time t dv_tick c3 /\ dev c3 = dev c2)).
  { apply wp_when; intros _; [|split_and!; [done | unfold in_time in *; lia | done]].
    apply wp_sleep; [apply Hq|]. intros c3 Hg. pose proof (gs_dev _ _ _ _ Hg) as Hd3. pose proof (gs_time _ _ _ _ Hg).
    split_and!; [by eapply quiet_trans, goes_idle | unfold in_time in *; rewrite Hd3; lia | done]. }
  intros _ c3 (Hq3 & Ht3 & Hd3). cbn beta. apply wp_poll; [apply Hq3 | done | done | |].
  - intros st c4 Hw Hq4 Hb4. cbn. apply wp_ret. cbn [snd]. rewrite (proj1 Hw). cbn.
    apply HQ; [done | by eapply quiet_trans | done].
  - intros e c4 Hq4 Ht4 Hb4 Hlt. cbn. rewrite Hd3 in *. split; [|lia].
    split_and!; [by eapply quiet_trans | done | lia].
Qed.

(** ** Reading *)

(** The device before an access, and the context after it. *)
Definition healthy c : Prop :=
  lk_ok (link c) /\ (dv_polls + 4 <= loop_fuel)%nat /\ (ee_busy (dev c) <= dv_polls)%nat /\ (ee_loss (dev c) <= 3)%nat.

Lemma goes_same c d most c' : goes c d most c' -> c' = c <| link := link c' |>.
Proof. by intros []. Qed.

(** The command and data transfers, repeated until they get through. *)
Lemma wp_command (cmd : Z) (f : eedev -> eedev) (a : Z) Q c :
  (forall l, lk_ok l -> wp no_fault (lk_FPWR adr ECT_REG_EEPCTL 6 (eepromt_bytes cmd a 0) EC_TIMEOUTRET)
     (fun r l' => (r = EC_NOFRAME /\ dv_lost l l')
        \/ (exists b, (b <= dv_polls)%nat /\ r = 1
              /\ dv_step l l' ((f (dv l)) <| ee_busy := b |>) dv_tick)) l) ->
  (forall d k, f (d <| ee_loss := k |>) = (f d) <| ee_loss := k |>) ->
  lk_ok (link c) -> (ee_loss (dev c) <= 3)%nat ->
  (forall k b c', (k <= ee_loss (dev c))%nat -> (b <= dv_polls)%nat -> lk_ok (link c') ->
     c' = c <| link := link c' |> -> dev c' = (f (dev c)) <| ee_loss := k |> <| ee_busy := b |> ->
     Q 1 c') ->
  wp F (retry_wr (ctx_FPWR adr ECT_REG_EEPCTL 6 (eepromt_bytes cmd a 0) EC_TIMEOUTRET)) Q c.
Proof.
  intros Hlaw Hf Hok Hl HQ.
  pose (I := fun k c1 => lk_ok (link c1) /\ c1 = c <| link := link c1 |> /\ (k <= ee_loss (dev c))%nat
    /\ dev c1 = (dev c) <| ee_loss := k |>).
  eapply (wp_retry_wr F _ I); [|exact Hl|].
  2: { split_and!; [done | by destruct c | done | by destruct (dev c)]. }
  intros k c1 (Ho & Hs & Hk & Hd). eapply wp_link; [by apply Hlaw|].
  change (dv (link c1)) with (dev c1).
  intros r l [[-> (k' & Hk' & Hst)]|(b & Hb & -> & Hst)]; apply dv_step_goes in Hst.
  - left. split; [done|]. change (dv (link c1)) with (dev c1) in *. rewrite Hd in Hk', Hst. cbn in Hk'.
    exists k'. split; [done|]. split_and!; [apply Hst | |lia|].
    + rewrite Hs at 1. by destruct c.
    + rewrite (gs_dev _ _ _ _ Hst). done.
  - right. split; [done|]. apply (HQ k b); [done | done | apply Hst | |].
    + rewrite Hs at 1. by destruct c.
    + rewrite (gs_dev _ _ _ _ Hst), Hd, Hf. done.
Qed.

Lemma wp_data n data Q c :
  lk_ok (link c) -> ee_busy (dev c) = O -> (ee_loss (dev c) <= 3)%nat -> length data = n -> n = 4%nat \/ n = 8%nat ->
  (forall c', quiet c c' -> ee_busy (dev c') = O ->
     Q (1, window (ee_content (dev c)) (2 * ee_addr (dev c)) n) c') ->
  wp F (retry (fun d => ctx_FPRD adr ECT_REG_EEPDAT (Z.of_nat n) d EC_TIMEOUTRET) data) Q c.
Proof.
  intros Hok Hb Hl Hlen Hn HQ.
  pose (I := fun k (d : list Z) c1 => quiet c c1 /\ ee_busy (dev c1) = O /\ ee_loss (dev c1) = k
    /\ length d = n).
  eapply (wp_retry F _ I); [|exact Hl|].
  2: { split_and!; [by apply quiet_refl | done..]. }
  intros k d c1 (Hq & Hb1 & Hl1 & Hd). eapply wp_link; [apply law_data; [apply Hq | done..]|].
  intros r l [[-> Hls]|[-> Hst]].
  - left. split; [done|]. destruct (dv_lost_goes _ _ Hls) as (k' & Hk' & Hg).
    exists k'. pose proof (gs_dev _ _ _ _ Hg) as Hd1. split; [congruence|].
    split_and!; [|by rewrite Hd1 | by rewrite Hd1 | done].
    eapply quiet_trans; [done|]. eapply goes_quiet; [done..|]. cbn. lia.
  - right. split; [done|]. apply dv_step_goes in Hst. change (dv (link c1)) with (dev c1) in *.
    rewrite (qt_content _ _ Hq), (qt_addr _ _ Hq). pose proof (gs_dev _ _ _ _ Hst) as Hd1.
    apply HQ; [|by rewrite Hd1]. by eapply quiet_trans, goes_idle.
Qed.

(** The value a device gives for word address [a]. *)
Definition ee_value (f : Z -> Z) (a : Z) : Z := of_le (window f (2 * a) (if wide then 8 else 4)).

(** After an access: healthy again, the content unchanged. *)
Record kept c c' : Prop := Kept {
  kp_same : c' = c <| link := link c' |>;
  kp_content : ee_content (dev c') = ee_content (dev c);
  kp_healthy : healthy c';
}.

Lemma kept_trans c1 c2 c3 : kept c1 c2 -> kept c2 c3 -> kept c1 c3.
Proof.
  intros [H1 C1 Y1] [H2 C2 Y2]. split; [|congruence|done].
  rewrite H2, H1 at 1. by destruct c1.
Qed.

Lemma kept_quiet c1 c2 : healthy c1 -> quiet c1 c2 -> ee_busy (dev c2) = O -> kept c1 c2.
Proof.
  intros (_ & Hf & Hb & Hl) [Hs Ho Hc _ _ Hq] Hb2. split; [done..|]. split_and!; [done | done | | ]; lia.
Qed.

Lemma wp_read_round a timeout nack Q c :
  0 <= a < 65536 -> ee_patient timeout -> healthy c ->
  (forall r32 c', kept c c' -> Q (0, ee_value (ee_content (dev c)) a, r32) c') ->
  wp F (read_round ctx_FPRD ctx_FPWR adr a timeout nack 0 0) Q c.
Proof.
  intros Ha Hpat (Hok & Hf & Hb & Hl) HQ. unfold read_round. apply wp_bind.
  apply (wp_command EC_ECMD_READ (fun d => d <| ee_addr := a |>)); [by intros; apply law_read_cmd | done | done | done |].
  intros k b c1 Hk Hb1 Ho1 Hs1 Hd1. change (negb (1 =? 0)) with true. cbn [negb].
  apply wp_bind, wp_sleep; [done|]. intros c2 Hg2. pose proof (gs_dev _ _ _ _ Hg2) as Hd2. rewrite Hd1 in Hd2.
  assert (Hy2 : healthy c2) by (split_and!; [apply Hg2 | done | rewrite Hd2; cbn; lia | rewrite Hd2; cbn; lia]).
  apply wp_bind, wp_wait; [apply Hy2 | done | apply Hy2.. |]. intros st c3 (Hw1 & Hw2 & Hw3) Hq3 Hb3. cbn [fst snd].
  change (negb (1 =? 0)) with true. cbv iota.
  assert (Hnack : Z.land st EC_ESTAT_NACK = 0).
  { replace EC_ESTAT_NACK with (Z.land EC_ESTAT_EMASK EC_ESTAT_NACK) by done.
    by rewrite Z.land_assoc, Hw2. }
  rewrite Hnack, Hw3. cbn [Z.eqb negb].
  assert (Hy3 : (ee_loss (dev c3) <= 3)%nat).
  { pose proof (qt_loss _ _ Hq3) as Hl3. rewrite Hd2 in Hl3. cbn in Hl3. lia. }
  assert (Hval : ee_content (dev c3) = ee_content (dev c) /\ ee_addr (dev c3) = a).
  { rewrite (qt_content _ _ Hq3), (qt_addr _ _ Hq3), Hd2. done. }
  assert (Hfin : forall c4, quiet c3 c4 -> ee_busy (dev c4) = O -> kept c c4).
  { intros c4 Hq4 Hb4. pose proof (quiet_trans _ _ _ Hq3 Hq4) as Hq. split.
    - rewrite (qt_same _ _ Hq), (goes_same _ _ _ _ Hg2), Hs1 at 1. by destruct c.
    - rewrite (qt_content _ _ Hq), Hd2. done.
    - pose proof (qt_loss _ _ Hq4). split_and!; [apply Hq4 | done | lia | lia]. }
  destruct Hval as [Hv1 Ha1]. unfold ee_value in HQ. rewrite negb_involutive.
  apply wp_if; intros Hwd.
  - assert (Hn : (if wide then 8 else 4)%nat = 8%nat) by (by rewrite Hwd). rewrite Hn in HQ.
    apply wp_bind, (wp_data 8); [apply Hq3 | done | done | done | by right |].
    intros c4 Hq4 Hb4. apply wp_ret. cbn [snd]. rewrite Hv1, Ha1. by apply HQ, Hfin.
  - assert (Hn : (if wide then 8 else 4)%nat = 4%nat) by (by rewrite Hwd). rewrite Hn in HQ.
    apply wp_bind, (wp_data 4); [apply Hq3 | done | done | done | by left |].
    intros c4 Hq4 Hb4. apply wp_ret. cbn [snd]. rewrite Hv1, Ha1. by apply HQ, Hfin.
Qed.

Lemma wp_clear_errors st Q c :
  Z.land st EC_ESTAT_EMASK = 0 -> Q tt c -> wp F (clear_errors ctx_FPWR adr st) Q c.
Proof. intros Hst HQ. unfold clear_errors. by rewrite Hst. Qed.

(** A read returns the content of the device. *)
Lemma wp_readeepromFP a timeout Q c :
  0 <= a < 65536 -> ee_patient timeout -> healthy c ->
  (forall c', kept c c' -> Q (ee_value (ee_content (dev c)) a) c') ->
  wp F (ecx_readeepromFP adr a timeout) Q c.
Proof.
  intros Ha Hpat Hy HQ. unfold ecx_readeepromFP, eeprom_read. pose proof Hy as (Hok & Hf & Hb & Hl).
  apply wp_bind, wp_wait; [done..|]. intros st c1 Hw Hq1 Hb1. cbn [fst snd].
  change (negb (1 =? 0)) with true. cbv iota. apply wp_bind, wp_clear_errors; [apply Hw|].
  pose proof (kept_quiet _ _ Hy Hq1 Hb1) as Hk1. apply wp_bind. unfold read_loop.
  destruct loop_fuel as [|n] eqn:Hlf; [unfold healthy in Hy; lia|]. cbn [do_while].
  apply wp_bind, wp_bind, wp_read_round; [done | done | apply Hk1|]. intros r32 c2 Hk2. apply wp_ret. cbn.
  do 2 apply wp_ret. cbn. rewrite (kp_content _ _ Hk1). apply HQ. by eapply kept_trans.
Qed.

(** ** Writing *)

Lemma wp_latch dat Q c :
  0 <= dat < 65536 -> lk_ok (link c) ->
  (ee_loss (dev c) <= 3)%nat ->
  (forall k c', (k <= ee_loss (dev c))%nat -> lk_ok (link c') -> c' = c <| link := link c' |> ->
     dev c' = (dev c) <| ee_loss := k |> <| ee_latch := dat |> -> Q 1 c') ->
  wp F (retry_wr (ctx_FPWR adr ECT_REG_EEPDAT 2 (le_bytes 2 dat) EC_TIMEOUTRET)) Q c.
Proof.
  intros Hdat Hok Hl HQ.
  pose (I := fun k c1 => lk_ok (link c1) /\ c1 = c <| link := link c1 |> /\ (k <= ee_loss (dev c))%nat
    /\ dev c1 = (dev c) <| ee_loss := k |>).
  eapply (wp_retry_wr F _ I); [|exact Hl|].
  2: { split_and!; [done | by destruct c | done | by destruct (dev c)]. }
  intros k c1 (Ho & Hs & Hk & Hd). eapply wp_link; [by apply law_latch|].
  intros r l [[-> Hls]|[-> Hst]].
  - left. split; [done|]. destruct (dv_lost_goes _ _ Hls) as (k' & Hk' & Hg). rewrite Hd in Hk', Hg.
    cbn in Hk'. exists k'. split; [done|]. split_and!; [apply Hg | |lia|by rewrite (gs_dev _ _ _ _ Hg)].
    rewrite Hs at 1. by destruct c.
  - right. split; [done|]. apply dv_step_goes in Hst. change (dv (link c1)) with (dev c1) in *.
    apply (HQ k); [done | apply Hst | | by rewrite (gs_dev _ _ _ _ Hst), Hd].
    rewrite Hs at 1. by destruct c.
Qed.

(** A write changes one word of the content, and reports success. *)
Lemma wp_writeeepromFP a dat timeout Q c :
  0 <= a < 65536 -> 0 <= dat < 65536 -> ee_patient timeout -> healthy c ->
  (forall c', c' = c <| link := link c' |> -> healthy c' ->
     ee_content (dev c') = put_word (ee_content (dev c)) a dat -> Q 1 c') ->
  wp F (ecx_writeeepromFP adr a dat timeout) Q c.
Proof.
  intros Ha Hdat Hpat Hy HQ. unfold ecx_writeeepromFP, eeprom_write. pose proof Hy as (Hok & Hf & Hb & Hl).
  apply wp_bind, wp_wait; [done..|]. intros st c1 Hw Hq1 Hb1. cbn [fst snd].
  change (negb (1 =? 0)) with true. cbv iota. apply wp_bind, wp_clear_errors; [apply Hw|].
  pose proof (kept_quiet _ _ Hy Hq1 Hb1) as Hk1. destruct (kp_healthy _ _ Hk1) as (Ho1 & _ & Hb1' & Hl1).
  apply wp_bind. destruct loop_fuel as [|n] eqn:Hlf; [unfold healthy in Hy; lia|]. cbn [do_while].
  apply wp_bind. unfold write_round. apply wp_bind, wp_bind, wp_latch; [done..|].
  intros k2 c2 Hk2 Ho2 Hs2 Hd2. apply wp_bind.
  apply (wp_command EC_ECMD_WRITE (fun d => d <| ee_content ::= (fun f => put_word f a (ee_latch d)) |>
           <| ee_addr := a |>)); [by intros; apply law_write_cmd | done | done | rewrite Hd2; cbn; lia |].
  intros k3 b c3 Hk3 Hb3 Ho3 Hs3 Hd3. rewrite Hd2 in Hk3, Hd3. cbn in Hk3, Hd3.
  change (negb (1 =? 0)) with true. cbv iota.
  apply wp_bind, wp_sleep; [done|]. intros c4 Hg4. pose proof (gs_dev _ _ _ _ Hg4) as Hd4. rewrite Hd3 in Hd4.
  assert (Hy4 : healthy c4) by (split_and!; [apply Hg4 | by rewrite Hlf | rewrite Hd4; cbn; lia | rewrite Hd4; cbn; lia]).
  apply wp_bind, wp_wait; [apply Hy4 | done | apply Hy4..|]. intros st5 c5 (_ & Hw5 & _) Hq5 Hb5. cbn [fst snd].
  change (negb (1 =? 0)) with true. cbv iota.
  assert (Hnack : Z.land st5 EC_ESTAT_NACK = 0).
  { replace EC_ESTAT_NACK with (Z.land EC_ESTAT_EMASK EC_ESTAT_NACK) by done.
    by rewrite Z.land_assoc, Hw5. }
  rewrite Hnack. cbn [Z.eqb negb]. do 3 apply wp_ret. cbn. apply wp_ret.
  pose proof (kept_quiet _ _ Hy4 Hq5 Hb5) as Hk5. apply HQ; [|apply Hk5|].
  - rewrite (kp_same _ _ Hk5), (goes_same _ _ _ _ Hg4), Hs3, Hs2, (kp_same _ _ Hk1) at 1. by destruct c.
  - by rewrite (kp_content _ _ Hk5), Hd4, <- (kp_content _ _ Hk1).
Qed.

(** ** Control of the interface *)

Lemma kept_refl c : healthy c -> kept c c.
Proof. intros. split; [by destruct c | done | done]. Qed.

Lemma wp_cfg v Q c :
  healthy c -> (forall c', kept c c' -> Q 1 c') ->
  wp F (retry_wr (ctx_FPWR adr ECT_REG_EEPCFG 1 [v] EC_TIMEOUTRET)) Q c.
Proof.
  intros Hy HQ. pose (I := fun k c1 => kept c c1 /\ ee_loss (dev c1) = k).
  eapply (wp_retry_wr F _ I); [|apply Hy|by split; [apply kept_refl|]].
  intros k c1 (Hk & Hl1). pose proof (kp_healthy _ _ Hk) as (Ho & Hf & Hb1 & Hl).
  eapply wp_link; [by apply law_cfg|]. intros r l [[-> Hls]|[-> Hst]].
  - left. split; [done|]. destruct (dv_lost_goes _ _ Hls) as (k' & Hk' & Hg).
    pose proof (gs_dev _ _ _ _ Hg) as Hd. exists k'. split; [congruence|]. split; [|by rewrite Hd].
    eapply kept_trans; [exact Hk|]. split; [apply Hg | by rewrite Hd |].
    split_and!; [apply Hg | done | rewrite Hd; cbn; lia | rewrite Hd; cbn; lia].
  - right. split; [done|]. apply dv_step_goes in Hst. change (dv (link c1)) with (dev c1) in *.
    pose proof (gs_dev _ _ _ _ Hst) as Hd. apply HQ. eapply kept_trans; [exact Hk|].
    split; [apply Hst | by rewrite Hd | split_and!; [apply Hst | done | rewrite Hd; done | rewrite Hd; done]].
Qed.

(** A context whose slave list has changed as far as the EEPROM control goes. *)
Definition with_pdi slave s v c : ecx_contextt L :=
  c <| slavelist := <[Z.to_nat slave := s <| eep_pdi := v |>]> (slavelist c) |>.

Lemma wp_eeprom2master slave s Q c :
  healthy c -> zget (slavelist c) slave = Some s -> configadr s = adr ->
  (forall r c', healthy c' -> ee_content (dev c') = ee_content (dev c) ->
     c' = (with_pdi slave s 0 c) <| link := link c' |> -> Q r c') ->
  wp F (ecx_eeprom2master slave) Q c.
Proof.
  intros Hy Hs Ha HQ. unfold ecx_eeprom2master. apply wp_bind.
  apply (wp_get_slave F slave s); [done|]. apply wp_if; intros Hp.
  - rewrite Ha. apply wp_bind, wp_cfg; [done|]. intros c1 Hk1.
    apply wp_bind, wp_cfg; [apply Hk1|]. intros c2 Hk2. pose proof (kept_trans _ _ _ Hk1 Hk2) as Hk.
    apply wp_bind, (wp_mod_slave F slave s); [by rewrite (kp_same _ _ Hk)|]. apply wp_ret, HQ.
    + apply Hk.
    + apply Hk.
    + unfold with_pdi. rewrite (kp_same _ _ Hk) at 1 2. by destruct c.
  - apply wp_ret, HQ; [done..|]. unfold with_pdi. rewrite list_insert_id; [by destruct c|].
    assert (Heq : s <| eep_pdi := 0 |> = s) by (destruct s; cbn in *; f_equal; lia). rewrite Heq.
    unfold zget in Hs. by destruct (slave <? 0).
Qed.
End Device.
