(* ===== verification/EepromSim.v ===== *)
(** * A simulated slave with an EEPROM

    A context with one slave, for the witnesses of the theorems on the main functions, and
    a link to a slave whose EEPROM works, with a clock and timers, as an instance of
    [LinkLaws] and of [EepromDevice]. *)

From S2P Require Import Prelude Types Osal ErrorRing Mailbox Context Eeprom NicRecv Transfer LinkSpec EepromSpec.

(** ** A context *)

Definition slave0 : ec_slavet :=
  ec_slave_zero <| state := EC_STATE_PRE_OP |> <| configadr := 0x1001 |>
    <| mbx_l := 128 |> <| mbx_wo := 0x1000 |> <| mbx_rl := 128 |> <| mbx_ro := 0x1400 |>
    <| eep_8byte := 1 |>.
Definition pool0 : MbxPool.ec_mbxpoolt :=
  MbxPool.EcMbxPool 0 32 32 (seqZ 0 32) (replicate 32 []).
Definition queue0 : MbxQueue.ec_mbxqueuet :=
  MbxQueue.EcMbxQueue 0 0 0 (replicate 16 None) (replicate 16 0) (replicate 16 0)
    (replicate 16 0) (replicate 16 0).

(** ** The link

    A transfer takes a tenth of a millisecond, one that is lost its whole timeout, and a sleep
    the time it was asked for. *)

Record eesim : Type := EeSim { es_dev : eedev; es_now : Z }.

Definition es_transfer : Z := 100000.
Definition es_pass (n : Z) (e : eesim) : eesim := e <| es_now ::= Z.add n |>.

Definition es_lose {A} (lost : A) (timeout : Z) (f : eesim -> res (A * eesim)) : M eesim A :=
  fun e => match ee_loss (es_dev e) with
           | S k => Ok (lost, es_pass (Z.max 0 timeout * 1000) (e <| es_dev ::= (fun d => d <| ee_loss := k |>) |>))
           | O => f (es_pass es_transfer e)
           end.

Definition es_status (d : eedev) : Z :=
  match ee_busy d with O => EC_ESTAT_R64 | S _ => EC_ESTAT_BUSY end.

Definition es_read (ADP ADO length : Z) (data : list Z) (timeout : Z) : M eesim (Z * list Z) :=
  es_lose (EC_NOFRAME, data) timeout (fun e =>
    let d := es_dev e in
    let n := Z.to_nat length in
    let put src := default data (zblit data 0 src) in
    if ADO =? ECT_REG_EEPSTAT
    then Ok (1, put (le_bytes n (es_status d)), e <| es_dev := (d <| ee_busy ::= Nat.pred |>) |>)
    else Ok (1, put (window (ee_content d) (2 * ee_addr d) n), e)).

Definition es_write (ADP ADO length : Z) (data : list Z) (timeout : Z) : M eesim Z :=
  es_lose EC_NOFRAME timeout (fun e =>
    let d := es_dev e in
    if ADO =? ECT_REG_EEPCFG then Ok (1, e)
    else if ADO =? ECT_REG_EEPDAT then Ok (1, e <| es_dev := d <| ee_latch := of_le data |> |>)
    else
      let a := of_le (take 2 (drop 2 data)) in
      if of_le (take 2 data) =? EC_ECMD_READ
      then Ok (1, e <| es_dev := d <| ee_addr := a |> <| ee_busy := 2%nat |> |>)
      else Ok (1, e <| es_dev := d <| ee_content ::= (fun f => put_word f a (ee_latch d)) |>
                                   <| ee_addr := a |> <| ee_busy := 2%nat |> |>)).

Definition ts_of (n : Z) : ec_timet := TimeSpec (n / 1000000000) (n mod 1000000000).

Lemma ts_of_ns n : ns (ts_of n) = n /\ ts_normal (ts_of n).
Proof.
  unfold ns, ts_normal, ts_of. cbn. pose proof (Z.div_mod n 1000000000).
  pose proof (Z.mod_pos_bound n 1000000000). lia.
Qed.

#[export] Instance eesim_link : EcLink eesim := {
  lk_BRD := es_read; lk_BWR := es_write; lk_APRD := es_read; lk_APWR := es_write;
  lk_FPRD := es_read; lk_FPWR := es_write;
  lk_timer_start usec := fun e => Ok (ts_of (es_now e + u32 usec * 1000), es_pass 1000 e);
  lk_timer_is_expired t := fun e => Ok (ns t <=? es_now e, es_pass 1000 e);
  lk_usleep usec := fun e => Ok (0, es_pass (Z.max 0 usec * 1000) e);
  lk_current_time := fun e => Ok (ts_of (es_now e), es_pass 1000 e);
}.

Lemma wp_es_lose {A} (lost : A) timeout f (Q : A -> eesim -> Prop) e :
  (forall k, ee_loss (es_dev e) = S k ->
     Q lost (es_pass (Z.max 0 timeout * 1000) (e <| es_dev ::= (fun d => d <| ee_loss := k |>) |>))) ->
  (ee_loss (es_dev e) = O -> wp no_fault f Q (es_pass es_transfer e)) ->
  wp no_fault (es_lose lost timeout f) Q e.
Proof.
  unfold es_lose, wp. destruct (ee_loss (es_dev e)) as [|k].
  - intros _ Hf. by apply Hf.
  - intros Hk _. by apply Hk.
Qed.

Lemma put_word_bytes f a w : (forall i, is_byte (f i)) -> forall i, is_byte (put_word f a w i).
Proof.
  intros Hf i. unfold put_word, is_byte in *.
  destruct (i =? 2 * a); [apply Z.mod_pos_bound; lia|].
  destruct (i =? 2 * a + 1); [apply Z.mod_pos_bound; lia | apply Hf].
Qed.

Lemma zblit_whole {A} (l src : list A) : length l = length src -> zblit l 0 src = Some src.
Proof.
  intros Hl. rewrite zblit_some by (unfold zlen; lia). cbn. rewrite drop_ge by lia. by rewrite app_nil_r.
Qed.

Lemma es_put_range length data src : 0 <= length -> length <= zlen data -> zlen src = length -> bytes_ok src ->
  read_result length data 1 (default data (zblit data 0 src)).
Proof.
  intros H0 Hl Hs Hb. split; [lia|]. intros _. exists src. split_and!; [done..|]. rewrite zblit_some by lia. done.
Qed.

Lemma es_rc : rc_range EC_NOFRAME /\ rc_range 1.
Proof. unfold rc_range. ec_unfold. lia. Qed.

#[export] Instance eesim_laws : LinkLaws eesim.
Proof.
  unshelve refine {| lk_ok e := forall i, is_byte (ee_content (es_dev e) i); lk_now := es_now; lk_patient _ := True |}.
  - intros rd ADP ADO n data timeout e Hrd Hok _ Hn Hd. rewrite !elem_of_cons in Hrd.
    assert (rd = es_read) as ->.
    { destruct Hrd as [->|[->|[->|Hrd]]]; [done..|by apply elem_of_nil in Hrd]. }
    clear Hrd. apply wp_es_lose.
    + intros k Hk. cbn. split_and!; [apply es_rc | done | done | lia].
    + intros Hl. unfold wp, es_transfer. cbn -[zblit le_bytes window].
      destruct (ADO =? ECT_REG_EEPSTAT); cbn -[zblit le_bytes window]; split_and!;
        try apply es_rc; try done; try lia; apply es_put_range; try lia.
      * unfold zlen. rewrite length_le_bytes. lia.
      * apply le_bytes_ok.
      * unfold zlen, window. rewrite length_fmap, length_seq. lia.
      * apply Forall_fmap, Forall_true. intros i. apply Hok.
  - intros wr ADP ADO n data timeout e Hwr Hok _ Hn Hd. rewrite !elem_of_cons in Hwr.
    assert (wr = es_write) as ->.
    { destruct Hwr as [->|[->|[->|Hwr]]]; [done..|by apply elem_of_nil in Hwr]. }
    clear Hwr. apply wp_es_lose.
    + intros k Hk. cbn. split_and!; [apply es_rc | done | lia].
    + intros Hl. unfold wp, es_transfer. cbn -[of_le put_word take drop].
      destruct (ADO =? ECT_REG_EEPCFG), (ADO =? ECT_REG_EEPDAT), (of_le (take 2 data) =? EC_ECMD_READ);
        cbn -[of_le put_word take drop].
      all: split_and!; try apply es_rc; try done; try lia. by apply put_word_bytes.
  - intros usec e Hok. unfold wp. cbn. destruct (ts_of_ns (es_now e + u32 usec * 1000)). split_and!; [done..|lia].
  - intros t e Hok Ht. unfold wp. cbn. split_and!; [done | done | lia].
  - intros usec e Hok. unfold wp. cbn. split; [done | lia].
  - intros e Hok. unfold wp. cbn. split; [done | lia].
Defined.

(** A transfer that is lost, and one that is done. *)
Ltac es_lost := left; split; [done|]; eexists; split; [eassumption|]; unfold es_pass;
  change EC_TIMEOUTRET with 2000; split_and!; cbn; [done | done | lia | lia].
Ltac es_done := split_and!;
  [done | cbn -[put_word]; first [done | by apply put_word_bytes] | cbn; unfold es_transfer; lia | cbn; unfold es_transfer; lia].

#[export] Instance eesim_device adr : EepromDevice eesim adr true.
Proof.
  unshelve refine {| dv := es_dev; dv_polls := 2%nat; dv_tick := 200000; dv_late := 2000000 |}; [lia..| | | | | | | | |].
  all: unfold wp, es_transfer in *.
  - intros e Hok. apply wp_es_lose; intros.
    + es_lost.
    + right. exists (es_status (es_dev e)). split; [done|].
      split; [unfold status_word, es_status; by destruct (ee_busy (es_dev e))|].
      es_done.
  - intros n data e Hok Hb Hlen Hn. apply wp_es_lose; intros.
    + es_lost.
    + right. cbn -[zblit window]. rewrite Nat2Z.id, zblit_whole by (by rewrite Hlen; unfold window; rewrite length_fmap, length_seq).
      split; [done|]. es_done.
  - intros w e Hok Hw. apply wp_es_lose; intros.
    + es_lost.
    + right. cbn -[le_bytes of_le]. rewrite of_le_le_bytes, Z.mod_small by (cbn; lia).
      split; [done|]. es_done.
  - intros a e Hok Ha. apply wp_es_lose; intros.
    + es_lost.
    + right. exists 2%nat. split; [lia|]. cbn -[le_bytes of_le].
      change (take 2 (drop 2 (eepromt_bytes EC_ECMD_READ a 0))) with (le_bytes 2 a).
      rewrite of_le_le_bytes, Z.mod_small by (cbn; lia).
      split; [done|]. es_done.
  - intros a e Hok Ha. apply wp_es_lose; intros.
    + es_lost.
    + right. exists 2%nat. split; [lia|]. cbn -[le_bytes of_le put_word].
      change (take 2 (drop 2 (eepromt_bytes EC_ECMD_WRITE a 0))) with (le_bytes 2 a).
      rewrite of_le_le_bytes, Z.mod_small by (cbn; lia).
      split; [done|]. es_done.
  - intros v e Hok. apply wp_es_lose; intros.
    + es_lost.
    + right. split; [done|]. es_done.
  - intros usec e Hok. unfold wp. cbn. split_and!; [done | done | lia..].
  - intros t e Hok Ht. unfold wp. cbn. split_and!; [done | done | lia..].
  - intros usec e Hok. unfold wp. change EC_LOCALDELAY with 200. cbn. split_and!; [done | done | lia..].
Defined.

Definition eesim0 : eesim := EeSim (EeDev (fun i => i mod 251) 0 0 1 3) 0.

Definition ctx0 {L} (l : L) : ecx_contextt L :=
  EcxContext l [slave0; slave0] 1 [] (EState (EcEring 0 0 []) false) 0
    (replicate 4096 0) (replicate 128 0) 0 (EcIdxStack 0 0 [] [] [] []) pool0 None false []
    0 false [] [] None.

(** ** A link on which nothing answers *)

Record mute : Type := Mute { mt_now : Z }.
Definition mute_tick {A} (a : A) : M mute A := fun m => Ok (a, Mute (mt_now m + 1000)).

#[export] Instance mute_link : EcLink mute := {
  lk_BRD _ _ _ data _ := mute_tick (EC_NOFRAME, data); lk_BWR _ _ _ _ _ := mute_tick EC_NOFRAME;
  lk_APRD _ _ _ data _ := mute_tick (EC_NOFRAME, data); lk_APWR _ _ _ _ _ := mute_tick EC_NOFRAME;
  lk_FPRD _ _ _ data _ := mute_tick (EC_NOFRAME, data); lk_FPWR _ _ _ _ _ := mute_tick EC_NOFRAME;
  lk_timer_start usec := fun m => Ok (ts_of (mt_now m + u32 usec * 1000), Mute (mt_now m + 1000));
  lk_timer_is_expired t := fun m => Ok (ns t <=? mt_now m, Mute (mt_now m + 1000));
  lk_usleep _ := mute_tick 0;
  lk_current_time := mute_tick (TimeSpec 0 0);
}.

#[export] Instance mute_laws : LinkLaws mute.
Proof.
  unshelve refine {| lk_ok _ := True; lk_now := mt_now; lk_patient _ := True |}.
  - intros rd ADP ADO length data timeout l Hrd _ _ _ _. rewrite !elem_of_cons in Hrd.
    destruct Hrd as [->|[->|[->|Hrd]]]; [..|by apply elem_of_nil in Hrd].
    all: unfold wp; cbn; unfold rc_range, read_result; ec_unfold; split_and!; (lia || done).
  - intros wr ADP ADO length data timeout l Hwr _ _ _ _. rewrite !elem_of_cons in Hwr.
    destruct Hwr as [->|[->|[->|Hwr]]]; [..|by apply elem_of_nil in Hwr].
    all: unfold wp; cbn; unfold rc_range; ec_unfold; split_and!; (lia || done).
  - intros usec l _. unfold wp, ns, ts_normal, ts_of. cbn.
    pose proof (Z.div_mod (mt_now l + u32 usec * 1000) 1000000000).
    pose proof (Z.mod_pos_bound (mt_now l + u32 usec * 1000) 1000000000). split_and!; lia.
  - intros t l _ _. unfold wp. cbn. split_and!; [done | done | lia].
  - intros usec l _. unfold wp. cbn. split; [done | lia].
  - intros l _. unfold wp. cbn. split; [done | lia].
Defined.

(** ** A slave that refuses a command and falls silent *)

Inductive refuser : Type := Refusing | Refused | Gone.

#[export] Instance refuser_link : EcLink refuser := {
  lk_BRD _ _ _ data _ := ret (0, data); lk_BWR _ _ _ _ _ := ret 0;
  lk_APRD _ _ _ data _ := ret (0, data); lk_APWR _ _ _ _ _ := ret 0;
  lk_FPRD _ _ _ data _ := fun s =>
    match s with Gone => Ok ((0, data), s) | _ => Ok ((1, le_bytes 2 EC_ESTAT_NACK), s) end;
  lk_FPWR _ _ _ _ _ := fun s =>
    match s with Gone => Ok (0, s) | _ => Ok (1, Refused) end;
  lk_timer_start _ := ret (TimeSpec 0 0);
  lk_timer_is_expired _ := ret true;
  lk_usleep usec := fun s =>
    Ok (0, if usec =? EC_LOCALDELAY * 5 then Gone else s);
  lk_current_time := ret (TimeSpec 0 0);
}.
