(* ===== verification/EepromTheorems.v ===== *)
(** * Theorems on EEPROM accesses

    What an access does with a healthy slave, and what it does with a silent one. *)

From S2P Require Import Prelude Types Osal ErrorRing Mailbox Context Eeprom NicRecv Transfer LinkSpec EepromSpec EepromSim.

(** ** A healthy slave *)

Lemma is_byte_mod z : is_byte (z mod 256).
Proof. unfold is_byte. apply Z.mod_pos_bound. lia. Qed.

(** The low word of a value is the word at its address. *)
Lemma value_word wide f a dat :
  0 <= dat < 65536 -> u16 (ee_value wide (put_word f a dat) a) = dat.
Proof.
  intros Hd. unfold ee_value, window.
  assert (Hw : forall n g, of_le ((fun i => g (2 * a + Z.of_nat i)) <$> seq 0 (S (S n)))
    = g (2 * a) + 256 * (g (2 * a + 1) + 256 * of_le ((fun i => g (2 * a + Z.of_nat i)) <$> seq 2 n))).
  { intros n g. cbn [seq fmap list_fmap of_le]. rewrite Z.add_0_r. done. }
  assert (H0 : put_word f a dat (2 * a) = dat mod 256) by (unfold put_word; by rewrite Z.eqb_refl).
  assert (H1 : put_word f a dat (2 * a + 1) = dat / 256 mod 256).
  { unfold put_word. rewrite Z.eqb_refl. by replace (2 * a + 1 =? 2 * a) with false by lia. }
  assert (Hfin : forall x, u16 (dat mod 256 + 256 * (dat / 256 mod 256 + 256 * x)) = dat).
  { intros x. pose proof (Z.div_mod dat 256). pose proof (Z.div_lt_upper_bound dat 256 256).
    pose proof (Z.div_pos dat 256). rewrite (Z.mod_small (dat / 256)) by lia. unfold u16.
    replace (dat mod 256 + 256 * (dat / 256 + 256 * x)) with (dat + x * 65536) by lia.
    change (2 ^ 16) with 65536. by rewrite Z.mod_add, Z.mod_small by lia. }
  destruct wide; rewrite Hw, H0, H1; apply Hfin.
Qed.

(** C27: On a slave whose EEPROM works, with at most three lost frames and a timeout that sees
    the device through (what it is busy for, and what lost transfers take, is less), a write
    reports success and changes exactly the word at its address, and reading the address
    gives the word back; nothing but the link changes in the context. *)
Theorem eeprom_write_then_read {L} `{HL : LinkLaws L} `{LoopFuel} (adr : Z) (wide : bool)
    `{!EepromDevice L adr wide} (c : ecx_contextt L) (a dat timeout : Z) :
  0 <= a < 65536 -> 0 <= dat < 65536 -> ee_patient adr wide timeout -> healthy adr wide c ->
  wp no_fault (let* w := ecx_writeeepromFP adr a dat timeout in
               let* v := ecx_readeepromFP adr a timeout in
               ret (w, u16 v))
    (fun r c' => r = (1, dat) /\ c' = c <| link := link c' |>
       /\ ee_content (dev adr wide c') = put_word (ee_content (dev adr wide c)) a dat) c.
Proof.
  intros Ha Hd Hpat Hy. apply wp_bind. apply (wp_writeeepromFP adr wide); [done..|].
  intros c1 Hs1 Hy1 Hc1. apply wp_bind. apply (wp_readeepromFP adr wide); [done..|].
  intros c2 [Hs2 Hc2 _]. apply wp_ret. rewrite Hc1, value_word by done. split_and!; [done | | congruence].
  rewrite Hs2, Hs1 at 1. by destruct c.
Qed.

(** ** Waiting for any slave *)

Section Wait.
Context {L : Type} `{HL : LinkLaws L} `{LoopFuel} (F : fault -> Prop).
Implicit Types c : ecx_contextt L.

(** [P] is a property of the status words the slave answers. *)
Lemma wp_waitnotbusy rd adr timeout (P : Z -> Z -> Prop) Q c :
  rd ∈ [lk_BRD; lk_APRD; lk_FPRD] -> lk_ok (link c) -> lk_patient EC_TIMEOUTRET ->
  u32 timeout * 1000 < Z.of_nat loop_fuel ->
  (forall l, lk_ok l -> wp no_fault (rd adr ECT_REG_EEPSTAT 2 [0; 0] EC_TIMEOUTRET)
     (fun r _ => P r.1 (of_le r.2)) l) ->
  (forall w st c', P w st -> link_step c c' ->
     Q (if Z.land st EC_ESTAT_BUSY =? 0 then 1 else 0, st) c') ->
  wp F (eeprom_waitnotbusy (fun a o n d t => onlink (rd a o n d t)) adr timeout) Q c.
Proof.
  intros Hrd Hc Hp Hf HP HQ. unfold eeprom_waitnotbusy.
  apply wp_bind, wp_ctx_timer_start; [done|]. intros t c1 Ht Hn Hs1. pose proof (u32_range timeout).
  apply wp_bind. unfold waitnotbusy_poll.
  apply (wp_polling F (fun (_ : Z * Z) c2 => link_step c c2) t); [done | | done | lia | lia].
  intros [cnt e0] c2 Hs2. apply wp_bind.
  apply (wp_mono F _ (fun _ c3 => link_step c c3 /\ lk_now (link c2) <= lk_now (link c3))).
  { apply wp_when; intros _.
    - apply wp_ctx_usleep; [apply Hs2|]. intros c3 Hs3.
      split; [by eapply link_step_trans | apply Hs3].
    - split; [done | lia]. }
  intros _ c3 [Hs3 Hn3]. apply wp_bind. apply wp_zoom, wp_total. eapply wp_mono.
  { apply wp_conj; [apply HP, Hs3|].
    by apply (law_read rd); [done | apply Hs3 | done | ec_unfold; lia | unfold zlen; cbn; lia]. }
  intros r l (Hr & _ & _ & Ho & Hnl). cbn beta.
  assert (Hs4 : link_step c (c3 <| link := l |>)).
  { eapply link_step_trans; [exact Hs3|]. by apply link_stepped. }
  destruct ((r.1 <=? 0) || _).
  - apply wp_bind, wp_ctx_expired; [apply Hs4 | done |]. intros b c5 -> Hs5 Hn5.
    change (link (c3 <| link := l |>)) with l in *.
    apply wp_ret. cbn [fst snd]. destruct (Z.leb_spec (ns t) (lk_now l)); cbn [negb].
    + apply wp_ret. eapply HQ; [exact Hr | by eapply link_step_trans].
    + split; [by eapply link_step_trans | lia].
  - do 2 apply wp_ret. cbn. by eapply HQ.
Qed.
End Wait.

(** Waiting for the EEPROM always ends within the timeout, changes nothing but the
    link, and its result says whether the last status word has the busy bit. *)
Theorem waitnotbusy_ends {L} `{LinkLaws L} `{LoopFuel} (c : ecx_contextt L) (adr timeout : Z) :
  lk_ok (link c) -> lk_patient EC_TIMEOUTRET -> u32 timeout * 1000 < Z.of_nat loop_fuel ->
  wp no_fault (ecx_eeprom_waitnotbusyFP adr timeout)
    (fun r c' => link_step c c' /\ r.1 = (if Z.land r.2 EC_ESTAT_BUSY =? 0 then 1 else 0)) c.
Proof.
  intros Hc Hp Hf. apply (wp_waitnotbusy no_fault lk_FPRD adr timeout (fun _ _ => True));
    [rewrite !elem_of_cons; auto | done | done | done | | done].
  intros l Hl. eapply wp_mono.
  { apply (law_read lk_FPRD); [rewrite !elem_of_cons; auto | done | done | ec_unfold; lia | done]. }
  done.
Qed.

(** A slave that never answers is found ready: when no read of its status register
    gets a work counter, the wait returns 1, with a status word of zero. *)
Theorem silent_slave_is_ready {L} `{LinkLaws L} `{LoopFuel} (c : ecx_contextt L) (adr timeout : Z) :
  lk_ok (link c) -> lk_patient EC_TIMEOUTRET -> u32 timeout * 1000 < Z.of_nat loop_fuel ->
  (forall l, wp any_fault (lk_FPRD adr ECT_REG_EEPSTAT 2 [0; 0] EC_TIMEOUTRET) (fun r _ => r.1 <= 0) l) ->
  wp no_fault (ecx_eeprom_waitnotbusyFP adr timeout) (fun r _ => r = (1, 0)) c.
Proof.
  intros Hc Hp Hf Hsil. apply (wp_waitnotbusy no_fault lk_FPRD adr timeout (fun _ st => st = 0));
    [rewrite !elem_of_cons; auto | done | done | done | | by intros w st c' -> _].
  intros l Hl. pose proof (law_read lk_FPRD adr ECT_REG_EEPSTAT 2 [0; 0] EC_TIMEOUTRET l) as Hr.
  specialize (Hsil l). unfold wp in *. destruct (lk_FPRD _ _ _ _ _ l) as [[r l']|f].
  - destruct Hr as (_ & [Hr _] & _); [rewrite !elem_of_cons; auto | done | done | ec_unfold; lia | done |].
    by rewrite Hr.
  - apply Hr; [rewrite !elem_of_cons; auto | done | done | ec_unfold; lia | done].
Qed.

Lemma retry_wr_zero {L} (op : M (ecx_contextt L) Z) c x1 x2 x3 x4 :
  op c = Ok (0, x1) -> op x1 = Ok (0, x2) -> op x2 = Ok (0, x3) -> op x3 = Ok (0, x4) ->
  retry_wr op c = Ok (0, x4).
Proof.
  intros E1 E2 E3 E4. lazy in E1, E2, E3, E4. lazy. rewrite E1. lazy. rewrite E2. lazy.
  rewrite E3. lazy. by rewrite E4.
Qed.

(** Once the EEPROM has refused a command (NACK), a slave that goes silent is waited
    for without an end: no fuel is enough for the loop of the read. *)
Theorem nack_then_silence_never_ends {L} `{EcLink L} `{LoopFuel} (c c1 : ecx_contextt L)
    (adr a timeout nack d64 d32 : Z) (silent : L -> Prop) :
  read_round ctx_FPRD ctx_FPWR adr a timeout 0 0 0 c = Ok ((nack, d64, d32), c1) ->
  0 < nack < 3 -> silent (link c1) ->
  (forall l, silent l -> exists l', silent l' /\
     lk_FPWR adr ECT_REG_EEPCTL 6 (eepromt_bytes EC_ECMD_READ a 0) EC_TIMEOUTRET l = Ok (0, l')) ->
  read_loop ctx_FPRD ctx_FPWR adr a timeout (0, 0, 0) c = Err OutOfFuel.
Proof.
  intros Hfirst Hnack Hc1 Hsil.
  assert (Hw : forall c, silent (link c) -> exists c', silent (link c') /\
    ctx_FPWR adr ECT_REG_EEPCTL 6 (eepromt_bytes EC_ECMD_READ a 0) EC_TIMEOUTRET c = Ok (0, c')).
  { intros c0 Hc0. destruct (Hsil _ Hc0) as (l' & Hl' & Heq). exists (c0 <| link := l' |>).
    split; [done|]. unfold ctx_FPWR, onlink, zoom. by rewrite Heq. }
  assert (Hround : forall c, silent (link c) -> exists c', silent (link c') /\
    read_round ctx_FPRD ctx_FPWR adr a timeout nack d64 d32 c = Ok ((nack, d64, d32), c')).
  { intros c0 Hc0. destruct (Hw c0 Hc0) as (x1 & Hx1 & E1). destruct (Hw x1 Hx1) as (x2 & Hx2 & E2).
    destruct (Hw x2 Hx2) as (x3 & Hx3 & E3). destruct (Hw x3 Hx3) as (x4 & Hx4 & E4).
    exists x4. split; [done|]. unfold read_round.
    by rewrite (bind_ok _ _ _ _ _ (retry_wr_zero _ _ _ _ _ _ E1 E2 E3 E4)). }
  assert (Hloop : forall n c, silent (link c) ->
    do_while n (fun '(nackcnt, edat64, edat32) =>
      let* r := read_round ctx_FPRD ctx_FPWR adr a timeout nackcnt edat64 edat32 in
      let nackcnt := r.1.1 in
      ret ((0 <? nackcnt) && (nackcnt <? 3), r)) (nack, d64, d32) c = Err OutOfFuel).
  { intros n. induction n as [|n IH]; intros c0 Hc0; [done|]. cbn [do_while].
    destruct (Hround c0 Hc0) as (c2 & Hc2 & E). unfold bind at 1 2. rewrite E. cbn [ret fst].
    unfold ret. replace ((0 <? nack) && (nack <? 3)) with true by lia. by apply IH. }
  unfold read_loop. destruct loop_fuel as [|n]; [done|]. cbn [do_while].
  unfold bind at 1 2. rewrite Hfirst. cbn [fst]. unfold ret.
  replace ((0 <? nack) && (nack <? 3)) with true by lia. by apply Hloop.
Qed.

(** ** Witnesses *)

Lemma eesim0_ok : lk_ok eesim0.
Proof. intros i. unfold is_byte. cbn. pose proof (Z.mod_pos_bound i 251). lia. Qed.

Lemma eeprom_write_then_read_witness :
  healthy 0x1001 true (H0 := 10%nat) (ctx0 eesim0)
  /\ wp no_fault (let* w := ecx_writeeepromFP (H0 := 10%nat) 0x1001 0x40 0xbeef EC_TIMEOUTEEP in
                  let* v := ecx_readeepromFP (H0 := 10%nat) 0x1001 0x40 EC_TIMEOUTEEP in
                  ret (w, u16 v)) (fun r _ => r = (1, 0xbeef)) (ctx0 eesim0).
Proof.
  assert (Hy : healthy 0x1001 true (H0 := 10%nat) (ctx0 eesim0)).
  { split; [exact eesim0_ok|]. unfold loop_fuel. cbn. lia. }
  split; [exact Hy|]. eapply wp_mono.
  { apply (eeprom_write_then_read 0x1001 true (ctx0 eesim0) 0x40 0xbeef EC_TIMEOUTEEP);
      [lia | lia | reflexivity | exact Hy]. }
  intros r c' [Hr _]. exact Hr.
Defined.

#[local] Instance fuel_wait : LoopFuel := Z.to_nat 20000001.

Lemma fuel_wait_ok : u32 EC_TIMEOUTEEP * 1000 < Z.of_nat loop_fuel.
Proof. unfold loop_fuel, fuel_wait. rewrite Z2Nat.id by lia. reflexivity. Qed.

Lemma waitnotbusy_ends_witness :
  wp no_fault (ecx_eeprom_waitnotbusyFP 0x1001 EC_TIMEOUTEEP)
    (fun r c' => r.1 = (if Z.land r.2 EC_ESTAT_BUSY =? 0 then 1 else 0)) (ctx0 (Mute 0)).
Proof.
  eapply wp_mono.
  { apply (waitnotbusy_ends (ctx0 (Mute 0)) 0x1001 EC_TIMEOUTEEP); [exact I | exact I | exact fuel_wait_ok]. }
  intros r c' [_ Hr]. exact Hr.
Defined.

Lemma silent_slave_is_ready_witness :
  wp no_fault (ecx_eeprom_waitnotbusyFP 0x1001 EC_TIMEOUTEEP) (fun r _ => r = (1, 0)) (ctx0 (Mute 0)).
Proof.
  apply (silent_slave_is_ready (ctx0 (Mute 0)) 0x1001 EC_TIMEOUTEEP); [exact I | exact I | exact fuel_wait_ok |].
  intros l. unfold wp. cbn. ec_unfold. lia.
Defined.

Lemma nack_then_silence_never_ends_witness :
  read_loop (H0 := 1000%nat) ctx_FPRD ctx_FPWR 0x1001 0x40 EC_TIMEOUTEEP (0, 0, 0) (ctx0 Refusing)
  = Err OutOfFuel.
Proof.
  apply (nack_then_silence_never_ends (ctx0 Refusing) (ctx0 Gone) 0x1001 0x40 EC_TIMEOUTEEP 1 0 0
           (fun l => l = Gone)).
  - reflexivity.
  - lia.
  - reflexivity.
  - intros l ->. exists Gone. split; reflexivity.
Defined.
