(* ===== verification/SiiTheorems.v ===== *)
(** * Theorems on the SII

    The coherence of the cache with the EEPROM, reads through the cache, and the search for
    a section. *)

From S2P Require Import Prelude Osal Types ErrorRing Mailbox Context Eeprom Sii NicRecv Transfer LinkSpec.
From S2P Require Import EepromSpec EepromSim.

(** * The byte cache of the SII

    The map of cached bytes as a set of addresses, and the coherence of the cache with the
    EEPROM behind it. *)

(** ** The map of cached bytes *)

(** Whether the byte at [a] is marked. *)
Definition marked (m : list Z) (a : Z) : bool :=
  match zget m (a / 32) with Some w => Z.testbit w (a mod 32) | None => false end.

Lemma land_bit w b : 0 <= b -> negb (Z.land w (Z.shiftl 1 b) =? 0) = Z.testbit w b.
Proof.
  intros Hb. rewrite Z.shiftl_1_l. destruct (Z.testbit w b) eqn:Ht.
  - apply negb_true_iff, Z.eqb_neq. intros H0.
    assert (Hx : Z.testbit (Z.land w (2 ^ b)) b = true) by (by rewrite Z.land_spec, Ht, Z.pow2_bits_true).
    by rewrite H0, Z.bits_0 in Hx.
  - apply negb_false_iff, Z.eqb_eq. apply Z.bits_inj'. intros n Hn.
    rewrite Z.land_spec, Z.bits_0, Z.pow2_bits_eqb by done.
    destruct (Z.eqb_spec b n) as [->|]; [by rewrite Ht | apply andb_false_r].
Qed.

Lemma set_bit w b n : 0 <= b -> 0 <= n ->
  Z.testbit (Z.lor w (Z.shiftl 1 b)) n = Z.testbit w n || (b =? n).
Proof. intros Hb Hn. by rewrite Z.lor_spec, Z.shiftl_1_l, Z.pow2_bits_eqb. Qed.

(** Setting the bit of address [x]. *)
Lemma marked_set m x w m' a :
  0 <= x -> 0 <= a -> zget m (x / 32) = Some w ->
  zset m (x / 32) (Z.lor w (Z.shiftl 1 (x mod 32))) = Some m' ->
  marked m' a = marked m a || (a =? x).
Proof.
  intros Hx Ha Hw Hm'. unfold marked. rewrite (zget_zset _ _ (a / 32) _ _ Hm').
  pose proof (Z.mod_pos_bound x 32). pose proof (Z.mod_pos_bound a 32).
  pose proof (Z.div_mod x 32). pose proof (Z.div_mod a 32).
  case_decide as Hd.
  - rewrite set_bit by lia. rewrite <- Hd, Hw. f_equal. lia.
  - replace (a =? x) with false by lia. by rewrite orb_false_r.
Qed.

Section Marks.
Context {L : Type} `{EcLink L} (F : fault -> Prop).
Implicit Types c : ecx_contextt L.

(** Marking [cnt] bytes from address [x]. *)
Lemma wp_esimap_mark x cnt Q c :
  zlen (esimap c) = EC_MAXEEPBITMAP -> 0 <= x -> 0 <= cnt -> x + cnt <= EC_MAXEEPBUF ->
  (forall m, zlen m = EC_MAXEEPBITMAP ->
     (forall a, 0 <= a -> marked m a = marked (esimap c) a || ((x <=? a) && (a <? x + cnt))) ->
     Q tt (c <| esimap := m |>)) ->
  wp F (esimap_mark (x / 32) (x mod 32) cnt) Q c.
Proof.
  change EC_MAXEEPBUF with 4096. change EC_MAXEEPBITMAP with 128. intros Hlen Hx Hc Hle HQ.
  unfold esimap_mark. apply wp_bind.
  pose (I := fun j (v : Z * Z) c' => v = ((x + j) / 32, (x + j) mod 32) /\ exists m,
    c' = c <| esimap := m |> /\ zlen m = 128
    /\ forall a, 0 <= a -> marked m a = marked (esimap c) a || ((x <=? a) && (a <? x + j))).
  eapply wp_mono; [apply (wp_for_range F I)|].
  - split; [by rewrite Z.add_0_r|]. exists (esimap c). split_and!; [by destruct c | done |].
    intros a Ha. replace ((x <=? a) && (a <? x + 0)) with false by lia. by rewrite orb_false_r.
  - intros j v c1 Hj (-> & m & -> & Hm & Hma). rewrite Z2Nat.id in Hj by done.
    pose proof (Z.mod_pos_bound (x + j) 32). pose proof (Z.div_mod (x + j) 32).
    apply wp_bind, wp_gets. cbn [esimap].
    assert (Hi : 0 <= (x + j) / 32 < zlen m) by (rewrite Hm; split; [apply Z.div_pos; lia | apply Z.div_lt_upper_bound; lia]).
    destruct (zget_some m _ Hi) as [w Hw].
    apply wp_bind. eapply wp_of_opt; [exact Hw|]. apply wp_bind.
    eapply wp_of_opt; [by apply zset_some|]. apply wp_bind, wp_modify, wp_ret.
    change (esimap (c <| esimap := m |>)) with m.
    pose proof (zset_some m _ (Z.lor w (Z.shiftl 1 ((x + j) mod 32))) Hi) as Hm'.
    remember (<[Z.to_nat ((x + j) / 32) := Z.lor w (Z.shiftl 1 ((x + j) mod 32))]> m) as m' eqn:Em. clear Em. split.
    + destruct (Z.ltb_spec 31 ((x + j) mod 32 + 1)).
      * assert (Hn : x + (j + 1) = ((x + j) / 32 + 1) * 32) by lia. rewrite Hn, Z.div_mul, Z.mod_mul by lia. done.
      * assert (Hn : x + (j + 1) = ((x + j) mod 32 + 1) + (x + j) / 32 * 32) by lia.
        rewrite Hn, Z.div_add, Z.mod_add by lia.
        by rewrite (Z.div_small (_ + 1)), (Z.mod_small (_ + 1)) by lia.
    + exists m'. split_and!; [done | by rewrite (zset_length _ _ _ _ Hm') |].
      intros a Ha. rewrite (marked_set _ _ _ _ a (Z.add_nonneg_nonneg _ _ Hx (proj1 Hj)) Ha Hw Hm'), Hma by done.
      rewrite <- orb_assoc. f_equal. lia.
  - intros v c1 (_ & m & -> & Hm & Hma). apply wp_ret. rewrite Z2Nat.id in Hma by done. by apply HQ.
Qed.
End Marks.

(** ** Coherence *)

Lemma zget_window f b n i : 0 <= i < Z.of_nat n -> zget (window f b n) i = Some (f (b + i)).
Proof.
  intros Hi. unfold zget, window. destruct (Z.ltb_spec i 0); [lia|].
  rewrite list_lookup_fmap, lookup_seq_lt by lia. cbn. f_equal. f_equal. lia.
Qed.

Lemma length_window f b n : length (window f b n) = n.
Proof. unfold window. by rewrite length_fmap, length_seq. Qed.

Lemma window_bytes f b n : (forall i, is_byte (f i)) -> bytes_ok (window f b n).
Proof. intros Hf. unfold window. apply Forall_fmap, Forall_true. intros i. apply Hf. Qed.

Lemma marked_clear n a : marked (replicate n 0) a = false.
Proof.
  unfold marked, zget. destruct (a / 32 <? 0); [done|].
  destruct (replicate n 0 !! Z.to_nat (a / 32)) as [w|] eqn:Hw; [|done].
  apply lookup_replicate in Hw as [-> _]. apply Z.bits_0.
Qed.

(** A byte as [ecx_siigetbyte] gives it. *)
Definition sii_byte (f : Z -> Z) (a : Z) : Z := if a <? EC_MAXEEPBUF then f a else 0xff.

Section Cache.
Context {L : Type} `{HL : LinkLaws L} `{LoopFuel} (adr : Z) (wide : bool) `{!EepromDevice L adr wide}.
Implicit Types c : ecx_contextt L.

Definition span : Z := if wide then 8 else 4.

(** The cache of [slave], whose EEPROM holds [f], is coherent. *)
Record sii_ok (slave : Z) (f : Z -> Z) c : Prop := SiiOk {
  so_healthy : healthy adr wide c;
  so_patient : ee_patient adr wide EC_TIMEOUTEEP;
  so_content : ee_content (dev adr wide c) = f;
  so_bytes : forall i, is_byte (f i);
  so_slave : exists s, zget (slavelist c) slave = Some s /\ configadr s = adr
               /\ negb (eep_8byte s =? 0) = wide;
  so_buf : zlen (esibuf c) = EC_MAXEEPBUF;
  so_map : zlen (esimap c) = EC_MAXEEPBITMAP;
  so_cache : esislave c = slave -> forall a, 0 <= a < EC_MAXEEPBUF ->
               marked (esimap c) a = true -> zget (esibuf c) a = Some (f a);
}.

(** The bytes a read of the word at [a] brings. *)
Lemma value_bytes f a :
  (forall i, is_byte (f i)) ->
  (wide = true -> le_bytes 8 (ee_value wide f a) = window f (2 * a) (Z.to_nat span))
  /\ (wide = false -> le_bytes 4 (u32 (ee_value wide f a)) = window f (2 * a) (Z.to_nat span)).
Proof.
  intros Hf. unfold ee_value, span. destruct wide; split; intros Hw; try done.
  - change (Z.to_nat 8) with 8%nat. rewrite <- (length_window f (2 * a) 8) at 1.
    by apply le_bytes_of_le, window_bytes.
  - change (Z.to_nat 4) with 4%nat.
    pose proof (of_le_bounds _ (window_bytes f (2 * a) 4 Hf)) as Hb. rewrite length_window in Hb.
    rewrite u32_id by exact Hb. rewrite <- (length_window f (2 * a) 4) at 1.
    by apply le_bytes_of_le, window_bytes.
Qed.

(** The addresses of which the cache can hold the whole word group. *)
Definition in_reach (a : Z) : Prop := EC_MAXEEPBUF <= a \/ 2 * (a / 2) + span <= EC_MAXEEPBUF.

Context (F : fault -> Prop).

Lemma span_values : span = 8 \/ span = 4.
Proof. unfold span. destruct wide; auto. Qed.

(** A byte address is one of the group read for its word. *)
Lemma word_of a : 0 <= a -> Z.shiftl (Z.shiftr a 1) 1 = 2 * (a / 2) /\ 2 * (a / 2) <= a < 2 * (a / 2) + 2.
Proof.
  intros Ha. rewrite Z.shiftl_mul_pow2, Z.shiftr_div_pow2 by lia. change (2 ^ 1) with 2.
  pose proof (Z.div_mod a 2). pose proof (Z.mod_pos_bound a 2). lia.
Qed.

(** Storing and marking the group of the word at [a]. *)
Lemma wp_fill slave f a Q c :
  sii_ok slave f c -> esislave c = slave -> 0 <= a < EC_MAXEEPBUF ->
  2 * (a / 2) + span <= EC_MAXEEPBUF ->
  (forall c', sii_ok slave f c' -> esislave c' = slave -> Q (f a) c') ->
  wp F (cache_fill slave a (ee_value wide f (Z.shiftr a 1))) Q c.
Proof.
  intros Hok Hes Ha Hr HQ. unfold cache_fill. destruct (so_slave _ _ _ Hok) as (s & Hs & Hadr & H8).
  destruct (word_of a ltac:(lia)) as [Hw2 Hwa]. rewrite Hw2.
  assert (Hw1 : Z.shiftr a 1 = a / 2) by (by rewrite Z.shiftr_div_pow2 by lia).
  destruct (value_bytes f (a / 2) (so_bytes _ _ _ Hok)) as [Hv8 Hv4]. rewrite Hw1.
  set (x := 2 * (a / 2)) in *. pose proof span_values as Hsp.
  assert (Hx : 0 <= x) by lia. pose proof (so_buf _ _ _ Hok) as Hbl.
  assert (Hlw : zlen (window f x (Z.to_nat span)) = span) by (unfold zlen; rewrite length_window; lia).
  pose proof (zblit_some (esibuf c) x (window f x (Z.to_nat span)) Hx ltac:(lia)) as Hz.
  remember (_ ++ _) as buf eqn:Eb in Hz. clear Eb.
  apply wp_bind, (wp_get_slave F slave s); [done|]. apply wp_bind.
  apply (wp_mono F _ (fun cnt c1 => cnt = span /\ c1 = c <| esibuf := buf |>)).
  { assert (Hput : forall bs, bs = window f x (Z.to_nat span) ->
      wp F (esibuf_put x bs) (fun _ c1 => c1 = c <| esibuf := buf |>) c).
    { intros bs ->. unfold esibuf_put. apply wp_bind, wp_gets, wp_bind.
      eapply wp_of_opt; [exact Hz|]. by apply wp_modify. }
    apply wp_if; intros Hwd; rewrite H8 in Hwd; apply wp_bind.
    - eapply wp_mono; [by apply Hput, Hv8|]. intros _ c1 ->. apply wp_ret. by split; [unfold span; rewrite Hwd|].
    - eapply wp_mono; [by apply Hput, Hv4|]. intros _ c1 ->. apply wp_ret. by split; [unfold span; rewrite Hwd|]. }
  intros cnt c1 [-> ->]. cbn beta zeta.
  assert (Hmw : Z.shiftr (a / 2) 4 = x / 32).
  { rewrite Z.shiftr_div_pow2 by lia. subst x. change (2 ^ 4) with 16.
    change 32 with (2 * 16). by rewrite Z.div_mul_cancel_l by lia. }
  assert (Hmb : u16 (x - Z.shiftl (Z.shiftr (a / 2) 4) 5) = x mod 32).
  { rewrite Hmw, Z.shiftl_mul_pow2 by lia. change (2 ^ 5) with 32.
    pose proof (Z.div_mod x 32). pose proof (Z.mod_pos_bound x 32).
    rewrite u16_id; [lia|]. change (2 ^ 16) with 65536. lia. }
  rewrite Hmw in *. rewrite Hmb. apply wp_bind. apply wp_esimap_mark; [apply (so_map _ _ _ Hok) | done | lia | done |].
  intros m Hml Hm. cbn [esimap] in Hm. change (esimap (c <| esibuf := buf |>)) with (esimap c) in Hm.
  assert (Hbuf : forall i, zget buf i = if decide (x <= i < x + span) then Some (f i) else zget (esibuf c) i).
  { intros i. rewrite (zget_zblit _ _ _ _ i Hz), Hlw. case_decide; [|done].
    rewrite zget_window by lia. f_equal. f_equal. lia. }
  apply wp_bind, wp_gets. cbn [esibuf]. change (esibuf (c <| esibuf := buf |> <| esimap := m |>)) with buf.
  eapply wp_of_opt; [rewrite Hbuf, decide_True by lia; done|].
  apply HQ; [|done]. destruct Hok as [Hy Hp Hc Hb Hsl Hbl' Hml' Hca]. split; try done.
  - change (zlen buf = EC_MAXEEPBUF). by rewrite (zblit_length _ _ _ _ Hz).
  - intros _ i Hi Hmi. change (marked m i = true) in Hmi. change (zget buf i = Some (f i)).
    rewrite Hbuf. case_decide as Hd; [done|]. rewrite Hm in Hmi by lia.
    apply Hca; [done | done |]. apply orb_true_iff in Hmi as [Hmi|Hmi]; [done | lia].
Qed.

Lemma map_position a : 0 <= a < EC_MAXEEPBUF ->
  Z.shiftr a 5 = a / 32 /\ u16 (a - Z.shiftl (Z.shiftr a 5) 5) = a mod 32.
Proof.
  change EC_MAXEEPBUF with 4096. intros Ha.
  assert (Hw : Z.shiftr a 5 = a / 32) by (by rewrite Z.shiftr_div_pow2 by lia). split; [done|].
  rewrite Hw, Z.shiftl_mul_pow2 by lia. change (2 ^ 5) with 32.
  pose proof (Z.div_mod a 32). pose proof (Z.mod_pos_bound a 32).
  rewrite u16_id; [lia|]. change (2 ^ 16) with 65536. lia.
Qed.

(** Reading a byte: from the cache, or from the EEPROM into it. *)
Lemma wp_siigetbyte_cases slave f a Q c :
  sii_ok slave f c -> 0 <= a ->
  (EC_MAXEEPBUF <= a -> forall c', sii_ok slave f c' -> Q 0xff c') ->
  (a < EC_MAXEEPBUF -> esislave c = slave -> marked (esimap c) a = true -> Q (f a) c) ->
  (a < EC_MAXEEPBUF -> forall c', sii_ok slave f c' -> esislave c' = slave ->
     wp F (cache_fill slave a (ee_value wide f (Z.shiftr a 1))) Q c') ->
  wp F (ecx_siigetbyte slave a) Q c.
Proof.
  intros Hok Ha Hfar Hhit Hmiss. unfold ecx_siigetbyte. apply wp_bind, wp_gets, wp_bind.
  apply (wp_mono F _ (fun _ c1 => sii_ok slave f c1 /\ esislave c1 = slave
           /\ (forall i, marked (esimap c1) i = true -> c1 = c))).
  { apply wp_when; intros Hes.
    - apply wp_modify. split_and!; [|done|].
      + destruct Hok as [Hy Hp Hc Hb Hsl Hbl Hml Hca]. split; try done.
        intros _ i _ Hm. cbn in Hm. by rewrite marked_clear in Hm.
      + intros i Hm. cbn in Hm. by rewrite marked_clear in Hm.
    - split_and!; [done | lia | done]. }
  intros _ c1 (Hok1 & Hes1 & Hsame). apply wp_if; intros Hlt; [|apply wp_ret, Hfar; [lia | done]].
  apply Z.ltb_lt in Hlt. destruct (map_position a ltac:(lia)) as [Hw Hbt].
  rewrite Hbt, Hw. apply wp_bind, wp_gets. pose proof (so_map _ _ _ Hok1) as Hml.
  change EC_MAXEEPBUF with 4096 in *. change EC_MAXEEPBITMAP with 128 in Hml.
  destruct (zget_some (esimap c1) (a / 32)) as [w Hwm].
  { split; [apply Z.div_pos; lia | rewrite Hml; apply Z.div_lt_upper_bound; lia]. }
  apply wp_bind. eapply wp_of_opt; [exact Hwm|]. rewrite land_bit by (apply Z.mod_pos_bound; lia).
  apply wp_if; intros Hbit.
  - assert (Hm : marked (esimap c1) a = true) by (unfold marked; by rewrite Hwm).
    pose proof (Hsame a Hm) as ->. apply wp_bind, wp_gets. eapply wp_of_opt; [|by apply Hhit].
    by apply (so_cache _ _ _ Hok Hes1).
  - clear Hsame. destruct (so_slave _ _ _ Hok1) as (s & Hs & Hadr & H8).
    apply wp_bind, (wp_get_slave F slave s); [done|].
    apply wp_bind, (wp_eeprom2master adr wide F slave s); [apply Hok1 | done | done |].
    intros r c2 Hy2 Hc2 E2. rewrite Hadr. apply wp_bind.
    apply (wp_readeepromFP adr wide); [|apply Hok1|done|].
    { rewrite Z.shiftr_div_pow2 by lia. change (2 ^ 1) with 2. split; [apply Z.div_pos; lia|].
      apply Z.div_lt_upper_bound; lia. }
    intros c3 Hk3. rewrite Hc2, (so_content _ _ _ Hok1).
    assert (E3 : c3 = (with_pdi slave s 0 c1) <| link := link c3 |>).
    { rewrite (kp_same _ _ _ _ Hk3), E2 at 1. by destruct c1. }
    apply Hmiss; [done | | by rewrite E3].
    destruct Hok1 as [Hy Hp Hc Hb Hsl Hbl Hml' Hca]. rewrite E3. split; try done.
    + rewrite <- E3. apply Hk3.
    + rewrite <- E3. rewrite (kp_content _ _ _ _ Hk3). congruence.
    + exists (s <| eep_pdi := 0 |>). split; [|done]. cbn. pose proof (zget_lt _ _ _ Hs).
      by eapply zget_zset_eq, zset_some.
Qed.

(** A byte read through the cache is the byte of the EEPROM. *)
Lemma wp_siigetbyte slave f a Q c :
  sii_ok slave f c -> 0 <= a -> in_reach a ->
  (forall c', sii_ok slave f c' -> Q (sii_byte f a) c') ->
  wp F (ecx_siigetbyte slave a) Q c.
Proof.
  intros Hok Ha Hr HQ. unfold sii_byte in HQ. apply (wp_siigetbyte_cases slave f); [done..| | |].
  - intros Hge c' Hok'. replace (a <? EC_MAXEEPBUF) with false in HQ by lia. by apply HQ.
  - intros Hlt _ _. replace (a <? EC_MAXEEPBUF) with true in HQ by lia. by apply HQ.
  - intros Hlt c' Hok' Hes. replace (a <? EC_MAXEEPBUF) with true in HQ by lia.
    destruct Hr as [Hr|Hr]; [lia|]. apply wp_fill; [done..|by intros c2 Hok2 _; apply HQ].
Qed.

(** Past the end of the cache buffer the group does not fit. *)
Lemma fill_overruns slave f a c :
  sii_ok slave f c -> 0 <= a -> EC_MAXEEPBUF < 2 * (a / 2) + span ->
  cache_fill slave a (ee_value wide f (Z.shiftr a 1)) c = Err OutOfBounds.
Proof.
  intros Hok Ha Hlt. destruct (so_slave _ _ _ Hok) as (s & Hs & Hadr & H8).
  destruct (word_of a Ha) as [Hw _]. unfold cache_fill. rewrite Hw.
  assert (Hput : forall n v, Z.of_nat n = span -> esibuf_put (2 * (a / 2)) (le_bytes n v) c = Err OutOfBounds).
  { intros n v Hn. unfold esibuf_put, bind, gets, zblit. pose proof (so_buf _ _ _ Hok) as Hb.
    assert (Hl : zlen (le_bytes n v) = span) by (unfold zlen; by rewrite length_le_bytes).
    rewrite Hb, Hl.
    replace ((0 <=? 2 * (a / 2)) && (2 * (a / 2) + span <=? EC_MAXEEPBUF)) with false by lia. done. }
  assert (Hg : get_slave slave c = Ok (s, c)).
  { unfold get_slave, bind, gets, of_opt. by rewrite Hs. }
  rewrite (bind_ok _ _ _ _ _ Hg). apply bind_err. rewrite H8. unfold span in Hput.
  assert (Hb : wide = true \/ wide = false) by (clear; destruct wide; auto).
  destruct Hb as [E|E]; rewrite E in Hput |- *; apply bind_err, Hput; done.
Qed.
End Cache.

(** ** The chain of sections *)

Definition sii_word_at (f : Z -> Z) (a : Z) : Z := sii_byte f a + 256 * sii_byte f (a + 1).

(** Bytes [a..a+n-1] can be read. *)
Definition readable (wide : bool) (a n : Z) : Prop := 0 <= a /\ forall i, a <= i < a + n -> in_reach wide i.

(** The sections from position [pos] on: category and byte address of the length word. *)
Inductive sii_chain (wide : bool) (f : Z -> Z) : Z -> list (Z * Z) -> Prop :=
| chain_end pos : readable wide pos 2 -> sii_word_at f pos = 0xffff -> sii_chain wide f pos []
| chain_section pos cat secs :
    readable wide pos 4 -> sii_word_at f pos = cat -> cat <> 0xffff ->
    pos + 4 + 2 * sii_word_at f (pos + 2) < 32766 ->
    sii_chain wide f (pos + 4 + 2 * sii_word_at f (pos + 2)) secs ->
    sii_chain wide f pos ((cat, pos + 2) :: secs).

(** The first section of a category, 0 when there is none. *)
Definition section_of (cat : Z) (secs : list (Z * Z)) : Z :=
  default 0 (snd <$> find (fun s => s.1 =? cat) secs).

Section Find.
Context {L : Type} `{HL : LinkLaws L} `{LoopFuel} (adr : Z) (wide : bool) `{!EepromDevice L adr wide}.
Context (F : fault -> Prop) (slave : Z) (f : Z -> Z).
Implicit Types c : ecx_contextt L.
Abbreviation ok := (sii_ok adr wide slave f).

Lemma sii_byte_range c a : ok c -> 0 <= sii_byte f a < 256.
Proof. intros Hok. unfold sii_byte. destruct (a <? EC_MAXEEPBUF); [apply (so_bytes _ _ _ _ _ Hok) | lia]. Qed.

Lemma wp_sii_word a Q c :
  ok c -> readable wide a 2 -> a + 1 < 65536 ->
  (forall c', ok c' -> Q (sii_word_at f a) c') -> wp F (sii_word slave a) Q c.
Proof.
  intros Hok [Ha Hr] Hlt HQ. unfold sii_word. rewrite !u16_id by (change (2 ^ 16) with 65536; lia).
  apply wp_bind, (wp_siigetbyte adr wide F slave f); [done | done | apply Hr; lia |]. intros c1 Hok1.
  apply wp_bind, (wp_siigetbyte adr wide F slave f); [done | lia | apply Hr; lia |]. intros c2 Hok2.
  apply wp_ret. rewrite Z.shiftl_mul_pow2 by lia. change (2 ^ 8) with 256.
  pose proof (sii_byte_range c a Hok). pose proof (sii_byte_range c (a + 1) Hok).
  rewrite u16_id by (change (2 ^ 16) with 65536; lia).
  rewrite (Z.mul_comm (sii_byte f (a + 1))). by apply HQ.
Qed.

Lemma wp_restore_eectl e Q c : ok c -> (forall c', ok c' -> Q tt c') -> wp F (restore_eectl e slave) Q c.
Proof.
  intros Hok HQ. unfold restore_eectl. apply wp_when; intros _; [|by apply HQ].
  destruct (so_slave _ _ _ _ _ Hok) as (s & Hs & Ha & H8).
  apply wp_bind. unfold ecx_eeprom2pdi. apply wp_bind, (wp_get_slave F slave s); [done|].
  apply wp_if; intros Hp; [|by apply wp_ret, wp_ret, HQ].
  rewrite Ha. apply wp_bind, (wp_cfg adr wide); [apply Hok|]. intros c1 Hk1.
  apply wp_bind, (wp_mod_slave F slave s); [by rewrite (kp_same _ _ _ _ Hk1)|]. do 2 apply wp_ret. apply HQ.
  destruct Hok as [Hy Hp' Hc Hb _ Hbl Hml Hca]. pose proof (kp_same _ _ _ _ Hk1) as E1.
  split; cbn; try done.
  - apply Hk1.
  - change (ee_content (dev adr wide c1) = f). rewrite (kp_content _ _ _ _ Hk1). done.
  - exists (s <| eep_pdi := 1 |>). split; [|done]. rewrite E1. cbn. pose proof (zget_lt _ _ _ Hs).
    by eapply zget_zset_eq, zset_some.
  - by rewrite E1.
  - by rewrite E1.
  - by rewrite E1.
Qed.

(** The traversal, from behind the category word of the section at [pos]. *)
Lemma wp_siifind_walk cat secs : forall pos n Q c,
  cat <> 0xffff -> sii_chain wide f pos secs -> pos < 32766 -> (length secs < n)%nat -> ok c ->
  (forall a p c', ok c' -> (p =? cat) = true -> a = section_of cat secs -> Q (a, p) c') ->
  (forall a p c', ok c' -> (p =? cat) = false -> 0 = section_of cat secs -> Q (a, p) c') ->
  wp F (while_do n (fun '(a, p) => ret (negb (p =? cat) && negb (p =? 0xffff)))
    (fun '(a, p) =>
       let* p := sii_word slave a in
       let a := s16 (a + 2) in
       let a := s16 (a + Z.shiftl p 1) in
       let* p := sii_word slave a in
       ret (s16 (a + 2), p)) (pos + 2, sii_word_at f pos)) Q c.
Proof.
  induction secs as [|[cat' loc] secs IH]; intros pos n Q c Hcat Hch Hpos Hn Hok Hyes Hno.
  all: destruct n as [|n]; [cbn in Hn; lia|]; cbn [while_do]; apply wp_bind, wp_ret.
  - inversion Hch as [? Hr Hw|]; subst. rewrite Hw.
    replace (0xffff =? cat) with false by lia. cbn. apply wp_ret. apply Hno; [done | lia | done].
  - inversion Hch as [|? ? ? Hr Hw Hne Hlt Hch']; subst.
    destruct (Z.eqb_spec (sii_word_at f pos) cat) as [Heq|Hneq].
    + cbn [negb andb]. apply wp_ret. apply Hyes; [done | lia |]. unfold section_of. cbn.
      by replace (sii_word_at f pos =? cat) with true by lia.
    + replace (sii_word_at f pos =? 0xffff) with false by lia. cbn [negb andb].
      destruct Hr as [Hr0 Hr]. pose proof (sii_byte_range c (pos + 2) Hok).
      pose proof (sii_byte_range c (pos + 2 + 1) Hok).
      assert (Hlen : 0 <= sii_word_at f (pos + 2)) by (unfold sii_word_at; lia).
      apply wp_bind, wp_bind, wp_sii_word; [done | split; [lia | intros; apply Hr; lia] | lia |].
      intros c1 Hok1. rewrite Z.shiftl_mul_pow2 by lia. change (2 ^ 1) with 2.
      rewrite (s16_id (pos + 2 + 2)) by lia. rewrite (s16_id (pos + 2 + 2 + _)) by lia.
      replace (pos + 2 + 2 + sii_word_at f (pos + 2) * 2) with (pos + 4 + 2 * sii_word_at f (pos + 2)) by lia.
      assert (Hrd : readable wide (pos + 4 + 2 * sii_word_at f (pos + 2)) 2).
      { inversion Hch' as [? Hr' ? | ? ? ? Hr' ? ? ? ?]; subst; [done|].
        destruct Hr' as [? Hr']. split; [done | intros; apply Hr'; lia]. }
      apply wp_bind, wp_sii_word; [done | done | lia |]. intros c2 Hok2. apply wp_ret.
      rewrite s16_id by lia. cbn in Hn. apply IH; [done | done | lia | lia | done | |].
      all: assert (Hsec : section_of cat ((sii_word_at f pos, pos + 2) :: secs) = section_of cat secs)
        by (unfold section_of; cbn [find fst]; by replace (sii_word_at f pos =? cat) with false by lia).
      all: rewrite Hsec in *; done.
Qed.
End Find.

(** ** The properties *)

(** C26: On a slave whose EEPROM works and answers within [EC_TIMEOUTEEP], every byte read
    through the cache is the byte of the EEPROM when its group of 4 or 8 bytes lies in the
    cache, and 0xff from [EC_MAXEEPBUF] on, whichever slave was read before and whatever is
    cached, and the cache stays coherent.  The addresses in between are not [in_reach]:
    [siigetbyte_overruns]. *)
Theorem siigetbyte_reads_eeprom {L} `{HL : LinkLaws L} `{LoopFuel} (adr : Z) (wide : bool)
    `{!EepromDevice L adr wide} (slave : Z) (f : Z -> Z) (a : Z) (c : ecx_contextt L) :
  sii_ok adr wide slave f c -> 0 <= a -> in_reach wide a ->
  wp no_fault (ecx_siigetbyte slave a) (fun r c' => r = sii_byte f a /\ sii_ok adr wide slave f c') c.
Proof. intros Hok Ha Hr. by apply (wp_siigetbyte adr wide no_fault slave f). Qed.

(** The last addresses are not safe: with a cold cache, reading a byte whose group of
    4 or 8 bytes does not fit below [EC_MAXEEPBUF] writes outside the cache buffer. *)
Theorem siigetbyte_overruns {L} `{HL : LinkLaws L} `{LoopFuel} (adr : Z) (wide : bool)
    `{!EepromDevice L adr wide} (slave : Z) (f : Z -> Z) (a : Z) (c : ecx_contextt L) :
  sii_ok adr wide slave f c -> esislave c <> slave -> 0 <= a < EC_MAXEEPBUF -> ~ in_reach wide a ->
  ecx_siigetbyte slave a c = Err OutOfBounds.
Proof.
  intros Hok Hes Ha Hr.
  assert (Hwp : wp (fun e => e = OutOfBounds) (ecx_siigetbyte slave a) (fun _ _ => False) c).
  { apply (wp_siigetbyte_cases adr wide _ slave f); [done | lia | lia | done |].
    intros _ c' Hok' _. unfold wp. rewrite (fill_overruns adr wide slave f); [done | done | lia |].
    unfold in_reach in Hr. lia. }
  unfold wp in Hwp. destruct (ecx_siigetbyte slave a c) as [[x c']|e]; [done | by subst].
Qed.

(** C36: On a slave whose EEPROM works and answers within [EC_TIMEOUTEEP], the search for a
    section other than 0xffff returns the address of the first section of the category, and 0
    when no section has it, when the chain of sections ends, has its headers within reach of the
    cache and stays below byte 32766 ([sii_chain]). *)
Theorem siifind_finds {L} `{HL : LinkLaws L} `{LoopFuel} (adr : Z) (wide : bool)
    `{!EepromDevice L adr wide} (slave : Z) (f : Z -> Z) (cat : Z) (secs : list (Z * Z))
    (c : ecx_contextt L) :
  sii_ok adr wide slave f c -> cat <> 0xffff ->
  sii_chain wide f (2 * ECT_SII_START) secs -> (length secs < loop_fuel)%nat ->
  wp no_fault (ecx_siifind slave cat)
    (fun r c' => r = section_of cat secs /\ sii_ok adr wide slave f c') c.
Proof.
  intros Hok Hcat Hch Hf. change (2 * ECT_SII_START) with 128 in Hch. unfold ecx_siifind.
  destruct (so_slave _ _ _ _ _ Hok) as (s & Hs & _).
  apply wp_bind, (wp_get_slave no_fault slave s); [done|].
  change (Z.shiftl ECT_SII_START 1) with 128. apply wp_bind, (wp_sii_word adr wide no_fault slave f).
  { done. }
  { inversion Hch as [? Hr ?|? ? ? Hr ? ? ? ?]; subst; [done|].
    destruct Hr as [? Hr]. split; [done | intros; apply Hr; lia]. }
  { lia. }
  intros c1 Hok1. change (s16 (128 + 2)) with (128 + 2). unfold siifind_walk.
  apply wp_bind, (wp_siifind_walk adr wide no_fault slave f cat secs); [done | done | lia | done | done | |].
  all: intros a p c2 Hok2 Hp Ha; cbn [fst snd]; rewrite Hp; cbn [negb];
    apply wp_bind, (wp_restore_eectl adr wide no_fault slave f); [done|]; intros c3 Hok3; by apply wp_ret.
Qed.

(** A malformed EEPROM hangs the search: when the first section is not the one looked
    for and its length word is 0x7ffe, the 16-bit address comes back to the header it
    started from and no fuel is enough. *)
Theorem siifind_hangs {L} `{HL : LinkLaws L} `{LoopFuel} (adr : Z) (wide : bool)
    `{!EepromDevice L adr wide} (slave : Z) (f : Z -> Z) (cat : Z) (c : ecx_contextt L) :
  sii_ok adr wide slave f c -> sii_word_at f (2 * ECT_SII_START) <> cat ->
  sii_word_at f (2 * ECT_SII_START) <> 0xffff ->
  sii_word_at f (2 * ECT_SII_START + 2) = 0x7ffe ->
  ecx_siifind slave cat c = Err OutOfFuel.
Proof.
  change (2 * ECT_SII_START) with 128. intros Hok Hne Hnend Hlen.
  set (F := fun e => e = OutOfFuel).
  assert (Hrd : forall a, 0 <= a <= 200 -> readable wide a 2).
  { intros a Ha. split; [lia|]. intros i Hi. right. pose proof (span_values adr wide).
    pose proof (Z.div_mod i 2). pose proof (Z.mod_pos_bound i 2). change EC_MAXEEPBUF with 4096. lia. }
  assert (Hloop : forall n c, sii_ok adr wide slave f c ->
    wp F (while_do n (fun '(a, p) => ret (negb (p =? cat) && negb (p =? 0xffff)))
      (fun '(a, p) =>
         let* p := sii_word slave a in
         let a := s16 (a + 2) in
         let a := s16 (a + Z.shiftl p 1) in
         let* p := sii_word slave a in
         ret (s16 (a + 2), p)) (130, sii_word_at f 128)) (fun _ _ => False) c).
  { intros n. induction n as [|n IH]; intros c0 Hok0; [done|]. cbn [while_do]. apply wp_bind, wp_ret.
    replace (sii_word_at f 128 =? cat) with false by lia.
    replace (sii_word_at f 128 =? 0xffff) with false by lia. cbn [negb andb].
    apply wp_bind, wp_bind, (wp_sii_word adr wide F slave f); [done | by apply Hrd | lia |].
    intros c1 Hok1. change (128 + 2) with 130 in Hlen. rewrite Hlen.
    change (s16 (s16 (130 + 2) + Z.shiftl 0x7ffe 1)) with 128.
    apply wp_bind, (wp_sii_word adr wide F slave f); [done | by apply Hrd | lia |].
    intros c2 Hok2. apply wp_ret. by apply IH. }
  assert (Hwp : wp F (ecx_siifind slave cat) (fun _ _ => False) c).
  { unfold ecx_siifind. destruct (so_slave _ _ _ _ _ Hok) as (s & Hs & _).
    apply wp_bind, (wp_get_slave F slave s); [done|]. change (Z.shiftl ECT_SII_START 1) with 128.
    apply wp_bind, (wp_sii_word adr wide F slave f); [done | by apply Hrd | lia |].
    intros c1 Hok1. change (s16 (128 + 2)) with 130. apply wp_bind. unfold siifind_walk.
    eapply wp_mono; [by apply Hloop | done]. }
  unfold wp in Hwp. destruct (ecx_siifind slave cat c) as [[x c']|e]; [done | unfold F in Hwp; by subst].
Qed.

(** ** Witnesses *)

#[local] Instance fuel_ten : LoopFuel := 10%nat.

(** An EEPROM with a string section of two words and a sync manager section, and its end. *)
Definition eeprom_two (i : Z) : Z :=
  default 0xff (zget (replicate 128 0 ++ [10; 0; 2; 0; 1; 2; 65; 66; 41; 0; 0; 0]) i).
(** One with the length that leads back. *)
Definition eeprom_back (i : Z) : Z := default 0 (zget (replicate 128 0 ++ [30; 0; 0xfe; 0x7f]) i).

Definition sii_ctx (f : Z -> Z) : ecx_contextt eesim := ctx0 (EeSim (EeDev f 0 0 1 3) 0).

Lemma default_byte d l i : is_byte d -> bytes_ok l -> is_byte (default d (zget l i)).
Proof.
  intros Hd Hl. destruct (zget l i) as [b|] eqn:Hb; [|done]. cbn. unfold zget in Hb.
  destruct (i <? 0); [done|]. by eapply Forall_lookup_1.
Qed.

Lemma sii_ctx_ok f : (forall i, is_byte (f i)) -> sii_ok 0x1001 true 1 f (sii_ctx f).
Proof.
  intros Hf. split; try done.
  - split; [exact Hf|]. unfold loop_fuel, fuel_ten. cbn. lia.
  - by exists slave0.
Qed.

Lemma eeprom_two_bytes i : is_byte (eeprom_two i).
Proof. apply default_byte; [done|]. apply Forall_app. split; [by apply Forall_replicate | repeat constructor; done]. Qed.
Lemma eeprom_back_bytes i : is_byte (eeprom_back i).
Proof. apply default_byte; [done|]. apply Forall_app. split; [by apply Forall_replicate | repeat constructor; done]. Qed.

Lemma siigetbyte_reads_eeprom_witness :
  wp no_fault (ecx_siigetbyte 1 134) (fun r _ => r = 65) (sii_ctx eeprom_two).
Proof.
  eapply wp_mono.
  { apply (siigetbyte_reads_eeprom 0x1001 true 1 eeprom_two 134);
      [exact (sii_ctx_ok _ eeprom_two_bytes) | lia | right; vm_compute; discriminate]. }
  intros r c' [-> _]. reflexivity.
Defined.

Lemma siigetbyte_overruns_witness : ecx_siigetbyte 1 4095 (sii_ctx eeprom_two) = Err OutOfBounds.
Proof.
  apply (siigetbyte_overruns 0x1001 true 1 eeprom_two 4095).
  - exact (sii_ctx_ok _ eeprom_two_bytes).
  - discriminate.
  - split; [discriminate | reflexivity].
  - intros [Hr|Hr]; vm_compute in Hr; apply Hr; reflexivity.
Defined.

Lemma eeprom_two_chain : sii_chain true eeprom_two 128 [(10, 130); (41, 138)].
Proof.
  assert (Hrd : forall a n, 0 <= a -> a + n <= 200 -> readable true a n).
  { intros a n Ha Hn. split; [done|]. intros i Hi. right. unfold span. change EC_MAXEEPBUF with 4096.
    pose proof (Z.div_mod i 2). pose proof (Z.mod_pos_bound i 2). lia. }
  apply (chain_section true eeprom_two 128); [by apply Hrd | reflexivity | lia | reflexivity |].
  change (128 + 4 + 2 * sii_word_at eeprom_two (128 + 2)) with 136.
  apply (chain_section true eeprom_two 136); [by apply Hrd | reflexivity | lia | reflexivity |].
  change (136 + 4 + 2 * sii_word_at eeprom_two (136 + 2)) with 140.
  apply (chain_end true eeprom_two 140); [by apply Hrd | reflexivity].
Qed.

Lemma siifind_finds_witness :
  wp no_fault (ecx_siifind 1 ECT_SII_SM) (fun r _ => r = 138) (sii_ctx eeprom_two).
Proof.
  eapply wp_mono.
  { apply (siifind_finds 0x1001 true 1 eeprom_two ECT_SII_SM [(10, 130); (41, 138)]);
      [exact (sii_ctx_ok _ eeprom_two_bytes) | discriminate | exact eeprom_two_chain | unfold loop_fuel, fuel_ten; cbn; lia]. }
  intros r c' [-> _]. reflexivity.
Defined.

Lemma siifind_hangs_witness : ecx_siifind 1 ECT_SII_STRING (sii_ctx eeprom_back) = Err OutOfFuel.
Proof.
  apply (siifind_hangs 0x1001 true 1 eeprom_back).
  - exact (sii_ctx_ok _ eeprom_back_bytes).
  - discriminate.
  - discriminate.
  - reflexivity.
Defined.
