(* ===== verification/DcSpec.v ===== *)
(** * Steps of the clock configuration

    The rules for the steps of [ecx_configdc] that work on one slave: what they leave of this
    slave, and that they leave the others alone. *)

From S2P Require Import Prelude Types Osal ErrorRing Mailbox Context Dc.
From S2P Require Import NicRecv Transfer LinkSpec.

(** Membership in the list of reads or of writes. *)
Ltac data_len := unfold zlen; rewrite ?length_le_bytes; cbn; lia.
Ltac in_ops := rewrite !elem_of_cons; auto.

(** ** Work on one slave *)

Section Focus.
Context {L : Type} `{HL : LinkLaws L} (F : fault -> Prop).
Abbreviation ctx := (ecx_contextt L).
Implicit Types c : ctx.

(** Slave [i] is [s], the other slaves are those of [l], the counts and groups are [c0]'s. *)
Record focus (i : Z) (s : ec_slavet) (l : list ec_slavet) (c0 c : ctx) : Prop := Focus {
  fo_ok : lk_ok (link c);
  fo_count : slavecount c = slavecount c0;
  fo_groups : grouplist c = grouplist c0;
  fo_len : zlen (slavelist c) = zlen l;
  fo_here : zget (slavelist c) i = Some s;
  fo_rest : forall j, j <> i -> zget (slavelist c) j = zget l j;
}.

Lemma focus_refl i s c : lk_ok (link c) -> zget (slavelist c) i = Some s ->
  focus i s (slavelist c) c c.
Proof. by split. Qed.

Lemma focus_link i s l c0 c c' : focus i s l c0 c -> link_step c c' -> focus i s l c0 c'.
Proof. intros [] [-> Hok _]. by split. Qed.

Lemma wp_focus_get i s l c0 Q c : focus i s l c0 c -> Q s c -> wp F (get_slave i) Q c.
Proof. intros Hf. apply wp_get_slave, Hf. Qed.

Lemma wp_focus_get_other i s l c0 j p Q c : focus i s l c0 c -> j <> i -> zget l j = Some p ->
  Q p c -> wp F (get_slave j) Q c.
Proof. intros Hf Hj Hp. apply wp_get_slave. by rewrite (fo_rest _ _ _ _ _ Hf). Qed.

Lemma wp_focus_mod i s l c0 f Q c : focus i s l c0 c ->
  (forall c', focus i (f s) l c0 c' -> Q tt c') -> wp F (mod_slave i f) Q c.
Proof.
  intros [] HQ. eapply wp_mod_slave; [done|]. apply HQ. pose proof (zget_lt _ _ _ fo_here0).
  split; cbn; rewrite ?zlen_insert, ?zget_insert by done; [done.. | by rewrite decide_True by done|].
  intros j Hj. rewrite zget_insert by done. rewrite decide_False by done. auto.
Qed.

Lemma wp_focus_mod_other i s l c0 j p f Q c : focus i s l c0 c -> j <> i -> zget l j = Some p ->
  (forall c', focus i s (<[Z.to_nat j := f p]> l) c0 c' -> Q tt c') -> wp F (mod_slave j f) Q c.
Proof.
  intros [] Hj Hp HQ. pose proof (zget_lt _ _ _ Hp).
  eapply wp_mod_slave; [by rewrite fo_rest0|]. apply HQ.
  split; cbn; rewrite ?zlen_insert, ?zget_insert by lia; [done.. | by rewrite decide_False|].
  intros k Hk. rewrite !zget_insert by lia. destruct (decide _); auto.
Qed.

(** Looking at another slave: the first one is put back into the list. *)
Lemma focus_move i s l c0 j p c : focus i s l c0 c -> j <> i -> zget l j = Some p ->
  focus j p (<[Z.to_nat i := s]> l) c0 c.
Proof.
  intros [] Hj Hp. pose proof (zget_lt _ _ _ fo_here0).
  split; try done; [by rewrite zlen_insert | by rewrite fo_rest0 |].
  intros k Hk. rewrite zget_insert by lia. destruct (decide _); subst; auto.
Qed.
End Focus.

(** ** Latched times *)

Section Latch.
Context {L : Type} `{HL : LinkLaws L} `{LoopFuel} (F : fault -> Prop).
Abbreviation ctx := (ecx_contextt L).
Implicit Types c : ctx.
Context (Hpat : lk_patient EC_TIMEOUTRET).

(** A read of the time of port [p] from address [adr] brings a value [R] allows. *)
Definition reads (R : Z -> Z -> Prop) (adr : Z) : Prop := forall p ht c,
  0 <= p < 4 -> lk_ok (link c) ->
  wp no_fault (dc_read_ht adr (ECT_REG_DCTIME0 + 4 * p) ht) (fun v c' => R p v /\ link_step c c') c.

Lemma reads_any adr : reads (fun _ _ => True) adr.
Proof.
  intros p ht c Hp Hc. apply wp_bind, (wp_ctx_read no_fault lk_FPRD); [in_ops | done | done | ec_unfold; lia | data_len |].
  intros r c' _ _ Hs. by apply wp_ret.
Qed.

Definition set_times (a b d e : Z) (s : ec_slavet) : ec_slavet :=
  s <| DCrtA := a |> <| DCrtB := b |> <| DCrtC := d |> <| DCrtD := e |>.

Lemma wp_read_time R i s l c0 adr p ht Q c : reads R adr -> 0 <= p < 4 -> focus i s l c0 c ->
  (forall v c', R p v -> focus i s l c0 c' -> Q v c') ->
  wp F (dc_read_ht adr (ECT_REG_DCTIME0 + 4 * p) ht) Q c.
Proof.
  intros HR Hp Hf HQ. apply wp_total. eapply wp_mono; [apply HR; [done | apply Hf]|].
  intros v c' [Hv Hs]. apply HQ; [done|]. by eapply focus_link.
Qed.

Lemma wp_dc_latch R i s l c0 mt lc Q c : reads R (configadr s) -> focus i s l c0 c ->
  (forall a b d e t h c', R 0 a -> R 1 b -> R 2 d -> R 3 e ->
     focus i (set_times a b d e s) l c0 c' -> Q (lc <| ht := t |> <| hrt := h |>) c') ->
  wp F (dc_latch i mt lc) Q c.
Proof.
  intros HR Hf HQ. unfold dc_latch. apply wp_bind. eapply wp_focus_get; [exact Hf|].
  apply wp_bind. eapply (wp_read_time R _ _ _ _ _ 0); [exact HR | lia | exact Hf |]. intros a c1 Ha F1.
  apply wp_bind. eapply wp_focus_mod; [exact F1|]. intros c2 F2.
  apply wp_bind, (wp_ctx_read F lk_FPRD); [in_ops | apply F2 | done | ec_unfold; lia | data_len |].
  intros r c3 _ _ S3. pose proof (focus_link _ _ _ _ _ _ F2 S3) as F3.
  apply wp_bind, (wp_ctx_write F lk_FPWR); [in_ops | apply F3 | done | ec_unfold; lia | data_len |].
  intros w c4 _ S4. pose proof (focus_link _ _ _ _ _ _ F3 S4) as F4.
  apply wp_bind. eapply (wp_read_time R _ _ _ _ _ 1); [exact HR | lia | exact F4 |]. intros b c5 Hb F5.
  apply wp_bind. eapply wp_focus_mod; [exact F5|]. intros c6 F6.
  apply wp_bind. eapply (wp_read_time R _ _ _ _ _ 2); [exact HR | lia | exact F6 |]. intros d c7 Hd F7.
  apply wp_bind. eapply wp_focus_mod; [exact F7|]. intros c8 F8.
  apply wp_bind. eapply (wp_read_time R _ _ _ _ _ 3); [exact HR | lia | exact F8 |]. intros e c9 He F9.
  apply wp_bind. eapply wp_focus_mod; [exact F9|]. intros c10 F10.
  apply wp_ret. eapply HQ; [exact Ha | exact Hb | exact Hd | exact He | exact F10].
Qed.

(** ** Entry port *)

Definition lists_ok (lc : dc_locals) : Prop := length (plist lc) = 4%nat /\ length (tlist lc) = 4%nat.

(** The entry port of a slave with some active port. *)
Definition choose_entry (s : ec_slavet) (lc : dc_locals) : Z :=
  let r := port_list s (plist lc) (tlist lc) in u8 (nth (lowest_time r.1 r.2.2) r.2.1 0).

Lemma wp_dc_entryport i s l c0 lc Q c : focus i s l c0 c -> lists_ok lc ->
  (forall lc' c', parenthold lc' = parenthold lc -> prevDCslave lc' = prevDCslave lc -> lists_ok lc' ->
     focus i (s <| entryport := choose_entry s lc |>
                <| consumedports ::= (fun b => Z.land b (u8 (Z.lnot (Z.shiftl 1 (choose_entry s lc))))) |>)
       l c0 c' -> Q lc' c') ->
  wp F (dc_entryport i lc) Q c.
Proof.
  intros Hf [Hp Ht] HQ. unfold dc_entryport. apply wp_bind. eapply wp_focus_get; [exact Hf|].
  destruct (port_list s (plist lc) (tlist lc)) as [nlist [pl tl]] eqn:Hpl.
  assert (length pl = 4%nat /\ length tl = 4%nat) as [Hpl' Htl'].
  { unfold port_list in Hpl. repeat destruct (has_port _ _); inversion Hpl; subst; cbn;
      rewrite ?length_insert; done. }
  apply wp_bind. eapply wp_focus_mod; [exact Hf|]. intros c1 F1. apply wp_ret.
  apply HQ; [done..|]. unfold choose_entry. by rewrite Hpl.
Qed.

(** The active ports, in the order of the list, and the choice among them. *)
Definition active_ports (aport : Z) : list Z :=
  (if has_port aport PORTM0 then [0] else []) ++ (if has_port aport PORTM3 then [3] else [])
  ++ (if has_port aport PORTM1 then [1] else []) ++ (if has_port aport PORTM2 then [2] else []).
Definition earliest (T : Z -> Z) (ports : list Z) : Z :=
  match ports with
  | [] => 0
  | p :: ps => fold_left (fun e p => if T p <? T e then p else e) ps p
  end.

Lemma choose_entry_earliest s lc : lists_ok lc -> active_ports (activeports s) <> [] ->
  choose_entry s lc = earliest (porttime s) (active_ports (activeports s)).
Proof.
  intros [Hp Ht].
  destruct lc as [ph pv h1 h2 pl tl]; cbn in Hp, Ht.
  destruct pl as [|p0 [|p1 [|p2 [|p3 [|]]]]]; try discriminate Hp.
  destruct tl as [|t0 [|t1 [|t2 [|t3 [|]]]]]; try discriminate Ht.
  unfold choose_entry, port_list, active_ports. cbn [plist tlist].
  generalize (activeports s) as ap. intros ap.
  destruct (has_port _ PORTM0), (has_port _ PORTM1), (has_port _ PORTM2), (has_port _ PORTM3);
    cbn; intros Hne; try congruence.
  all: unfold lowest_time; cbn -[Z.ltb u8].
  all: repeat (match goal with
               | |- context [?x <? ?y] =>
                   lazymatch y with context [if _ then _ else _] => fail | _ => destruct (x <? y) end
               end; cbn -[Z.ltb u8]).
  all: try reflexivity.
Qed.

Lemma earliest_min T ports : ports <> [] ->
  earliest T ports ∈ ports /\ forall p, p ∈ ports -> T (earliest T ports) <= T p.
Proof.
  destruct ports as [|p0 ps]; [done | intros _]. cbn. revert p0.
  induction ps as [|p ps IH]; intros p0; cbn.
  - split; [by left|]. intros p Hp. apply list_elem_of_singleton in Hp as ->. lia.
  - destruct (IH (if T p <? T p0 then p else p0)) as [Hin Hmin]. destruct (Z.ltb_spec (T p) (T p0)).
    all: split; [rewrite !elem_of_cons in *; tauto|].
    all: intros q; rewrite !elem_of_cons; intros [->|[->|Hq]];
      [ | | apply Hmin; by right]; etransitivity; try (apply Hmin; by left); lia.
Qed.

(** ** Chaining and delays *)

Definition groups_kept (c c' : ctx) : Prop :=
  forall g, is_Some (zget (grouplist c) g) -> is_Some (zget (grouplist c') g).

Lemma wp_dc_chain i prev s master l c0 Q c :
  focus i s l c0 c -> 1 <= i -> zget l 0 = Some master ->
  is_Some (zget (grouplist c0) (group s)) ->
  (s_hasdc master = true -> prev <> i /\ is_Some (zget l prev)) ->
  (forall c1 c', s_hasdc master = false -> slavecount c1 = slavecount c0 -> groups_kept c0 c1 ->
     focus i (s <| DCprevious := 0 |>)
       (<[0%nat := master <| s_hasdc := true |> <| s_DCnext := i |>]> l) c1 c' -> Q tt c') ->
  (forall p c', s_hasdc master = true -> zget l prev = Some p ->
     focus i (s <| DCprevious := prev |>) (<[Z.to_nat prev := p <| s_DCnext := i |>]> l) c0 c' ->
     Q tt c') ->
  wp F (dc_chain i prev) Q c.
Proof.
  intros Hf Hi Hm [g Hg] Hprev Hfirst Hnext. unfold dc_chain.
  apply wp_bind. eapply (wp_focus_get_other F i s l c0 0); [exact Hf | lia | exact Hm |].
  destruct (s_hasdc master) eqn:Hdc; cbn [negb].
  - destruct Hprev as [Hne [p Hp]]; [done|].
    apply wp_bind. eapply wp_focus_mod_other; [exact Hf | exact Hne | exact Hp |]. intros c1 F1.
    eapply wp_focus_mod; [exact F1|]. intros c2 F2. by eapply Hnext.
  - apply wp_bind. eapply (wp_focus_mod_other F i s l c0 0); [exact Hf | lia | exact Hm |]. intros c1 F1.
    apply wp_bind. eapply wp_focus_mod; [exact F1|]. intros c2 F2.
    apply wp_bind. eapply wp_focus_get; [exact F2|]. cbn.
    eapply wp_mod_group; [rewrite (fo_groups _ _ _ _ _ F2); exact Hg|].
    pose proof (zget_lt _ _ _ Hg). match goal with |- Q tt ?c' => apply (Hfirst c' c') end; [done | apply F2 | |].
    + intros k [x Hx]. cbn. rewrite (fo_groups _ _ _ _ _ F2), zget_insert by done.
      destruct (decide _); eauto.
    + destruct F2. by split.
Qed.

(** The delay of slave [s] on parent [p], [dist] places further. *)
Definition pdelay_of (s p : ec_slavet) (dist : Z) : Z :=
  let tprev := porttime p (prevport (activeports p) (parentport s)) in
  let dt3 := s32 (porttime p (parentport s) - tprev) in
  let dt1 := if 1 <? topology s
             then s32 (porttime s (prevport (activeports s) (entryport s)) - porttime s (entryport s))
             else 0 in
  let dt1 := if dt3 <? dt1 then s32 (- dt1) else dt1 in
  let dt2 := if 1 <? dist then s32 (tprev - porttime p (entryport p)) else 0 in
  let dt2 := if dt2 <? 0 then s32 (- dt2) else dt2 in
  s32 (s32 (Z.quot (s32 (dt3 - dt1)) 2 + dt2) + pdelay p).

Lemma wp_dc_pdelay i parent child s p l c0 Q c :
  focus i s l c0 c -> parent <> i -> zget l parent = Some p ->
  Q (pdelay_of s p (child - parent)) c -> wp F (dc_pdelay i parent child) Q c.
Proof.
  intros Hf Hne Hp HQ. unfold dc_pdelay, ecx_porttime, ecx_prevport.
  pose proof (fun Q => wp_focus_get F i s l c0 Q c Hf) as Hi.
  pose proof (fun Q => wp_focus_get_other F i s l c0 parent p Q c Hf Hne Hp) as Hj.
  apply wp_bind, Hi, wp_bind, Hj. do 3 (apply wp_bind, wp_bind, Hj, wp_ret).
  revert HQ. unfold pdelay_of. intros HQ. apply wp_bind, wp_if; intros Hb; rewrite Hb in HQ.
  - apply wp_bind, wp_bind, Hi, wp_ret. do 2 (apply wp_bind, wp_bind, Hi, wp_ret). apply wp_ret.
    cbv zeta in HQ |- *. apply wp_bind, wp_if; intros Hb2; rewrite Hb2 in HQ.
    + apply wp_bind, wp_bind, Hj, wp_ret, wp_ret, wp_ret. exact HQ.
    + apply wp_ret, wp_ret. exact HQ.
  - apply wp_ret. cbv zeta in HQ |- *. apply wp_bind, wp_if; intros Hb2; rewrite Hb2 in HQ.
    + apply wp_bind, wp_bind, Hj, wp_ret, wp_ret, wp_ret. exact HQ.
    + apply wp_ret, wp_ret. exact HQ.
Qed.
End Latch.

Import stdpp.list_relations.list stdpp.list_basics.list.

(** * The wiring of a network and the times its slaves latch

    A tree of slaves and the journey of the frame that latches the port times: it enters a
    slave at port 0, goes out and comes back at each connected port in the order 3, 1, 2, and
    leaves through port 0.  A cable delays it by the same time in both directions, and every
    slave measures with a clock of its own. *)

(** Slave [c] is connected to port [w_port c] of slave [w_up c] by a cable with delay
    [w_delay c]; the first slave is connected to the master, number 0. *)
Record wiring : Type := Wiring {
  w_count : Z;
  w_up : Z -> Z;
  w_port : Z -> Z;
  w_delay : Z -> Z;
}.

Section Wiring.
Context (w : wiring).

(** The slaves connected to [j] among the [k] slaves from [a] on. *)
Definition kids_in (j a : Z) (k : nat) : list Z := List.filter (fun c => w_up w c =? j) (seqZ a (Z.of_nat k)).
Definition kids (j : Z) : list Z := kids_in j 1 (Z.to_nat (w_count w)).
(** The bits of a list of ports. *)
Definition ports_mask (ps : list Z) : Z := foldr (fun p m => Z.lor (Z.shiftl 1 p) m) 0 ps.

Record wired : Prop := Wired {
  wi_count : 1 <= w_count w;
  wi_first : w_up w 1 = 0;
  wi_up : forall c, 2 <= c <= w_count w -> 1 <= w_up w c < c;
  wi_ports : forall j, 1 <= j <= w_count w -> map (w_port w) (kids j) `sublist_of` [3; 1; 2];
  wi_delay : forall c, 2 <= c <= w_count w -> 0 <= w_delay w c;
}.

(** The time to the slaves [l] and back, one after the other; [turn c] is the time [c]
    takes to send the frame back. *)
Definition trips (turn : Z -> Z) (l : list Z) : Z :=
  foldr (fun c t => 2 * w_delay w c + turn c + t) 0 l.

(** [arrival c] is when the frame reaches slave [c], after it reached the first one;
    [latched c p] is the time of port [p] by the clock of [c]. *)
Record journey (latched : Z -> Z -> Z) (arrival turn : Z -> Z) : Prop := Journey {
  jo_turn : forall c, 1 <= c <= w_count w -> turn c = trips turn (kids c);
  jo_back : forall c, 2 <= c <= w_count w ->
    latched (w_up w c) (w_port w c)
    = latched (w_up w c) 0 + trips turn (kids_in (w_up w c) 1 (Z.to_nat c));
  jo_first : arrival 1 = 0;
  jo_arrival : forall c, 2 <= c <= w_count w ->
    arrival c = arrival (w_up w c) + trips turn (kids_in (w_up w c) 1 (Z.to_nat (c - 1))) + w_delay w c;
}.

(** ** Lists of connected slaves *)

Lemma kids_in_app j a k k' : kids_in j a (k + k') = kids_in j a k ++ kids_in j (a + Z.of_nat k) k'.
Proof. unfold kids_in. rewrite Nat2Z.inj_add, seqZ_app by lia. by rewrite List.filter_app. Qed.

Lemma kids_in_1 j a : kids_in j a 1 = if w_up w a =? j then [a] else [].
Proof. reflexivity. Qed.

Lemma elem_of_kids_in j a k c :
  c ∈ kids_in j a k <-> a <= c < a + Z.of_nat k /\ w_up w c = j.
Proof.
  unfold kids_in. rewrite list_elem_of_In, List.filter_In, <- list_elem_of_In, elem_of_seqZ, Z.eqb_eq.
  tauto.
Qed.

(** The slaves connected to [j], before [i], and from [i] on. *)
Lemma kids_split j i : 1 <= i <= w_count w + 1 ->
  kids j = kids_in j 1 (Z.to_nat (i - 1)) ++ kids_in j i (Z.to_nat (w_count w + 1 - i)).
Proof.
  intros Hi. unfold kids.
  replace (Z.to_nat (w_count w)) with (Z.to_nat (i - 1) + Z.to_nat (w_count w + 1 - i))%nat by lia.
  rewrite kids_in_app. do 2 f_equal. lia.
Qed.

Lemma kids_from j i : 1 <= i <= w_count w ->
  kids_in j i (Z.to_nat (w_count w + 1 - i))
  = (if w_up w i =? j then [i] else []) ++ kids_in j (i + 1) (Z.to_nat (w_count w + 1 - (i + 1))).
Proof.
  intros Hi. replace (Z.to_nat (w_count w + 1 - i)) with (1 + Z.to_nat (w_count w + 1 - (i + 1)))%nat by lia.
  by rewrite kids_in_app, kids_in_1.
Qed.

Lemma kids_to c : 2 <= c ->
  kids_in (w_up w c) 1 (Z.to_nat c) = kids_in (w_up w c) 1 (Z.to_nat (c - 1)) ++ [c].
Proof.
  intros Hc. replace (Z.to_nat c) with (Z.to_nat (c - 1) + 1)%nat by lia.
  rewrite kids_in_app, kids_in_1. replace (1 + Z.of_nat (Z.to_nat (c - 1))) with c by lia.
  by rewrite Z.eqb_refl.
Qed.

Lemma trips_app turn l l' : trips turn (l ++ l') = trips turn l + trips turn l'.
Proof. unfold trips. induction l as [|x l IH]; cbn; [done|]. rewrite IH. lia. Qed.
End Wiring.

(** ** Masks of ports *)

(** The lists of connected ports. *)
Definition port_lists : list (list Z) := [[]; [3]; [1]; [2]; [3; 1]; [3; 2]; [1; 2]; [3; 1; 2]].

Lemma port_lists_all ps : ps `sublist_of` [3; 1; 2] -> ps ∈ port_lists.
Proof.
  intros Hs. unfold port_lists. rewrite !elem_of_cons.
  repeat match goal with H : sublist _ _ |- _ => inversion H; clear H; subst end; tauto.
Qed.

Ltac by_port_lists H :=
  apply port_lists_all in H; unfold port_lists in H; rewrite !elem_of_cons, elem_of_nil in H;
  repeat destruct H as [H|H].

(** The port of the next slave is taken, and the ones of the later slaves stay. *)
Lemma take_port_mask before p after : before ++ p :: after `sublist_of` [3; 1; 2] ->
  take_port (ports_mask (p :: after)) = (p, ports_mask after).
Proof.
  intros H. by_port_lists H; try done.
  all: repeat (destruct before as [|? before]; simplify_eq/=); try reflexivity.
Qed.

(** The port before it is the one of the slave before, or the entry. *)
Lemma prevport_mask before p after : before ++ p :: after `sublist_of` [3; 1; 2] ->
  prevport (ports_mask (0 :: before ++ p :: after)) p = List.last (0 :: before) 0.
Proof.
  intros H. by_port_lists H; try done.
  all: repeat (destruct before as [|? before]; simplify_eq/=); try reflexivity.
Qed.

(** The last port is the one before the entry. *)
Lemma prevport_last ps : ps `sublist_of` [3; 1; 2] -> ps <> [] ->
  prevport (ports_mask (0 :: ps)) 0 = List.last ps 0.
Proof. intros H Hne. by_port_lists H; subst; try done. Qed.

Lemma ports_left ps : ps `sublist_of` [3; 1; 2] ->
  Z.land (ports_mask (0 :: ps)) (u8 (Z.lnot (Z.shiftl 1 0))) = ports_mask ps.
Proof. intros H. by_port_lists H; subst; try done. Qed.

Lemma active_ports_mask ps : ps `sublist_of` [3; 1; 2] ->
  active_ports (ports_mask (0 :: ps)) = 0 :: ps.
Proof. intros H. by_port_lists H; subst; try done. Qed.

(** ** The times of a journey *)

Section Journey.
Context (w : wiring) (latched : Z -> Z -> Z) (arrival turn : Z -> Z).
Context (Hw : wired w) (Hj : journey w latched arrival turn).
Abbreviation n := (w_count w).

(** The ports of slave [j] that are connected to other slaves. *)
Definition ports_of (j : Z) : list Z := map (w_port w) (kids w j).

Lemma kid_above j a k c : 1 <= j -> 1 <= a -> a + Z.of_nat k <= n + 1 ->
  c ∈ kids_in w j a k -> j < c <= n.
Proof.
  intros Hj1 Ha Hk [Hc Hup]%elem_of_kids_in. destruct (decide (c = 1)) as [->|Hne].
  - rewrite (wi_first w Hw) in Hup. lia.
  - pose proof (wi_up w Hw c). lia.
Qed.

Lemma trips_nonneg l : (forall c, c ∈ l -> 2 <= c <= n /\ 0 <= turn c) -> 0 <= trips w turn l.
Proof.
  induction l as [|c l IH]; intros Hl; cbn; [lia|].
  assert (0 <= trips w turn l) by (apply IH; intros; apply Hl; by right).
  destruct (Hl c) as [Hc Ht]; [by left|]. pose proof (wi_delay w Hw c Hc).
  unfold trips in *. lia.
Qed.

Lemma turn_nonneg c : 1 <= c <= n -> 0 <= turn c.
Proof.
  remember (Z.to_nat (n - c)) as k eqn:Hk. revert c Hk.
  induction k as [k IH] using lt_wf_ind. intros c -> Hc. rewrite (jo_turn w _ _ _ Hj c Hc).
  apply trips_nonneg. intros d Hd. apply kid_above in Hd; [|lia..]. split; [lia|].
  eapply IH; [|reflexivity|]; lia.
Qed.

Lemma trips_kids_nonneg j a k : 1 <= j -> 1 <= a -> a + Z.of_nat k <= n + 1 ->
  0 <= trips w turn (kids_in w j a k).
Proof.
  intros. apply trips_nonneg. intros c Hc. apply kid_above in Hc; [|done..].
  split; [lia|]. apply turn_nonneg. lia.
Qed.

Lemma trips_le_turn j k : 1 <= j <= n -> Z.of_nat k <= n -> trips w turn (kids_in w j 1 k) <= turn j.
Proof.
  intros Hj1 Hk. rewrite (jo_turn w _ _ _ Hj j Hj1), (kids_split w j (Z.of_nat k + 1)) by lia.
  rewrite trips_app. replace (Z.to_nat (Z.of_nat k + 1 - 1)) with k by lia.
  pose proof (trips_kids_nonneg j (Z.of_nat k + 1) (Z.to_nat (n + 1 - (Z.of_nat k + 1)))). lia.
Qed.

(** The trip to slave [c] and back. *)
Lemma trips_step c : 2 <= c ->
  trips w turn (kids_in w (w_up w c) 1 (Z.to_nat c))
  = trips w turn (kids_in w (w_up w c) 1 (Z.to_nat (c - 1))) + 2 * w_delay w c + turn c.
Proof. intros Hc. rewrite kids_to, trips_app by done. cbn. lia. Qed.

Lemma arrival_bounds c : 1 <= c <= n -> 0 <= arrival c /\ arrival c + turn c <= turn 1.
Proof.
  remember (Z.to_nat c) as k eqn:Hk. revert c Hk.
  induction k as [k IH] using lt_wf_ind. intros c -> Hc. destruct (decide (c = 1)) as [->|Hne].
  { rewrite (jo_first w _ _ _ Hj). lia. }
  pose proof (wi_up w Hw c ltac:(lia)) as Hup. pose proof (wi_delay w Hw c ltac:(lia)).
  destruct (IH (Z.to_nat (w_up w c)) ltac:(lia) (w_up w c) eq_refl ltac:(lia)) as [IH1 IH2].
  rewrite (jo_arrival w _ _ _ Hj c) by lia.
  pose proof (trips_kids_nonneg (w_up w c) 1 (Z.to_nat (c - 1)) ltac:(lia) ltac:(lia) ltac:(lia)).
  pose proof (trips_le_turn (w_up w c) (Z.to_nat c) ltac:(lia) ltac:(lia)) as Hle.
  rewrite trips_step in Hle by lia. pose proof (turn_nonneg c Hc). lia.
Qed.

(** The port used last, after the first [k] slaves have been visited. *)
Lemma latched_last j k : 1 <= j <= n -> Z.of_nat k <= n ->
  latched j (List.last (0 :: map (w_port w) (kids_in w j 1 k)) 0)
  = latched j 0 + trips w turn (kids_in w j 1 k).
Proof.
  intros Hj1. induction k as [|k IH]; intros Hk; [change (kids_in w j 1 0) with (@nil Z); cbn; lia|].
  replace (S k) with (k + 1)%nat by lia. rewrite kids_in_app, kids_in_1.
  destruct (w_up w (1 + Z.of_nat k) =? j) eqn:Hup; [|rewrite app_nil_r; apply IH; lia].
  apply Z.eqb_eq in Hup. destruct k as [|k].
  { change (1 + Z.of_nat 0) with 1 in Hup. rewrite (wi_first w Hw) in Hup. lia. }
  rewrite map_app, app_comm_cons. cbn [map]. rewrite List.last_last.
  rewrite <- Hup at 1. rewrite (jo_back w _ _ _ Hj) by lia.
  rewrite Hup. do 2 f_equal.
  replace (Z.to_nat (1 + Z.of_nat (S k))) with (S k + 1)%nat by lia.
  rewrite kids_in_app, kids_in_1, Hup, Z.eqb_refl. done.
Qed.

Lemma last_in (l : list Z) : List.last (0 :: l) 0 ∈ 0 :: l.
Proof.
  destruct l as [|x l _] using List.rev_ind; [by left|].
  rewrite app_comm_cons, List.last_last. apply elem_of_app. right. by left.
Qed.

(** The port before the one of slave [c]. *)
Lemma prevport_in c : 2 <= c <= n ->
  prevport (ports_mask (0 :: ports_of (w_up w c))) (w_port w c) ∈ 0 :: ports_of (w_up w c).
Proof.
  intros Hc. pose proof (wi_up w Hw c Hc) as Hup.
  pose proof (wi_ports w Hw (w_up w c) ltac:(lia)) as Hs. unfold ports_of.
  rewrite (kids_split w _ c) in Hs |- * by lia.
  rewrite (kids_from w _ c), Z.eqb_refl in Hs |- * by lia.
  rewrite map_app in Hs |- *. cbn [app map] in Hs |- *.
  rewrite (prevport_mask _ _ _ Hs). pose proof (last_in (map (w_port w) (kids_in w (w_up w c) 1 (Z.to_nat (c - 1))))) as Hl.
  rewrite elem_of_cons in Hl |- *. rewrite elem_of_app. tauto.
Qed.

Lemma prevport_entry_in c : 1 <= c <= n -> prevport (ports_mask (0 :: ports_of c)) 0 ∈ 0 :: ports_of c.
Proof.
  intros Hc. pose proof (wi_ports w Hw c Hc) as Hs. fold (ports_of c) in Hs.
  destruct (ports_of c) as [|p ps] eqn:Hp; [by left|].
  rewrite prevport_last by done. pose proof (last_in (p :: ps)) as Hl. exact Hl.
Qed.

Lemma latched_prev c : 2 <= c <= n ->
  latched (w_up w c)
    (prevport (ports_mask (0 :: ports_of (w_up w c))) (w_port w c))
  = latched (w_up w c) 0 + trips w turn (kids_in w (w_up w c) 1 (Z.to_nat (c - 1))).
Proof.
  intros Hc. pose proof (wi_up w Hw c Hc) as Hup.
  pose proof (wi_ports w Hw (w_up w c) ltac:(lia)) as Hs. unfold ports_of.
  rewrite (kids_split w _ c) in Hs |- * by lia.
  rewrite (kids_from w _ c), Z.eqb_refl in Hs |- * by lia.
  rewrite map_app in Hs |- *. cbn [app map] in Hs |- *.
  rewrite (prevport_mask _ _ _ Hs). apply latched_last; lia.
Qed.

Lemma latched_turn c : 1 <= c <= n -> kids w c <> [] ->
  latched c (prevport (ports_mask (0 :: ports_of c)) 0) = latched c 0 + turn c.
Proof.
  intros Hc Hne. pose proof (wi_ports w Hw c Hc) as Hs. unfold ports_of.
  rewrite prevport_last by (done || by destruct (kids w c)).
  rewrite (jo_turn w _ _ _ Hj c Hc). unfold kids at 2. rewrite <- latched_last by lia.
  f_equal. unfold kids in *. by destruct (kids_in w c 1 (Z.to_nat n)).
Qed.

Lemma latched_back c p : 1 <= c <= n -> p ∈ 0 :: ports_of c ->
  latched c 0 <= latched c p <= latched c 0 + turn c.
Proof.
  intros Hc [->|Hp]%elem_of_cons; [pose proof (turn_nonneg c Hc); lia|].
  unfold ports_of in Hp. apply list_elem_of_fmap in Hp as (d & -> & Hd).
  apply elem_of_kids_in in Hd as [Hd <-].
  assert (2 <= d <= n).
  { destruct (decide (d = 1)) as [->|]; [rewrite (wi_first w Hw) in Hc|]; lia. }
  rewrite (jo_back w _ _ _ Hj d) by lia.
  pose proof (trips_le_turn (w_up w d) (Z.to_nat d) Hc ltac:(lia)).
  pose proof (trips_kids_nonneg (w_up w d) 1 (Z.to_nat d) ltac:(lia) ltac:(lia) ltac:(lia)). lia.
Qed.

Lemma first_kid_next j : 1 <= j <= n -> kids_in w j 1 (Z.to_nat j) = [].
Proof.
  intros Hj1. destruct (kids_in w j 1 (Z.to_nat j)) as [|c l] eqn:Hk; [done|].
  assert (c ∈ kids_in w j 1 (Z.to_nat j)) as Hc by (rewrite Hk; by left).
  apply elem_of_kids_in in Hc as Hc'. apply kid_above in Hc; lia.
Qed.
End Journey.
