(* ===== verification/DcTheorems.v ===== *)
(** * Theorems on distributed clocks

    The propagation delays and the list of slaves with a clock that [ecx_configdc] leaves, and
    the start of the sync signals. *)

From S2P Require Import Prelude Types Osal ErrorRing Mailbox Context Dc.
From S2P Require Import NicRecv Transfer LinkSpec DcSpec EepromSim.
Import stdpp.list_relations.list stdpp.list_basics.list.

(** ** Propagation delays *)

Section Delays.
Context {L : Type} `{HL : LinkLaws L} `{LoopFuel} (F : fault -> Prop).
Abbreviation ctx := (ecx_contextt L).
Context (Hpat : lk_patient EC_TIMEOUTRET) (Hfuel : (0 < loop_fuel)%nat).
Context (w : wiring) (latched : Z -> Z -> Z) (arrival turn : Z -> Z) (adr : Z -> Z).
Context (Hw : wired w) (Hj : journey w latched arrival turn).
Abbreviation n := (w_count w).

(** Every clock counts in 32 bits without a wrap while the frame is under way. *)
Definition in_range : Prop := turn 1 < 2 ^ 31 /\
  forall j, 1 <= j <= n -> - 2 ^ 31 <= latched j 0 /\ latched j 0 + turn j < 2 ^ 31.

(** The slaves answer a read of the time of a connected port with the latched time. *)
Definition answers : Prop := forall j p data l,
  1 <= j <= n -> p ∈ 0 :: ports_of w j -> length data = 4%nat -> lk_ok l ->
  wp no_fault (lk_FPRD (adr j) (ECT_REG_DCTIME0 + 4 * p) 4 data EC_TIMEOUTRET)
    (fun r l' => r = (1, le_bytes 4 (latched j p)) /\ lk_ok l' /\ lk_now l <= lk_now l') l.

Context (Hrange : in_range) (Hans : answers).

Lemma turn_le_first c : 1 <= c <= n -> turn c <= turn 1.
Proof. intros Hc. pose proof (arrival_bounds w latched arrival turn Hw Hj c Hc). lia. Qed.

Lemma latched_range j p : 1 <= j <= n -> p ∈ 0 :: ports_of w j -> - 2 ^ 31 <= latched j p < 2 ^ 31.
Proof.
  intros Hj1 Hp. pose proof (latched_back w latched arrival turn Hw Hj j p Hj1 Hp).
  destruct Hrange as [_ Hr]. specialize (Hr j Hj1). lia.
Qed.

(** What the configuration of the network has stored about slave [j]. *)
Record described (j : Z) (s : ec_slavet) : Prop := Described {
  de_dc : s_hasdc s = true;
  de_parent : parent s = w_up w j;
  de_topology : topology s = 1 + zlen (kids w j);
  de_ports : activeports s = ports_mask (0 :: ports_of w j);
  de_adr : configadr s = adr j;
}.

(** What is known of slave [j] when its delay has been measured and the slaves from [i] on
    are left. *)
Record measured (i j : Z) (s : ec_slavet) : Prop := Measured {
  me_entry : entryport s = 0;
  me_left : consumedports s = ports_mask (map (w_port w) (kids_in w j i (Z.to_nat (n + 1 - i))));
  me_times : forall p, p ∈ 0 :: ports_of w j -> porttime s p = latched j p;
  me_delay : pdelay s = arrival j;
  me_port : 2 <= j -> parentport s = w_port w j;
}.

(** The time slave [i] itself takes, from its own ports. *)
Lemma own_time i s : 1 <= i <= n ->
  described i s -> (forall q, q ∈ 0 :: ports_of w i -> porttime s q = latched i q) ->
  (if 1 <? topology s then s32 (porttime s (prevport (activeports s) 0) - porttime s 0) else 0)
  = turn i.
Proof.
  intros Hi [_ _ Htop Hact _] Ht. rewrite Htop, Hact.
  pose proof (turn_nonneg w latched arrival turn Hw Hj i Hi). pose proof (turn_le_first i Hi).
  destruct Hrange as [Hmax _]. destruct (Z.ltb_spec 1 (1 + zlen (kids w i))) as [Hk|Hk].
  - assert (kids w i <> []) as Hne by (intros He; rewrite He in Hk; unfold zlen in Hk; cbn in Hk; lia).
    rewrite !Ht by (left || by apply prevport_entry_in).
    rewrite (latched_turn w latched arrival turn Hw Hj) by done. rewrite s32_id by lia. lia.
  - rewrite (jo_turn w _ _ _ Hj i Hi). destruct (kids w i); [done|]. unfold zlen in Hk. cbn in Hk. lia.
Qed.

Lemma delay_arith d t b a : 0 <= d -> 0 <= t -> 0 <= b -> 0 <= a ->
  b + (2 * d + t) < 2 ^ 31 -> a + b + d < 2 ^ 31 ->
  (let dt1 := if 2 * d + t <? t then s32 (- t) else t in
   let dt2 := if b <? 0 then s32 (- b) else b in
   s32 (s32 (Z.quot (s32 (2 * d + t - dt1)) 2 + dt2) + a)) = a + b + d.
Proof.
  intros. cbv zeta. rewrite (proj2 (Z.ltb_ge (2 * d + t) t)), (proj2 (Z.ltb_ge b 0)) by lia.
  rewrite (s32_id (2 * d + t - t)) by lia. replace (2 * d + t - t) with (d * 2) by lia.
  rewrite Z.quot_mul by lia. rewrite !s32_id by (rewrite ?s32_id; lia). lia.
Qed.

(** The delay of a slave on its parent. *)
Lemma delay_is_arrival i s p : 2 <= i <= n ->
  described i s -> entryport s = 0 -> parentport s = w_port w i ->
  (forall q, q ∈ 0 :: ports_of w i -> porttime s q = latched i q) ->
  described (w_up w i) p -> entryport p = 0 -> pdelay p = arrival (w_up w i) ->
  (forall q, q ∈ 0 :: ports_of w (w_up w i) -> porttime p q = latched (w_up w i) q) ->
  pdelay_of s p (i - w_up w i) = arrival i.
Proof.
  intros Hi Hds Hentry Hpp Ht [_ _ _ Hpact _] Hpentry Hpd Hpt.
  pose proof (wi_up w Hw i Hi) as Hup.
  pose proof (latched_prev w latched arrival turn Hw Hj i Hi) as Hprev.
  pose proof (jo_back w _ _ _ Hj i Hi) as Hback. rewrite trips_step in Hback by lia.
  pose proof (wi_delay w Hw i Hi) as Hd.
  pose proof (turn_nonneg w latched arrival turn Hw Hj i ltac:(lia)) as Htn.
  pose proof (arrival_bounds w latched arrival turn Hw Hj i ltac:(lia)) as Hab.
  pose proof (arrival_bounds w latched arrival turn Hw Hj (w_up w i) ltac:(lia)) as Habp.
  pose proof (jo_arrival w _ _ _ Hj i Hi) as Harr.
  pose proof (trips_kids_nonneg w latched arrival turn Hw Hj (w_up w i) 1 (Z.to_nat (i - 1))
    ltac:(lia) ltac:(lia) ltac:(lia)) as Htr.
  pose proof (trips_le_turn w latched arrival turn Hw Hj (w_up w i) (Z.to_nat i)
    ltac:(lia) ltac:(lia)) as Hle.
  rewrite trips_step in Hle by lia. pose proof (turn_le_first (w_up w i) ltac:(lia)).
  destruct Hrange as [Hmax Hr].
  assert (Hin : w_port w i ∈ 0 :: ports_of w (w_up w i)).
  { right. unfold ports_of. apply list_elem_of_fmap. exists i. split; [done|].
    apply elem_of_kids_in. lia. }
  unfold pdelay_of. rewrite Hpp, Hentry, Hpentry, Hpd, (own_time i s) by (done || lia).
  rewrite Hpact, (Hpt (w_port w i)), (Hpt 0), (Hpt _ (prevport_in w Hw i Hi)), Hprev, Hback
    by (done || left).
  set (b := trips _ _ _) in *. set (t0 := latched _ 0) in *.
  replace (t0 + (b + 2 * w_delay w i + turn i) - (t0 + b)) with (2 * w_delay w i + turn i) by lia.
  replace (t0 + b - t0) with b by lia. rewrite (s32_id (2 * _ + _)), (s32_id b) by lia.
  replace (if 1 <? i - w_up w i then b else 0) with b.
  - rewrite delay_arith by lia. lia.
  - destruct (Z.ltb_spec 1 (i - w_up w i)); [done|]. unfold b.
    replace (i - 1) with (w_up w i) by lia.
    by rewrite (first_kid_next w Hw) by lia.
Qed.

(** ** The loop over the slaves *)

Definition slave_inv (i : Z) (gl : list ec_groupt) (j : Z) (s : ec_slavet) : Prop :=
  described j s /\ is_Some (zget gl (group s)) /\ (j < i -> measured i j s) /\ (j = 1 -> pdelay s = 0).

(** The master's record, and the slaves other than [i]. *)
Definition master_inv (chained : bool) (l : list ec_slavet) : Prop :=
  exists m, zget l 0 = Some m /\ s_hasdc m = chained.
Definition others (i : Z) (l : list ec_slavet) (gl : list ec_groupt) : Prop :=
  forall j, 1 <= j <= n -> j <> i -> exists s, zget l j = Some s /\ slave_inv i gl j s.

Record dc_inv (i : Z) (lc : dc_locals) (c : ctx) : Prop := DcInv {
  iv_ok : lk_ok (link c);
  iv_count : slavecount c = n;
  iv_lists : lists_ok lc;
  iv_prev : prevDCslave lc = i - 1;
  iv_master : master_inv (1 <? i) (slavelist c);
  iv_slaves : forall j, 1 <= j <= n -> exists s,
    zget (slavelist c) j = Some s /\ slave_inv i (grouplist c) j s;
}.

Lemma others_groups i l gl gl' :
  (forall g, is_Some (zget gl g) -> is_Some (zget gl' g)) -> others i l gl -> others i l gl'.
Proof. intros Hg Ho j Hj1 Hne. destruct (Ho j Hj1 Hne) as (s & Hs & Hde & Hgr & Hme & Hz).
  exists s. split; [done|]. split; [done|]. split; [by apply Hg | by split]. Qed.

(** Another slave changes in a way the invariant does not notice. *)
Lemma others_insert i l gl k p p' : others i l gl -> zget l k = Some p ->
  (1 <= k <= n -> k <> i -> slave_inv i gl k p -> slave_inv i gl k p') ->
  others i (<[Z.to_nat k := p']> l) gl.
Proof.
  intros Ho Hk Hp j Hj1 Hne. pose proof (zget_lt _ _ _ Hk). rewrite zget_insert by done.
  destruct (Ho j Hj1 Hne) as (s & Hs & Hi). destruct (decide (k = j)) as [->|]; [|eauto].
  exists p'. split; [done|]. apply Hp; [done..|]. congruence.
Qed.

Lemma wp_chain_step i s l c0 Q c : 1 <= i <= n ->
  focus i s l c0 c -> master_inv (1 <? i) l -> others i l (grouplist c0) ->
  is_Some (zget (grouplist c0) (group s)) ->
  (forall v l' c1 c', slavecount c1 = slavecount c0 -> groups_kept c0 c1 ->
     focus i (s <| DCprevious := v |>) l' c1 c' -> master_inv true l' -> others i l' (grouplist c1) ->
     Q tt c') ->
  wp F (dc_chain i (i - 1)) Q c.
Proof.
  intros Hi Hf (m & Hm & Hdc) Ho Hg HQ. pose proof (zget_lt _ _ _ Hm).
  apply (wp_dc_chain F i (i - 1) s m l c0 Q c Hf); [lia | exact Hm | exact Hg | ..].
  - intros Ht. rewrite Hdc in Ht. apply Z.ltb_lt in Ht. split; [lia|].
    destruct (Ho (i - 1)) as (p & Hp & _); [lia..|]. by eexists.
  - intros c1 c' Hf1 Hn Hgk F1. apply (HQ 0 _ c1 c' Hn Hgk F1).
    + exists (m <| s_hasdc := true |> <| s_DCnext := i |>). split; [|done].
      change 0%nat with (Z.to_nat 0). rewrite zget_insert by done. by rewrite decide_True.
    + change 0%nat with (Z.to_nat 0). eapply others_groups; [exact Hgk|].
      eapply others_insert; [exact Ho | exact Hm | lia].
  - intros p c' Ht Hp F1. rewrite Hdc in Ht. apply Z.ltb_lt in Ht. pose proof (zget_lt _ _ _ Hp).
    eapply (HQ (i - 1) _ c0 c'); [done | exact (fun g Hx => Hx) | exact F1 | |].
    + exists m. rewrite zget_insert by done. rewrite decide_False by lia. split; [done|].
      rewrite Hdc. by apply Z.ltb_lt.
    + eapply others_insert; [exact Ho | exact Hp |]. intros _ _ ([] & Hg' & Hme & Hz).
      split; [by split|]. split; [done|]. split; [|exact Hz].
      intros Hlt. destruct (Hme Hlt). by split.
Qed.

Lemma reads_latched j : 1 <= j <= n ->
  reads (fun p v => p ∈ 0 :: ports_of w j -> v = latched j p) (adr j).
Proof.
  intros Hj1 p ht c Hp Hc. destruct (decide (p ∈ 0 :: ports_of w j)) as [Hin|Hout].
  - apply wp_bind. eapply wp_onlink; [by apply Hans|]. intros r l (-> & Hok & Hnow).
    apply wp_ret. split; [|by apply link_stepped]. intros _. cbn [snd].
    rewrite of_le_le_bytes. change (256 ^ Z.of_nat 4) with (2 ^ 32). unfold s32.
    pose proof (latched_range j p Hj1 Hin). rewrite <- Z.add_mod_idemp_l, Z.mod_mod, Z.add_mod_idemp_l by lia.
    rewrite Z.mod_small by lia. lia.
  - eapply wp_mono; [by apply (reads_any Hpat)|]. cbn. tauto.
Qed.

Lemma set_times_at j a b d e s : 1 <= j <= n ->
  (0 ∈ 0 :: ports_of w j -> a = latched j 0) -> (1 ∈ 0 :: ports_of w j -> b = latched j 1) ->
  (2 ∈ 0 :: ports_of w j -> d = latched j 2) -> (3 ∈ 0 :: ports_of w j -> e = latched j 3) ->
  forall p, p ∈ 0 :: ports_of w j -> porttime (set_times a b d e s) p = latched j p.
Proof.
  intros Hj1 Ha Hb Hd He p Hp. pose proof (wi_ports w Hw j Hj1) as Hs. fold (ports_of w j) in Hs.
  assert (p = 0 \/ p = 1 \/ p = 2 \/ p = 3) as Hp4.
  { apply elem_of_cons in Hp as [?|Hp]; [auto|]. apply (sublist_subseteq _ _ Hs) in Hp.
    rewrite !elem_of_cons, elem_of_nil in Hp. tauto. }
  destruct Hp4 as [->|[->|[->| ->]]]; cbn; auto.
Qed.

(** The first port is the entry: no port was reached before it. *)
Lemma entry_is_first j s lc : 1 <= j <= n -> lists_ok lc -> activeports s = ports_mask (0 :: ports_of w j) ->
  (forall p, p ∈ 0 :: ports_of w j -> porttime s p = latched j p) -> choose_entry s lc = 0.
Proof.
  intros Hj1 Hl Hact Ht. pose proof (wi_ports w Hw j Hj1) as Hs. fold (ports_of w j) in Hs.
  assert (forall ps e, e = 0 -> (forall p, p ∈ ps -> p ∈ ports_of w j) ->
    fold_left (fun e p => if porttime s p <? porttime s e then p else e) ps e = 0) as Hfold.
  { induction ps as [|p ps IH]; intros e -> Hin; [done|]. cbn [fold_left].
    rewrite !Ht by first [left | right; apply Hin; left].
    pose proof (latched_back w latched arrival turn Hw Hj j p Hj1 (list_elem_of_further _ _ _ (Hin p (list_elem_of_here _ _)))).
    rewrite (proj2 (Z.ltb_ge (latched j p) (latched j 0))) by lia. apply IH; [done|]. intros q Hq. apply Hin. by right. }
  rewrite choose_entry_earliest by (rewrite ?Hact, ?active_ports_mask by done; done).
  rewrite Hact, active_ports_mask by done. cbn. by apply Hfold.
Qed.

(** Slave [i] when its port times are known and its entry port is consumed. *)
Record entered (i : Z) (gl : list ec_groupt) (s : ec_slavet) : Prop := Entered {
  en_described : described i s;
  en_group : is_Some (zget gl (group s));
  en_entry : entryport s = 0;
  en_left : consumedports s = ports_mask (ports_of w i);
  en_times : forall p, p ∈ 0 :: ports_of w i -> porttime s p = latched i p;
  en_delay : i = 1 -> pdelay s = 0;
}.

Lemma wp_enter {A} i s l c0 mt lc (k : dc_locals -> M ctx A) Q c : 1 <= i <= n ->
  focus i s l c0 c -> described i s -> is_Some (zget (grouplist c0) (group s)) ->
  (i = 1 -> pdelay s = 0) -> consumedports s = activeports s -> lists_ok lc ->
  (forall s' lc' c', prevDCslave lc' = prevDCslave lc -> lists_ok lc' -> focus i s' l c0 c' ->
     entered i (grouplist c0) s' -> wp F (k lc') Q c') ->
  wp F (let* lc := dc_latch i mt lc in let* lc := dc_entryport i lc in k lc) Q c.
Proof.
  intros Hi Hf Hd Hg Hz Hcons Hl HQ. apply wp_bind.
  eapply (wp_dc_latch F Hpat); [rewrite (de_adr i s Hd); by apply reads_latched | exact Hf |].
  intros a b d e t h c1 Ha Hb Hd' He F1.
  pose proof (set_times_at i a b d e s Hi Ha Hb Hd' He) as Ht.
  apply wp_bind. eapply wp_dc_entryport; [exact F1 | exact Hl |]. intros lc' c2 _ Hprev Hl' F2.
  set (s1 := set_times a b d e s) in *.
  assert (choose_entry s1 (lc <| ht := t |> <| hrt := h |>) = 0) as Hce.
  { apply (entry_is_first i); [done | done | apply Hd | done]. }
  rewrite Hce in F2. eapply HQ; [exact Hprev | exact Hl' | exact F2 |]. destruct Hd.
  split; [by split | done | done | | exact Ht | done]. cbn [consumedports s1 set_times].
  change (Z.land (consumedports s) (u8 (Z.lnot (Z.shiftl 1 0))) = ports_mask (ports_of w i)).
  rewrite Hcons, de_ports0. apply ports_left, (wi_ports w Hw i Hi).
Qed.

(** The loop upwards ends at once, since every slave has a clock. *)
Lemma wp_dc_parent_here i s l c0 Q c : 1 <= i <= n ->
  focus i s l c0 c -> described i s -> master_inv true l -> others i l (grouplist c0) ->
  Q (w_up w i, i) c -> wp F (dc_parent i) Q c.
Proof.
  intros Hi Hf Hd (m & Hm & _) Ho HQ. unfold dc_parent.
  destruct loop_fuel as [|fuel] eqn:Hlf; [lia|]. cbn [do_while]. apply wp_bind, wp_bind.
  eapply wp_focus_get; [exact Hf|]. rewrite (de_parent i s Hd). apply wp_bind.
  destruct (decide (i = 1)) as [->|Hne].
  - rewrite (wi_first w Hw) in *. eapply (wp_focus_get_other F 1); [exact Hf | lia | exact Hm |].
    by apply wp_ret, wp_ret.
  - pose proof (wi_up w Hw i ltac:(lia)). destruct (Ho (w_up w i)) as (p & Hp & Hdp & _); [lia..|].
    eapply (wp_focus_get_other F i); [exact Hf | lia | exact Hp |].
    rewrite (de_dc _ _ Hdp), orb_true_r. by apply wp_ret, wp_ret.
Qed.

Lemma measured_next i j s : 1 <= i <= n -> w_up w i <> j -> measured i j s -> measured (i + 1) j s.
Proof.
  intros Hi Hne [He Hl Ht Hd Hp]. split; try done. rewrite Hl, (kids_from w j i) by done.
  rewrite (proj2 (Z.eqb_neq (w_up w i) j)) by done. done.
Qed.

(** The port of slave [i] on its parent is taken. *)
Lemma take_parentport i p : 2 <= i <= n -> measured i (w_up w i) p ->
  take_port (consumedports p)
  = (w_port w i, ports_mask (map (w_port w) (kids_in w (w_up w i) (i + 1) (Z.to_nat (n + 1 - (i + 1)))))).
Proof.
  intros Hi [_ Hl _ _ _]. pose proof (wi_up w Hw i Hi) as Hup.
  pose proof (wi_ports w Hw (w_up w i) ltac:(lia)) as Hs.
  rewrite (kids_split w _ i) in Hs by lia. rewrite Hl.
  rewrite (kids_from w _ i), Z.eqb_refl in Hs |- * by lia.
  rewrite map_app in Hs. cbn [app map] in Hs |- *. by apply (take_port_mask _ _ _ Hs).
Qed.

(** The slaves besides [i] are ready for the next one. *)
Definition next_ok (i : Z) (l : list ec_slavet) (gl : list ec_groupt) : Prop :=
  forall j, 1 <= j <= n -> j <> i -> exists s, zget l j = Some s /\ slave_inv (i + 1) gl j s.

Lemma slave_inv_next i j gl s : 1 <= i <= n -> j <> i -> w_up w i <> j ->
  slave_inv i gl j s -> slave_inv (i + 1) gl j s.
Proof.
  intros Hi Hne Hnu (Hd & Hg & Hme & Hz). split; [done|]. split; [done|]. split; [|done].
  intros Hlt. apply measured_next; [done..|]. apply Hme. lia.
Qed.

(** The invariant is restored when slave [i] is measured. *)
Lemma inv_restored i s l c0 lc c : 1 <= i <= n -> slavecount c0 = n ->
  focus i s l c0 c -> described i s -> is_Some (zget (grouplist c0) (group s)) ->
  measured (i + 1) i s -> lists_ok lc -> prevDCslave lc = i -> master_inv true l ->
  next_ok i l (grouplist c0) -> dc_inv (i + 1) lc c.
Proof.
  intros Hi Hn [Hok Hcnt Hgl Hlen Hs Hrest] Hd Hg Hme Hl Hpv (m & Hm & Hdc) Ho.
  split; [done | lia | done | lia | | ].
  - exists m. rewrite Hrest by lia. split; [done|]. rewrite Hdc. symmetry. apply Z.ltb_lt. lia.
  - intros j Hj1. rewrite Hgl. destruct (decide (j = i)) as [->|Hne].
    + exists s. split; [done|]. split; [done|]. split; [done|]. split; [done|].
      intros ->. rewrite (me_delay _ _ _ Hme). apply (jo_first w _ _ _ Hj).
    + rewrite Hrest by done. by apply Ho.
Qed.

Lemma left_at_end i : 1 <= i <= n ->
  ports_mask (ports_of w i) = ports_mask (map (w_port w) (kids_in w i (i + 1) (Z.to_nat (n + 1 - (i + 1))))).
Proof.
  intros Hi. unfold ports_of. rewrite (kids_split w i (i + 1)) by lia.
  replace (i + 1 - 1) with i by lia. by rewrite (first_kid_next w Hw) by lia.
Qed.

Lemma wp_delay_step i s l c0 lc c : 2 <= i <= n -> slavecount c0 = n ->
  focus i s l c0 c -> entered i (grouplist c0) s -> lists_ok lc -> prevDCslave lc = i ->
  master_inv true l -> others i l (grouplist c0) ->
  wp F (dc_delay i (w_up w i) i lc) (fun lc' c' => dc_inv (i + 1) lc' c') c.
Proof.
  intros Hi Hn Hf [Hd Hg Hen Hleft Ht Hz] Hl Hpv Hm Ho. pose proof (wi_up w Hw i Hi) as Hup.
  destruct (Ho (w_up w i)) as (p & Hp & Hdp & Hgp & Hmp & Hzp); [lia..|].
  assert (measured i (w_up w i) p) as Hme by (apply Hmp; lia).
  unfold dc_delay, ecx_parentport.
  apply wp_bind, wp_bind. eapply (wp_focus_get_other F i); [exact Hf | lia | exact Hp |].
  rewrite (take_parentport i p Hi Hme). cbn [fst snd].
  apply wp_bind. eapply wp_focus_mod_other; [exact Hf | lia | exact Hp |]. intros c1 F1. apply wp_ret.
  apply wp_bind. eapply wp_focus_mod; [exact F1|]. intros c2 F2.
  set (p' := p <| consumedports := _ |>) in *. set (l' := <[_ := p']> l) in *.
  pose proof (zget_lt _ _ _ Hp) as Hlt.
  assert (zget l' (w_up w i) = Some p') as Hp' by (unfold l'; by rewrite zget_insert, decide_True by done).
  apply wp_bind. eapply (wp_focus_get_other F i); [exact F2 | lia | exact Hp' |].
  assert (1 <= zlen (kids w (w_up w i))) as Hk.
  { assert (i ∈ kids w (w_up w i)) as Hin by (apply elem_of_kids_in; lia).
    destruct (kids w (w_up w i)); [by apply elem_of_nil in Hin | unfold zlen; cbn; lia]. }
  change (topology p') with (topology p). rewrite (de_topology _ _ Hdp).
  rewrite (proj2 (Z.eqb_neq (1 + zlen (kids w (w_up w i))) 1)) by lia.
  apply wp_bind, wp_ret, wp_bind. eapply wp_dc_pdelay; [exact F2 | lia | exact Hp' |].
  assert (measured (i + 1) (w_up w i) p') as Hme'.
  { destruct Hme. split; try done. }
  destruct Hd as [Hd1 Hd2 Hd3 Hd4 Hd5].
  rewrite (delay_is_arrival i _ p') by
    (done || (by split) || apply Hme' || (destruct Hdp; by split)).
  apply wp_bind. eapply wp_focus_mod; [exact F2|]. intros c3 F3.
  apply wp_bind. eapply wp_focus_get; [exact F3|].
  apply wp_bind, (wp_ctx_write F lk_FPWR); [in_ops | apply F3 | done | ec_unfold; lia | data_len |].
  intros r c4 _ S4. pose proof (focus_link _ _ _ _ _ _ F3 S4) as F4. apply wp_ret.
  eapply inv_restored; [lia | exact Hn | exact F4 | by split | exact Hg | | exact Hl | exact Hpv | |].
  - split; [exact Hen | | exact Ht | done | done]. rewrite <- left_at_end by lia. exact Hleft.
  - destruct Hm as (m & Hm & Hdc). exists m. split; [|done]. unfold l'.
    rewrite zget_insert by done. by rewrite decide_False by lia.
  - intros j Hj1 Hne. destruct (Ho j Hj1 Hne) as (q & Hq & Hinv). unfold l'. rewrite zget_insert by done.
    destruct (decide (w_up w i = j)) as [<-|Hnu].
    + exists p'. split; [done|]. split; [destruct Hdp; by split|]. split; [done|]. by split.
    + exists q. split; [done|]. apply slave_inv_next; [lia | done..].
Qed.

Lemma wp_dc_slave i mt lc c : 1 <= i <= n -> dc_inv i lc c ->
  wp F (dc_slave mt i lc) (fun lc' c' => dc_inv (i + 1) lc' c') c.
Proof.
  intros Hi [Hok Hcnt Hl Hpv Hm Hsl]. destruct (Hsl i Hi) as (s & Hs & Hd & Hg & _ & Hz).
  unfold dc_slave. apply wp_bind. eapply wp_focus_mod; [by apply focus_refl|]. intros c1 F1.
  apply wp_bind. eapply wp_focus_get; [exact F1|]. cbn [s_hasdc]. 
  change (s_hasdc (s <| consumedports := activeports s |>)) with (s_hasdc s).
  rewrite (de_dc _ _ Hd). unfold dc_with_clock. rewrite Hpv.
  apply wp_bind. eapply (wp_chain_step i); [exact Hi | exact F1 | exact Hm | | exact Hg |].
  { intros j Hj1 _. apply Hsl, Hj1. }
  intros v l' c2 c3 Hcnt2 Hgk F3 Hm' Ho'. eapply wp_enter; [exact Hi | exact F3 | | | done | done | done |].
  { destruct Hd; by split. }
  { by apply Hgk. }
  intros s' lc' c4 Hpv' Hl' F4 Hen. apply wp_bind.
  eapply wp_dc_parent_here; [exact Hi | exact F4 | apply Hen | exact Hm' | exact Ho' |]. cbn [fst snd].
  destruct (decide (i = 1)) as [->|Hne].
  - rewrite (wi_first w Hw). apply wp_ret.
    eapply inv_restored; [lia | by rewrite Hcnt2 | exact F4 | apply Hen | apply Hen | | exact Hl' | exact Hpv' | exact Hm' |].
    + destruct Hen. split; [done | | done | | lia].
      * rewrite <- left_at_end by lia. done.
      * rewrite en_delay0 by done. symmetry. apply (jo_first w _ _ _ Hj).
    + intros j Hj1 Hne. destruct (Ho' j Hj1 Hne) as (q & Hq & Hinv). exists q. split; [done|].
      apply slave_inv_next; [lia | done | | done]. rewrite (wi_first w Hw). lia.
  - pose proof (wi_up w Hw i ltac:(lia)). rewrite (proj2 (Z.ltb_lt 0 (w_up w i))) by lia.
    eapply wp_delay_step; [lia | by rewrite Hcnt2 | exact F4 | exact Hen | exact Hl' | exact Hpv' | exact Hm' | exact Ho'].
Qed.
End Delays.

(** ** The claims *)

Section Claims.
Context {L : Type} `{HL : LinkLaws L} `{LoopFuel}.
Abbreviation ctx := (ecx_contextt L).

(** What a context must hold before the clocks of the network [w] are configured. *)
Record ready (w : wiring) (adr : Z -> Z) (c : ctx) : Prop := Ready {
  rd_ok : lk_ok (link c);
  rd_count : slavecount c = w_count w;
  rd_master : is_Some (zget (slavelist c) 0);
  rd_group : is_Some (zget (grouplist c) 0);
  rd_slaves : forall j, 1 <= j <= w_count w -> exists s, zget (slavelist c) j = Some s
    /\ described w adr j s /\ is_Some (zget (grouplist c) (group s)) /\ (j = 1 -> pdelay s = 0);
}.

(** C7: On a tree of slaves that all have a clock and that the frame enters at port 0, the
    configuration of the clocks finds for every slave its entry port, the port of the parent it
    hangs on, and as propagation delay exactly the time the latching frame took from the first
    slave to it, whatever the cable delays and the offsets of the slaves' clocks are, as long as
    no time stamp wraps around while the frame is under way ([in_range]). *)
Theorem configdc_measures_delays w latched arrival turn adr junk c :
  lk_patient EC_TIMEOUTRET -> (0 < loop_fuel)%nat ->
  wired w -> journey w latched arrival turn -> in_range w latched turn -> answers w latched adr ->
  length junk.2.1 = 4%nat -> length junk.2.2 = 4%nat -> ready w adr c ->
  wp no_fault (ecx_configdc junk)
    (fun r c' => r = true /\ forall i, 1 <= i <= w_count w -> exists s,
       zget (slavelist c') i = Some s /\ pdelay s = arrival i /\ entryport s = 0
       /\ (2 <= i -> parentport s = w_port w i)) c.
Proof.
  intros Hpat Hfuel Hw Hj Hr Ha H4 H4' [Hok Hcnt [m Hm] [g Hg] Hsl].
  pose proof (wi_count w Hw) as Hn. pose proof (zget_lt _ _ _ Hm) as Hl0. pose proof (zget_lt _ _ _ Hg).
  unfold ecx_configdc. apply wp_bind. eapply wp_mod_slave; [exact Hm|].
  apply wp_bind. eapply wp_mod_group; [exact Hg|].
  apply wp_bind, (wp_ctx_write no_fault lk_BWR); [in_ops | done | done | ec_unfold; lia | data_len |].
  intros r c1 _ S1. apply wp_bind, wp_ctx_current_time; [apply S1|]. intros now c2 S2.
  pose proof (link_step_trans _ _ _ S1 S2) as [-> Hok2 _]. apply wp_bind, wp_gets. cbn [slavecount].
  apply wp_bind. eapply wp_mono.
  { apply (wp_for_range no_fault (dc_inv w latched arrival adr)).
    - split; cbn -[Z.to_nat]; [done | done | done | done | |].
      + eexists. split; [by rewrite zget_insert, decide_True by done | done].
      + intros j Hj1. destruct (Hsl j Hj1) as (s & Hs & Hd & Hgr & Hz). exists s.
        rewrite zget_insert by done. rewrite decide_False by lia. split; [done|]. split; [done|].
        split; [|split; [intros; lia | done]]. rewrite zget_insert by done. destruct (decide _); eauto.
    - intros j lc c' Hj' Hinv. eapply wp_dc_slave; eauto. cbn in Hj'. lia. }
  cbn. intros lc c3 [_ _ _ _ (m' & Hm' & Hdc) Hsl']. apply wp_bind. eapply wp_get_slave; [exact Hm'|].
  apply wp_ret. split; [rewrite Hdc; apply Z.ltb_lt; lia|]. intros i Hi.
  destruct (Hsl' i Hi) as (s & Hs & _ & _ & Hme & _). destruct Hme; [lia|]. by exists s.
Qed.
End Claims.

(** ** A network of four slaves: 2 and 3 on ports 3 and 1 of 1, and 4 on port 2 of 3 *)

Definition four : wiring :=
  Wiring 4 (fun c => match c with 2 => 1 | 3 => 1 | 4 => 3 | _ => 0 end)
    (fun c => match c with 2 => 3 | 3 => 1 | _ => 2 end)
    (fun c => match c with 2 => 100 | 3 => 70 | _ => 30 end).
Definition four_latched (j p : Z) : Z :=
  match j, p with
  | 1, 0 => 1000 | 1, 3 => 1200 | 1, 1 => 1400 | 2, 0 => 5000 | 3, 0 => -77 | 3, 2 => -17
  | 4, 0 => 9 | _, _ => 0
  end.
Definition four_arrival (c : Z) : Z := match c with 2 => 100 | 3 => 270 | 4 => 300 | _ => 0 end.
Definition four_turn (c : Z) : Z := match c with 1 => 400 | 3 => 60 | _ => 0 end.
Definition four_adr (c : Z) : Z := 0x1000 + c.
Definition four_answer (ADP ADO : Z) : option Z :=
  if (0x1001 <=? ADP) && (ADP <=? 0x1004) && (0x900 <=? ADO) && (ADO <? 0x910)
  then Some (four_latched (ADP - 0x1000) ((ADO - 0x900) / 4)) else None.
Definition four_slave (j : Z) : ec_slavet :=
  slave0 <| s_hasdc := true |> <| parent := w_up four j |> <| topology := 1 + zlen (kids four j) |>
    <| activeports := ports_mask (0 :: ports_of four j) |> <| configadr := four_adr j |>.
Definition four_group : ec_groupt :=
  EcGroup 0 0 0 0 0 false 0 0 0 0 0 [] None 0 [] 0 queue0 0 0 0.
Definition four_ctx : ecx_contextt (oracle four_answer) :=
  (ctx0 (Oracle [] 0)) <| slavelist := slave0 :: map four_slave [1; 2; 3; 4] |> <| slavecount := 4 |>
    <| grouplist := [four_group] |>.

Ltac four_cases c := let H := fresh in
  assert (c = 1 \/ c = 2 \/ c = 3 \/ c = 4) as H by (cbn in *; lia); destruct H as [->|[->|[->| ->]]].

Lemma four_wired : wired four.
Proof.
  split; [cbn; lia | done | | |].
  - intros c Hc. four_cases c; cbn in *; lia.
  - intros j Hj. four_cases j.
    + change (sublist [3; 1] [3; 1; 2]). repeat constructor.
    + apply sublist_nil_l.
    + change (sublist [2] [3; 1; 2]). apply sublist_cons, sublist_cons. constructor. constructor.
    + apply sublist_nil_l.
  - intros c Hc. four_cases c; cbn; lia.
Qed.

Lemma four_journey : journey four four_latched four_arrival four_turn.
Proof. split; [intros c Hc; four_cases c; done | | done |]; intros c Hc; four_cases c; cbn in *; done || lia. Qed.

Lemma four_in_range : in_range four four_latched four_turn.
Proof. split; [done|]. intros j Hj. four_cases j; cbn; lia. Qed.

Lemma four_answers : answers (L := oracle four_answer) four four_latched four_adr.
Proof.
  intros j p data l Hj Hp Hlen _.
  assert (four_answer (four_adr j) (ECT_REG_DCTIME0 + 4 * p) = Some (four_latched j p)) as Ha.
  { four_cases j; vm_compute in Hp;
      repeat (apply elem_of_cons in Hp as [->|Hp]; [reflexivity|]); by apply elem_of_nil in Hp. }
  unfold wp, lk_FPRD, oracle_link, or_read. rewrite Ha. cbn -[le_bytes drop].
  split; [|split; [done | lia]]. by rewrite drop_ge, app_nil_r by (rewrite Hlen; cbn; lia).
Qed.

Lemma four_ready : ready four four_adr four_ctx.
Proof.
  split; [exact I | reflexivity | by eexists | by eexists |]. intros j Hj. exists (four_slave j). four_cases j; (split; [reflexivity|]; split;
    [by split | split; [by eexists | done]]).
Qed.

#[local] Instance one_round : LoopFuel := 1%nat.

Lemma configdc_measures_delays_witness :
  wp no_fault (ecx_configdc (0, (replicate 4 0, replicate 4 0)))
    (fun r c' => r = true /\ exists s, zget (slavelist c') 4 = Some s /\ pdelay s = 300) four_ctx.
Proof.
  eapply wp_mono.
  { apply (configdc_measures_delays four four_latched four_arrival four_turn four_adr);
      [exact I | cbv; lia | exact four_wired | exact four_journey | exact four_in_range
       | exact four_answers | reflexivity | reflexivity | exact four_ready]. }
  cbn beta. intros r c' [Hr Hs]. split; [exact Hr|].
  destruct (Hs 4) as (s & H4 & Hd & _); [cbn; lia|]. exists s. split; [exact H4 | exact Hd].
Defined.

(** ** Sync signals *)

(** The first trigger is the next multiple of the cycle after the local time and the delay. *)
Lemma next_multiple x cycle : 0 <= x -> 0 < cycle ->
  (Z.quot x cycle * cycle + cycle) mod cycle = 0
  /\ x < Z.quot x cycle * cycle + cycle <= x + cycle.
Proof.
  intros Hx Hc. rewrite Z.quot_div_nonneg by lia.
  pose proof (Z.div_mod x cycle). pose proof (Z.mod_pos_bound x cycle).
  replace (x / cycle * cycle + cycle) with ((x / cycle + 1) * cycle) by lia.
  rewrite Z.mod_mul by lia. lia.
Qed.

(** C39: Starting the sync signal of a slave that answers sends, in this order, the stop of
    the cyclic operation, the claim of the unit, the start time, the cycle time and the
    activation, and nothing else; the start time is the shift after the first multiple of
    the cycle time that lies later than 100 ms after the slave's local time. *)
Theorem dcsync0_starts_on_grid answer (c : ecx_contextt (oracle answer)) slave s act CyclTime CyclShift t1 :
  zget (slavelist c) slave = Some s ->
  answer (configadr s) ECT_REG_DCSYSTIME = Some t1 -> 0 <= t1 < 2 ^ 62 ->
  0 < CyclTime < 2 ^ 32 -> - 2 ^ 31 <= CyclShift < 2 ^ 31 ->
  exists grid,
    wp no_fault (ecx_dcsync0 slave act CyclTime CyclShift)
      (fun _ c' => or_log (link c') = or_log (link c) ++
         [(configadr s, ECT_REG_DCSYNCACT, [0]); (configadr s, ECT_REG_DCCUC, [0]);
          (configadr s, ECT_REG_DCSTART0, le_bytes 8 (grid + CyclShift));
          (configadr s, ECT_REG_DCCYCLE0, le_bytes 4 CyclTime);
          (configadr s, ECT_REG_DCSYNCACT, [if act then 3 else 0])]
         /\ exists s', zget (slavelist c') slave = Some s' /\ DCactive s' = b2z act
              /\ DCshift s' = CyclShift /\ DCcycle s' = s32 CyclTime) c
    /\ grid mod CyclTime = 0
    /\ t1 + SyncDelay < grid <= t1 + SyncDelay + CyclTime.
Proof.
  intros Hs Ha Ht Hc Hsh. unfold SyncDelay.
  destruct (next_multiple (t1 + 100000000) CyclTime ltac:(lia) ltac:(lia)) as [Hm Hb].
  set (grid := Z.quot (t1 + 100000000) CyclTime * CyclTime + CyclTime) in *.
  exists grid. split; [|split; [exact Hm | lia]].
  assert (s64 (of_le (le_bytes 8 t1)) = t1) as Ht1.
  { rewrite of_le_le_bytes. unfold s64. change (256 ^ Z.of_nat 8) with (2 ^ 64).
    rewrite (Z.mod_small t1) by lia. rewrite Z.mod_small by lia. lia. }
  unfold ecx_dcsync0, dcsync_stop, first_trigger, c_div, dcsync_store.
  rewrite (proj2 (Z.ltb_lt 0 CyclTime)), (proj2 (Z.eqb_neq CyclTime 0)) by lia.
  apply wp_bind. eapply wp_get_slave; [exact Hs|].
  apply wp_bind. do 2 (apply wp_bind, wp_or_FPWR).
  apply wp_bind. eapply wp_or_FPRD; [exact Ha | data_len |]. apply wp_ret. cbn [snd].
  change (Z.to_nat 8) with 8%nat. rewrite Ht1. unfold SyncDelay.
  assert (s64 (t1 + 100000000) = t1 + 100000000) as -> by (apply s64_id; lia).
  apply wp_bind, wp_bind, wp_ret, wp_ret. fold grid.
  rewrite (s64_id (grid + CyclShift)) by (unfold grid in *; lia).
  do 3 (apply wp_bind, wp_or_FPWR). eapply wp_mod_slave; [exact Hs|].
  pose proof (zget_lt _ _ _ Hs).
  split; [cbn -[le_bytes]; by rewrite <- !app_assoc|].
  eexists. split; [cbn -[zget]; by rewrite zget_insert, decide_True by done|]. done.
Qed.

Lemma dcsync0_starts_on_grid_witness :
  exists grid, wp no_fault (ecx_dcsync0 1 true 1000000 (-500))
    (fun _ c' => exists a b, or_log (link c') = a ++ [(0x1001, ECT_REG_DCSTART0, le_bytes 8 (grid + -500))] ++ b)
    ((ctx0 (Oracle [] 0)) : ecx_contextt (oracle (fun _ _ => Some 12345)))
  /\ grid mod 1000000 = 0.
Proof.
  edestruct (dcsync0_starts_on_grid (fun _ _ => Some 12345) (ctx0 (Oracle [] 0)) 1 slave0 true 1000000 (-500))
    as (grid & Hw & Hm & _); [reflexivity | reflexivity | lia | lia | lia |].
  exists grid. split; [|exact Hm]. eapply wp_mono; [exact Hw|]. cbn beta. intros _ c' [Hl _].
  exists [(0x1001, ECT_REG_DCSYNCACT, [0]); (0x1001, ECT_REG_DCCUC, [0])]. eexists. exact Hl.
Defined.

(** Both signals: the cycle time of SYNC0 divides before it is tested, so a call with a cycle
    time of zero, even to stop the signals, is undefined. *)
Theorem dcsync01_divides_by_zero {L} `{EcLink L} slave act CyclTime1 CyclShift (c : ecx_contextt L) :
  ecx_dcsync01 slave act 0 CyclTime1 CyclShift c = Err DivByZero.
Proof. reflexivity. Qed.

(** The entry port is chosen by a signed comparison of counters that wrap around: a frame that
    enters port 0 just before the wrap is taken to have entered at port 1. *)
Theorem entry_port_wraps s lc : lists_ok lc -> activeports s = 3 ->
  DCrtA s = 2 ^ 31 - 1 -> DCrtB s = s32 (2 ^ 31 - 1 + 10) -> choose_entry s lc = 1.
Proof.
  intros Hl Ha HA HB. rewrite choose_entry_earliest by (rewrite ?Ha; done).
  rewrite Ha. change (active_ports 3) with [0; 1]. cbn [earliest fold_left].
  change (porttime s 1) with (DCrtB s). change (porttime s 0) with (DCrtA s). by rewrite HA, HB.
Qed.
