(* ===== verification/TopologyTheorems.v ===== *)
(** * The tree of slaves

    The parents [init_topology] finds in a network whose slaves are numbered in the order in
    which a frame reaches them. *)

From S2P Require Import Prelude Types Osal ErrorRing Mailbox Context Dc Config.
From S2P Require Import NicRecv Transfer LinkSpec EepromSim DcSpec DcTheorems.
Import stdpp.list_relations.list stdpp.list_basics.list.

(** ** Counting connections *)

Section Tree.
Context (w : wiring) (Hw : wired w).
Abbreviation n := (w_count w).
Abbreviation up := (w_up w).

(** A frame that has come to slave [i] visits all that hangs on it before it goes back to
    [up i]: a slave that is numbered between the two hangs on one of them or on a later one. *)
Definition visited_in_order : Prop :=
  forall c i, 2 <= c -> c < i -> i <= n -> up i < c -> up i <= up c.
Context (Hord : visited_in_order).

(** The slaves that hang on one of [j], ..., [i - 1]. *)
Definition hung (j i : Z) : list Z := List.filter (fun c => (j <=? up c) && (up c <? i)) (seqZ 1 n).
(** Branches that are open at [j] when the frame has come from [j] to [i]. *)
Definition open_branches (j i : Z) : Z := zlen (hung j i) - (i - j).

Lemma elem_of_hung j i c : c ∈ hung j i <-> 1 <= c <= n /\ j <= up c < i.
Proof using Type.
  unfold hung. rewrite list_elem_of_In, List.filter_In, <- list_elem_of_In, elem_of_seqZ. lia.
Qed.

Lemma filter_count {A} (f g h : A -> bool) l :
  (forall y, h y = f y || g y) -> (forall y, f y && g y = false) ->
  length (List.filter h l) = (length (List.filter f l) + length (List.filter g l))%nat.
Proof using Type.
  intros Hh Hd. induction l as [|y l IH]; [done|]. cbn. rewrite Hh. specialize (Hd y).
  destruct (f y), (g y); cbn in *; try done; lia.
Qed.

(** One slave back: its branches are open, and the frame has come in by one. *)
Lemma open_branches_step j i : j < i -> open_branches j i = open_branches (j + 1) i + (zlen (kids w j) - 1).
Proof using Hw.
  intros Hj. pose proof (wi_count w Hw). unfold open_branches, hung, kids, kids_in, zlen.
  rewrite Z2Nat.id by lia.
  rewrite (filter_count (fun c => up c =? j) (fun c => (j + 1 <=? up c) && (up c <? i)));
    [lia | intros c; lia | intros c; lia].
Qed.
Lemma open_branches_none i : open_branches i i = 0.
Proof using Type.
  unfold open_branches. destruct (hung i i) as [|c l] eqn:He; [unfold zlen; cbn; lia|].
  assert (c ∈ hung i i) as Hc by (rewrite He; left). apply elem_of_hung in Hc. lia.
Qed.

Lemma hung_nodup j i : NoDup (hung j i).
Proof using Type. unfold hung. apply NoDup_ListNoDup, List.NoDup_filter, NoDup_ListNoDup, NoDup_seqZ. Qed.

(** Behind the parent no branch is open; at the parent there is one. *)
Lemma branches_closed j i : 2 <= i <= n -> up i < j < i -> open_branches j i < 0.
Proof using Hw Hord.
  intros Hi Hj. pose proof (wi_up w Hw i ltac:(lia)). unfold open_branches.
  enough (zlen (hung j i) <= i - 1 - j) by lia.
  assert (hung j i ⊆+ seqZ (j + 1) (i - 1 - j)) as Hs%submseteq_length.
  { apply NoDup_submseteq; [apply hung_nodup|]. intros c [Hc Hup]%elem_of_hung. apply elem_of_seqZ.
    assert (2 <= c). { destruct (decide (c = 1)) as [-> | ?]; [|lia]. rewrite (wi_first w Hw) in Hup. lia. }
    pose proof (wi_up w Hw c ltac:(lia)). destruct (Z.lt_trichotomy c i) as [?|[-> |Hgt]]; [lia..|].
    pose proof (Hord i c ltac:(lia) Hgt ltac:(lia) ltac:(lia)). lia. }
  rewrite length_seqZ in Hs. unfold zlen. lia.
Qed.
Lemma branch_open i : 2 <= i <= n -> 0 <= open_branches (up i) i.
Proof using Hw Hord.
  intros Hi. pose proof (wi_up w Hw i ltac:(lia)). unfold open_branches.
  assert (seqZ (up i + 1) (i - up i) ⊆+ hung (up i) i) as Hs%submseteq_length.
  { apply NoDup_submseteq; [apply NoDup_seqZ|]. intros c Hc%elem_of_seqZ. apply elem_of_hung.
    pose proof (wi_up w Hw c ltac:(lia)). split; [lia|]. split; [|lia].
    destruct (Z.eq_dec c i) as [-> | ?]; [lia|]. apply (Hord c i); lia. }
  rewrite length_seqZ in Hs. unfold zlen. lia.
Qed.

Lemma kids_at_most j : 1 <= j <= n -> 0 <= zlen (kids w j) <= 3.
Proof using Hw.
  intros Hj. pose proof (wi_ports w Hw j Hj) as Hs%sublist_length. rewrite length_map in Hs.
  unfold zlen. cbn in Hs. lia.
Qed.
Lemma topo_step_kids j t : 1 <= j <= n -> topo_step (1 + zlen (kids w j)) t = t + (zlen (kids w j) - 1).
Proof using Hw.
  intros Hj. pose proof (kids_at_most j Hj). unfold topo_step.
  destruct (Z.eqb_spec (1 + zlen (kids w j)) 1), (Z.eqb_spec (1 + zlen (kids w j)) 3),
    (Z.eqb_spec (1 + zlen (kids w j)) 4); lia.
Qed.
Lemma parent_has_kid i : 2 <= i <= n -> 1 <= zlen (kids w (up i)).
Proof using Type.
  intros Hi. assert (i ∈ kids w (up i)) as Hin by (apply elem_of_kids_in; lia).
  unfold zlen. destruct (kids w (up i)); [by apply elem_of_nil in Hin | cbn; lia].
Qed.

(** ** The search *)

Section Find.
Context {L : Type} `{EcLink L}.

Lemma wp_find_parent i Q (c : ecx_contextt L) : 2 <= i <= n ->
  (forall j, 1 <= j < i -> exists s, zget (slavelist c) j = Some s /\ topology s = 1 + zlen (kids w j)) ->
  Q (up i) c -> wp no_fault (find_parent i) Q c.
Proof using Hw Hord.
  intros Hi Hs HQ. pose proof (wi_up w Hw i ltac:(lia)) as Hup. apply wp_bind.
  apply (wp_do_while no_fault (fun '(topoc, slavec, par) c' => c' = c /\ par = 0
      /\ up i <= slavec < i /\ topoc = open_branches (slavec + 1) i)
    (fun '(_, slavec, _) _ => Z.to_nat slavec)) with (Q := fun r c => wp no_fault (ret r.2) Q c).
  - intros [[topoc slavec] par] c' (-> & -> & Hsl & ->).
    destruct (Hs slavec ltac:(lia)) as (s & Hget & Htop). pose proof (kids_at_most slavec ltac:(lia)).
    apply wp_bind. eapply wp_get_slave; [exact Hget|].
    rewrite Htop, topo_step_kids, <- open_branches_step by lia. apply wp_ret. cbn [fst snd].
    destruct (Z.eq_dec slavec (up i)) as [-> | Hne].
    + pose proof (branch_open i Hi). pose proof (parent_has_kid i Hi).
      replace ((0 <=? open_branches (up i) i) && (1 <? 1 + zlen (kids w (up i))) || (up i =? 1)) with true by lia.
      cbn. by apply wp_ret.
    + pose proof (branches_closed slavec i Hi ltac:(lia)).
      replace ((0 <=? open_branches slavec i) && (1 <? 1 + zlen (kids w slavec)) || (slavec =? 1)) with false by lia.
      replace (0 <? slavec - 1) with true by lia. split; [|lia]. split_and!; [done | done | lia | lia |].
      f_equal. lia.
  - split_and!; [done | done | lia | lia |]. replace (i - 1 + 1) with i by lia. by rewrite open_branches_none.
  - lia.
Qed.
End Find.
End Tree.

(** ** The open ports *)

(** Port [p] is open with communication established, in the DL status register. *)
Definition open_port (word p : Z) : bool := Z.land (Z.shiftr word (8 + 2 * p)) 3 =? 2.

Lemma land_field word k m : 0 <= k -> Z.land word (Z.shiftl m k) = Z.shiftl (Z.land (Z.shiftr word k) m) k.
Proof.
  intros Hk. apply Z.bits_inj'. intros b Hb. rewrite Z.land_spec, !Z.shiftl_spec by done.
  rewrite Z.land_spec. destruct (Z.lt_ge_cases b k).
  - rewrite !(Z.testbit_neg_r _ (b - k)) by lia. by rewrite !andb_false_r.
  - rewrite Z.shiftr_spec by lia. by replace (b - k + k) with b by lia.
Qed.
Lemma field_open word p : 0 <= p ->
  (Z.land word (Z.shiftl 3 (8 + 2 * p)) =? Z.shiftl 2 (8 + 2 * p)) = open_port word p.
Proof.
  intros Hp. rewrite land_field, !Z.shiftl_mul_pow2 by lia. unfold open_port.
  assert (0 < 2 ^ (8 + 2 * p)) by (apply Z.pow_pos_nonneg; lia).
  destruct (Z.eqb_spec (Z.land (Z.shiftr word (8 + 2 * p)) 3) 2) as [-> | Hne]; [by rewrite Z.eqb_refl|].
  apply Z.eqb_neq. nia.
Qed.

Lemma open_ports_of word ps : ps `sublist_of` [3; 1; 2] ->
  (forall p, 0 <= p < 4 -> open_port word p = bool_decide (p ∈ 0 :: ps)) ->
  open_ports word = (1 + zlen ps, ports_mask (0 :: ps)).
Proof.
  intros Hps Hopen. unfold open_ports.
  change (Z.land word 0x0300 =? 0x0200) with (Z.land word (Z.shiftl 3 (8 + 2 * 0)) =? Z.shiftl 2 (8 + 2 * 0)).
  change (Z.land word 0x0c00 =? 0x0800) with (Z.land word (Z.shiftl 3 (8 + 2 * 1)) =? Z.shiftl 2 (8 + 2 * 1)).
  change (Z.land word 0x3000 =? 0x2000) with (Z.land word (Z.shiftl 3 (8 + 2 * 2)) =? Z.shiftl 2 (8 + 2 * 2)).
  change (Z.land word 0xc000 =? 0x8000) with (Z.land word (Z.shiftl 3 (8 + 2 * 3)) =? Z.shiftl 2 (8 + 2 * 3)).
  rewrite !field_open, !Hopen by done. by_port_lists Hps; by subst.
Qed.

(** ** A slave is put into the tree *)

Section Init.
Context {L : Type} `{HL : LinkLaws L}.
Context (w : wiring) (adr dlstat : Z -> Z).

(** The slave answers with a clock, and with an open port to each slave it is connected to. *)
Record link_status (i : Z) : Prop := LinkStatus {
  ls_ports : forall p, 0 <= p < 4 -> open_port (dlstat i) p = bool_decide (p ∈ 0 :: ports_of w i);
  ls_word : 0 <= dlstat i < 65536;
  ls_answers : forall reg data l, reg ∈ [ECT_REG_ESCSUP; ECT_REG_DLSTAT; ECT_REG_PORTDES] ->
    length data = 2%nat -> lk_ok l ->
    wp no_fault (lk_FPRD (adr i) reg 2 data EC_TIMEOUTRET3)
      (fun r l' => lk_ok l' /\ lk_now l <= lk_now l' /\ exists v, r.2 = le_bytes 2 v /\ 0 <= v < 65536
         /\ (reg = ECT_REG_ESCSUP -> Z.land v 4 = 4) /\ (reg = ECT_REG_DLSTAT -> v = dlstat i)) l;
}.

Lemma wp_word i reg Q (c : ecx_contextt L) : link_status i ->
  reg ∈ [ECT_REG_ESCSUP; ECT_REG_DLSTAT; ECT_REG_PORTDES] -> lk_ok (link c) ->
  (forall v c', link_step c c' -> (reg = ECT_REG_ESCSUP -> Z.land v 4 = 4) ->
     (reg = ECT_REG_DLSTAT -> v = dlstat i) -> Q v c') ->
  wp no_fault (ctx_FPRDw (adr i) reg EC_TIMEOUTRET3) Q c.
Proof.
  intros Hi Hreg Hok HQ. apply wp_bind. eapply wp_onlink; [by apply (ls_answers i Hi)|].
  intros r l (Hl & Hn & v & Hr & Hv & H1 & H2). apply wp_ret. rewrite Hr, of_le_le_bytes.
  change (256 ^ Z.of_nat 2) with 65536. rewrite Z.mod_small by done. apply HQ; [by apply link_stepped | done..].
Qed.

(** C8: When a slave of a tree has been asked for its open ports, and the slaves before it
    have been placed, it is placed right: its number of connections and its mask of active
    ports are those of the tree, and the search back through the slaves finds as its parent
    the slave it hangs on, in every tree whose slaves are numbered in the order the frame
    reaches them.  The other slaves are left alone.  This is what the clock configuration
    relies on. *)
Theorem init_topology_describes i s (c : ecx_contextt L) :
  wired w -> visited_in_order w -> 1 <= i <= w_count w -> link_status i -> lk_ok (link c) ->
  zget (slavelist c) i = Some s -> configadr s = adr i ->
  (forall j, 1 <= j < i -> exists p, zget (slavelist c) j = Some p /\ topology p = 1 + zlen (kids w j)) ->
  total (init_topology i) (fun _ c' => exists s', zget (slavelist c') i = Some s' /\ described w adr i s'
    /\ (forall j, j <> i -> zget (slavelist c') j = zget (slavelist c) j) /\ lk_ok (link c')) c.
Proof.
  intros Hw Hord Hi Hst Hok Hs Hadr Hbefore.
  pose proof (focus_refl i s c Hok Hs) as F0.
  apply wp_bind. eapply wp_focus_get; [exact F0|]. rewrite Hadr.
  apply wp_bind. eapply (wp_word i); [exact Hst | in_ops | done |]. intros v1 c1 S1 Hsup _.
  pose proof (focus_link _ _ _ _ _ _ F0 S1) as F1.
  apply wp_bind. eapply wp_focus_mod; [exact F1|]. intros c2 F2.
  apply wp_bind. eapply (wp_word i); [exact Hst | in_ops | apply F2 |]. intros v2 c3 S3 _ Hdl.
  pose proof (focus_link _ _ _ _ _ _ F2 S3) as F3.
  apply wp_bind. eapply (wp_word i); [exact Hst | in_ops | apply F3 |]. intros v3 c4 S4 _ _.
  pose proof (focus_link _ _ _ _ _ _ F3 S4) as F4.
  specialize (Hsup eq_refl). specialize (Hdl eq_refl). subst v2.
  pose proof (open_ports_of (dlstat i) (ports_of w i) (wi_ports w Hw i Hi) (ls_ports i Hst)) as Hports.
  apply wp_bind. eapply wp_focus_mod; [exact F4|]. intros c5 F5. cbn [fst snd] in F5.
  assert (Hlen : zlen (ports_of w i) = zlen (kids w i)) by (unfold ports_of, zlen; by rewrite length_map).
  apply wp_when; intros H1.
  - apply wp_bind. eapply wp_find_parent; [exact Hw | exact Hord | lia | |].
    { intros j Hj. rewrite (fo_rest _ _ _ _ _ F5) by lia. by apply Hbefore. }
    eapply wp_focus_mod; [exact F5|]. intros c6 F6. eexists. split; [apply F6|].
    split; [split; cbn -[open_ports]; [by rewrite Hsup | done | by rewrite Hports; cbn; rewrite Hlen | by rewrite Hports | done]|]. split; [apply F6 | apply F6].
  - eexists. split; [apply F5|]. assert (i = 1) as -> by lia.
    split; [split; cbn -[open_ports]; [by rewrite Hsup | by rewrite (wi_first w Hw) | by rewrite Hports; cbn; rewrite Hlen
      | by rewrite Hports | done]|].
    split; [apply F5 | apply F5].
Qed.
End Init.

(** ** A witness: the third slave of four, which hangs on the first one *)

Definition dl_answer (ADP ADO : Z) : option Z :=
  if ADO =? ECT_REG_ESCSUP then Some 4 else if ADO =? ECT_REG_DLSTAT then Some 0x2200 else Some 0.
Definition tree_ctx : ecx_contextt (oracle dl_answer) :=
  (ctx0 (Oracle [] 0)) <| slavelist := slave0 :: map four_slave [1; 2]
    ++ [slave0 <| configadr := four_adr 3 |>] |> <| slavecount := 4 |>.

Lemma four_in_order : visited_in_order four.
Proof. intros c i Hc Hci Hi Hup. cbn in Hi. four_cases c; four_cases i; cbn in *; lia. Qed.

Lemma third_status : link_status (L := oracle dl_answer) four four_adr (fun _ => 0x2200) 3.
Proof.
  split; [| done |].
  - intros p Hp. assert (p = 0 \/ p = 1 \/ p = 2 \/ p = 3) as Hc by lia.
    destruct Hc as [-> | [-> | [-> | ->]]]; reflexivity.
  - intros reg data l Hreg Hd _. rewrite !elem_of_cons, elem_of_nil in Hreg.
    destruct Hreg as [-> | [-> | [-> | []]]]; unfold wp; cbn -[le_bytes drop]; rewrite drop_ge, app_nil_r by (cbn; lia);
      (split; [done | split; [lia|]]).
    + by exists 4.
    + by exists 0x2200.
    + by exists 0.
Qed.

Lemma init_topology_describes_witness :
  total (init_topology 3) (fun _ c => exists s, zget (slavelist c) 3 = Some s /\ parent s = 1 /\ topology s = 2)
    tree_ctx.
Proof.
  eapply wp_mono.
  - apply (init_topology_describes four four_adr (fun _ => 0x2200) 3 (slave0 <| configadr := four_adr 3 |>));
      [exact four_wired | exact four_in_order | done | exact third_status | exact I | done | done |].
    intros j Hj. exists (four_slave j). assert (j = 1 \/ j = 2) as [-> | ->] by lia; done.
  - intros r c (s & Hs & [_ Hp Ht _ _] & _). exists s. split; [exact Hs|]. split; [exact Hp | exact Ht].
Defined.
