(* ===== verification/MapSpec.v ===== *)
(** * Steps of the mapping of process data

    What the mapping of a group leaves alone while it programs the FMMUs, and what it keeps
    true of the segments.  An array may be left ([OutOfBounds]): the code does not compare
    the number of an FMMU or of a segment with the size of its array. *)

From S2P Require Import Prelude Types Osal ErrorRing Mailbox Context MbxHandler Config MapGroup.
From S2P Require Import NicRecv Transfer LinkSpec DcSpec.
Import stdpp.list_relations.list stdpp.list_basics.list.

Definition out_of_array (f : fault) : Prop := f = OutOfBounds.

(** The fields of a group the layout of its image is made of. *)
Record layout : Type := Layout {
  y_segments : list Z;
  y_start : Z;
  y_Obytes : Z;
  y_Ibytes : Z;
  y_Isegment : Z;
  y_Ioffset : Z;
}.
Definition layout_of (gr : ec_groupt) : layout :=
  Layout (IOsegment gr) (logstartaddr gr) (Obytes gr) (Ibytes gr) (Isegment gr) (Ioffset gr).

Section Steps.
Context {L : Type} `{HL : LinkLaws L}.
Abbreviation ctx := (ecx_contextt L).
Implicit Types c : ctx.
Context (Hpat : lk_patient EC_TIMEOUTRET3) (g : Z).

(** The layout of the group is [y]. *)
Record laid_out (y : layout) c : Prop := LaidOut {
  lo_ok : lk_ok (link c);
  lo_fmmu : Forall (fun s => zlen (FMMU s) <= EC_MAXFMMU) (slavelist c);
  lo_group : exists gr, zget (grouplist c) g = Some gr /\ layout_of gr = y;
}.

Lemma wp_lo_group y Q c : laid_out y c -> (forall gr, layout_of gr = y -> Q gr c) ->
  wp out_of_array (get_group g) Q c.
Proof using Type. intros [_ _ (gr & Hg & Hy)] HQ. eapply wp_get_group; [exact Hg | by apply HQ]. Qed.

Lemma wp_lo_mod_group y y' f Q c : laid_out y c ->
  (forall gr, layout_of gr = y -> layout_of (f gr) = y') ->
  (forall c', laid_out y' c' -> Q tt c') -> wp out_of_array (mod_group g f) Q c.
Proof using Type.
  intros [Hok Hf (gr & Hg & Hy)] Hsame HQ. eapply wp_mod_group; [exact Hg|]. apply HQ.
  split; [done | done|]. exists (f gr). cbn. rewrite zget_insert, decide_True by (done || by apply zget_lt in Hg).
  split; [done | by apply Hsame].
Qed.

Lemma wp_lo_slave y i Q c : laid_out y c -> (forall s, zlen (FMMU s) <= EC_MAXFMMU -> Q s c) ->
  wp out_of_array (get_slave i) Q c.
Proof using Type.
  intros [_ Hf _] HQ. apply wp_bind, wp_gets, wp_of_opt_any; [done|]. intros s Hs. apply HQ.
  rewrite Forall_forall in Hf. apply Hf, zget_elem_of. eauto.
Qed.

Lemma wp_lo_mod_slave y i f Q c : laid_out y c ->
  (forall s, zlen (FMMU s) <= EC_MAXFMMU -> zlen (FMMU (f s)) <= EC_MAXFMMU) ->
  (forall c', laid_out y c' -> Q tt c') -> wp out_of_array (mod_slave i f) Q c.
Proof using Type.
  intros [Hok Hf Hg] Hlen HQ. apply wp_bind, wp_gets, wp_bind, wp_of_opt_any; [done|]. intros s Hs.
  apply wp_bind, wp_of_opt_any; [done|]. intros l Hl. apply wp_modify, HQ. split; [done | | done]. cbn.
  eapply Forall_zset; [exact Hf | | exact Hl]. apply Hlen. rewrite Forall_forall in Hf.
  apply Hf, zget_elem_of. eauto.
Qed.

Lemma wp_lo_write y adr reg f Q c : laid_out y c -> (forall r c', laid_out y c' -> Q r c') ->
  wp out_of_array (ctx_FPWR adr reg 16 (fmmu_bytes f) EC_TIMEOUTRET3) Q c.
Proof using Hpat.
  intros [Hok Hf Hg] HQ. apply wp_ctx_write; [in_ops | done | done | ec_unfold; lia | |].
  { unfold fmmu_bytes, zlen. rewrite !length_app, !length_le_bytes. cbn. lia. }
  intros r c' _ [-> Hok' _]. apply HQ. by split.
Qed.

Lemma wp_oobC {A} (o : option A) Q c : (forall a, o = Some a -> Q a c) -> wp out_of_array (oobC o) Q c.
Proof using Type. apply wp_of_opt_any. done. Qed.

(** ** The FMMUs *)

Lemma wp_put_fmmu y slave i f Q c : laid_out y c -> (forall c', laid_out y c' -> Q tt c') ->
  wp out_of_array (put_fmmu slave i f) Q c.
Proof using Type.
  intros Hl HQ. apply wp_bind. eapply wp_lo_slave; [exact Hl|]. intros s Hs.
  apply wp_bind, wp_oobC. intros l Hz. eapply wp_lo_mod_slave; [exact Hl | | exact HQ].
  intros s' _. cbn. by rewrite (zset_length _ _ _ _ Hz).
Qed.

Lemma dir_place_fmmu d place bit s : FMMU (dir_place d place bit s) = FMMU s.
Proof using Type. by destruct d; cbn; destruct (_ s). Qed.

Lemma wp_create_fmmu d y pIOmap slave st Q c : laid_out y c ->
  (forall st' c', laid_out y c' -> 0 <= f_FMMUc st < EC_MAXFMMU -> f_FMMUc st' = u8 (f_FMMUc st + 1) -> Q st' c') ->
  wp out_of_array (create_fmmu d pIOmap g slave st) Q c.
Proof using Hpat.
  intros Hl HQ. apply wp_bind. eapply wp_lo_slave; [exact Hl|]. intros s Hs. cbn zeta.
  apply wp_bind, wp_oobC. intros f Hf. apply zget_lt in Hf.
  destruct (place_fmmu _ _ _ _ _ _) as [[[[start startbit] size] endbit] pos].
  apply wp_bind. eapply wp_put_fmmu; [exact Hl|]. intros c1 H1.
  apply wp_bind. assert (Hrest : forall c2, laid_out y c2 -> wp out_of_array
    (let* gr := get_group g in
     do* mod_slave slave (dir_place d (pIOmap + start - (if g =? 0 then 0 else logstartaddr gr)) startbit) in
     ret (FmmuState (r_SMc (gather_sms (Z.to_nat EC_MAXSM) d s
            (take_sm s (seek_sm (SMtype s) (dir_smtype d) (f_SMc st)) (f_ByteCount st) (f_BitCount st))))
          (f_done st + size) (u8 (f_FMMUc st + 1))
          (r_ByteCount (gather_sms (Z.to_nat EC_MAXSM) d s
            (take_sm s (seek_sm (SMtype s) (dir_smtype d) (f_SMc st)) (f_ByteCount st) (f_BitCount st))))
          (r_BitCount (gather_sms (Z.to_nat EC_MAXSM) d s
            (take_sm s (seek_sm (SMtype s) (dir_smtype d) (f_SMc st)) (f_ByteCount st) (f_BitCount st))))
          pos.1 pos.2)) Q c2).
  { intros c2 H2. apply wp_bind. eapply wp_lo_group; [exact H2|]. intros gr Hgr.
    apply wp_bind. eapply wp_lo_mod_slave; [exact H2 | by intros; rewrite dir_place_fmmu |].
    intros c3 H3. apply wp_ret, HQ; [done | lia | done]. }
  apply wp_when; intros _; [|by apply Hrest].
  apply wp_bind. eapply wp_lo_write; [exact H1|]. intros r c2 H2. apply wp_ret, Hrest, H2.
Qed.

(** An FMMU more than the slave has is outside the array, so the loop ends. *)
Lemma wp_create_fmmus d y pIOmap slave FMMUc pos Q c : laid_out y c ->
  (forall pos' c', laid_out y c' -> Q pos' c') ->
  wp out_of_array (create_fmmus d pIOmap g slave FMMUc pos) Q c.
Proof using Hpat.
  intros Hl HQ. apply wp_bind.
  apply (wp_while_do out_of_array (fun _ c' => laid_out y c')
    (fun st _ => Z.to_nat (EC_MAXFMMU - Z.max 0 (f_FMMUc st)))) with
    (Q := fun st c => wp out_of_array (do* mod_slave slave (fun s => s <| FMMUunused := f_FMMUc st |>) in
                                       ret (f_LogAddr st, f_BitPos st)) Q c).
  - intros st c' Hc'. apply wp_bind. eapply wp_lo_slave; [exact Hc'|]. intros s Hs. apply wp_ret.
    destruct ((f_SMc st <? EC_MAXSM) && (f_done st <? (dir_bits d s + 7) / 8)).
    + eapply wp_create_fmmu; [exact Hc'|]. intros st' c'' Hc'' Hr Hn. split; [done|].
      rewrite Hn. unfold EC_MAXFMMU in *. rewrite u8_id by lia. lia.
    + apply wp_bind. eapply wp_lo_mod_slave; [exact Hc' | done |]. intros c'' Hc''. by apply wp_ret, HQ.
  - done.
  - unfold EC_MAXFMMU. cbn [f_FMMUc]. lia.
Qed.

Lemma wp_free_fmmu y slave i Q c : laid_out y c -> (forall n, Q n c) ->
  wp out_of_array (free_fmmu slave i) Q c.
Proof using Type.
  intros Hl HQ. apply (wp_while_do out_of_array (fun _ c' => c' = c)
    (fun i _ => Z.to_nat (EC_MAXFMMU - Z.max 0 i))).
  - intros n c' ->. apply wp_bind. eapply wp_lo_slave; [exact Hl|]. intros s Hs.
    apply wp_bind, wp_oobC. intros f Hf. apply zget_lt in Hf. apply wp_ret.
    destruct (negb (LogStart f =? 0)); [|by apply HQ]. apply wp_ret. split; [done|].
    unfold EC_MAXFMMU in *. rewrite u8_id by lia. lia.
  - done.
  - unfold EC_MAXFMMU. lia.
Qed.

Lemma wp_data_mappings d y pIOmap slave pos Q c : laid_out y c ->
  (forall pos' c', laid_out y c' -> Q pos' c') ->
  wp out_of_array (match d with
    | Outputs => ecx_config_create_output_mappings pIOmap g slave pos
    | Inputs => ecx_config_create_input_mappings pIOmap g slave pos
    end) Q c.
Proof using Hpat.
  intros Hl HQ. destruct d; apply wp_bind; (eapply wp_lo_slave; [exact Hl|]); intros s Hs.
  - by eapply wp_create_fmmus.
  - apply wp_bind. destruct (Obits s =? 0).
    + apply wp_ret. by eapply wp_create_fmmus.
    + eapply wp_free_fmmu; [exact Hl|]. intros n. by eapply wp_create_fmmus.
Qed.

(** The state of a mailbox takes one byte or none. *)
Lemma wp_mbxstatus_mappings y pIOmap slave LogAddr Q c : laid_out y c ->
  (forall a c', a = LogAddr \/ a = u32 (LogAddr + 1) -> laid_out y c' -> Q a c') ->
  wp out_of_array (ecx_config_create_mbxstatus_mappings pIOmap g slave LogAddr) Q c.
Proof using Hpat.
  intros Hl HQ. apply wp_bind. eapply wp_lo_slave; [exact Hl|]. intros s Hs. cbn zeta.
  destruct (negb (mbx_l s =? 0) && (FMMUunused s <? EC_MAXFMMU)); [|apply wp_ret, HQ; auto].
  apply wp_bind. eapply wp_put_fmmu; [exact Hl|]. intros c1 H1.
  apply wp_bind, wp_bind. eapply wp_lo_write; [exact H1|]. intros r c2 H2. apply wp_ret.
  apply wp_bind. eapply wp_lo_mod_slave; [exact H2 | done |]. intros c3 H3.
  apply wp_bind. eapply wp_lo_group; [exact H3|]. intros gr Hgr.
  apply wp_bind, wp_oobC. intros l Hz.
  apply wp_bind. eapply (wp_lo_mod_group y y); [exact H3 | by intros ? <- |]. intros c4 H4.
  apply wp_bind. eapply wp_lo_mod_slave; [exact H4 | done |]. intros c5 H5.
  apply wp_bind, wp_when; intros _.
  - eapply (wp_lo_mod_group y y); [exact H5 | by intros ? <- |]. intros c6 H6. apply wp_ret, HQ; auto.
  - apply wp_ret, HQ; auto.
Qed.

(** ** The segments *)

Definition total_size (l : list Z) : Z := foldr Z.add 0 l.

(** The segments before the current one are within the limit, those of [pre] come first, and
    together with what is in the current one they reach from the start of the group to the
    address [adr], modulo 2^32. *)
Record cut (y : layout) (pre : list Z) (adr : Z) (st : map_state) : Prop := Cut {
  cu_len : zlen (y_segments y) = EC_MAXIOSEGMENTS;
  cu_seg : 0 <= m_seg st <= EC_MAXIOSEGMENTS;
  cu_pre : pre `prefix_of` take (Z.to_nat (m_seg st)) (y_segments y);
  cu_limit : Forall (fun n => 0 <= n <= EC_MAXLRWDATA) (take (Z.to_nat (m_seg st)) (y_segments y));
  cu_max : EC_MAXLRWDATA - EC_FIRSTDCDATAGRAM <= m_max st <= EC_MAXLRWDATA;
  cu_size : 0 <= m_size st;
  cu_sum : u32 (total_size (take (Z.to_nat (m_seg st)) (y_segments y)) + m_size st) = u32 (adr - y_start y);
}.
(** The current one is within its limit as long as there is room for more segments. *)
Definition within (st : map_state) : Prop := m_seg st < EC_MAXIOSEGMENTS -> m_size st <= m_max st.

Lemma u32_add_l a b : u32 (u32 a + b) = u32 (a + b).
Proof using Type. unfold u32. apply Zplus_mod_idemp_l. Qed.
Lemma u32_add_r a b : u32 (a + u32 b) = u32 (a + b).
Proof using Type. unfold u32. apply Zplus_mod_idemp_r. Qed.

Lemma total_size_app l l' : total_size (l ++ l') = total_size l + total_size l'.
Proof using Type. unfold total_size. induction l as [|n l IH]; cbn; lia. Qed.
Lemma total_size_bound l m : 0 <= m -> Forall (fun n => 0 <= n <= m) l -> 0 <= total_size l <= m * zlen l.
Proof using Type.
  intros Hm Hl. unfold zlen. induction Hl as [|n l Hn _ IH]; cbn [total_size foldr length]; [lia|].
  fold (total_size l). lia.
Qed.

(** More data in the current segment. *)
Lemma cut_grow y pre adr adr' st : cut y pre adr st ->
  cut y pre adr' (st <| m_size := u32 (m_size st + u32 (adr' - adr)) |>).
Proof using Type.
  intros []. split; cbn; try done; [apply u32_range|].
  rewrite u32_add_r, Z.add_assoc, u32_add_r, <- u32_add_l, cu_sum0, u32_add_l. f_equal. lia.
Qed.

(** A segment is closed with [n] bytes, and the rest goes to the next one. *)
Lemma cut_close y pre adr n rest max st : cut y pre adr st ->
  m_seg st < EC_MAXIOSEGMENTS -> 0 <= n <= EC_MAXLRWDATA -> 0 <= rest -> n + rest = m_size st ->
  EC_MAXLRWDATA - EC_FIRSTDCDATAGRAM <= max <= EC_MAXLRWDATA ->
  cut (y <| y_segments ::= <[Z.to_nat (m_seg st) := n]> |>) pre adr
      (st <| m_seg := m_seg st + 1 |> <| m_size := rest |> <| m_max := max |>).
Proof using Type.
  intros [Hlen Hseg Hpre Hlim Hmax Hsize Hsum] Hlt Hn Hr Heq Hm.
  unfold EC_MAXIOSEGMENTS in *. set (l := <[Z.to_nat (m_seg st) := n]> (y_segments y)).
  assert (Htake : take (Z.to_nat (m_seg st + 1)) l = take (Z.to_nat (m_seg st)) (y_segments y) ++ [n]).
  { replace (Z.to_nat (m_seg st + 1)) with (S (Z.to_nat (m_seg st))) by lia. unfold l.
    rewrite (take_S_r _ _ n) by (apply list_lookup_insert_eq; unfold zlen in *; lia).
    by rewrite take_insert_ge by done. }
  split; cbn -[Z.to_nat take]; fold l; rewrite ?Htake.
  - unfold l. by rewrite zlen_insert.
  - unfold EC_MAXIOSEGMENTS. lia.
  - by apply prefix_app_r.
  - apply Forall_app. by split; [|constructor].
  - done.
  - done.
  - rewrite total_size_app, <- Hsum, <- Heq. f_equal. cbn. lia.
Qed.

(** What is stored in the current segment or behind it does not matter yet. *)
Lemma cut_store y pre adr i n st : cut y pre adr st -> m_seg st <= i ->
  cut (y <| y_segments ::= <[Z.to_nat i := n]> |>) pre adr st.
Proof using Type.
  intros [] Hi. split; cbn -[Z.to_nat take]; rewrite ?zlen_insert, ?take_insert_ge by lia; done.
Qed.

Lemma cut_u32 y pre adr st : cut y pre adr st -> cut y pre (u32 adr) st.
Proof using Type.
  intros []. split; try done. rewrite cu_sum0. unfold Z.sub. by rewrite u32_add_l.
Qed.

Lemma wp_set_segment y i n Q c : laid_out y c ->
  (forall c', laid_out (y <| y_segments ::= <[Z.to_nat i := n]> |>) c' -> 0 <= i < zlen (y_segments y) -> Q tt c') ->
  wp out_of_array (set_segment g i n) Q c.
Proof using Type.
  intros Hl HQ. apply wp_bind. eapply wp_lo_group; [exact Hl|]. intros gr Hgr.
  assert (Hs : IOsegment gr = y_segments y) by (by rewrite <- Hgr). rewrite Hs.
  apply wp_bind, wp_oobC. intros l Hz. pose proof (zset_inv _ _ _ _ Hz) as [Hi ->].
  eapply (wp_lo_mod_group y (y <| y_segments := <[Z.to_nat i := n]> (y_segments y) |>));
    [exact Hl | by intros ? <- |]. intros c' H'. by apply HQ.
Qed.

Lemma wp_close_segment y pre adr n rest st Q c : laid_out y c -> cut y pre adr st ->
  m_seg st < EC_MAXIOSEGMENTS -> 0 <= n <= EC_MAXLRWDATA -> 0 <= rest -> n + rest = m_size st ->
  (forall y' c', laid_out y' c' -> y' = y <| y_segments := y_segments y' |> ->
     let st' := st <| m_seg := m_seg st + 1 |> <| m_size := rest |> <| m_max := EC_MAXLRWDATA |> in
     cut y' pre adr st' -> Q st' c') ->
  wp out_of_array (close_segment g n rest st) Q c.
Proof using Type.
  intros Hl Hcut Hlt Hn Hr Heq HQ. pose proof (cu_seg _ _ _ _ Hcut) as Hseg. unfold EC_MAXIOSEGMENTS in Hseg, Hlt.
  pose proof (cut_close _ _ _ n rest EC_MAXLRWDATA _ Hcut Hlt Hn Hr Heq ltac:(done)) as Hcut'.
  pose proof (cu_len _ _ _ _ Hcut) as Hlen. unfold EC_MAXIOSEGMENTS in Hlen.
  apply wp_bind. eapply wp_lo_group; [exact Hl|]. intros gr Hgr.
  assert (Hs : IOsegment gr = y_segments y) by (by rewrite <- Hgr). rewrite Hs.
  apply wp_bind. eapply wp_of_opt; [apply zset_some; lia|]. set (l := <[_ := n]> _).
  apply wp_bind. eapply (wp_lo_mod_group y (y <| y_segments := l |>)); [exact Hl | by intros ? <- |].
  intros c' H'. apply wp_ret. rewrite (u16_id (m_seg st + 1)) by lia. by apply (HQ _ _ H').
Qed.

Lemma cut_same y pre adr st st' : m_seg st' = m_seg st -> m_size st' = m_size st -> m_max st' = m_max st ->
  cut y pre adr st -> cut y pre adr st'.
Proof using Type. intros H1 H2 H3 []. by split; rewrite ?H1, ?H2, ?H3. Qed.

(** The position of [st] and the segments agree; but for its segments the layout is [y0]. *)
Inductive mapped_to (y0 : layout) (pre : list Z) (adr : Z) (st : map_state) c : Prop :=
| Mapped (y : layout) : laid_out y c -> y = y0 <| y_segments := y_segments y |> -> cut y pre adr st ->
    mapped_to y0 pre adr st c.
Definition mapped (y0 : layout) (pre : list Z) (st : map_state) c : Prop :=
  mapped_to y0 pre (m_LogAddr st) st c /\ within st /\ m_oLogAddr st = m_LogAddr st.

(** What a step on the segments leaves of the position. *)
Definition same_position (st st' : map_state) : Prop :=
  m_LogAddr st' = m_LogAddr st /\ m_oLogAddr st' = m_oLogAddr st /\ m_BitPos st' = m_BitPos st.

Lemma wp_mapped_close y0 pre adr n rest st Q c : mapped_to y0 pre adr st c ->
  m_seg st < EC_MAXIOSEGMENTS -> 0 <= n <= EC_MAXLRWDATA -> 0 <= rest -> n + rest = m_size st ->
  (forall c', let st' := st <| m_seg := m_seg st + 1 |> <| m_size := rest |> <| m_max := EC_MAXLRWDATA |> in
     mapped_to y0 pre adr st' c' -> Q st' c') ->
  wp out_of_array (close_segment g n rest st) Q c.
Proof using Type.
  intros [y Hl Hsame Hcut] Hlt Hn Hr Heq HQ. eapply wp_close_segment; [done..|].
  intros y' c' Hl' Hsame' st' Hcut'. apply HQ. exists y'; [done | | done]. by rewrite Hsame', Hsame.
Qed.

Lemma wp_add_wkc y0 pre adr st d Q c : mapped_to y0 pre adr st c ->
  (forall c', mapped_to y0 pre adr st c' -> Q tt c') -> wp out_of_array (add_wkc d g) Q c.
Proof using Type.
  intros [y Hl Hsame Hcut] HQ.
  destruct d; (eapply (wp_lo_mod_group y y); [exact Hl | by intros ? <- | intros c' H'; apply HQ; by exists y]).
Qed.

Lemma wp_open_segment y0 pre adr diff st Q c : mapped_to y0 pre adr st c -> within st ->
  (forall st' c', mapped_to y0 pre adr st' c' -> same_position st st' -> Q st' c') ->
  wp out_of_array (open_segment g diff st) Q c.
Proof using Type.
  intros Hm Hw HQ. pose proof Hm as [y _ _ [_ _ _ _ Hmax Hsize _]]. unfold open_segment.
  destruct (_ && _ && (m_seg st <? EC_MAXIOSEGMENTS)) eqn:Hc; [|by apply wp_ret, HQ].
  apply andb_prop in Hc as [_ Hc]. apply Z.ltb_lt in Hc. specialize (Hw Hc).
  eapply wp_mapped_close; [exact Hm | done | lia | done | lia |]. intros c' st' Hm'. by apply HQ.
Qed.

Lemma wp_cut_segments y0 pre adr d st Q c : mapped_to y0 pre adr st c ->
  (forall st' c', mapped_to y0 pre adr st' c' -> within st' -> same_position st st' -> Q st' c') ->
  wp out_of_array (cut_segments g (fun _ => add_wkc d g) st) Q c.
Proof using Type.
  intros Hm HQ. pose proof Hm as [_ _ _ [_ Hseg _ _ _ _ _]].
  apply (wp_while_do out_of_array (fun st' c' => mapped_to y0 pre adr st' c' /\ same_position st st')
    (fun st' _ => Z.to_nat (EC_MAXIOSEGMENTS - m_seg st'))).
  - intros st1 c1 [Hm1 Hs1]. pose proof Hm1 as [y1 _ _ [_ Hseg1 _ _ Hmax1 Hsize1 _]]. apply wp_ret.
    destruct ((m_max st1 <? m_size st1) && (m_seg st1 <? EC_MAXIOSEGMENTS)) eqn:Hc.
    + apply andb_prop in Hc as [H1 H2]. apply Z.ltb_lt in H1, H2.
      unfold EC_MAXLRWDATA, EC_FIRSTDCDATAGRAM, EC_MAXECATFRAME in Hmax1. apply wp_bind.
      eapply wp_mapped_close; [exact Hm1 | done | unfold EC_MAXLRWDATA, EC_MAXECATFRAME; lia | lia | lia |].
      intros c2 st2 Hm2. apply wp_bind. eapply wp_add_wkc; [exact Hm2|]. intros c3 Hm3. apply wp_ret.
      split; [by split|]. cbn. lia.
    + apply HQ; [done | | done]. intros Hlt. lia.
  - done.
  - lia.
Qed.

(** The data of a slave: the segments reach to its end. *)
Lemma wp_add_data y0 pre d pos st Q c : mapped y0 pre st c ->
  (forall st' c', mapped y0 pre st' c' -> Q st' c') -> wp out_of_array (add_data d g pos st) Q c.
Proof using Type.
  intros (Hm & Hw & Ho) HQ. unfold add_data. cbn zeta. rewrite Ho. set (adr := m_LogAddr st) in *.
  set (st0 := st <| m_LogAddr := pos.1 |> <| m_BitPos := pos.2 |> <| m_oLogAddr := pos.1 |>).
  assert (Hm0 : mapped_to y0 pre adr st0 c) by (destruct Hm as [y Hl Hs Hc]; exists y; [done..|by apply (cut_same _ _ _ st)]).
  apply wp_bind. eapply wp_open_segment; [exact Hm0 | exact Hw|]. intros st1 c1 [y1 Hl1 Hs1 Hc1] Hp1.
  apply wp_bind. eapply (wp_cut_segments y0 pre pos.1).
  { exists y1; [done..|]. by apply (cut_grow _ _ adr pos.1). }
  intros st2 c2 Hm2 Hw2 (HLog & HO & _). cbn in HLog, HO. destruct Hp1 as (HLog1 & HO1 & _). cbn in HLog1, HO1.
  assert (m_LogAddr st2 = pos.1 /\ m_oLogAddr st2 = pos.1) as [Ha Ha'] by (split; congruence).
  assert (Hend : forall c3, mapped_to y0 pre pos.1 st2 c3 -> Q st2 c3)
    by (intros c3 Hm3; apply HQ; split; [by rewrite Ha | split; [done | congruence]]).
  apply wp_bind, wp_when; intros _; [|by apply wp_ret, Hend].
  eapply wp_add_wkc; [exact Hm2|]. intros c3 Hm3. by apply wp_ret, Hend.
Qed.
End Steps.
