(* ===== verification/MapTheorems.v ===== *)
(** * The image of a group and its segments

    The segments into which [ecx_main_config_map_group] cuts the process data image of a group
    are the whole image. *)

From S2P Require Import Prelude Types Osal ErrorRing Mailbox Context MbxHandler Config MapGroup.
From S2P Require Import NicRecv DatagramSpec Transfer LinkSpec EepromSim DcSpec MapSpec.
Import stdpp.list_relations.list stdpp.list_basics.list.

Section Phases.
Context {L : Type} `{HL : LinkLaws L}.
Abbreviation ctx := (ecx_contextt L).
Implicit Types c : ctx.
Context (Hpat : lk_patient EC_TIMEOUTRET3) (g : Z).
Abbreviation mapped := (mapped g).
Abbreviation mapped_to := (mapped_to g).

(** Two layouts that agree but for their segments, field by field. *)
Ltac layouts y0 y Hs Hgr :=
  destruct y0, y; cbn -[Z.to_nat] in Hs, Hgr |- *; injection Hs as ?; injection Hgr as ?; subst;
  first [reflexivity | unfold layout_of; cbn -[Z.to_nat]; congruence].

(** ** Outputs and inputs *)

Lemma wp_map_slave y0 pre d pIOmap slave st Q c : mapped y0 pre st c ->
  (forall st' c', mapped y0 pre st' c' -> Q st' c') -> wp out_of_array (map_slave d pIOmap g slave st) Q c.
Proof using Hpat.
  intros ([y Hl Hs Hc] & Hw & Ho) HQ. apply wp_bind. eapply wp_lo_slave; [exact Hl|]. intros s _.
  destruct (_ && _); [|apply wp_ret, HQ; split; [by exists y | done]].
  apply wp_bind, wp_data_mappings with (y := y); [done | done|]. intros pos c1 H1.
  apply wp_bind, wp_gets. eapply wp_add_data; [|exact HQ]. split; [by exists y | done].
Qed.

Lemma wp_map_slaves y0 pre d pIOmap st Q c : mapped y0 pre st c ->
  (forall st' c', mapped y0 pre st' c' -> Q st' c') ->
  wp out_of_array (for_slaves (map_slave d pIOmap g) st) Q c.
Proof using Hpat.
  intros Hm HQ. apply wp_bind, wp_gets. eapply wp_mono.
  - apply (wp_for_range out_of_array (fun _ st c => mapped y0 pre st c)); [exact Hm|].
    intros j st' c' _ Hm'. eapply wp_map_slave; [exact Hm' | done].
  - intros st' c'. apply HQ.
Qed.

Lemma wp_finish_byte y0 pre d st Q c : mapped y0 pre st c ->
  (forall st' c', mapped y0 pre st' c' -> m_BitPos st' = 0 -> Q st' c') ->
  wp out_of_array (finish_byte d g st) Q c.
Proof using Type.
  intros (Hm & Hw & Ho) HQ. unfold finish_byte. destruct (Z.eqb_spec (m_BitPos st) 0) as [Hz|_].
  { by apply wp_ret, HQ. }
  cbn zeta. set (adr := u32 (m_LogAddr st + 1)). set (a0 := m_LogAddr st) in *.
  set (st0 := st <| m_LogAddr := adr |> <| m_oLogAddr := adr |> <| m_BitPos := 0 |>).
  assert (Hm0 : mapped_to y0 pre a0 st0 c) by (destruct Hm as [y Hl Hs Hc]; exists y; [done..|by apply (cut_same _ _ _ st)]).
  pose proof Hm as [yb _ _ [_ _ _ _ Hmax Hsize _]].
  assert (Hend : forall st1 c1, mapped_to y0 pre a0 st1 c1 -> m_LogAddr st1 = adr -> m_oLogAddr st1 = adr ->
    m_BitPos st1 = 0 -> (m_seg st1 < EC_MAXIOSEGMENTS -> u32 (m_size st1 + 1) <= m_max st1) ->
    Q (st1 <| m_size := u32 (m_size st1 + 1) |>) c1).
  { intros st1 c1 [y1 Hl1 Hs1 Hc1] Ha Ha' Hb Hw1. apply HQ; [|done]. split; [|split; [exact Hw1 | cbn; congruence]].
    exists y1; [done..|].
    enough (cut y1 pre adr (st1 <| m_size := u32 (m_size st1 + 1) |>)) as Hx by (rewrite <- Ha in Hx; exact Hx).
    apply cut_u32.
    apply (cut_grow _ _ a0 (a0 + 1)) in Hc1. replace (a0 + 1 - a0) with 1 in Hc1 by lia. exact Hc1. }
  apply wp_bind. change (m_max st0) with (m_max st). change (m_size st0) with (m_size st).
  change (m_seg st0) with (m_seg st).
  destruct ((m_max st <? u32 (m_size st + 1)) && (m_seg st <? EC_MAXIOSEGMENTS)) eqn:Hc.
  - apply andb_prop in Hc as [_ Hc]. apply Z.ltb_lt in Hc. specialize (Hw Hc). apply wp_bind.
    unfold EC_MAXLRWDATA, EC_FIRSTDCDATAGRAM, EC_MAXECATFRAME in Hmax.
    eapply wp_mapped_close; [exact Hm0 | done | unfold EC_MAXLRWDATA, EC_MAXECATFRAME; lia | lia | cbn; lia |].
    intros c1 st1 Hm1. apply wp_bind. eapply wp_add_wkc; [exact Hm1|]. intros c2 Hm2. apply wp_ret, wp_ret.
    apply Hend; [| by destruct d.. | ].
    + destruct d; [exact Hm2|]. destruct Hm2 as [y Hl Hs [? ? ? ? ? ? ?]]. exists y; [done..|]. by split.
    + intros _. destruct d; cbn; rewrite u32_id by lia; unfold EC_MAXLRWDATA, EC_MAXECATFRAME; lia.
  - apply wp_ret, wp_ret. apply Hend; [done..|]. intros Hlt. cbn in *. specialize (Hw Hlt).
    apply andb_false_iff in Hc as [Hc|Hc]; [by apply Z.ltb_ge in Hc | apply Z.ltb_ge in Hc; lia].
Qed.

Lemma mapped_mod y0 y0' pre pre' st c c' : mapped y0 pre st c ->
  (forall y, laid_out g y c -> y = y0 <| y_segments := y_segments y |> -> cut y pre (m_LogAddr st) st ->
     let y' := y0' <| y_segments := y_segments y |> in laid_out g y' c' /\ y_start y' = y_start y
     /\ pre' `prefix_of` take (Z.to_nat (m_seg st)) (y_segments y)) ->
  mapped y0' pre' st c'.
Proof using Type.
  intros ([y Hl Hs Hc] & Hw) Hstep. destruct (Hstep y Hl Hs Hc) as (Hl' & Hst & Hp). split; [|done].
  eexists; [exact Hl' | done |]. destruct Hc. split; try done. by rewrite Hst.
Qed.

(** The outputs end in segment [Isegment] at [Ioffset]. *)
Definition outputs_end (y : layout) (pre : list Z) : Prop :=
  zlen pre = y_Isegment y
  /\ (y_Isegment y < EC_MAXIOSEGMENTS -> y_Obytes y = total_size pre + y_Ioffset y).

Lemma cut_exact y pre st : cut y pre (m_LogAddr st) st -> m_seg st < EC_MAXIOSEGMENTS -> m_size st <= m_max st ->
  total_size (take (Z.to_nat (m_seg st)) (y_segments y)) + m_size st = u32 (m_LogAddr st - y_start y)
  /\ m_size st <= EC_MAXLRWDATA.
Proof using Type.
  intros [Hlen Hseg _ Hlim Hmax Hsize Hsum] Hlt Hle. apply total_size_bound in Hlim as Hb; [|done].
  assert (zlen (take (Z.to_nat (m_seg st)) (y_segments y)) <= 64).
  { unfold zlen. rewrite length_take. unfold EC_MAXIOSEGMENTS in *. lia. }
  unfold EC_MAXLRWDATA, EC_MAXECATFRAME, EC_FIRSTDCDATAGRAM in *. rewrite <- Hsum, u32_id by lia. lia.
Qed.

Lemma wp_map_outputs y0 pIOmap st Q c : mapped y0 [] st c ->
  (forall y1 pre st' c', y1 = y0 <| y_Obytes := y_Obytes y1 |> <| y_Isegment := y_Isegment y1 |>
       <| y_Ioffset := y_Ioffset y1 |> -> outputs_end y1 pre -> mapped y1 pre st' c' -> Q st' c') ->
  wp out_of_array (map_outputs pIOmap g st) Q c.
Proof using Hpat.
  intros Hm HQ. apply wp_bind. eapply wp_map_slaves; [exact Hm|]. intros st1 c1 H1.
  apply wp_bind. eapply wp_finish_byte; [exact H1|]. intros st2 c2 H2 _.
  pose proof H2 as ([y Hl Hs Hc] & Hw & _).
  set (y1 := y0 <| y_Obytes := u32 (m_LogAddr st2 - y_start y) |> <| y_Isegment := m_seg st2 |>
               <| y_Ioffset := u16 (m_size st2) |>).
  set (pre := take (Z.to_nat (m_seg st2)) (y_segments y)).
  assert (Hend : outputs_end y1 pre).
  { split; cbn.
    - unfold pre, zlen. rewrite length_take. destruct Hc as [Hlen Hseg _ _ _ _ _]. unfold zlen in Hlen. lia.
    - intros Hlt. destruct (cut_exact y [] st2 Hc Hlt (Hw Hlt)) as [He Hle]. pose proof (cu_size _ _ _ _ Hc).
      unfold EC_MAXLRWDATA, EC_MAXECATFRAME in Hle. rewrite u16_id by lia. unfold pre. lia. }
  apply wp_bind. eapply (wp_lo_mod_group g y (y1 <| y_segments := y_segments y |>)); [exact Hl | |].
  { intros gr Hgr. unfold y1. layouts y0 y Hs Hgr. }
  intros c3 H3.
  assert (Hmap : forall c', laid_out g (y1 <| y_segments := y_segments y |>) c' -> mapped y1 pre st2 c').
  { intros c' H'. split; [|apply H2]. eexists; [exact H' | done|]. destruct Hc. split; try done.
    cbn. by rewrite Hs in cu_sum. }
  apply wp_bind. eapply wp_lo_group; [exact H3|]. intros gr _. apply wp_bind, wp_when; intros _.
  - eapply wp_lo_mod_slave; [exact H3 | done|]. intros c4 H4. apply wp_ret. by eapply HQ, Hmap.
  - apply wp_ret. by eapply HQ, Hmap.
Qed.

Lemma wp_map_inputs y1 pre pIOmap st Q c : mapped y1 pre st c ->
  (forall y2 st' c', y2 = y1 <| y_Ibytes := y_Ibytes y2 |> -> mapped y2 pre st' c' -> Q st' c') ->
  wp out_of_array (map_inputs pIOmap g st) Q c.
Proof using Hpat.
  intros Hm HQ. apply wp_bind. eapply wp_map_slaves; [exact Hm|]. intros st1 c1 H1.
  apply wp_bind. eapply wp_finish_byte; [exact H1|]. intros st2 c2 ([y Hl Hs Hc] & Hw & Ho) _.
  apply wp_bind. eapply wp_set_segment; [exact Hl|]. intros c3 H3 _.
  set (ys := y_segments (y <| y_segments ::= <[Z.to_nat (m_seg st2) := m_size st2]> |>)).
  set (y2 := y1 <| y_Ibytes := u32 (m_LogAddr st2 - y_start y - y_Obytes y) |>).
  apply wp_bind. eapply (wp_lo_mod_group g _ (y2 <| y_segments := ys |>)); [exact H3 | |].
  { intros gr Hgr. unfold ys, y2. layouts y1 y Hs Hgr. }
  intros c4 H4. apply wp_ret, (HQ y2); [done|]. split; [|done]. eexists; [exact H4 | done|].
  apply (cut_store _ _ _ (m_seg st2) (m_size st2)) in Hc as []; [|lia]. split; try done.
  cbn -[Z.to_nat take] in *. by rewrite Hs in cu_sum.
Qed.

(** ** Mailbox states *)

(** As long as the last segment is not reached, the segments are cut as before. *)
Inductive mbx_inv (y2 : layout) (pre : list Z) (st : map_state) c : Prop :=
| MbxInv (y : layout) : laid_out g y c -> y = y2 <| y_segments := y_segments y |> ->
    m_oLogAddr st = m_LogAddr st ->
    (m_seg st < EC_MAXIOSEGMENTS - 1 -> cut y pre (m_LogAddr st) st /\ m_size st <= EC_MAXLRWDATA) ->
    mbx_inv y2 pre st c.

Lemma wp_add_mbxstatus y2 pre a st Q c : mbx_inv y2 pre st c ->
  a = m_LogAddr st \/ a = u32 (m_LogAddr st + 1) ->
  (forall st' c', mbx_inv y2 pre st' c' -> Q st' c') -> wp out_of_array (add_mbxstatus g a st) Q c.
Proof using Type.
  intros [y Hl Hs Ho Hc] Ha HQ. unfold add_mbxstatus. cbn zeta. rewrite Ho.
  set (diff := u32 (a - m_LogAddr st)). set (st1 := st <| m_LogAddr := a |> <| m_oLogAddr := a |>).
  assert (Hd : 0 <= diff <= 1).
  { unfold diff. destruct Ha as [-> | ->]; [by rewrite Z.sub_diag|].
    unfold Z.sub. rewrite u32_add_l. replace (_ + 1 + _) with 1 by lia. done. }
  assert (Hc1 : m_seg st < EC_MAXIOSEGMENTS - 1 -> cut y pre (m_LogAddr st) st1 /\ m_size st <= EC_MAXLRWDATA).
  { intros Hlt. destruct (Hc Hlt) as [Hc' Hle]. split; [by apply (cut_same _ _ _ st) | done]. }
  change (m_size st1) with (m_size st). change (m_seg st1) with (m_seg st).
  destruct (Z.ltb_spec (EC_MAXLRWDATA - EC_FIRSTDCDATAGRAM) (u32 (m_size st + diff))) as [Hfull|Hroom].
  - apply wp_bind. eapply wp_set_segment; [exact Hl|]. intros c1 H1 _. apply wp_ret, HQ.
    eexists; [exact H1 | cbn; by rewrite Hs | by destruct (_ <? _) |].
    intros Hlt. destruct (Z.ltb_spec (m_seg st) (EC_MAXIOSEGMENTS - 1)) as [Hlt'|]; [|cbn in *; lia].
    destruct (Hc1 Hlt') as [Hcut Hle]. pose proof Hcut as [_ Hseg _ _ Hmax Hsize _].
    apply (cut_close _ _ _ (m_size st) 0 (m_max st)) in Hcut; [|cbn in *; unfold EC_MAXIOSEGMENTS in *; lia..].
    apply (cut_grow _ _ _ a) in Hcut. split; [|cbn; unfold EC_MAXLRWDATA, EC_MAXECATFRAME; lia].
    eapply cut_same; [..|exact Hcut]; [done | | done]. cbn. fold diff. rewrite u32_id; lia.
  - apply wp_ret, HQ. eexists; [exact Hl | done | done |]. intros Hlt. destruct (Hc1 Hlt) as [Hcut Hle].
    apply (cut_grow _ _ _ a) in Hcut. split; [exact Hcut|]. cbn. 
    unfold EC_MAXLRWDATA, EC_FIRSTDCDATAGRAM, EC_MAXECATFRAME in *. lia.
Qed.

Lemma wp_map_mailbox_states y2 pre pIOmap st Q c : mbx_inv y2 pre st c ->
  (forall st' c', mbx_inv y2 pre st' c' -> Q st' c') ->
  wp out_of_array (for_slaves (map_mbxstatus pIOmap g) st) Q c.
Proof using Hpat.
  intros Hm HQ. apply wp_bind, wp_gets. eapply wp_mono.
  - apply (wp_for_range out_of_array (fun _ st c => mbx_inv y2 pre st c)); [exact Hm|].
    intros j st' c' _ Hm'. pose proof Hm' as [y Hl Hs Ho Hc].
    apply wp_bind. eapply wp_lo_slave; [exact Hl|]. intros s _.
    destruct (_ || _); [|by apply wp_ret].
    apply wp_bind. eapply wp_mbxstatus_mappings; [done | exact Hl|]. intros a c1 Ha H1.
    eapply wp_add_mbxstatus; [by exists y | done | done].
  - intros st' c'. apply HQ.
Qed.

(** What the fields of the group say of the image: the segments in use have at most the size
    of a datagram and are together as long as the image; the inputs begin [Ioffset] bytes into
    segment [Isegment]. *)
Record covers (gr : ec_groupt) : Prop := Covers {
  cv_limit : Forall (fun n => 0 <= n <= EC_MAXLRWDATA) (take (Z.to_nat (nsegments gr)) (IOsegment gr));
  cv_total : total_size (take (Z.to_nat (nsegments gr)) (IOsegment gr))
             = u32 (Obytes gr + Ibytes gr + mbxstatuslength gr - logstartaddr gr);
  cv_inputs : Isegment gr < nsegments gr <= EC_MAXIOSEGMENTS;
  cv_outputs : Obytes gr = total_size (take (Z.to_nat (Isegment gr)) (IOsegment gr)) + Ioffset gr;
}.

Lemma u32_s32 z : u32 (s32 z) = u32 z.
Proof using Type. unfold u32, s32. rewrite Zminus_mod_idemp_l. f_equal. lia. Qed.

(** The last segment is closed with what is in it. *)
Lemma cut_covers y2 y pre st gr b : y = y2 <| y_segments := y_segments y |> -> outputs_end y2 pre ->
  cut y pre (m_LogAddr st) st -> m_size st <= EC_MAXLRWDATA -> m_seg st < EC_MAXIOSEGMENTS - 1 ->
  layout_of gr = y <| y_segments ::= <[Z.to_nat (m_seg st) := m_size st]> |> ->
  covers (gr <| nsegments := u16 (m_seg st + 1) |> <| gmbxstatus := b |>
             <| mbxstatuslength := s32 (m_LogAddr st - Obytes gr - Ibytes gr) |>).
Proof using Type.
  intros Hs [Hn Hend] Hcut Hle Hlt Hgr. pose proof Hcut as [Hlen Hseg Hpre _ Hmax Hsize _].
  unfold EC_MAXIOSEGMENTS in Hlt, Hseg. apply prefix_length in Hpre. rewrite length_take in Hpre.
  apply (cut_close _ _ _ (m_size st) 0 (m_max st)) in Hcut; [|unfold EC_MAXIOSEGMENTS; lia..].
  destruct Hcut as [_ _ Hpre' Hlim _ _ Hsum]. cbn -[Z.to_nat take] in Hpre', Hlim, Hsum.
  set (segs := <[Z.to_nat (m_seg st) := m_size st]> (y_segments y)) in *.
  assert (HI : IOsegment gr = segs) by exact (f_equal y_segments Hgr).
  assert (Hst : logstartaddr gr = y_start y) by exact (f_equal y_start Hgr).
  assert (HIs : Isegment gr = zlen pre) by (rewrite Hn; rewrite Hs in Hgr; exact (f_equal y_Isegment Hgr)).
  assert (HO : Obytes gr = y_Obytes y2) by (rewrite Hs in Hgr; exact (f_equal y_Obytes Hgr)).
  assert (Hio : Ioffset gr = y_Ioffset y2) by (rewrite Hs in Hgr; exact (f_equal y_Ioffset Hgr)).
  split; cbn -[Z.to_nat take]; rewrite ?u16_id, ?HI, ?Hst, ?HO, ?Hio, ?HIs by lia.
  - done.
  - apply total_size_bound in Hlim as Hb; [|done].
    assert (zlen (take (Z.to_nat (m_seg st + 1)) segs) <= 64) by (unfold zlen; rewrite length_take; lia).
    unfold EC_MAXLRWDATA, EC_MAXECATFRAME in Hb.
    rewrite Z.add_0_r, u32_id in Hsum by lia. rewrite Hsum. set (m := s32 _).
    replace (_ + m - _) with (m + (y_Obytes y2 + Ibytes gr - y_start y)) by lia.
    rewrite <- (u32_add_l m). unfold m. rewrite u32_s32, u32_add_l. f_equal. lia.
  - unfold zlen, EC_MAXIOSEGMENTS. lia.
  - rewrite Hend by (rewrite <- Hn; unfold zlen, EC_MAXIOSEGMENTS; lia). do 2 f_equal.
    destruct Hpre' as [k Hk]. 
    rewrite <- (Nat.min_l (Z.to_nat (zlen pre)) (Z.to_nat (m_seg st + 1))) by (unfold zlen; lia).
    rewrite <- take_take, Hk. unfold zlen. rewrite Nat2Z.id. by rewrite take_app_length.
Qed.

Lemma wp_map_mailboxes y2 pre pIOmap st Q c : mapped y2 pre st c -> outputs_end y2 pre ->
  (forall st' c' gr, zget (grouplist c') g = Some gr -> (m_seg st' < EC_MAXIOSEGMENTS - 1 -> covers gr) -> Q st' c') ->
  wp out_of_array (map_mailboxes pIOmap g st) Q c.
Proof using Hpat.
  intros ([y0 Hl0 Hs0 Hc0] & Hw0 & Ho0) Hend HQ. apply wp_bind. eapply wp_map_mailbox_states.
  { eexists; [exact Hl0 | done | done |]. intros Hlt. split; [done|].
    pose proof (cu_max _ _ _ _ Hc0). unfold within, EC_MAXIOSEGMENTS in *. specialize (Hw0 ltac:(lia)). lia. }
  intros st1 c1 [y Hl Hs Ho Hc]. apply wp_bind. eapply wp_set_segment; [exact Hl|].
  intros c2 [_ _ (gr & Hgr & Hy)] Hseg. apply wp_bind. eapply wp_mod_group; [exact Hgr|].
  set (gr' := gr <| nsegments := _ |> <| gmbxstatus := _ |> <| mbxstatuslength := _ |>).
  assert (Hcov : m_seg st1 < EC_MAXIOSEGMENTS - 1 -> covers gr').
  { intros Hlt. destruct (Hc Hlt) as [Hcut Hle]. by apply (cut_covers y2 y pre). }
  set (c3 := c2 <| grouplist := _ |>).
  assert (Hgr' : zget (grouplist c3) g = Some gr').
  { apply zget_insert_eq. by eapply zget_lt. }
  apply wp_bind. eapply wp_get_group; [exact Hgr'|].
  apply wp_bind, wp_when; intros _.
  - apply wp_bind, wp_gets, wp_bind, wp_of_opt_any; [done|]. intros s _.
    apply wp_bind, wp_of_opt_any; [done|]. intros l _. apply wp_modify, wp_ret. by eapply HQ.
  - apply wp_ret. by eapply HQ.
Qed.
End Phases.

(** The image of group [g], from its start address on. *)
Definition map_image {L} `{EcLink L} (pIOmap g start : Z) : M (ecx_contextt L) map_state :=
  let* st := map_outputs pIOmap g (start_segments start) in
  let* st := map_inputs pIOmap g st in
  map_mailboxes pIOmap g st.

(** C9: The segments are the whole image and nothing more: after [ecx_main_config_map_group]
    has laid out the outputs, the inputs and the mailbox states of a group, each of its
    [nsegments] segments fits in a logical datagram, their sizes add up to the size of the
    image, the inputs begin at offset [Ioffset] of segment [Isegment], and what is before is
    the outputs.  This holds whatever the slaves answer and whatever sync managers, bits and
    bytes their descriptions have, as long as the image does not reach the last of the
    [EC_MAXIOSEGMENTS] segments; the walk over sync managers, FMMUs and slaves ends in any
    case, and the only memory error it can make is to leave an array. *)
Theorem segments_cover_image {L} `{HL : LinkLaws L} (g pIOmap : Z) (gr : ec_groupt) (c : ecx_contextt L) :
  lk_patient EC_TIMEOUTRET3 -> lk_ok (link c) ->
  Forall (fun s => zlen (FMMU s) <= EC_MAXFMMU) (slavelist c) ->
  zget (grouplist c) g = Some gr -> zlen (IOsegment gr) = EC_MAXIOSEGMENTS ->
  wp out_of_array (map_image pIOmap g (logstartaddr gr))
    (fun st c' => exists gr', zget (grouplist c') g = Some gr'
       /\ (m_seg st < EC_MAXIOSEGMENTS - 1 -> covers gr')) c.
Proof.
  intros Hpat Hok Hf Hg Hlen. set (y := layout_of gr).
  assert (Hm : mapped g y [] (start_segments (logstartaddr gr)) c).
  { split; [|done]. exists y; [by split; [..|exists gr] | by destruct y |].
    split; try done. cbn. by rewrite Z.sub_diag. }
  apply wp_bind. eapply wp_map_outputs; [done | exact Hm|]. intros y1 pre st1 c1 _ Hend H1.
  apply wp_bind. eapply wp_map_inputs; [done | exact H1|]. intros y2 st2 c2 Hy2 H2.
  eapply wp_map_mailboxes; [done | exact H2 | by rewrite Hy2|]. intros st3 c3 gr' Hg' Hcov. by exists gr'.
Qed.

(** One slave with sixteen bits of outputs and eight of inputs. *)
Definition io_slave : ec_slavet :=
  slave0 <| Obits := 16 |> <| s_Obytes := 2 |> <| Ibits := 8 |> <| s_Ibytes := 1 |>
    <| SM := [EcSm 0x1000 128 0; EcSm 0x1400 128 0; EcSm 0x1800 2 0; EcSm 0x1c00 1 0] ++ replicate 4 ec_sm_zero |>
    <| SMtype := [1; 2; 3; 4; 0; 0; 0; 0] |>.
Definition io_ctx : ecx_contextt (oracle (fun _ _ => Some 0)) :=
  (ctx0 (Oracle [] 0)) <| slavelist := [slave0; io_slave] |> <| grouplist := [ec_group_zero] |>.

Lemma segments_cover_image_witness :
  wp out_of_array (map_image 0 0 0)
    (fun st c' => exists gr', zget (grouplist c') 0 = Some gr'
       /\ (m_seg st < EC_MAXIOSEGMENTS - 1 -> covers gr')) io_ctx.
Proof.
  apply (segments_cover_image 0 0 ec_group_zero); [exact I | exact I | | done | done].
  repeat constructor; done.
Defined.

(** The image of the slave: two bytes of outputs, one of inputs, one mailbox state, one segment. *)
Example io_image :
  match map_image 0 0 0 io_ctx with
  | Ok (st, c) =>
      match zget (grouplist c) 0 with
      | Some gr => (m_seg st, Obytes gr, Ibytes gr, mbxstatuslength gr, nsegments gr, Ioffset gr,
                    take 2 (IOsegment gr)) = (0, 2, 1, 1, 1, 2, [4; 0])
      | None => False
      end
  | Err _ => False
  end.
Proof. vm_compute. reflexivity. Qed.
