(* ===== verification/MbxSim.v ===== *)
(** * A slave with a mailbox

    A link to a slave that serves its mailbox: a request written to its IN mailbox is handled
    at once by the server [serve], and the answer, if there is one, is in its OUT mailbox until
    it is read.  The clients of the mailbox protocols are proved against such servers, with
    the rules of this file for each operation on mailboxes. *)

From S2P Require Import Prelude Types Osal ErrorRing Mailbox Context Eeprom AlState MbxHandler MbxClient.
From S2P Require Import PoolSpec NicRecv Transfer LinkSpec.
Import MbxPool stdpp.list_relations.list stdpp.list_basics.list.

(** ** Building a mailbox *)

Lemma zblit_head {A} (b h : list A) : zlen h <= zlen b -> zblit b 0 h = Some (h ++ drop (length h) b).
Proof. intros Hl. by rewrite zblit_some by lia. Qed.
Lemma zblit_after {A} (h r d : list A) off : off = zlen h -> zlen d <= zlen r ->
  zblit (h ++ r) off d = Some (h ++ d ++ drop (length d) r).
Proof.
  intros -> Hl. rewrite zblit_some by (rewrite ?zlen_app; pose proof (zlen_nonneg h); lia).
  unfold zlen. rewrite Nat2Z.id, take_app_length, drop_app, drop_ge, app_nil_l by lia.
  by replace (length h + length d - length h)%nat with (length d) by lia.
Qed.
(** The next piece of [p] behind the pieces before it. *)
Lemma take_blit (buf p : list Z) off size buf' :
  0 <= off -> 0 <= size -> off + size <= zlen p ->
  take (Z.to_nat off) buf = take (Z.to_nat off) p ->
  zblit buf off (take (Z.to_nat size) (drop (Z.to_nat off) p)) = Some buf' ->
  zlen buf' = zlen buf /\ take (Z.to_nat (off + size)) buf' = take (Z.to_nat (off + size)) p.
Proof.
  intros Ho Hs Hp Ht Hz. split; [by eapply zblit_length|].
  apply zblit_inv in Hz as (_ & _ & ->). unfold zlen in *.
  rewrite Z2Nat.inj_add, Ht by done. rewrite app_assoc, take_take_drop.
  apply take_app_length'. rewrite length_take. lia.
Qed.
Lemma take_two {A} (h d r : list A) n : (length h + length d <= n)%nat ->
  take n (h ++ d ++ r) = h ++ d ++ take (n - length h - length d) r.
Proof. intros Hn. rewrite !take_app. by rewrite (take_ge h), (take_ge d) by lia. Qed.

(** The protocol of a header, and a word of one. *)
Lemma mbxtype_proto proto cnt : 0 <= proto < 16 -> 0 <= cnt < 8 ->
  Z.land (u8 (proto + MBX_HDR_SET_CNT cnt)) 0x0f = proto.
Proof.
  intros Hp Hc. unfold MBX_HDR_SET_CNT. rewrite Z.shiftl_mul_pow2 by done.
  rewrite (u8_id (cnt * 2 ^ 4)), u8_id by lia. change 0x0f with (Z.ones 4). rewrite Z.land_ones by done.
  rewrite Z.mod_add by done. by apply Z.mod_small.
Qed.
Lemma zget_behind {A} (h r : list A) i : 0 <= i -> zget (h ++ r) (zlen h + i) = zget r i.
Proof.
  intros Hi. unfold zget, zlen. destruct (Z.ltb_spec (Z.of_nat (length h) + i) 0); [lia|].
  destruct (Z.ltb_spec i 0); [lia|]. rewrite lookup_app_r by lia. f_equal. lia.
Qed.
Lemma field_u16_at h r v off : off = zlen h -> 0 <= v < 65536 ->
  field_u16 (h ++ le_bytes 2 v ++ r) off = Some v.
Proof.
  intros -> Hv. unfold field_u16. rewrite zget_behind by done.
  rewrite <- (Z.add_0_r (zlen h)) at 1. rewrite zget_behind by done.
  cbn -[Z.div Z.modulo].
  assert (v / 256 < 256) by (apply Z.div_lt_upper_bound; lia).
  rewrite (Z.mod_small (v / 256)) by (split; [apply Z.div_pos; lia | done]).
  change (Some (v mod 256 + 256 * (v / 256)) = Some v). f_equal. pose proof (Z.div_mod v 256). lia.
Qed.

(** ** The link *)

Class MailServer (D : Type) : Type := {
  ms_adr : Z;
  ms_wo : Z;
  ms_ro : Z;
  serve : D -> list Z -> D * option (list Z);
}.

Record maildev (D : Type) : Type := MailDev {
  md_state : D;
  md_out : option (list Z);
  md_now : Z;
}.
Arguments MailDev {D}.
Arguments md_state {D}.
Arguments md_out {D}.
Arguments md_now {D}.

Section Link.
Context {D : Type} `{MailServer D}.

Definition md_tick {A} (a : A) : M (maildev D) A := fun w => Ok (a, w <| md_now ::= Z.add 1000 |>).

(** The status of the OUT mailbox, the mailbox itself, and the status of the IN mailbox. *)
Definition md_read (ADP ADO length : Z) (data : list Z) (timeout : Z)
    : M (maildev D) (Z * list Z) := fun w =>
  if negb (ADP =? ms_adr) then md_tick (EC_NOFRAME, data) w
  else if ADO =? ECT_REG_SM1STAT then
    md_tick (1, le_bytes (Z.to_nat length) (match md_out w with Some _ => 8 | None => 0 end)
                ++ drop (Z.to_nat length) data) w
  else if ADO =? ECT_REG_SM0STAT then
    md_tick (1, le_bytes (Z.to_nat length) 0 ++ drop (Z.to_nat length) data) w
  else if ADO =? ms_ro then
    match md_out w with
    | Some m => md_tick (1, m ++ drop (Datatypes.length m) data) (w <| md_out := None |>)
    | None => md_tick (0, data) w
    end
  else md_tick (EC_NOFRAME, data) w.

Definition md_write (ADP ADO length : Z) (data : list Z) (timeout : Z) : M (maildev D) Z := fun w =>
  if (ADP =? ms_adr) && (ADO =? ms_wo) then
    let r := serve (md_state w) (take (Z.to_nat length) data) in
    md_tick 1 (w <| md_state := r.1 |> <| md_out := r.2 |>)
  else md_tick EC_NOFRAME w.

#[export] Instance maildev_link : EcLink (maildev D) := {
  lk_BRD := md_read; lk_BWR := md_write; lk_APRD := md_read; lk_APWR := md_write;
  lk_FPRD := md_read; lk_FPWR := md_write;
  lk_timer_start usec := fun w =>
    let t := md_now w + u32 usec * 1000 in md_tick (TimeSpec (t / 1000000000) (t mod 1000000000)) w;
  lk_timer_is_expired t := fun w => md_tick (ns t <=? md_now w) w;
  lk_usleep _ := md_tick 0;
  lk_current_time := md_tick (TimeSpec 0 0);
}.

(** The operations on a known device. *)
Lemma md_write_mail d o now length data timeout :
  let r := serve d (take (Z.to_nat length) data) in
  lk_FPWR ms_adr ms_wo length data timeout (MailDev d o now)
  = Ok (1, MailDev r.1 r.2 (1000 + now)).
Proof. cbn. unfold md_write. by rewrite !Z.eqb_refl. Qed.
Lemma md_read_status d o now data timeout :
  lk_FPRD ms_adr ECT_REG_SM1STAT 1 data timeout (MailDev d o now)
  = Ok ((1, match o with Some _ => 8 | None => 0 end :: drop 1 data), MailDev d o (1000 + now)).
Proof. cbn. unfold md_read. rewrite Z.eqb_refl. by destruct o. Qed.
Lemma md_read_mail d m now length data timeout :
  ms_ro <> ECT_REG_SM1STAT -> ms_ro <> ECT_REG_SM0STAT ->
  lk_FPRD ms_adr ms_ro length data timeout (MailDev d (Some m) now)
  = Ok ((1, m ++ drop (Datatypes.length m) data), MailDev d None (1000 + now)).
Proof.
  intros H1 H0. cbn. unfold md_read. apply Z.eqb_neq in H1, H0. by rewrite H1, H0, !Z.eqb_refl.
Qed.

(** No other thread runs. *)
#[export] Instance maildev_alone : Interference (maildev D) := ret tt.
End Link.

(** ** The state a client sees *)

(** The slave is served by the link, outside the cyclic handler. *)
Definition served `{MailServer D} (s : ec_slavet) : Prop :=
  configadr s = ms_adr /\ mbx_wo s = ms_wo /\ mbx_ro s = ms_ro
  /\ mbxhandlerstate s <> ECT_MBXH_CYCLIC /\ EC_STATE_PRE_OP <= state s
  /\ 0 < mbx_l s <= EC_MAXMBX /\ 0 < mbx_rl s <= EC_MAXMBX
  /\ ms_ro <> ECT_REG_SM1STAT /\ ms_ro <> ECT_REG_SM0STAT.

Section Rules.
Context {D : Type} `{MailServer D} `{LoopFuel} (F : fault -> Prop).
Abbreviation L := (maildev D).
Abbreviation ctx := (ecx_contextt L).
Implicit Types (c : ctx) (d : D) (o : option (list Z)) (q : list Z) (B : list (list Z)).
Context (slave : Z) (s : ec_slavet) (c0 : ctx).

Lemma slave_eta (x : ec_slavet) : x <| mbx_cnt := mbx_cnt x |> = x.
Proof. by destruct x. Qed.
Lemma context_eta c :
  c <| link := link c |> <| mbxpool := mbxpool c |> <| slavelist := slavelist c |> = c.
Proof. by destruct c. Qed.

(** The context is [c0] but for the server [d], its answer [o], the free mailboxes [q], the
    contents [B] of all mailboxes, the clock and the session counter of the slave. *)
Definition mworld_at now d o q B c : Prop := exists p k,
  c = c0 <| link := MailDev d o now |> <| mbxpool := p |>
         <| slavelist := <[Z.to_nat slave := s <| mbx_cnt := k |>]> (slavelist c0) |>
  /\ pool_wf p /\ pool_free p = q /\ MbxPool.mbx p = B.
Definition mworld d o q B c : Prop := exists now, mworld_at now d o q B c.

Context (Hslave : 0 <= slave < zlen (slavelist c0)) (Hserved : served s)
        (Hhook : EOEhook c0 = None) (Hfuel : (0 < loop_fuel)%nat).

Lemma mworld_start d o now : zget (slavelist c0) slave = Some s -> link c0 = MailDev d o now ->
  pool_wf (mbxpool c0) -> mworld d o (pool_free (mbxpool c0)) (MbxPool.mbx (mbxpool c0)) c0.
Proof.
  intros Hs Hl Hp. exists now, (mbxpool c0), (mbx_cnt s). split; [|done].
  pose proof (zget_lt _ _ _ Hs). unfold zget in Hs. case_match; [done|].
  rewrite slave_eta, list_insert_id by done. by rewrite <- Hl, context_eta.
Qed.

(** A mailbox taken from the pool is not free any more, and its buffer is there. *)
Lemma mworld_free d o i q B c : mworld d o (i :: q) B c ->
  i ∉ q /\ 0 <= i < EC_MBXPOOLSIZE /\ exists b, zget B i = Some b.
Proof.
  intros (now & p & k & -> & (_ & Hm & _ & _ & _ & _ & Hr & Hnd) & Hq & HB).
  rewrite Hq in *. apply NoDup_cons in Hnd as [Hnd _]. apply Forall_cons in Hr as [Hr _].
  split_and!; [done | lia | lia|]. rewrite <- HB. apply zget_some. lia.
Qed.

Lemma wp_mw_slave d o q B Q c : mworld d o q B c ->
  (forall k, Q (s <| mbx_cnt := k |>) c) -> wp F (get_slave slave) Q c.
Proof.
  intros (now & p & k & -> & _) HQ. eapply wp_get_slave; [|apply HQ]. cbn.
  rewrite zget_insert by done. by rewrite decide_True.
Qed.

Lemma wp_mw_mod k d o q B Q c : mworld d o q B c ->
  (forall c', mworld d o q B c' -> Q tt c') ->
  wp F (mod_slave slave (fun s => s <| mbx_cnt := k |>)) Q c.
Proof.
  intros (now & p & k0 & -> & Hp) HQ. eapply wp_mod_slave.
  { cbn. rewrite zget_insert by done. by rewrite decide_True. }
  apply HQ. exists now, p, k. split; [|done]. cbn. by rewrite list_insert_insert_eq.
Qed.

(** A computation on the link: what it does to the device. *)
Lemma wp_mw_link_at {A} (m : M L A) now d o q B Q c : mworld_at now d o q B c ->
  wp F m (fun a w => forall c', mworld_at (md_now w) (md_state w) (md_out w) q B c' -> Q a c')
    (MailDev d o now) ->
  wp F (onlink m) Q c.
Proof.
  intros (p & k & -> & Hp) HQ. apply wp_zoom. cbn.
  eapply wp_mono; [apply HQ|]. cbn. intros a w Ha. apply Ha.
  exists p, k. split; [|done]. by destruct w.
Qed.
Lemma wp_mw_link {A} (m : M L A) d o q B Q c : mworld d o q B c ->
  (forall now, wp F m (fun a w => forall c', mworld (md_state w) (md_out w) q B c' -> Q a c')
                 (MailDev d o now)) ->
  wp F (onlink m) Q c.
Proof.
  intros [now Hw] HQ. eapply wp_mw_link_at; [done|]. eapply wp_mono; [apply HQ|].
  intros a w Ha c' Hc'. apply Ha. by exists (md_now w).
Qed.

(** ** Mailboxes *)

Lemma wp_mw_getmbx d o i q B Q c : mworld d o (i :: q) B c ->
  (forall c', mworld d o q B c' -> Q (Some i) c') -> wp F ctx_getmbx Q c.
Proof.
  intros (now & p & k & -> & Hp & Hq & HB) HQ. apply wp_zoom. cbn.
  eapply wp_mono; [apply wp_total, getmbx_spec, Hp|]. rewrite Hq.
  intros r p' (Hp' & Hm & -> & Hf). apply HQ. exists now, p', k. by rewrite Hm.
Qed.

Lemma wp_mw_drop d o i q B Q c : mworld d o q B c ->
  0 <= i < EC_MBXPOOLSIZE -> i ∉ q ->
  (forall c', mworld d o (q ++ [i]) B c' -> Q tt c') -> wp F (drop_mbx (Some i)) Q c.
Proof.
  intros (now & p & k & -> & Hp & Hq & HB) Hi Hn HQ. apply wp_bind, wp_zoom. cbn.
  eapply wp_mono; [apply wp_total, dropmbx_spec; [done | done | by rewrite Hq]|].
  intros r p' (_ & Hp' & Hm & Hf). apply wp_ret, HQ. exists now, p', k. by rewrite Hm, Hf, Hq.
Qed.

Lemma wp_mw_buffer d o q B i b Q c : mworld d o q B c -> zget B i = Some b ->
  Q b c -> wp F (get_buffer i) Q c.
Proof.
  intros (now & p & k & -> & Hp & Hq & HB) Hb HQ. apply wp_bind, wp_gets. cbn.
  eapply wp_of_opt; [by rewrite HB | done].
Qed.

Lemma wp_mw_put d o q B i b b' Q c : mworld d o q B c -> zget B i = Some b -> zlen b' = zlen b ->
  (forall c', mworld d o q (<[Z.to_nat i := b']> B) c' -> Q tt c') -> wp F (put_buffer i b') Q c.
Proof.
  intros (now & p & k & -> & Hp & Hq & HB) Hb Hl HQ. apply wp_bind, wp_gets. cbn.
  pose proof (zget_lt _ _ _ Hb) as Hi. rewrite <- HB in Hi.
  apply wp_bind. eapply wp_of_opt; [by apply zset_some|]. apply wp_modify, HQ.
  exists now, (p <| MbxPool.mbx := <[Z.to_nat i := b']> (MbxPool.mbx p) |>), k.
  split; [done|]. split; [|split; [done | cbn; by rewrite HB]].
  destruct Hp as (?&Hm&Hall&?). split; [done|]. cbn. split; [by rewrite zlen_insert|].
  split; [|done]. apply Forall_insert; [done|]. rewrite Hl. rewrite Forall_forall in Hall.
  apply Hall. rewrite HB. apply zget_elem_of. eauto.
Qed.

Lemma wp_mw_write d o q B i b off bytes b' Q c : mworld d o q B c -> zget B i = Some b ->
  zblit b off bytes = Some b' ->
  (forall c', mworld d o q (<[Z.to_nat i := b']> B) c' -> Q tt c') ->
  wp F (mbx_write i off bytes) Q c.
Proof.
  intros Hw Hb Hz HQ. apply wp_bind. eapply wp_mw_buffer; [done..|].
  apply wp_bind. eapply wp_of_opt; [done|].
  eapply wp_mw_put; [done | done | by eapply zblit_length | done].
Qed.

Lemma mworld_buffer d o q B c i b : mworld d o q B c -> zget B i = Some b ->
  zlen b = EC_MAXMBX + 1 /\ 0 <= i < EC_MBXPOOLSIZE.
Proof.
  intros (now & p & k & -> & Hp & Hq & HB) Hb. subst B. destruct Hp as (_ & Hm & Hall & _).
  split.
  - rewrite Forall_forall in Hall. apply Hall, zget_elem_of. eauto.
  - apply zget_lt in Hb. lia.
Qed.

Lemma wp_mw_clear d o q B i b Q c : mworld d o q B c -> zget B i = Some b ->
  (forall b' c', zlen b' = EC_MAXMBX + 1 -> mworld d o q (<[Z.to_nat i := b']> B) c' -> Q tt c') ->
  wp F (mbx_clear i) Q c.
Proof.
  intros Hw Hb HQ. destruct (mworld_buffer _ _ _ _ _ _ _ Hw Hb) as [Hl Hi].
  apply wp_bind. eapply wp_mw_buffer; [done..|]. unfold ec_clearmbx.
  assert (Hz : zlen (replicate (Z.to_nat EC_MAXMBX) 0) = EC_MAXMBX) by done.
  pose proof (zblit_some b 0 (replicate (Z.to_nat EC_MAXMBX) 0) ltac:(lia) ltac:(lia)) as Hs.
  apply wp_bind. eapply wp_of_opt; [exact Hs|].
  pose proof (zblit_length _ _ _ _ Hs) as Hbl.
  eapply wp_mw_put; [done | done | done |]. intros c'. apply HQ. lia.
Qed.

Lemma wp_mw_mbxcnt d o q B Q c : mworld d o q B c ->
  (forall n c', 0 <= n < 8 -> mworld d o q B c' -> Q n c') -> wp F (next_mbxcnt slave) Q c.
Proof.
  intros Hw HQ. apply wp_bind. eapply wp_mw_slave; [done|]. intros k. cbn.
  apply wp_bind. eapply wp_mw_mod; [done|]. intros c' Hw'. apply wp_ret, HQ; [|done].
  unfold ec_nextmbxcnt. pose proof (u8_range (k + 1)).
  destruct (7 <? u8 (k + 1)) eqn:E; lia.
Qed.

(** ** Sending and receiving *)

(** A request is served, and its mailbox goes back to the pool. *)
Lemma wp_mw_send d o i b q B timeout Q c : mworld d o q B c -> zget B i = Some b -> i ∉ q ->
  (forall c', let r := serve d (take (Z.to_nat (mbx_l s)) b) in
     mworld r.1 r.2 (q ++ [i]) B c' -> Q 1 c') ->
  wp F (ecx_mbxsend slave (Some i) timeout) Q c.
Proof.
  intros Hw Hb Hn HQ. destruct (mworld_buffer _ _ _ _ _ _ _ Hw Hb) as [Hl Hi].
  pose proof Hserved as (Ha & Hwo & _ & Hh & Hst & Hml & _).
  apply wp_bind. eapply wp_mw_slave; [done|]. intros k. cbn.
  destruct (mbxhandlerstate s =? ECT_MBXH_CYCLIC) eqn:E; [lia|].
  replace ((0 <? mbx_l s) && (mbx_l s <=? EC_MAXMBX) && (EC_STATE_PRE_OP <=? state s)) with true by lia.
  apply wp_bind, wp_bind. unfold mbx_FPWR. apply wp_bind, wp_ret, wp_bind.
  eapply wp_mw_buffer; [done..|]. eapply wp_mw_link; [done|]. intros now.
  rewrite Ha, Hwo. eapply wp_ok; [apply md_write_mail|]. intros c' Hw'. apply wp_bind, wp_ret, wp_ret, wp_bind. cbn -[serve take].
  eapply wp_mw_drop; [done | done | done|]. intros c2 Hc2. apply wp_ret, HQ, Hc2.
Qed.

(** The status of the OUT mailbox. *)
Lemma wp_mw_status d o q B x Q c : mworld d o q B c ->
  (forall c', mworld d o q B c' -> Q (1, match o with Some _ => 8 | None => 0 end) c') ->
  wp F (ecx_readmbxstatus slave x) Q c.
Proof.
  intros Hw HQ. pose proof Hserved as (Ha & _ & _ & Hh & _).
  apply wp_bind. eapply wp_mw_slave; [done|]. intros k. cbn.
  destruct (mbxhandlerstate s =? ECT_MBXH_CYCLIC) eqn:E; [lia|].
  apply wp_bind. eapply wp_mw_link; [done|]. intros now.
  rewrite Ha. eapply wp_ok; [apply md_read_status|]. intros c' Hw'. apply wp_ret.
  destruct o; by apply HQ.
Qed.

Lemma wp_mw_timer usec d o q B Q c : mworld d o q B c ->
  (forall t c', mworld d o q B c' -> Q t c') -> wp F (onlink (lk_timer_start usec)) Q c.
Proof.
  intros Hw HQ. eapply wp_mw_link; [done|]. intros now. unfold wp. cbn. intros c'. apply HQ.
Qed.

(** Once around a loop. *)
Lemma wp_do_once {A} (body : A -> M ctx (bool * A)) a Q c :
  wp F (body a) (fun (r : bool * A) c' => r.1 = false /\ Q r.2 c') c -> wp F (do_while loop_fuel body a) Q c.
Proof.
  intros Hb. destruct loop_fuel as [|n]; [lia|]. cbn [do_while]. apply wp_bind.
  eapply wp_mono; [exact Hb|]. intros [b x] c' [Hr HQ]. cbn in *. subst b. by apply wp_ret.
Qed.

(** What a waiting answer must be: no error, emergency, and of the length of the mailbox. *)
Definition plain_answer (m : list Z) : Prop :=
  zlen m = mbx_rl s
  /\ exists ty, field_u8 m MBXH_mbxtype = Some ty /\ Z.land ty 0x0f <> ECT_MBXT_ERR
  /\ (Z.land ty 0x0f = ECT_MBXT_COE -> exists w, field_u16 m EMC_CANOpen = Some w /\ Z.shiftr w 12 <> 1)
  /\ (Z.land ty 0x0f = ECT_MBXT_EOE -> exists w, field_u16 m EOE_frameinfo1 = Some w).

Lemma field_u8_app m r off v : field_u8 m off = Some v -> field_u8 (m ++ r) off = Some v.
Proof.
  unfold field_u8, zget. case_match; [done|]. intros Hv. by apply lookup_app_l_Some.
Qed.
Lemma field_u16_app m r off v : field_u16 m off = Some v -> field_u16 (m ++ r) off = Some v.
Proof.
  unfold field_u16. change (zget (A := Z)) with field_u8.
  destruct (field_u8 m off) as [b0|] eqn:E0; [|done]. cbn.
  destruct (field_u8 m (off + 1)) as [b1|] eqn:E1; [|done]. cbn.
  by rewrite (field_u8_app _ _ _ _ E0), (field_u8_app _ _ _ _ E1).
Qed.

Lemma wp_mw_dispatch d o q B i m r Q c : mworld d o q B c ->
  zget B i = Some (m ++ r) -> plain_answer m ->
  Q (1, None, Some i) c -> wp F (mbxreceive_dispatch slave i (Some i) None 1) Q c.
Proof.
  intros Hw Hb (_ & ty & Hty & Herr & Hcoe & Heoe) HQ. apply wp_bind.
  eapply wp_mw_buffer; [done..|]. apply wp_bind. eapply wp_of_opt; [by apply field_u8_app|].
  apply wp_bind, wp_ret.
  destruct (Z.land ty 0x0f =? ECT_MBXT_ERR) eqn:E1; [lia|].
  destruct (Z.land ty 0x0f =? ECT_MBXT_COE) eqn:E2.
  { destruct Hcoe as (w & Hcan & Hne); [lia|]. apply wp_bind.
    eapply wp_of_opt; [by apply field_u16_app|].
    destruct (Z.shiftr w 12 =? 1) eqn:E3; [lia|]. by apply wp_ret. }
  destruct (Z.land ty 0x0f =? ECT_MBXT_EOE) eqn:E3; [|by apply wp_ret].
  destruct Heoe as (w & Hinfo); [lia|]. apply wp_bind. eapply wp_of_opt; [by apply field_u16_app|].
  assert (EOEhook c = None) as Hk by (by destruct Hw as (now & p & k & -> & _)).
  apply wp_bind, wp_gets. rewrite Hk, andb_false_r. by apply wp_ret.
Qed.

(** An answer is waiting: it is read into a free mailbox, which the caller gets. *)
Lemma wp_mw_receive junk d m i q B b timeout Q c : mworld d (Some m) (i :: q) B c ->
  zget B i = Some b -> plain_answer m ->
  (forall c', mworld d None q (<[Z.to_nat i := m ++ drop (length m) b]> B) c' -> Q (1, Some i) c') ->
  wp F (ecx_mbxreceive junk slave None timeout) Q c.
Proof.
  intros Hw Hb Hm HQ. destruct (mworld_buffer _ _ _ _ _ _ _ Hw Hb) as [Hl Hi].
  pose proof Hserved as (Ha & Hwo & Hro & Hh & Hst & Hml & Hrl & Hn1 & Hn0).
  apply wp_bind. eapply wp_mw_slave; [done|]. intros k. cbn.
  destruct (mbxhandlerstate s =? ECT_MBXH_CYCLIC) eqn:E; [lia|].
  replace ((0 <? mbx_rl s) && (mbx_rl s <=? EC_MAXMBX)) with true by lia.
  apply wp_bind. eapply wp_mw_timer; [done|]. intros t c1 H1.
  apply wp_bind, wp_do_once. apply wp_bind. eapply wp_mw_status; [done|]. intros c2 H2.
  cbn. apply wp_bind, wp_ret, wp_ret. cbn. split; [done|].
  apply wp_bind. eapply wp_mw_getmbx; [done|]. intros c3 H3.
  apply wp_bind, wp_do_once. apply wp_bind, wp_bind. eapply wp_mw_buffer; [done..|].
  apply wp_bind. eapply wp_mw_link; [done|]. intros now.
  rewrite Ha, Hro. eapply wp_ok; [by apply md_read_mail|]. intros c4 H4. apply wp_bind. pose proof Hm as [Hlm _]. unfold zlen in Hlm, Hl.
  eapply wp_mw_put; [done | done | |].
  { cbn [snd]. unfold zlen. rewrite length_app, length_drop. lia. }
  intros c5 H5. apply wp_ret. cbn. apply wp_bind, wp_bind, wp_ret.
  eapply wp_mw_dispatch; [exact H5 | | done |].
  { rewrite zget_insert by (apply zget_lt in Hb; lia). by rewrite decide_True. }
  cbn. apply wp_ret. cbn. split; [done|]. apply wp_bind, wp_ret, wp_ret. by apply HQ.
Qed.

(** No answer is waiting: with a timeout of 0 the function returns after one look. *)
Lemma wp_mw_receive_empty junk d q B Q c : mworld d None q B c ->
  (forall c', mworld d None q B c' -> Q (EC_TIMEOUT, None) c') ->
  wp F (ecx_mbxreceive junk slave None 0) Q c.
Proof.
  intros Hw HQ. pose proof Hserved as (Ha & Hwo & Hro & Hh & Hst & Hml & Hrl & Hn1 & Hn0).
  apply wp_bind. eapply wp_mw_slave; [done|]. intros k. cbn.
  destruct (mbxhandlerstate s =? ECT_MBXH_CYCLIC) eqn:E; [lia|].
  replace ((0 <? mbx_rl s) && (mbx_rl s <=? EC_MAXMBX)) with true by lia.
  destruct Hw as [now Hw]. apply wp_bind. eapply wp_mw_link_at; [done|].
  eapply wp_ok; [reflexivity|]. intros c1 H1. cbn [md_now md_state md_out] in H1.
  apply wp_bind, wp_do_once, wp_bind, wp_bind.
  eapply wp_mw_slave; [by eexists|]. intros k1. cbn [mbxhandlerstate configadr set]. cbn. rewrite E.
  apply wp_bind. eapply wp_mw_link_at; [done|]. rewrite Ha. eapply wp_ok; [apply md_read_status|].
  intros c2 H2. apply wp_ret. cbn. apply wp_bind, wp_ret, wp_bind.
  eapply wp_mw_link_at; [done|]. eapply wp_ok; [reflexivity|]. intros c3 H3. apply wp_ret. cbn. split.
  { unfold ns. cbn. change (u32 0) with 0. rewrite Z.mul_0_l, Z.add_0_r.
    pose proof (Z.div_mod now 1000000000). lia. }
  apply wp_ret, HQ. by eexists.
Qed.

(** ** Reading fields of a mailbox *)

Lemma wp_mw_u8 d o q B i b off v Q c : mworld d o q B c -> zget B i = Some b ->
  field_u8 b off = Some v -> Q v c -> wp F (get_u8 i off) Q c.
Proof.
  intros Hw Hb Hv HQ. apply wp_bind. eapply wp_mw_buffer; [done..|]. by eapply wp_of_opt.
Qed.
Lemma wp_mw_u16 d o q B i b off v Q c : mworld d o q B c -> zget B i = Some b ->
  field_u16 b off = Some v -> Q v c -> wp F (get_u16 i off) Q c.
Proof.
  intros Hw Hb Hv HQ. apply wp_bind. eapply wp_mw_buffer; [done..|]. by eapply wp_of_opt.
Qed.
Lemma wp_mw_u32 d o q B i b off v Q c : mworld d o q B c -> zget B i = Some b ->
  field_u32 b off = Some v -> Q v c -> wp F (get_u32 i off) Q c.
Proof.
  intros Hw Hb Hv HQ. apply wp_bind. eapply wp_mw_buffer; [done..|]. by eapply wp_of_opt.
Qed.
Lemma wp_mw_bytes d o q B i b off n v Q c : mworld d o q B c -> zget B i = Some b ->
  zslice b off n = Some v -> Q v c -> wp F (get_bytes i off n) Q c.
Proof.
  intros Hw Hb Hv HQ. apply wp_bind. eapply wp_mw_buffer; [done..|]. by eapply wp_of_opt.
Qed.
End Rules.
