(* ===== verification/MbxHeld.v ===== *)
(** * Rules for the owner of mailboxes

    The rules of MbxSim.v without the pool: a client knows the mailboxes it owns, how they
    begin, and how many more it can get. *)

From S2P Require Import Prelude Types Osal ErrorRing Mailbox Context Eeprom AlState MbxHandler MbxClient.
From S2P Require Import PoolSpec NicRecv Transfer LinkSpec MbxSim.
Import MbxPool stdpp.list_relations.list stdpp.list_basics.list.

(** A mailbox and the bytes it begins with. *)
Abbreviation owned_mbx := (Z * list Z)%type.

Definition begins (B : list (list Z)) (x : owned_mbx) : Prop := exists r, zget B x.1 = Some (x.2 ++ r).

Lemma begins_insert (B : list (list Z)) i b x : 0 <= i < zlen B -> x.1 <> i ->
  begins B x -> begins (<[Z.to_nat i := b]> B) x.
Proof. intros Hi Hne [r Hr]. exists r. rewrite zget_insert by done. by rewrite decide_False. Qed.

Lemma begins_insert_all (B : list (list Z)) i b l : 0 <= i < zlen B -> i ∉ l.*1 ->
  Forall (begins B) l -> Forall (begins (<[Z.to_nat i := b]> B)) l.
Proof.
  intros Hi Hn. rewrite !Forall_forall. intros Hl x Hx. apply begins_insert; [done | | by apply Hl].
  intros <-. by apply Hn, list_elem_of_fmap_2.
Qed.

Lemma prefix_slice (m r : list Z) off n v : zslice m off n = Some v -> zslice (m ++ r) off n = Some v.
Proof.
  intros (H0 & Hn & Hl & ->)%zslice_inv. rewrite zslice_some; [|done..|rewrite zlen_app; pose proof (zlen_nonneg r); lia].
  f_equal. unfold zlen in *. rewrite drop_app_le, take_app_le by (rewrite ?length_drop; lia). done.
Qed.
Lemma prefix_u32 m r off v : field_u32 m off = Some v -> field_u32 (m ++ r) off = Some v.
Proof.
  unfold field_u32. destruct (zslice m off 4) as [l|] eqn:E; [|done].
  by rewrite (prefix_slice _ r _ _ _ E).
Qed.

Section Held.
Context {D : Type} `{MailServer D} `{LoopFuel} (F : fault -> Prop).
Abbreviation L := (maildev D).
Abbreviation ctx := (ecx_contextt L).
Implicit Types (c : ctx) (d : D) (o : option (list Z)).
Context (slave : Z) (s : ec_slavet) (c0 : ctx).
Context (Hslave : 0 <= slave < zlen (slavelist c0)) (Hserved : served s)
        (Hhook : EOEhook c0 = None) (Hfuel : (0 < loop_fuel)%nat).
Abbreviation mworld := (mworld slave s c0).
#[local] Set Default Proof Using "Hslave Hserved Hhook Hfuel".

(** The client owns [own]; at least [n] mailboxes are free; those of [kept] are free too, come
    after the others, and are not overwritten yet. *)
Definition mheld d o (own kept : list owned_mbx) (n : nat) c : Prop := exists q1 q2 B,
  mworld d o (q1 ++ q2) B c /\ (n <= length q1)%nat
  /\ NoDup (own.*1 ++ q1 ++ q2) /\ Forall (fun x : owned_mbx => 0 <= x.1 < EC_MBXPOOLSIZE) own
  /\ Forall (begins B) (own ++ kept) /\ Forall (fun x : owned_mbx => x.1 ∈ q2) kept.

Lemma mheld_start d o now n : zget (slavelist c0) slave = Some s -> link c0 = MailDev d o now ->
  pool_wf (mbxpool c0) -> (n <= length (pool_free (mbxpool c0)))%nat -> mheld d o [] [] n c0.
Proof.
  intros Hs Hl Hp Hn. exists (pool_free (mbxpool c0)), [], (MbxPool.mbx (mbxpool c0)).
  rewrite app_nil_r. split_and!; [by eapply mworld_start | done | | done..].
  by destruct Hp as (_ & _ & _ & _ & _ & _ & _ & Hnd).
Qed.

(** Mailboxes that are not looked at again are free like others. *)
Lemma mheld_forget d o own kept n m c : (m <= n + length kept)%nat -> NoDup kept.*1 ->
  mheld d o own kept n c -> mheld d o own [] m c.
Proof.
  intros Hm Hnd (q1 & q2 & B & Hw & Hn & Hd & Hr & Hb & Hk). exists (q1 ++ q2), [], B.
  rewrite app_nil_r. apply Forall_app in Hb as [Hb _]. split_and!; [done | | done.. | by rewrite app_nil_r | done].
  assert (length kept <= length q2)%nat; [|rewrite length_app; lia].
  rewrite <- (length_fmap fst kept). apply submseteq_length, NoDup_submseteq; [done|].
  intros i (x & -> & Hx)%list_elem_of_fmap. rewrite Forall_forall in Hk. by apply Hk.
Qed.
Lemma mheld_less d o own n m c : (m <= n)%nat -> mheld d o own [] n c -> mheld d o own [] m c.
Proof. intros Hm. apply mheld_forget; [cbn; lia | constructor]. Qed.

Lemma mheld_prefix d o i m r own kept n c :
  mheld d o ((i, m ++ r) :: own) kept n c -> mheld d o ((i, m) :: own) kept n c.
Proof.
  intros (q1 & q2 & B & Hw & Hn & Hd & Hr & Hb & Hk). exists q1, q2, B.
  split_and!; try done.
  - by apply Forall_cons in Hr as [? ?]; apply Forall_cons.
  - apply Forall_cons in Hb as [[r' Hb] ?]. apply Forall_cons. split; [|done].
    exists (r ++ r'). by rewrite app_assoc.
Qed.

Lemma wp_mh_slave d o own kept n Q c : mheld d o own kept n c ->
  (forall k, Q (s <| mbx_cnt := k |>) c) -> wp F (get_slave slave) Q c.
Proof.
  intros (q1 & q2 & B & Hw & _) HQ. eapply wp_mw_slave; [exact Hslave | exact Hw | exact HQ].
Qed.

(** ** Getting and giving back *)

Lemma wp_mh_getmbx d o own kept n Q c : mheld d o own kept (S n) c ->
  (forall i c', mheld d o ((i, []) :: own) kept n c' -> Q (Some i) c') -> wp F ctx_getmbx Q c.
Proof.
  intros (q1 & q2 & B & Hw & Hn & Hd & Hr & Hb & Hk) HQ.
  destruct q1 as [|i q1]; [cbn in Hn; lia|]. cbn in Hn.
  destruct (mworld_free slave s c0 Hfuel _ _ _ _ _ _ Hw) as (Hni & Hi & b & Hbi).
  eapply wp_mw_getmbx; [exact Hw|]. intros c' Hw'. apply HQ. exists q1, q2, B.
  split_and!; [done | lia | | by apply Forall_cons | | done].
  - rewrite <- app_comm_cons, <- Permutation_middle in Hd. done.
  - cbn. apply Forall_cons. split; [by exists b | done].
Qed.

Lemma wp_mh_drop d o i m own n Q c : mheld d o ((i, m) :: own) [] n c ->
  (forall c', mheld d o own [] (S n) c' -> Q tt c') -> wp F (drop_mbx (Some i)) Q c.
Proof.
  intros (q1 & q2 & B & Hw & Hn & Hd & Hr & Hb & _) HQ. rewrite app_nil_r in Hb. cbn in Hd.
  apply Forall_cons in Hr as [Hi Hr]. apply NoDup_cons in Hd as [Hni Hd].
  eapply wp_mw_drop; [exact Hw | exact Hi | by intros Hx; apply Hni, elem_of_app; right |]. intros c' Hw'. apply HQ.
  rewrite <- app_assoc in Hw'.
  exists (q1 ++ q2 ++ [i]), [], B. rewrite !app_nil_r, !length_app. cbn.
  split_and!; [done | lia | | done | by apply Forall_cons in Hb as [_ ?] | done].
  rewrite !app_assoc. apply NoDup_app. rewrite <- !app_assoc. split_and!; [done | | apply NoDup_singleton].
  intros x Hx ->%list_elem_of_singleton. done.
Qed.

(** ** Building and sending a request *)

(** The mailbox being built gets new contents. *)
Lemma mheld_insert d o i m b m' own kept n q1 q2 B c' :
  mworld d o (q1 ++ q2) (<[Z.to_nat i := b]> B) c' -> (n <= length q1)%nat ->
  NoDup (((i, m) :: own).*1 ++ q1 ++ q2) ->
  Forall (fun x : owned_mbx => 0 <= x.1 < EC_MBXPOOLSIZE) ((i, m) :: own) ->
  Forall (begins B) (((i, m) :: own) ++ kept) -> Forall (fun x : owned_mbx => x.1 ∈ q2) kept ->
  (exists r, b = m' ++ r) -> mheld d o ((i, m') :: own) kept n c'.
Proof.
  intros Hw Hn Hd Hr Hb Hk [r ->]. exists q1, q2, (<[Z.to_nat i := m' ++ r]> B).
  rewrite <- app_comm_cons in *.
  apply Forall_cons in Hr as [Hi Hr]. apply Forall_cons in Hb as [[r0 Hb0] Hb]. apply zget_lt in Hb0.
  split_and!; [done.. | by apply Forall_cons | | done]. apply Forall_cons. split.
  - exists r. rewrite zget_insert by done. by rewrite decide_True.
  - apply begins_insert_all; [done | | done]. cbn in Hd. apply NoDup_cons in Hd as [Hni _].
    rewrite fmap_app, elem_of_app. rewrite !elem_of_app in Hni. intros [Hx|Hx]; [tauto|].
    apply list_elem_of_fmap in Hx as (x & -> & Hx). rewrite Forall_forall in Hk. specialize (Hk _ Hx). tauto.
Qed.

Lemma wp_mh_clear d o i m own kept n Q c : mheld d o ((i, m) :: own) kept n c ->
  (forall c', mheld d o ((i, []) :: own) kept n c' -> Q tt c') -> wp F (mbx_clear i) Q c.
Proof.
  intros (q1 & q2 & B & Hw & Hn & Hd & Hr & Hb & Hk) HQ.
  pose proof Hb as [[r0 Hb0] _]%Forall_cons.
  eapply wp_mw_clear; [exact Hfuel | exact Hw | exact Hb0 |]. intros b' c' Hl Hw'. apply HQ.
  eapply mheld_insert; [exact Hw' | done.. | by exists b'].
Qed.

Lemma wp_mh_write d o i m off bytes own kept n Q c : mheld d o ((i, m) :: own) kept n c ->
  off = zlen m -> off + zlen bytes <= EC_MAXMBX + 1 ->
  (forall c', mheld d o ((i, m ++ bytes) :: own) kept n c' -> Q tt c') ->
  wp F (mbx_write i off bytes) Q c.
Proof.
  intros (q1 & q2 & B & Hw & Hn & Hd & Hr & Hb & Hk) -> Hfit HQ.
  pose proof Hb as [[r0 Hb0] _]%Forall_cons. cbn [fst snd] in Hb0.
  destruct (mworld_buffer slave s c0 Hfuel _ _ _ _ _ _ _ Hw Hb0) as [Hl _].
  rewrite zlen_app in Hl. eapply wp_mw_write; [exact Hw | exact Hb0 | apply zblit_after; [done | lia] |].
  intros c' Hw'. apply HQ.
  eapply mheld_insert; [exact Hw' | done.. |]. rewrite app_assoc. by eexists.
Qed.

Lemma wp_mh_mbxcnt d o own kept n Q c : mheld d o own kept n c ->
  (forall k c', 0 <= k < 8 -> mheld d o own kept n c' -> Q k c') -> wp F (next_mbxcnt slave) Q c.
Proof.
  intros (q1 & q2 & B & Hw & Hrest) HQ.
  eapply wp_mw_mbxcnt; [exact Hslave | exact Hfuel | exact Hw |]. intros k c' Hk Hw'. apply HQ; [done|].
  by exists q1, q2, B.
Qed.

(** The slave gets the request and what the rest of the mailbox holds. *)
Lemma wp_mh_send d o i m own kept n timeout Q c : mheld d o ((i, m) :: own) kept n c ->
  zlen m <= mbx_l s ->
  (forall r c', zlen (m ++ r) = mbx_l s ->
     let x := serve d (m ++ r) in mheld x.1 x.2 own ((i, m) :: kept) n c' -> Q 1 c') ->
  wp F (ecx_mbxsend slave (Some i) timeout) Q c.
Proof.
  intros (q1 & q2 & B & Hw & Hn & Hd & Hr & Hb & Hk) Hm HQ.
  pose proof Hb as [[r0 Hb0] Hb']%Forall_cons. cbn [fst snd] in Hb0.
  destruct (mworld_buffer slave s c0 Hfuel _ _ _ _ _ _ _ Hw Hb0) as [Hl _].
  pose proof Hserved as (_ & _ & _ & _ & _ & Hml & _).
  pose proof Hd as [Hni Hd']%NoDup_cons. apply Forall_cons in Hr as [Hi Hr].
  eapply wp_mw_send; [exact Hslave | exact Hserved | exact Hfuel | exact Hw | exact Hb0
    | by intros Hx; apply Hni, elem_of_app; right |].
  intros c' x Hx. apply (HQ (take (Z.to_nat (mbx_l s) - length m) r0)).
  { rewrite zlen_app in *. unfold zlen in *. rewrite length_take. lia. }
  assert (Ht : m ++ take (Z.to_nat (mbx_l s) - length m) r0 = take (Z.to_nat (mbx_l s)) (m ++ r0)).
  { rewrite take_app, (take_ge m) by (unfold zlen in *; lia). done. }
  cbn zeta. rewrite Ht. fold x. exists q1, (q2 ++ [i]), B. rewrite app_assoc. cbn in Hd'.
  split_and!; [done | done | | done | | ].
  - rewrite app_assoc. apply NoDup_app. rewrite <- ?app_assoc. split_and!; [done | | apply NoDup_singleton].
    intros y Hy ->%list_elem_of_singleton. done.
  - apply Forall_app. apply Forall_app in Hb' as [Ho Hk']. split; [done|]. apply Forall_cons. split; [by exists r0 | done].
  - apply Forall_cons. cbn. split; [apply elem_of_app; right; by apply list_elem_of_singleton|].
    eapply Forall_impl; [exact Hk|]. intros y Hy. apply elem_of_app. by left.
Qed.

(** ** Receiving *)

Lemma wp_mh_receive junk d m own kept n timeout Q c : mheld d (Some m) own kept (S n) c ->
  plain_answer s m ->
  (forall i c', mheld d None ((i, m) :: own) kept n c' -> Q (1, Some i) c') ->
  wp F (ecx_mbxreceive junk slave None timeout) Q c.
Proof.
  intros (q1 & q2 & B & Hw & Hn & Hd & Hr & Hb & Hk) Hm HQ.
  destruct q1 as [|i q1]; [cbn in Hn; lia|]. cbn in Hn.
  destruct (mworld_free slave s c0 Hfuel _ _ _ _ _ _ Hw) as (Hni & Hi & b & Hbi).
  eapply wp_mw_receive; [exact Hslave | exact Hserved | exact Hhook | exact Hfuel | exact Hw | exact Hbi | exact Hm |].
  intros c' Hw'. apply HQ. cbn in Hd. rewrite <- Permutation_middle in Hd.
  eapply (mheld_insert _ _ i []); [exact Hw' | lia | exact Hd | by apply Forall_cons | | done | by eexists].
  apply Forall_cons. split; [by exists b | done].
Qed.

Lemma wp_mh_receive_empty junk d own kept n Q c : mheld d None own kept n c ->
  (forall c', mheld d None own kept n c' -> Q (EC_TIMEOUT, None) c') ->
  wp F (ecx_mbxreceive junk slave None 0) Q c.
Proof.
  intros (q1 & q2 & B & Hw & Hrest) HQ.
  eapply wp_mw_receive_empty; [exact Hslave | exact Hserved | exact Hfuel | exact Hw |].
  intros c' Hw'. apply HQ. by exists q1, q2, B.
Qed.

(** ** Reading *)

Lemma wp_mh_read {A} (g : list Z -> option A) i m v d o own kept n Q c :
  (forall r w, g m = Some w -> g (m ++ r) = Some w) ->
  mheld d o own kept n c -> (i, m) ∈ own ++ kept -> g m = Some v -> Q v c ->
  wp F (let* b := get_buffer i in oobC (g b)) Q c.
Proof.
  intros Hg (q1 & q2 & B & Hw & _ & _ & _ & Hb & _) Hi Hv HQ. rewrite Forall_forall in Hb.
  destruct (Hb _ Hi) as [r Hr]. apply wp_bind.
  eapply wp_mw_buffer; [exact Hw | exact Hr |]. eapply wp_of_opt; [by apply Hg | done].
Qed.
Lemma wp_mh_u8 d o i m off v own kept n Q c : mheld d o own kept n c -> (i, m) ∈ own ++ kept ->
  field_u8 m off = Some v -> Q v c -> wp F (get_u8 i off) Q c.
Proof. apply (wp_mh_read (fun b => field_u8 b off)). intros. by apply field_u8_app. Qed.
Lemma wp_mh_u16 d o i m off v own kept n Q c : mheld d o own kept n c -> (i, m) ∈ own ++ kept ->
  field_u16 m off = Some v -> Q v c -> wp F (get_u16 i off) Q c.
Proof. apply (wp_mh_read (fun b => field_u16 b off)). intros. by apply field_u16_app. Qed.
Lemma wp_mh_u32 d o i m off v own kept n Q c : mheld d o own kept n c -> (i, m) ∈ own ++ kept ->
  field_u32 m off = Some v -> Q v c -> wp F (get_u32 i off) Q c.
Proof. apply (wp_mh_read (fun b => field_u32 b off)). intros. by apply prefix_u32. Qed.
Lemma wp_mh_bytes d o i m off len v own kept n Q c : mheld d o own kept n c -> (i, m) ∈ own ++ kept ->
  zslice m off len = Some v -> Q v c -> wp F (get_bytes i off len) Q c.
Proof. apply (wp_mh_read (fun b => zslice b off len)). intros. by apply prefix_slice. Qed.
End Held.

(** Apply a rule: the facts on the slave are assumptions, [Hw] is what the client has. *)
Tactic Notation "mh" uconstr(lem) "with" hyp(Hw) :=
  eapply lem; only 5: (exact Hw); only 1-4: assumption.
