(* ===== verification/FoeTheorems.v ===== *)
(** * Files through a mailbox

    A file server, and the file that [ecx_FOEwrite] leaves on it and [ecx_FOEread] brings
    back. *)

From S2P Require Import Prelude Types Osal ErrorRing Mailbox Context AlState MbxHandler MbxClient FoE.
From S2P Require Import PoolSpec LinkSpec EepromSim MbxSim MbxHeld.
Import stdpp.list_relations.list stdpp.list_basics.list.

(** ** The mailboxes of the protocol *)

Lemma foe_header_length len cnt op v : zlen (foe_header len cnt op v) = 12.
Proof. done. Qed.

Lemma foe_fields len cnt op v x :
  0 <= len < 65536 -> 0 <= cnt < 8 -> 0 <= v < 2 ^ 32 ->
  let m := foe_header len cnt op v ++ x in
  field_u16 m 0 = Some len /\ field_u8 m FOE_OpCode = Some op
  /\ field_u32 m FOE_PacketNumber = Some v
  /\ exists ty, field_u8 m MBXH_mbxtype = Some ty /\ Z.land ty 0x0f = ECT_MBXT_FOE.
Proof.
  intros Hl Hc Hv m. split_and!.
  - unfold m, foe_header, mbx_header. rewrite <- !app_assoc. by apply (field_u16_at []).
  - reflexivity.
  - unfold m. apply prefix_u32. unfold field_u32. change (zslice _ _ 4) with (Some (le_bytes 4 v)).
    cbn [mbind option_bind]. f_equal. rewrite of_le_le_bytes. by apply Z.mod_small.
  - exists (u8 (ECT_MBXT_FOE + MBX_HDR_SET_CNT cnt)). split; [reflexivity|]. by apply mbxtype_proto.
Qed.

Lemma foe_payload len cnt op v data r : len = 6 + zlen data ->
  zslice (foe_header len cnt op v ++ data ++ r) FOE_Data (len - 6) = Some data.
Proof.
  intros ->. replace (6 + zlen data - 6) with (zlen data) by lia. pose proof (zlen_nonneg data).
  rewrite zslice_some; [|done | lia |].
  - f_equal. unfold zlen. rewrite Nat2Z.id. change (Z.to_nat FOE_Data) with (length (foe_header (6 + Z.of_nat (length data)) cnt op v)).
    by rewrite drop_app_length, take_app_length.
  - rewrite !zlen_app, foe_header_length. pose proof (zlen_nonneg r). unfold FOE_Data. lia.
Qed.

(** ** The server *)

(** One file with its name; the number of the next packet to receive, or of the packet sent
    last; is the file being written; and for each packet with data that comes, whether the
    server is busy when it comes (not busy when the list is over). *)
Record file_server : Type := FileServer {
  fs_name : list Z;
  fs_file : list Z;
  fs_packet : Z;
  fs_open : bool;
  fs_busy : list bool;
}.

Section Server.
Context (adr wo ro maxdata rl : Z).

(** An answer fills the mailbox of the slave. *)
Definition foe_answer (op v : Z) (data : list Z) : list Z :=
  let m := foe_header (6 + zlen data) 1 op v ++ data in
  m ++ replicate (Z.to_nat (rl - zlen m)) 0.

(** Packet [k] of the file, from 1 on. *)
Definition file_packet (file : list Z) (k : Z) : list Z :=
  take (Z.to_nat maxdata) (drop (Z.to_nat ((k - 1) * maxdata)) file).

(** A packet of the file being written: the one awaited is stored, and the last one is the
    one that is not full. *)
Definition serve_data (d : file_server) (v : Z) (data : list Z) : file_server * option (list Z) :=
  if fs_open d && (v =? fs_packet d) then
    if negb (zlen data =? 0) && default false (head (fs_busy d)) then
      (d <| fs_busy ::= tail |>, Some (foe_answer ECT_FOE_BUSY 0 []))
    else
      (FileServer (fs_name d) (fs_file d ++ data) (v + 1) (zlen data =? maxdata) (tail (fs_busy d)),
       Some (foe_answer ECT_FOE_ACK v []))
  else (d, Some (foe_answer ECT_FOE_ERROR 0x8000 [])).

Definition serve_foe (d : file_server) (op v : Z) (data : list Z) : file_server * option (list Z) :=
  if op =? ECT_FOE_WRITE then
    (FileServer data [] 1 true (fs_busy d), Some (foe_answer ECT_FOE_ACK 0 []))
  else if op =? ECT_FOE_DATA then serve_data d v data
  else if op =? ECT_FOE_READ then
    if bool_decide (data = fs_name d) && negb (fs_open d) then
      (d <| fs_packet := 1 |>, Some (foe_answer ECT_FOE_DATA 1 (file_packet (fs_file d) 1)))
    else (d, Some (foe_answer ECT_FOE_ERROR 0x8001 []))
  else if op =? ECT_FOE_ACK then
    if v =? fs_packet d then
      if zlen (file_packet (fs_file d) v) =? maxdata then
        (d <| fs_packet := v + 1 |>, Some (foe_answer ECT_FOE_DATA (v + 1) (file_packet (fs_file d) (v + 1))))
      else (d, None)
    else (d, Some (foe_answer ECT_FOE_ERROR 0x8000 []))
  else (d, None).

Definition foe_serve (d : file_server) (m : list Z) : file_server * option (list Z) :=
  match (op ← field_u8 m FOE_OpCode; v ← field_u32 m FOE_PacketNumber; len ← field_u16 m 0;
         data ← zslice m FOE_Data (len - 6); Some (op, v, data)) with
  | Some (op, v, data) => serve_foe d op v data
  | None => (d, None)
  end.

Definition foe_server : MailServer file_server :=
  {| ms_adr := adr; ms_wo := wo; ms_ro := ro; serve := foe_serve |}.

Lemma foe_serve_request d len cnt op v data r :
  len = 6 + zlen data -> zlen data <= 65000 -> 0 <= cnt < 8 -> 0 <= v < 2 ^ 32 ->
  foe_serve d (foe_header len cnt op v ++ data ++ r) = serve_foe d op v data.
Proof.
  intros Hl Hd Hc Hv. pose proof (zlen_nonneg data).
  destruct (foe_fields len cnt op v (data ++ r)) as (Hlen & Hop & Hpn & _); [lia | done | done|].
  unfold foe_serve. rewrite Hop, Hpn, Hlen. cbn [mbind option_bind].
  by rewrite foe_payload by done.
Qed.

Lemma foe_answer_fields op v data : 12 + zlen data <= rl -> rl <= EC_MAXMBX -> 0 <= v < 2 ^ 32 ->
  let m := foe_answer op v data in
  field_u16 m 0 = Some (6 + zlen data) /\ field_u8 m FOE_OpCode = Some op
  /\ field_u32 m FOE_PacketNumber = Some v /\ zslice m FOE_Data (zlen data) = Some data
  /\ (exists ty, field_u8 m MBXH_mbxtype = Some ty /\ Z.land ty 0x0f = ECT_MBXT_FOE)
  /\ zlen m = rl.
Proof.
  intros Hl Hrl Hv m. pose proof (zlen_nonneg data). unfold EC_MAXMBX in *.
  unfold m, foe_answer. cbn zeta.
  set (r := replicate _ _). rewrite <- app_assoc.
  destruct (foe_fields (6 + zlen data) 1 op v (data ++ r)) as (H1 & H2 & H3 & H4); [lia | done | done|].
  split_and!; [done..| | done |].
  - pose proof (foe_payload (6 + zlen data) 1 op v data r eq_refl) as Hp.
    by replace (6 + zlen data - 6) with (zlen data) in Hp by lia.
  - rewrite !zlen_app, foe_header_length. unfold r. rewrite zlen_app, foe_header_length.
    unfold zlen at 2. rewrite length_replicate. lia.
Qed.

Lemma foe_answer_plain (s : ec_slavet) op v data : mbx_rl s = rl -> 12 + zlen data <= rl -> rl <= EC_MAXMBX ->
  0 <= v < 2 ^ 32 -> plain_answer s (foe_answer op v data).
Proof.
  intros Hs Hl Hrl Hv.
  destruct (foe_answer_fields op v data) as (_ & _ & _ & _ & (ty & Hty & Hp) & Hz); [done..|].
  split; [congruence|]. exists ty. rewrite Hp. split_and!; done.
Qed.
End Server.

(** ** The client *)

Section Client.
Context (adr wo ro maxdata rl : Z) `{LoopFuel}.
#[local] Instance the_server : MailServer file_server := foe_server adr wo ro maxdata rl.
Abbreviation ctx := (ecx_contextt (maildev file_server)).
Context (slave : Z) (s : ec_slavet) (c0 : ctx).
Context (Hslave : 0 <= slave < zlen (slavelist c0)) (Hserved : served s)
        (Hhook : EOEhook c0 = None) (Hfuel : (0 < loop_fuel)%nat) (Hfoe : FOEhook c0 = None).
Context (Hml : mbx_l s = maxdata + 12) (Hmax : 0 < maxdata) (Hrl : mbx_rl s = rl).
Abbreviation mheld := (mheld slave s c0).
Abbreviation busy_rounds d := (length (fs_busy d)).
#[local] Set Default Proof Using "Hslave Hserved Hhook Hfuel Hfoe Hml Hmax Hrl".

Lemma served_bounds : maxdata + 12 <= EC_MAXMBX /\ 0 < rl <= EC_MAXMBX.
Proof. destruct Hserved as (_ & _ & _ & _ & _ & ? & ? & _). lia. Qed.

Lemma wp_foe_send d o own n len op v data Q c : mheld d o own [] (S n) c ->
  zlen data <= maxdata -> len = 6 + zlen data -> 0 <= v < 2 ^ 32 ->
  (forall c', let x := serve_foe maxdata rl d op v data in mheld x.1 x.2 own [] (S n) c' -> Q 1 c') ->
  wp no_fault (foe_send slave len op v data) Q c.
Proof.
  intros Hw Hd Hlen Hv HQ. pose proof served_bounds as [Hb _]. pose proof (zlen_nonneg data).
  unfold EC_MAXMBX in *.
  apply wp_bind. mh wp_mh_getmbx with Hw. intros i c1 H1. apply wp_bind, wp_ret.
  apply wp_bind. mh wp_mh_clear with H1. intros c2 H2.
  apply wp_bind. mh wp_mh_mbxcnt with H2. intros cnt c3 Hcnt H3.
  apply wp_bind. mh wp_mh_write with H3; [done | rewrite foe_header_length; unfold EC_MAXMBX; lia|].
  intros c4 H4. rewrite app_nil_l in H4.
  apply wp_bind. mh wp_mh_write with H4; [done | unfold FOE_Data, EC_MAXMBX; lia|]. intros c5 H5.
  mh wp_mh_send with H5; [rewrite zlen_app, foe_header_length; lia|].
  intros r c6 _ x H6. apply HQ. subst x. cbn [serve the_server foe_server] in H6.
  rewrite <- app_assoc, foe_serve_request in H6 by (done || lia). cbn zeta.
  eapply mheld_forget; [done..| | | exact H6]; [cbn; lia | apply NoDup_singleton].
Qed.

Lemma wp_foe_request d own n op password nm Q c : mheld d None own [] (S n) c ->
  zlen nm <= maxdata -> 0 <= password < 2 ^ 32 ->
  (forall c', let x := serve_foe maxdata rl d op password nm in mheld x.1 x.2 own [] (S n) c' -> Q 1 c') ->
  wp no_fault (foe_request slave op password nm) Q c.
Proof.
  intros Hw Hn Hpw HQ. pose proof served_bounds as [Hb _]. unfold EC_MAXMBX in Hb.
  pose proof (zlen_nonneg nm).
  apply wp_bind. mh wp_mh_slave with Hw. intros k. cbn [mbx_l set]. cbn. rewrite Hml.
  unfold foe_maxdata. replace (maxdata + 12 - 12) with maxdata by lia.
  rewrite (u16_id maxdata), (u16_id (zlen nm)) by lia. unfold EC_MAXFOEDATA, EC_MAXMBX.
  destruct (Z.ltb_spec (1486 - (6 + 1 + 1 + 4)) (zlen nm)); [lia|].
  destruct (Z.ltb_spec maxdata (zlen nm)); [lia|]. apply wp_bind.
  eapply wp_of_opt; [apply zslice_some; lia|]. change (Z.to_nat 0) with 0%nat.
  rewrite drop_0, take_ge by (unfold zlen; lia).
  eapply wp_foe_send; [exact Hw | done | lia | done | exact HQ].
Qed.

(** The mailbox the loop holds, and the others it can get. *)
Definition with_in (d : file_server) (o : option (list Z)) (m : option Z) (c : ctx) : Prop :=
  match m with
  | None => mheld d o [] [] 2 c
  | Some i => exists bs, mheld d o [(i, bs)] [] 1 c
  end.
Lemma wp_with_in_drop d o m Q c : with_in d o m c ->
  (forall c', mheld d o [] [] 2 c' -> Q tt c') -> wp no_fault (drop_mbx m) Q c.
Proof.
  destruct m as [i|]; cbn [with_in].
  - intros [bs Hw] HQ. mh wp_mh_drop with Hw. exact HQ.
  - intros Hw HQ. by apply wp_ret, HQ.
Qed.

Lemma with_in_state d o m c : with_in d o m c -> md_state (link c) = d.
Proof.
  destruct m; cbn [with_in]; [intros [bs Hw] | intros Hw];
    destruct Hw as (? & ? & ? & (? & ? & ? & -> & _) & _); done.
Qed.

(** *** Writing *)

Section Write.
Context (nm p : list Z) (psize : Z).
Context (Hp : 0 <= psize <= zlen p) (Hps : psize < 2 ^ 31 - 1).
#[local] Set Default Proof Using "Hslave Hserved Hhook Hfuel Hfoe Hml Hmax Hrl Hp Hps".

(** The server has the file up to the position of the client, and awaits the next packet. *)
Record in_step (d : file_server) (st : foe_write) : Prop := {
  is_name : fs_name d = nm;
  is_file : fs_file d = take (Z.to_nat (w_pos st)) p;
  is_pos : 0 <= w_pos st <= psize;
  is_left : w_left st = psize - w_pos st;
  is_packet : fs_packet d = w_sendpacket st + 1;
  is_open : fs_open d = (0 <? w_left st) || w_dofinalzero st;
  is_count : 0 <= w_sendpacket st <= w_pos st + b2z (negb (fs_open d));
}.

(** What [BUSY] makes of the state. *)
Definition rewind (st : foe_write) : foe_write :=
  st <| w_left ::= (fun n => n + w_segment st) |> <| w_pos ::= (fun n => n - w_segment st) |>
     <| w_sendpacket ::= (fun n => n - 1) |>.

(** The answers that can be waiting. *)
Definition answered (d : file_server) (mail : list Z) (st : foe_write) : Prop :=
  (mail = foe_answer rl ECT_FOE_ACK (w_sendpacket st) [] /\ in_step d st)
  \/ (mail = foe_answer rl ECT_FOE_BUSY 0 [] /\ 0 < w_sendpacket st /\ fs_open d = true
      /\ in_step d (rewind st)).

(** Rounds left. *)
Definition rounds (d : file_server) : nat :=
  busy_rounds d + 2 * Z.to_nat (psize - zlen (fs_file d)) + if fs_open d then 1 else 0.

Lemma in_step_size d st : in_step d st -> zlen (fs_file d) = w_pos st.
Proof. intros [_ -> ? _ _ _ _]. unfold zlen in *. rewrite length_take. lia. Qed.

(** The server gets the next packet. *)
Lemma serve_next d st : in_step d st -> fs_open d = true ->
  let tsize := if maxdata <? w_left st then maxdata else w_left st in
  let data := take (Z.to_nat tsize) (drop (Z.to_nat (w_pos st)) p) in
  let left := w_left st - tsize in
  let st' := st <| w_wkc := 1 |> <| w_sendpacket := w_sendpacket st + 1 |> <| w_segment := tsize |>
                <| w_left := left |> <| w_pos := w_pos st + tsize |>
                <| w_dofinalzero := (left =? 0) && (tsize =? maxdata) |> in
  zlen data = tsize /\ 0 <= w_sendpacket st + 1 < 2 ^ 31 /\
  exists d' mail, serve_foe maxdata rl d ECT_FOE_DATA (w_sendpacket st + 1) data = (d', Some mail)
    /\ answered d' mail st' /\ (rounds d' < rounds d)%nat.
Proof.
  intros [Hn Hf Hpos Hleft Hpk Hopen Hc] Ho tsize data left st'. rewrite Ho in *. cbn in Hc.
  assert (Hts : 0 <= tsize <= w_left st) by (unfold tsize; destruct (Z.ltb_spec maxdata (w_left st)); lia).
  assert (Hd : zlen data = tsize). { unfold data, zlen in *. rewrite length_take, length_drop. lia. }
  split; [done|]. split; [lia|]. cbn [serve_foe]. unfold serve_foe, serve_data.
  change (ECT_FOE_DATA =? ECT_FOE_WRITE) with false. change (ECT_FOE_DATA =? ECT_FOE_DATA) with true.
  rewrite Ho, Hpk, Z.eqb_refl, Hd. cbn [andb]. unfold rounds. rewrite Ho.
  destruct (negb (tsize =? 0) && default false (head (fs_busy d))) eqn:Hb.
  - apply andb_prop in Hb as [Hne Hbusy]. apply negb_true_iff, Z.eqb_neq in Hne.
    eexists _, _. split; [reflexivity|]. split; [right|].
    + split; [done|]. split; [cbn; lia|]. split; [exact Ho|]. split; cbn; try done; try lia.
      * by replace (w_pos st + tsize - tsize) with (w_pos st) by lia.
      * rewrite Ho. symmetry. apply orb_true_iff. left. apply Z.ltb_lt. lia.
      * rewrite Ho. cbn. lia.
    + cbn. rewrite Ho. destruct (fs_busy d); [done|]. cbn. lia.
  - eexists _, _. split; [reflexivity|].
    assert (Hfile : fs_file d ++ data = take (Z.to_nat (w_pos st + tsize)) p).
    { rewrite Hf. unfold data. rewrite take_take_drop. f_equal. lia. }
    assert (Hopen' : (tsize =? maxdata) = (0 <? left) || ((left =? 0) && (tsize =? maxdata))).
    { unfold left, tsize in *. clear -Hleft Hmax Hts Hpos Hopen.
      destruct (Z.ltb_spec maxdata (w_left st)), (Z.eqb_spec (w_left st) maxdata);
      rewrite ?Z.eqb_refl; lia. }
    split; [left|].
    + split; [done|]. split; cbn; try done; try lia. destruct (Z.eqb_spec tsize maxdata); cbn; lia.
    + cbn. rewrite zlen_app, Hd.
      assert (length (tail (fs_busy d)) <= busy_rounds d)%nat by (destruct (fs_busy d); cbn; lia).
      assert (zlen (fs_file d) = w_pos st) as -> by (rewrite Hf; unfold zlen in *; rewrite length_take; lia).
      destruct (Z.eqb_spec tsize maxdata); [lia|]. lia.
Qed.

(** The next packet is sent, if there is one. *)
Lemma wp_foe_next d st own n Q c : mheld d None own [] (S n) c -> in_step d st ->
  (fs_open d = false -> w_left st = 0 -> Q (false, st) c) ->
  (forall d' mail st' c', mheld d' (Some mail) own [] (S n) c' -> answered d' mail st' ->
     (rounds d' < rounds d)%nat -> w_in st' = w_in st -> Q (true, st') c') ->
  wp no_fault (foe_next slave maxdata p st) Q c.
Proof.
  intros Hw Hst Hend Hgo. pose proof Hst as [_ _ Hpos Hleft _ Hopen _].
  unfold foe_next. cbn zeta. set (tsize := if maxdata <? w_left st then maxdata else w_left st).
  assert (Ho : negb (tsize =? 0) || w_dofinalzero st = fs_open d).
  { rewrite Hopen. f_equal. unfold tsize. destruct (Z.ltb_spec maxdata (w_left st)).
    - destruct (Z.eqb_spec maxdata 0), (Z.ltb_spec 0 (w_left st)); cbn; lia.
    - destruct (Z.eqb_spec (w_left st) 0), (Z.ltb_spec 0 (w_left st)); cbn; lia. }
  rewrite Ho. destruct (fs_open d) eqn:Hod.
  - destruct (serve_next d st Hst Hod) as (Hd & Hv & d' & mail & Hserve & Hans & Hlt).
    fold tsize in Hd, Hserve, Hans. apply wp_bind.
    assert (0 <= tsize <= w_left st) by (unfold tsize; destruct (Z.ltb_spec maxdata (w_left st)); lia).
    eapply wp_of_opt; [apply zslice_some; lia|]. apply wp_bind.
    assert (tsize <= maxdata) by (unfold tsize; destruct (Z.ltb_spec maxdata (w_left st)); lia).
    pose proof served_bounds as [Hb _]. unfold EC_MAXMBX in *.
    eapply wp_foe_send; [exact Hw | rewrite Hd; lia | rewrite Hd, u16_id by lia; done | lia |].
    intros c' x Hx. subst x. rewrite Hserve in Hx. apply wp_ret.
    eapply Hgo; [exact Hx | exact Hans | exact Hlt | done].
  - apply wp_ret, Hend; [done|]. symmetry in Hopen. apply orb_false_iff in Hopen as [Hl _].
    apply Z.ltb_ge in Hl. lia.
Qed.

Definition writing (st : foe_write) (c : ctx) : Prop := exists d mail,
  with_in d (Some mail) (w_in st) c /\ answered d mail st.
Definition written (st : foe_write) (c : ctx) : Prop := exists d,
  w_wkc st = 1 /\ with_in d None (w_in st) c /\ fs_name d = nm
  /\ fs_file d = take (Z.to_nat psize) p /\ fs_open d = false.

Lemma in_step_wkc d st wkc m :
  in_step d (st <| w_wkc := wkc |> <| w_in := m |>) <-> in_step d st.
Proof. split; intros [? ? ? ? ? ? ?]; by split. Qed.

Lemma writing_step junk timeout st c : writing st c -> 12 <= rl ->
  wp no_fault (foe_write_step junk slave maxdata p timeout st)
    (fun r c' => if r.1 : bool then writing r.2 c'
                 /\ (rounds (md_state (link c')) < rounds (md_state (link c)))%nat
               else written r.2 c') c.
Proof.
  intros (d & mail & Hw & Hans) Hrl12. pose proof served_bounds as [_ Hb].
  assert (Hd : md_state (link c) = d) by (by eapply with_in_state). rewrite Hd.
  apply wp_bind. eapply wp_with_in_drop; [exact Hw|]. intros c1 H1.
  assert (Hm : exists op v, mail = foe_answer rl op v [] /\ 0 <= v < 2 ^ 32 /\
    ((op = ECT_FOE_ACK /\ v = w_sendpacket st /\ v < 2 ^ 31 /\ in_step d st)
     \/ (op = ECT_FOE_BUSY /\ 0 < w_sendpacket st /\ fs_open d = true /\ in_step d (rewind st)))).
  { destruct Hans as [[-> Hst]|(-> & Hsp & Hopen & Hst)].
    - pose proof (is_count _ _ Hst). pose proof (is_pos _ _ Hst).
      assert (w_sendpacket st < 2 ^ 31) by (destruct (fs_open d); cbn in *; lia).
      eexists _, _. split; [reflexivity|]. split; [lia|]. by left.
    - eexists _, _. split; [reflexivity|]. split; [lia|]. by right. }
  destruct Hm as (op & v & -> & Hv & Hop). clear Hans.
  destruct (foe_answer_fields rl op v []) as (_ & Hfop & Hfv & _ & (ty & Hty & Hp4) & _);
    [exact Hrl12 | lia | done|].
  apply wp_bind. mh wp_mh_receive with H1; [apply foe_answer_plain; [exact Hrl | exact Hrl12 | lia | exact Hv]|].
  intros i c2 H2. cbn [fst snd Z.ltb Z.compare]. apply wp_bind, wp_ret.
  pose proof (list_elem_of_here (i, foe_answer rl op v []) []) as Hin.
  apply wp_bind. mh wp_mh_u8 with H2; [rewrite app_nil_r; exact Hin | exact Hty|].
  rewrite Hp4, Z.eqb_refl.
  apply wp_bind. mh wp_mh_u8 with H2; [rewrite app_nil_r; exact Hin | exact Hfop|].
  apply wp_bind. mh wp_mh_u32 with H2; [rewrite app_nil_r; exact Hin | exact Hfv|].
  destruct Hop as [(-> & -> & Hv31 & Hst)|(-> & Hsp & Hopen & Hst)].
  - change (ECT_FOE_ACK =? ECT_FOE_ACK) with true. cbn [w_sendpacket set]. rewrite s32_id by lia.
    cbn. rewrite Z.eqb_refl. apply wp_bind, wp_bind, wp_gets.
    replace (FOEhook c2) with (None (A := Z -> Z -> Z -> maildev file_server -> maildev file_server)).
    2: { destruct H2 as (? & ? & ? & (? & ? & ? & -> & _) & _). by rewrite <- Hfoe. }
    apply wp_ret. eapply wp_foe_next; [exact H2 | by apply in_step_wkc | |].
    + intros Hcl Hl. cbn. exists d. cbn. split; [done|]. split; [by eexists|].
      destruct Hst as [Hn Hf Hpos Hleft _ _ _]. cbn in Hl. split; [done|]. split; [|done].
      rewrite Hf. do 2 f_equal. lia.
    + intros d' mail st' c' Hw' Hans' Hlt Hi. cbn. split.
      * exists d', mail. split; [|done]. rewrite Hi. cbn. by eexists.
      * erewrite (with_in_state d' _ (Some i)); [exact Hlt | by eexists].
  - change (ECT_FOE_BUSY =? ECT_FOE_ACK) with false. change (ECT_FOE_BUSY =? ECT_FOE_BUSY) with true.
    cbn [w_sendpacket set]. cbn. destruct (Z.eqb_spec (w_sendpacket st) 0); [lia|].
    eapply wp_foe_next; [exact H2 | exact (proj2 (in_step_wkc d (rewind st) 1 (Some i)) Hst) | |].
    + intros Hcl. congruence.
    + intros d' mail st' c' Hw' Hans' Hlt Hi. cbn. split.
      * exists d', mail. split; [|done]. rewrite Hi. cbn. by eexists.
      * erewrite (with_in_state d' _ (Some i)); [exact Hlt | by eexists].
Qed.

Lemma wp_foe_write d junk password timeout Q c : mheld d None [] [] 2 c ->
  zlen nm <= maxdata -> 0 <= password < 2 ^ 32 -> 12 <= rl ->
  (busy_rounds d + 2 * Z.to_nat psize + 1 < loop_fuel)%nat ->
  (forall d' c', mheld d' None [] [] 2 c' -> fs_name d' = nm -> fs_file d' = take (Z.to_nat psize) p ->
     fs_open d' = false -> Q 1 c') ->
  wp no_fault (ecx_FOEwrite junk slave nm password psize p timeout) Q c.
Proof.
  intros Hw Hn Hpw Hrl12 Hf HQ. pose proof served_bounds as [Hb _]. unfold EC_MAXMBX in Hb.
  apply wp_bind. mh wp_mh_receive_empty with Hw. intros c1 H1.
  apply wp_bind. mh wp_mh_slave with H1. intros k. cbn [mbx_l set]. cbn [snd].
  apply wp_bind. eapply wp_foe_request; [exact H1 | done | done |]. intros c2 x H2. subst x.
  apply wp_bind. cbn [Z.ltb Z.compare].
  replace (foe_maxdata _) with maxdata by (cbn; unfold foe_maxdata; rewrite Hml, u16_id by lia; lia).
  apply (wp_do_while no_fault writing (fun _ c => rounds (md_state (link c)))) with
    (Q := fun st c => wp no_fault (do* drop_mbx (w_in st) in ret (w_wkc st)) Q c).
  - intros st c' Hst. eapply wp_mono; [by apply writing_step|]. intros [[] st'] c''; [done|].
    cbn. intros (d' & Hwkc & Hin & Hnm & Hfile & Hop). apply wp_bind.
    eapply wp_with_in_drop; [exact Hin|]. intros c3 H3. apply wp_ret. rewrite Hwkc. by eapply HQ.
  - eexists _, _. split; [exact H2|]. left. split; [done|]. cbn. split; cbn; try done; try lia.
  - cbn [snd fst serve_foe]. erewrite (with_in_state _ _ None); [|exact H2].
    cbn. unfold rounds. cbn. change (zlen []) with 0. rewrite Z.sub_0_r. lia.
Qed.
End Write.

(** *** Reading *)

Section Read.
Context (d : file_server) (size : Z) (p : list Z).
Context (Hopen : fs_open d = false) (Hsize : zlen (fs_file d) <= size)
        (Hp : zlen (fs_file d) <= zlen p) (Hps : zlen (fs_file d) < 2 ^ 31 - 1) (Hfit : maxdata + 12 <= rl).
#[local] Set Default Proof Using "Hslave Hserved Hhook Hfuel Hfoe Hml Hmax Hrl Hopen Hsize Hp Hps Hfit".
Abbreviation file := (fs_file d).
Abbreviation packet := (file_packet maxdata (fs_file d)).

Lemma packet_zlen k : 1 <= k ->
  zlen (packet k) = Z.max 0 (Z.min maxdata (zlen file - (k - 1) * maxdata)).
Proof.
  intros Hk. unfold file_packet, zlen. rewrite length_take, length_drop.
  assert (0 <= (k - 1) * maxdata) by nia. lia.
Qed.

(** Packet [k] is waiting, and the packets before it are in the buffer. *)
Record reading (k : Z) (st : foe_read) : Prop := {
  rd_k : 1 <= k;
  rd_prev : fr_prev st = k - 1;
  rd_pos : fr_read st = (k - 1) * maxdata;
  rd_more : fr_read st <= zlen file;
  rd_len : zlen (fr_p st) = zlen p;
  rd_data : take (Z.to_nat (fr_read st)) (fr_p st) = take (Z.to_nat (fr_read st)) file;
}.
Abbreviation answer k := (foe_answer rl ECT_FOE_DATA k (packet k)).

(** What the loop has after packet [k]. *)
Definition stored (k : Z) (st : foe_read) (p' : list Z) : foe_read :=
  st <| fr_prev := k |> <| fr_p := p' |> <| fr_read := fr_read st + zlen (packet k) |> <| fr_wkc := 1 |>.

(** The packet is stored and acknowledged. *)
Lemma wp_foe_data k st i Q c :
  mheld (d <| fs_packet := k |>) None [(i, answer k)] [] 1 c -> reading k st ->
  (forall c' p', zlen p' = zlen p ->
     let read := fr_read st + zlen (packet k) in
     take (Z.to_nat read) p' = take (Z.to_nat read) file ->
     (if zlen (packet k) =? maxdata
      then with_in (d <| fs_packet := k + 1 |>) (Some (answer (k + 1))) (Some i) c'
      else with_in (d <| fs_packet := k |>) None (Some i) c') ->
     Q (zlen (packet k) =? maxdata, stored k st p') c') ->
  wp no_fault (foe_data slave i maxdata size st) Q c.
Proof.
  intros Hw [Hk Hprev Hpos Hmore Hlen Hdata] HQ. pose proof served_bounds as [Hb1 Hb2].
  unfold EC_MAXMBX in *. pose proof (packet_zlen k Hk) as Hz.
  assert (Hk31 : 0 <= k < 2 ^ 31) by nia.
  destruct (foe_answer_fields rl ECT_FOE_DATA k (packet k)) as (Hl & _ & Hv & Hd & _ & _);
    [lia | unfold EC_MAXMBX; lia | lia|].
  pose proof (list_elem_of_here (i, answer k) []) as Hin.
  apply wp_bind. mh wp_mh_u16 with Hw; [rewrite app_nil_r; exact Hin | exact Hl|].
  apply wp_bind. mh wp_mh_u32 with Hw; [rewrite app_nil_r; exact Hin | exact Hv|].
  cbn zeta. rewrite s32_id by lia. cbn [fr_prev fr_read set]. cbn.
  replace (6 + zlen (packet k) - 6) with (zlen (packet k)) by lia.
  rewrite (u16_id (zlen (packet k))) by lia. rewrite Hprev. replace (k - 1 + 1) with k by lia.
  rewrite (s32_id k), Z.eqb_refl by lia.
  destruct (Z.leb_spec (fr_read st + zlen (packet k)) size); [|lia]. cbn [andb].
  apply wp_bind. mh wp_mh_bytes with Hw; [rewrite app_nil_r; exact Hin | exact Hd|].
  assert (exists p', zblit (fr_p st) (fr_read st) (packet k) = Some p') as [p' Hbl].
  { eexists. apply zblit_some; nia. }
  assert (Hpk : packet k = take (Z.to_nat (zlen (packet k))) (drop (Z.to_nat (fr_read st)) file)).
  { rewrite Hz, Hpos. unfold file_packet. set (x := drop _ _).
    assert (length x = Z.to_nat (zlen file - (k - 1) * maxdata)) by (unfold x, zlen; rewrite length_drop; lia).
    destruct (Z.le_gt_cases maxdata (zlen file - (k - 1) * maxdata)); [f_equal; lia|].
    rewrite !take_ge by lia. done. }
  rewrite Hpk in Hbl. apply take_blit in Hbl as Ht; [|nia | lia | lia | exact Hdata]. rewrite <- Hpk in Hbl.
  apply wp_bind. eapply wp_of_opt; [exact Hbl|]. apply wp_bind.
  eapply wp_foe_send; [exact Hw | change (zlen []) with 0; lia | done | lia |]. intros c' x Hx. subst x.
  apply wp_bind, wp_bind, wp_gets.
  replace (FOEhook c') with (None (A := Z -> Z -> Z -> maildev file_server -> maildev file_server)).
  2: { destruct Hx as (? & ? & ? & (? & ? & ? & -> & _) & _). by rewrite <- Hfoe. }
  apply wp_ret, wp_ret. rewrite andb_true_r. apply HQ; [lia | apply Ht|].
  revert Hx. unfold serve_foe. cbn. rewrite Z.eqb_refl.
  destruct (zlen (packet k) =? maxdata); intros Hx; by eexists.
Qed.

Definition awaiting (st : foe_read) (c : ctx) : Prop := exists k,
  reading k st /\ with_in (d <| fs_packet := k |>) (Some (answer k)) (fr_in st) c.
Definition arrived (st : foe_read) (c : ctx) : Prop :=
  fr_wkc st = 1 /\ fr_size st = zlen file /\ zlen (fr_p st) = zlen p
  /\ take (Z.to_nat (zlen file)) (fr_p st) = file
  /\ exists k, with_in (d <| fs_packet := k |>) None (fr_in st) c.

Lemma awaiting_step junk timeout st c : awaiting st c ->
  wp no_fault (foe_read_step junk slave maxdata size timeout st)
    (fun r c' => if r.1 : bool then awaiting r.2 c'
                 /\ (Z.to_nat (zlen file + 1 - fr_read r.2) < Z.to_nat (zlen file + 1 - fr_read st))%nat
               else arrived r.2 c') c.
Proof.
  intros (k & Hst & Hw). pose proof served_bounds as [_ Hb]. pose proof Hst as [Hk Hprev Hpos Hmore Hlen Hdata].
  pose proof (packet_zlen k Hk) as Hz.
  assert (Hk31 : 0 <= k < 2 ^ 32) by nia.
  destruct (foe_answer_fields rl ECT_FOE_DATA k (packet k)) as (_ & Hop & _ & _ & (ty & Hty & Hp4) & _);
    [lia | lia | lia|].
  apply wp_bind. eapply wp_with_in_drop; [exact Hw|]. intros c1 H1.
  apply wp_bind. mh wp_mh_receive with H1; [apply foe_answer_plain; [exact Hrl | lia | lia | lia]|].
  intros i c2 H2. cbn [fst snd Z.ltb Z.compare]. apply wp_bind, wp_ret.
  pose proof (list_elem_of_here (i, answer k) []) as Hin.
  apply wp_bind. mh wp_mh_u8 with H2; [rewrite app_nil_r; exact Hin | exact Hty|].
  apply wp_bind. mh wp_mh_u8 with H2; [rewrite app_nil_r; exact Hin | exact Hop|].
  rewrite Hp4, Z.eqb_refl. change (ECT_FOE_DATA =? ECT_FOE_DATA) with true. cbv iota.
  apply wp_bind. eapply wp_foe_data; [exact H2 | by split|]. intros c3 p' Hl' read Ht Hin'.
  apply wp_ret. unfold read in *. cbn -[Z.to_nat packet] in Ht. cbn [fst snd]. destruct (Z.eqb_spec (zlen (packet k)) maxdata) as [Hfull|Hpart].
  - cbn. split; [|lia]. exists (k + 1). split; [|exact Hin']. split; cbn; try done; try lia.
  - cbn. assert (Hall : fr_read st + zlen (packet k) = zlen file) by lia.
    unfold arrived. cbn. rewrite Hall in *.
    split_and!; [done.. | rewrite Ht; apply take_ge; unfold zlen; lia | by exists k].
Qed.

Lemma wp_foe_read junk password timeout Q c : mheld d None [] [] 2 c ->
  zlen (fs_name d) <= maxdata -> 0 <= password < 2 ^ 32 ->
  (Z.to_nat (zlen file + 1) < loop_fuel)%nat ->
  (forall c' p', zlen p' = zlen p -> take (Z.to_nat (zlen file)) p' = file -> Q (1, (zlen file, p')) c') ->
  wp no_fault (ecx_FOEread junk slave (fs_name d) password size p timeout) Q c.
Proof.
  intros Hw Hn Hpw Hf HQ. pose proof served_bounds as [Hb _]. unfold EC_MAXMBX in Hb.
  apply wp_bind. mh wp_mh_receive_empty with Hw. intros c1 H1.
  apply wp_bind. mh wp_mh_slave with H1. intros k. cbn [mbx_l set]. cbn [snd].
  apply wp_bind. eapply wp_foe_request; [exact H1 | done | done |]. intros c2 x H2. subst x.
  apply wp_bind. cbn [Z.ltb Z.compare].
  replace (foe_maxdata _) with maxdata by (cbn; unfold foe_maxdata; rewrite Hml, u16_id by lia; lia).
  unfold serve_foe in H2. change (ECT_FOE_READ =? ECT_FOE_WRITE) with false in H2.
  change (ECT_FOE_READ =? ECT_FOE_DATA) with false in H2. change (ECT_FOE_READ =? ECT_FOE_READ) with true in H2.
  rewrite bool_decide_eq_true_2, Hopen in H2 by done. cbn [andb negb fst snd] in H2.
  apply (wp_do_while no_fault awaiting (fun st _ => Z.to_nat (zlen file + 1 - fr_read st))) with
    (Q := fun st c => wp no_fault (do* drop_mbx (fr_in st) in ret (fr_wkc st, (fr_size st, fr_p st))) Q c).
  - intros st c' Hst. eapply wp_mono; [by apply awaiting_step|]. intros [[] st'] c''; [done|].
    cbn. intros (Hwkc & Hs & Hlen & Hfile & k' & Hin). apply wp_bind.
    eapply wp_with_in_drop; [exact Hin|]. intros c3 H3. apply wp_ret. rewrite Hwkc, Hs. by apply HQ.
  - exists 1. split; [split; cbn; try done; apply zlen_nonneg | exact H2].
  - cbn [fr_read]. lia.
Qed.
End Read.

(** C15: A file written to a slave with a file server and read back is the same file: for
    every file that fits the buffers, empty or of a whole number of packets too, every packet
    size, and however often the server is busy when a packet with data comes, [ecx_FOEwrite]
    ends with work counter 1 and leaves exactly the bytes of the file on the server, and
    [ecx_FOEread] of the same name then ends with work counter 1, the size of the file, and the
    file in the buffer.  No call faults or waits for ever.  The server is not busy when the
    write request or the empty packet at the end comes. *)
Theorem foe_write_then_read nm p psize buf size password junk timeout d :
  zget (slavelist c0) slave = Some s -> (exists now, link c0 = MailDev d None now) ->
  MbxPool.pool_wf (mbxpool c0) -> (2 <= length (MbxPool.pool_free (mbxpool c0)))%nat ->
  maxdata + 12 <= rl -> zlen nm <= maxdata -> 0 <= password < 2 ^ 32 ->
  0 <= psize <= zlen p -> psize < 2 ^ 31 - 1 -> psize <= size -> psize <= zlen buf ->
  (length (fs_busy d) + 2 * Z.to_nat psize + 1 < loop_fuel)%nat ->
  total (let* w := ecx_FOEwrite junk slave nm password psize p timeout in
         let* r := ecx_FOEread junk slave nm password size buf timeout in ret (w, r))
    (fun x _ => exists buf', x = (1, (1, (psize, buf')))
       /\ take (Z.to_nat psize) buf' = take (Z.to_nat psize) p) c0.
Proof.
  intros Hs [now Hlink] Hpool Hfree Hfit Hn Hpw Hp Hps Hsize Hbuf Hf.
  assert (Hw : mheld d None [] [] 2 c0) by (by eapply mheld_start).
  apply wp_bind. eapply (wp_foe_write nm p psize); [done | done | exact Hw | done | done | lia | done |].
  intros d' c1 H1 <- Hfile Hop.
  assert (Hz : zlen (fs_file d') = psize) by (rewrite Hfile; unfold zlen in *; rewrite length_take; lia).
  apply wp_bind. eapply (wp_foe_read d' size buf); [done | lia.. | exact H1 | done | done | lia |].
  intros c2 p' Hl Ht. apply wp_ret. exists p'. rewrite Hz in *. by rewrite Ht, Hfile.
Qed.
End Client.

(** ** A witness: two packets, the second a full one, and a server that is busy twice *)

#[local] Instance fuel_file : LoopFuel := 500%nat.
#[local] Instance file_at : MailServer file_server := foe_server 0x1001 0x1000 0x1400 116 128.
Definition file_ctx : ecx_contextt (maildev file_server) :=
  (ctx0 (MailDev (FileServer [] [] 0 false [true; false; true]) None 0)) <| mbxpool := pool_two |>.

Lemma foe_write_then_read_witness :
  total (let* w := ecx_FOEwrite 0 1 [102; 119] 0 232 (seqZ 0 232) 1000 in
         let* r := ecx_FOEread 0 1 [102; 119] 0 1000 (replicate 1000 0) 1000 in ret (w, r))
    (fun x _ => exists buf, x = (1, (1, (232, buf))) /\ take 232 buf = seqZ 0 232) file_ctx.
Proof.
  eapply wp_mono.
  - apply (foe_write_then_read 0x1001 0x1000 0x1400 116 128 1 slave0 file_ctx)
      with (d := FileServer [] [] 0 false [true; false; true]);
      [done | split_and!; done | done | apply Nat.ltb_lt; reflexivity | done | done | done | done | done
       | by exists 0 | exact pool_two_wf | apply Nat.leb_le; reflexivity | done | done | done | done
       | done | done | done | apply Nat.ltb_lt; reflexivity].
  - intros x c Hx. exact Hx.
Defined.
