(* ===== verification/SdoServer.v ===== *)
(** * An object dictionary behind a mailbox

    The mailboxes of the SDO protocol, and a slave that serves its dictionary with it:
    expedited, in one mailbox and in segments, as CiA 301 and ETG.1000.6 describe it. *)

From stdpp Require Import gmap.
From S2P Require Import Prelude Types Osal ErrorRing Mailbox Context AlState MbxHandler MbxClient CoE.
From S2P Require Import PoolSpec LinkSpec MbxSim MbxHeld.
Import stdpp.list_relations.list stdpp.list_basics.list.

(** ** The mailboxes of the protocol *)

(** Header, service and command; then the data, or the object and the data. *)
Definition coe_head (len cnt service cmd : Z) : list Z :=
  mbx_header len ECT_MBXT_COE cnt ++ le_bytes 2 (coe_service service) ++ [cmd].
Definition sdo_object (index sub : Z) : list Z := le_bytes 2 index ++ [sub].

Lemma coe_head_length len cnt service cmd : zlen (coe_head len cnt service cmd) = 9.
Proof. done. Qed.
Lemma sdo_header_head len cnt cmd index sub : 0 <= sub < 256 -> 0 <= cmd < 256 ->
  sdo_header len cnt cmd index sub = coe_head len cnt ECT_COES_SDOREQ cmd ++ sdo_object index sub.
Proof.
  intros Hs Hc. unfold sdo_header, coe_head, sdo_object. rewrite !u8_id by lia. by rewrite <- !app_assoc.
Qed.

(** A piece of a mailbox behind its beginning. *)
Lemma zslice_at (h data r : list Z) off n : off = zlen h -> n = zlen data ->
  zslice (h ++ data ++ r) off n = Some data.
Proof.
  intros -> ->. pose proof (zlen_nonneg h). pose proof (zlen_nonneg data). pose proof (zlen_nonneg r).
  rewrite zslice_some by (rewrite ?zlen_app; lia). unfold zlen. rewrite !Nat2Z.id.
  by rewrite drop_app_length, take_app_length.
Qed.
Lemma field_u32_at (h r : list Z) v off : off = zlen h -> 0 <= v < 2 ^ 32 ->
  field_u32 (h ++ le_bytes 4 v ++ r) off = Some v.
Proof.
  intros Ho Hv. unfold field_u32. rewrite zslice_at; [|done|done]. cbn [mbind option_bind].
  f_equal. rewrite of_le_le_bytes. by apply Z.mod_small.
Qed.

Lemma coe_head_fields len cnt service cmd x :
  0 <= len < 65536 -> 0 <= cnt < 8 -> 0 <= service < 16 ->
  let m := coe_head len cnt service cmd ++ x in
  field_u16 m 0 = Some len /\ field_u8 m SDO_Command = Some cmd
  /\ (exists ty, field_u8 m MBXH_mbxtype = Some ty /\ Z.land ty 0x0f = ECT_MBXT_COE)
  /\ (exists w, field_u16 m SDO_CANOpen = Some w /\ Z.shiftr w 12 = service).
Proof.
  intros Hl Hc Hs m. split_and!.
  - unfold m, coe_head, mbx_header. rewrite <- !app_assoc. by apply (field_u16_at []).
  - reflexivity.
  - exists (u8 (ECT_MBXT_COE + MBX_HDR_SET_CNT cnt)). split; [reflexivity|]. by apply mbxtype_proto.
  - exists (coe_service service). unfold coe_service. split.
    + unfold m, coe_head. rewrite <- !app_assoc. apply (field_u16_at (mbx_header len ECT_MBXT_COE cnt)); [done|].
      rewrite Z.shiftl_mul_pow2 by done. lia.
    + rewrite Z.shiftl_mul_pow2, Z.shiftr_div_pow2 by done. by rewrite Z.div_mul.
Qed.

Lemma sdo_object_fields len cnt service cmd index sub x : 0 <= index < 65536 ->
  let m := coe_head len cnt service cmd ++ sdo_object index sub ++ x in
  field_u16 m SDO_Index = Some index /\ field_u8 m SDO_SubIndex = Some sub.
Proof.
  intros Hi m. split; [|reflexivity]. unfold m, sdo_object. rewrite <- !app_assoc.
  by apply (field_u16_at (coe_head len cnt service cmd)).
Qed.

(** ** Commands of segments and of short transfers *)

Lemma land_toggle_cases t : t = 0 \/ t = 16 -> Z.lxor t 0x10 = 16 - t.
Proof. by intros [-> | ->]. Qed.

(** A segment: toggle bit, unused bytes of seven, last. *)
Lemma segment_bits t u (b : bool) : t = 0 \/ t = 16 -> 0 <= u < 8 ->
  let cmd := t + 2 * u + b2z b in
  Z.land cmd 0xe0 = 0 /\ Z.land cmd 0x10 = t /\ Z.land cmd 0x01 = b2z b
  /\ Z.shiftr (Z.land cmd 0x0e) 1 = u /\ 0 <= cmd < 256.
Proof.
  intros Ht Hu cmd. assert (u = 0 \/ u = 1 \/ u = 2 \/ u = 3 \/ u = 4 \/ u = 5 \/ u = 6 \/ u = 7) as Hcases by lia.
  unfold cmd. destruct Ht as [-> | ->]; destruct b; decompose [or] Hcases; subst u; done.
Qed.
(** An expedited transfer of [n] bytes. *)
Lemma expedited_bits c n : c = 0x40 \/ c = 0x20 -> 1 <= n <= 4 ->
  let cmd := c + 3 + 4 * (4 - n) in
  Z.land cmd 0xe0 = c /\ Z.land cmd 0x02 = 2 /\ 4 - Z.land (Z.shiftr cmd 2) 0x03 = n
  /\ 0 <= cmd < 256.
Proof.
  intros Hc Hn cmd. assert (n = 1 \/ n = 2 \/ n = 3 \/ n = 4) as Hcases by lia.
  unfold cmd. destruct Hc as [-> | ->]; decompose [or] Hcases; subst n; done.
Qed.

(** ** The server *)

(** An object: complete access, index, subindex. *)
Abbreviation object := (bool * Z * Z)%type.

(** The dictionary; the rest of the object being read; the object being written with its size
    and what has come of it; the toggle bit of the segments. *)
Record sdo_server : Type := SdoServer {
  sv_objects : gmap object (list Z);
  sv_up : list Z;
  sv_down : option (object * Z * list Z);
  sv_toggle : Z;
}.

Section Server.
Context (adr wo ro rl : Z).

Definition pad (m : list Z) : list Z := m ++ replicate (Z.to_nat (rl - zlen m)) 0.

(** Answers about an object, with its data, and answers to segments. *)
Definition object_answer (len cmd : Z) (index sub : Z) (data : list Z) : list Z :=
  pad (coe_head len 1 ECT_COES_SDORES cmd ++ sdo_object index sub ++ data).
Definition segment_answer (cmd : Z) (data : list Z) : list Z :=
  pad (coe_head (3 + zlen data) 1 ECT_COES_SDORES cmd ++ data).
Definition sdo_abort (index sub code : Z) : list Z :=
  object_answer 10 ECT_SDO_ABORT index sub (le_bytes 4 code).

(** The bytes of a short last segment that are not data. *)
Definition unused_bytes (last : bool) (n : Z) : Z := if last && (n <? 7) then 7 - n else 0.
Definition zeros (n : Z) : list Z := replicate (Z.to_nat n) 0.

Definition serve_upload (d : sdo_server) (cmd index sub : Z) : sdo_server * option (list Z) :=
  match sv_objects d !! (negb (Z.land cmd 0x10 =? 0), index, sub) with
  | None => (d, Some (sdo_abort index sub 0x06020000))
  | Some x =>
      let n := zlen x in
      if (0 <? n) && (n <=? 4) then
        (d, Some (object_answer 10 (0x40 + 3 + 4 * (4 - n)) index sub (x ++ zeros (4 - n))))
      else
        let first := take (Z.to_nat (rl - 16)) x in
        (d <| sv_up := drop (Z.to_nat (rl - 16)) x |> <| sv_toggle := 0 |>,
         Some (object_answer (10 + zlen first) 0x41 index sub (le_bytes 4 n ++ first)))
  end.

Definition serve_upload_segment (d : sdo_server) (cmd index sub : Z) : sdo_server * option (list Z) :=
  if Z.land cmd 0x10 =? sv_toggle d then
    let seg := take (Z.to_nat (rl - 9)) (sv_up d) in
    let last := zlen (sv_up d) <=? rl - 9 in
    let u := unused_bytes last (zlen seg) in
    (d <| sv_up := drop (Z.to_nat (rl - 9)) (sv_up d) |> <| sv_toggle := 0x10 - sv_toggle d |>,
     Some (segment_answer (sv_toggle d + 2 * u + b2z last) (seg ++ zeros u)))
  else (d, Some (sdo_abort index sub 0x05030000)).

(** All of an object has come, or not yet. *)
Definition store (d : sdo_server) (obj : object) (n : Z) (x : list Z) : sdo_server :=
  if zlen x =? n then d <| sv_objects ::= insert obj x |> <| sv_down := None |>
  else d <| sv_down := Some (obj, n, x) |>.

Definition serve_download (d : sdo_server) (cmd index sub len : Z) (m : list Z)
    : option (sdo_server * option (list Z)) :=
  let obj := (negb (Z.land cmd 0x10 =? 0), index, sub) in
  let ok := object_answer 10 0x60 index sub (zeros 4) in
  match sv_objects d !! obj with
  | None => Some (d, Some (sdo_abort index sub 0x06020000))
  | Some _ =>
      if 0 <? Z.land cmd 0x02 then
        let n := 4 - Z.land (Z.shiftr cmd 2) 0x03 in
        x ← zslice m SDO_data n; Some (store d obj n x, Some ok)
      else
        n ← field_u32 m SDO_data;
        x ← zslice m (SDO_data + 4) (len - 10);
        Some ((store d obj n x) <| sv_toggle := 0 |>, Some ok)
  end.

Definition serve_download_segment (d : sdo_server) (cmd len : Z) (m : list Z)
    : option (sdo_server * option (list Z)) :=
  match sv_down d with
  | Some (obj, n, got) =>
      if Z.land cmd 0x10 =? sv_toggle d then
        let unused := if (len - 3 =? 7) && (Z.land cmd 0x01 =? 1) then Z.shiftr (Z.land cmd 0x0e) 1 else 0 in
        x ← zslice m SDO_Index (len - 3 - unused);
        Some ((store d obj n (got ++ x)) <| sv_toggle := 0x10 - sv_toggle d |>,
              Some (segment_answer (0x20 + sv_toggle d) (zeros 7)))
      else Some (d, Some (sdo_abort obj.1.2 obj.2 0x05030000))
  | None => Some (d, Some (sdo_abort 0 0 0x05040001))
  end.

Definition sdo_serve (d : sdo_server) (m : list Z) : sdo_server * option (list Z) :=
  default (d, None)
    (len ← field_u16 m 0;
     cmd ← field_u8 m SDO_Command;
     index ← field_u16 m SDO_Index;
     sub ← field_u8 m SDO_SubIndex;
     let op := Z.land cmd 0xe0 in
     if op =? 0x40 then Some (serve_upload d cmd index sub)
     else if op =? 0x60 then Some (serve_upload_segment d cmd index sub)
     else if op =? 0x20 then serve_download d cmd index sub len m
     else if op =? 0x00 then serve_download_segment d cmd len m
     else None).

Definition sdo_slave : MailServer sdo_server :=
  {| ms_adr := adr; ms_wo := wo; ms_ro := ro; serve := sdo_serve |}.

(** ** Its answers *)

Lemma zlen_zeros n : 0 <= n -> zlen (zeros n) = n.
Proof. intros Hn. unfold zeros, zlen. rewrite length_replicate. lia. Qed.
Lemma zlen_pad m : zlen m <= rl -> zlen (pad m) = rl.
Proof. intros Hm. unfold pad. rewrite zlen_app. unfold zlen at 2. rewrite length_replicate. lia. Qed.

Lemma coe_plain (s : ec_slavet) len cmd x : mbx_rl s = rl -> 9 + zlen x <= rl -> 0 <= len < 65536 ->
  plain_answer s (pad (coe_head len 1 ECT_COES_SDORES cmd ++ x)).
Proof.
  intros Hs Hx Hl. split; [rewrite zlen_pad; rewrite ?zlen_app, ?coe_head_length; lia|].
  unfold pad. rewrite <- app_assoc. set (y := x ++ _).
  destruct (coe_head_fields len 1 ECT_COES_SDORES cmd y) as (_ & _ & (ty & Hty & Hp) & w & Hw & Hsv); [done..|].
  exists ty. rewrite Hp. split_and!; [done | done | | done].
  intros _. exists w. split; [exact Hw|]. by rewrite Hsv.
Qed.
End Server.
