(* ===== verification/SdoTheorems.v ===== *)
(** * Objects through a mailbox

    What [ecx_SDOread] brings back from a slave that serves its dictionary, and what
    [ecx_SDOwrite] leaves there. *)

From stdpp Require Import gmap.
From S2P Require Import Prelude Types Osal ErrorRing Mailbox Context AlState MbxHandler MbxClient CoE.
From S2P Require Import PoolSpec LinkSpec EepromSim MbxSim MbxHeld SdoServer.
Import stdpp.list_relations.list stdpp.list_basics.list.

Lemma field_u16_some m off : 0 <= off -> off + 2 <= zlen m -> exists v, field_u16 m off = Some v.
Proof.
  intros Ho Hl. destruct (zget_some m off) as [b0 H0]; [lia|]. destruct (zget_some m (off + 1)) as [b1 H1]; [lia|].
  unfold field_u16, field_u8. rewrite H0, H1. by eexists.
Qed.

(** The server takes a request apart. *)
Lemma sdo_serve_request rl d len cnt cmd x :
  0 <= len < 65536 -> 0 <= cnt < 8 -> 3 <= zlen x ->
  exists index sub, let m := coe_head len cnt ECT_COES_SDOREQ cmd ++ x in
  field_u16 m SDO_Index = Some index /\ field_u8 m SDO_SubIndex = Some sub /\
  sdo_serve rl d m = default (d, None)
    (let op := Z.land cmd 0xe0 in
     if op =? 0x40 then Some (serve_upload rl d cmd index sub)
     else if op =? 0x60 then Some (serve_upload_segment rl d cmd index sub)
     else if op =? 0x20 then serve_download rl d cmd index sub len m
     else if op =? 0x00 then serve_download_segment rl d cmd len m
     else None).
Proof.
  intros Hl Hc Hx. set (m := coe_head _ _ _ _ ++ x).
  assert (Hm : 12 <= zlen m) by (unfold m; rewrite zlen_app, coe_head_length; lia).
  destruct (field_u16_some m SDO_Index) as [index Hi]; [done | unfold SDO_Index; lia|].
  destruct (zget_some m SDO_SubIndex) as [sub Hs]; [unfold SDO_SubIndex; lia|].
  exists index, sub. fold (field_u8 m SDO_SubIndex) in Hs. split; [exact Hi|]. split; [exact Hs|].
  destruct (coe_head_fields len cnt ECT_COES_SDOREQ cmd x) as (H0 & H1 & _); [done..|]. fold m in H0, H1.
  unfold sdo_serve. by rewrite H0, H1, Hi, Hs.
Qed.

(** What is read of an answer about an object. *)
Lemma object_answer_eq rl len cmd index sub data : exists r,
  object_answer rl len cmd index sub data = coe_head len 1 ECT_COES_SDORES cmd ++ sdo_object index sub ++ data ++ r.
Proof. eexists. unfold object_answer, pad. by rewrite <- !app_assoc. Qed.

Section Client.
Context (adr wo ro rl : Z) `{LoopFuel}.
#[local] Instance the_slave : MailServer sdo_server := sdo_slave adr wo ro rl.
Abbreviation ctx := (ecx_contextt (maildev sdo_server)).
Context (slave : Z) (s : ec_slavet) (c0 : ctx).
Context (Hslave : 0 <= slave < zlen (slavelist c0)) (Hserved : served s)
        (Hhook : EOEhook c0 = None) (Hfuel : (0 < loop_fuel)%nat).
Context (Hml : 16 <= mbx_l s) (Hrl : mbx_rl s = rl) (Hrl16 : 16 <= rl).
Abbreviation mheld := (mheld slave s c0).
#[local] Set Default Proof Using "Hslave Hserved Hhook Hfuel Hml Hrl Hrl16".

Lemma sdo_bounds : 16 <= mbx_l s <= 1486 /\ 16 <= rl <= 1486.
Proof. destruct Hserved as (_ & _ & _ & _ & _ & ? & ? & _). unfold EC_MAXMBX in *. lia. Qed.

Lemma mheld_server d o own kept n c : mheld d o own kept n c -> md_state (link c) = d.
Proof. by intros (? & ? & ? & (? & ? & ? & -> & _) & _). Qed.

(** The answer is an SDO response. *)
Lemma wp_is_sdo_response d o i len cmd x own kept n Q c : mheld d o own kept n c ->
  (i, coe_head len 1 ECT_COES_SDORES cmd ++ x) ∈ own ++ kept -> 0 <= len < 65536 ->
  Q true c -> wp no_fault (is_sdo_response i) Q c.
Proof.
  intros Hw Hi Hl HQ.
  destruct (coe_head_fields len 1 ECT_COES_SDORES cmd x) as (_ & _ & (ty & Hty & Hp) & w & Hcan & Hsv); [done..|].
  apply wp_bind. mh wp_mh_u8 with Hw; [exact Hi | exact Hty|].
  apply wp_bind. mh wp_mh_u16 with Hw; [exact Hi | exact Hcan|]. apply wp_ret. by rewrite Hp, Hsv.
Qed.

(** ** Upload *)

Section Upload.
Context (index sub : Z) (p val : list Z) (objs : gmap object (list Z)).
Context (Hindex : 0 <= index < 65536) (Hsub : 0 <= sub < 256).
Context (Hx : zlen val <= zlen p) (Hx31 : zlen val < 2 ^ 31).
#[local] Set Default Proof Using "Hslave Hserved Hhook Hfuel Hml Hrl Hrl16 Hindex Hsub Hx Hx31".

(** The beginning of the object is in the buffer, the rest still with the server. *)
Record uploading (d : sdo_server) (r : Z * Z * sdo_state) : Prop := Uploading {
  up_wkc : so_wkc r.2 = 1;
  up_toggle : r.1.1 = sv_toggle d;
  up_bit : r.1.1 = 0 \/ r.1.1 = 16;
  up_size : so_size r.2 = r.1.2;
  up_pos : 0 <= r.1.2 <= zlen val;
  up_rest : sv_up d = drop (Z.to_nat r.1.2) val;
  up_len : zlen (so_p r.2) = zlen p;
  up_data : take (Z.to_nat r.1.2) (so_p r.2) = take (Z.to_nat r.1.2) val;
  up_objects : sv_objects d = objs;
}.
Definition uploads (r : Z * Z * sdo_state) (c : ctx) : Prop := exists d i bs,
  mheld d None [(i, bs)] [] 1 c /\ so_in r.2 = Some i /\ uploading d r.
Definition uploaded (st : sdo_state) (c : ctx) : Prop := exists d i bs,
  mheld d None [(i, bs)] [] 1 c /\ so_in st = Some i /\ so_wkc st = 1 /\ so_size st = zlen val
  /\ zlen (so_p st) = zlen p /\ take (Z.to_nat (zlen val)) (so_p st) = val /\ sv_objects d = objs.

(** The next segment of the server. *)
Definition segment (d : sdo_server) : list Z := take (Z.to_nat (rl - 9)) (sv_up d).
Definition is_last (d : sdo_server) : bool := zlen (sv_up d) <=? rl - 9.
Definition segment_mail (d : sdo_server) : list Z :=
  let u := unused_bytes (is_last d) (zlen (segment d)) in
  segment_answer rl (sv_toggle d + 2 * u + b2z (is_last d)) (segment d ++ zeros u).
Definition after_segment (d : sdo_server) : sdo_server :=
  d <| sv_up := drop (Z.to_nat (rl - 9)) (sv_up d) |> <| sv_toggle := 0x10 - sv_toggle d |>.

Lemma unused_range last n : 0 <= n -> 0 <= unused_bytes last n < 8.
Proof. intros Hn. unfold unused_bytes. destruct last, (Z.ltb_spec n 7); cbn; lia. Qed.

Lemma segment_size d r : uploading d r ->
  zlen (sv_up d) = zlen val - r.1.2
  /\ zlen (segment d) = Z.min (rl - 9) (zlen val - r.1.2)
  /\ segment d = take (Z.to_nat (zlen (segment d))) (drop (Z.to_nat r.1.2) val).
Proof.
  intros [_ _ _ _ Hpos Hrest _ _ _].
  assert (Hup : zlen (sv_up d) = zlen val - r.1.2) by (rewrite Hrest; unfold zlen in *; rewrite length_drop; lia).
  assert (Hz : zlen (segment d) = Z.min (rl - 9) (zlen val - r.1.2)).
  { rewrite <- Hup. unfold segment, zlen. rewrite length_take. lia. }
  split_and!; [done..|]. rewrite <- Hrest. unfold segment at 1. rewrite Hz, <- Hup.
  destruct (Z.le_gt_cases (rl - 9) (zlen (sv_up d))); [f_equal; lia|].
  rewrite !take_ge by (unfold zlen in *; lia). done.
Qed.

Lemma wp_segment_answer d r i Q c : uploading d r ->
  mheld (after_segment d) None [(i, segment_mail d)] [] 1 c -> so_in r.2 = Some i ->
  (forall p', let hp := r.1.2 + zlen (segment d) in
     zlen p' = zlen p -> take (Z.to_nat hp) p' = take (Z.to_nat hp) val ->
     Q (negb (is_last d), (if is_last d then r.1.2 else hp, r.2 <| so_p := p' |> <| so_size := hp |>)) c) ->
  wp no_fault (sdo_segment_answer slave index sub r.1.2 r.2) Q c.
Proof.
  intros Hup Hw Hin HQ. destruct (segment_size d r Hup) as (Hrest & Hz & Hseg).
  pose proof Hup as [_ Ht Hbit Hsize Hpos _ Hlen Hdata _]. pose proof sdo_bounds as [_ Hb].
  set (u := unused_bytes (is_last d) (zlen (segment d))). pose proof (zlen_nonneg (segment d)) as Hnn.
  pose proof (unused_range (is_last d) (zlen (segment d)) Hnn) as Hu. fold u in Hu.
  assert (Hlz : zlen (segment d ++ zeros u) = zlen (segment d) + u) by (rewrite zlen_app, zlen_zeros; lia).
  destruct (segment_bits (sv_toggle d) u (is_last d)) as (Hc0 & _ & Hc1 & Hce & _); [by rewrite <- Ht | done|].
  unfold segment_mail in Hw. fold u in Hw. unfold segment_answer, pad in Hw. rewrite <- app_assoc in Hw.
  set (cmd := _ + b2z (is_last d)) in *. set (pd := replicate _ _) in *. clearbody pd.
  destruct (coe_head_fields (3 + zlen (segment d ++ zeros u)) 1 ECT_COES_SDORES cmd ((segment d ++ zeros u) ++ pd))
    as (H0 & Hcmd & _); [lia | done | done|].
  assert (Hbytes : zslice (coe_head (3 + zlen (segment d ++ zeros u)) 1 ECT_COES_SDORES cmd
      ++ (segment d ++ zeros u) ++ pd) SDO_Index (zlen (segment d)) = Some (segment d)).
  { rewrite <- app_assoc. by apply zslice_at. }
  set (m := coe_head _ _ _ _ ++ _) in *.
  unfold sdo_segment_answer. rewrite Hin. apply wp_bind, wp_ret.
  apply wp_bind. eapply wp_is_sdo_response; [exact Hw | apply list_elem_of_here | lia|].
  apply wp_bind. mh wp_mh_u8 with Hw; [apply list_elem_of_here | exact Hcmd|].
  rewrite Hc0. cbn [andb Z.eqb]. apply wp_bind. mh wp_mh_u16 with Hw; [apply list_elem_of_here | exact H0|].
  cbn zeta. rewrite Hc1, Hce, Hlz. rewrite (u16_id (3 + _ - 3)) by lia.
  replace (3 + (zlen (segment d) + u) - 3) with (zlen (segment d) + u) by lia.
  assert (exists p', zblit (so_p r.2) r.1.2 (segment d) = Some p') as [p' Hbl].
  { eexists. apply zblit_some; lia. }
  pose proof Hbl as Hbl'. rewrite Hseg in Hbl'. apply take_blit in Hbl' as [Hl' Ht']; [|lia..|exact Hdata].
  specialize (HQ p' ltac:(congruence) Ht'). cbn zeta in HQ. rename Hw into Hmail. clear Hseg H0 Hcmd Hdata Ht' Hc0 Hc1 Hce.
  assert (Hsz : s32 (so_size r.2 + zlen (segment d)) = r.1.2 + zlen (segment d))
    by (rewrite Hsize; apply s32_id; lia).
  destruct (is_last d); cbn [b2z Z.ltb Z.compare negb] in *.
  - replace (if zlen (segment d) + u =? 7 then _ else _) with (zlen (segment d)).
    2: { unfold u, unused_bytes. cbn [andb]. destruct (Z.ltb_spec (zlen (segment d)) 7).
         - destruct (Z.eqb_spec (zlen (segment d) + (7 - zlen (segment d))) 7); [rewrite u16_id|]; lia.
         - destruct (Z.eqb_spec (zlen (segment d) + 0) 7); [rewrite u16_id|]; lia. }
    apply wp_bind. mh wp_mh_bytes with Hmail; [apply list_elem_of_here | exact Hbytes|].
    apply wp_bind. eapply wp_of_opt; [exact Hbl|]. apply wp_ret. cbn. by rewrite Hsz.
  - replace (zlen (segment d) + u) with (zlen (segment d)) by (unfold u, unused_bytes; cbn; lia).
    apply wp_bind. mh wp_mh_bytes with Hmail; [apply list_elem_of_here | exact Hbytes|].
    apply wp_bind. eapply wp_of_opt; [exact Hbl|]. apply wp_ret. cbn. by rewrite Hsz.
Qed.

(** The server answers the request for a segment. *)
Lemma serve_segment_request d r cnt rest : uploading d r -> 0 <= cnt < 8 ->
  sdo_serve rl d ((sdo_header 0x000a cnt (ECT_SDO_SEG_UP_REQ + r.1.1) index sub ++ le_bytes 4 0) ++ rest)
  = (after_segment d, Some (segment_mail d)).
Proof.
  intros [_ Ht Hbit _ _ _ _ _ _] Hcnt.
  rewrite sdo_header_head by (unfold ECT_SDO_SEG_UP_REQ; lia). rewrite <- !app_assoc.
  set (y := sdo_object index sub ++ _ ++ rest). assert (3 <= zlen y).
  { unfold y. rewrite !zlen_app. pose proof (zlen_nonneg rest). change (zlen (sdo_object index sub)) with 3.
    change (zlen (le_bytes 4 0)) with 4. lia. }
  destruct (sdo_serve_request rl d 0x000a cnt (ECT_SDO_SEG_UP_REQ + r.1.1) y) as (i' & s' & _ & _ & Hs);
    [lia | done | done|]. rewrite Hs.
  unfold serve_upload_segment. rewrite <- Ht. unfold ECT_SDO_SEG_UP_REQ.
  assert (Z.land (0x60 + r.1.1) 0xe0 = 0x60 /\ Z.land (0x60 + r.1.1) 0x10 = r.1.1) as [-> ->]
    by (destruct Hbit as [-> | ->]; done).
  rewrite !Z.eqb_refl. cbn [Z.eqb default]. unfold after_segment, segment_mail. by rewrite <- Ht.
Qed.

Lemma uploads_step junk timeout r c : uploads r c ->
  wp no_fault (sdo_segment junk slave index sub timeout r)
    (fun a c' => if a.1 : bool then uploads a.2 c'
                 /\ (length (sv_up (md_state (link c'))) < length (sv_up (md_state (link c))))%nat
               else uploaded a.2.2 c') c.
Proof.
  intros (d & i & bs & Hw & Hin & Hup). rewrite (mheld_server _ _ _ _ _ _ Hw).
  destruct (segment_size d r Hup) as (Hrest & Hz & _). pose proof (zlen_nonneg (segment d)) as Hnn.
  pose proof Hup as [Hwkc Ht Hbit Hsize Hpos Hsv Hlen Hdata Hobjs]. pose proof sdo_bounds as [Hbm Hb].
  destruct r as [[toggle hp] st]. cbn [fst snd] in *.
  apply wp_bind. mh wp_mh_getmbx with Hw. intros out c1 H1.
  apply wp_bind. mh wp_mh_mbxcnt with H1. intros cnt c2 Hcnt H2.
  apply wp_bind. mh wp_mh_write with H2; [done | done |]. intros c3 H3.
  rewrite app_nil_l in H3. set (req := sdo_header _ _ _ _ _ ++ _) in *. assert (Hreq : zlen req = 16) by done.
  apply wp_bind. mh wp_mh_send with H3; [lia|]. intros rest c4 _ x H4. subst x.
  cbn [serve the_slave sdo_slave] in H4. unfold req in H4.
  pose proof (serve_segment_request d (toggle, hp, st) cnt rest Hup Hcnt) as Hs. cbn [fst snd] in Hs.
  rewrite Hs in H4. cbn [fst snd] in H4.
  assert (H4' : mheld (after_segment d) (Some (segment_mail d)) [(i, bs)] [] 1 c4)
    by (eapply mheld_forget; [done..| | | exact H4]; [cbn; lia | apply NoDup_singleton]).
  cbn [Z.ltb Z.compare]. apply wp_bind, wp_bind. cbn [so_in set]. cbn. rewrite Hin.
  mh wp_mh_drop with H4'. intros c5 H5.
  apply wp_bind. mh wp_mh_receive with H5.
  { pose proof (unused_range (is_last d) (zlen (segment d)) Hnn).
    unfold segment_mail. apply coe_plain; [done | |]; rewrite zlen_app, zlen_zeros by lia;
    unfold unused_bytes in *; destruct (is_last d), (Z.ltb_spec (zlen (segment d)) 7); cbn [andb]; lia. }
  intros i' c6 H6. cbn [fst snd Z.ltb Z.compare].
  eapply (wp_segment_answer d (toggle, hp, SdoState 1 (Some i') (so_size st) (so_p st))); [by split | exact H6 | done|].
  intros p' hp' Hl' Ht'. apply wp_ret. cbn [fst snd] in *. unfold is_last in *. rewrite Hrest in *.
  destruct (Z.leb_spec (zlen val - hp) (rl - 9)); cbn [negb fst snd].
  - assert (hp' = zlen val) as Heq by (unfold hp'; lia). rewrite Heq in *.
    eexists _, i', _. split; [exact H6|]. cbn. split_and!; try done.
    { rewrite Ht'. apply take_ge. unfold zlen. lia. }
  - split.
    + eexists _, i', _. split; [exact H6|]. split; [done|]. split; cbn; try done; try (unfold hp'; lia).
      * rewrite <- Ht. by destruct Hbit as [-> | ->].
      * by destruct Hbit as [-> | ->]; [right | left].
      * rewrite Hsv, drop_drop. f_equal. unfold hp'. lia.
    + rewrite (mheld_server _ _ _ _ _ _ H6). cbn. rewrite length_drop. unfold zlen in *. lia.
Qed.

(** The first answer: the object, or its size and beginning. *)
Definition normal_first : list Z := take (Z.to_nat (rl - 16)) val.
Definition upload_mail : list Z :=
  let n := zlen val in
  if (0 <? n) && (n <=? 4) then object_answer rl 10 (0x40 + 3 + 4 * (4 - n)) index sub (val ++ zeros (4 - n))
  else object_answer rl (10 + zlen normal_first) 0x41 index sub (le_bytes 4 n ++ normal_first).

Lemma wp_sdo_expedited d i st kept n Q c :
  mheld d None [(i, upload_mail)] kept n c -> 1 <= zlen val <= 4 ->
  zlen val <= so_size st -> so_p st = p ->
  (forall p', zlen p' = zlen p -> take (Z.to_nat (zlen val)) p' = val ->
     Q (st <| so_p := p' |> <| so_size := zlen val |>) c) ->
  wp no_fault (sdo_expedited slave index sub i (0x40 + 3 + 4 * (4 - zlen val)) st) Q c.
Proof.
  intros Hw Hn Hsz Hp HQ. destruct (expedited_bits 0x40 (zlen val)) as (_ & _ & Hcount & _); [by left | lia|].
  unfold upload_mail in Hw. replace ((0 <? zlen val) && (zlen val <=? 4)) with true in Hw by lia.
  destruct (object_answer_eq rl 10 (0x40 + 3 + 4 * (4 - zlen val)) index sub (val ++ zeros (4 - zlen val))) as [r Hr].
  rewrite Hr in Hw. unfold sdo_expedited. rewrite Hcount, u16_id by lia. cbn zeta.
  destruct (Z.leb_spec (zlen val) (so_size st)); [|lia].
  assert (Hsl : zslice (coe_head 10 1 ECT_COES_SDORES (0x40 + 3 + 4 * (4 - zlen val)) ++ sdo_object index sub
      ++ (val ++ zeros (4 - zlen val)) ++ r) SDO_data (zlen val) = Some val).
  { rewrite <- (app_assoc val), (app_assoc (coe_head _ _ _ _)). by apply zslice_at. }
  apply wp_bind. mh wp_mh_bytes with Hw; [apply list_elem_of_here | exact Hsl|].
  pose proof (zblit_head p val Hx) as Hz. apply zblit_length in Hz as Hl.
  apply wp_bind. eapply wp_of_opt; [by rewrite Hp|]. apply wp_ret, HQ; [done|].
  unfold zlen. rewrite Nat2Z.id. by rewrite take_app_length.
Qed.

Lemma wp_sdo_normal junk timeout d i out req psize Q c :
  sv_toggle d = 0 -> sv_up d = drop (Z.to_nat (rl - 16)) val -> sv_objects d = objs ->
  mheld d None [(i, upload_mail)] [(out, req)] 0 c -> ~ 1 <= zlen val <= 4 -> zlen val <= psize ->
  (length val < loop_fuel)%nat ->
  (forall st c', uploaded st c' -> Q st c') ->
  wp no_fault (sdo_normal junk slave index sub timeout i (SdoState 1 (Some i) psize p)) Q c.
Proof.
  intros Htog Hrest Hobjs Hw Hn Hps Hf HQ. pose proof (zlen_nonneg val) as Hv. pose proof sdo_bounds as [_ Hb].
  assert (Hfz : zlen normal_first = Z.min (rl - 16) (zlen val)) by (unfold normal_first, zlen; rewrite length_take; lia).
  pose proof Hw as Hm. unfold upload_mail in Hm. replace ((0 <? zlen val) && (zlen val <=? 4)) with false in Hm by lia.
  destruct (object_answer_eq rl (10 + zlen normal_first) 0x41 index sub (le_bytes 4 (zlen val) ++ normal_first)) as [r Hr].
  rewrite Hr in Hm. set (m := coe_head _ _ _ _ ++ _) in Hm.
  destruct (coe_head_fields (10 + zlen normal_first) 1 ECT_COES_SDORES 0x41 (sdo_object index sub ++ (le_bytes 4 (zlen val) ++ normal_first) ++ r))
    as (H0 & _); [lia | done | done|]. fold m in H0.
  assert (Hlen : field_u32 m SDO_data = Some (zlen val)).
  { unfold m. rewrite <- (app_assoc (le_bytes 4 _)), (app_assoc (coe_head _ _ _ _)). apply field_u32_at; [done | lia]. }
  assert (Hfirst : zslice m (SDO_data + 4) (zlen normal_first) = Some normal_first).
  { unfold m. rewrite <- (app_assoc (le_bytes 4 _)), (app_assoc (coe_head _ _ _ _)), (app_assoc (_ ++ _) (le_bytes 4 _)).
    by apply zslice_at. }
  assert (Hbl : zblit p 0 normal_first = Some (normal_first ++ drop (length normal_first) p)) by (apply zblit_head; lia).
  apply zblit_length in Hbl as Hl.
  unfold sdo_normal. apply wp_bind. mh wp_mh_u32 with Hm; [apply list_elem_of_here | exact Hlen|].
  cbn zeta. rewrite s32_id by lia. cbn [so_size]. destruct (Z.leb_spec (zlen val) psize); [|lia].
  apply wp_bind. mh wp_mh_u16 with Hm; [apply list_elem_of_here | exact H0|].
  replace (10 + zlen normal_first - 10) with (zlen normal_first) by lia. rewrite (u16_id (zlen normal_first)) by lia.
  assert (Hm1 : mheld d None [(i, upload_mail)] [] 1 c)
    by (eapply mheld_forget; [done..| | | exact Hw]; [cbn; lia | apply NoDup_singleton]).
  destruct (Z.ltb_spec (zlen normal_first) (zlen val)).
  - apply wp_bind. mh wp_mh_bytes with Hm; [apply list_elem_of_here | exact Hfirst|].
    apply wp_bind. eapply wp_of_opt; [exact Hbl|]. apply wp_bind.
    apply (wp_do_while no_fault uploads (fun _ c => length (sv_up (md_state (link c))))) with
      (Q := fun r c => wp no_fault (ret r.2) Q c).
    + intros a c' Ha. eapply wp_mono; [by apply uploads_step|]. intros [[] b] c''; [done|].
      cbn. intros Hb'. by apply wp_ret, HQ.
    + exists d, i, upload_mail. split; [exact Hm1|]. split; [done|]. split; cbn; try done; try lia.
      * rewrite Hrest. f_equal. lia.
      * unfold zlen at 1. rewrite Nat2Z.id, take_app_length. unfold normal_first at 1. f_equal. lia.
    + rewrite (mheld_server _ _ _ _ _ _ Hm1), Hrest, length_drop. lia.
  - assert (Hall : normal_first = val) by (apply take_ge; unfold zlen in *; lia). rewrite Hall in *.
    apply wp_bind. mh wp_mh_bytes with Hm; [apply list_elem_of_here | exact Hfirst|].
    apply wp_bind. eapply wp_of_opt; [exact Hbl|]. apply wp_ret, HQ.
    exists d, i, upload_mail. split; [exact Hm1|]. cbn. split_and!; try done.
    unfold zlen. rewrite Nat2Z.id. by rewrite take_app_length.
Qed.

(** The request for the object, and how the server answers it. *)
Definition ca_bit (CA : bool) : Z := if CA then 0x10 else 0.
Lemma serve_upload_request d (CA : bool) cnt rest : 0 <= cnt < 8 ->
  sv_objects d !! (CA, index, sub) = Some val ->
  exists d', sdo_serve rl d
    ((sdo_header 0x000a cnt (ECT_SDO_UP_REQ + ca_bit CA) index sub ++ le_bytes 4 0) ++ rest)
  = (d', Some upload_mail)
  /\ (~ 1 <= zlen val <= 4 -> sv_toggle d' = 0 /\ sv_up d' = drop (Z.to_nat (rl - 16)) val)
  /\ sv_objects d' = sv_objects d.
Proof.
  intros Hcnt Hobj.
  rewrite sdo_header_head by (destruct CA; cbn; unfold ECT_SDO_UP_REQ; lia). rewrite <- !app_assoc.
  set (cmd := ECT_SDO_UP_REQ + ca_bit CA). set (y := le_bytes 4 0 ++ rest).
  assert (3 <= zlen (sdo_object index sub ++ y)).
  { rewrite zlen_app. pose proof (zlen_nonneg y). change (zlen (sdo_object index sub)) with 3. lia. }
  destruct (sdo_serve_request rl d 0x000a cnt cmd (sdo_object index sub ++ y)) as (i' & s' & Hi & Hs & Hserve);
    [lia | done | done|].
  destruct (sdo_object_fields 0x000a cnt ECT_COES_SDOREQ cmd index sub y Hindex) as [Hi0 Hs0].
  rewrite Hi0 in Hi. rewrite Hs0 in Hs. injection Hi as <-. injection Hs as <-. rewrite Hserve.
  assert (Z.land cmd 0xe0 = 0x40 /\ negb (Z.land cmd 0x10 =? 0) = CA) as [-> Hca] by (by destruct CA).
  cbn [Z.eqb default].  unfold serve_upload. rewrite Hca, Hobj.
  unfold upload_mail, normal_first.
  destruct (Z.ltb_spec 0 (zlen val)), (Z.leb_spec (zlen val) 4); cbn [andb]; eexists; split; try reflexivity; (split; [try lia; by cbn | done]).
Qed.

Lemma wp_sdo_answer junk timeout d i out cnt (CA : bool) psize Q c :
  (~ 1 <= zlen val <= 4 -> sv_toggle d = 0 /\ sv_up d = drop (Z.to_nat (rl - 16)) val) ->
  sv_objects d = objs -> mheld d None [(i, upload_mail)]
    [(out, sdo_header 0x000a cnt (ECT_SDO_UP_REQ + ca_bit CA) index sub ++ le_bytes 4 0)] 0 c ->
  zlen val <= psize -> (length val < loop_fuel)%nat ->
  (forall st c', uploaded st c' -> Q st c') ->
  wp no_fault (sdo_answer junk slave index sub timeout out i (SdoState 1 (Some i) psize p)) Q c.
Proof.
  intros Hd Hobjs Hw Hps Hf HQ. pose proof sdo_bounds as [_ Hb]. pose proof (zlen_nonneg val) as Hv.
  set (n := zlen val) in *.
  assert (exists len cmd y, upload_mail = coe_head len 1 ECT_COES_SDORES cmd ++ sdo_object index sub ++ y
    /\ 0 <= len < 65536 /\ cmd = if (0 <? n) && (n <=? 4) then 0x40 + 3 + 4 * (4 - n) else 0x41)
    as (len & cmd & y & Hmail & Hlen & Hcmd).
  { unfold upload_mail. fold n. destruct ((0 <? n) && (n <=? 4)).
    - edestruct object_answer_eq as [r Hr]. rewrite Hr. eexists _, _, _. split; [reflexivity|]. lia.
    - edestruct object_answer_eq as [r Hr]. rewrite Hr. eexists _, _, _. split; [reflexivity|].
      unfold normal_first, zlen. rewrite length_take. lia. }
  destruct (coe_head_fields len 1 ECT_COES_SDORES cmd (sdo_object index sub ++ y)) as (_ & Hc & _); [done..|].
  destruct (sdo_object_fields len 1 ECT_COES_SDORES cmd index sub y Hindex) as [Hi _].
  rewrite <- Hmail in Hc, Hi. set (req := sdo_header _ _ _ _ _ ++ _) in Hw.
  assert (Ho : field_u16 req SDO_Index = Some index).
  { unfold req. rewrite sdo_header_head by (destruct CA; cbn; unfold ECT_SDO_UP_REQ; lia). rewrite <- app_assoc.
    by apply sdo_object_fields. }
  unfold sdo_answer. apply wp_bind. eapply wp_is_sdo_response with (x := sdo_object index sub ++ y);
    [exact Hw | rewrite <- Hmail; apply list_elem_of_here | exact Hlen|].
  apply wp_bind. mh wp_mh_u16 with Hw; [apply list_elem_of_here | exact Hi|].
  apply wp_bind. mh wp_mh_u16 with Hw; [right; left | exact Ho|].
  rewrite Z.eqb_refl. cbn [andb]. apply wp_bind. mh wp_mh_u8 with Hw; [apply list_elem_of_here | exact Hc|].
  destruct (Z.ltb_spec 0 n), (Z.leb_spec n 4); cbn [andb] in Hcmd.
  1: { destruct (expedited_bits 0x40 n) as (_ & H2 & _); [by left | lia|]. cbn zeta in H2. rewrite <- Hcmd in H2.
       rewrite H2, Hcmd. cbn [Z.ltb Z.compare]. eapply wp_sdo_expedited; [exact Hw | lia | done | done|].
       intros p' Hl Ht. apply HQ. exists d, i, upload_mail. cbn. split_and!; try done.
       eapply mheld_forget; [done..| | | exact Hw]; [cbn; lia | apply NoDup_singleton]. }
  all: rewrite Hcmd; change (Z.land 0x41 0x02) with 0; cbn [Z.ltb Z.compare].
  all: destruct Hd as [Ht Hu]; [lia|].
  all: eapply wp_sdo_normal; [exact Ht | exact Hu | exact Hobjs | exact Hw | lia | done | done | exact HQ].
Qed.

Lemma wp_sdo_read junk timeout d (CA : bool) subindex psize Q c :
  sub = (if CA && (1 <? subindex) then 1 else subindex) ->
  mheld d None [] [] 2 c -> sv_objects d !! (CA, index, sub) = Some val ->
  zlen val <= psize -> (length val < loop_fuel)%nat ->
  objs = sv_objects d ->
  (forall p' d' c', mheld d' None [] [] 2 c' -> sv_objects d' = sv_objects d -> zlen p' = zlen p ->
     take (Z.to_nat (zlen val)) p' = val -> Q (1, (zlen val, p')) c') ->
  wp no_fault (ecx_SDOread junk slave index subindex CA psize p timeout) Q c.
Proof.
  intros Hclip Hw Hobj Hps Hf Hobjs HQ. pose proof sdo_bounds as [Hbm Hb].
  apply wp_bind. mh wp_mh_receive_empty with Hw. intros c1 H1. cbn [snd fst].
  apply wp_bind. mh wp_mh_getmbx with H1. intros out c2 H2.
  apply wp_bind. mh wp_mh_clear with H2. intros c3 H3.
  apply wp_bind. mh wp_mh_mbxcnt with H3. intros cnt c4 Hcnt H4. cbn zeta. rewrite <- Hclip.
  replace (if CA then ECT_SDO_UP_REQ_CA else ECT_SDO_UP_REQ) with (ECT_SDO_UP_REQ + ca_bit CA) by (by destruct CA).
  apply wp_bind. mh wp_mh_write with H4; [done | done |]. intros c5 H5. rewrite app_nil_l in H5.
  set (req := sdo_header _ _ _ _ _ ++ _) in H5. assert (Hreq : zlen req = 16) by done.
  apply wp_bind. mh wp_mh_send with H5; [lia|]. intros rest c6 _ a H6. subst a.
  cbn [serve the_slave sdo_slave] in H6.
  destruct (serve_upload_request d CA cnt rest Hcnt Hobj) as (d' & Hs & Hd' & Hkeep). unfold req in H6. rewrite Hs in H6.
  cbn [fst snd] in H6. cbn [Z.ltb Z.compare]. apply wp_bind, wp_bind, wp_ret.
  apply wp_bind. eapply wp_do_once; [done|]. apply wp_bind.
  mh wp_mh_receive with H6.
  { clear Hs Hd' H6 HQ. pose proof (zlen_nonneg val). unfold upload_mail, object_answer.
    destruct (Z.ltb_spec 0 (zlen val)), (Z.leb_spec (zlen val) 4); cbn [andb]; apply coe_plain; try done;
      rewrite ?zlen_app, ?zlen_zeros by lia; change (zlen (sdo_object _ _)) with 3;
      change (zlen (le_bytes 4 _)) with 4; unfold normal_first, zlen in *; rewrite ?length_take; lia. }
  intros i c7 H7. apply wp_ret. cbn [fst snd Z.ltb Z.compare]. split; [done|].
  cbn [Z.ltb Z.compare fst snd].
  eapply wp_sdo_answer; [exact Hd' | congruence | exact H7 | done | done|].
  intros st c8 (d8 & i8 & bs & H8 & Hin & Hwkc & Hsz & Hl & Ht & Ho8). apply wp_bind. rewrite Hin.
  mh wp_mh_drop with H8. intros c9 H9. apply wp_ret. rewrite Hwkc, Hsz. eapply HQ; [exact H9 | congruence | done..].
Qed.
End Upload.

(** ** Download *)

Section Download.
Context (index sub psize : Z) (CA : bool) (p : list Z) (objs : gmap object (list Z)).
Context (Hindex : 0 <= index < 65536) (Hsub : 0 <= sub < 256).
Context (Hsize : 1 <= psize <= zlen p) (Hsize31 : psize < 2 ^ 31).
Context (Hobj : is_Some (objs !! (CA, index, sub))).
#[local] Set Default Proof Using
  "Hslave Hserved Hhook Hfuel Hml Hrl Hrl16 Hindex Hsub Hsize Hsize31 Hobj".
Abbreviation obj := (CA, index, sub).
Abbreviation piece n off := (take (Z.to_nat n) (drop (Z.to_nat off) p)).

(** The server has the object up to [off], all of it at the end. *)
Definition has (d : sdo_server) (off : Z) : Prop :=
  if off =? psize then sv_objects d = <[obj := take (Z.to_nat psize) p]> objs
  else sv_objects d = objs /\ sv_down d = Some (obj, psize, take (Z.to_nat off) p).

Lemma store_has d off : sv_objects d = objs -> 0 <= off <= psize ->
  has (store d obj psize (take (Z.to_nat off) p)) off.
Proof.
  intros Hd Hoff. unfold store, has.
  assert (zlen (take (Z.to_nat off) p) = off) as -> by (unfold zlen in *; rewrite length_take; lia).
  destruct (Z.eqb_spec off psize) as [-> | Hne]; cbn; [by rewrite Hd | by split].
Qed.

Lemma piece_zlen n off : 0 <= n -> 0 <= off -> off + n <= psize -> zlen (piece n off) = n.
Proof. intros. unfold zlen in *. rewrite length_take, length_drop. lia. Qed.

Abbreviation ok_answer := (object_answer rl 10 0x60 index sub (zeros 4)).

(** The server takes the request about the object. *)
Lemma serve_download_request d len cnt cmd y rest :
  0 <= len < 65536 -> 0 <= cnt < 8 -> Z.land cmd 0xe0 = 0x20 -> negb (Z.land cmd 0x10 =? 0) = CA ->
  sv_objects d = objs ->
  let m := (coe_head len cnt ECT_COES_SDOREQ cmd ++ sdo_object index sub) ++ y ++ rest in
  sdo_serve rl d m = default (d, None)
    (if 0 <? Z.land cmd 0x02 then
       let n := 4 - Z.land (Z.shiftr cmd 2) 0x03 in
       x ← zslice m SDO_data n; Some (store d obj n x, Some ok_answer)
     else
       n ← field_u32 m SDO_data;
       x ← zslice m (SDO_data + 4) (len - 10);
       Some ((store d obj n x) <| sv_toggle := 0 |>, Some ok_answer)).
Proof.
  intros Hl Hc Hop HCA Hd m. unfold m. rewrite <- (app_assoc (coe_head _ _ _ _)).
  destruct (sdo_serve_request rl d len cnt cmd (sdo_object index sub ++ y ++ rest)) as (i' & s' & Hi & Hs & Hserve);
    [done | done | |].
  { rewrite zlen_app. pose proof (zlen_nonneg (y ++ rest)). change (zlen (sdo_object index sub)) with 3. lia. }
  destruct (sdo_object_fields len cnt ECT_COES_SDOREQ cmd index sub (y ++ rest) Hindex) as [Hi0 Hs0].
  rewrite Hi0 in Hi. rewrite Hs0 in Hs. injection Hi as <-. injection Hs as <-.
  rewrite Hserve, Hop. cbn [Z.eqb Pos.eqb]. unfold serve_download. rewrite HCA, Hd.
  destruct Hobj as [v0 ->]. done.
Qed.

(** The answer is to the request. *)
Lemma wp_sdo_write_ok d i out len cnt cmd y n Q c :
  mheld d None [(i, ok_answer)]
    [(out, (coe_head len cnt ECT_COES_SDOREQ cmd ++ sdo_object index sub) ++ y)] n c ->
  Q true c -> wp no_fault (sdo_write_ok out i) Q c.
Proof.
  intros Hw HQ. destruct (object_answer_eq rl 10 0x60 index sub (zeros 4)) as [r Hr]. rewrite Hr in Hw.
  rewrite <- app_assoc in Hw.
  destruct (sdo_object_fields 10 1 ECT_COES_SDORES 0x60 index sub (zeros 4 ++ r) Hindex) as [Hai Has].
  destruct (sdo_object_fields len cnt ECT_COES_SDOREQ cmd index sub y Hindex) as [Hoi Hos].
  unfold sdo_write_ok. apply wp_bind. eapply wp_is_sdo_response; [exact Hw | apply list_elem_of_here | done|].
  apply wp_bind. mh wp_mh_u16 with Hw; [apply list_elem_of_here | exact Hai|].
  apply wp_bind. mh wp_mh_u16 with Hw; [right; left | exact Hoi|].
  apply wp_bind. mh wp_mh_u8 with Hw; [apply list_elem_of_here | exact Has|].
  apply wp_bind. mh wp_mh_u8 with Hw; [right; left | exact Hos|].
  apply wp_ret. by rewrite !Z.eqb_refl.
Qed.

(** A request sent, and its answer in place of the one before. *)
Lemma wp_sdo_exchange junk timeout out req m_in own d d' mail Q c :
  mheld d None ((out, req) :: own) [] (1 - length own) c -> zlen req <= mbx_l s ->
  (own = [] /\ m_in = None \/ exists i bs, own = [(i, bs)] /\ m_in = Some i) ->
  (forall rest, zlen (req ++ rest) = mbx_l s -> sdo_serve rl d (req ++ rest) = (d', Some mail)) -> plain_answer s mail ->
  (forall i c', mheld d' None [(i, mail)] [] 1 c' ->
     (own = [] -> mheld d' None [(i, mail)] [(out, req)] 0 c') -> Q (1, Some i) c') ->
  wp no_fault (sdo_exchange junk slave timeout out m_in) Q c.
Proof.
  intros Hw Hreq Hown Hserve Hplain HQ. apply wp_bind. mh wp_mh_send with Hw; [exact Hreq|].
  intros rest c1 Hl a H1. subst a. cbn [serve the_slave sdo_slave] in H1. rewrite Hserve in H1 by done.
  cbn [fst snd] in H1. cbn [Z.ltb Z.compare].
  destruct Hown as [[-> ->]|(i0 & bs & -> & ->)].
  - apply wp_bind, wp_ret. mh wp_mh_receive with H1; [done|]. intros i c2 H2. apply HQ; [|done].
    eapply mheld_forget; [done..| | | exact H2]; [cbn; lia | apply NoDup_singleton].
  - assert (H1' : mheld d' (Some mail) [(i0, bs)] [] 1 c1)
      by (eapply mheld_forget; [done..| | | exact H1]; [cbn; lia | apply NoDup_singleton]).
    apply wp_bind. mh wp_mh_drop with H1'. intros c2 H2.
    mh wp_mh_receive with H2; [done|]. intros i c3 H3. by apply HQ.
Qed.

Lemma ok_answer_plain : plain_answer s ok_answer.
Proof.
  unfold object_answer. apply coe_plain; [done | | done]. rewrite zlen_app.
  change (zlen (sdo_object index sub)) with 3. change (zlen (zeros 4)) with 4. lia.
Qed.

Definition down_state (d : sdo_server) (c : ctx) (i : Z) : Prop :=
  exists bs, mheld d None [(i, bs)] [] 1 c.

Lemma wp_sdo_write_expedited junk timeout d out Q c :
  mheld d None [(out, [])] [] 1 c -> psize <= 4 -> CA = false -> sv_objects d = objs ->
  (forall d' i c', down_state d' c' i -> has d' psize -> Q (1, Some i) c') ->
  wp no_fault (sdo_write_expedited junk slave index sub psize p timeout out None) Q c.
Proof.
  intros Hw Hps HCA Hd HQ. pose proof sdo_bounds as [Hbm Hb].
  apply wp_bind. mh wp_mh_mbxcnt with Hw. intros cnt c1 Hcnt H1. cbn zeta.
  assert (Hcmd : Z.lor ECT_SDO_DOWN_EXP (Z.land (Z.shiftl (4 - psize) 2) 0x0c) = 0x20 + 3 + 4 * (4 - psize)).
  { assert (psize = 1 \/ psize = 2 \/ psize = 3 \/ psize = 4) as Hc by lia.
    clear -Hc. decompose [or] Hc; by subst. }
  rewrite Hcmd. set (cmd := 0x20 + 3 + 4 * (4 - psize)).
  destruct (expedited_bits 0x20 psize) as (Hop & H2 & Hn & Hr); [by right | lia|]. fold cmd in Hop, H2, Hn, Hr.
  rewrite sdo_header_head by done.
  apply wp_bind. mh wp_mh_write with H1; [done | done |]. intros c2 H2'. rewrite app_nil_l in H2'.
  pose proof (piece_zlen psize 0 ltac:(lia) ltac:(lia) ltac:(lia)) as Hpz.
  apply wp_bind. eapply wp_of_opt; [apply zslice_some; lia|]. change (Z.to_nat 0) with 0%nat in *.
  set (data := take _ (drop 0 p)) in *.
  apply wp_bind. mh wp_mh_write with H2'; [done | rewrite Hpz; unfold SDO_data, EC_MAXMBX; lia|]. intros c3 H3.
  set (head := coe_head _ _ _ _ ++ _) in *. assert (Hhz : zlen head = 12) by done.
  apply wp_bind. eapply (wp_sdo_exchange junk timeout out (head ++ data) None [] d (store d obj psize data) ok_answer);
    [exact H3 | rewrite zlen_app; lia | by left | | exact ok_answer_plain |].
  { intros rest _. rewrite <- app_assoc. unfold head.
    rewrite serve_download_request by
      (try done; rewrite HCA; unfold cmd; clear -Hps Hsize;
       assert (psize = 1 \/ psize = 2 \/ psize = 3 \/ psize = 4) as Hc by lia; decompose [or] Hc; by subst).
    rewrite H2. cbn [Z.ltb Z.compare]. rewrite Hn. cbn zeta. rewrite zslice_at by done. done. }
  intros i c4 H4 H4'. specialize (H4' eq_refl). cbn [fst snd Z.ltb Z.compare].
  apply wp_bind, wp_ret, wp_bind. eapply wp_sdo_write_ok; [exact H4'|]. apply wp_ret.
  apply (HQ (store d obj psize data)); [by eexists|]. apply (store_has d psize); [done | lia].
Qed.

(** One segment goes to the server. *)
Record downloading (d : sdo_server) (st : sdo_down) : Prop := {
  dn_wkc : sd_wkc st = 1;
  dn_toggle : sd_toggle st = sv_toggle d;
  dn_bit : sd_toggle st = 0 \/ sd_toggle st = 16;
  dn_pos : 0 <= sd_hp st < psize;
  dn_left : sd_left st = psize - sd_hp st;
  dn_has : has d (sd_hp st);
}.
Definition downloads (st : sdo_down) (c : ctx) : Prop := exists d i,
  sd_in st = Some i /\ down_state d c i /\ downloading d st.
Definition downloaded (st : sdo_down) (c : ctx) : Prop := exists d i,
  sd_in st = Some i /\ down_state d c i /\ sd_wkc st = 1 /\ has d psize.

Lemma serve_segment_download d st n cnt (short : bool) rest :
  downloading d st -> 0 <= cnt < 8 -> 0 < n <= 1486 - 9 -> sd_hp st + n <= psize ->
  let last := n =? sd_left st in
  short = last && (n <? 7) ->
  (n < 7 -> last = true) -> 3 <= zlen (piece n (sd_hp st) ++ rest) ->
  let command := if short then u8 (0x01 + Z.shiftl (7 - n) 1) else if last then 0x01 else 0x00 in
  let len := if short then 0x0a else u16 (n + 3) in
  sdo_serve rl d ((mbx_header len ECT_MBXT_COE cnt ++ le_bytes 2 (coe_service ECT_COES_SDOREQ)
                   ++ [u8 (command + sd_toggle st)]) ++ piece n (sd_hp st) ++ rest)
  = ((store d obj psize (take (Z.to_nat (sd_hp st + n)) p)) <| sv_toggle := 0x10 - sv_toggle d |>,
     Some (segment_answer rl (0x20 + sv_toggle d) (zeros 7))).
Proof.
  intros [Hwkc Ht Hbit Hpos Hleft Hhas] Hcnt Hn Hfit last Hshort Hlast Hx command len.
  pose proof (piece_zlen n (sd_hp st) ltac:(lia) ltac:(lia) ltac:(lia)) as Hpz.
  set (u := if short then 7 - n else 0).
  assert (Hu : 0 <= u < 8) by (unfold u; destruct short; [apply andb_true_eq in Hshort as [_ H7]|]; lia).
  destruct (segment_bits (sd_toggle st) u last Hbit Hu) as (Hop & Htog & Hl & He & Hr).
  assert (Hcmd : u8 (command + sd_toggle st) = sd_toggle st + 2 * u + b2z last).
  { rewrite <- (u8_id (_ + b2z last)) by done. unfold command, u. clear -Hshort Hn Hlast. destruct short.
    - symmetry in Hshort. apply andb_true_iff in Hshort as [-> H7]. rewrite Z.shiftl_mul_pow2 by done.
      change (2 ^ 1) with 2. apply Z.ltb_lt in H7. rewrite (u8_id (1 + _)) by lia. f_equal. cbn [b2z]. lia.
    - f_equal. destruct last; cbn; lia. }
  rewrite Hcmd. set (cmd := _ + b2z last) in *. fold (coe_head len cnt ECT_COES_SDOREQ cmd).
  assert (Hlen : len - 3 - (if (len - 3 =? 7) && (b2z last =? 1) then u else 0) = n /\ 0 <= len < 65536).
  { unfold len, u in *. clear -Hshort Hn Hlast. destruct short.
    - symmetry in Hshort. apply andb_true_iff in Hshort as [-> H7].
      change ((10 - 3 =? 7) && (b2z true =? 1)) with true. cbv iota. lia.
    - rewrite u16_id by lia. destruct ((n + 3 - 3 =? 7) && _); lia. }
  destruct Hlen as [Hlen Hlr].
  destruct (sdo_serve_request rl d len cnt cmd (piece n (sd_hp st) ++ rest)) as (i' & s' & _ & _ & Hserve);
    [done | done | done|]. rewrite Hserve, Hop. cbn [Z.eqb].
  unfold has in Hhas. destruct (Z.eqb_spec (sd_hp st) psize); [lia|]. destruct Hhas as [Hobjs Hdown].
  unfold serve_download_segment. rewrite Hdown, Htog, Ht, Z.eqb_refl, Hl, He, Hlen. cbn [mbind option_bind].
  rewrite zslice_at by done. cbn [mbind option_bind default]. rewrite take_take_drop.
  by rewrite <- Z2Nat.inj_add by lia.
Qed.

Lemma downloads_step junk timeout ix sb st c : downloads st c ->
  wp no_fault (sdo_write_segment junk slave ix sb (mbx_l s - 0x10 + 7) p timeout st)
    (fun a c' => if a.1 : bool then downloads a.2 c'
                 /\ (Z.to_nat (sd_left a.2) < Z.to_nat (sd_left st))%nat
               else downloaded a.2 c') c.
Proof.
  intros (d & i & Hin & [bs Hw] & Hdn). pose proof sdo_bounds as [Hbm Hb].
  pose proof Hdn as [Hwkc Ht Hbit Hpos Hleft Hhas].
  apply wp_bind. mh wp_mh_getmbx with Hw. intros out c1 H1.
  apply wp_bind. mh wp_mh_clear with H1. intros c2 H2. cbn zeta.
  set (n := if mbx_l s - 0x10 + 7 <? sd_left st then mbx_l s - 0x10 + 7 else sd_left st).
  assert (Hn : 0 < n <= mbx_l s - 9 /\ n <= sd_left st)
    by (unfold n; destruct (Z.ltb_spec (mbx_l s - 0x10 + 7) (sd_left st)); lia).
  assert (Hlast : (mbx_l s - 0x10 + 7 <? sd_left st) = negb (n =? sd_left st)).
  { unfold n. destruct (Z.ltb_spec (mbx_l s - 0x10 + 7) (sd_left st));
    destruct (Z.eqb_spec (mbx_l s - 0x10 + 7) (sd_left st)); rewrite ?Z.eqb_refl; cbn; lia. }
  assert (Hshort : n < 7 -> (n =? sd_left st) = true).
  { unfold n. destruct (Z.ltb_spec (mbx_l s - 0x10 + 7) (sd_left st)); [lia|]. intros _. apply Z.eqb_refl. }
  rewrite Hlast, !negb_involutive. set (short := (n =? sd_left st) && (n <? 7)).
  pose proof (piece_zlen n (sd_hp st) ltac:(lia) ltac:(lia) ltac:(lia)) as Hpz.
  apply wp_bind. mh wp_mh_mbxcnt with H2. intros cnt c3 Hcnt H3.
  pose proof (fun rest Hx => serve_segment_download d st n cnt short rest Hdn Hcnt ltac:(lia) ltac:(lia)
    eq_refl Hshort Hx) as Hserve. cbn zeta in Hserve.
  replace (if negb (n =? sd_left st) then 0x00 else 0x01) with (if n =? sd_left st then 0x01 else 0x00)
    by (by destruct (n =? sd_left st)).
  set (head := _ ++ _ ++ [_]) in *. assert (Hhz : zlen head = 9) by done.
  apply wp_bind. mh wp_mh_write with H3; [done | done |]. intros c4 H4. rewrite app_nil_l in H4.
  apply wp_bind. eapply wp_of_opt; [apply zslice_some; lia|].
  apply wp_bind. mh wp_mh_write with H4; [done | rewrite Hpz; unfold SDO_Index, EC_MAXMBX; lia|]. intros c5 H5.
  set (d' := (store d obj psize (take (Z.to_nat (sd_hp st + n)) p)) <| sv_toggle := 0x10 - sv_toggle d |>) in *.
  set (mail := segment_answer rl (0x20 + sv_toggle d) (zeros 7)) in *.
  assert (Hmail : exists r, mail = coe_head 10 1 ECT_COES_SDORES (0x20 + sv_toggle d) ++ r)
    by (eexists; unfold mail, segment_answer, pad; by rewrite <- app_assoc).
  apply wp_bind. eapply (wp_sdo_exchange junk timeout out _ (sd_in st) [(i, bs)] d d' mail);
    [exact H5 | rewrite zlen_app, Hpz; lia | right; by exists i, bs | | |].
  { intros rest Hl. rewrite <- app_assoc. apply Hserve. rewrite !zlen_app in *. lia. }
  { unfold mail, segment_answer. by apply coe_plain. }
  intros i' c6 H6 _. cbn [fst snd Z.ltb Z.compare]. apply wp_bind, wp_bind, wp_ret.
  destruct Hmail as [r Hmail]. rewrite Hmail in H6.
  destruct (coe_head_fields 10 1 ECT_COES_SDORES (0x20 + sv_toggle d) r) as (_ & Hcmd & _); [done..|].
  apply wp_bind. eapply wp_is_sdo_response; [exact H6 | apply list_elem_of_here | done|].
  apply wp_bind. mh wp_mh_u8 with H6; [apply list_elem_of_here | exact Hcmd|].
  assert (Z.land (0x20 + sv_toggle d) 0xe0 = 0x20) as -> by (rewrite <- Ht; by destruct Hbit as [-> | ->]).
  cbn [andb Z.eqb Pos.eqb]. apply wp_ret, wp_ret. cbn [fst snd].
  assert (Hh : has d' (sd_hp st + n)).
  { pose proof Hhas as Hs. unfold has in Hs. destruct (Z.eqb_spec (sd_hp st) psize); [lia|].
    destruct Hs as [Hs _]. exact (store_has d (sd_hp st + n) Hs ltac:(lia)). }
  destruct (Z.eqb_spec n (sd_left st)) as [He|He]; cbn [negb].
  - exists d', i'. cbn. split_and!; [done | by eexists | done|].
    by replace (sd_hp st + n) with psize in Hh by lia.
  - cbn. split; [|lia]. exists d', i'. split; [done|]. split; [by eexists|].
    split; cbn; try done; try lia.
    + rewrite <- Ht. by destruct Hbit as [-> | ->].
    + by destruct Hbit as [-> | ->]; [right | left].
Qed.

Lemma wp_sdo_write_normal junk timeout d out subindex Q c :
  sub = (if CA && (1 <? subindex) then 1 else subindex) -> sv_objects d = objs ->
  mheld d None [(out, [])] [] 1 c -> (Z.to_nat psize < loop_fuel)%nat ->
  (forall d' i c', down_state d' c' i -> has d' psize -> Q (1, Some i) c') ->
  wp no_fault (sdo_write_normal junk slave index subindex CA psize p (mbx_l s - 0x10) timeout out None) Q c.
Proof.
  intros Hclip Hd Hw Hf HQ. pose proof sdo_bounds as [Hbm Hb].
  unfold sdo_write_normal. rewrite <- Hclip. cbn zeta.
  set (n := if mbx_l s - 0x10 <? psize then mbx_l s - 0x10 else psize).
  assert (Hn : 0 <= n <= mbx_l s - 16 /\ n <= psize /\ (mbx_l s - 0x10 <? psize) = negb (n =? psize)).
  { unfold n. destruct (Z.ltb_spec (mbx_l s - 0x10) psize); destruct (Z.eqb_spec (mbx_l s - 0x10) psize);
    rewrite ?Z.eqb_refl; cbn; lia. }
  destruct Hn as (Hn & Hnp & Hlast). rewrite Hlast. clearbody n.
  pose proof (piece_zlen n 0 ltac:(lia) ltac:(lia) ltac:(lia)) as Hpz.
  apply wp_bind. mh wp_mh_mbxcnt with Hw. intros cnt c1 Hcnt H1.
  set (cmd := if CA then ECT_SDO_DOWN_INIT_CA else ECT_SDO_DOWN_INIT).
  assert (0 <= cmd < 256 /\ Z.land cmd 0xe0 = 0x20 /\ negb (Z.land cmd 0x10 =? 0) = CA /\ Z.land cmd 0x02 = 0)
    as (Hcr & Hop & HCA & H2) by (unfold cmd; by destruct CA).
  rewrite u16_id, sdo_header_head by (done || lia).
  apply wp_bind. mh wp_mh_write with H1; [done | done |]. intros c2 H3. rewrite app_nil_l in H3.
  apply wp_bind. eapply wp_of_opt; [apply zslice_some; lia|].
  apply wp_bind. mh wp_mh_write with H3; [done | rewrite Hpz; unfold SDO_data, EC_MAXMBX; lia|]. intros c3 H4.
  set (d' := (store d obj psize (piece n 0)) <| sv_toggle := 0 |>).
  set (head := coe_head _ _ _ _ ++ _) in *. assert (Hhz : zlen head = 12) by done.
  rewrite <- app_assoc in H4.
  apply wp_bind. eapply (wp_sdo_exchange junk timeout out _ None [] d d' ok_answer);
    [exact H4 | rewrite !zlen_app, Hpz, Hhz; change (zlen (le_bytes 4 _)) with 4; lia | by left | | exact ok_answer_plain |].
  { intros rest _. rewrite <- app_assoc. unfold head.
    rewrite serve_download_request by (done || lia). rewrite H2. cbn [Z.ltb Z.compare].
    rewrite <- (app_assoc (le_bytes 4 psize)). fold head. rewrite field_u32_at by (done || lia).
    cbn [mbind option_bind]. replace (0x0a + n - 10) with n by lia.
    rewrite (app_assoc head), zslice_at by (done || lia). done. }
  intros i c4 H5 H5'. specialize (H5' eq_refl). cbn [fst snd Z.ltb Z.compare].
  apply wp_bind, wp_ret, wp_bind. eapply wp_sdo_write_ok; [exact H5'|].
  assert (Hh : has d' n) by exact (store_has d n Hd ltac:(lia)).
  destruct (Z.eqb_spec n psize) as [He|He]; cbn [negb].
  - rewrite He in Hh. apply wp_bind, wp_ret, wp_ret. cbn. apply (HQ d'); [by eexists | exact Hh].
  - apply wp_bind.
    apply (wp_do_while no_fault downloads (fun st _ => Z.to_nat (sd_left st))) with
      (Q := fun st c => wp no_fault (ret (sd_wkc st, sd_in st)) Q c).
    + intros st c' Hst. eapply wp_mono; [by apply downloads_step|]. intros [[] st'] c''; [done|].
      cbn. intros (d8 & i8 & Hin8 & H8 & Hwkc8 & Hh8). apply wp_ret. rewrite Hwkc8, Hin8. by eapply HQ.
    + exists d', i. split; [done|]. split; [by eexists|]. split; cbn; try done; try lia.
    + cbn. lia.
Qed.

Lemma wp_sdo_write junk timeout d subindex Q c :
  sub = (if CA && (1 <? subindex) then 1 else subindex) -> sv_objects d = objs ->
  mheld d None [] [] 2 c -> (Z.to_nat psize < loop_fuel)%nat ->
  (forall d' c', mheld d' None [] [] 2 c' -> has d' psize -> Q 1 c') ->
  wp no_fault (ecx_SDOwrite junk slave index subindex CA psize p timeout) Q c.
Proof.
  intros Hclip Hd Hw Hf HQ. apply wp_bind. mh wp_mh_receive_empty with Hw. intros c1 H1. cbn [snd fst].
  apply wp_bind. mh wp_mh_getmbx with H1. intros out c2 H2.
  apply wp_bind. mh wp_mh_clear with H2. intros c3 H3.
  apply wp_bind. mh wp_mh_slave with H3. intros k. cbn [mbx_l set]. cbn zeta.
  assert (Hend : forall d' i c', down_state d' c' i -> has d' psize ->
    wp no_fault (do* drop_mbx (Some i) in ret 1) Q c').
  { intros d' i c' [bs Hi] Hh. apply wp_bind. mh wp_mh_drop with Hi. intros c4 H4. apply wp_ret. by eapply HQ. }
  apply wp_bind. destruct ((psize <=? 4) && negb CA) eqn:Hcase.
  - apply andb_prop in Hcase as [H4 HCA]. apply negb_true_iff in HCA. rewrite HCA in Hclip. cbn in Hclip.
    rewrite <- Hclip. eapply wp_sdo_write_expedited; [exact H3 | lia | done | done | exact Hend].
  - eapply wp_sdo_write_normal; [done | done | exact H3 | done | exact Hend].
Qed.
End Download.

(** C4: An object written to a slave that serves its dictionary, and read back, is the same
    object: of every size from one byte on, by complete access or not, and for every size of
    the mailboxes, so that the transfers are expedited, in one mailbox, or in any number of
    segments.  [ecx_SDOwrite] ends with work counter 1, [ecx_SDOread] then with work counter
    1, the size of the object, and the object in the buffer; the other objects of the slave
    stay as they were, and no call faults or waits for ever. *)
Theorem sdo_write_then_read index subindex (CA : bool) psize p size buf junk timeout d :
  zget (slavelist c0) slave = Some s -> (exists now, link c0 = MailDev d None now) ->
  MbxPool.pool_wf (mbxpool c0) -> (2 <= length (MbxPool.pool_free (mbxpool c0)))%nat ->
  0 <= index < 65536 -> 0 <= subindex < 256 ->
  let obj := (CA, index, if CA && (1 <? subindex) then 1 else subindex) in
  is_Some (sv_objects d !! obj) ->
  1 <= psize <= zlen p -> psize < 2 ^ 31 -> psize <= size -> psize <= zlen buf ->
  (Z.to_nat psize < loop_fuel)%nat ->
  total (let* w := ecx_SDOwrite junk slave index subindex CA psize p timeout in
         let* objects := gets (fun c => sv_objects (md_state (link c))) in
         let* r := ecx_SDOread junk slave index subindex CA size buf timeout in
         ret (w, objects, r))
    (fun x _ => exists buf',
       x = (1, <[obj := take (Z.to_nat psize) p]> (sv_objects d), (1, (psize, buf')))
       /\ take (Z.to_nat psize) buf' = take (Z.to_nat psize) p) c0.
Proof.
  intros Hs [now Hlink] Hpool Hfree Hindex Hsub obj Hobj Hp Hp31 Hsize Hbuf Hf.
  set (sub := if CA && (1 <? subindex) then 1 else subindex) in *.
  assert (Hsub' : 0 <= sub < 256) by (unfold sub; destruct (CA && (1 <? subindex)); lia).
  assert (Hw : mheld d None [] [] 2 c0) by (by eapply mheld_start).
  assert (Hz : zlen (take (Z.to_nat psize) p) = psize) by (unfold zlen in *; rewrite length_take; lia).
  apply wp_bind. eapply (wp_sdo_write index sub psize CA p (sv_objects d)); try done.
  intros d' c1 H1 Hhas. unfold has in Hhas. rewrite Z.eqb_refl in Hhas.
  apply wp_bind, wp_gets. rewrite (mheld_server _ _ _ _ _ _ H1), Hhas.
  apply wp_bind. eapply (wp_sdo_read index sub buf (take (Z.to_nat psize) p) (sv_objects d'));
    [done | done | lia | lia | done | exact H1 | | lia | | done |].
  { rewrite Hhas. apply lookup_insert_eq. }
  { unfold zlen in Hz. lia. }
  intros p' d2 c2 _ _ Hl Ht. apply wp_ret. exists p'. rewrite Hz in *. by rewrite Ht.
Qed.
End Client.

(** ** A witness: an object of 300 bytes, in three mailboxes each way *)

#[local] Instance fuel_object : LoopFuel := 400%nat.
#[local] Instance slave_at : MailServer sdo_server := sdo_slave 0x1001 0x1000 0x1400 128.
Definition one_object : sdo_server := SdoServer {[(false, 0x2000, 1) := [0]]} [] None 0.
Definition object_ctx : ecx_contextt (maildev sdo_server) :=
  (ctx0 (MailDev one_object None 0)) <| mbxpool := pool_two |>.

Lemma sdo_write_then_read_witness :
  total (let* w := ecx_SDOwrite 0 1 0x2000 1 false 300 (replicate 300 7) 1000 in
         let* objects := gets (fun c => sv_objects (md_state (link c))) in
         let* r := ecx_SDOread 0 1 0x2000 1 false 512 (replicate 512 0) 1000 in
         ret (w, objects, r))
    (fun x _ => exists buf, x.2 = (1, (300, buf)) /\ take 300 buf = replicate 300 7) object_ctx.
Proof.
  eapply wp_mono.
  - apply (sdo_write_then_read 0x1001 0x1000 0x1400 128 1 slave0 object_ctx) with (d := one_object);
      [done | split_and!; done | done | apply Nat.ltb_lt; reflexivity | done | done | done | done
       | by exists 0 | exact pool_two_wf | apply Nat.leb_le; reflexivity | done | done | by eexists
       | done | done | done | done | apply Nat.ltb_lt; reflexivity].
  - intros x c (buf & -> & Hb). exists buf. split; [reflexivity | exact Hb].
Defined.
