(* ===== verification/EoeTheorems.v ===== *)
(** * Ethernet frames through a mailbox

    The fragments [ecx_EOEsend] sends, read one by one by [ecx_EOEreadfragment], are the frame
    again. *)

From S2P Require Import Prelude Types Osal ErrorRing Mailbox Context AlState MbxHandler MbxClient EoE.
From S2P Require Import PoolSpec LinkSpec EepromSim MbxSim.
Import MbxPool stdpp.list_relations.list stdpp.list_basics.list.

(** ** Bit fields *)

Lemma lor_add a b k : 0 <= k -> 0 <= a < 2 ^ k -> Z.lor a (b * 2 ^ k) = a + b * 2 ^ k.
Proof.
  intros Hk Ha. assert (Hd : Z.land a (b * 2 ^ k) = 0).
  { apply Z.bits_inj'. intros n Hn. rewrite Z.land_spec, Z.bits_0.
    destruct (Z.lt_ge_cases n k).
    - by rewrite Z.mul_pow2_bits_low, andb_false_r.
    - rewrite <- (Z.mod_small a (2 ^ k)) by done. by rewrite Z.mod_pow2_bits_high by lia. }
  by rewrite <- Z.lxor_lor, <- Z.add_nocarry_lxor.
Qed.

Lemma field_is a b c i n w : 0 <= i -> 0 <= n -> 0 <= a < 2 ^ i -> 0 <= b < 2 ^ n ->
  w = a + 2 ^ i * (b + 2 ^ n * c) -> Z.land (Z.shiftr w i) (Z.ones n) = b.
Proof.
  intros Hi Hn Ha Hb ->. rewrite Z.shiftr_div_pow2, Z.land_ones by done.
  replace (a + 2 ^ i * (b + 2 ^ n * c)) with (a + (b + 2 ^ n * c) * 2 ^ i) by ring.
  rewrite Z.div_add, (Z.div_small a) by lia. rewrite Z.add_0_l.
  replace (b + 2 ^ n * c) with (b + c * 2 ^ n) by ring.
  rewrite Z.mod_add by lia. by apply Z.mod_small.
Qed.

(** The second word as a number. *)
Lemma frameinfo2_sum psize off no frame : 0 <= no < 64 ->
  let x := if 0 <? no then Z.shiftr off 5 else Z.shiftr (psize + 31) 5 in
  0 <= x < 64 ->
  eoe_frameinfo2 psize off no frame = no + 64 * (x + 64 * (frame mod 16)).
Proof.
  intros Hno x Hx. unfold eoe_frameinfo2. fold x.
  unfold EOE_HDR_FRAG_NO_SET, EOE_HDR_FRAME_OFFSET_SET, EOE_HDR_FRAME_NO_SET.
  change 0x3F with (Z.ones 6). change 0xF with (Z.ones 4). rewrite !Z.land_ones by done.
  rewrite (Z.mod_small no), (Z.mod_small x), !Z.shiftl_mul_pow2 by (lia || done).
  rewrite (lor_add no) by (lia || done). rewrite lor_add by (try lia; done).
  change (2 ^ 4) with 16. lia.
Qed.

Lemma frameinfo2_get psize off no frame : 0 <= no < 64 ->
  let x := if 0 <? no then Z.shiftr off 5 else Z.shiftr (psize + 31) 5 in
  0 <= x < 64 ->
  let w := eoe_frameinfo2 psize off no frame in
  EOE_HDR_FRAG_NO_GET w = no /\ EOE_HDR_FRAME_OFFSET_GET w = x
  /\ EOE_HDR_FRAME_NO_GET w = frame mod 16 /\ 0 <= w < 65536.
Proof.
  intros Hno x Hx w. unfold w. rewrite (frameinfo2_sum psize off no frame Hno Hx). fold x.
  pose proof (Z.mod_pos_bound frame 16). unfold EOE_HDR_FRAG_NO_GET, EOE_HDR_FRAME_OFFSET_GET, EOE_HDR_FRAME_NO_GET.
  split_and!; [| | |lia|lia].
  - change 0x3F with (Z.ones 6). rewrite Z.land_ones by done.
    replace (no + 64 * (x + 64 * (frame mod 16))) with (no + (x + 64 * (frame mod 16)) * 2 ^ 6) by lia.
    rewrite Z.mod_add by lia. by apply Z.mod_small.
  - apply (field_is no x (frame mod 16) 6 6); lia.
  - apply (field_is (no + 64 * x) (frame mod 16) 0 12 4); lia.
Qed.

(** The first word: the mark of the last fragment, and no time stamp. *)
Lemma frameinfo1_get port last :
  let w := eoe_frameinfo1 port last in
  EOE_HDR_LAST_FRAGMENT_GET w = b2z last /\ EOE_HDR_TIME_APPEND_GET w = 0 /\ 0 <= w < 65536.
Proof.
  intros w. unfold EOE_HDR_LAST_FRAGMENT_GET, EOE_HDR_TIME_APPEND_GET.
  assert (exists a, 0 <= a < 16 /\ w = 16 * a + 256 * b2z last) as (a & Ha & Hw).
  { exists (port mod 16). split; [by apply Z.mod_pos_bound|]. unfold w, eoe_frameinfo1, EOE_HDR_FRAME_PORT_SET.
    change 0xF with (Z.ones 4). rewrite Z.land_ones, Z.shiftl_mul_pow2 by done.
    pose proof (Z.mod_pos_bound port (2 ^ 4)). change (2 ^ 4) with 16 in *.
    destruct last; [|cbn; lia]. change (EOE_HDR_LAST_FRAGMENT_SET 1) with (1 * 2 ^ 8).
    rewrite Z.lor_comm, lor_add by lia. cbn. lia. }
  assert (0 <= b2z last < 2) by (destruct last; cbn; lia). rewrite Hw. clearbody w.
  split_and!; [| |lia|lia].
  - apply (field_is (16 * a) (b2z last) 0 8 1); lia.
  - apply (field_is (16 * a + 256 * b2z last) 0 0 9 1); lia.
Qed.

(** ** Reading one fragment *)

(** The blocks of a frame, and the mailbox of one of its fragments. *)
Definition eoe_blocks (psize : Z) : Z := Z.shiftr (psize + 31) 5.
Definition fragment_mail (cnt port psize off no frame : Z) (last : bool) (data r : list Z) : list Z :=
  eoe_header (u16 (4 + zlen data)) cnt (eoe_frameinfo1 port last) (eoe_frameinfo2 psize off no frame)
  ++ data ++ r.

(** A reader that waits for fragment [no] at [off]: for the first one any reader. *)
Definition reader_at (psize off no frame : Z) (st : eoe_reader) : Prop :=
  (no = 0 /\ off = 0)
  \/ (0 < no /\ st = EoeReader no (32 * eoe_blocks psize) off (frame mod 16)).

Lemma blocks_range psize : 0 <= psize <= 2016 ->
  0 <= eoe_blocks psize < 64 /\ psize <= 32 * eoe_blocks psize.
Proof.
  intros Hp. unfold eoe_blocks. rewrite Z.shiftr_div_pow2 by done. change (2 ^ 5) with 32.
  pose proof (Z.div_mod (psize + 31) 32). pose proof (Z.mod_pos_bound (psize + 31) 32). lia.
Qed.

Lemma check_passes psize off no frame st :
  0 <= psize <= 2016 -> 0 <= no < 64 -> 0 <= off <= psize -> off mod 32 = 0 -> (0 < no -> off < psize) ->
  reader_at psize off no frame st ->
  eoe_reader_check (eoe_frameinfo2 psize off no frame) st
  = inl (EoeReader no (32 * eoe_blocks psize) off (frame mod 16)).
Proof.
  intros Hp Hno Hoff Hm Hlt Hr. destruct (blocks_range psize Hp) as [Hb _].
  assert (Hx : 0 <= (if 0 <? no then Z.shiftr off 5 else Z.shiftr (psize + 31) 5) < 64).
  { destruct (Z.ltb_spec 0 no); [|done]. rewrite Z.shiftr_div_pow2 by done. change (2 ^ 5) with 32.
    pose proof (Z.div_mod off 32). lia. }
  destruct (frameinfo2_get psize off no frame Hno Hx) as (Hn & Ho & Hf & _).
  unfold eoe_reader_check. rewrite Hn, Ho, Hf. destruct Hr as [[-> ->]|[Hpos ->]].
  - change (0 <? 0) with false. rewrite andb_false_r.
    replace (rxfragmentno _ =? 0) with true.
    2: { destruct (rxfragmentno st =? 0) eqn:E; cbn; [by rewrite E | done]. }
    rewrite Z.shiftl_mul_pow2 by done. change (2 ^ 5) with 32. fold (eoe_blocks psize).
    rewrite u16_id by lia. by rewrite Z.mul_comm.
  - cbn. rewrite Z.eqb_refl. cbn. destruct (Z.ltb_spec 0 no); [|lia].
    destruct (Z.eqb_spec no 0); [lia|]. rewrite Z.eqb_refl.
    rewrite Z.shiftl_mul_pow2, Z.shiftr_div_pow2 by done. change (2 ^ 5) with 32.
    replace (off / 32 * 32) with off by (pose proof (Z.div_mod off 32); lia). by rewrite Z.eqb_refl.
Qed.

Lemma read_fragment cnt port psize off no frame last data r st bufsize buf :
  0 <= cnt < 8 -> 0 <= psize <= 2016 -> 0 <= no < 64 -> 0 <= off -> off mod 32 = 0 ->
  (0 < no -> off < psize) -> off + zlen data <= psize -> psize <= bufsize -> psize <= zlen buf ->
  reader_at psize off no frame st ->
  exists buf', zblit buf off data = Some buf' /\
    ecx_EOEreadfragment (fragment_mail cnt port psize off no frame last data r) st bufsize buf
    = Some (if last then (1, eoe_reader_zero, off + zlen data, buf')
            else (0, EoeReader (no + 1) (32 * eoe_blocks psize) (off + zlen data) (frame mod 16),
                  bufsize, buf')).
Proof.
  intros Hcnt Hp Hno Hoff Hm Hlt Hfit Hbs Hbuf Hr. pose proof (zlen_nonneg data) as Hd.
  destruct (blocks_range psize Hp) as [Hb Hcover].
  pose proof (zblit_some buf off data Hoff ltac:(lia)) as Hz.
  eexists. split; [exact Hz|].
  assert (Hx : 0 <= (if 0 <? no then Z.shiftr off 5 else Z.shiftr (psize + 31) 5) < 64).
  { destruct (Z.ltb_spec 0 no); [|done]. rewrite Z.shiftr_div_pow2 by done. change (2 ^ 5) with 32.
    pose proof (Z.div_mod off 32). lia. }
  pose proof (frameinfo2_get psize off no frame Hno Hx) as (_ & _ & _ & Hw2).
  pose proof (frameinfo1_get port last) as (Hlast & Htime & Hw1).
  set (m := fragment_mail cnt port psize off no frame last data r).
  assert (Hlen : field_u16 m 0 = Some (4 + zlen data)).
  { unfold m, fragment_mail, eoe_header, mbx_header. rewrite u16_id by lia.
    rewrite <- !app_assoc. apply (field_u16_at []); [done | lia]. }
  assert (H1 : field_u16 m EOE_frameinfo1 = Some (eoe_frameinfo1 port last)).
  { unfold m, fragment_mail, eoe_header. rewrite <- !app_assoc. by apply field_u16_at. }
  assert (H2 : field_u16 m EOE_frameinfo2 = Some (eoe_frameinfo2 psize off no frame)).
  { unfold m, fragment_mail, eoe_header. rewrite (app_assoc (mbx_header _ _ _)), <- !app_assoc.
    rewrite (app_assoc (mbx_header _ _ _)). by apply field_u16_at. }
  assert (Hdata : zslice m EOE_data (zlen data) = Some data).
  { unfold m, fragment_mail. rewrite zslice_some; [|done|lia|].
    - f_equal. unfold zlen. rewrite Nat2Z.id.
      change (Z.to_nat EOE_data) with (length (eoe_header (u16 (4 + Z.of_nat (length data))) cnt
        (eoe_frameinfo1 port last) (eoe_frameinfo2 psize off no frame))).
      by rewrite drop_app_length, take_app_length.
    - rewrite !zlen_app. pose proof (zlen_nonneg r). change (zlen (eoe_header _ _ _ _)) with 10.
      unfold EOE_data. lia. }
  unfold ecx_EOEreadfragment. change (field_u8 m MBXH_mbxtype) with (Some (u8 (ECT_MBXT_EOE + MBX_HDR_SET_CNT cnt))).
  cbn [mbind option_bind]. rewrite mbxtype_proto, Z.eqb_refl by done. rewrite Hlen, H1, H2. cbn [mbind option_bind].
  rewrite (check_passes psize off no frame st) by (done || lia). cbn [rxframeoffset rxframesize].
  rewrite (u16_id (4 + zlen data - 4)) by lia. replace (4 + zlen data - 4) with (zlen data) by lia.
  destruct (Z.leb_spec (off + zlen data) (32 * eoe_blocks psize)); [|lia].
  destruct (Z.leb_spec (off + zlen data) bufsize); [|lia]. cbn [andb].
  rewrite Hdata. cbn [mbind option_bind]. rewrite Hz. cbn -[u8 u16 Z.mul Z.add].
  rewrite Hlast, Htime, (u16_id (off + zlen data)), (u8_id (no + 1)) by lia. by destruct last.
Qed.

(** ** Sending *)

(** The fragments [mails] handed one by one to the reader: the answer to the last one, when
    all before it were answered 0. *)
Fixpoint eoe_feed (mails : list (list Z)) (st : eoe_reader) (psize : Z) (p : list Z)
    : option (Z * eoe_reader * Z * list Z) :=
  match mails with
  | [] => Some (0, st, psize, p)
  | m :: mails =>
      '(r, st, psize, p) ← ecx_EOEreadfragment m st psize p;
      match mails with
      | [] => Some (r, st, psize, p)
      | _ => if r =? 0 then eoe_feed mails st psize p else None
      end
  end.

Lemma eoe_feed_snoc mails m st psize p st' psize' p' :
  eoe_feed mails st psize p = Some (0, st', psize', p') ->
  eoe_feed (mails ++ [m]) st psize p = ecx_EOEreadfragment m st' psize' p'.
Proof.
  assert (Hend : forall (o : option (Z * eoe_reader * Z * list Z)),
    ('(r, st, psize, p) ← o; Some (r, st, psize, p)) = o) by (by intros [[[[]]]|]).
  revert st psize p. induction mails as [|x mails IH]; intros st psize p; cbn [eoe_feed app].
  { intros [= <- <- <-]. apply Hend. }
  destruct (ecx_EOEreadfragment x st psize p) as [[[[r st1] ps1] p1]|]; [|done]. cbn [mbind option_bind].
  destruct mails as [|y mails].
  - intros [= -> -> -> ->]. cbn [app Z.eqb]. cbn [eoe_feed]. apply Hend.
  - destruct (r =? 0); [|done]. apply IH.
Qed.

(** A slave that keeps the mailboxes it gets, and answers nothing. *)
Definition recorder (adr wo ro : Z) : MailServer (list (list Z)) :=
  {| ms_adr := adr; ms_wo := wo; ms_ro := ro; serve d m := (d ++ [m], None) |}.


(** What a reader has after the fragments [mails]: the frame up to [off]. *)
Definition feeds (psize frame : Z) (p : list Z) (mails : list (list Z)) (off no : Z) : Prop :=
  forall st bufsize buf, psize <= bufsize -> psize <= zlen buf ->
  exists st' buf', eoe_feed mails st bufsize buf = Some (0, st', bufsize, buf')
    /\ reader_at psize off no frame st' /\ zlen buf' = zlen buf
    /\ take (Z.to_nat off) buf' = take (Z.to_nat off) p.

Lemma feeds_one psize frame p mails off no cnt port last size r :
  feeds psize frame p mails off no ->
  0 <= cnt < 8 -> 0 <= psize <= 2016 -> 0 <= no < 64 -> 0 <= off -> off mod 32 = 0 ->
  (0 < no -> off < psize) -> 0 <= size -> off + size <= psize -> psize <= zlen p ->
  let mails := mails ++ [fragment_mail cnt port psize off no frame last
                           (take (Z.to_nat size) (drop (Z.to_nat off) p)) r] in
  forall st bufsize buf, psize <= bufsize -> psize <= zlen buf ->
  exists buf', zlen buf' = zlen buf /\ take (Z.to_nat (off + size)) buf' = take (Z.to_nat (off + size)) p /\
    eoe_feed mails st bufsize buf
    = Some (if last then (1, eoe_reader_zero, off + size, buf')
            else (0, EoeReader (no + 1) (32 * eoe_blocks psize) (off + size) (frame mod 16),
                  bufsize, buf')).
Proof.
  intros Hf Hcnt Hps Hno Hoff Hm Hlt Hsize Hfit Hp mails' st bufsize buf Hbs Hbuf.
  destruct (Hf st bufsize buf Hbs Hbuf) as (st' & b & Hfeed & Hr & Hlb & Htb).
  set (data := take _ _) in *. assert (Hd : zlen data = size).
  { unfold data, zlen in *. rewrite length_take, length_drop. lia. }
  destruct (read_fragment cnt port psize off no frame last data r st' bufsize b)
    as (buf' & Hz & Hread); [done..| lia | done | lia | done |].
  destruct (take_blit b p off size buf') as [Hl Ht]; [done | done | lia | done | done |].
  exists buf'. split; [congruence|]. split; [done|]. unfold mails'.
  rewrite (eoe_feed_snoc _ _ _ _ _ _ _ _ Hfeed), Hread. by rewrite Hd.
Qed.

(** The size of a fragment: what is left, or a multiple of 32 that is less. *)
Lemma fragment_size_spec maxdata psize off : 32 <= maxdata -> 0 <= off <= psize ->
  let size := eoe_fragment_size maxdata psize off in
  0 <= size <= maxdata /\
  ((size =? psize - off) = true /\ size = psize - off
   \/ (size =? psize - off) = false /\ 32 <= size /\ off + size < psize /\ size mod 32 = 0).
Proof.
  intros Hm Ho size. unfold size, eoe_fragment_size. rewrite Z.shiftl_mul_pow2, Z.shiftr_div_pow2 by done.
  change (2 ^ 5) with 32. pose proof (Z.div_mod maxdata 32). pose proof (Z.mod_pos_bound maxdata 32).
  destruct (Z.ltb_spec maxdata (psize - off)).
  - split; [lia|]. right. split_and!; [apply Z.eqb_neq; lia | lia | lia | apply Z.mod_mul; done].
  - split; [lia|]. left. split; [apply Z.eqb_refl | done].
Qed.

Section Send.
Context (adr wo ro : Z) `{LoopFuel}.
#[local] Instance the_recorder : MailServer (list (list Z)) := recorder adr wo ro.
Abbreviation ctx := (ecx_contextt (maildev (list (list Z)))).
Context (slave : Z) (s : ec_slavet) (c0 : ctx).
Context (Hslave : 0 <= slave < zlen (slavelist c0)) (Hserved : served s)
        (Hfuel : (0 < loop_fuel)%nat).
Abbreviation mworld := (mworld slave s c0).

(** One round of the loop: the mailbox that reaches the slave. *)
Lemma wp_eoe_send_step port maxdata psize p timeout a d i q B Q c :
  mworld d None (i :: q) B c ->
  let off := tx_offset a in
  let size := eoe_fragment_size maxdata psize off in
  let last := size =? psize - off in
  let frame := if 0 <? tx_no a then tx_frame a else u8 (tx_frame a + 1) in
  0 <= off -> 0 <= size -> off + size <= zlen p -> 10 + size <= mbx_l s ->
  (forall cnt r B' c', 0 <= cnt < 8 ->
     mworld (d ++ [fragment_mail cnt port psize off (tx_no a) frame last
                     (take (Z.to_nat size) (drop (Z.to_nat off) p)) r]) None (q ++ [i]) B' c' ->
     let a := a <| tx_wkc := 1 |> <| tx_frame := frame |> in
     Q (if last then (false, a)
        else (true, a <| tx_offset ::= (fun o => o + size) |> <| tx_no ::= (fun n => u8 (n + 1)) |>)) c') ->
  wp no_fault (eoe_send_step slave port maxdata psize p timeout a) Q c.
Proof.
  intros Hw off size last frame Hoff Hsize Hp Hl HQ.
  destruct (mworld_free slave s c0 Hfuel _ _ _ _ _ _ Hw) as (Hni & Hi & b & Hb).
  destruct Hserved as (_ & _ & _ & _ & _ & Hml & _).
  apply wp_bind. eapply wp_mw_getmbx; [done|]. intros c1 H1. apply wp_bind, wp_ret, wp_bind.
  eapply wp_mw_clear; [done..|]. intros b1 c2 Hb1 H2. fold off. fold size. fold last. fold frame.
  assert (HB : forall (B : list (list Z)) (x : list Z), 0 <= i < zlen B -> zget (<[Z.to_nat i := x]> B) i = Some x).
  { intros. rewrite zget_insert by done. by rewrite decide_True. }
  pose proof (zget_lt _ _ _ Hb) as HiB.
  apply wp_bind. eapply wp_mw_mbxcnt; [done..|]. intros cnt c3 Hcnt H3.
  set (h := eoe_header _ _ _ _). assert (Hh : zlen h = 10) by done.
  apply wp_bind. eapply wp_mw_write; [done | by apply HB | apply zblit_head; lia|]. intros c4 H4.
  rewrite list_insert_insert_eq in H4.
  apply wp_bind. eapply wp_of_opt; [by apply zslice_some|].
  set (data := take _ (drop _ p)). assert (Hd : zlen data = size).
  { unfold data, zlen in *. rewrite length_take, length_drop. lia. }
  assert (Hr : zlen (drop (length h) b1) = EC_MAXMBX + 1 - 10).
  { unfold zlen in *. rewrite length_drop. lia. }
  apply wp_bind. eapply wp_mw_write; [done | by apply HB | apply zblit_after; [done | lia] |].
  intros c5 H5. rewrite list_insert_insert_eq in H5.
  apply wp_bind. eapply wp_mw_send; [done | done | done | exact H5 | by apply HB | done|].
  intros c6 r H6. cbn [serve the_recorder recorder] in r. subst r. cbn [fst snd] in H6.
  rewrite take_two in H6 by (unfold zlen in *; lia).
  assert (Hm : h = eoe_header (u16 (4 + zlen data)) cnt (eoe_frameinfo1 port last)
                     (eoe_frameinfo2 psize off (tx_no a) frame)) by (rewrite Hd; reflexivity).
  rewrite Hm in H6. specialize (HQ _ _ _ _ Hcnt H6). cbn zeta in HQ.
  cbn [Z.ltb Z.compare]. rewrite andb_true_r. clear - HQ. subst last.
  destruct (size =? psize - off); cbn [negb]; by apply wp_ret.
Qed.

(** The state of the loop, with the mailboxes sent so far. *)
Definition sending (psize : Z) (p : list Z) (txframeno : Z) (d : list (list Z)) (a : eoe_tx) (c : ctx)
    : Prop :=
  exists mails i q B, mworld (d ++ mails) None (i :: q) B c
  /\ feeds psize (u8 (txframeno + 1)) p mails (tx_offset a) (tx_no a)
  /\ 0 <= 32 * tx_no a <= tx_offset a /\ tx_offset a <= psize /\ tx_offset a mod 32 = 0
  /\ (0 < tx_no a -> tx_offset a < psize)
  /\ (if 0 <? tx_no a then tx_frame a else u8 (tx_frame a + 1)) = u8 (txframeno + 1).

Definition sent (psize : Z) (p : list Z) (txframeno : Z) (d : list (list Z)) (a : eoe_tx) (c : ctx)
    : Prop :=
  tx_wkc a = 1 /\ tx_frame a = u8 (txframeno + 1) /\
  exists mails, md_state (link c) = d ++ mails
  /\ forall st bufsize buf, psize <= bufsize -> psize <= zlen buf ->
     exists buf', eoe_feed mails st bufsize buf = Some (1, eoe_reader_zero, psize, buf')
       /\ zlen buf' = zlen buf /\ take (Z.to_nat psize) buf' = take (Z.to_nat psize) p.

Lemma sending_step port psize p timeout txframeno d a c :
  42 <= mbx_l s -> 0 <= psize <= 2016 -> psize <= zlen p ->
  sending psize p txframeno d a c ->
  wp no_fault (eoe_send_step slave port (mbx_l s - 0x0A) psize p timeout a)
    (fun r c' => if r.1 : bool then sending psize p txframeno d r.2 c'
                              /\ (Z.to_nat (63 - tx_no r.2) < Z.to_nat (63 - tx_no a))%nat
               else sent psize p txframeno d r.2 c') c.
Proof.
  intros Hl Hps Hp (mails & i & q & B & Hw & Hfeed & Hno & Hoff & Hm & Hlt & Hfr).
  destruct (fragment_size_spec (mbx_l s - 10) psize (tx_offset a)) as [Hs Hcase]; [lia..|].
  assert (Hlt' : tx_no a < 63) by (destruct (Z.ltb_spec 0 (tx_no a)); lia).
  eapply wp_eoe_send_step; [exact Hw | lia.. |]. intros cnt r B' c' Hcnt Hw'. cbn zeta.
  rewrite <- app_assoc, Hfr in Hw'.
  pose proof (feeds_one _ _ _ _ _ _ cnt port (eoe_fragment_size (mbx_l s - 10) psize (tx_offset a)
    =? psize - tx_offset a) _ r Hfeed Hcnt Hps ltac:(lia) ltac:(lia) Hm Hlt (proj1 Hs) ltac:(lia) Hp)
    as Hone.
  destruct Hcase as [[Hlast Heq]|(Hlast & Hge & Hend & Hm32)]; rewrite Hlast in *; cbn [fst snd].
  - split; [done|]. split; [exact Hfr|]. eexists. split; [by destruct Hw' as (? & ? & ? & -> & _)|].
    intros st bufsize buf Hbs Hbuf. destruct (Hone st bufsize buf Hbs Hbuf) as (buf' & Hl' & Ht & Hf).
    exists buf'. by replace (tx_offset a + _) with psize in * by lia.
  - split; [|cbn; rewrite u8_id by lia; lia].
    destruct (q ++ [i]) as [|i' q'] eqn:Hq; [by destruct q|].
    eexists _, i', q', _. cbn [tx_no tx_offset tx_frame]. split; [exact Hw'|]. cbn. rewrite (u8_id (tx_no a + 1)) by lia.
    split_and!; [| lia | lia | lia | | lia |].
    + intros st bufsize buf Hbs Hbuf. destruct (Hone st bufsize buf Hbs Hbuf) as (buf' & Hl' & Ht & Hf).
      eexists _, buf'. split; [exact Hf|]. split; [right; split; [lia | done] | done].
    + rewrite Z.add_mod, Hm, Hm32 by lia. done.
    + destruct (Z.ltb_spec 0 (tx_no a + 1)); [exact Hfr | lia].
Qed.

(** C14: A frame of at most 2016 bytes that [ecx_EOEsend] sends to a slave with a mailbox of
    at least 42 bytes arrives: the call ends with work counter 1 and the next frame number,
    and the mailboxes the slave gets, read one by one by [ecx_EOEreadfragment] from any state
    of the reader into a buffer that is large enough, are answered 0 but for the last one,
    which is answered 1 with the size of the frame, the frame in the buffer and the reader
    ready for the next frame. *)
Theorem eoe_frame_reassembled port psize p timeout txframeno d now :
  zget (slavelist c0) slave = Some s -> link c0 = MailDev d None now ->
  pool_wf (mbxpool c0) -> pool_free (mbxpool c0) <> [] ->
  42 <= mbx_l s -> 0 <= psize <= 2016 -> psize <= zlen p -> (64 <= loop_fuel)%nat ->
  total (ecx_EOEsend txframeno slave port psize p timeout)
    (fun r c => r = (1, u8 (txframeno + 1)) /\
       exists mails, md_state (link c) = d ++ mails /\
       forall st bufsize buf, psize <= bufsize -> psize <= zlen buf ->
       exists buf', eoe_feed mails st bufsize buf = Some (1, eoe_reader_zero, psize, buf')
         /\ zlen buf' = zlen buf /\ take (Z.to_nat psize) buf' = take (Z.to_nat psize) p) c0.
Proof.
  intros Hs Hlink Hpool Hfree Hl Hps Hp Hf.
  assert (Hw : mworld d None (pool_free (mbxpool c0)) (MbxPool.mbx (mbxpool c0)) c0)
    by (by eapply mworld_start).
  destruct (pool_free (mbxpool c0)) as [|i q] eqn:Hq; [done|].
  apply wp_bind. eapply wp_get_slave; [exact Hs|]. cbn zeta.
  destruct (Z.ltb_spec (mbx_l s - 0x0A) 0); [lia|]. apply wp_bind.
  apply (wp_do_while no_fault (sending psize p txframeno d) (fun a _ => Z.to_nat (63 - tx_no a)))
    with (Q := fun a c => wp no_fault (ret (tx_wkc a, tx_frame a)) _ c).
  - intros a c Ha. eapply wp_mono; [by apply sending_step|]. intros [[] a'] c'; [done|].
    cbn. intros (Hk & Hfr & Hm). apply wp_ret. by rewrite Hk, Hfr.
  - exists [], i, q, (MbxPool.mbx (mbxpool c0)). rewrite app_nil_r. cbn.
    split_and!; try done; try lia. intros st bufsize buf _ _. exists st, buf. split; [done|].
    split; [by left | done].
  - cbn. lia.
Qed.
End Send.


(** ** A witness: a frame of 100 bytes in two fragments *)

#[local] Instance fuel_frame : LoopFuel := 64%nat.
#[local] Instance recorder_at : MailServer (list (list Z)) := recorder 0x1001 0x1000 0x1400.
Definition frame_hundred : list Z := seqZ 0 100.
Definition frame_ctx : ecx_contextt (maildev (list (list Z))) :=
  (ctx0 (MailDev [] None 0)) <| mbxpool := pool_two |>.

Lemma eoe_frame_reassembled_witness :
  total (ecx_EOEsend 3 1 0 100 frame_hundred 1000)
    (fun r c => r = (1, 4) /\ exists mails, md_state (link c) = mails
       /\ exists buf, eoe_feed mails eoe_reader_zero 1536 (replicate 1536 0)
                      = Some (1, eoe_reader_zero, 100, buf)
          /\ take 100 buf = frame_hundred) frame_ctx.
Proof.
  eapply wp_mono.
  - apply (eoe_frame_reassembled 0x1001 0x1000 0x1400 1 slave0 frame_ctx) with (d := []) (now := 0);
      [done | split_and!; done | apply Nat.ltb_lt; reflexivity | done | done | exact pool_two_wf | done | done
       | done | done | apply Nat.leb_le; reflexivity].
  - intros r c (Hr & mails & Hm & Hf). split; [exact Hr|]. exists mails. split; [exact Hm|].
    destruct (Hf eoe_reader_zero 1536 (replicate 1536 0)) as (buf & H1 & _ & H2); [done..|].
    exists buf. split; [exact H1 | exact H2].
Defined.
