(* ===== verification/MbxTheorems.v ===== *)
(** * Theorems on the mailbox handlers

    The ownership of mailboxes: the cyclic handler keeps every mailbox in exactly one place, and its round visits the
    positions of the status bytes in turn. *)

From S2P Require Import Prelude Ring Osal Types ErrorRing Mailbox PoolSpec Context Eeprom AlState.
From S2P Require Import MbxHandler NicRecv Transfer LinkSpec EepromSim.
Import MbxPool stdpp.list_relations.list stdpp.list_basics.list.

(** * Ownership of mailboxes

    Every mailbox of the pool has one place: it is free, it lies in a mailbox slot of a
    slave, or somebody holds it.  The rules here say how the steps of the cyclic handler
    move mailboxes between these places. *)

(** ** Slots *)

Definition mbxin_items (m : mbxin) : list Z := match m with MbxAt i => [i] | _ => [] end.

Definition all_slots : list mbxslot := [coe_slot; soe_slot; foe_slot; eoe_slot; voe_slot; aoe_slot].

(** The mailboxes that lie in the slots of a slave. *)
Definition slot_items (s : ec_slavet) : list Z :=
  mbxin_items (coembxin s) ++ mbxin_items (soembxin s) ++ mbxin_items (foembxin s)
  ++ mbxin_items (eoembxin s) ++ mbxin_items (voembxin s) ++ mbxin_items (aoembxin s).

(** A slot that holds a mailbox is marked full, and a mailbox fits a pool buffer. *)
Record slave_ok (s : ec_slavet) : Prop := SlaveOk {
  sk_full : Forall (fun sl => slot_full sl s = false -> mbxin_items (slot_in sl s) = []) all_slots;
  sk_mbx_rl : mbx_rl s <= EC_MAXMBX;
}.

(** Case analysis on the slot. *)
Lemma slot_cases (P : mbxslot -> Prop) sl :
  P coe_slot -> P soe_slot -> P foe_slot -> P eoe_slot -> P voe_slot -> P aoe_slot ->
  sl ∈ all_slots -> P sl.
Proof.
  intros. unfold all_slots in *. repeat match goal with H : _ ∈ _ :: _ |- _ => apply elem_of_cons in H as [->|H] end;
    try done. by apply elem_of_nil in H5.
Qed.

(** What filling and overrunning a slot do. *)
Lemma slot_fill_spec sl s m :
  sl ∈ all_slots -> slave_ok s -> slot_full sl s = false ->
  slave_ok (slot_fill sl m s) /\ slot_items (slot_fill sl m s) ≡ₚ m :: slot_items s.
Proof.
  intros Hsl [Hf Hrl] Hempty. rewrite Forall_forall in Hf. pose proof (Hf sl Hsl Hempty) as He.
  rewrite <- Forall_forall in Hf. revert Hsl Hempty He.
  unfold all_slots in Hf. rewrite !Forall_cons in Hf. destruct Hf as (F1 & F2 & F3 & F4 & F5 & F6 & _).
  apply (slot_cases (fun sl => slot_full sl s = false -> mbxin_items (slot_in sl s) = [] -> 
    slave_ok (slot_fill sl m s) /\ slot_items (slot_fill sl m s) ≡ₚ m :: slot_items s)).
  all: intros Hempty He; split; [split; [by repeat constructor | done]|].
  all: unfold slot_items; cbn in *; rewrite He; cbn; solve_Permutation.
Qed.

Lemma slot_overrun_spec sl s :
  sl ∈ all_slots -> slave_ok s ->
  slave_ok (slot_overrun sl s) /\ slot_items (slot_overrun sl s) = slot_items s.
Proof.
  intros Hsl [Hf Hrl]. unfold all_slots in Hf. rewrite !Forall_cons in Hf.
  destruct Hf as (F1 & F2 & F3 & F4 & F5 & F6 & _). revert Hsl.
  apply (slot_cases (fun sl => slave_ok (slot_overrun sl s) /\ slot_items (slot_overrun sl s) = slot_items s)).
  all: split; [split; [by repeat constructor | done] | done].
Qed.

Lemma slot_release_spec sl s :
  sl ∈ all_slots -> slave_ok s ->
  slave_ok (slot_release sl s)
  /\ slot_items s ≡ₚ mbxin_items (slot_in sl s) ++ slot_items (slot_release sl s).
Proof.
  intros Hsl [Hf Hrl]. unfold all_slots in Hf. rewrite !Forall_cons in Hf.
  destruct Hf as (F1 & F2 & F3 & F4 & F5 & F6 & _). revert Hsl.
  apply (slot_cases (fun sl => slave_ok (slot_release sl s)
    /\ slot_items s ≡ₚ mbxin_items (slot_in sl s) ++ slot_items (slot_release sl s))).
  all: split; [split; [by repeat constructor | done]|].
  all: unfold slot_items; cbn; solve_Permutation.
Qed.

(** ** The invariant *)

(** The mailboxes in the slots of all slaves. *)
Definition slot_held (l : list ec_slavet) : list Z := concat (slot_items <$> l).

Lemma slot_held_update l i s s' :
  zget l i = Some s ->
  exists rest, slot_held l ≡ₚ slot_items s ++ rest
    /\ slot_held (<[Z.to_nat i := s']> l) ≡ₚ slot_items s' ++ rest.
Proof.
  intros Hs. unfold zget in Hs. destruct (i <? 0); [done|].
  pose proof (take_drop_middle _ _ _ Hs) as Hl. set (n := Z.to_nat i) in *.
  exists (slot_held (take n l) ++ slot_held (drop (S n) l)). split.
  - rewrite <- Hl at 1. unfold slot_held. rewrite fmap_app, fmap_cons, concat_app. cbn. solve_Permutation.
  - rewrite insert_take_drop by (by eapply lookup_lt_Some). unfold slot_held.
    rewrite fmap_app, fmap_cons, concat_app. cbn. solve_Permutation.
Qed.

(** A slot of the list, and a change that leaves the slots alone. *)
Ltac slot_mem := unfold all_slots; rewrite !elem_of_cons; tauto.
Ltac same_slots :=
  let Hf := fresh in let Hr := fresh in
  intros ? [Hf Hr]; split; [split; [unfold all_slots in *; rewrite !Forall_cons, Forall_nil in Hf |- *; exact Hf
                                   | exact Hr] | reflexivity].

Section Own.
Context {L : Type} `{HL : LinkLaws L} (F : fault -> Prop).
Implicit Types c : ecx_contextt L.

(** The fixed part of a context, and the mailboxes [all] that exist: those in the pool,
    those in the slots, and those somebody holds. *)
Record fixed : Type := Fixed {
  fx_slaves : Z;
  fx_groups : list ec_groupt;
  fx_map : list Z;
}.

Record owned (fx : fixed) (all own : list Z) c : Prop := Owned {
  ow_link : lk_ok (link c);
  ow_pool : pool_wf (mbxpool c);
  ow_items : pool_free (mbxpool c) ++ slot_held (slavelist c) ++ own ≡ₚ all;
  ow_slaves : Forall slave_ok (slavelist c);
  ow_errors : ering_wf (elist (errors c));
  ow_count : zlen (slavelist c) = fx_slaves fx;
  ow_groups : grouplist c = fx_groups fx;
  ow_map : iomap c = fx_map fx;
}.

Lemma owned_perm fx all own own' c : own ≡ₚ own' -> owned fx all own c -> owned fx all own' c.
Proof. intros Hp []. split; try done. by rewrite <- Hp. Qed.

Lemma owned_link fx all own c c' : owned fx all own c -> link_step c c' -> owned fx all own c'.
Proof.
  intros [] [Hs Ho _]. rewrite Hs. split; try done.
Qed.

Lemma owned_errors fx all own c e :
  owned fx all own c -> ering_wf (elist e) -> owned fx all own (c <| errors := e |>).
Proof. intros [] He. by split. Qed.

Lemma owned_slave fx all own c slave :
  owned fx all own c -> 0 <= slave < fx_slaves fx ->
  exists s, zget (slavelist c) slave = Some s /\ slave_ok s.
Proof.
  intros Ho Hs. destruct (zget_some (slavelist c) slave) as [s Hz]; [by rewrite (ow_count _ _ _ _ Ho)|].
  exists s. split; [done|]. eapply Forall_zget; [apply Ho | done].
Qed.

(** Reading and changing a slave; [own'] is what is held after the change. *)
Lemma wp_owned_get fx all own slave Q c :
  owned fx all own c -> 0 <= slave < fx_slaves fx ->
  (forall s, zget (slavelist c) slave = Some s -> slave_ok s -> Q s c) -> wp F (get_slave slave) Q c.
Proof.
  intros Ho Hs HQ. destruct (owned_slave _ _ _ _ _ Ho Hs) as (s & Hz & Hk).
  by apply (wp_get_slave F slave s); [|apply HQ].
Qed.

Lemma wp_owned_mod fx all own own' slave f Q c :
  owned fx all own c -> 0 <= slave < fx_slaves fx ->
  (forall s, zget (slavelist c) slave = Some s -> slave_ok s ->
     slave_ok (f s) /\ slot_items (f s) ++ own' ≡ₚ slot_items s ++ own) ->
  (forall c', owned fx all own' c' -> Q tt c') -> wp F (mod_slave slave f) Q c.
Proof.
  intros Ho Hs Hf HQ. destruct (owned_slave _ _ _ _ _ Ho Hs) as (s & Hz & Hk).
  destruct (Hf s Hz Hk) as [Hk' Hp]. apply (wp_mod_slave F slave s); [done|]. apply HQ.
  destruct Ho as [? ? Hi Hsl ? Hc ? ?]. split; try done.
  - cbn. destruct (slot_held_update (slavelist c) slave s (f s) Hz) as (rest & H1 & H2).
    rewrite H2, <- Hi, H1. rewrite <- !app_assoc. apply Permutation_app_head.
    rewrite (Permutation_app_comm rest own'), (Permutation_app_comm rest own), !app_assoc.
    by rewrite Hp.
  - cbn. by apply Forall_insert.
  - cbn. unfold zlen in *. by rewrite length_insert.
Qed.

(** A change that leaves the slots alone. *)
Lemma wp_owned_set fx all own slave f Q c :
  owned fx all own c -> 0 <= slave < fx_slaves fx ->
  (forall s, slave_ok s -> slave_ok (f s) /\ slot_items (f s) = slot_items s) ->
  (forall c', owned fx all own c' -> Q tt c') -> wp F (mod_slave slave f) Q c.
Proof.
  intros Ho Hs Hf HQ. eapply (wp_owned_mod fx all own own); [done | done | | done].
  intros s _ Hk. destruct (Hf s Hk) as [? ->]. by split.
Qed.

(** ** The pool *)

Lemma wp_owned_getmbx fx all own Q c :
  owned fx all own c ->
  (forall i c', owned fx all (i :: own) c' -> 0 <= i < EC_MBXPOOLSIZE -> Q (Some i) c') ->
  (forall c', owned fx all own c' -> Q None c') ->
  wp F ctx_getmbx Q c.
Proof.
  intros Ho HS HN. unfold ctx_getmbx, onpool. apply wp_zoom, wp_total.
  pose proof (ow_pool _ _ _ _ Ho) as Hwf. eapply wp_mono; [by apply getmbx_spec|].
  intros r p (Hp & _ & Hr). destruct Ho as [? ? Hi ? ? ? ? ?].
  destruct (pool_free (mbxpool c)) as [|i q] eqn:Hq.
  - destruct Hr as [-> Hq']. apply HN. split; cbn; try done. by rewrite Hq'.
  - destruct Hr as [-> Hq']. apply HS.
    + split; cbn; try done. rewrite Hq', <- Hi. solve_Permutation.
    + destruct Hwf as (_&_&_&_&_&_&Hr&_). rewrite Hq in Hr. by apply Forall_cons in Hr as [? _].
Qed.

Lemma wp_owned_drop fx all own i Q c :
  NoDup all -> Forall (fun j => 0 <= j < EC_MBXPOOLSIZE) all -> owned fx all (i :: own) c ->
  (forall c', owned fx all own c' -> Q tt c') ->
  wp F (let* _r := ctx_dropmbx i in ret tt) Q c.
Proof.
  intros Hnd Hall Ho HQ. pose proof Ho as [? Hwf Hi ? ? ? ? ?]. apply wp_bind.
  unfold ctx_dropmbx, onpool. apply wp_zoom, wp_total.
  assert (Hin : i ∈ all) by (rewrite <- Hi; rewrite !elem_of_app, elem_of_cons; auto).
  assert (Hnf : i ∉ pool_free (mbxpool c)).
  { rewrite <- Hi in Hnd. apply NoDup_app in Hnd as (_ & Hd & _). intros Hx. apply (Hd _ Hx).
    rewrite elem_of_app, elem_of_cons. auto. }
  eapply wp_mono; [apply dropmbx_spec; [done | | done]|].
  { rewrite Forall_forall in Hall. by apply Hall. }
  intros r p (-> & Hp & _ & Hq). apply wp_ret, HQ. split; cbn; try done.
  rewrite Hq, <- Hi. solve_Permutation.
Qed.

(** ** Buffers and fields *)

Lemma wp_field_u8 b off Q c :
  zlen b = EC_MAXMBX + 1 -> 0 <= off < EC_MAXMBX -> (forall v, Q v c) -> wp F (oobC (field_u8 b off)) Q c.
Proof.
  intros Hb Ho HQ. destruct (zget_some b off) as [v Hv]; [lia|]. unfold oobC, field_u8.
  eapply wp_of_opt; [exact Hv | apply HQ].
Qed.

Lemma wp_field_u16 b off Q c :
  zlen b = EC_MAXMBX + 1 -> 0 <= off < EC_MAXMBX -> (forall v, Q v c) -> wp F (oobC (field_u16 b off)) Q c.
Proof.
  intros Hb Ho HQ. destruct (zget_some b off) as [v Hv]; [lia|].
  destruct (zget_some b (off + 1)) as [v' Hv']; [lia|]. unfold oobC, field_u16.
  rewrite Hv, Hv'. apply wp_ret, HQ.
Qed.

Lemma wp_owned_buffer fx all own item Q c :
  owned fx all own c -> 0 <= item < EC_MBXPOOLSIZE ->
  (forall b, zlen b = EC_MAXMBX + 1 -> zget (mbx (mbxpool c)) item = Some b -> Q b c) ->
  wp F (get_buffer item) Q c.
Proof.
  intros Ho Hi HQ. destruct (ow_pool _ _ _ _ Ho) as (_ & Hm & Hb & _).
  destruct (zget_some (mbx (mbxpool c)) item) as [b Hz]; [by rewrite Hm|].
  unfold get_buffer. apply wp_bind, wp_gets. unfold oobC. eapply wp_of_opt; [exact Hz|].
  apply HQ; [|done]. exact (Forall_zget _ _ _ _ Hb Hz).
Qed.

Lemma wp_owned_put fx all own item b Q c :
  owned fx all own c -> 0 <= item < EC_MBXPOOLSIZE -> zlen b = EC_MAXMBX + 1 ->
  (forall c', owned fx all own c' -> Q tt c') -> wp F (put_buffer item b) Q c.
Proof.
  intros Ho Hi Hb HQ. pose proof Ho as [? (Hl & Hm & Hbs & Hr) Hit ? ? ? ? ?].
  unfold put_buffer. apply wp_bind, wp_gets, wp_bind. unfold oobC.
  pose proof (zset_some (mbx (mbxpool c)) item b ltac:(lia)) as Hset.
  eapply wp_of_opt; [exact Hset|]. apply wp_modify, HQ. split; cbn; try done.
  unfold pool_wf. cbn. split_and!; try apply Hr; [done | | by eapply Forall_zset].
  by rewrite (zset_length _ _ _ _ Hset).
Qed.

Context (Hpat : lk_patient EC_TIMEOUTRET).

Lemma wp_owned_FPRD fx all own item ADP ADO length Q c :
  owned fx all own c -> 0 <= item < EC_MBXPOOLSIZE -> 0 <= length <= EC_MAXMBX ->
  (forall r c', owned fx all own c' -> Q r c') ->
  wp F (mbx_FPRD ADP ADO length (Some item) EC_TIMEOUTRET) Q c.
Proof.
  change EC_MAXMBX with 1486. intros Ho Hi Hl HQ. unfold mbx_FPRD.
  apply wp_bind. eapply wp_owned_buffer; [done..|]. intros b Hb _.
  change (EC_MAXMBX + 1) with 1487 in Hb.
  apply wp_bind, (wp_ctx_read F lk_FPRD);
    [rewrite !elem_of_cons; auto | apply Ho | done | ec_unfold; lia | lia |].
  intros r c1 Hrc [Hr0 Hr1] Hs. apply wp_bind.
  eapply wp_owned_put; [by eapply owned_link | done | |].
  - change (EC_MAXMBX + 1) with 1487. destruct (Z.leb_spec r.1 0) as [Hle|Hgt].
    + by rewrite Hr0.
    + destruct (Hr1 Hgt) as (src & _ & _ & Hz). by rewrite (zblit_length _ _ _ _ Hz).
  - intros c2 Ho2. apply wp_ret, HQ, Ho2.
Qed.

Lemma wp_owned_FPWR fx all own ADP ADO v Q c :
  owned fx all own c -> (forall r c', owned fx all own c' -> Q r c') ->
  wp F (ctx_FPWR ADP ADO 2 (le_bytes 2 v) EC_TIMEOUTRET) Q c.
Proof.
  intros Ho HQ. apply (wp_ctx_write F lk_FPWR);
    [rewrite !elem_of_cons; auto | apply Ho | done | ec_unfold; lia | done |].
  intros r c1 _ Hs. apply HQ. by eapply owned_link.
Qed.

Lemma wp_owned_read fx all own n ADP ADO data Q c :
  owned fx all own c -> 0 <= n <= 1486 -> n <= zlen data ->
  (forall r c', owned fx all own c' -> Q r c') ->
  wp F (ctx_FPRD ADP ADO n data EC_TIMEOUTRET) Q c.
Proof.
  intros Ho Hn Hd HQ. apply (wp_ctx_read F lk_FPRD);
    [rewrite !elem_of_cons; auto | apply Ho | done | ec_unfold; lia | done |].
  intros r c1 _ _ Hs. apply HQ. by eapply owned_link.
Qed.

(** ** The steps of the handler *)

Lemma wp_owned_error fx all own (Ec : ec_errort) Q c :
  owned fx all own c -> (forall c', owned fx all own c' -> Q tt c') ->
  wp F (onerrors (ecx_pusherror Ec)) Q c.
Proof.
  intros Ho HQ. unfold onerrors. apply wp_zoom, wp_total.
  eapply wp_mono; [apply wp_pusherror; apply Ho|]. intros [] e (He & _ & _).
  apply HQ. by apply owned_errors.
Qed.

Lemma wp_owned_mbxerror fx all own slave d Q c :
  owned fx all own c -> (forall c', owned fx all own c' -> Q tt c') -> wp F (ctx_mbxerror slave d) Q c.
Proof.
  intros Ho HQ. unfold ctx_mbxerror. apply wp_bind, wp_ctx_current_time; [apply Ho|].
  intros now c1 Hs. unfold ecx_mbxerror. eapply wp_owned_error; [by eapply owned_link | done].
Qed.

Lemma wp_owned_emergency fx all own slave b Q c :
  owned fx all own c -> zlen b = EC_MAXMBX + 1 ->
  (forall c', owned fx all own c' -> Q tt c') -> wp F (ctx_emergency slave b) Q c.
Proof.
  intros Ho Hb HQ. unfold ctx_emergency.
  apply wp_bind, wp_field_u16; [done | done | intros v1].
  apply wp_bind, wp_field_u8; [done | done | intros v2].
  apply wp_bind, wp_field_u8; [done | done | intros v3].
  apply wp_bind, wp_field_u16; [done | done | intros v4].
  apply wp_bind, wp_field_u16; [done | done | intros v5].
  apply wp_bind, wp_ctx_current_time; [apply Ho|]. intros now c1 Hs.
  unfold ecx_mbxemergencyerror. eapply wp_owned_error; [by eapply owned_link | done].
Qed.

(** What the handler still holds of the mailbox [item]. *)
Definition kept_of (o : option Z) (item : Z) (own : list Z) : list Z :=
  match o with Some _ => item :: own | None => own end.

Lemma wp_slot_deliver fx all own sl slave item Q c :
  sl ∈ all_slots -> owned fx all (item :: own) c -> 0 <= slave < fx_slaves fx ->
  (forall o c', o = None \/ o = Some item -> owned fx all (kept_of o item own) c' -> Q o c') ->
  wp F (slot_deliver sl slave item) Q c.
Proof.
  intros Hsl Ho Hs HQ. unfold slot_deliver. apply wp_bind. eapply wp_owned_get; [done | done|].
  intros s0 Hz Hk. apply wp_if; intros Hb.
  - apply wp_bind. eapply (wp_owned_mod fx all (item :: own) own); [done | done | |].
    + intros s Hz' _. rewrite Hz in Hz'. injection Hz' as <-.
      destruct (slot_fill_spec sl s0 item Hsl Hk) as [? Hp].
      { apply andb_prop in Hb as [_ Hb]. by apply negb_true_iff. }
      split; [done|]. rewrite Hp. cbn. apply Permutation_middle.
    + intros c1 Ho1. apply wp_ret, HQ; [by left | done].
  - apply wp_bind. eapply wp_owned_set; [done | done | |].
    + intros s Hks. by apply slot_overrun_spec.
    + intros c1 Ho1. apply wp_ret, HQ; [by right | done].
Qed.


Lemma wp_inhandler_dispatch fx all own slave item Q c :
  owned fx all (item :: own) c -> 0 <= slave < fx_slaves fx -> 0 <= item < EC_MBXPOOLSIZE ->
  (forall o c', o = None \/ o = Some item -> owned fx all (kept_of o item own) c' -> Q o c') ->
  wp F (inhandler_dispatch slave item) Q c.
Proof.
  intros Ho Hs Hi HQ. unfold inhandler_dispatch.
  assert (Hdone : forall c', owned fx all (item :: own) c' -> Q (Some item) c').
  { intros c' Ho'. apply HQ; [by right | done]. }
  apply wp_bind. eapply wp_owned_buffer; [done..|]. intros b Hb _.
  apply wp_bind, wp_field_u8; [done | done | intros ty].
  apply wp_if; intros _.
  { apply wp_bind, wp_field_u16; [done | done | intros d].
    apply wp_bind. eapply wp_owned_mbxerror; [done|]. intros c1 Ho1. by apply wp_ret, Hdone. }
  apply wp_if; intros _.
  { apply wp_bind, wp_field_u16; [done | done | intros co]. apply wp_if; intros _.
    - apply wp_bind. eapply wp_owned_emergency; [done | done |]. intros c1 Ho1. by apply wp_ret, Hdone.
    - eapply wp_slot_deliver; [slot_mem | done..]. }
  apply wp_if; intros _; [eapply wp_slot_deliver; [slot_mem | done..]|].
  apply wp_if; intros _.
  { apply wp_bind, wp_field_u16; [done | done | intros info]. apply wp_bind, wp_gets.
    apply wp_if; intros _; [eapply wp_slot_deliver; [slot_mem | done..]|].
    apply wp_bind. eapply wp_owned_set; [done | done | |].
    - intros s Hk. apply slot_overrun_spec; [slot_mem | done].
    - intros c1 Ho1. by apply wp_ret, Hdone. }
  apply wp_if; intros _; [eapply wp_slot_deliver; [slot_mem | done..]|].
  apply wp_if; intros _; [eapply wp_slot_deliver; [slot_mem | done..]|].
  apply wp_if; intros _; [eapply wp_slot_deliver; [slot_mem | done..]|].
  by apply wp_ret, Hdone.
Qed.

Lemma wp_inhandler_rmp fx all own junk slave Q c :
  owned fx all own c -> 0 <= slave < fx_slaves fx ->
  (forall c', owned fx all own c' -> Q tt c') -> wp F (inhandler_rmp junk slave) Q c.
Proof.
  intros Ho Hs HQ. unfold inhandler_rmp. apply wp_bind. eapply wp_owned_get; [done | done|].
  intros s Hz Hk. apply wp_if; intros _.
  { apply wp_bind. unfold ecx_readmbxstatusex. apply wp_bind. eapply wp_owned_get; [done | done|].
    intros s1 _ _. apply wp_bind. eapply wp_owned_read; [done | lia | done |].
    intros r c1 Ho1. apply wp_ret, wp_bind. eapply wp_owned_set; [done | done | same_slots |].
    intros c2 Ho2. apply wp_when; intros _; [|by apply HQ].
    eapply wp_owned_set; [done | done | same_slots | done]. }
  apply wp_if; intros _.
  { apply wp_bind. eapply wp_owned_FPWR; [done|]. intros r c1 Ho1. apply wp_when; intros _; [|by apply HQ].
    eapply wp_owned_set; [done | done | same_slots | done]. }
  apply wp_if; intros _; [|by apply wp_ret, HQ].
  apply wp_bind. eapply wp_owned_read; [done | lia | done |]. intros r c1 Ho1.
  apply wp_when; intros _; [|by apply HQ]. eapply wp_owned_set; [done | done | same_slots | done].
Qed.

Context (all : list Z) (Hnd : NoDup all) (Hall : Forall (fun j => 0 <= j < EC_MBXPOOLSIZE) all).

Lemma wp_inhandler_fetch fx own slave Q c :
  owned fx all own c -> 0 <= slave < fx_slaves fx ->
  (forall b c', owned fx all own c' -> Q b c') -> wp F (inhandler_fetch slave) Q c.
Proof.
  intros Ho Hs HQ. unfold inhandler_fetch. apply wp_bind. eapply wp_owned_get; [done | done|].
  intros s Hz Hk. apply wp_if; intros Hl; [|by apply wp_ret, HQ].
  apply wp_bind. eapply wp_owned_getmbx; [done| |intros c1 Ho1; by apply wp_ret, HQ].
  intros i c1 Ho1 Hi. apply wp_bind. pose proof (sk_mbx_rl _ Hk).
  eapply wp_owned_FPRD; [done | done | lia |]. intros wkc c2 Ho2. apply wp_bind.
  apply (wp_mono F _ (fun o c3 => (o = None \/ o = Some i) /\ owned fx all (kept_of o i own) c3)).
  { apply wp_if; intros _.
    - eapply wp_inhandler_dispatch; [done | done | done | done].
    - apply wp_bind. eapply wp_owned_set; [done | done | same_slots |].
      intros c3 Ho3. apply wp_ret. by split; [right|]. }
  intros o c3 [[-> | ->] Ho3]; apply wp_bind.
  - by apply wp_ret, wp_ret, HQ.
  - eapply wp_owned_drop; [done | done | exact Ho3 |]. intros c4 Ho4. by apply wp_ret, HQ.
Qed.
End Own.

(** ** A round of the incoming mailboxes *)

(** The group whose mailboxes are handled: a status byte and a slave for every position. *)
Record round_ok (fx : fixed) (g : ec_groupt) : Prop := RoundOk {
  ro_last : -1 <= lastmbxpos g < mbxstatuslength g;
  ro_some : 0 < mbxstatuslength g;
  ro_slaves : forall i, 0 <= i < mbxstatuslength g ->
    exists sl, zget (mbxstatuslookup g) i = Some sl /\ 0 <= sl < fx_slaves fx;
  ro_map : exists off, gmbxstatus g = Some off /\ 0 <= off
    /\ off + mbxstatuslength g <= zlen (fx_map fx);
}.

(** The fixed part with the round of [group] at position [p]. *)
Definition at_position (fx : fixed) (group : Z) (g : ec_groupt) (p : Z) : fixed :=
  Fixed (fx_slaves fx) (<[Z.to_nat group := g <| lastmbxpos := p |>]> (fx_groups fx)) (fx_map fx).

Lemma offset_range first maxcnt cnt :
  0 <= first <= maxcnt -> 0 <= cnt < maxcnt -> 0 <= inhandler_offset first maxcnt cnt < maxcnt.
Proof. intros Hf Hc. unfold inhandler_offset. destruct (Z.leb_spec maxcnt (first + cnt)); lia. Qed.

Section Round.
Context {L : Type} `{HL : LinkLaws L} (Hpat : lk_patient EC_TIMEOUTRET) (F : fault -> Prop).
Context (all : list Z) (Hnd : NoDup all) (Hall : Forall (fun j => 0 <= j < EC_MBXPOOLSIZE) all).
Context (fx : fixed) (group : Z) (g : ec_groupt) (Hg : zget (fx_groups fx) group = Some g)
  (Hro : round_ok fx g).
Implicit Types c : ecx_contextt L.
Abbreviation at_pos := (at_position fx group g).

Lemma at_position_group p : zget (fx_groups (at_pos p)) group = Some (g <| lastmbxpos := p |>).
Proof. pose proof (zget_lt _ _ _ Hg). cbn. by eapply zget_zset_eq, zset_some. Qed.

Lemma wp_inhandler_visit own junk p q Q c :
  owned (at_pos p) all own c -> 0 <= q < mbxstatuslength g ->
  (forall b c', owned (at_pos q) all own c' -> Q b c') ->
  wp F (inhandler_visit junk group q) Q c.
Proof.
  intros Ho Hq HQ. unfold inhandler_visit. pose proof (at_position_group p) as Hgp.
  apply wp_bind. eapply wp_mod_group; [rewrite (ow_groups _ _ _ _ Ho); exact Hgp|].
  match goal with |- wp _ _ _ ?c' => assert (Ho1 : owned (at_pos q) all own c') end.
  { destruct Ho as [? ? ? ? ? ? Hgr ?]. split; try done. cbn. rewrite Hgr. cbn.
    by rewrite list_insert_insert_eq. }
  clear Ho. revert Ho1. generalize (c <| grouplist := <[Z.to_nat group := (g <| lastmbxpos := p |>) <| lastmbxpos := q |>]> (grouplist c) |>).
  intros c1 Ho1. pose proof (at_position_group q) as Hgq. rewrite <- (ow_groups _ _ _ _ Ho1) in Hgq.
  apply wp_bind. eapply wp_get_group; [exact Hgq|].
  destruct (ro_slaves _ _ Hro q Hq) as (sl & Hsl & Hslr). apply wp_bind. unfold oobC.
  eapply wp_of_opt; [exact Hsl|]. apply wp_bind. eapply (wp_owned_get F (at_pos q)); [done | done |].
  intros s Hz Hk. apply wp_if; intros _; [|by apply wp_ret, HQ]. apply wp_if; intros _.
  - apply wp_if; intros _.
    + apply wp_bind. eapply (wp_owned_set F (at_pos q)); [done | done | same_slots |].
      intros c2 Ho2. by apply wp_ret, HQ.
    + apply wp_bind. eapply (wp_inhandler_rmp F Hpat (at_pos q)); [done | done |].
      intros c2 Ho2. by apply wp_ret, HQ.
  - destruct (ro_map _ _ Hro) as (off & Hoff & Ho0 & Hle). apply wp_bind.
    eapply wp_of_opt; [exact Hoff|]. apply wp_bind. unfold iomap_read. apply wp_bind, wp_gets.
    rewrite (ow_map _ _ _ _ Ho1). cbn [fx_map at_position].
    eapply wp_of_opt; [apply zslice_some; lia|]. apply wp_if; intros _; [|by apply wp_ret, HQ].
    eapply (wp_inhandler_fetch F Hpat all Hnd Hall (at_pos q)); [done | done |]. intros b c2 Ho2. by apply HQ.
Qed.

Lemma wp_mbxinhandler own junk limit p Q c :
  owned (at_pos p) all own c -> lastmbxpos g = p ->
  (forall r q c', owned (at_pos q) all own c' -> 0 <= q < mbxstatuslength g ->
     0 <= r <= Z.max 1 limit -> Q r c') ->
  wp F (ecx_mbxinhandler junk group limit) Q c.
Proof.
  intros Ho Hp HQ. unfold ecx_mbxinhandler. pose proof (ro_last _ _ Hro) as Hlast. pose proof (ro_some _ _ Hro) as Hpos.
  pose proof (at_position_group p) as Hgp. rewrite <- (ow_groups _ _ _ _ Ho) in Hgp.
  apply wp_bind. eapply wp_get_group; [exact Hgp|]. cbn [lastmbxpos mbxstatuslength].
  change (mbxstatuslength (g <| lastmbxpos := p |>)) with (mbxstatuslength g).
  change (lastmbxpos (g <| lastmbxpos := p |>)) with p. set (maxcnt := mbxstatuslength g) in *.
  apply wp_bind.
  pose (I := fun (v : Z * Z * Z) c' => let '(cnt, limitcnt, m) := v in
    0 <= cnt <= maxcnt /\ 0 <= limitcnt /\ (cnt = 0 \/ 0 <= limitcnt <= Z.max 1 limit)
    /\ (m = maxcnt /\ (limitcnt < limit \/ limitcnt = 0) \/ m = 0 /\ 0 < cnt)
    /\ exists q, owned (at_pos q) all own c' /\ (0 < cnt -> 0 <= q < maxcnt) /\ (cnt = 0 -> limitcnt = 0)).
  eapply (wp_while_do F I (fun v _ => Z.to_nat (maxcnt - v.1.1))).
  2: { unfold I. split_and!; try lia. exists p. split_and!; [done | lia | done]. }
  2: { cbn. lia. }
  intros [[cnt limitcnt] m] c1 (Hcnt & Hlim0 & Hlim & Hm & q & Hoq & Hq & Hz). apply wp_ret.
  destruct (Z.ltb_spec cnt m) as [Hlt|Hge].
  - assert (m = maxcnt) as -> by lia. apply wp_bind.
    eapply wp_inhandler_visit; [exact Hoq | apply offset_range; [lia | lia] |].
    intros b c2 Ho2. apply wp_ret. split; [|cbn; lia]. unfold I.
    pose proof (offset_range (p + 1) maxcnt cnt ltac:(lia) ltac:(lia)) as Hor.
    destruct b; cbn [andb].
    + destruct (Z.leb_spec limit (limitcnt + 1)); split_and!; try lia.
      all: exists (inhandler_offset (p + 1) maxcnt cnt); split_and!; [done | lia | lia].
    + split_and!; try lia. exists (inhandler_offset (p + 1) maxcnt cnt). split_and!; [done | lia | lia].
  - apply wp_ret. cbn. apply (HQ limitcnt q); [done | | lia].
    apply Hq. lia.
Qed.
End Round.

Lemma at_position_same fx group g :
  zget (fx_groups fx) group = Some g -> at_position fx group g (lastmbxpos g) = fx.
Proof.
  intros Hg. unfold at_position. replace (g <| lastmbxpos := lastmbxpos g |>) with g by (by destruct g).
  unfold zget in Hg. destruct (group <? 0); [done|]. rewrite list_insert_id by done. by destruct fx.
Qed.

(** C11: A round of the incoming handler keeps every mailbox in exactly one place: those
    that were free, lay in a slot of a slave or were held by somebody else before are the
    ones that do so after it, so none is lost and none has two owners, whatever the slaves
    send.  The round never goes out of bounds, ends at a valid position, and does at most
    [limit] mailbox operations (one when [limit] is not positive). *)
Theorem mbxinhandler_conserves {L} `{LinkLaws L} (c : ecx_contextt L) (fx : fixed) (group : Z)
    (g : ec_groupt) (all own : list Z) (junk limit : Z) :
  lk_patient EC_TIMEOUTRET -> NoDup all -> Forall (fun j => 0 <= j < EC_MBXPOOLSIZE) all ->
  zget (fx_groups fx) group = Some g -> round_ok fx g -> owned fx all own c ->
  wp no_fault (ecx_mbxinhandler junk group limit)
    (fun r c' => 0 <= r <= Z.max 1 limit /\ exists q, 0 <= q < mbxstatuslength g
       /\ owned (at_position fx group g q) all own c') c.
Proof.
  intros Hpat Hnd Hall Hg Hro Ho. rewrite <- (at_position_same fx group g Hg) in Ho.
  eapply (wp_mbxinhandler Hpat no_fault all Hnd Hall fx group g Hg Hro own); [exact Ho | done |].
  intros r q c' Ho' Hq Hr. eauto.
Qed.

(** ** Witnesses *)

(** A slave under the cyclic handler whose IN mailbox is full, and its group. *)
Definition cyclic_slave : ec_slavet :=
  slave0 <| mbxhandlerstate := ECT_MBXH_CYCLIC |> <| coembxin := MbxInEnable |> <| mbxstatus := Some 0 |>.
Definition cyclic_group : ec_groupt :=
  EcGroup 0 0 0 0 0 false 0 0 0 0 0 [] (Some 0) 1 [1] 0 queue0 0 0 0.
Definition cyclic_ctx : ecx_contextt mute :=
  (ctx0 (Mute 0)) <| slavelist := [slave0; cyclic_slave] |> <| grouplist := [cyclic_group] |>
    <| mbxpool := pool_two |> <| iomap := [8] |> <| errors := EState ering_start false |>.
Definition cyclic_fixed : fixed := Fixed 2 [cyclic_group] [8].

Lemma cyclic_round : round_ok cyclic_fixed cyclic_group.
Proof.
  split; cbn; [lia | lia | | exists 0; split; [reflexivity | done]].
  intros i Hi. exists 1. replace i with 0 by lia. split; [reflexivity | lia].
Qed.

Lemma cyclic_owned : owned cyclic_fixed [7; 3; 5] [5] cyclic_ctx.
Proof.
  split; try done.
  - exact pool_two_wf.
  - repeat constructor; cbn; done.
Qed.

Lemma mbxinhandler_conserves_witness :
  owned cyclic_fixed [7; 3; 5] [5] cyclic_ctx
  /\ wp no_fault (ecx_mbxinhandler 0 0 10)
       (fun r c' => exists fx, owned fx [7; 3; 5] [5] c') cyclic_ctx.
Proof.
  split; [exact cyclic_owned|]. eapply wp_mono.
  { apply (mbxinhandler_conserves cyclic_ctx cyclic_fixed 0 cyclic_group [7; 3; 5] [5] 0 10);
      [exact I | apply (bool_decide_unpack _); reflexivity | repeat constructor; ec_unfold; lia
       | reflexivity | exact cyclic_round | exact cyclic_owned]. }
  intros r c' (_ & q & _ & Ho). exists (at_position cyclic_fixed 0 cyclic_group q). exact Ho.
Defined.
