(* ===== verification/Backend.v ===== *)
(** * The backend server: commands and cached objects
      (linux_rt/ethercat_rt_core/src/igh_lts_backend_server.c, common/ecat_protocol.h)

    The state the client thread and the real-time thread share, and what a message of the
    client does to it.  Every definition on a [BackendRuntime] is one critical section of the
    mutex, which is not in the state.  The cycle of the real-time thread is in RtCycle.v. *)

From Stdlib Require Import String Ascii.
From S2P Require Import Prelude Num Cia402 Profile.

Definition s8 (z : Z) : Z := (z + 2 ^ 7) mod 2 ^ 8 - 2 ^ 7.

(** ** Protocol (common/ecat_protocol.h) *)

Definition ECAT_NET_DEFAULT_PORT : Z := 15000.
Definition ECAT_NET_MAX_SLAVES : Z := 64.
Definition ECAT_NET_MAX_PDO_COPY : Z := 64.
Definition ECAT_NET_MAX_TEXT : nat := 256.
Definition ECAT_NET_MAX_NAME : nat := 64.
Definition ECAT_NET_CMD_FLAG_PROFILE_VALID : Z := 1.
Definition ECAT_NET_SDO_DATA : Z := 256.

Definition ECAT_NET_CMD_NONE : Z := 0.
Definition ECAT_NET_CMD_START : Z := 1.
Definition ECAT_NET_CMD_STOP : Z := 2.
Definition ECAT_NET_CMD_RESET_STATISTICS : Z := 3.
Definition ECAT_NET_CMD_SERVO_ENABLE : Z := 10.
Definition ECAT_NET_CMD_SERVO_DISABLE : Z := 11.
Definition ECAT_NET_CMD_SERVO_FAULT_RESET : Z := 12.
Definition ECAT_NET_CMD_SERVO_SET_MODE : Z := 13.
Definition ECAT_NET_CMD_SERVO_MOVE_ABS : Z := 20.
Definition ECAT_NET_CMD_SERVO_JOG : Z := 21.
Definition ECAT_NET_CMD_SERVO_HOME : Z := 22.
Definition ECAT_NET_CMD_SERVO_STOP : Z := 23.
Definition ECAT_NET_CMD_SERVO_MOVE_REL : Z := 24.
Definition ECAT_NET_CMD_LMS_MOVE_ABS : Z := 40.
Definition ECAT_NET_CMD_LMS_MOVE_VEL : Z := 41.
Definition ECAT_NET_CMD_LMS_STOP : Z := 42.

Record ECAT_NetCommand : Type := NetCommand {
  nc_command : Z;
  nc_slave_index : Z;
  nc_target_position : Z;
  nc_target_velocity : Z;
  nc_velocity : Z;
  nc_acceleration : Z;
  nc_deceleration : Z;
  nc_mode : Z;
  nc_homing_method : Z;
  nc_search_speed : Z;
  nc_latch_speed : Z;
  nc_command_flags : Z;
  nc_profile_type : Z;
  nc_jerk_ratio_permille : Z;
}.

Record ECAT_NetSdoRequest : Type := NetSdoRequest {
  sr_slave_index : Z;
  sr_index : Z;
  sr_subindex : Z;
  sr_reserved : Z;
  sr_size : Z;
  sr_data : list Z;
}.

Record ECAT_NetSdoReply : Type := NetSdoReply {
  sp_result : Z;
  sp_size : Z;
  sp_data : list Z;
}.
Definition sdo_reply_zero : ECAT_NetSdoReply := NetSdoReply 0 0 (replicate (Z.to_nat ECAT_NET_SDO_DATA) 0).

Record ECAT_NetRuntimeStatus (F : Type) : Type := NetRuntimeStatus {
  connected : Z;
  operational : Z;
  ns_slave_count : Z;
  ns_expected_wkc : Z;
  last_wkc : Z;
  total_cycles : Z;
  ns_wkc_errors : Z;
  ns_state_errors : Z;
  cycle_us : Z;
  min_cycle_us : Z;
  max_cycle_us : Z;
  avg_cycle_us : F;
  ns_period_us : Z;
  dc_time_ns : Z;
  state_text : string;
  last_error : string;
  crc_status : string;
}.
Arguments NetRuntimeStatus {F}.
Arguments connected {F}.
Arguments operational {F}.
Arguments ns_slave_count {F}.
Arguments ns_expected_wkc {F}.
Arguments last_wkc {F}.
Arguments total_cycles {F}.
Arguments ns_wkc_errors {F}.
Arguments ns_state_errors {F}.
Arguments cycle_us {F}.
Arguments min_cycle_us {F}.
Arguments max_cycle_us {F}.
Arguments avg_cycle_us {F}.
Arguments ns_period_us {F}.
Arguments dc_time_ns {F}.
Arguments state_text {F}.
Arguments last_error {F}.
Arguments crc_status {F}.

Record ECAT_NetSlaveStatus : Type := NetSlaveStatus {
  ss_index : Z;
  ss_name : string;
  ss_state : Z;
  ss_al_status : Z;
  ss_vendor_id : Z;
  ss_product_code : Z;
  ss_revision : Z;
  ss_serial : Z;
  ss_output_bytes : Z;
  ss_input_bytes : Z;
  ss_has_dc : Z;
  ss_is_lost : Z;
  ss_statusword : Z;
  ss_controlword : Z;
  ss_mode_display : Z;
  ss_actual_position : Z;
  ss_actual_velocity : Z;
  ss_output_size : Z;
  ss_input_size : Z;
  ss_outputs : list Z;
  ss_inputs : list Z;
}.
Definition pdo_zero : list Z := replicate (Z.to_nat ECAT_NET_MAX_PDO_COPY) 0.
Definition slave_status_zero : ECAT_NetSlaveStatus :=
  NetSlaveStatus 0 "" 0 0 0 0 0 0 0 0 0 0 0 0 0 0 0 0 0 pdo_zero pdo_zero.

Record ECAT_NetStatus (F : Type) : Type := NetStatus {
  st_runtime : ECAT_NetRuntimeStatus F;
  st_slaves : list ECAT_NetSlaveStatus;
}.
Arguments NetStatus {F}.
Arguments st_runtime {F}.
Arguments st_slaves {F}.

(** ** The state of the server *)

Record BackendOptions : Type := MkOptions {
  bo_port : Z;
  bo_master_index : Z;
  bo_alias : Z;
  bo_position : Z;
  bo_vendor_id : Z;
  bo_product_code : Z;
  bo_period_us : Z;
  bo_priority : Z;
  bo_configure_pdos : bool;
  bo_sequence_timeout_ms : Z;
  bo_client_timeout_ms : Z;
}.

Record BackendCommand (F : Type) : Type := MkCommand {
  bc_controlword : Z;
  bc_target_position : Z;
  bc_target_velocity : Z;
  bc_mode : Z;
  bc_sequence : Cia402Sequence;
  bc_motion : Cia402MotionCommand F;
  bc_generation : Z;
  bc_reset_generation : Z;
}.
Arguments MkCommand {F}.
Arguments bc_controlword {F}.
Arguments bc_target_position {F}.
Arguments bc_target_velocity {F}.
Arguments bc_mode {F}.
Arguments bc_sequence {F}.
Arguments bc_motion {F}.
Arguments bc_generation {F}.
Arguments bc_reset_generation {F}.

Record BackendRuntime (F : Type) : Type := MkRuntime {
  br_options : BackendOptions;
  br_thread_started : bool;
  br_stop_requested : bool;
  br_initialized : bool;
  br_fatal_error : bool;
  br_safety_stop_active : bool;
  br_safety_stop_count : Z;
  br_last_client_message_ns : Z;
  br_response_sequence : Z;
  br_command : BackendCommand F;
  br_status : ECAT_NetStatus F;
}.
Arguments MkRuntime {F}.
Arguments br_options {F}.
Arguments br_thread_started {F}.
Arguments br_stop_requested {F}.
Arguments br_initialized {F}.
Arguments br_fatal_error {F}.
Arguments br_safety_stop_active {F}.
Arguments br_safety_stop_count {F}.
Arguments br_last_client_message_ns {F}.
Arguments br_response_sequence {F}.
Arguments br_command {F}.
Arguments br_status {F}.

(** ** Text and bytes *)

(** [snprintf(dst, n, "%s", src)]: cut so that the end mark fits. *)
Definition safe_copy (n : nat) (src : string) : string := substring 0 (n - 1) src.

Definition text_bytes (s : string) : list Z :=
  map (fun a => Z.of_nat (nat_of_ascii a)) (list_ascii_of_string s).

Definition read_le_u16 (data : list Z) : Z := of_le (take 2 data).
Definition read_le_i32 (data : list Z) : Z := s32 (of_le (take 4 data)).
Definition write_le_u16 (value : Z) : list Z := le_bytes 2 value.
Definition write_le_i32 (value : Z) : list Z := le_bytes 4 value.

Section Backend.
Context {F : Type} `{Num F}.
Abbreviation runtime := (BackendRuntime F).
Abbreviation command := (BackendCommand F).
Implicit Types rt : runtime.
Implicit Types cmd : command.

(** [cia402_motion_init] with its jerk ratio of 0.75. *)
Definition motion_init : Cia402MotionCommand F := cia402_motion_init (n_frac 75 100).

Definition runtime_status_zero : ECAT_NetRuntimeStatus F :=
  NetRuntimeStatus 0 0 0 0 0 0 0 0 0 0 0 (n_of_Z 0) 0 0 "" "" "".
Definition status_zero : ECAT_NetStatus F :=
  NetStatus runtime_status_zero (replicate (Z.to_nat ECAT_NET_MAX_SLAVES) slave_status_zero).

Definition on_status (f : ECAT_NetRuntimeStatus F -> ECAT_NetRuntimeStatus F) rt : runtime :=
  rt <| br_status ::= (fun s => s <| st_runtime ::= f |>) |>.
Definition on_command (f : command -> command) rt : runtime := rt <| br_command ::= f |>.

(** ** Start and stop *)

Definition runtime_init (options : BackendOptions) (now : Z) : runtime :=
  MkRuntime options false false false false false 0 now 0
    (MkCommand 0 0 0 0 CIA402_SEQ_NONE motion_init 0 0)
    (status_zero <| st_runtime ::= (fun s =>
       s <| ns_period_us := bo_period_us options |>
         <| state_text := safe_copy ECAT_NET_MAX_TEXT "IgH backend starting" |>
         <| crc_status := safe_copy ECAT_NET_MAX_TEXT "Ethernet FCS/CRC is handled by the NIC and IgH master." |>) |>).

Definition runtime_set_fatal (message : string) rt : runtime :=
  on_status (fun s =>
      s <| connected := 0 |> <| operational := 0 |>
        <| state_text := safe_copy ECAT_NET_MAX_TEXT "IgH backend error" |>
        <| last_error := safe_copy ECAT_NET_MAX_TEXT message |>)
    (rt <| br_fatal_error := true |> <| br_initialized := false |>).

Definition runtime_should_stop (G_stop : bool) rt : bool :=
  br_stop_requested rt || br_fatal_error rt || G_stop.

Definition runtime_request_stop rt : runtime := rt <| br_stop_requested := true |>.

Definition runtime_get_status rt : ECAT_NetStatus F := br_status rt.

(** ** Commands *)

Definition runtime_reset_statistics_locked rt : runtime :=
  (on_command (fun cmd => cmd <| bc_reset_generation ::= (fun n => u32 (n + 1)) |>) rt)
    <| br_safety_stop_count := 0 |>.

Definition next_generation cmd : command := cmd <| bc_generation ::= (fun n => u32 (n + 1)) |>.

Definition backend_command_safe_stop cmd : command :=
  cmd <| bc_controlword := 0 |> <| bc_target_velocity := 0 |> <| bc_sequence := CIA402_SEQ_NONE |>
      <| bc_motion := motion_init |>.

Definition backend_apply_motion_profile (net_command : ECAT_NetCommand) (force_lms : bool)
    (motion : Cia402MotionCommand F) : Cia402MotionCommand F :=
  if force_lms then
    motion <| c_profile_type := CIA402_PROFILE_LMS |> <| c_jerk_ratio := n_frac 35 100 |>
  else if negb (Z.land (nc_command_flags net_command) ECAT_NET_CMD_FLAG_PROFILE_VALID =? 0) then
    motion <| c_profile_type := nc_profile_type net_command |>
           <| c_jerk_ratio := n_div (n_of_Z (nc_jerk_ratio_permille net_command)) (n_of_Z 1000) |>
  else motion.

Definition runtime_mark_client_message (now : Z) rt : runtime :=
  rt <| br_last_client_message_ns := now |> <| br_safety_stop_active := false |>.

Definition runtime_apply_safety_stop_locked (reason : string) rt : runtime :=
  on_status (fun s => s <| last_error := safe_copy ECAT_NET_MAX_TEXT reason |>)
    ((on_command (fun cmd => next_generation (backend_command_safe_stop cmd)) rt)
       <| br_safety_stop_active := true |> <| br_safety_stop_count ::= (fun n => s32 (n + 1)) |>).

(** A power sequence without a motion. *)
Definition command_sequence (sequence : Cia402Sequence) cmd : command :=
  next_generation (cmd <| bc_sequence := sequence |> <| bc_motion := motion_init |>).

(** A position command. *)
Definition command_position (net_command : ECAT_NetCommand) (force_lms : bool) (relative : Z) cmd : command :=
  next_generation
    (cmd <| bc_target_position := nc_target_position net_command |>
         <| bc_sequence := CIA402_SEQ_ENABLE |>
         <| bc_motion := (backend_apply_motion_profile net_command force_lms motion_init)
              <| c_type := CIA402_MOTION_PROFILE_POSITION |>
              <| c_mode := CIA402_MODE_CSP |>
              <| c_target_position := nc_target_position net_command |>
              <| c_profile_velocity := s32 (nc_velocity net_command) |>
              <| c_acceleration := nc_acceleration net_command |>
              <| c_deceleration := nc_deceleration net_command |>
              <| c_relative := relative |> |>).

Definition command_velocity (net_command : ECAT_NetCommand) (force_lms : bool) cmd : command :=
  next_generation
    (cmd <| bc_target_velocity := nc_target_velocity net_command |>
         <| bc_sequence := CIA402_SEQ_ENABLE |>
         <| bc_motion := (backend_apply_motion_profile net_command force_lms motion_init)
              <| c_type := CIA402_MOTION_JOG_VELOCITY |>
              <| c_mode := CIA402_MODE_CSV |>
              <| c_target_velocity := nc_target_velocity net_command |>
              <| c_acceleration := nc_acceleration net_command |>
              <| c_deceleration := nc_deceleration net_command |> |>).

Definition command_home (net_command : ECAT_NetCommand) cmd : command :=
  next_generation
    (cmd <| bc_sequence := CIA402_SEQ_ENABLE |>
         <| bc_motion := (backend_apply_motion_profile net_command false motion_init)
              <| c_type := CIA402_MOTION_HOME |>
              <| c_mode := CIA402_MODE_HOMING |>
              <| c_target_velocity := s32 (nc_search_speed net_command) |>
              <| c_acceleration := nc_acceleration net_command |>
              <| c_deceleration := nc_deceleration net_command |> |>).

Definition command_stop (net_command : ECAT_NetCommand) (force_lms : bool) cmd : command :=
  next_generation
    (cmd <| bc_sequence := CIA402_SEQ_NONE |>
         <| bc_motion := (backend_apply_motion_profile net_command force_lms motion_init)
              <| c_type := CIA402_MOTION_SERVO_STOP |>
              <| c_mode := CIA402_MODE_CSV |>
              <| c_deceleration := nc_deceleration net_command |> |>).

Definition runtime_apply_command (net_command : ECAT_NetCommand) rt : runtime :=
  let ty := nc_command net_command in
  if (ty =? ECAT_NET_CMD_NONE) || (ty =? ECAT_NET_CMD_START) then rt
  else if ty =? ECAT_NET_CMD_STOP then
    on_command (fun cmd => next_generation (backend_command_safe_stop cmd)) rt
  else if ty =? ECAT_NET_CMD_RESET_STATISTICS then runtime_reset_statistics_locked rt
  else if ty =? ECAT_NET_CMD_SERVO_FAULT_RESET then on_command (command_sequence CIA402_SEQ_FAULT_RESET) rt
  else if ty =? ECAT_NET_CMD_SERVO_ENABLE then on_command (command_sequence CIA402_SEQ_ENABLE) rt
  else if ty =? ECAT_NET_CMD_SERVO_DISABLE then on_command (command_sequence CIA402_SEQ_DISABLE) rt
  else if ty =? ECAT_NET_CMD_SERVO_SET_MODE then
    on_command (fun cmd => command_sequence CIA402_SEQ_NONE (cmd <| bc_mode := s8 (nc_mode net_command) |>)) rt
  else if (ty =? ECAT_NET_CMD_SERVO_MOVE_ABS) || (ty =? ECAT_NET_CMD_LMS_MOVE_ABS) then
    on_command (command_position net_command (ty =? ECAT_NET_CMD_LMS_MOVE_ABS) 0) rt
  else if ty =? ECAT_NET_CMD_SERVO_MOVE_REL then on_command (command_position net_command false 1) rt
  else if (ty =? ECAT_NET_CMD_SERVO_JOG) || (ty =? ECAT_NET_CMD_LMS_MOVE_VEL) then
    on_command (command_velocity net_command (ty =? ECAT_NET_CMD_LMS_MOVE_VEL)) rt
  else if ty =? ECAT_NET_CMD_SERVO_HOME then on_command (command_home net_command) rt
  else if (ty =? ECAT_NET_CMD_SERVO_STOP) || (ty =? ECAT_NET_CMD_LMS_STOP) then
    on_command (command_stop net_command (ty =? ECAT_NET_CMD_LMS_STOP)) rt
  else on_status (fun s => s <| last_error := safe_copy ECAT_NET_MAX_TEXT "Unsupported backend command." |>) rt.

(** ** Cached objects *)

(** The texts and fixed values of the dictionary; the PDO entries of one direction. *)
Definition pdo_entry (entries : list Z) (subindex : Z) : option (list Z) :=
  if subindex =? 0 then Some [5]
  else v ← zget entries (subindex - 1); Some (write_le_i32 v).

Definition pdo_assign (pdo subindex : Z) : option (list Z) :=
  if subindex =? 0 then Some [1] else if subindex =? 1 then Some (write_le_u16 pdo) else None.

(** The value of an object, as the last cycle left it. *)
Definition cached_object (slave : ECAT_NetSlaveStatus) (index subindex : Z) : option (list Z) :=
  if index =? 0x1000 then Some (write_le_i32 0x00020192)
  else if index =? 0x1001 then Some [0]
  else if index =? 0x1008 then
    Some (text_bytes (if String.eqb (ss_name slave) "" then "LTS_MotorDriver1x" else ss_name slave))
  else if index =? 0x1009 then Some (text_bytes "3.0.0")
  else if index =? 0x100a then Some (text_bytes "2.1.0")
  else if index =? 0x1018 then
    if subindex =? 0 then Some [4]
    else if subindex =? 1 then Some (write_le_i32 (ss_vendor_id slave))
    else if subindex =? 2 then Some (write_le_i32 (ss_product_code slave))
    else if subindex =? 3 then Some (write_le_i32 (ss_revision slave))
    else if subindex =? 4 then Some (write_le_i32 (ss_serial slave))
    else None
  else if index =? 0x1600 then
    pdo_entry [0x60400010; 0x607a0020; 0x60ff0020; 0x60600008; 0x00000018] subindex
  else if index =? 0x1a00 then
    pdo_entry [0x60410010; 0x60640020; 0x606c0020; 0x60610008; 0x00000018] subindex
  else if index =? 0x1c00 then Some [if subindex =? 0 then 4 else subindex]
  else if index =? 0x1c12 then pdo_assign 0x1600 subindex
  else if index =? 0x1c13 then pdo_assign 0x1a00 subindex
  else if (0x3000 <=? index) && (index <=? 0x3004) then Some (write_le_i32 0)
  else if index =? 0x6040 then Some (write_le_u16 (ss_controlword slave))
  else if index =? 0x6041 then Some (write_le_u16 (ss_statusword slave))
  else if index =? 0x6060 then Some (take 1 (drop 10 (ss_outputs slave)))
  else if index =? 0x6061 then Some [u8 (ss_mode_display slave)]
  else if index =? 0x6064 then Some (write_le_i32 (ss_actual_position slave))
  else if index =? 0x606c then Some (write_le_i32 (ss_actual_velocity slave))
  else if index =? 0x607a then Some (write_le_i32 (read_le_i32 (drop 2 (ss_outputs slave))))
  else if index =? 0x60ff then Some (write_le_i32 (read_le_i32 (drop 6 (ss_outputs slave))))
  else if index =? 0x603f then Some (write_le_u16 0)
  else if index =? 0x6502 then Some (write_le_i32 0x0000025e)
  else None.

(** The read does not wait for the slave; [NULL] text does not occur. *)
Definition runtime_read_cached_sdo rt (request : ECAT_NetSdoRequest) : Z * ECAT_NetSdoReply :=
  let slave := default slave_status_zero (head (st_slaves (runtime_get_status rt))) in
  match cached_object slave (sr_index request) (sr_subindex request) with
  | None => (-1, sdo_reply_zero <| sp_result := -1 |>)
  | Some data =>
      let size := zlen data in
      let size := if (0 <? sr_size request) && (sr_size request <? size) then sr_size request else size in
      (0, NetSdoReply 0 size (default [] (zblit (sp_data sdo_reply_zero) 0 (take (Z.to_nat size) data))))
  end.

(** A write by hand ends a sequence and a motion. *)
Definition manual cmd : command := command_sequence CIA402_SEQ_NONE cmd.

Definition cached_write (request : ECAT_NetSdoRequest) cmd : option command :=
  let index := sr_index request in
  let data := sr_data request in
  if index =? 0x6040 then
    if sr_size request <? 2 then None else Some (manual (cmd <| bc_controlword := read_le_u16 data |>))
  else if index =? 0x6060 then Some (manual (cmd <| bc_mode := s8 (default 0 (head data)) |>))
  else if index =? 0x607a then
    if sr_size request <? 4 then None else Some (manual (cmd <| bc_target_position := read_le_i32 data |>))
  else if index =? 0x60ff then
    if sr_size request <? 4 then None else Some (manual (cmd <| bc_target_velocity := read_le_i32 data |>))
  else None.

Definition runtime_write_cached_sdo (request : ECAT_NetSdoRequest) rt : Z * ECAT_NetSdoReply * runtime :=
  let refused := (-1, sdo_reply_zero <| sp_result := -1 |>, rt) in
  if sr_size request <=? 0 then refused
  else match cached_write request (br_command rt) with
       | None => refused
       | Some cmd => (0, sdo_reply_zero, rt <| br_command := cmd |>)
       end.
End Backend.
