(* ===== verification/RtCycle.v ===== *)
(** * The real-time thread of the backend server
      (linux_rt/ethercat_rt_core/src/igh_lts_backend_server.c, rt_thread_main)

    One round of the cyclic loop: the critical section that takes the command, the work on
    the variables of the thread with the process data, and the critical section that
    publishes the status.  What the IgH master reports is an input of the round, the process
    data it is given are the output. *)

From Stdlib Require Import String.
From stdpp Require Import pretty.
From S2P Require Import Prelude Num Cia402 Profile Backend.

Definition LLONG_MAX : Z := 2 ^ 63 - 1.
Definition UINT32_MAX : Z := 2 ^ 32 - 1.
Definition LTS_PDO_BYTES : Z := 14.

(** ** What the master reports *)

Inductive ec_wc_state_t : Type := EC_WC_ZERO | EC_WC_INCOMPLETE | EC_WC_COMPLETE.
#[export] Instance ec_wc_state_t_eq_dec : EqDecision ec_wc_state_t.
Proof. solve_decision. Defined.

Definition wc_state_text (state : ec_wc_state_t) : string :=
  match state with
  | EC_WC_ZERO => "ZERO"
  | EC_WC_INCOMPLETE => "INCOMPLETE"
  | EC_WC_COMPLETE => "COMPLETE"
  end.

(** Process data of the slave and the states of domain and slave configuration. *)
Record rt_input : Type := RtInput {
  in_statusword : Z;
  in_actual_position : Z;
  in_actual_velocity : Z;
  in_mode_display : Z;
  in_working_counter : Z;
  in_wc_state : ec_wc_state_t;
  in_operational : bool;
  in_online : bool;
  in_al_state : Z;
}.

(** ** Variables of the thread *)

Record rt_local (F : Type) : Type := RtLocal {
  l_slave_name : string;
  l_revision : Z;
  l_previous_loop_time : Z;
  l_min_loop_us : Z;
  l_max_loop_us : Z;
  l_sum_loop_us : Z;
  l_max_period_error_us : Z;
  l_timing_samples : Z;
  l_expected_wkc : Z;
  l_wkc_errors : Z;
  l_state_errors : Z;
  l_op_seen : bool;
  l_cycle : Z;
  l_command_generation_seen : Z;
  l_reset_generation_seen : Z;
  l_sequence_done : bool;
  l_sequence_failed : bool;
  l_sequence_start_cycle : Z;
  l_sequence_done_cycle : Z;
  l_idle_hold_valid : bool;
  l_idle_hold_position : Z;
  l_profile : Cia402MotionProfile F;
}.
Arguments RtLocal {F}.
Arguments l_slave_name {F}.
Arguments l_revision {F}.
Arguments l_previous_loop_time {F}.
Arguments l_min_loop_us {F}.
Arguments l_max_loop_us {F}.
Arguments l_sum_loop_us {F}.
Arguments l_max_period_error_us {F}.
Arguments l_timing_samples {F}.
Arguments l_expected_wkc {F}.
Arguments l_wkc_errors {F}.
Arguments l_state_errors {F}.
Arguments l_op_seen {F}.
Arguments l_cycle {F}.
Arguments l_command_generation_seen {F}.
Arguments l_reset_generation_seen {F}.
Arguments l_sequence_done {F}.
Arguments l_sequence_failed {F}.
Arguments l_sequence_start_cycle {F}.
Arguments l_sequence_done_cycle {F}.
Arguments l_idle_hold_valid {F}.
Arguments l_idle_hold_position {F}.
Arguments l_profile {F}.

Inductive target_policy : Type := TrackActual | HoldActual | MotionProfile.
Definition target_policy_text (p : target_policy) : string :=
  match p with
  | TrackActual => "TrackActual"
  | HoldActual => "HoldActual"
  | MotionProfile => "MotionProfile"
  end.

Section Cycle.
Context {F : Type} `{Num F}.
Abbreviation runtime := (BackendRuntime F).
Abbreviation command := (BackendCommand F).
Abbreviation local := (rt_local F).
Implicit Types rt : runtime.
Implicit Types cmd : command.
Implicit Types l : local.

(** Before the first round; [now] is the time at which the thread begins to wait. *)
Definition rt_local_init (slave_name : string) (revision now : Z) : local :=
  RtLocal slave_name revision now LLONG_MAX 0 0 0 0 0 0 0 false 0 UINT32_MAX 0 true false 0 (-1)
    false 0 cia402_profile_reset.

(** ** Taking the command *)

(** The time since the last round. *)
Definition rt_timing (options : BackendOptions) (now : Z) l : local :=
  (if 0 <? l_cycle l then
     let elapsed_us := Z.quot (now - l_previous_loop_time l) 1000 in
     let period_error_us := Z.abs (elapsed_us - bo_period_us options) in
     l <| l_min_loop_us ::= Z.min elapsed_us |>
       <| l_max_loop_us ::= Z.max elapsed_us |>
       <| l_max_period_error_us ::= Z.max period_error_us |>
       <| l_sum_loop_us ::= (fun n => s64 (n + elapsed_us)) |>
       <| l_timing_samples ::= (fun n => s32 (n + 1)) |>
   else l) <| l_previous_loop_time := now |>.

(** The watchdog on the messages of the client. *)
Definition heartbeat_lost (options : BackendOptions) (now : Z) rt : bool :=
  (0 <? bo_client_timeout_ms options) && (0 <? br_last_client_message_ns rt)
  && (bo_client_timeout_ms options * 1000000 <? now - br_last_client_message_ns rt).

Definition rt_watchdog (options : BackendOptions) (now : Z) rt : runtime :=
  if heartbeat_lost options now rt && negb (br_safety_stop_active rt)
  then runtime_apply_safety_stop_locked "Client heartbeat timeout. Safe stop applied." rt
  else rt.

Definition rt_reset_statistics cmd l : local :=
  if bc_reset_generation cmd =? l_reset_generation_seen l then l
  else l <| l_reset_generation_seen := bc_reset_generation cmd |> <| l_min_loop_us := LLONG_MAX |>
         <| l_max_loop_us := 0 |> <| l_sum_loop_us := 0 |> <| l_max_period_error_us := 0 |>
         <| l_timing_samples := 0 |> <| l_expected_wkc := 0 |> <| l_wkc_errors := 0 |>
         <| l_state_errors := 0 |> <| l_cycle := 0 |>.

(** The first critical section: the command and whether the safety stop is active. *)
Definition rt_take (options : BackendOptions) (now : Z) rt l : runtime * local * command * bool :=
  let rt := rt_watchdog options now rt in
  (rt, rt_reset_statistics (br_command rt) (rt_timing options now l), br_command rt, br_safety_stop_active rt).

(** ** The work of a round *)

(** A command of a new generation starts its sequence and its profile. *)
Definition rt_new_command cmd l : local :=
  if bc_generation cmd =? l_command_generation_seen l then l
  else
    let l := l <| l_command_generation_seen := bc_generation cmd |>
               <| l_sequence_done := match bc_sequence cmd with CIA402_SEQ_NONE => true | _ => false end |>
               <| l_sequence_failed := false |> <| l_sequence_start_cycle := l_cycle l |>
               <| l_sequence_done_cycle := -1 |> <| l_profile := cia402_profile_reset |> in
    if bool_decide (c_type (bc_motion cmd) = CIA402_MOTION_NONE) then l <| l_idle_hold_valid := false |> else l.

Definition rt_monitor (input : rt_input) l : local :=
  let complete := bool_decide (in_wc_state input = EC_WC_COMPLETE) in
  let wkc := in_working_counter input in
  let l :=
    (if complete && (0 <? wkc) && (l_expected_wkc l =? 0) then l <| l_expected_wkc := wkc |>
     else if (0 <? l_expected_wkc l) && (negb complete || negb (wkc =? l_expected_wkc l))
     then l <| l_wkc_errors ::= (fun n => s32 (n + 1)) |> else l) in
  if in_operational input then l <| l_op_seen := true |>
  else if l_op_seen l then l <| l_state_errors ::= (fun n => s32 (n + 1)) |> else l.

(** Without a motion the axis follows its position or holds it. *)
Definition rt_idle cmd (safety_stop_active : bool) (state : Cia402State) (actual_position : Z)
    (output : Cia402PdoOutput) l : Cia402PdoOutput * target_policy * local :=
  if bool_decide (c_type (bc_motion cmd) = CIA402_MOTION_NONE) then
    let track_actual :=
      safety_stop_active || negb (bool_decide (state = CIA402_STATE_OPERATION_ENABLED))
      || match bc_sequence cmd with
         | CIA402_SEQ_ENABLE => negb (l_sequence_done l)
         | CIA402_SEQ_DISABLE | CIA402_SEQ_FAULT_RESET => true
         | _ => false
         end in
    if track_actual || negb (l_idle_hold_valid l) then
      (output <| o_target_position := actual_position |>, TrackActual,
       l <| l_idle_hold_position := actual_position |> <| l_idle_hold_valid := true |>)
    else (output <| o_target_position := l_idle_hold_position l |>, HoldActual, l)
  else (output, TrackActual, l).

(** The end of a sequence: its target, or its time. *)
Definition rt_sequence (options : BackendOptions) (target_reached : bool) l : local :=
  let l := if negb (l_sequence_done l) && target_reached
           then l <| l_sequence_done := true |> <| l_sequence_done_cycle := l_cycle l |> else l in
  if negb (l_sequence_done l) && negb (l_sequence_failed l)
     && (bo_sequence_timeout_ms options
         <=? Z.quot (s32 (l_cycle l - l_sequence_start_cycle l) * bo_period_us options) 1000)
  then l <| l_sequence_failed := true |> else l.

(** What a round leaves: the process data, whether the profile is done, and the policy. *)
Record rt_round : Type := RtRound {
  r_output : Cia402PdoOutput;
  r_profile_done : bool;
  r_policy : target_policy;
  r_state : Cia402State;
}.

Definition rt_profile (options : BackendOptions) cmd (input : rt_input) (state : Cia402State)
    (output : Cia402PdoOutput) (policy : target_policy) (profile_done : bool) l : res (rt_round * local) :=
  if bool_decide (c_type (bc_motion cmd) = CIA402_MOTION_NONE) then
    Ok (RtRound output profile_done policy state, l <| l_profile := cia402_profile_reset |>)
  else if l_sequence_done l && negb (l_sequence_failed l) then
    match cia402_profile_step (l_profile l) (bc_motion cmd) (in_actual_position input)
            (in_actual_velocity input) (bo_period_us options) output with
    | Ok (profile_done, profile, output) =>
        Ok (RtRound output profile_done MotionProfile state, l <| l_profile := profile |>)
    | Err f => Err f
    end
  else Ok (RtRound output false TrackActual state, l).

(** Everything between the two critical sections. *)
Definition rt_work (options : BackendOptions) cmd (safety_stop_active : bool) (input : rt_input) l
    : res (rt_round * local) :=
  let profile_done := done_ (l_profile l) in
  let l := rt_monitor input (rt_new_command cmd l) in
  let state := cia402_state_from_status (in_statusword input) in
  let seq := cia402_sequence_controlword (bc_sequence cmd) state (bc_controlword cmd) in
  let output := PdoOutput seq.1 (in_actual_position input) (bc_target_velocity cmd)
                  (if negb (bc_mode cmd =? 0) then bc_mode cmd else in_mode_display input) in
  let '(output, policy, l) := rt_idle cmd safety_stop_active state (in_actual_position input) output l in
  rt_profile options cmd input state output policy profile_done (rt_sequence options seq.2 l).

(** ** Publishing the status *)

Definition rt_state_text cmd (safety_stop_active : bool) (input : rt_input) (r : rt_round) : string :=
  safe_copy ECAT_NET_MAX_TEXT
    ("IgH " ++ wc_state_text (in_wc_state input)
     ++ ", slave " ++ (if in_operational input then "OP" else "not OP")
     ++ ", CiA402 " ++ cia402_status_text (r_state r)
     ++ ", mode " ++ cia402_mode_text (in_mode_display input)
     ++ ", seq " ++ cia402_sequence_text (bc_sequence cmd)
     ++ ", motion " ++ (if safety_stop_active then "SafetyStop" else cia402_motion_text (c_type (bc_motion cmd)))
     ++ (if negb (bool_decide (c_type (bc_motion cmd) = CIA402_MOTION_NONE)) && negb safety_stop_active
         then if r_profile_done r then "/Done" else "/Running" else "")
     ++ ", profile " ++ cia402_profile_type_text (c_profile_type (bc_motion cmd))
     ++ ", tp " ++ target_policy_text (r_policy r)).

Definition rt_crc_status rt (input : rt_input) l : string :=
  safe_copy ECAT_NET_MAX_TEXT
    ("WKC " ++ pretty (in_working_counter input) ++ "/" ++ wc_state_text (in_wc_state input)
     ++ ", wkc_errors=" ++ pretty (l_wkc_errors l) ++ ", state_errors=" ++ pretty (l_state_errors l)
     ++ ", jitter_max=" ++ pretty (l_max_period_error_us l) ++ "us, safety_stops="
     ++ pretty (br_safety_stop_count rt)).

Definition rt_last_error (safety_stop_active : bool) l : string :=
  safe_copy ECAT_NET_MAX_TEXT
    (if safety_stop_active then "Client heartbeat timeout. Safe stop applied."
     else if l_sequence_failed l then "CiA402 sequence timeout." else "").

(** The copies of the process data, 11 bytes of them used. *)
Definition build_pdo_copies (output : Cia402PdoOutput) (input : rt_input) (slave : ECAT_NetSlaveStatus)
    : ECAT_NetSlaveStatus :=
  let rest := replicate (Z.to_nat ECAT_NET_MAX_PDO_COPY - 11) 0 in
  slave <| ss_outputs := write_le_u16 (controlword output) ++ write_le_i32 (o_target_position output)
             ++ write_le_i32 (o_target_velocity output) ++ u8 (o_mode output) :: rest |>
        <| ss_inputs := write_le_u16 (in_statusword input) ++ write_le_i32 (in_actual_position input)
             ++ write_le_i32 (in_actual_velocity input) ++ u8 (in_mode_display input) :: rest |>
        <| ss_output_size := LTS_PDO_BYTES |> <| ss_input_size := LTS_PDO_BYTES |>.

Definition rt_slave_status (options : BackendOptions) (input : rt_input) (r : rt_round) l : ECAT_NetSlaveStatus :=
  build_pdo_copies (r_output r) input
    (slave_status_zero
       <| ss_index := 1 |> <| ss_name := safe_copy ECAT_NET_MAX_NAME (l_slave_name l) |>
       <| ss_state := in_al_state input |> <| ss_al_status := in_al_state input |>
       <| ss_vendor_id := bo_vendor_id options |> <| ss_product_code := bo_product_code options |>
       <| ss_revision := l_revision l |>
       <| ss_output_bytes := LTS_PDO_BYTES |> <| ss_input_bytes := LTS_PDO_BYTES |>
       <| ss_is_lost := b2z (negb (in_online input)) |>
       <| ss_statusword := in_statusword input |> <| ss_controlword := controlword (r_output r) |>
       <| ss_mode_display := in_mode_display input |>
       <| ss_actual_position := in_actual_position input |>
       <| ss_actual_velocity := in_actual_velocity input |>).

(** The second critical section, and the end of the round. *)
Definition rt_publish (options : BackendOptions) cmd (safety_stop_active : bool) (input : rt_input)
    (r : rt_round) l rt : runtime * local :=
  let samples := l_timing_samples l in
  let avg := if 0 <? samples then Z.quot (l_sum_loop_us l) samples else 0 in
  let min_loop := if 0 <? samples then l_min_loop_us l else 0 in
  let status :=
    NetRuntimeStatus 1 (b2z (in_operational input)) 1 (s32 (l_expected_wkc l))
      (s32 (in_working_counter input)) (l_cycle l) (l_wkc_errors l) (l_state_errors l)
      (bo_period_us options) (s32 min_loop) (s32 (l_max_loop_us l)) (n_of_Z avg)
      (bo_period_us options) 0
      (rt_state_text cmd safety_stop_active input r) (rt_last_error safety_stop_active l)
      (rt_crc_status rt input l) in
  let slaves := rt_slave_status options input r l :: replicate (Z.to_nat ECAT_NET_MAX_SLAVES - 1) slave_status_zero in
  (rt <| br_status := NetStatus status slaves |>, l <| l_cycle ::= (fun n => s32 (n + 1)) |>).

(** A whole round, when nothing comes between its critical sections. *)
Definition rt_cycle (options : BackendOptions) (now : Z) (input : rt_input) (rl : runtime * local)
    : res (rt_round * (runtime * local)) :=
  let '(rt, l, cmd, safety) := rt_take options now rl.1 rl.2 in
  match rt_work options cmd safety input l with
  | Ok (r, l) => Ok (r, rt_publish options cmd safety input r l rt)
  | Err f => Err f
  end.

(** ** Start and end of the thread *)

(** The calls to the master before the loop, in the order of the code: the message of the
    first one that fails is the fatal error. *)
Definition rt_setup_errors : list string :=
  ["Failed to request EtherCAT master."; "Failed to create process data domain.";
   "Failed to get slave configuration."; "Failed to configure LTS PDOs.";
   "Failed to register PDO entries."; "Failed to activate EtherCAT master.";
   "Failed to get domain process data pointer."].

Fixpoint first_failed (errors : list string) (answers : list bool) : option string :=
  match errors, answers with
  | e :: errors, ok :: answers => if ok then first_failed errors answers else Some e
  | _, _ => None
  end.

(** [answers]: which of the calls succeed; the PDOs are configured on request only. *)
Definition rt_setup (options : BackendOptions) (answers : list bool) rt : runtime * bool :=
  let answers := match answers with
                 | a :: b :: c :: d :: rest => a :: b :: c :: (d || negb (bo_configure_pdos options)) :: rest
                 | _ => answers
                 end in
  match first_failed rt_setup_errors answers with
  | Some e => (runtime_set_fatal e rt, false)
  | None =>
      (on_status (fun s =>
           s <| connected := 1 |> <| ns_period_us := bo_period_us options |>
             <| state_text := safe_copy ECAT_NET_MAX_TEXT "IgH backend running" |> <| last_error := "" |>)
         (rt <| br_initialized := true |> <| br_fatal_error := false |>), true)
  end.

(** The outputs before the first round and after the last one. *)
Definition rt_output_zero : Cia402PdoOutput := PdoOutput 0 0 0 0.

(** [result] is 0 when the loop was entered. *)
Definition rt_out (result : Z) rt : runtime :=
  on_status (fun s =>
      let s := s <| connected := 0 |> <| operational := 0 |> in
      if result =? 0 then s <| state_text := safe_copy ECAT_NET_MAX_TEXT "IgH backend stopped" |> else s)
    (rt <| br_initialized := false |>).
End Cycle.
