(* ===== verification/BackendSys.v ===== *)
(** * Client thread and real-time thread of the backend server

    The two threads as steps on the shared state: the client thread handles a message in two
    critical sections ([runtime_mark_client_message], then the handler), the real-time thread
    a round in two others.  The steps of the threads interleave in any order; the time at
    which the real-time thread takes the command never runs back. *)

From Stdlib Require Import String.
From S2P Require Import Prelude Num Cia402 Profile Backend RtCycle.

(** A message after its header, as the handler of the client sees it. *)
Inductive client_message : Type :=
| MsgCommand (net_command : ECAT_NetCommand)
| MsgSdoRead (request : ECAT_NetSdoRequest)
| MsgSdoWrite (request : ECAT_NetSdoRequest)
| MsgOther.

Section Sys.
Context {F : Type} `{Num F}.
Abbreviation runtime := (BackendRuntime F).
Abbreviation command := (BackendCommand F).
Abbreviation local := (rt_local F).
Implicit Types rt : runtime.
Implicit Types cmd : command.
Implicit Types l : local.

(** What the handler of a message does to the shared state. *)
Definition handle_message (msg : client_message) rt : runtime :=
  match msg with
  | MsgCommand net_command => runtime_apply_command net_command rt
  | MsgSdoWrite request => (runtime_write_cached_sdo request rt).2
  | MsgSdoRead _ | MsgOther => rt
  end.

(** The shared state, the variables of the real-time thread, the command it has taken in
    the middle of a round, and the message the client thread has marked but not handled. *)
Record sys : Type := Sys {
  s_rt : runtime;
  s_local : local;
  s_taken : option (command * bool);
  s_pending : option client_message;
  s_now : Z;
}.

Inductive label : Type :=
| Mark (now : Z) (msg : client_message)
| Handle
| Take (now : Z)
| Finish (input : rt_input).

(** One step, with the process data of a round that ends. *)
Inductive sys_step : sys -> label -> option Cia402PdoOutput -> sys -> Prop :=
| StepMark s now msg : s_pending s = None -> s_now s <= now ->
    sys_step s (Mark now msg) None
      (s <| s_rt ::= runtime_mark_client_message now |> <| s_pending := Some msg |> <| s_now := now |>)
| StepHandle s msg : s_pending s = Some msg ->
    sys_step s Handle None (s <| s_rt ::= handle_message msg |> <| s_pending := None |>)
| StepTake s now rt l cmd safety : s_taken s = None -> s_now s <= now ->
    rt_take (br_options (s_rt s)) now (s_rt s) (s_local s) = (rt, l, cmd, safety) ->
    sys_step s (Take now) None
      (s <| s_rt := rt |> <| s_local := l |> <| s_taken := Some (cmd, safety) |> <| s_now := now |>)
| StepFinish s input cmd safety r l l' rt : s_taken s = Some (cmd, safety) ->
    rt_work (br_options (s_rt s)) cmd safety input (s_local s) = Ok (r, l) ->
    rt_publish (br_options (s_rt s)) cmd safety input r l (s_rt s) = (rt, l') ->
    sys_step s (Finish input) (Some (r_output r))
      (s <| s_rt := rt |> <| s_local := l' |> <| s_taken := None |>).

(** The client thread is too late: a message it has marked is older than the timeout when
    the real-time thread looks. *)
Definition overtaken s (lb : label) : bool :=
  match lb, s_pending s with
  | Take now, Some _ => heartbeat_lost (br_options (s_rt s)) now (s_rt s)
  | _, _ => false
  end.

(** States reached by steps of which [allowed] holds. *)
Inductive reachable (allowed : sys -> label -> Prop) (s0 : sys) : sys -> Prop :=
| ReachRefl : reachable allowed s0 s0
| ReachStep s lb out s' : reachable allowed s0 s -> allowed s lb -> sys_step s lb out s' ->
    reachable allowed s0 s'.

Definition in_time s lb : Prop := overtaken s lb = false.
Definition by_client (_ : sys) (lb : label) : Prop :=
  match lb with Mark _ _ | Handle => True | _ => False end.

(** A server when its thread starts. *)
Definition sys_init (options : BackendOptions) (slave_name : string) (revision now : Z) : sys :=
  Sys (runtime_init options now) (rt_local_init slave_name revision now) None None now.

(** ** The safe stop *)

Record safe_command cmd : Prop := SafeCommand {
  sc_controlword : bc_controlword cmd = 0;
  sc_velocity : bc_target_velocity cmd = 0;
  sc_sequence : bc_sequence cmd = CIA402_SEQ_NONE;
  sc_motion : bc_motion cmd = motion_init;
}.

(** A safe stop is a command that stops, and a message being handled has ended it. *)
Record guarded (s : sys) : Prop := Guarded {
  gd_shared : br_safety_stop_active (s_rt s) = true -> safe_command (br_command (s_rt s));
  gd_taken : forall cmd, s_taken s = Some (cmd, true) -> safe_command cmd;
  gd_pending : s_pending s <> None -> br_safety_stop_active (s_rt s) = false;
}.

Lemma safe_stop_safe cmd : safe_command (next_generation (backend_command_safe_stop cmd)).
Proof. by split. Qed.

Lemma watchdog_safe options now rt :
  (br_safety_stop_active rt = true -> safe_command (br_command rt)) ->
  br_safety_stop_active (rt_watchdog options now rt) = true -> safe_command (br_command (rt_watchdog options now rt)).
Proof.
  intros Hs. unfold rt_watchdog. destruct (_ && _); [|exact Hs]. intros _. apply safe_stop_safe.
Qed.

Lemma watchdog_fires options now rt : heartbeat_lost options now rt = true ->
  br_safety_stop_active (rt_watchdog options now rt) = true.
Proof. intros Hl. unfold rt_watchdog. rewrite Hl. by destruct (br_safety_stop_active rt) eqn:Ha. Qed.

Lemma watchdog_quiet options now rt : heartbeat_lost options now rt = false -> rt_watchdog options now rt = rt.
Proof. intros Hl. unfold rt_watchdog. by rewrite Hl. Qed.

(** A message changes neither the options nor whether the safe stop is active. *)
Lemma handle_keeps msg rt :
  br_options (handle_message msg rt) = br_options rt
  /\ br_safety_stop_active (handle_message msg rt) = br_safety_stop_active rt.
Proof.
  destruct msg as [nc|r|r|]; cbn [handle_message]; try done.
  - unfold runtime_apply_command. cbn zeta.
    repeat match goal with |- context [if ?c then _ else _] => destruct c; try done end.
  - unfold runtime_write_cached_sdo. destruct (_ <=? _); [done|]. by destruct (cached_write _ _).
Qed.

Lemma guarded_step s lb out s' : guarded s -> in_time s lb -> sys_step s lb out s' -> guarded s'.
Proof.
  intros [Hs Ht Hp] Hin Hstep. destruct Hstep as [s now msg Hnone Hnow|s msg Hmsg
    |s now rt l cmd safety Hnone Hnow Htake|s input cmd safety r l l' rt Htk Hwork Hpub].
  - split; cbn; [done | exact Ht | done].
  - assert (Ha : br_safety_stop_active (s_rt s) = false) by (apply Hp; by rewrite Hmsg).
    split; cbn; [|exact Ht | done]. rewrite (proj2 (handle_keeps _ _)), Ha. done.
  - unfold rt_take in Htake. injection Htake as <- _ <- <-.
    assert (Hw := watchdog_safe (br_options (s_rt s)) now (s_rt s) Hs).
    split; cbn; [exact Hw | by intros c [= <- Hact] ; apply Hw |].
    intros Hne. rewrite watchdog_quiet; [by apply Hp|].
    unfold in_time, overtaken in Hin. by destruct (s_pending s).
  - unfold rt_publish in Hpub. injection Hpub as <- _. split; cbn; [exact Hs | done | exact Hp].
Qed.

Lemma guarded_reachable options slave_name revision now s :
  reachable in_time (sys_init options slave_name revision now) s -> guarded s.
Proof.
  induction 1 as [|s lb out s' _ IH Hin Hstep]; [by split|]. by eapply guarded_step.
Qed.

(** Steps of the client thread leave the command that is taken. *)
Lemma client_keeps_taken s s' : reachable by_client s s' ->
  s_taken s' = s_taken s /\ s_local s' = s_local s /\ br_options (s_rt s') = br_options (s_rt s).
Proof.
  induction 1 as [|s1 lb out s2 _ (IH1 & IH2 & IH3) Hcl Hstep]; [done|].
  destruct Hstep as [|s3 msg Hmsg| |]; try done. cbn. by rewrite (proj1 (handle_keeps msg (s_rt s3))).
Qed.

(** A round with a safe command: no control bit is set and the axis stays where it is. *)
Definition safe_output (input : rt_input) (output : Cia402PdoOutput) : Prop :=
  controlword output = 0 /\ o_target_velocity output = 0
  /\ o_target_position output = in_actual_position input.

Lemma safe_round options cmd input l : safe_command cmd ->
  exists r l', rt_work options cmd true input l = Ok (r, l') /\ safe_output input (r_output r).
Proof.
  intros [Hc Hv Hsq Hm]. unfold rt_work, rt_idle, rt_profile. rewrite Hc, Hv, Hsq, Hm. cbn zeta.
  rewrite bool_decide_eq_true_2 by done. cbn -[rt_monitor rt_new_command rt_sequence].
  eexists _, _. split; [reflexivity|]. by split.
Qed.

(** C10: The loss of the client stops the drive.  However the two threads interleave and
    whatever the client has sent and the slave reports, in every round in which the real-time
    thread finds that no message has come for longer than the timeout, and whatever the client
    thread does while the round goes on, the round ends and its process data has no control bit
    set, no target velocity and the position of the axis as its target; provided that the
    client thread has always handled a message before it was that old. *)
Theorem heartbeat_stops_drive (options : BackendOptions) (slave_name : string) (revision start now : Z)
    (s s1 s2 : sys) (input : rt_input) :
  reachable in_time (sys_init options slave_name revision start) s ->
  heartbeat_lost (br_options (s_rt s)) now (s_rt s) = true -> in_time s (Take now) ->
  sys_step s (Take now) None s1 -> reachable by_client s1 s2 ->
  (exists out s3, sys_step s2 (Finish input) (Some out) s3)
  /\ (forall out s3, sys_step s2 (Finish input) (Some out) s3 -> safe_output input out).
Proof.
  intros Hreach Hlost Hin Htake Hcl. apply guarded_reachable in Hreach.
  pose proof (guarded_step _ _ _ _ Hreach Hin Htake) as Hg1.
  assert (Ht1 : exists cmd, s_taken s1 = Some (cmd, true)).
  { inversion Htake as [| |s0 now0 rt l cmd safety Hnone Hnow Heq|]; subst. cbn.
    unfold rt_take in Heq. injection Heq as _ _ _ <-. exists cmd. by rewrite watchdog_fires. }
  destruct Ht1 as [cmd Ht1]. destruct (client_keeps_taken _ _ Hcl) as (Ht2 & _ & _). rewrite Ht1 in Ht2.
  destruct (safe_round (br_options (s_rt s2)) cmd input (s_local s2) (gd_taken _ Hg1 _ Ht1)) as (r & l' & Hw & Hsafe).
  split.
  - exists (r_output r). destruct (rt_publish (br_options (s_rt s2)) cmd true input r l' (s_rt s2)) as [rt l''] eqn:Hp.
    eexists. by eapply StepFinish.
  - intros out s3 Hfin. inversion Hfin as [| | |s4 in4 cmd4 safety4 r4 l4 l4' rt4 Ht4 Hw4 Hp4]; subst.
    rewrite Ht2 in Ht4. injection Ht4 as <- <-. rewrite Hw in Hw4. injection Hw4 as <- _. exact Hsafe.
Qed.
End Sys.

(** ** A message that is handled too late *)

Definition race_options : BackendOptions := MkOptions 15000 0 0 0 0x205e 0x90000300 1000 80 true 5000 1000.
Definition race_jog : ECAT_NetCommand :=
  NetCommand ECAT_NET_CMD_SERVO_JOG 0 0 500 0 100000 100000 0 0 0 0 0 0 0.
Definition enabled_input : rt_input := RtInput 0x27 0 0 CIA402_MODE_CSV 3 EC_WC_COMPLETE true true 8.

(** The jog is marked at one second; the real-time thread looks after the timeout, before
    the client thread gets to handle the jog. *)
Definition race_start : sys (F := SpecFloat.spec_float) := sys_init race_options "drive" 1 1000000000.
Definition race_cycle (s : sys (F := SpecFloat.spec_float)) (now : Z) (input : rt_input)
    : option (Cia402PdoOutput * sys (F := SpecFloat.spec_float)) :=
  match rt_cycle (br_options (s_rt s)) now input (s_rt s, s_local s) with
  | Ok (r, (rt, l)) => Some (r_output r, s <| s_rt := rt |> <| s_local := l |> <| s_taken := None |> <| s_now := now |>)
  | Err _ => None
  end.

Lemma cycle_steps s now input out s' : s_taken s = None -> s_now s <= now -> race_cycle s now input = Some (out, s') ->
  exists s1, sys_step s (Take now) None s1 /\ sys_step s1 (Finish input) (Some out) s'.
Proof.
  intros Ht Hn Hc. unfold race_cycle, rt_cycle in Hc. cbn [fst snd] in Hc.
  destruct (rt_take _ now (s_rt s) (s_local s)) as [[[rt l] cmd] safety] eqn:Htake.
  destruct (rt_work _ cmd safety input l) as [[r l']|] eqn:Hwork; [|done].
  destruct (rt_publish _ cmd safety input r l' rt) as [rt' l''] eqn:Hpub. injection Hc as <- <-.
  assert (Ho : br_options rt = br_options (s_rt s)).
  { unfold rt_take in Htake. injection Htake as <- _ _ _. unfold rt_watchdog. by destruct (_ && _). }
  eexists. split; [by apply StepTake|].
  refine (StepFinish (s <| s_rt := rt |> <| s_local := l |> <| s_taken := Some (cmd, safety) |> <| s_now := now |>)
    input cmd safety r l' l'' rt' _ _ _); cbn; rewrite ?Ho; [done | exact Hwork | exact Hpub].
Qed.

(** C40: A message that is handled after the timeout of its own arrival disarms the
    watchdog: the safe stop is applied between the two critical sections of the client
    thread, the command that is handled then starts the drive, and with the safe stop still
    marked as active no silence of the client stops it again. *)
Theorem heartbeat_race :
  exists s s1 s2 now out, reachable (fun _ _ => True) race_start s
    /\ heartbeat_lost race_options now (s_rt s) = true
    /\ sys_step s (Take now) None s1 /\ sys_step s1 (Finish enabled_input) (Some out) s2
    /\ controlword out = 0x000f /\ 0 < o_target_velocity out
    /\ forall later, rt_watchdog race_options later (s_rt s2) = s_rt s2.
Proof.
  set (s0 := race_start).
  set (s1 := s0 <| s_rt ::= runtime_mark_client_message 1000000000 |>
                <| s_pending := Some (MsgCommand race_jog) |> <| s_now := 1000000000 |>).
  destruct (race_cycle s1 3000000000 enabled_input) as [[out2 s2]|] eqn:H2; [|by vm_compute in H2].
  set (s3 := s2 <| s_rt ::= handle_message (MsgCommand race_jog) |> <| s_pending := None |>).
  destruct (race_cycle s3 6000000000 enabled_input) as [[out4 s4]|] eqn:H4;
    [|exfalso; revert H4; unfold s3; vm_compute in H2; injection H2 as _ <-; by vm_compute].
  pose proof H2 as Hs2. vm_compute in Hs2. injection Hs2 as _ Hs2.
  pose proof H4 as Hs4. unfold s3 in Hs4. rewrite <- Hs2 in Hs4. vm_compute in Hs4. injection Hs4 as Ho4 Hs4.
  destruct (cycle_steps s1 3000000000 enabled_input out2 s2) as (s1' & HT & HF); [done | done | exact H2|].
  destruct (cycle_steps s3 6000000000 enabled_input out4 s4) as (s3' & HT' & HF');
    [by unfold s3; rewrite <- Hs2 | by unfold s3; rewrite <- Hs2 | exact H4 |].
  exists s3, s3', s4, 6000000000, out4. split.
  { apply (ReachStep _ _ s2 Handle None); [| done | apply StepHandle; by rewrite <- Hs2].
    eapply ReachStep; [| done | exact HF]. eapply ReachStep; [| done | exact HT].
    apply (ReachStep _ _ s0 (Mark 1000000000 (MsgCommand race_jog)) None); [apply ReachRefl | done |].
    by apply StepMark. }
  split; [unfold s3; rewrite <- Hs2; by vm_compute|]. split; [exact HT'|]. split; [exact HF'|].
  rewrite <- Ho4, <- Hs4. split; [done|]. split; [done|].
  intros later. unfold rt_watchdog. by rewrite andb_false_r.
Qed.

Lemma heartbeat_stops_drive_witness :
  exists s1, sys_step race_start (Take 3000000000) None s1
    /\ (exists out s3, sys_step s1 (Finish enabled_input) (Some out) s3)
    /\ (forall out s3, sys_step s1 (Finish enabled_input) (Some out) s3 -> safe_output enabled_input out).
Proof.
  eexists. assert (HT : sys_step race_start (Take 3000000000) None
    (race_start <| s_rt := (rt_take race_options 3000000000 (s_rt race_start) (s_local race_start)).1.1.1 |>
       <| s_local := (rt_take race_options 3000000000 (s_rt race_start) (s_local race_start)).1.1.2 |>
       <| s_taken := Some ((rt_take race_options 3000000000 (s_rt race_start) (s_local race_start)).1.2, true) |>
       <| s_now := 3000000000 |>)) by (apply StepTake; [done | done | vm_compute; reflexivity]).
  split; [exact HT|].
  apply (heartbeat_stops_drive race_options "drive" 1 1000000000 3000000000 race_start _ _ enabled_input
           (ReachRefl _ _) eq_refl eq_refl HT (ReachRefl _ _)).
Defined.
