(* ===== verification/Wire.v ===== *)
(** * Messages of the backend protocol, and texts
      (common/ecat_protocol.h, linux_rt/ethercat_rt_core/src/igh_lts_backend_server.c,
       ethercat_dll/src/ethercat_master.c)

    The framing of messages on a stream socket, the layout of the structures that are sent,
    and the loops that send and receive them.  Server and client have the same text for the
    framing.  A socket is a record of operations: what the operating system does is not
    modelled, but that it may take or give fewer bytes than it is asked for.  The text
    functions of the server's options and of the device database are at the end. *)

From Stdlib Require Import String Ascii.
From S2P Require Import Prelude Backend.
Import stdpp.list_relations.list stdpp.list_basics.list.

Definition ECAT_NET_MAGIC : Z := 0x54414345.
Definition ECAT_NET_VERSION : Z := 1.
Definition ECAT_NET_MSG_HELLO : Z := 1.
Definition ECAT_NET_MSG_HELLO_REPLY : Z := 2.
Definition ECAT_NET_MSG_STATUS : Z := 3.
Definition ECAT_NET_MSG_COMMAND : Z := 4.
Definition ECAT_NET_MSG_SDO_READ : Z := 5.
Definition ECAT_NET_MSG_SDO_READ_REPLY : Z := 6.
Definition ECAT_NET_MSG_SDO_WRITE : Z := 7.
Definition ECAT_NET_MSG_SDO_WRITE_REPLY : Z := 8.
Definition ECAT_NET_MSG_ERROR : Z := 100.

(** ** Structures as bytes *)

Record ECAT_NetHeader : Type := NetHeader {
  h_magic : Z;
  h_version : Z;
  h_type : Z;
  h_size : Z;
  h_sequence : Z;
}.
Definition header_size : Z := 16.
Definition header_bytes (h : ECAT_NetHeader) : list Z :=
  le_bytes 4 (h_magic h) ++ le_bytes 2 (h_version h) ++ le_bytes 2 (h_type h)
  ++ le_bytes 4 (h_size h) ++ le_bytes 4 (h_sequence h).

(** The field of [n] bytes at offset [off]. *)
Definition field (off n : nat) (l : list Z) : Z := of_le (take n (drop off l)).
Definition parse_header (l : list Z) : ECAT_NetHeader :=
  NetHeader (field 0 4 l) (field 4 2 l) (field 6 2 l) (field 8 4 l) (field 12 4 l).

(** [ECAT_NetCommand]: fourteen words of 32 bits. *)
Definition command_words (c : ECAT_NetCommand) : list Z :=
  [nc_command c; nc_slave_index c; nc_target_position c; nc_target_velocity c; nc_velocity c;
   nc_acceleration c; nc_deceleration c; nc_mode c; nc_homing_method c; nc_search_speed c;
   nc_latch_speed c; nc_command_flags c; nc_profile_type c; nc_jerk_ratio_permille c].
Definition command_bytes (c : ECAT_NetCommand) : list Z := concat (map (le_bytes 4) (command_words c)).
Definition parse_command (l : list Z) : ECAT_NetCommand :=
  let w i := field (4 * i) 4 l in
  let i i := s32 (w i) in
  (NetCommand (i 0) (i 1) (i 2) (i 3) (w 4) (w 5) (w 6) (i 7) (i 8) (w 9) (w 10) (w 11) (i 12) (i 13))%nat.

Definition sdo_request_bytes (r : ECAT_NetSdoRequest) : list Z :=
  le_bytes 4 (sr_slave_index r) ++ le_bytes 2 (sr_index r) ++ le_bytes 1 (sr_subindex r)
  ++ le_bytes 1 (sr_reserved r) ++ le_bytes 4 (sr_size r) ++ sr_data r.
Definition parse_sdo_request (l : list Z) : ECAT_NetSdoRequest :=
  NetSdoRequest (s32 (field 0 4 l)) (field 4 2 l) (field 6 1 l) (field 7 1 l) (s32 (field 8 4 l))
    (take 256 (drop 12 l)).

Definition sdo_reply_bytes (r : ECAT_NetSdoReply) : list Z :=
  le_bytes 4 (sp_result r) ++ le_bytes 4 (sp_size r) ++ sp_data r.
Definition parse_sdo_reply (l : list Z) : ECAT_NetSdoReply :=
  NetSdoReply (s32 (field 0 4 l)) (s32 (field 4 4 l)) (take 256 (drop 8 l)).

(** A text in an array of [n] bytes; those behind the end mark are never read. *)
Definition text_field (n : nat) (s : string) : list Z :=
  let b := text_bytes s in b ++ replicate (n - length b) 0.
Fixpoint c_text (l : list Z) : string :=
  match l with
  | [] => ""
  | c :: rest => if c =? 0 then "" else String (ascii_of_nat (Z.to_nat c)) (c_text rest)
  end.

(** The status, as x86-64 lays it out; the eight bytes of a [double] are a parameter. *)
Class DoubleLayout (F : Type) : Type := {
  double_bytes : F -> list Z;
  parse_double : list Z -> F;
}.

Section Status.
Context {F : Type} `{DoubleLayout F}.

Definition runtime_status_bytes (s : ECAT_NetRuntimeStatus F) : list Z :=
  le_bytes 4 (connected s) ++ le_bytes 4 (operational s) ++ le_bytes 4 (ns_slave_count s)
  ++ le_bytes 4 (ns_expected_wkc s) ++ le_bytes 4 (last_wkc s) ++ le_bytes 4 (total_cycles s)
  ++ le_bytes 4 (ns_wkc_errors s) ++ le_bytes 4 (ns_state_errors s) ++ le_bytes 4 (cycle_us s)
  ++ le_bytes 4 (min_cycle_us s) ++ le_bytes 4 (max_cycle_us s) ++ le_bytes 4 0
  ++ double_bytes (avg_cycle_us s) ++ le_bytes 4 (ns_period_us s) ++ le_bytes 4 0
  ++ le_bytes 8 (dc_time_ns s) ++ text_field ECAT_NET_MAX_TEXT (state_text s)
  ++ text_field ECAT_NET_MAX_TEXT (last_error s) ++ text_field ECAT_NET_MAX_TEXT (crc_status s).
Definition runtime_status_size : nat := 840.
Definition parse_runtime_status (l : list Z) : ECAT_NetRuntimeStatus F :=
  let i off := s32 (field off 4 l) in
  (NetRuntimeStatus (i 0) (i 4) (i 8) (i 12) (i 16) (i 20) (i 24) (i 28) (i 32) (i 36) (i 40)
     (parse_double (take 8 (drop 48 l))) (i 56) (s64 (field 64 8 l))
     (c_text (take 256 (drop 72 l))) (c_text (take 256 (drop 328 l))) (c_text (take 256 (drop 584 l))))%nat.

Definition slave_status_bytes (s : ECAT_NetSlaveStatus) : list Z :=
  le_bytes 4 (ss_index s) ++ text_field ECAT_NET_MAX_NAME (ss_name s) ++ le_bytes 2 (ss_state s)
  ++ le_bytes 2 (ss_al_status s) ++ le_bytes 4 (ss_vendor_id s) ++ le_bytes 4 (ss_product_code s)
  ++ le_bytes 4 (ss_revision s) ++ le_bytes 4 (ss_serial s) ++ le_bytes 4 (ss_output_bytes s)
  ++ le_bytes 4 (ss_input_bytes s) ++ le_bytes 4 (ss_has_dc s) ++ le_bytes 4 (ss_is_lost s)
  ++ le_bytes 2 (ss_statusword s) ++ le_bytes 2 (ss_controlword s) ++ le_bytes 1 (ss_mode_display s)
  ++ le_bytes 3 0 ++ le_bytes 4 (ss_actual_position s) ++ le_bytes 4 (ss_actual_velocity s)
  ++ le_bytes 4 (ss_output_size s) ++ le_bytes 4 (ss_input_size s) ++ ss_outputs s ++ ss_inputs s.
Definition slave_status_size : nat := 256.
Definition parse_slave_status (l : list Z) : ECAT_NetSlaveStatus :=
  let i off := s32 (field off 4 l) in
  let u off := field off 4 l in
  let w off := field off 2 l in
  (NetSlaveStatus (i 0) (c_text (take 64 (drop 4 l))) (w 68) (w 70) (u 72) (u 76) (u 80) (u 84) (u 88)
     (u 92) (i 96) (i 100) (w 104) (w 106) (s8 (field 108 1 l)) (i 112) (i 116) (i 120) (i 124)
     (take 64 (drop 128 l)) (take 64 (drop 192 l)))%nat.

Definition status_bytes (s : ECAT_NetStatus F) : list Z :=
  runtime_status_bytes (st_runtime s) ++ concat (map slave_status_bytes (st_slaves s)).
Definition status_size : Z := 17224.
Fixpoint parse_slaves (n : nat) (l : list Z) : list ECAT_NetSlaveStatus :=
  match n with
  | O => []
  | S n => parse_slave_status (take slave_status_size l) :: parse_slaves n (drop slave_status_size l)
  end.
Definition parse_status (l : list Z) : ECAT_NetStatus F :=
  NetStatus (parse_runtime_status (take runtime_status_size l))
    (parse_slaves (Z.to_nat ECAT_NET_MAX_SLAVES) (drop runtime_status_size l)).
End Status.

(** ** Sockets *)

(** [send] returns how many bytes it took, [recv] those it got; nothing or less than zero
    ends the connection. *)
Record socket (W : Type) : Type := Socket {
  sk_send : list Z -> M W Z;
  sk_recv : Z -> M W (Z * list Z);
}.
Arguments Socket {W}.
Arguments sk_send {W}.
Arguments sk_recv {W}.

Section Wire.
Context {W : Type} (sk : socket W).

(** Every round takes at least one byte, so as many rounds as bytes are enough. *)
Fixpoint send_rest (fuel : nat) (data : list Z) : M W Z :=
  match data with
  | [] => ret 0
  | _ =>
      match fuel with
      | O => fail OutOfFuel
      | S fuel =>
          let* n := sk_send sk data in
          if n <=? 0 then ret (-1) else send_rest fuel (drop (Z.to_nat n) data)
      end
  end.
Definition send_all (data : list Z) : M W Z := send_rest (length data) data.

Fixpoint recv_rest (fuel : nat) (got : list Z) (size : Z) : M W (option (list Z)) :=
  if size <=? zlen got then ret (Some got)
  else
    match fuel with
    | O => fail OutOfFuel
    | S fuel =>
        let* r := sk_recv sk (size - zlen got) in
        if r.1 <=? 0 then ret None else recv_rest fuel (got ++ take (Z.to_nat r.1) r.2) size
    end.
Definition recv_all (size : Z) : M W (option (list Z)) := recv_rest (Z.to_nat size) [] size.

Definition send_message (type sequence : Z) (payload : list Z) : M W Z :=
  let* r := send_all (header_bytes (NetHeader ECAT_NET_MAGIC ECAT_NET_VERSION type (zlen payload) sequence)) in
  if negb (r =? 0) then ret (-1)
  else if 0 <? zlen payload then send_all payload else ret 0.

(** [None] is the error return. *)
Definition recv_message (payload_capacity : Z) : M W (option (ECAT_NetHeader * list Z)) :=
  let* b := recv_all header_size in
  match b with
  | None => ret None
  | Some b =>
      let h := parse_header b in
      if negb (h_magic h =? ECAT_NET_MAGIC) || negb (h_version h =? ECAT_NET_VERSION)
         || (payload_capacity <? h_size h) then ret None
      else if 0 <? h_size h then
        let* p := recv_all (h_size h) in
        ret (p ← p; Some (h, p))
      else ret (Some (h, []))
  end.
End Wire.

(** * Texts

    The functions of the C library on characters and numbers, and the text functions of the
    device database (ethercat_dll/src/ethercat_master.c).  A text is the list of its
    characters without the end mark; a pointer into a text is what is behind it. *)

Abbreviation text := (list Z).

(** ** Characters, in the C locale *)

Definition is_space (c : Z) : bool := (c =? 32) || ((9 <=? c) && (c <=? 13)).
Definition digit_value (c : Z) : Z :=
  if (48 <=? c) && (c <=? 57) then c - 48
  else if (97 <=? c) && (c <=? 102) then c - 87
  else if (65 <=? c) && (c <=? 70) then c - 55
  else 16.
Definition to_lower (c : Z) : Z := if (65 <=? c) && (c <=? 90) then c + 32 else c.

(** The digits of [base] at the start: their value, how many there are, and the rest. *)
Fixpoint digits (base acc : Z) (n : nat) (text : list Z) : Z * nat * list Z :=
  match text with
  | c :: rest => if digit_value c <? base then digits base (acc * base + digit_value c) (S n) rest
                 else (acc, n, text)
  | [] => (acc, n, [])
  end.

Fixpoint skip_spaces (text : list Z) : list Z :=
  match text with
  | c :: rest => if is_space c then skip_spaces rest else text
  | [] => []
  end.

(** [strtoul] with base 10 or 16, where an [unsigned long] has 32 bits. *)
Definition strtoul (base : Z) (t : text) : Z :=
  let t := skip_spaces t in
  let '(neg, t) := match t with
                   | 43 :: t => (false, t)
                   | 45 :: t => (true, t)
                   | _ => (false, t)
                   end in
  let t := match t with
           | 48 :: x :: d :: _ =>
               if (base =? 16) && ((x =? 120) || (x =? 88)) && (digit_value d <? 16) then drop 2 t else t
           | _ => t
           end in
  let '(v, _, _) := digits base 0 0 t in
  if 2 ^ 32 <=? v then 2 ^ 32 - 1 else if (neg : bool) then u32 (- v) else v.

(** [%08X] *)
Definition hex_digit (d : Z) : Z := if d <? 10 then 48 + d else 55 + d.
Fixpoint hex (n : nat) (v : Z) : text :=
  match n with
  | O => []
  | S n => hex n (v / 16) ++ [hex_digit (v mod 16)]
  end.
Definition hex8 (v : Z) : text := hex 8 v.

(** The first [c] of a text and what is behind, [strchr]. *)
Fixpoint find_char (c : Z) (t : text) : option text :=
  match t with
  | [] => None
  | a :: rest => if a =? c then Some t else find_char c rest
  end.

(** [strstr]: the text before the first [needle]; all of it when there is none. *)
Fixpoint starts_with (needle t : text) : bool :=
  match needle, t with
  | [], _ => true
  | b :: needle, a :: t => (a =? b) && starts_with needle t
  | _ :: _, [] => false
  end.
Fixpoint before (needle t : text) : text :=
  match t with
  | [] => []
  | a :: rest => if starts_with needle t then [] else a :: before needle rest
  end.

(** What a buffer of [n] characters keeps of a text. *)
Definition fit (n : nat) (t : text) : text := take (n - 1) t.

(** Up to the end mark. *)
Fixpoint cut_nul (t : text) : text :=
  match t with
  | [] => []
  | c :: rest => if c =? 0 then [] else c :: cut_nul rest
  end.

(** ** Text functions of the library *)

Fixpoint starts_with_i (needle t : text) : bool :=
  match needle, t with
  | [], _ => true
  | b :: needle, a :: t => (to_lower a =? to_lower b) && starts_with_i needle t
  | _ :: _, [] => false
  end.
Fixpoint find_text_i (haystack needle : text) : option text :=
  match needle, haystack with
  | [], _ => Some haystack
  | _, [] => None
  | _, _ :: rest => if starts_with_i needle haystack then Some haystack else find_text_i rest needle
  end.

Definition trim_in_place (t : text) : text := rev (skip_spaces (rev (skip_spaces t))).

Definition sanitize_csv_text (t : text) : text :=
  trim_in_place (map (fun c => if (c =? 44) || (c =? 13) || (c =? 10) then 32 else c) t).

Definition sanitize_file_text (t : text) : text :=
  map (fun c => if bool_decide (c ∈ text_bytes "<>:/\|?*") || (c =? 34) || (c <? 32) then 95 else c) t.

(** The index of a character that begins a directory or a file. *)
Definition is_slash (c : Z) : bool := (c =? 47) || (c =? 92).

Definition path_join (dst_size : nat) (left right : text) : text :=
  match left, right with
  | [], _ => fit dst_size right
  | _, [] => fit dst_size left
  | _, _ => fit dst_size (if is_slash (List.last left 0) then left ++ right else left ++ [92] ++ right)
  end.

Fixpoint path_basename (path : text) : text :=
  match path with
  | [] => []
  | c :: rest =>
      if existsb is_slash rest then path_basename rest
      else if is_slash c then rest else path
  end.

Definition parse_ecat_number (t : text) : Z :=
  match skip_spaces t with
  | (a :: x :: t') as t =>
      if ((a =? 35) || (a =? 48)) && ((x =? 120) || (x =? 88)) then strtoul 16 t' else strtoul 10 t
  | t => strtoul 10 t
  end.
