(* ===== verification/Server.v ===== *)
(** * The backend server: options and messages
      (linux_rt/ethercat_rt_core/src/igh_lts_backend_server.c)

    The command line, and what the client thread does with one message: it marks the client
    as alive, changes the shared state and answers.  The real-time thread beside it is in
    RtCycle.v and BackendSys.v. *)

From Stdlib Require Import String.
From S2P Require Import Prelude Num Cia402 Profile Backend BackendSys Wire.
Import stdpp.list_relations.list stdpp.list_basics.list.

(** ** Numbers of the command line *)

(** [strtol] and [strtoul] with base 0: the sign, the absolute value and what is behind the
    number; [None] when there is no number.  A prefix without digits is the number 0, with
    the rest behind it. *)
Definition strto (text : list Z) : option (bool * Z * list Z) :=
  let text := skip_spaces text in
  let '(neg, text) := match text with
                      | 43 :: t => (false, t)
                      | 45 :: t => (true, t)
                      | _ => (false, text)
                      end in
  let '(v, n, rest) :=
    match text with
    | 48 :: x :: t =>
        if (x =? 120) || (x =? 88) then
          let '(v, n, rest) := digits 16 0 0 t in
          if (n =? 0)%nat then (0, 1%nat, x :: t) else (v, n, rest)
        else digits 8 0 0 text
    | _ => digits 10 0 0 text
    end in
  if (n =? 0)%nat then None else Some (neg, v, rest).

Definition parse_u32 (text : list Z) : option Z :=
  match strto text with
  | Some (neg, v, []) =>
      if 2 ^ 64 <=? v then None
      else let parsed := if neg then u64 (- v) else v in
           if 2 ^ 32 - 1 <? parsed then None else Some parsed
  | _ => None
  end.

(** What overflows a [long] is not in the range of an [int32_t] either. *)
Definition parse_i32 (text : list Z) : option Z :=
  match strto text with
  | Some (neg, v, []) =>
      let parsed := if neg then - v else v in
      if (parsed <? INT32_MIN) || (INT32_MAX <? parsed) then None else Some parsed
  | _ => None
  end.
Definition parse_int (text : list Z) : option Z := parse_i32 text.

Definition is_number_text (text : list Z) : bool :=
  negb (bool_decide (text = [])) && forallb (fun c => (48 <=? c) && (c <=? 57)) text.

(** ** Options *)

Definition options_init : BackendOptions :=
  MkOptions ECAT_NET_DEFAULT_PORT 0 0 0 0x0000205e 0x90000300 1000 80 true 5000 1000.

(** An option with a value: [None] when there is no such option, [Some None] when its value
    is refused. *)
Definition set_option (name : string) (value : list Z) (o : BackendOptions) : option (option BackendOptions) :=
  let positive (p : Z -> bool) (set : Z -> BackendOptions) := Some (match parse_int value with
                              | Some v => if p v then Some (set v) else None
                              | None => None
                              end) in
  let unsigned (p : Z -> bool) (set : Z -> BackendOptions) := Some (match parse_u32 value with
                              | Some v => if p v then Some (set v) else None
                              | None => None
                              end) in
  if String.eqb name "--port" then positive (fun v => 0 <? v) (fun v => o <| bo_port := v |>)
  else if String.eqb name "--period-us" then positive (fun v => 0 <? v) (fun v => o <| bo_period_us := v |>)
  else if String.eqb name "--position" then unsigned (fun v => v <=? 65535) (fun v => o <| bo_position := v |>)
  else if String.eqb name "--vendor" then unsigned (fun _ => true) (fun v => o <| bo_vendor_id := v |>)
  else if String.eqb name "--product" then unsigned (fun _ => true) (fun v => o <| bo_product_code := v |>)
  else if String.eqb name "--priority" then
    positive (fun v => (1 <=? v) && (v <=? 99)) (fun v => o <| bo_priority := v |>)
  else if String.eqb name "--sequence-timeout-ms" then
    positive (fun v => 0 <? v) (fun v => o <| bo_sequence_timeout_ms := v |>)
  else if String.eqb name "--client-timeout-ms" then
    positive (fun v => 0 <=? v) (fun v => o <| bo_client_timeout_ms := v |>)
  else None.

Inductive parse_result : Type := Parsed (o : BackendOptions) | Help | Invalid.

(** [first]: the first argument may be a bare port. *)
Fixpoint parse_args (first : bool) (args : list string) (o : BackendOptions) : parse_result :=
  match args with
  | [] => Parsed o
  | a :: rest =>
      if first && is_number_text (text_bytes a) then
        match parse_int (text_bytes a) with
        | Some v => if v <=? 0 then Invalid else parse_args false rest (o <| bo_port := v |>)
        | None => Invalid
        end
      else if String.eqb a "--help" then Help
      else if String.eqb a "--use-sii-pdos" then parse_args false rest (o <| bo_configure_pdos := false |>)
      else match rest with
           | value :: rest =>
               match set_option a (text_bytes value) o with
               | Some (Some o) => parse_args false rest o
               | _ => Invalid
               end
           | [] => Invalid
           end
  end.
Definition parse_options (args : list string) : parse_result := parse_args true args options_init.

(** ** One message of the client *)

Section Server.
Context {F : Type} `{Num F} `{DoubleLayout F}.
Abbreviation runtime := (BackendRuntime F).
Implicit Types rt : runtime.

(** The buffer of a message: 1024 bytes that are cleared before it is received. *)
Definition payload_capacity : Z := 1024.
Definition payload_buffer (payload : list Z) : list Z :=
  payload ++ replicate (Z.to_nat payload_capacity - length payload) 0.

Definition message_of (h : ECAT_NetHeader) (payload : list Z) : client_message :=
  let b := payload_buffer payload in
  if h_type h =? ECAT_NET_MSG_COMMAND then MsgCommand (parse_command b)
  else if h_type h =? ECAT_NET_MSG_SDO_READ then MsgSdoRead (parse_sdo_request b)
  else if h_type h =? ECAT_NET_MSG_SDO_WRITE then MsgSdoWrite (parse_sdo_request b)
  else MsgOther.

Definition error_bytes : list Z :=
  let text := text_bytes "Unsupported message type." in
  le_bytes 4 (-1) ++ text ++ replicate (ECAT_NET_MAX_TEXT - length text) 0.

(** The answer to a message, from the state after it is handled: type, sequence, payload. *)
Definition answer_of (h : ECAT_NetHeader) (msg : client_message) (before after : runtime) : Z * Z * list Z :=
  match msg with
  | MsgCommand _ =>
      (ECAT_NET_MSG_STATUS, br_response_sequence after, status_bytes (runtime_get_status after))
  | MsgSdoRead request =>
      (ECAT_NET_MSG_SDO_READ_REPLY, h_sequence h, sdo_reply_bytes (runtime_read_cached_sdo after request).2)
  | MsgSdoWrite request =>
      (ECAT_NET_MSG_SDO_WRITE_REPLY, h_sequence h, sdo_reply_bytes (runtime_write_cached_sdo request before).1.2)
  | MsgOther => (ECAT_NET_MSG_ERROR, h_sequence h, error_bytes)
  end.

(** Status messages count the answers of the server. *)
Definition count_answer (msg : client_message) rt : runtime :=
  match msg with
  | MsgCommand _ => rt <| br_response_sequence ::= (fun n => u32 (n + 1)) |>
  | _ => rt
  end.

(** One round of the loop in [handle_client]; [false] ends it. *)
Definition serve_one {W} (sk : socket W) (now : Z) (rt : runtime) : M W (bool * runtime) :=
  let* m := recv_message sk payload_capacity in
  match m with
  | None => ret (false, rt)
  | Some (h, payload) =>
      let msg := message_of h payload in
      let marked := runtime_mark_client_message now rt in
      let handled := count_answer msg (handle_message msg marked) in
      let '(ty, seq, p) := answer_of h msg marked handled in
      let* r := send_message sk ty seq p in
      ret (r =? 0, handled)
  end.

(** The greeting: the options of the connection, or the end of it. *)
Definition serve_hello {W} (sk : socket W) (base_options : BackendOptions) : M W (option BackendOptions) :=
  let* m := recv_message sk payload_capacity in
  ret (match m with
       | Some (h, payload) =>
           if h_type h =? ECAT_NET_MSG_HELLO then
             let period_us := s32 (field 64 4 (payload_buffer payload)) in
             Some (if 0 <? period_us then base_options <| bo_period_us := period_us |> else base_options)
           else None
       | None => None
       end).

(** The rest of [handle_client] without the real-time thread: the first status, then the
    messages, [now] at each of them, until the connection or the list ends. *)
Definition first_status {W} (sk : socket W) (rt : runtime) : M W (bool * runtime) :=
  let rt := rt <| br_response_sequence ::= (fun n => u32 (n + 1)) |> in
  let* r := send_message sk ECAT_NET_MSG_STATUS (br_response_sequence rt) (status_bytes (runtime_get_status rt)) in
  ret (r =? 0, rt).
Fixpoint serve_messages {W} (sk : socket W) (nows : list Z) (rt : runtime) : M W runtime :=
  match nows with
  | [] => ret rt
  | now :: nows =>
      let* r := serve_one sk now rt in
      if r.1 then serve_messages sk nows r.2 else ret r.2
  end.
Definition handle_client {W} (sk : socket W) (base_options : BackendOptions) (start : Z) (nows : list Z)
    : M W (option runtime) :=
  let* o := serve_hello sk base_options in
  match o with
  | None => ret None
  | Some options =>
      let* r := first_status sk (runtime_init options start) in
      if r.1 then let* rt := serve_messages sk nows r.2 in ret (Some (runtime_request_stop rt)) else ret None
  end.
End Server.
