(* ===== verification/Client.v ===== *)
(** * The client of the backend server (ethercat_dll/src/ethercat_master.c)

    The part of the library that talks to the backend server: the state of the connection, the
    requests with their answers, and what the library keeps of a status.  The critical
    sections are whole operations here; the socket and the connection to it are those of
    Wire.v. *)

From Stdlib Require Import String.
From S2P Require Import Prelude Num Types Cia402 Profile Backend Wire.
Import stdpp.list_relations.list stdpp.list_basics.list.

Definition ECAT_OK : Z := 0.
Definition ECAT_ERROR : Z := -1.
Definition ECAT_INVALID_ARGUMENT : Z := -2.
Definition ECAT_BUSY : Z := -3.
Definition ECAT_NOT_OPEN : Z := -4.
Definition ECAT_MAX_PDO_COPY : Z := 256.
Definition ECAT_MAX_SLAVE_NAME : nat := 41.
Definition ECAT_MAX_MESSAGE : nat := 256.
Definition ECAT_DEFAULT_PERIOD_US : Z := 1000.

(** What the library keeps of a slave. *)
Record slave_snapshot : Type := SlaveSnapshot {
  sn_index : Z;
  sn_name : string;
  sn_state : Z;
  sn_al_status : Z;
  sn_config_address : Z;
  sn_alias_address : Z;
  sn_vendor_id : Z;
  sn_product_code : Z;
  sn_revision : Z;
  sn_serial : Z;
  sn_output_bits : Z;
  sn_output_bytes : Z;
  sn_input_bits : Z;
  sn_input_bytes : Z;
  sn_mailbox_write_bytes : Z;
  sn_mailbox_read_bytes : Z;
  sn_mailbox_protocols : Z;
  sn_has_dc : Z;
  sn_is_lost : Z;
  sn_database : option (string * string);
  sn_output_size : Z;
  sn_outputs : list Z;
  sn_input_size : Z;
  sn_inputs : list Z;
}.

(** The connection and the settings of a motion in [EthercatCore]. *)
Record rt_client (F : Type) : Type := RtClient {
  cl_connected : bool;
  cl_sequence : Z;
  cl_opened : bool;
  cl_worker_running : bool;
  cl_profile_type : Z;
  cl_jerk_ratio : F;
  cl_status : ECAT_NetRuntimeStatus F;
  cl_slaves : list slave_snapshot;
}.
Arguments RtClient {F}.
Arguments cl_connected {F}.
Arguments cl_sequence {F}.
Arguments cl_opened {F}.
Arguments cl_worker_running {F}.
Arguments cl_profile_type {F}.
Arguments cl_jerk_ratio {F}.
Arguments cl_status {F}.
Arguments cl_slaves {F}.

Section Client.
Context {F : Type} `{Num F} `{DoubleLayout F} {W : Type} (sk : socket W).
Abbreviation client := (rt_client F).
Abbreviation R := (M (W * client)).

(** The database of known devices. *)
Variable db_find_match : Z -> Z -> Z -> option (string * string).

Definition on_socket {A} (m : M W A) : R A := zoom fst (fun w s => (w, s.2)) m.
Definition cl_gets {A} (f : client -> A) : R A := gets (fun s => f s.2).
Definition cl_modify (f : client -> client) : R unit := modify (fun s => (s.1, f s.2)).

(** ** Settings of a motion *)

Definition normalize_motion_profile_type (profile_type : Z) : Z :=
  if (profile_type =? CIA402_PROFILE_LMS) || (profile_type =? CIA402_PROFILE_TRAPEZOIDAL)
     || (profile_type =? CIA402_PROFILE_SCURVE) || (profile_type =? CIA402_PROFILE_JERK_RATIO)
  then profile_type else CIA402_PROFILE_TRAPEZOIDAL.
Definition dll_normalize_jerk_ratio (jerk_ratio : F) : F :=
  if n_ltb jerk_ratio (n_of_Z 0) then n_of_Z 0
  else if n_ltb (n_of_Z 1) jerk_ratio then n_of_Z 1 else jerk_ratio.

Definition ECAT_SetMotionProfile (profile_type : Z) (jerk_ratio : F) : R Z :=
  do* cl_modify (fun c => c <| cl_profile_type := normalize_motion_profile_type profile_type |>
                            <| cl_jerk_ratio := dll_normalize_jerk_ratio jerk_ratio |>) in
  ret ECAT_OK.

(** ** Messages *)

Definition rt_close_socket_locked : R unit := cl_modify (fun c => c <| cl_connected := false |>).

(** The header has the next sequence number. *)
Definition rt_send_message_locked (type : Z) (payload : list Z) : R Z :=
  let* open := cl_gets cl_connected in
  if negb open then ret ECAT_NOT_OPEN
  else
    do* cl_modify (fun c => c <| cl_sequence ::= (fun n => u32 (n + 1)) |>) in
    let* seq := cl_gets cl_sequence in
    let* r := on_socket (send_message sk type seq payload) in
    ret (if r =? 0 then ECAT_OK else ECAT_ERROR).

Definition rt_recv_message_locked (payload_capacity : Z) : R (Z * option (ECAT_NetHeader * list Z)) :=
  let* open := cl_gets cl_connected in
  if negb open then ret (ECAT_NOT_OPEN, None)
  else
    let* m := on_socket (recv_message sk payload_capacity) in
    ret (match m with Some _ => (ECAT_OK, m) | None => (ECAT_ERROR, None) end).

(** ** Status *)

Definition clamp_copy (n : Z) : Z := Z.min (Z.min n ECAT_MAX_PDO_COPY) ECAT_NET_MAX_PDO_COPY.
Definition copy_pdo (n : Z) (src : list Z) : list Z :=
  let n := Z.to_nat n in
  take n src ++ replicate (Z.to_nat ECAT_MAX_PDO_COPY - n) 0.

Definition snapshot_of (src : ECAT_NetSlaveStatus) : slave_snapshot :=
  let out_len := clamp_copy (ss_output_size src) in
  let in_len := clamp_copy (ss_input_size src) in
  SlaveSnapshot (ss_index src) (safe_copy ECAT_MAX_SLAVE_NAME (ss_name src)) (ss_state src)
    (ss_al_status src) 0 0 (ss_vendor_id src) (ss_product_code src) (ss_revision src) (ss_serial src)
    0 (ss_output_bytes src) 0 (ss_input_bytes src) 0 0 0 (ss_has_dc src) (ss_is_lost src)
    (db_find_match (ss_vendor_id src) (ss_product_code src) (ss_revision src))
    out_len (copy_pdo out_len (ss_outputs src)) in_len (copy_pdo in_len (ss_inputs src)).

Definition snapshot_zero : slave_snapshot :=
  SlaveSnapshot 0 "" 0 0 0 0 0 0 0 0 0 0 0 0 0 0 0 0 0 None
    0 (replicate (Z.to_nat ECAT_MAX_PDO_COPY) 0) 0 (replicate (Z.to_nat ECAT_MAX_PDO_COPY) 0).

(** The slaves behind the count of the status are cleared. *)
Definition rt_apply_status_locked (net_status : ECAT_NetStatus F) (c : client) : client :=
  let r := st_runtime net_status in
  let count := Z.min (Z.min (ns_slave_count r) ECAT_NET_MAX_SLAVES) (EC_MAXSLAVE - 1) in
  let slaves := map snapshot_of (take (Z.to_nat count) (st_slaves net_status)) in
  c <| cl_status := r <| state_text := safe_copy ECAT_MAX_MESSAGE (state_text r) |>
                      <| last_error := safe_copy ECAT_MAX_MESSAGE (last_error r) |>
                      <| crc_status := safe_copy ECAT_MAX_MESSAGE (crc_status r) |> |>
    <| cl_slaves := slaves ++ replicate (Z.to_nat EC_MAXSLAVE - length slaves) snapshot_zero |>.

Definition rt_recv_status_locked : R Z :=
  let* r := rt_recv_message_locked status_size in
  match r with
  | (_, Some (h, payload)) =>
      if h_type h =? ECAT_NET_MSG_STATUS then
        let status := payload ++ replicate (Z.to_nat status_size - length payload) 0 in
        do* cl_modify (rt_apply_status_locked (parse_status status)) in
        ret ECAT_OK
      else ret ECAT_ERROR
  | (result, None) => ret result
  end.

(** ** Requests *)

Definition rt_send_command_locked (command : ECAT_NetCommand) : R Z :=
  let* r := rt_send_message_locked ECAT_NET_MSG_COMMAND (command_bytes command) in
  if negb (r =? ECAT_OK) then ret r else rt_recv_status_locked.

Definition command_zero : ECAT_NetCommand := NetCommand 0 0 0 0 0 0 0 0 0 0 0 0 0 0.

(** The end of the connection. *)
Definition cl_close : R unit :=
  do* rt_close_socket_locked in
  cl_modify (fun c => c <| cl_opened := false |> <| cl_worker_running := false |>).

Definition rt_poll_status : R Z :=
  let* r := rt_send_command_locked command_zero in
  do* when (negb (r =? ECAT_OK)) cl_close in
  ret r.

(** [period_us]: what the caller's options say, 0 without options. *)
Definition hello_bytes (period_us request_operational : Z) : list Z :=
  let name := text_bytes (safe_copy ECAT_NET_MAX_NAME "ethercat_dll_windows_client") in
  name ++ replicate (ECAT_NET_MAX_NAME - length name) 0
  ++ le_bytes 4 (if 0 <? period_us then period_us else ECAT_DEFAULT_PERIOD_US)
  ++ le_bytes 4 request_operational.

Definition set_text (f : ECAT_NetRuntimeStatus F -> ECAT_NetRuntimeStatus F) : R unit :=
  cl_modify (fun c => c <| cl_status ::= f |>).

(** [connected]: whether the connection to the server could be made. *)
Definition rt_open_backend (connects : bool) (period_us request_operational : Z) : R Z :=
  do* cl_modify (fun c => c <| cl_connected := connects |>) in
  let* r := (if connects then rt_send_message_locked ECAT_NET_MSG_HELLO (hello_bytes period_us request_operational)
             else ret ECAT_ERROR) in
  let* r := (if r =? ECAT_OK then rt_recv_status_locked else ret r) in
  if r =? ECAT_OK then
    do* cl_modify (fun c => c <| cl_opened := true |> <| cl_worker_running := true |>) in
    do* set_text (fun s => s <| state_text := safe_copy ECAT_MAX_MESSAGE "Linux RT backend connected" |>) in
    ret r
  else
    do* cl_close in
    do* set_text (fun s => s <| state_text := safe_copy ECAT_MAX_MESSAGE "Disconnected" |>
                             <| last_error := safe_copy ECAT_MAX_MESSAGE "Linux RT backend connection failed." |>) in
    ret r.

Definition rt_close_backend : R Z :=
  let* open := cl_gets cl_connected in
  do* when open (let* _ := rt_send_command_locked (command_zero <| nc_command := ECAT_NET_CMD_STOP |>) in ret tt) in
  do* cl_close in
  do* set_text (fun s => s <| connected := 0 |> <| operational := 0 |>
                           <| state_text := safe_copy ECAT_MAX_MESSAGE "Disconnected" |>) in
  ret ECAT_OK.

(** The jerk ratio of a motion in thousandths; the commands of the linear motor have their own. *)
Definition motion_command (type slave_index target_position target_velocity velocity acceleration deceleration
    mode homing_method search_speed latch_speed : Z) (profile_type : Z) (jerk_ratio : F) : option ECAT_NetCommand :=
  let lms := (type =? ECAT_NET_CMD_LMS_MOVE_ABS) || (type =? ECAT_NET_CMD_LMS_MOVE_VEL)
             || (type =? ECAT_NET_CMD_LMS_STOP) in
  let profile_type := if lms then CIA402_PROFILE_LMS else profile_type in
  let jerk_ratio := dll_normalize_jerk_ratio (if lms then n_frac 35 100 else jerk_ratio) in
  permille ← n_trunc (n_add (n_mul jerk_ratio (n_of_Z 1000)) (n_frac 1 2));
  Some (NetCommand type slave_index target_position target_velocity velocity acceleration deceleration mode
    homing_method search_speed latch_speed ECAT_NET_CMD_FLAG_PROFILE_VALID profile_type permille).

Definition rt_send_motion_command (type slave_index target_position target_velocity velocity acceleration
    deceleration mode homing_method search_speed latch_speed : Z) : R Z :=
  let* profile_type := cl_gets cl_profile_type in
  let* jerk_ratio := cl_gets cl_jerk_ratio in
  let* command := of_opt BadConversion
    (motion_command type slave_index target_position target_velocity velocity acceleration deceleration mode
       homing_method search_speed latch_speed profile_type jerk_ratio) in
  rt_send_command_locked command.

Definition sdo_data (data : list Z) : list Z :=
  data ++ replicate (Z.to_nat ECAT_NET_SDO_DATA - length data) 0.

Definition sdo_reply_size : Z := 264.
(** What an answer that is shorter than its structure leaves unset. *)
Variable junk : list Z.

(** A request and its answer of the type [answer]. *)
Definition sdo_call (type answer : Z) (request : ECAT_NetSdoRequest) : R (Z * option ECAT_NetSdoReply) :=
  let* r := rt_send_message_locked type (sdo_request_bytes request) in
  if negb (r =? ECAT_OK) then ret (r, None)
  else
    let* r := rt_recv_message_locked sdo_reply_size in
    match r with
    | (_, Some (h, payload)) =>
        let reply := parse_sdo_reply (payload ++ drop (length payload) junk) in
        if negb (h_type h =? answer) || negb (sp_result reply =? ECAT_OK) then ret (ECAT_ERROR, None)
        else ret (ECAT_OK, Some reply)
    | (result, None) => ret (result, None)
    end.

(** The result and the bytes that are stored for the caller; their number is what the answer
    says, which may be less than none. *)
Definition rt_read_sdo (slave_index index subindex data_capacity : Z) : R (Z * option (Z * list Z)) :=
  if data_capacity <=? 0 then ret (ECAT_INVALID_ARGUMENT, None)
  else
    let* r := sdo_call ECAT_NET_MSG_SDO_READ ECAT_NET_MSG_SDO_READ_REPLY
                (NetSdoRequest slave_index index subindex 0 data_capacity (sdo_data [])) in
    match r with
    | (result, None) => ret (result, None)
    | (_, Some reply) =>
        let copy := if sp_size reply <? data_capacity then sp_size reply else data_capacity in
        if 0 <? copy then
          let* data := of_opt OutOfBounds (zslice (sp_data reply) 0 copy) in
          ret (ECAT_OK, Some (copy, data))
        else ret (ECAT_OK, Some (copy, []))
    end.

Definition rt_write_sdo (slave_index index subindex : Z) (data : list Z) : R Z :=
  if (zlen data <=? 0) || (ECAT_NET_SDO_DATA <? zlen data) then ret ECAT_INVALID_ARGUMENT
  else
    let* r := sdo_call ECAT_NET_MSG_SDO_WRITE ECAT_NET_MSG_SDO_WRITE_REPLY
                (NetSdoRequest slave_index index subindex 0 (zlen data) (sdo_data data)) in
    ret r.1.
End Client.
