(* ===== verification/Servo.v ===== *)
(** * Servo commands of the library (ethercat_dll/src/ethercat_master.c, the functions
      ECAT_Servo... and ECAT_LMS_...)

    A servo is commanded by objects of its dictionary, or by a message to the backend server.
    What the commands use of the library is the class [ServoPort]; Dll.v implements it. *)

From Stdlib Require Import String.
From S2P Require Import Prelude Types Num Cia402 Profile Backend Client.
Import stdpp.list_relations.list stdpp.list_basics.list.

(** ** What the commands use *)

(** [port_ReadSdo slave index subindex capacity] and [port_WriteSdo slave index subindex data]
    are ECAT_ReadSdo and ECAT_WriteSdo; [port_motion_command] is rt_send_motion_command with its
    arguments in their order, without the profile. *)
Class ServoPort (S : Type) : Type := {
  port_is_linux_rt : M S bool;
  port_ReadSdo : Z -> Z -> Z -> Z -> M S (Z * option (Z * list Z));
  port_WriteSdo : Z -> Z -> Z -> list Z -> M S Z;
  port_motion_command : Z -> Z -> Z -> Z -> Z -> Z -> Z -> Z -> Z -> Z -> Z -> M S Z;
  port_Sleep : Z -> M S unit;
}.

Record ECAT_ServoStatus : Type := ServoStatus {
  sv_statusword : Z;
  sv_controlword : Z;
  sv_mode_display : Z;
  sv_target_position : Z;
  sv_target_velocity : Z;
  sv_actual_position : Z;
  sv_actual_velocity : Z;
  sv_error_code : Z;
  sv_target_reached : bool;
  sv_fault : bool;
  sv_warning : bool;
  sv_cia402_state : string;
}.
Definition servo_status_zero : ECAT_ServoStatus := ServoStatus 0 0 0 0 0 0 0 0 false false false "".

Definition ECAT_Cia402StateName (statusword : Z) : string :=
  if Z.land statusword 0x4f =? 0x00 then "Not ready"
  else if Z.land statusword 0x4f =? 0x40 then "Switch on disabled"
  else if Z.land statusword 0x6f =? 0x21 then "Ready to switch on"
  else if Z.land statusword 0x6f =? 0x23 then "Switched on"
  else if Z.land statusword 0x6f =? 0x27 then "Operation enabled"
  else if Z.land statusword 0x6f =? 0x07 then "Quick stop active"
  else if Z.land statusword 0x4f =? 0x0f then "Fault reaction"
  else if Z.land statusword 0x4f =? 0x08 then "Fault"
  else "Unknown".

Section Servo.
Context {S : Type} `{ServoPort S}.

(** ** Objects as numbers *)

(** A number of [n] bytes: the result, and the number when it is [ECAT_OK]. *)
Definition read_number (n slave_index index subindex : Z) : M S (Z * option Z) :=
  let* r := port_ReadSdo slave_index index subindex n in
  let '(result, stored) := r in
  let size := match stored with Some (size, _) => size | None => 0 end in
  if negb (result =? ECAT_OK) || (size <? n)
  then ret (if negb (result =? ECAT_OK) then result else ECAT_ERROR, None)
  else
    let* data := of_opt OutOfBounds (match stored with Some (_, data) => zslice data 0 n | None => None end) in
    ret (ECAT_OK, Some (of_le data)).

Definition read_sdo_u8 (slave_index index subindex : Z) : M S (Z * option Z) :=
  read_number 1 slave_index index subindex.
Definition read_sdo_u16 (slave_index index subindex : Z) : M S (Z * option Z) :=
  read_number 2 slave_index index subindex.
Definition read_sdo_i32 (slave_index index subindex : Z) : M S (Z * option Z) :=
  let* r := read_number 4 slave_index index subindex in ret (r.1, option_map s32 r.2).

Definition write_sdo_u8 (slave_index index subindex value : Z) : M S Z :=
  port_WriteSdo slave_index index subindex [u8 value].
Definition write_sdo_i8 (slave_index index subindex value : Z) : M S Z :=
  port_WriteSdo slave_index index subindex [u8 value].
Definition write_sdo_u16 (slave_index index subindex value : Z) : M S Z :=
  port_WriteSdo slave_index index subindex (le_bytes 2 value).
Definition write_sdo_u32 (slave_index index subindex value : Z) : M S Z :=
  port_WriteSdo slave_index index subindex (le_bytes 4 value).
Definition write_sdo_i32 (slave_index index subindex value : Z) : M S Z :=
  write_sdo_u32 slave_index index subindex (u32 value).

Definition servo_write_controlword (slave_index controlword : Z) : M S Z :=
  write_sdo_u16 slave_index 0x6040 0 controlword.

Definition servo_track_actual_target_once (slave_index : Z) : M S Z :=
  let* r := read_sdo_i32 slave_index 0x6064 0 in
  match r with
  | (_, Some actual_position) => write_sdo_i32 slave_index 0x607a 0 actual_position
  | (result, None) => ret result
  end.

(** [result = return_on_error(m); if (result != 0) return result;] *)
Definition or_return (m k : M S Z) : M S Z :=
  let* result := m in
  if negb (result =? ECAT_OK) then ret result else k.
(** A parameter that is written only when it is not zero. *)
Definition write_positive (slave_index index subindex value : Z) (k : M S Z) : M S Z :=
  if 0 <? value then or_return (write_sdo_u32 slave_index index subindex value) k else k.

(** A command of its own for the backend server. *)
Definition on_linux_rt (slave_index : Z) (remote local : M S Z) : M S Z :=
  if slave_index <=? 0 then ret ECAT_INVALID_ARGUMENT
  else
    let* linux := port_is_linux_rt in
    if (linux : bool) then remote else local.

(** ** Commands *)

(** Apart from the status word, what cannot be read is zero. *)
Definition ECAT_ServoGetStatus (slave_index : Z) : M S (Z * ECAT_ServoStatus) :=
  if slave_index <=? 0 then ret (ECAT_INVALID_ARGUMENT, servo_status_zero)
  else
    let* statusword := read_sdo_u16 slave_index 0x6041 0 in
    match statusword with
    | (result, None) => ret (result, servo_status_zero)
    | (_, Some statusword) =>
        let* controlword := read_sdo_u16 slave_index 0x6040 0 in
        let* mode := read_sdo_u8 slave_index 0x6061 0 in
        let* target_position := read_sdo_i32 slave_index 0x607a 0 in
        let* target_velocity := read_sdo_i32 slave_index 0x60ff 0 in
        let* actual_position := read_sdo_i32 slave_index 0x6064 0 in
        let* actual_velocity := read_sdo_i32 slave_index 0x606c 0 in
        let* error_code := read_sdo_u16 slave_index 0x603f 0 in
        let value (r : Z * option Z) := default 0 r.2 in
        ret (ECAT_OK,
             ServoStatus statusword (value controlword) (s8 (value mode)) (value target_position)
               (value target_velocity) (value actual_position) (value actual_velocity) (value error_code)
               (negb (Z.land statusword 0x0400 =? 0)) (negb (Z.land statusword 0x0008 =? 0))
               (negb (Z.land statusword 0x0080 =? 0)) (ECAT_Cia402StateName statusword))
    end.

Definition ECAT_ServoFaultReset (slave_index : Z) : M S Z :=
  on_linux_rt slave_index
    (port_motion_command ECAT_NET_CMD_SERVO_FAULT_RESET slave_index 0 0 0 0 0 0 0 0 0)
    (or_return (servo_write_controlword slave_index 0x0080)
       (do* port_Sleep 50 in
        servo_write_controlword slave_index 0x0006)).

Definition ECAT_ServoEnable (slave_index : Z) : M S Z :=
  on_linux_rt slave_index
    (port_motion_command ECAT_NET_CMD_SERVO_ENABLE slave_index 0 0 0 0 0 0 0 0 0)
    (let* status := ECAT_ServoGetStatus slave_index in
     let enable :=
       let* _ := servo_track_actual_target_once slave_index in
       or_return (servo_write_controlword slave_index 0x0006)
         (do* port_Sleep 20 in
          or_return (servo_write_controlword slave_index 0x0007)
            (do* port_Sleep 20 in
             servo_write_controlword slave_index 0x000f)) in
     if (status.1 =? ECAT_OK) && sv_fault status.2
     then or_return (ECAT_ServoFaultReset slave_index) (do* port_Sleep 50 in enable)
     else enable).

Definition ECAT_ServoDisable (slave_index : Z) : M S Z :=
  on_linux_rt slave_index
    (port_motion_command ECAT_NET_CMD_SERVO_DISABLE slave_index 0 0 0 0 0 0 0 0 0)
    (servo_write_controlword slave_index 0x0006).

Definition ECAT_ServoSetMode (slave_index mode : Z) : M S Z :=
  on_linux_rt slave_index
    (port_motion_command ECAT_NET_CMD_SERVO_SET_MODE slave_index 0 0 0 0 0 mode 0 0 0)
    (write_sdo_i8 slave_index 0x6060 0 mode).

Definition ECAT_ServoMoveAbs (slave_index target_position velocity acceleration deceleration : Z) : M S Z :=
  on_linux_rt slave_index
    (port_motion_command ECAT_NET_CMD_SERVO_MOVE_ABS slave_index target_position 0 velocity
       acceleration deceleration 0 0 0 0)
    (or_return (ECAT_ServoSetMode slave_index CIA402_MODE_PROFILE_POSITION)
       (write_positive slave_index 0x6081 0 velocity
          (write_positive slave_index 0x6083 0 acceleration
             (write_positive slave_index 0x6084 0 deceleration
                (or_return (write_sdo_i32 slave_index 0x607a 0 target_position)
                   (or_return (ECAT_ServoEnable slave_index)
                      (or_return (servo_write_controlword slave_index 0x003f)
                         (do* port_Sleep 10 in
                          servo_write_controlword slave_index 0x000f)))))))).

Definition ECAT_ServoGetPosition (slave_index : Z) : M S (Z * option Z) :=
  if slave_index <=? 0 then ret (ECAT_INVALID_ARGUMENT, None) else read_sdo_i32 slave_index 0x6064 0.

Definition ECAT_ServoMoveRel (slave_index distance velocity acceleration deceleration : Z) : M S Z :=
  on_linux_rt slave_index
    (port_motion_command ECAT_NET_CMD_SERVO_MOVE_REL slave_index distance 0 velocity
       acceleration deceleration 0 0 0 0)
    (let* r := ECAT_ServoGetPosition slave_index in
     match r with
     | (_, Some current_position) =>
         let target_position := current_position + distance in
         if (target_position <? INT32_MIN) || (INT32_MAX <? target_position)
         then ret ECAT_INVALID_ARGUMENT
         else ECAT_ServoMoveAbs slave_index target_position velocity acceleration deceleration
     | (result, None) => ret result
     end).

Definition ECAT_ServoJog (slave_index target_velocity acceleration deceleration : Z) : M S Z :=
  on_linux_rt slave_index
    (port_motion_command ECAT_NET_CMD_SERVO_JOG slave_index 0 target_velocity 0 acceleration deceleration 0 0 0 0)
    (or_return (ECAT_ServoSetMode slave_index CIA402_MODE_PROFILE_VELOCITY)
       (write_positive slave_index 0x6083 0 acceleration
          (write_positive slave_index 0x6084 0 deceleration
             (or_return (write_sdo_i32 slave_index 0x60ff 0 target_velocity)
                (ECAT_ServoEnable slave_index))))).

Definition ECAT_ServoMoveVel (slave_index target_velocity acceleration deceleration : Z) : M S Z :=
  ECAT_ServoJog slave_index target_velocity acceleration deceleration.

Definition ECAT_ServoHome (slave_index homing_method search_speed latch_speed acceleration : Z) : M S Z :=
  on_linux_rt slave_index
    (port_motion_command ECAT_NET_CMD_SERVO_HOME slave_index 0 0 0 acceleration 0 0 homing_method
       search_speed latch_speed)
    (or_return (ECAT_ServoSetMode slave_index CIA402_MODE_HOMING)
       (or_return (write_sdo_i8 slave_index 0x6098 0 homing_method)
          (write_positive slave_index 0x6099 1 search_speed
             (write_positive slave_index 0x6099 2 latch_speed
                (write_positive slave_index 0x609a 0 acceleration
                   (or_return (ECAT_ServoEnable slave_index)
                      (servo_write_controlword slave_index 0x001f))))))).

Definition ECAT_ServoStop (slave_index : Z) : M S Z :=
  on_linux_rt slave_index
    (port_motion_command ECAT_NET_CMD_SERVO_STOP slave_index 0 0 0 0 0 0 0 0 0)
    (let* _ := write_sdo_i32 slave_index 0x60ff 0 0 in
     servo_write_controlword slave_index 0x010f).

(** ** The linear motor *)

Definition ECAT_LMS_MoveAbs (slave_index target_position velocity : Z) : M S Z :=
  on_linux_rt slave_index
    (port_motion_command ECAT_NET_CMD_LMS_MOVE_ABS slave_index target_position 0 velocity 0 0 0 0 0 0)
    (ECAT_ServoMoveAbs slave_index target_position velocity 0 0).
Definition ECAT_LMS_MoveVel (slave_index target_velocity : Z) : M S Z :=
  on_linux_rt slave_index
    (port_motion_command ECAT_NET_CMD_LMS_MOVE_VEL slave_index 0 target_velocity 0 0 0 0 0 0 0)
    (ECAT_ServoJog slave_index target_velocity 0 0).
Definition ECAT_LMS_Stop (slave_index : Z) : M S Z :=
  on_linux_rt slave_index
    (port_motion_command ECAT_NET_CMD_LMS_STOP slave_index 0 0 0 0 0 0 0 0 0)
    (ECAT_ServoStop slave_index).
Definition ECAT_LMS_GetMoverPosition (slave_index : Z) : M S (Z * option Z) :=
  ECAT_ServoGetPosition slave_index.
End Servo.
