(* ===== verification/Database.v ===== *)
(** * The database of devices (ethercat_dll/src/ethercat_master.c)

    The library keeps a table of known devices in memory and in an index file, a line for
    each device, and fills it from the XML descriptions of devices.  Files are the class
    [FileStore]. *)

From Stdlib Require Import String.
From S2P Require Import Prelude Backend Client Wire.
Import stdpp.list_relations.list stdpp.list_basics.list.

(** ** Files *)

Class FileStore (L : Type) : Type := {
  fs_module : option text;                (** GetModuleFileName, when it fits in [MAX_PATH] *)
  fs_mkdir : text -> M L bool;            (** the directory is made or exists *)
  fs_read : text -> M L (option text);    (** what the file holds, when it can be read *)
  fs_write : text -> text -> M L bool;    (** replace a file; whether it can be opened *)
  fs_copy : text -> text -> M L bool;
  fs_same : text -> text -> bool;         (** lstrcmpiA *)
  fs_now : M L text;                      (** the time of day, [%Y-%m-%d %H:%M:%S] *)
}.

Definition ECAT_MAX_PATH_TEXT : nat := 260.
Definition ECAT_MAX_DB_ENTRIES : nat := 512.
Definition MAX_PATH : nat := 260.
Definition ECAT_DB_INDEX_FILE : text := Eval vm_compute in text_bytes "slaves.csv".
Definition ECAT_DB_XML_DIR : text := Eval vm_compute in text_bytes "xml".

(** ** Data *)

Record ECAT_DbEntry : Type := DbEntry {
  e_vendor_id : Z;
  e_product_code : Z;
  e_revision : Z;
  e_name : text;
  e_xml_path : text;
  e_xml_type : text;
  e_imported_at : text;
}.
Definition entry_zero : ECAT_DbEntry := DbEntry 0 0 0 [] [] [] [].

(** [db_entries] holds the [db_count] entries in use. *)
Record database (L : Type) : Type := Database {
  db_store : L;
  db_root : text;
  db_entries : list ECAT_DbEntry;
}.
Arguments Database {L}.
Arguments db_store {L}.
Arguments db_root {L}.
Arguments db_entries {L}.

(** ** Reading XML *)

Definition tag_open (tag : text) : text := 60 :: tag.
Definition tag_close (tag : text) : text := 60 :: 47 :: tag ++ [62].

(** The value behind an attribute and its equals sign. *)
Definition attr_value (dst_size : nat) (q : text) : text :=
  let q := skip_spaces q in
  let '(quote, q) := match q with
                     | c :: q' => if (c =? 34) || (c =? 39) then (c, q') else (0, q)
                     | [] => (0, q)
                     end in
  let ends c := if quote =? 0 then is_space c || (c =? 62) else c =? quote in
  let fix value q := match q with
                     | c :: q => if ends c then [] else c :: value q
                     | [] => []
                     end in
  trim_in_place (fit dst_size (value q)).

(** [n] bounds the occurrences of the attribute name looked at; the length of the text is
    enough. *)
Fixpoint attr_scan (n : nat) (p attr : text) (dst_size : nat) : text :=
  match n with
  | O => []
  | S n =>
      match find_text_i p attr with
      | None => []
      | Some p =>
          match skip_spaces (drop (length attr) p) with
          | 61 :: q => attr_value dst_size q
          | _ => attr_scan n (drop (length attr) p) attr dst_size
          end
      end
  end.
(** Nothing found is the empty text, as is an empty value. *)
Definition copy_attr_value (xml attr : text) (dst_size : nat) : text := attr_scan (length xml) xml attr dst_size.

Definition copy_tag_text_from (xml tag : text) (dst_size : nat) : text :=
  match find_text_i xml (tag_open tag) with
  | None => []
  | Some start =>
      match find_char 62 start with
      | Some (_ :: start) =>
          match find_text_i start (tag_close tag) with
          | None => []
          | Some end_ => trim_in_place (fit dst_size (take (length start - length end_) start))
          end
      | _ => []
      end
  end.

Fixpoint element_scan (n : nat) (p open_tag : text) : option text :=
  match n with
  | O => None
  | S n =>
      match find_text_i p open_tag with
      | None => None
      | Some p =>
          match drop (length open_tag) p with
          | [] => Some p
          | (c :: _) as rest =>
              if (c =? 62) || (c =? 47) || is_space c then Some p else element_scan n rest open_tag
          end
      end
  end.
Definition find_xml_element (xml tag : text) : option text := element_scan (length xml) xml (tag_open tag).

(** [a || b], where [b] is tried when [a] found nothing. *)
Definition or_text (a b : text) : text := match a with [] => b | _ => a end.

Definition copy_vendor_id (xml : text) (dst_size : nat) : text :=
  let attr := copy_attr_value xml in
  let tag x t := copy_tag_text_from x (text_bytes t) dst_size in
  or_text (attr (text_bytes "VendorId") dst_size) (or_text (attr (text_bytes "VendorID") dst_size)
    match find_xml_element xml (text_bytes "Vendor") with
    | None => or_text (tag xml "VendorId"%string) (or_text (tag xml "VendorID"%string) (tag xml "Id"%string))
    | Some vendor =>
        let vendor_end := find_text_i vendor (text_bytes "</Vendor>") in
        match find_text_i vendor (text_bytes "<Id") with
        | Some id_start =>
            if match vendor_end with Some e => (length id_start <? length e)%nat | None => false end
            then or_text (tag xml "VendorId"%string) (tag xml "VendorID"%string)
            else tag id_start "Id"%string
        | None => or_text (tag xml "VendorId"%string) (tag xml "VendorID"%string)
        end
    end).

Definition strip_cdata (t : text) : text :=
  let t := trim_in_place t in
  let prefix := text_bytes "<![CDATA[" in
  if starts_with prefix t then trim_in_place (before (text_bytes "]]>") (drop (length prefix) t)) else t.

(** What is not found keeps the zero of its field. *)
Definition number_or_zero (t : text) : Z := match t with [] => 0 | _ => parse_ecat_number t end.

Definition parse_xml_device_from (xml : text) (section : option text) : Z * ECAT_DbEntry :=
  let scan := default xml section in
  let n := ECAT_MAX_MESSAGE in
  let attr t := copy_attr_value scan (text_bytes t) n in
  let tag t := copy_tag_text_from scan (text_bytes t) n in
  let vendor_id := number_or_zero (or_text (copy_vendor_id scan n) (copy_vendor_id xml n)) in
  let product_code := number_or_zero (or_text (attr "ProductCode"%string) (tag "ProductCode"%string)) in
  let revision := number_or_zero
    (or_text (attr "RevisionNo"%string) (or_text (attr "Revision"%string) (tag "RevisionNo"%string))) in
  let name := or_text (tag "Name"%string) (or_text (tag "Type"%string)
    (fit n (text_bytes "Vendor 0x" ++ hex8 vendor_id ++ text_bytes " Product 0x" ++ hex8 product_code))) in
  let found t := match find_text_i xml (text_bytes t) with Some _ => true | None => false end in
  let xml_type := text_bytes (if found "<EtherCATInfo"%string then "ESI"
                              else if found "<EtherCATConfig"%string || found "<Config"%string then "ENI"
                              else "XML")%string in
  let entry := DbEntry vendor_id product_code revision (sanitize_csv_text (strip_cdata name)) [] xml_type [] in
  (if (vendor_id =? 0) || (product_code =? 0) then ECAT_ERROR else ECAT_OK, entry).

Definition device_section (xml : text) : option text :=
  match find_xml_element xml (text_bytes "Slave") with
  | Some s => Some s
  | None => find_xml_element xml (text_bytes "Device")
  end.
Definition parse_xml_device (xml : text) : Z * ECAT_DbEntry := parse_xml_device_from xml (device_section xml).

Section Database.
Context {L : Type} `{FileStore L}.
Abbreviation D := (M (database L)).

Definition on_store {A} (m : M L A) : D A := zoom db_store (fun l d => d <| db_store := l |>) m.

(** ** Places *)

(** The text before the last [c]. *)
Definition before_last (c : Z) (t : text) : option text :=
  match find_char c (rev t) with
  | Some (_ :: r) => Some (rev r)
  | _ => None
  end.

Definition set_default_db_root : D unit :=
  modify (fun d => d <| db_root :=
    match fs_module with
    | None => fit ECAT_MAX_PATH_TEXT (text_bytes ".\ethercat_db")
    | Some exe_path =>
        let exe_dir := fit MAX_PATH exe_path in
        let exe_dir := match before_last 92 exe_dir with
                       | Some dir => dir
                       | None => match before_last 47 exe_dir with Some dir => dir | None => text_bytes "." end
                       end in
        path_join ECAT_MAX_PATH_TEXT exe_dir (text_bytes "ethercat_db")
    end |>).

Definition make_directory_if_needed (path : text) : D Z :=
  match path with
  | [] => ret ECAT_INVALID_ARGUMENT
  | _ => let* made := on_store (fs_mkdir path) in ret (if (made : bool) then ECAT_OK else ECAT_ERROR)
  end.

Definition db_xml_dir_locked (root : text) : text := path_join ECAT_MAX_PATH_TEXT root ECAT_DB_XML_DIR.
Definition db_index_path_locked (root : text) : text := path_join ECAT_MAX_PATH_TEXT root ECAT_DB_INDEX_FILE.

Definition ensure_db_dirs_locked : D Z :=
  let* root := gets db_root in
  let* result := make_directory_if_needed root in
  if negb (result =? ECAT_OK) then ret result
  else make_directory_if_needed (db_xml_dir_locked root).

Definition build_xml_store_path_locked (root : text) (e : ECAT_DbEntry) (source_path : text) : text :=
  let source_name := sanitize_file_text (fit 96 (path_basename source_path)) in
  let store_name := sanitize_file_text (fit 160
    (hex8 (e_vendor_id e) ++ [95] ++ hex8 (e_product_code e) ++ [95] ++ hex8 (e_revision e) ++ [95]
     ++ or_text source_name (text_bytes "device.xml"))) in
  path_join ECAT_MAX_PATH_TEXT (db_xml_dir_locked root) store_name.

(** A file of one byte to 16 megabytes, as a text. *)
Definition read_file_text (path : text) : D (Z * text) :=
  let* contents := on_store (fs_read path) in
  ret match contents with
      | Some data =>
          if (zlen data <=? 0) || (16 * 1024 * 1024 <? zlen data) then (ECAT_ERROR, [])
          else (ECAT_OK, cut_nul data)
      | None => (ECAT_ERROR, [])
      end.

(** ** The index file *)

Definition index_header : text :=
  Eval vm_compute in text_bytes "vendor_id,product_code,revision,name,xml_type,xml_path,imported_at" ++ [10].

Definition entry_line (e : ECAT_DbEntry) : text :=
  text_bytes "0x" ++ hex8 (e_vendor_id e) ++ text_bytes ",0x" ++ hex8 (e_product_code e)
  ++ text_bytes ",0x" ++ hex8 (e_revision e)
  ++ concat (map (fun t => 44 :: sanitize_csv_text t) [e_name e; e_xml_type e; e_xml_path e; e_imported_at e])
  ++ [10].

Definition db_save_locked : D Z :=
  let* result := ensure_db_dirs_locked in
  if negb (result =? ECAT_OK) then ret ECAT_ERROR
  else
    let* d := gets id in
    let contents := index_header ++ concat (map entry_line (db_entries d)) in
    let* opened := on_store (fs_write (db_index_path_locked (db_root d)) contents) in
    ret (if (opened : bool) then ECAT_OK else ECAT_ERROR).

(** [strtok] over a whole line: the pieces between commas that are not empty. *)
Fixpoint tokens (cur t : text) : list text :=
  let done := match cur with [] => [] | _ => [rev cur] end in
  match t with
  | [] => done
  | c :: rest => if c =? 44 then done ++ tokens [] rest else tokens (c :: cur) rest
  end.

Definition load_field (e : ECAT_DbEntry) (field : nat) (token : text) : ECAT_DbEntry :=
  match field with
  | 0%nat => e <| e_vendor_id := parse_ecat_number token |>
  | 1%nat => e <| e_product_code := parse_ecat_number token |>
  | 2%nat => e <| e_revision := parse_ecat_number token |>
  | 3%nat => e <| e_name := fit ECAT_MAX_MESSAGE token |>
  | 4%nat => e <| e_xml_type := fit 32 token |>
  | 5%nat => e <| e_xml_path := fit ECAT_MAX_PATH_TEXT token |>
  | 6%nat => e <| e_imported_at := fit 32 token |>
  | _ => e
  end.
Fixpoint load_fields (e : ECAT_DbEntry) (field : nat) (l : list text) : ECAT_DbEntry :=
  match l with
  | [] => e
  | token :: l => load_fields (load_field e field (trim_in_place token)) (S field) l
  end.

Definition db_load_line_locked (line : text) (entries : list ECAT_DbEntry) : list ECAT_DbEntry :=
  match line with
  | [] => entries
  | c :: _ =>
      if (c =? 35) || starts_with_i (text_bytes "vendor_id") line then entries
      else
        let e := load_fields entry_zero 0 (tokens [] line) in
        if (e_vendor_id e =? 0) || (e_product_code e =? 0) || (ECAT_MAX_DB_ENTRIES <=? length entries)%nat
        then entries
        else entries ++ [e]
  end.

(** The lines [fgets] gives for a buffer of [n] characters, [room] of them left. *)
Fixpoint fgets_lines (n : nat) (cur : text) (room : nat) (t : text) : list text :=
  match t with
  | [] => match cur with [] => [] | _ => [rev cur] end
  | c :: rest =>
      if c =? 10 then rev (c :: cur) :: fgets_lines n [] (n - 1) rest
      else match room with
           | S (S room) => fgets_lines n (c :: cur) (S room) rest
           | _ => rev (c :: cur) :: fgets_lines n [] (n - 1) rest
           end
  end.
Definition load_lines (contents : text) : list ECAT_DbEntry :=
  fold_left (fun entries line => db_load_line_locked (trim_in_place (cut_nul line)) entries)
    (fgets_lines 1024 [] 1023 contents) [].

Definition db_reload_locked : D Z :=
  let* root := gets db_root in
  do* match root with [] => set_default_db_root | _ => ret tt end in
  let* result := ensure_db_dirs_locked in
  if negb (result =? ECAT_OK) then ret ECAT_ERROR
  else
    do* modify (fun d => d <| db_entries := [] |>) in
    let* root := gets db_root in
    let* contents := on_store (fs_read (db_index_path_locked root)) in
    match contents with
    | None => db_save_locked
    | Some contents => do* modify (fun d => d <| db_entries := load_lines contents |>) in ret ECAT_OK
    end.

(** ** The table *)

Definition has_key (vendor_id product_code revision : Z) (e : ECAT_DbEntry) : bool :=
  (e_vendor_id e =? vendor_id) && (e_product_code e =? product_code) && (e_revision e =? revision).

(** The entries with the one of the same key replaced. *)
Fixpoint replace_key (e : ECAT_DbEntry) (l : list ECAT_DbEntry) : option (list ECAT_DbEntry) :=
  match l with
  | [] => None
  | c :: rest =>
      if has_key (e_vendor_id e) (e_product_code e) (e_revision e) c then Some (e :: rest)
      else l' ← replace_key e rest; Some (c :: l')
  end.
Definition db_upsert_locked (e : ECAT_DbEntry) : D Z :=
  if (e_vendor_id e =? 0) || (e_product_code e =? 0) then ret ECAT_INVALID_ARGUMENT
  else
    let* l := gets db_entries in
    match replace_key e l with
    | Some l => do* modify (fun d => d <| db_entries := l |>) in ret ECAT_OK
    | None =>
        if (ECAT_MAX_DB_ENTRIES <=? length l)%nat then ret ECAT_ERROR
        else do* modify (fun d => d <| db_entries := l ++ [e] |>) in ret ECAT_OK
    end.

Fixpoint find_from (vendor_id product_code revision : Z) (fallback : option ECAT_DbEntry)
    (l : list ECAT_DbEntry) : option ECAT_DbEntry :=
  match l with
  | [] => fallback
  | c :: rest =>
      if negb (e_vendor_id c =? vendor_id) || negb (e_product_code c =? product_code)
      then find_from vendor_id product_code revision fallback rest
      else if e_revision c =? revision then Some c
      else find_from vendor_id product_code revision
             (match fallback with
              | Some f => if e_revision c =? 0 then Some c else fallback
              | None => Some c
              end) rest
  end.
Definition db_find_match_locked (vendor_id product_code revision : Z) : D (Z * option ECAT_DbEntry) :=
  let* l := gets db_entries in
  ret (match find_from vendor_id product_code revision None l with
       | Some e => (ECAT_OK, Some e)
       | None => (ECAT_ERROR, None)
       end).
Definition db_find_match_threadsafe := db_find_match_locked.

(** ** Import *)

Definition stored (e : ECAT_DbEntry) (stored_path now : text) : ECAT_DbEntry :=
  e <| e_xml_path := fit ECAT_MAX_PATH_TEXT stored_path |> <| e_imported_at := fit 32 now |>.

(** The devices of a description from one on; [n] bounds the sections looked at. *)
Fixpoint import_sections (n : nat) (xml stored_path tag : text) (section : option text)
    (imported_count : nat) (first_entry : ECAT_DbEntry) : D (Z * ECAT_DbEntry) :=
  match section, n with
  | Some section, S n =>
      if (ECAT_MAX_DB_ENTRIES <=? imported_count)%nat then ret (ECAT_OK, first_entry)
      else
        let '(result, e) := parse_xml_device_from xml (Some section) in
        let next := find_xml_element (tail section) tag in
        if negb (result =? ECAT_OK) then import_sections n xml stored_path tag next imported_count first_entry
        else
          let* now := on_store fs_now in
          let e := stored e stored_path now in
          let* result := db_upsert_locked e in
          if negb (result =? ECAT_OK) then ret (result, first_entry)
          else import_sections n xml stored_path tag next (S imported_count)
                 (if (imported_count =? 0)%nat then e else first_entry)
  | _, _ => ret (if (0 <? imported_count)%nat then ECAT_OK else ECAT_ERROR, first_entry)
  end.

Definition db_upsert_xml_entries_locked (xml stored_path : text) (first_entry : ECAT_DbEntry)
    : D (Z * ECAT_DbEntry) :=
  let slave := text_bytes "Slave" in
  let tag := match find_xml_element xml slave with Some _ => slave | None => text_bytes "Device" end in
  match find_xml_element xml tag with
  | None =>
      let '(result, e) := parse_xml_device xml in
      if negb (result =? ECAT_OK) then ret (result, first_entry)
      else
        let* now := on_store fs_now in
        let e := stored e stored_path now in
        let* result := db_upsert_locked e in
        ret (result, if result =? ECAT_OK then e else first_entry)
  | section => import_sections (length xml) xml stored_path tag section 0 first_entry
  end.

(** ** Calls of the library *)

Definition ECAT_DbSetRoot (root_dir : text) : D Z :=
  match root_dir with
  | [] => ret ECAT_INVALID_ARGUMENT
  | _ => do* modify (fun d => d <| db_root := fit ECAT_MAX_PATH_TEXT root_dir |>) in db_reload_locked
  end.
Definition ECAT_DbGetRoot (buffer_size : Z) : D (Z * text) :=
  if buffer_size <=? 0 then ret (ECAT_INVALID_ARGUMENT, [])
  else gets (fun d => (ECAT_OK, fit (Z.to_nat buffer_size) (db_root d))).
Definition ECAT_DbReload : D Z := db_reload_locked.

Definition ECAT_DbImportXml (xml_path : text) : D (Z * option ECAT_DbEntry) :=
  match xml_path with
  | [] => ret (ECAT_INVALID_ARGUMENT, None)
  | _ =>
      let* file := read_file_text xml_path in
      let '(result, xml) := file in
      if negb (result =? ECAT_OK) then ret (result, None)
      else
        let '(result, first_entry) := parse_xml_device xml in
        if negb (result =? ECAT_OK) then ret (result, None)
        else
          let* result := ensure_db_dirs_locked in
          let* root := gets db_root in
          let stored_path := build_xml_store_path_locked root first_entry xml_path in
          let* result :=
            if negb (result =? ECAT_OK) then ret result
            else if fs_same xml_path stored_path then ret ECAT_OK
            else let* copied := on_store (fs_copy xml_path stored_path) in
                 ret (if (copied : bool) then ECAT_OK else ECAT_ERROR) in
          let* result := if result =? ECAT_OK then db_reload_locked else ret result in
          if negb (result =? ECAT_OK) then ret (result, None)
          else
            let* r := db_upsert_xml_entries_locked xml stored_path first_entry in
            let '(result, first_entry) := r in
            if negb (result =? ECAT_OK) then ret (result, None)
            else
              let* result := db_save_locked in
              ret (result, if result =? ECAT_OK then Some first_entry else None)
  end.

Definition ECAT_DbGetCount : D (Z * Z) := gets (fun d => (ECAT_OK, zlen (db_entries d))).
Definition ECAT_DbGetEntry (index : Z) : D (Z * option ECAT_DbEntry) :=
  if index <? 0 then ret (ECAT_INVALID_ARGUMENT, None)
  else
    let* l := gets db_entries in
    ret match zget l index with
        | Some e => (ECAT_OK, Some e)
        | None => (ECAT_INVALID_ARGUMENT, None)
        end.
Definition ECAT_DbFindDevice (vendor_id product_code revision : Z) : D (Z * option ECAT_DbEntry) :=
  if (vendor_id =? 0) || (product_code =? 0) then ret (ECAT_INVALID_ARGUMENT, None)
  else db_find_match_threadsafe vendor_id product_code revision.
End Database.
