(* ===== verification/Dll.v ===== *)
(** * The library around the master (ethercat_dll/src/ethercat_master.c)

    The calls of the library that open and close a bus, report its state and reach the
    objects of a slave, and the thread that cycles the local bus.  A bus is the master of this
    computer, [d_bus], or the one of a backend server, the client of Client.v.  The locks make
    every call and every cycle of the thread one step. *)

From Stdlib Require Import String Ascii.
From S2P Require Import Prelude Types Num Osal ErrorRing Mailbox Context AlState MbxHandler CoE.
From stdpp Require pretty.
From S2P Require Import ProcessData Config MapGroup Dc Cia402 Profile Backend Wire Client Servo Database.
Import stdpp.list_relations.list stdpp.list_basics.list.

Definition ECAT_TIMEOUT : Z := -5.
Definition ECAT_DLL_VERSION : string := "0.1.0".
Definition ECAT_IOMAP_SIZE : Z := 4096.
Definition ECAT_MAX_ADAPTER_NAME : nat := 128.
Definition ECAT_BACKEND_WINDOWS_DEBUG : Z := 0.
Definition ECAT_BACKEND_LINUX_RT : Z := 1.
Definition ECAT_DEFAULT_LINUX_RT_HOST : string := "127.0.0.1".
Definition ECAT_DEFAULT_LINUX_RT_PORT : Z := ECAT_NET_DEFAULT_PORT.

(** ** The operating system and the network adapter

    Opening an adapter is the work of the driver of the platform. *)
Class DllOs (L : Type) : Type := {
  os_setupnic : list Z -> M L Z;
  os_closenic : M L unit;
  os_counter : M L Z;          (** QueryPerformanceCounter *)
  os_frequency : Z;            (** QueryPerformanceFrequency *)
  os_Sleep : Z -> M L unit;
  os_thread : bool;            (** whether a thread can be created *)
  os_thread_ends : bool;       (** whether it ends within the time ECAT_Close waits *)
}.

(** ** State *)

(** [EthercatCore]: the connection with what the client keeps, the local bus with its
    process data image, and the settings. *)
Record dll (F L W : Type) : Type := MkDll {
  d_socket : W;
  d_client : rt_client F;
  d_bus : ecx_contextt L;
  d_docheckstate : bool;      (** of group 0 of the bus *)
  d_worker : bool;
  d_stop_flag : bool;
  d_adapter_name : string;
  d_request_operational : Z;
  d_period_us : Z;
  d_backend_type : Z;
  d_linux_rt_host : string;
  d_linux_rt_port : Z;
}.
Arguments MkDll {F L W}.
Arguments d_socket {F L W}.
Arguments d_client {F L W}.
Arguments d_bus {F L W}.
Arguments d_docheckstate {F L W}.
Arguments d_worker {F L W}.
Arguments d_stop_flag {F L W}.
Arguments d_adapter_name {F L W}.
Arguments d_request_operational {F L W}.
Arguments d_period_us {F L W}.
Arguments d_backend_type {F L W}.
Arguments d_linux_rt_host {F L W}.
Arguments d_linux_rt_port {F L W}.

(** What [memset] leaves of a context; the process data image is not in it. *)
Definition context_zero {L} (l : L) (image : list Z) : ecx_contextt L :=
  let zeros n := replicate (Z.to_nat n) 0 in
  EcxContext l (replicate (Z.to_nat EC_MAXSLAVE) ec_slave_zero) 0
    (replicate (Z.to_nat EC_MAXGROUP) ec_group_zero) (EState (EcEring 0 0 (replicate 65 ec_error_zero)) false)
    0 (zeros EC_MAXEEPBUF) (zeros EC_MAXEEPBITMAP) 0
    (EcIdxStack 0 0 (zeros EC_MAXBUF) (zeros EC_MAXBUF) (zeros EC_MAXBUF) (zeros EC_MAXBUF))
    (MbxPool.EcMbxPool 0 0 0 (zeros EC_MBXPOOLSIZE) (replicate (Z.to_nat EC_MBXPOOLSIZE) (zeros EC_MAXMBX)))
    None false image 0 false
    (replicate (Z.to_nat EC_MAX_MAPT) (EcMapBuf (zeros SMcommtype_size) (zeros PDOassign_size) (zeros PDOdesc_size)))
    [] None.

Definition with_error (error : bool) (name : string) : string := (name ++ if error then "+ERROR" else "")%string.
Definition ECAT_StateName (state : Z) : string :=
  let error := negb (Z.land state EC_STATE_ERROR =? 0) in
  let state := Z.land state 0x0f in
  if state =? EC_STATE_INIT then with_error error "INIT"
  else if state =? EC_STATE_PRE_OP then with_error error "PRE-OP"
  else if state =? EC_STATE_BOOT then with_error error "BOOT"
  else if state =? EC_STATE_SAFE_OP then with_error error "SAFE-OP"
  else if state =? EC_STATE_OPERATIONAL then with_error error "OP"
  else if error then "ERROR" else "NONE".

Definition ECAT_ErrorToString (error_code : Z) : string :=
  if error_code =? ECAT_OK then "OK"
  else if error_code =? ECAT_ERROR then "General EtherCAT error"
  else if error_code =? ECAT_INVALID_ARGUMENT then "Invalid argument"
  else if error_code =? ECAT_BUSY then "EtherCAT master is busy"
  else if error_code =? ECAT_NOT_OPEN then "EtherCAT master is not open"
  else if error_code =? ECAT_TIMEOUT then "Operation timed out"
  else "Unknown error".

(** What a snapshot of a slave takes from the database of devices. *)
Definition library_match (entries : list ECAT_DbEntry) (vendor_id product_code revision : Z) : option (string * string) :=
  e ← find_from vendor_id product_code revision None entries; Some (c_text (e_name e), c_text (e_xml_path e)).

Section Dll.
Context {F : Type} `{Num F} `{DoubleLayout F} {L : Type} `{EcLink L} `{EcFrame L} `{LoopFuel} `{Interference L} `{DllOs L}.
Context {W : Type} (sk : socket W).
Abbreviation core := (dll F L W).
Abbreviation D := (M core).
Abbreviation client := (rt_client F).

(** The look-up in the database of devices, [library_match] of its entries, and what
    uninitialised variables hold. *)
Variable db_find_match : Z -> Z -> Z -> option (string * string).
Variable reply_junk : list Z.
Variable junk : Z.
Variable soe_vars : list Z * list Z.
Variable init_vars : list Z * list Z.
Variable dc_vars : Z * (list Z * list Z).

Definition on_client {A} (m : M (W * client) A) : D A :=
  zoom (fun d => (d_socket d, d_client d)) (fun s d => d <| d_socket := s.1 |> <| d_client := s.2 |>) m.
Definition on_bus {A} (m : M (ecx_contextt L) A) : D A :=
  zoom d_bus (fun c d => d <| d_bus := c |>) m.
Definition on_os {A} (m : M L A) : D A := on_bus (onlink m).
Definition set_client (f : client -> client) : D unit := modify (fun d => d <| d_client ::= f |>).
Definition on_runtime (f : ECAT_NetRuntimeStatus F -> ECAT_NetRuntimeStatus F) : D unit :=
  set_client (fun c => c <| cl_status ::= f |>).

Definition is_linux_rt_backend : D bool := gets (fun d => d_backend_type d =? ECAT_BACKEND_LINUX_RT).

Definition set_state_text (text : string) (error : option string) : D unit :=
  on_runtime (fun s =>
    (match error with
     | Some e => s <| last_error := safe_copy ECAT_MAX_MESSAGE e |>
     | None => s
     end) <| state_text := safe_copy ECAT_MAX_MESSAGE text |>).

(** The state before the first call. *)
Definition init_once_callback (socket : W) (l : L) : core :=
  MkDll socket
    (RtClient false 0 false false CIA402_PROFILE_TRAPEZOIDAL (n_frac 75 100)
       (runtime_status_zero <| state_text := "Disconnected"%string |>
          <| crc_status := "Ethernet FCS/CRC is not exposed by Npcap/WinPcap."%string |>)
       (replicate (Z.to_nat EC_MAXSLAVE) snapshot_zero))
    (context_zero l (replicate (Z.to_nat ECAT_IOMAP_SIZE) 0)) false false false ""%string 0
    ECAT_DEFAULT_PERIOD_US ECAT_BACKEND_WINDOWS_DEBUG (safe_copy 64 ECAT_DEFAULT_LINUX_RT_HOST)
    ECAT_DEFAULT_LINUX_RT_PORT.

(** The end of the thread. *)
Definition worker_gone : D unit :=
  set_client (fun c => c <| cl_opened := false |> <| cl_worker_running := false |>).

(** ** The cycle of the local bus *)

Definition elapsed_us (start stop : Z) : Z := s32 (Z.quot ((stop - start) * 1000000) os_frequency).

(** The bytes behind a pointer into the process data image. *)
Definition image_copy (image : list Z) (at_ : option Z) (n : Z) : option (list Z) :=
  match at_ with
  | Some off => if 0 <? n then zslice image off n else Some []
  | None => Some []
  end.

Definition snapshot_of_slave (image : list Z) (i : Z) (src : ec_slavet) : option slave_snapshot :=
  let out_len := Z.min (s_Obytes src) ECAT_MAX_PDO_COPY in
  let in_len := Z.min (s_Ibytes src) ECAT_MAX_PDO_COPY in
  outs ← image_copy image (s_outputs src) out_len;
  ins ← image_copy image (s_inputs src) in_len;
  Some (SlaveSnapshot i (safe_copy ECAT_MAX_SLAVE_NAME (c_text (name src))) (state src)
    (ALstatuscode src) (configadr src) (aliasadr src) (eep_man src) (eep_id src) (eep_rev src)
    (eep_ser src) (Obits src) (s_Obytes src) (Ibits src) (s_Ibytes src) (mbx_l src) (mbx_rl src)
    (mbx_proto src) (b2z (s_hasdc src)) (b2z (islost src))
    (db_find_match (eep_man src) (eep_id src) (eep_rev src))
    (zlen outs) (copy_pdo (zlen outs) outs) (zlen ins) (copy_pdo (zlen ins) ins)).

Definition update_slave_snapshot_locked : D unit :=
  let* c := gets d_bus in
  let n := Z.min (slavecount c) (EC_MAXSLAVE - 1) in
  let* snaps := for_range (Z.to_nat n) (fun i snaps =>
      let* src := of_opt OutOfBounds (zget (slavelist c) i) in
      let* s := of_opt OutOfBounds (snapshot_of_slave (iomap c) i src) in
      ret (snaps ++ [s])) 1 [] in
  do* set_client (fun cl => cl <| cl_slaves := snaps ++ replicate (Z.to_nat EC_MAXSLAVE - length snaps) snapshot_zero |>) in
  on_runtime (fun s => s <| ns_slave_count := slavecount c |>).

Definition set_slave_state (slave v : Z) : M (ecx_contextt L) unit := mod_slave slave (fun s => s <| state := v |>).

(** What is done for a slave that is not operational. *)
Definition recover_slave (i : Z) (slave : ec_slavet) : M (ecx_contextt L) unit :=
  if state slave =? EC_STATE_SAFE_OP + EC_STATE_ERROR then
    do* set_slave_state i (EC_STATE_SAFE_OP + EC_STATE_ACK) in
    let* _ := ecx_writestate i in ret tt
  else if state slave =? EC_STATE_SAFE_OP then
    do* set_slave_state i EC_STATE_OPERATIONAL in
    let* _ := ecx_writestate i in ret tt
  else if 0 <? state slave then
    let* _ := ecx_reconfig_slave (fun _ => None) junk i EC_TIMEOUTRET in ret tt
  else if negb (islost slave) then
    let* _ := ecx_statecheck i EC_STATE_OPERATIONAL EC_TIMEOUTRET in
    let* s := get_slave i in
    when (state s =? 0) (mod_slave i (fun s => s <| islost := true |>))
  else let* _ := ecx_recover_slave i EC_TIMEOUTRET in ret tt.

Definition recover_or_report_slaves : D unit :=
  do* modify (fun d => d <| d_docheckstate := false |>) in
  let* _ := on_bus ecx_readstate in
  let* n := gets (fun d => slavecount (d_bus d)) in
  for_range (Z.to_nat n) (fun i _ =>
      let* slave := on_bus (get_slave i) in
      if state slave =? EC_STATE_OPERATIONAL then ret tt
      else
        do* modify (fun d => d <| d_docheckstate := true |>) in
        on_bus (recover_slave i slave)) 1 tt.

Definition exchange_processdata : D Z :=
  on_bus (let* _ := ecx_send_processdata in ecx_receive_processdata EC_TIMEOUTRET).

Definition slave_state (slave : Z) : D Z := let* s := on_bus (get_slave slave) in ret (state s).

(** Up to forty rounds that bring the slaves to OPERATIONAL. *)
Fixpoint worker_go_operational (rounds : nat) : D unit :=
  match rounds with
  | O => ret tt
  | S rounds =>
      let* _ := exchange_processdata in
      let* _ := on_bus (ecx_statecheck 0 EC_STATE_OPERATIONAL (EC_TIMEOUTSTATE / 20)) in
      let* state := slave_state 0 in
      if state =? EC_STATE_OPERATIONAL then ret tt
      else
        do* on_bus (ctx_usleep 50000) in
        worker_go_operational rounds
  end.

(** The thread before its loop: the expected work counter, or [None] when it ends. *)
Definition worker_start : D (option Z) :=
  do* set_client (fun c => c <| cl_worker_running := true |>) in
  do* set_state_text "Initializing" None in
  do* modify (fun d => d <| d_bus ::= (fun c => context_zero (link c) (iomap c)) |> <| d_docheckstate := false |>) in
  let* adapter := gets d_adapter_name in
  let* _ := on_bus (onpool MbxPool.ecx_initmbxpool) in
  let* opened := on_os (os_setupnic (text_bytes adapter)) in
  if opened =? 0 then
    do* set_state_text "Disconnected" (Some "No socket connection. Check Npcap/admin rights."%string) in
    do* worker_gone in ret None
  else
    do* set_state_text "Scanning" None in
    let* slaves := on_bus (ecx_config_init init_vars) in
    if slaves <=? 0 then
      do* on_os os_closenic in
      do* set_state_text "Disconnected" (Some "No EtherCAT slaves found."%string) in
      do* worker_gone in ret None
    else
      let* _ := on_bus (ecx_config_map_group (fun _ => None) junk soe_vars 0 0) in
      let* _ := on_bus (ecx_configdc dc_vars) in
      let* _ := on_bus (ecx_statecheck 0 EC_STATE_SAFE_OP (EC_TIMEOUTSTATE * 4)) in
      let* _ := exchange_processdata in
      let* grp := on_bus (get_group 0) in
      let expected_wkc := outputsWKC grp * 2 + inputsWKC grp in
      do* update_slave_snapshot_locked in
      let* request_operational := gets d_request_operational in
      do* when (negb (request_operational =? 0))
        (do* on_bus (set_slave_state 0 EC_STATE_OPERATIONAL) in
         let* _ := on_bus (ecx_writestate 0) in
         worker_go_operational 40) in
      let* _ := on_bus ecx_readstate in
      do* update_slave_snapshot_locked in
      let* state := slave_state 0 in
      let* period_us := gets d_period_us in
      let operational := b2z (state =? EC_STATE_OPERATIONAL) in
      do* on_runtime (fun s =>
            s <| connected := 1 |> <| Backend.operational := operational |>
              <| ns_expected_wkc := expected_wkc |> <| ns_period_us := period_us |>
              <| state_text := safe_copy ECAT_MAX_MESSAGE
                   (if operational =? 0 then "Safe-Operational" else "Operational") |>) in
      ret (Some expected_wkc).

(** The variables of the loop. *)
Record worker_vars : Type := WorkerVars {
  w_cycle_count : Z;
  w_state_poll : Z;
  w_avg_us : F;
}.
Definition worker_vars_init : worker_vars := WorkerVars 0 0 (n_of_Z 0).

Definition report_cycle (expected_wkc wkc cycle_us dc_time : Z) (v : worker_vars)
    (s : ECAT_NetRuntimeStatus F) : ECAT_NetRuntimeStatus F :=
  let lost := (wkc <? expected_wkc) && (0 <? expected_wkc) in
  NetRuntimeStatus 1 (Backend.operational s) (ns_slave_count s) (ns_expected_wkc s) wkc (w_cycle_count v)
    (if lost then s32 (ns_wkc_errors s + 1) else ns_wkc_errors s)
    (if lost then s32 (ns_state_errors s + 1) else ns_state_errors s)
    cycle_us
    (if (min_cycle_us s =? 0) || (cycle_us <? min_cycle_us s) then cycle_us else min_cycle_us s)
    (if max_cycle_us s <? cycle_us then cycle_us else max_cycle_us s)
    (w_avg_us v) (ns_period_us s) dc_time (state_text s) (last_error s) (crc_status s).

Definition worker_cycle (expected_wkc : Z) (v : worker_vars) : D worker_vars :=
  let* start := on_os os_counter in
  let* wkc := exchange_processdata in
  let* stop := on_os os_counter in
  let cycle_us := elapsed_us start stop in
  let cycle_count := s32 (w_cycle_count v + 1) in
  let avg_us := n_add (w_avg_us v) (n_div (n_sub (n_of_Z cycle_us) (w_avg_us v)) (n_of_Z cycle_count)) in
  let lost := (wkc <? expected_wkc) && (0 <? expected_wkc) in
  let state_poll := if lost then w_state_poll v else w_state_poll v + 1 in
  do* (if lost then recover_or_report_slaves
       else when (50 <=? state_poll) (let* _ := on_bus ecx_readstate in ret tt)) in
  let v := WorkerVars cycle_count (if negb lost && (50 <=? state_poll) then 0 else state_poll) avg_us in
  do* update_slave_snapshot_locked in
  let* dc_time := gets (fun d => DCtime (d_bus d)) in
  do* on_runtime (report_cycle expected_wkc wkc cycle_us (s64 dc_time) v) in
  let* period_us := gets d_period_us in
  let sleep_us := period_us - cycle_us in
  do* (if 0 <? sleep_us then on_bus (ctx_usleep sleep_us) else on_os (os_Sleep 0)) in
  ret v.

(** The end of the thread after its loop. *)
Definition worker_stop : D unit :=
  let* n := gets (fun d => slavecount (d_bus d)) in
  do* when (0 <? n)
    (on_bus (do* set_slave_state 0 EC_STATE_INIT in let* _ := ecx_writestate 0 in ret tt)) in
  do* on_os os_closenic in
  do* on_runtime (fun s => s <| connected := 0 |> <| Backend.operational := 0 |>
        <| state_text := safe_copy ECAT_MAX_MESSAGE "Disconnected" |>) in
  worker_gone.

(** The loop, [between]: what the callers of the library do between its rounds. *)
Fixpoint worker_loop (expected_wkc : Z) (between : list (D unit)) (v : worker_vars) : D worker_vars :=
  match between with
  | [] => ret v
  | calls :: between =>
      let* stop := gets d_stop_flag in
      if (stop : bool) then ret v
      else
        let* v := worker_cycle expected_wkc v in
        do* calls in
        worker_loop expected_wkc between v
  end.
Definition worker_proc (between : list (D unit)) : D unit :=
  let* expected := worker_start in
  match expected with
  | None => ret tt
  | Some expected_wkc =>
      let* _ := worker_loop expected_wkc between worker_vars_init in
      worker_stop
  end.

(** ** Settings *)

Definition ECAT_GetVersion (buffer_size : Z) : D (Z * string) :=
  if buffer_size <=? 0 then ret (ECAT_INVALID_ARGUMENT, ""%string)
  else ret (ECAT_OK, safe_copy (Z.to_nat buffer_size) ECAT_DLL_VERSION).

Definition ECAT_GetLastError (buffer_size : Z) : D (Z * string) :=
  if buffer_size <=? 0 then ret (ECAT_INVALID_ARGUMENT, ""%string)
  else
    let* e := gets (fun d => last_error (cl_status (d_client d))) in
    ret (ECAT_OK, safe_copy (Z.to_nat buffer_size) (if String.eqb e "" then "No error" else e)).

Definition ECAT_IsOpen : D bool := gets (fun d => cl_opened (d_client d)).

Definition ECAT_SetBackend (backend_type : Z) : D Z :=
  if negb (backend_type =? ECAT_BACKEND_WINDOWS_DEBUG) && negb (backend_type =? ECAT_BACKEND_LINUX_RT)
  then ret ECAT_INVALID_ARGUMENT
  else
    let* open := ECAT_IsOpen in
    if (open : bool) then ret ECAT_BUSY
    else do* modify (fun d => d <| d_backend_type := backend_type |>) in ret ECAT_OK.
Definition ECAT_GetBackend : D (Z * Z) := gets (fun d => (ECAT_OK, d_backend_type d)).

Definition ECAT_SetLinuxRtEndpoint (host : string) (port : Z) : D Z :=
  if String.eqb host "" || (port <=? 0) || (65535 <? port) then ret ECAT_INVALID_ARGUMENT
  else
    let* open := ECAT_IsOpen in
    if (open : bool) then ret ECAT_BUSY
    else
      do* modify (fun d => d <| d_linux_rt_host := safe_copy 64 host |> <| d_linux_rt_port := port |>) in
      ret ECAT_OK.
Definition ECAT_GetLinuxRtEndpoint (host_size : Z) : D (Z * option (string * Z)) :=
  if host_size <=? 0 then ret (ECAT_INVALID_ARGUMENT, None)
  else gets (fun d => (ECAT_OK, Some (safe_copy (Z.to_nat host_size) (d_linux_rt_host d), d_linux_rt_port d))).

Definition ECAT_GetMotionProfile : D (Z * (Z * F)) :=
  gets (fun d => (ECAT_OK, (cl_profile_type (d_client d), cl_jerk_ratio (d_client d)))).

(** The adapters [found] by the driver of the platform: those that fit in the array of the
    caller, and how many there are. *)
Definition ECAT_ListAdapters (found : list (string * string)) (max_count : Z) : D (Z * (list (string * string) * Z)) :=
  if max_count <? 0 then ret (ECAT_INVALID_ARGUMENT, ([], 0))
  else
    let* linux := is_linux_rt_backend in
    let* d := gets id in
    let fit (a : string * string) := (safe_copy ECAT_MAX_ADAPTER_NAME a.1, safe_copy ECAT_MAX_ADAPTER_NAME a.2) in
    if (linux : bool) then
      let server := fit ("Linux RT Controller"%string, (d_linux_rt_host d ++ ":" ++ pretty.pretty (d_linux_rt_port d))%string) in
      ret (ECAT_OK, (take (Z.to_nat max_count) [server], 1))
    else ret (ECAT_OK, (map fit (take (Z.to_nat max_count) found), zlen found)).

(** ** Opening and closing *)

(** [connects]: whether the connection to the server can be made; [options]: the wish to be
    operational and the period. *)
Definition ECAT_Open (connects : bool) (adapter_name : string) (options : option (Z * Z)) : D Z :=
  let request_operational := match options with Some (r, _) => r | None => 0 end in
  let period_us := match options with Some (_, p) => p | None => 0 end in
  let* linux := is_linux_rt_backend in
  let* running := gets (fun d => cl_worker_running (d_client d)) in
  if (linux : bool) then
    if (running : bool) then ret ECAT_BUSY
    else on_client (rt_open_backend sk db_find_match connects period_us request_operational)
  else if String.eqb adapter_name "" then ret ECAT_INVALID_ARGUMENT
  else if (running : bool) then ret ECAT_BUSY
  else
    let period_us := if 0 <? period_us then period_us else ECAT_DEFAULT_PERIOD_US in
    do* set_client (fun c =>
          c <| cl_status := runtime_status_zero
                 <| state_text := safe_copy ECAT_MAX_MESSAGE "Starting" |>
                 <| crc_status := safe_copy ECAT_MAX_MESSAGE "Ethernet FCS/CRC is not exposed by Npcap/WinPcap." |>
                 <| ns_period_us := period_us |> |>
            <| cl_slaves := replicate (Z.to_nat EC_MAXSLAVE) snapshot_zero |> <| cl_opened := true |>) in
    do* modify (fun d =>
          d <| d_adapter_name := safe_copy ECAT_MAX_ADAPTER_NAME adapter_name |>
            <| d_request_operational := request_operational |> <| d_period_us := period_us |>
            <| d_stop_flag := false |> <| d_worker := os_thread |>) in
    if os_thread then ret ECAT_OK
    else
      do* set_client (fun c => c <| cl_opened := false |>) in
      do* set_state_text "Disconnected" (Some "CreateThread failed."%string) in
      ret ECAT_ERROR.

Definition ECAT_Close : D Z :=
  let* linux := is_linux_rt_backend in
  if (linux : bool) then on_client (rt_close_backend sk db_find_match)
  else
    do* modify (fun d => d <| d_stop_flag := true |>) in
    let* worker := gets d_worker in
    if (worker : bool) then
      do* modify (fun d => d <| d_worker := false |>) in
      if os_thread_ends then ret ECAT_OK
      else do* worker_gone in ret ECAT_TIMEOUT
    else ret ECAT_OK.

(** ** Status *)

Definition ECAT_ResetStatistics : D Z :=
  let* linux := is_linux_rt_backend in
  if (linux : bool) then
    on_client (rt_send_command_locked sk db_find_match
                 (command_zero <| nc_command := ECAT_NET_CMD_RESET_STATISTICS |>))
  else
    do* on_runtime (fun s =>
          s <| total_cycles := 0 |> <| ns_wkc_errors := 0 |> <| ns_state_errors := 0 |> <| cycle_us := 0 |>
            <| min_cycle_us := 0 |> <| max_cycle_us := 0 |> <| avg_cycle_us := n_of_Z 0 |>) in
    ret ECAT_OK.

Definition ECAT_GetRuntimeStatus : D (Z * ECAT_NetRuntimeStatus F) :=
  let* linux := is_linux_rt_backend in
  let* open := ECAT_IsOpen in
  do* when (linux && open)
    (let* _ := on_client (rt_poll_status sk db_find_match) in ret tt) in
  gets (fun d => (ECAT_OK, cl_status (d_client d))).

(** A slave of the last status. *)
Definition snapshot (slave_index : Z) : D (option slave_snapshot) :=
  if (slave_index <=? 0) || (EC_MAXSLAVE <=? slave_index) then ret None
  else
    let* c := gets d_client in
    if ns_slave_count (cl_status c) <? slave_index then ret None
    else let* s := of_opt OutOfBounds (zget (cl_slaves c) (slave_index - 1)) in ret (Some s).

Definition ECAT_GetSlaveInfo (slave_index : Z) : D (Z * option slave_snapshot) :=
  let* s := snapshot slave_index in
  ret (match s with Some _ => (ECAT_OK, s) | None => (ECAT_INVALID_ARGUMENT, None) end).

(** The copy of one direction for a buffer of [capacity] bytes: the size and the bytes. *)
Definition pdo_copy (size capacity : Z) (data : list Z) : option (Z * list Z) :=
  if 0 <? capacity then
    let copy := if size <? capacity then size else capacity in
    if copy <? 0 then None else bytes ← zslice data 0 copy; Some (copy, bytes)
  else Some (size, []).

Definition ECAT_GetPdoSnapshot (slave_index output_capacity input_capacity : Z)
    : D (Z * option ((Z * list Z) * (Z * list Z))) :=
  let* s := snapshot slave_index in
  match s with
  | None => ret (ECAT_INVALID_ARGUMENT, None)
  | Some s =>
      let* outputs := of_opt OutOfBounds (pdo_copy (sn_output_size s) output_capacity (sn_outputs s)) in
      let* inputs := of_opt OutOfBounds (pdo_copy (sn_input_size s) input_capacity (sn_inputs s)) in
      ret (ECAT_OK, Some (outputs, inputs))
  end.

(** ** Objects *)

(** The buffer of the caller is cleared first. *)
Definition ECAT_ReadSdo (slave_index index subindex data_capacity : Z) : D (Z * option (Z * list Z)) :=
  let* linux := is_linux_rt_backend in
  if (linux : bool) then on_client (rt_read_sdo sk reply_junk slave_index index subindex data_capacity)
  else if (data_capacity <=? 0) || (slave_index <=? 0) then ret (ECAT_INVALID_ARGUMENT, None)
  else
    let* running := gets (fun d => cl_worker_running (d_client d)) in
    if negb running then ret (ECAT_NOT_OPEN, None)
    else
      let* n := gets (fun d => slavecount (d_bus d)) in
      if n <? slave_index then ret (ECAT_INVALID_ARGUMENT, None)
      else
        let data := replicate (Z.to_nat data_capacity) 0 in
        let* r := on_bus (ecx_SDOread junk (u16 slave_index) index subindex false data_capacity data EC_TIMEOUTRXM) in
        let '(wkc, (size, data)) := r in
        ret (if 0 <? wkc then ECAT_OK else ECAT_ERROR, Some (if 0 <? wkc then size else 0, data)).

Definition ECAT_WriteSdo (slave_index index subindex : Z) (data : list Z) : D Z :=
  let* linux := is_linux_rt_backend in
  if (linux : bool) then on_client (rt_write_sdo sk reply_junk slave_index index subindex data)
  else if (zlen data <=? 0) || (slave_index <=? 0) then ret ECAT_INVALID_ARGUMENT
  else
    let* running := gets (fun d => cl_worker_running (d_client d)) in
    if negb running then ret ECAT_NOT_OPEN
    else
      let* n := gets (fun d => slavecount (d_bus d)) in
      if n <? slave_index then ret ECAT_INVALID_ARGUMENT
      else
        let* wkc := on_bus (ecx_SDOwrite junk (u16 slave_index) index subindex false (zlen data) data EC_TIMEOUTRXM) in
        ret (if 0 <? wkc then ECAT_OK else ECAT_ERROR).

(** What the servo commands use of the library. *)
#[export] Instance dll_port : ServoPort core := {
  port_is_linux_rt := is_linux_rt_backend;
  port_ReadSdo := ECAT_ReadSdo;
  port_WriteSdo := ECAT_WriteSdo;
  port_motion_command type slave_index target_position target_velocity velocity acceleration deceleration
      mode homing_method search_speed latch_speed :=
    on_client (rt_send_motion_command sk db_find_match type slave_index
      target_position target_velocity velocity acceleration deceleration mode homing_method search_speed
      latch_speed);
  port_Sleep ms := on_os (os_Sleep ms);
}.
End Dll.
