(* ===== verification/Lms.v ===== *)
(** * The commissioning tool for linear motors (apps/lms_master/lms_master.c)

    The tool reads a map of stators, checks it, moves a virtual mover along it with a simple
    planner, and writes control word and target of the stator under the mover into the process
    data of its slave.  What it prints is not modelled. *)

From Stdlib Require Import String.
From S2P Require Import Prelude Types Num Osal Mailbox Context AlState MbxHandler CoE ProcessData Config MapGroup Dc.
From S2P Require Import Profile Backend Wire Servo Database Dll.
Import stdpp.list_relations.list stdpp.list_basics.list.

Definition LMS_IO_MAP_SIZE : Z := 4096.
Definition LMS_MAX_STATORS : nat := 128.
Definition LMS_MAX_LINE : nat := 512.
Definition LMS_DEFAULT_PERIOD_US : Z := 1000.
Definition LMS_DEFAULT_CYCLES : Z := 1000.

(** ** Texts and numbers *)

Definition trim (t : text) : text := trim_in_place t.

(** [strtol] with base 10: the number and what is behind it. *)
Definition strtol10 (t : text) : option (Z * text) :=
  let '(neg, t) := match skip_spaces t with
                   | 43 :: t => (false, t)
                   | 45 :: t => (true, t)
                   | t => (false, t)
                   end in
  let '(v, n, rest) := digits 10 0 0 t in
  if (n =? 0)%nat then None else Some (if (neg : bool) then - v else v, rest).

(** What overflows a [long] is not in the range of an [int] either. *)
Definition lms_parse_int (t : text) : option Z :=
  match strtol10 t with
  | Some (v, rest) =>
      match trim rest with
      | [] => if (v <? INT32_MIN) || (INT32_MAX <? v) then None else Some v
      | _ => None
      end
  | None => None
  end.

Definition parse_optional_int (field : text) (default_value : Z) : option Z :=
  match trim field with
  | [] => Some default_value
  | field => lms_parse_int field
  end.

(** The pieces between commas, at most [max_fields] of them. *)
Fixpoint parse_csv_line (max_fields : nat) (cursor : text) : list text :=
  match max_fields with
  | O => []
  | S n =>
      match find_char 44 cursor with
      | Some ((_ :: rest) as comma) => trim (take (length cursor - length comma) cursor) :: parse_csv_line n rest
      | _ => [trim cursor]
      end
  end.

Definition read_u16_le (src : list Z) : Z := of_le src.
Definition read_i32_le (src : list Z) : Z := s32 (of_le src).

(** ** Process data of a slave *)

(** The sum of the [int]s wraps around as the code's conversion to [uint32] sees it. *)
Definition output_range_ok (slave : ec_slavet) (offset size : Z) : bool :=
  match s_outputs slave with
  | None => false
  | Some _ => negb (offset <? 0) && negb (size <=? 0) && (u32 (offset + size) <=? s_Obytes slave)
  end.
Definition input_range_ok (slave : ec_slavet) (offset size : Z) : bool :=
  match s_inputs slave with
  | None => false
  | Some _ => negb (offset <? 0) && negb (size <=? 0) && (u32 (offset + size) <=? s_Ibytes slave)
  end.

Definition cia402_state_name (statusword : Z) : string := Servo.ECAT_Cia402StateName statusword.

Definition cia402_next_controlword (statusword : Z) : Z :=
  if Z.land statusword 0x4f =? 0x08 then 0x80
  else if Z.land statusword 0x4f =? 0x40 then 0x06
  else if Z.land statusword 0x6f =? 0x21 then 0x07
  else if Z.land statusword 0x6f =? 0x23 then 0x0f
  else if Z.land statusword 0x6f =? 0x27 then 0x0f
  else 0x06.

(** ** Data *)

Inductive RunMode : Type := MODE_NONE | MODE_LIST_ADAPTERS | MODE_SCAN | MODE_RUN | MODE_VALIDATE_CONFIG.

Record LmsStator (F : Type) : Type := Stator {
  st_slave : Z;
  st_name : text;
  st_start_mm : F;
  st_end_mm : F;
  st_coil_pitch_mm : F;
  st_counts_per_mm : F;
  st_controlword_offset : Z;
  st_statusword_offset : Z;
  st_mode_offset : Z;
  st_mode_display_offset : Z;
  st_target_position_offset : Z;
  st_actual_position_offset : Z;
}.
Arguments Stator {F}.
Arguments st_slave {F}.
Arguments st_name {F}.
Arguments st_start_mm {F}.
Arguments st_end_mm {F}.
Arguments st_coil_pitch_mm {F}.
Arguments st_counts_per_mm {F}.
Arguments st_controlword_offset {F}.
Arguments st_statusword_offset {F}.
Arguments st_mode_offset {F}.
Arguments st_mode_display_offset {F}.
Arguments st_target_position_offset {F}.
Arguments st_actual_position_offset {F}.

Record MotionState (F : Type) : Type := Motion {
  position_mm : F;
  velocity_mm_s : F;
  target_mm : F;
  max_velocity_mm_s : F;
  acceleration_mm_s2 : F;
}.
Arguments Motion {F}.
Arguments position_mm {F}.
Arguments velocity_mm_s {F}.
Arguments target_mm {F}.
Arguments max_velocity_mm_s {F}.
Arguments acceleration_mm_s2 {F}.

Record LmsOptions (F : Type) : Type := LmsOpts {
  lo_mode : RunMode;
  lo_iface : option text;
  lo_config_path : option text;
  lo_period_us : Z;
  lo_cycles : Z;
  lo_request_operational : bool;
  lo_enable_drive_outputs : bool;
  lo_start_mm : option F;
  lo_target_mm : option F;
  lo_velocity_mm_s : F;
  lo_acceleration_mm_s2 : F;
}.
Arguments LmsOpts {F}.
Arguments lo_mode {F}.
Arguments lo_iface {F}.
Arguments lo_config_path {F}.
Arguments lo_period_us {F}.
Arguments lo_cycles {F}.
Arguments lo_request_operational {F}.
Arguments lo_enable_drive_outputs {F}.
Arguments lo_start_mm {F}.
Arguments lo_target_mm {F}.
Arguments lo_velocity_mm_s {F}.
Arguments lo_acceleration_mm_s2 {F}.

(** The context with its image, and the check flag of the group, which is 0. *)
Record Fieldbus (L : Type) : Type := MkFieldbus {
  fb_context : ecx_contextt L;
  fb_docheckstate : bool;
  fb_roundtrip_time_us : Z;
}.
Arguments MkFieldbus {L}.
Arguments fb_context {L}.
Arguments fb_docheckstate {L}.
Arguments fb_roundtrip_time_us {L}.

Section Lms.
Context {F : Type} `{Num F}.
Abbreviation LmsConfig := (list (LmsStator F)).
Abbreviation motion := (MotionState F).
#[local] Open Scope num_scope.

(** ** Numbers *)

(** [mantissa] times [base] to the [exponent]. *)
Definition n_scaled (base mantissa exponent : Z) : F :=
  if (0 <=? exponent)%Z then n_of_Z (mantissa * base ^ exponent)%Z else n_frac mantissa (base ^ (- exponent))%Z.

(** [word], whose letters are small, without regard to case at the start: what is behind it. *)
Fixpoint drop_word (word t : text) : option text :=
  match word, t with
  | [], _ => Some t
  | a :: word, c :: t => if (to_lower c =? a)%Z then drop_word word t else None
  | _ :: _, [] => None
  end.

(** The characters in brackets behind a NaN. *)
Definition is_word (c : Z) : bool :=
  (((48 <=? c) && (c <=? 57)) || ((97 <=? to_lower c) && (to_lower c <=? 122)) || (c =? 95))%Z.
Fixpoint nan_end (t : text) : option text :=
  match t with
  | c :: t => if (c =? 41)%Z then Some t else if is_word c then nan_end t else None
  | [] => None
  end.
Definition nan_chars (t : text) : text :=
  match t with c :: t' => if (c =? 40)%Z then default t (nan_end t') else t | [] => t end.

(** An exponent behind the letter [mark]: its value and what is behind it; without digits there
    is none. *)
Definition exponent_part (mark : Z) (t : text) : Z * text :=
  match t with
  | c :: t3 =>
      if (to_lower c =? mark)%Z then
        let '(eneg, t4) := match t3 with
                           | 43 :: t4 => (false, t4)
                           | 45 :: t4 => (true, t4)
                           | _ => (false, t3)
                           end%Z in
        let '(e, k, t5) := digits 10 0 0 t4 in
        if (k =? 0)%nat then (0%Z, t) else (if (eneg : bool) then (- e)%Z else e, t5)
      else (0%Z, t)
  | [] => (0%Z, t)
  end.

(** Digits of [base] with a point, and an exponent of [radix] marked by [mark]; a digit behind
    the point stands for [scale] powers of it. *)
Definition positional (base radix scale mark : Z) (t : text) : option (F * text) :=
  let '(v, n, t1) := digits base 0 0 t in
  let '(v, m, t2) := match t1 with
                     | 46 :: t2 => digits base v 0 t2
                     | _ => (v, O, t1)
                     end%Z in
  if (n + m =? 0)%nat then None
  else
    let '(e, rest) := exponent_part mark t2 in
    Some (n_scaled radix v (e - scale * Z.of_nat m)%Z, rest).

Definition hexadecimal (t : text) : option (F * text) :=
  match t with
  | 48 :: x :: t => if (to_lower x =? 120)%Z then positional 16 2 4 112 t else None
  | _ => None
  end%Z.

(** A number that a double cannot hold. *)
Definition overflown (x : F) : bool := negb (n_sub x x =? n_of_Z 0).

(** [strtod]: the number, whether [errno] is set, and what is behind the number.  Infinity and
    NaN go by their names, and a number that overflows sets [errno]; one that underflows does
    not here, which the standard leaves open. *)
Definition strtod (t : text) : option (F * bool * text) :=
  let '(neg, t) := match skip_spaces t with
                   | 43 :: t => (false, t)
                   | 45 :: t => (true, t)
                   | t => (false, t)
                   end%Z in
  let signed (x : F) : F := if (neg : bool) then - x else x in
  let named (value : option F) (rest : text) := x ← value; Some (signed x, false, rest) in
  match drop_word (text_bytes "infinity") t, drop_word (text_bytes "inf") t, drop_word (text_bytes "nan") t with
  | Some rest, _, _ | None, Some rest, _ => named n_inf rest
  | _, _, Some rest => named n_nan (nan_chars rest)
  | None, None, None =>
      '(x, rest) ← match hexadecimal t with Some r => Some r | None => positional 10 10 1 101 t end;
      Some (signed x, overflown x, rest)
  end.

Definition parse_double (t : text) : option F :=
  match strtod t with
  | Some (x, range_error, rest) =>
      match trim rest with
      | [] => if (range_error : bool) then None else Some x
      | _ => None
      end
  | None => None
  end.

(** ** The map of stators *)

(** What a line gives: nothing, a stator, or an error. *)
Inductive stator_line : Type := LineSkipped | LineStator (s : LmsStator F) | LineError.

Definition or_error {A} (o : option A) (k : A -> stator_line) : stator_line :=
  match o with Some a => k a | None => LineError end.
(** A field that may be missing or empty. *)
Definition offset_field (fields : list text) (i : nat) (k : Z -> stator_line) : stator_line :=
  match fields !! i with
  | Some field => or_error (parse_optional_int field (-1)) k
  | None => k (-1)%Z
  end.

Definition load_line (line_no : nat) (line : text) : stator_line :=
  let t := trim line in
  match t with
  | [] => LineSkipped
  | c :: _ =>
      if (c =? 35)%Z then LineSkipped
      else
        let fields := parse_csv_line 12 t in
        match fields with
        | slave :: name :: start_mm :: end_mm :: coil_pitch :: counts :: _ =>
            match lms_parse_int slave with
            | None =>
                if (line_no =? 1)%nat || starts_with (text_bytes "slave") (trim slave)
                then LineSkipped else LineError
            | Some slave =>
                or_error (parse_double start_mm) (fun start_mm =>
                or_error (parse_double end_mm) (fun end_mm =>
                or_error (parse_double coil_pitch) (fun coil_pitch =>
                or_error (parse_double counts) (fun counts =>
                offset_field fields 6 (fun controlword =>
                offset_field fields 7 (fun statusword =>
                offset_field fields 8 (fun mode =>
                offset_field fields 9 (fun mode_display =>
                offset_field fields 10 (fun target_position =>
                offset_field fields 11 (fun actual_position =>
                LineStator (Stator slave (fit 64 (trim name)) start_mm end_mm coil_pitch counts controlword
                  statusword mode mode_display target_position actual_position)))))))))))
            end
        | _ => LineError
        end
  end.

Fixpoint load_config_lines (line_no : nat) (lines : list text) (config : LmsConfig) : option LmsConfig :=
  match lines with
  | [] => Some config
  | line :: lines =>
      match load_line line_no (cut_nul line) with
      | LineError => None
      | LineSkipped => load_config_lines (S line_no) lines config
      | LineStator s =>
          if (LMS_MAX_STATORS <=? length config)%nat then None
          else load_config_lines (S line_no) lines (config ++ [s])
      end
  end.
(** [contents]: the file, when it can be opened. *)
Definition load_lms_config (contents : option text) : option LmsConfig :=
  contents ← contents;
  load_config_lines 1 (fgets_lines LMS_MAX_LINE [] (LMS_MAX_LINE - 1) contents) [].

Definition stator_valid (s : LmsStator F) : bool :=
  negb (st_slave s <=? 0)%Z && negb (st_end_mm s <=? st_start_mm s)
  && negb (st_coil_pitch_mm s <=? n_of_Z 0) && negb (st_counts_per_mm s <=? n_of_Z 0).
Definition ranges_overlap (s other : LmsStator F) : bool :=
  (st_start_mm s <? st_end_mm other) && (st_start_mm other <? st_end_mm s).
Fixpoint validate_stators (l : LmsConfig) : bool :=
  match l with
  | [] => true
  | s :: rest => stator_valid s && forallb (fun other => negb (ranges_overlap s other)) rest && validate_stators rest
  end.
Definition validate_lms_config (config : LmsConfig) : bool :=
  match config with [] => false | _ => validate_stators config end.

Definition find_stator_for_position (config : LmsConfig) (position : F) : option (LmsStator F) :=
  find (fun s => (st_start_mm s <=? position) && (position <? st_end_mm s)) config.

(** ** The planner *)

Definition lms_motion_init (start_mm target_mm max_velocity acceleration : F) : motion :=
  Motion start_mm (n_of_Z 0) target_mm max_velocity acceleration.

Definition abs_double (value : F) : F := if value <? n_of_Z 0 then - value else value.

(** One cycle of [dt_s] seconds; whether the target is reached. *)
Definition motion_step (m : motion) (dt_s : F) : bool * motion :=
  let error := target_mm m - position_mm m in
  let eps := n_frac 1 1000000 in
  let at_target := m <| position_mm := target_mm m |> <| velocity_mm_s := n_of_Z 0 |> in
  if (abs_double error <? eps) && (abs_double (velocity_mm_s m) <? eps) then (true, at_target)
  else
    let forward := n_of_Z 0 <=? error in
    let direction := n_of_Z (if forward then 1 else -1) in
    let stop_distance := (velocity_mm_s m * velocity_mm_s m) / (n_of_Z 2 * acceleration_mm_s2 m) in
    let change := direction * acceleration_mm_s2 m * dt_s in
    let v := if abs_double error <=? stop_distance then velocity_mm_s m - change else velocity_mm_s m + change in
    let v := if max_velocity_mm_s m <? v then max_velocity_mm_s m
             else if v <? - max_velocity_mm_s m then - max_velocity_mm_s m else v in
    let next_position := position_mm m + v * dt_s in
    if ((n_of_Z 0 <? direction) && (target_mm m <? next_position))
       || ((direction <? n_of_Z 0) && (next_position <? target_mm m))
    then (true, at_target)
    else (false, m <| velocity_mm_s := v |> <| position_mm := next_position |>).

(** The conversion to [int32]. *)
Definition to_i32 (x : F) : option Z := n_trunc x.
End Lms.

(** ** The bus *)

Section Bus.
Context {F : Type} `{Num F} {L : Type} `{EcLink L} `{EcFrame L} `{LoopFuel} `{Interference L} `{DllOs L}.
Abbreviation B := (M (Fieldbus L)).
Abbreviation LmsConfig := (list (LmsStator F)).

(** What uninitialised variables hold. *)
Variable junk : Z.
Variable soe_vars : list Z * list Z.
Variable init_vars : list Z * list Z.
Variable dc_vars : Z * (list Z * list Z).

Definition on_context {A} (m : M (ecx_contextt L) A) : B A :=
  zoom fb_context (fun c b => b <| fb_context := c |>) m.

Definition fieldbus_initialize (l : L) : Fieldbus L :=
  MkFieldbus (context_zero l (replicate (Z.to_nat LMS_IO_MAP_SIZE) 0)) false 0.

Definition fieldbus_roundtrip : B Z :=
  let* start := on_context (onlink lk_current_time) in
  let* _ := on_context ecx_send_processdata in
  let* wkc := on_context (ecx_receive_processdata EC_TIMEOUTRET) in
  let* stop := on_context (onlink lk_current_time) in
  let diff := osal_time_diff start stop in
  do* modify (fun b => b <| fb_roundtrip_time_us := s32 (tv_sec diff * 1000000 + Z.quot (tv_nsec diff) 1000) |>) in
  ret wkc.

Definition bus_state (slave : Z) : B Z := let* s := on_context (get_slave slave) in ret (state s).
Definition set_bus_state (slave v : Z) : B unit := on_context (mod_slave slave (fun s => s <| state := v |>)).

(** Up to forty rounds that bring the slaves to OPERATIONAL. *)
Fixpoint fieldbus_go_operational (rounds : nat) : B bool :=
  match rounds with
  | O => let* _ := on_context ecx_readstate in ret false
  | S rounds =>
      let* _ := fieldbus_roundtrip in
      let* _ := on_context (ecx_statecheck 0 EC_STATE_OPERATIONAL (EC_TIMEOUTSTATE / 20)) in
      let* state := bus_state 0 in
      if state =? EC_STATE_OPERATIONAL then ret true else fieldbus_go_operational rounds
  end.

Definition fieldbus_start (iface : text) (request_operational : bool) : B bool :=
  let* _ := on_context (onpool MbxPool.ecx_initmbxpool) in
  let* opened := on_context (onlink (os_setupnic iface)) in
  if opened =? 0 then ret false
  else
    let* slaves := on_context (ecx_config_init init_vars) in
    if slaves <=? 0 then ret false
    else
      let* _ := on_context (ecx_config_map_group (fun _ => None) junk soe_vars 0 0) in
      let* _ := on_context (ecx_configdc dc_vars) in
      let* _ := on_context (ecx_statecheck 0 EC_STATE_SAFE_OP (EC_TIMEOUTSTATE * 4)) in
      let* _ := fieldbus_roundtrip in
      if negb request_operational then ret true
      else
        do* set_bus_state 0 EC_STATE_OPERATIONAL in
        let* _ := on_context (ecx_writestate 0) in
        fieldbus_go_operational 40.

Definition fieldbus_stop : B unit :=
  let* n := gets (fun b => slavecount (fb_context b)) in
  do* when (0 <? n) (do* set_bus_state 0 EC_STATE_INIT in let* _ := on_context (ecx_writestate 0) in ret tt) in
  on_context (onlink os_closenic).

Definition set_islost (slave : Z) (v : bool) : B unit := on_context (mod_slave slave (fun s => s <| islost := v |>)).

(** What is done for slave [i] of the group. *)
Definition check_slave (i : Z) (slave : ec_slavet) : B unit :=
  if negb (state slave =? EC_STATE_OPERATIONAL) then
    do* modify (fun b => b <| fb_docheckstate := true |>) in
    if state slave =? EC_STATE_SAFE_OP + EC_STATE_ERROR then
      do* set_bus_state i (EC_STATE_SAFE_OP + EC_STATE_ACK) in
      let* _ := on_context (ecx_writestate i) in ret tt
    else if state slave =? EC_STATE_SAFE_OP then
      do* set_bus_state i EC_STATE_OPERATIONAL in
      let* _ := on_context (ecx_writestate i) in ret tt
    else if 0 <? state slave then
      let* r := on_context (ecx_reconfig_slave (fun _ => None) junk i EC_TIMEOUTRET) in
      when (negb (r =? 0)) (set_islost i false)
    else if negb (islost slave) then
      let* _ := on_context (ecx_statecheck i EC_STATE_OPERATIONAL EC_TIMEOUTRET) in
      let* state := bus_state i in
      when (state =? 0) (set_islost i true)
    else ret tt
  else if islost slave then
    if negb (state slave =? 0) then set_islost i false
    else
      let* r := on_context (ecx_recover_slave i EC_TIMEOUTRET) in
      when (negb (r =? 0)) (set_islost i false)
  else ret tt.

Definition fieldbus_check_state : B unit :=
  do* modify (fun b => b <| fb_docheckstate := false |>) in
  let* _ := on_context ecx_readstate in
  let* n := gets (fun b => slavecount (fb_context b)) in
  for_range (Z.to_nat n) (fun i _ =>
      let* slave := on_context (get_slave i) in
      if negb (group slave =? 0) then ret tt else check_slave i slave) 1 tt.

(** The bytes of a slave in the process data image. *)
Definition write_outputs (slave : ec_slavet) (offset : Z) (bytes : list Z) : B unit :=
  let* base := of_opt NullPointer (s_outputs slave) in
  on_context (iomap_write (base + offset) bytes).
Definition read_inputs (slave : ec_slavet) (offset size : Z) : B (list Z) :=
  let* base := of_opt NullPointer (s_inputs slave) in
  on_context (iomap_read (base + offset) size).

(** The target of the stator under the mover, and the control word that leads its drive to
    operation.  The actual position is only read to be printed. *)
Definition lms_apply_motion_outputs (config : LmsConfig) (position : F) (enable_drive_outputs : bool) : B bool :=
  match find_stator_for_position config position with
  | None => ret false
  | Some active =>
      let* n := gets (fun b => slavecount (fb_context b)) in
      if (st_slave active <=? 0) || (n <? st_slave active) then ret false
      else
        let* slave := on_context (get_slave (st_slave active)) in
        let local_mm := n_sub position (st_start_mm active) in
        let* target_counts := of_opt BadConversion (to_i32 (n_mul local_mm (st_counts_per_mm active))) in
        if negb enable_drive_outputs then ret true
        else if negb (output_range_ok slave (st_controlword_offset active) 2)
             || negb (output_range_ok slave (st_target_position_offset active) 4) then ret false
        else
          let* controlword :=
            if input_range_ok slave (st_statusword_offset active) 2 then
              let* b := read_inputs slave (st_statusword_offset active) 2 in
              ret (cia402_next_controlword (read_u16_le b))
            else ret 0x06 in
          do* write_outputs slave (st_controlword_offset active) (le_bytes 2 controlword) in
          do* write_outputs slave (st_target_position_offset active) (le_bytes 4 (u32 target_counts)) in
          do* when (output_range_ok slave (st_mode_offset active) 1) (write_outputs slave (st_mode_offset active) [8]) in
          do* when (input_range_ok slave (st_actual_position_offset active) 4)
                (let* b := read_inputs slave (st_actual_position_offset active) 4 in ret tt) in
          ret true
  end.

(** One cycle of the run: [Some] of the result when it ends. *)
Definition run_cycle (options : LmsOptions F) (config : LmsConfig) (expected_wkc : Z)
    (moving : option (MotionState F)) (finished : bool) : B (option bool * option (MotionState F) * bool) :=
  let dt_s := n_div (n_of_Z (lo_period_us options)) (n_of_Z 1000000) in
  let '(finished, moving) :=
    match moving with
    | Some m => if finished then (finished, moving)
                else let '(done, m) := motion_step m dt_s in (done, Some m)
    | None => (finished, moving)
    end in
  let* applied :=
    match moving with
    | Some m =>
        match find_stator_for_position config (position_mm m) with
        | None => ret false
        | Some _ => lms_apply_motion_outputs config (position_mm m) (lo_enable_drive_outputs options)
        end
    | None => ret true
    end in
  if negb applied then ret (Some false, moving, finished)
  else
    let* wkc := fieldbus_roundtrip in
    do* when (wkc <? expected_wkc) fieldbus_check_state in
    if (finished : bool) then ret (Some true, moving, finished)
    else
      do* on_context (ctx_usleep (u32 (lo_period_us options))) in
      ret (None, moving, finished).

(** [cycle] counts up to [lo_cycles], or for ever when it is negative. *)
Fixpoint run_cycles (fuel : nat) (options : LmsOptions F) (config : LmsConfig) (expected_wkc : Z)
    (moving : option (MotionState F)) (finished : bool) : B bool :=
  match fuel with
  | O => if lo_cycles options <? 0 then fail OutOfFuel else ret true
  | S fuel =>
      let* r := run_cycle options config expected_wkc moving finished in
      let '(ended, moving, finished) := r in
      match ended with
      | Some result => ret result
      | None => run_cycles fuel options config expected_wkc moving finished
      end
  end.

Definition fieldbus_run (options : LmsOptions F) (config : option LmsConfig) : B bool :=
  let* grp := on_context (get_group 0) in
  let expected_wkc := outputsWKC grp * 2 + inputsWKC grp in
  let* moving :=
    match config, lo_target_mm options with
    | Some config, Some target =>
        let* start := match lo_start_mm options with
                      | Some start => ret start
                      | None => of_opt OutOfBounds (st_start_mm <$> head config)
                      end in
        ret (Some (lms_motion_init start target (lo_velocity_mm_s options) (lo_acceleration_mm_s2 options)))
    | _, _ => ret None
    end in
  run_cycles (if lo_cycles options <? 0 then loop_fuel else Z.to_nat (lo_cycles options)) options
    (default [] config) expected_wkc moving false.
End Bus.

(** ** The program *)

Section Program.
Context {F : Type} `{Num F}.
Definition lms_options_init : LmsOptions F :=
  LmsOpts MODE_NONE None None LMS_DEFAULT_PERIOD_US LMS_DEFAULT_CYCLES true false None None (n_of_Z 250) (n_of_Z 1000).

(** An option with a value: [None] when it is unknown, or the value is refused. *)
Definition lms_set_option (name : string) (value : text) (o : LmsOptions F) : option (LmsOptions F) :=
  let positive (x : F) := negb (n_leb x (n_of_Z 0)) in
  if String.eqb name "--iface" then Some (o <| lo_iface := Some value |>)
  else if String.eqb name "--lms-config" then Some (o <| lo_config_path := Some value |>)
  else if String.eqb name "--period-us" then
    v ← lms_parse_int value; if v <=? 0 then None else Some (o <| lo_period_us := v |>)
  else if String.eqb name "--cycles" then v ← lms_parse_int value; Some (o <| lo_cycles := v |>)
  else if String.eqb name "--start-mm" then x ← parse_double value; Some (o <| lo_start_mm := Some x |>)
  else if String.eqb name "--demo-target-mm" then x ← parse_double value; Some (o <| lo_target_mm := Some x |>)
  else if String.eqb name "--demo-velocity-mm-s" then
    x ← parse_double value; if positive x then Some (o <| lo_velocity_mm_s := x |>) else None
  else if String.eqb name "--demo-accel-mm-s2" then
    x ← parse_double value; if positive x then Some (o <| lo_acceleration_mm_s2 := x |>) else None
  else None.

(** [Some] of the options, also for a request of help; [None] where the code prints an error. *)
Fixpoint lms_parse_options (args : list string) (o : LmsOptions F) : option (LmsOptions F) :=
  match args with
  | [] => Some o
  | a :: rest =>
      if String.eqb a "--help" || String.eqb a "-h" then Some (o <| lo_mode := MODE_NONE |>)
      else if String.eqb a "--list-adapters" then lms_parse_options rest (o <| lo_mode := MODE_LIST_ADAPTERS |>)
      else if String.eqb a "--scan" then lms_parse_options rest (o <| lo_mode := MODE_SCAN |>)
      else if String.eqb a "--run" then lms_parse_options rest (o <| lo_mode := MODE_RUN |>)
      else if String.eqb a "--validate-config" then lms_parse_options rest (o <| lo_mode := MODE_VALIDATE_CONFIG |>)
      else if String.eqb a "--safe-op-only" then lms_parse_options rest (o <| lo_request_operational := false |>)
      else if String.eqb a "--enable-drive-outputs" then lms_parse_options rest (o <| lo_enable_drive_outputs := true |>)
      else match rest with
           | value :: rest => o ← lms_set_option a (text_bytes value) o; lms_parse_options rest o
           | [] => None
           end
  end.

Context {L : Type} `{EcLink L} `{EcFrame L} `{LoopFuel} `{Interference L} `{DllOs L}.
Variable junk : Z.
Variable soe_vars : list Z * list Z.
Variable init_vars : list Z * list Z.
Variable dc_vars : Z * (list Z * list Z).

(** The exit code; [read] gives the files that can be opened. *)
Definition lms_main (args : list string) (read : text -> option text) : M (Fieldbus L) Z :=
  match lms_parse_options args lms_options_init with
  | None => ret 1
  | Some options =>
      let config := path ← lo_config_path options; Some (load_lms_config (F := F) (read path)) in
      match lo_mode options, config with
      | MODE_NONE, _ => ret 1
      | _, Some None => ret 1
      | mode, _ =>
          let config := match config with Some (Some c) => Some c | _ => None end in
          if match config with Some c => negb (validate_lms_config c) | None => false end then ret 1
          else match mode, lo_iface options with
               | MODE_NONE, _ => ret 1
               | MODE_LIST_ADAPTERS, _ => ret 0
               | MODE_VALIDATE_CONFIG, _ => ret (match config with Some _ => 0 | None => 1 end)
               | _, None => ret 1
               | mode, Some iface =>
                   let run := match mode with MODE_RUN => true | _ => false end in
                   do* modify (fun b => fieldbus_initialize (link (fb_context b))) in
                   let* started := fieldbus_start junk soe_vars init_vars dc_vars iface
                                     (run && lo_request_operational options) in
                   if negb started then do* fieldbus_stop in ret 1
                   else
                     let* ok := if run then fieldbus_run junk options config else ret true in
                     do* fieldbus_stop in
                     ret (if (ok : bool) then 0 else 1)
               end
      end
  end.
End Program.
