(* ===== verification/BackendTheorems.v ===== *)
(** * Theorems on the rounds of the backend server

    A position command of the client in closed loop with a drive, and what the client reads
    back of a round. *)

From Stdlib Require Import String Reals Lra.
From S2P Require Import Prelude Num Cia402 Cia402Theorems Profile PlanBuild PlanTheorems Motion MotionTheorems.
From S2P Require Import Backend RtCycle.
Import stdpp.list_relations.list stdpp.list_basics.list.
Open Scope Z_scope.

Abbreviation runtime := (BackendRuntime R).
Abbreviation command := (BackendCommand R).
Abbreviation local := (rt_local R).

(** ** Counters that wrap *)


(** ** What a round keeps *)










(** ** A position command in closed loop *)

Section Loop.
Context {D : Type} `{HD : Drive D} {T : nat} `{!DriveLaws D T}.
Context (options : BackendOptions) (now : nat -> Z) (feedback : nat -> rt_input).
Implicit Types d : D.





Section Command.
Context (rt0 : runtime) (Hquiet : forall i, heartbeat_lost options (now i) rt0 = false).
Abbreviation cmd := (br_command rt0).
Context (Htype : c_type (bc_motion cmd) = CIA402_MOTION_PROFILE_POSITION)
        (Hseq : bc_sequence cmd = CIA402_SEQ_ENABLE).
Abbreviation motion := (bc_motion cmd).
Abbreviation dt := (cia402_dt_s (F := R) (bo_period_us options)).
Abbreviation step := (fun q : profile => tag (step_position_profile q dt)).






Context (Hperiod : 0 <= bo_period_us options)
  (Htime : Z.quot (Z.of_nat (4 * T) * bo_period_us options) 1000 < bo_sequence_timeout_ms options)
  (Hshort : Z.of_nat (4 * T) < 2 ^ 31 - 1).






End Command.

End Loop.



