(* ===== verification/BackendTypes.v ===== *)
(** * Types of the process data of the backend server

    Whatever the client sends and the slave reports, as long as the fields of the messages
    and of the process data have their C types, the threads never compute a value outside the
    type of an output and never convert a [double] that has no integer. *)

From Stdlib Require Import String Reals Lra.
From S2P Require Import Prelude Num Cia402 Profile PlanBuild MotionTheorems Backend RtCycle BackendSys.
Import stdpp.list_relations.list stdpp.list_basics.list.
Open Scope Z_scope.

Definition is_i32 (z : Z) : Prop := INT32_MIN <= z <= INT32_MAX.
Definition is_u16 (z : Z) : Prop := 0 <= z < 2 ^ 16.
Definition is_i8 (z : Z) : Prop := - 2 ^ 7 <= z < 2 ^ 7.

Lemma s32_is_i32 z : is_i32 (s32 z).
Proof. pose proof (s32_range z). unfold is_i32, INT32_MIN, INT32_MAX. lia. Qed.
Lemma s8_is_i8 z : is_i8 (s8 z).
Proof. unfold is_i8, s8. pose proof (Z.mod_pos_bound (z + 2 ^ 7) (2 ^ 8)). lia. Qed.

Lemma round_is_i32 (x : R) z : round_to_i32 x = Some z -> is_i32 z.
Proof. destruct (round_in_range x) as (z' & Hz & Hr). rewrite Hz. by intros [= <-]. Qed.

(** ** Data of the right types *)

Record typed_output (o : Cia402PdoOutput) : Prop := TypedOutput {
  to_controlword : is_u16 (controlword o);
  to_position : is_i32 (o_target_position o);
  to_velocity : is_i32 (o_target_velocity o);
  to_mode : is_i8 (o_mode o);
}.
Record typed_input (input : rt_input) : Prop := TypedInput {
  ti_position : is_i32 (in_actual_position input);
  ti_mode : is_i8 (in_mode_display input);
}.
Record typed_command (cmd : BackendCommand R) : Prop := TypedCommand {
  tc_controlword : is_u16 (bc_controlword cmd);
  tc_velocity : is_i32 (bc_target_velocity cmd);
  tc_mode : is_i8 (bc_mode cmd);
  tc_motion_mode : is_i8 (c_mode (bc_motion cmd));
}.
Definition typed_message (msg : client_message) : Prop :=
  match msg with
  | MsgCommand nc => is_i32 (nc_target_velocity nc)
  | MsgSdoWrite request => bytes_ok (sr_data request)
  | MsgSdoRead _ | MsgOther => True
  end.

Lemma controlword_typed seq state manual : is_u16 manual ->
  is_u16 (cia402_sequence_controlword seq state manual).1.
Proof. intros Hm. by destruct seq, state. Qed.

(** ** Messages keep the command well typed *)

Lemma typed_motion_init : is_i8 (c_mode (motion_init (F := R))).
Proof. done. Qed.

Lemma apply_typed nc (rt : BackendRuntime R) : is_i32 (nc_target_velocity nc) ->
  typed_command (br_command rt) -> typed_command (br_command (runtime_apply_command nc rt)).
Proof.
  intros Hv [Hc Hvel Hm Hmm]. unfold runtime_apply_command. cbn zeta.
  repeat match goal with |- context [if ?c then _ else _] => destruct c end;
    (split; cbn -[s8 is_i8 is_i32]; try done; try apply s8_is_i8; try by destruct (_ : bool)).
Qed.

Lemma read_le_u16_typed data : bytes_ok data -> is_u16 (read_le_u16 data).
Proof.
  intros Hb. unfold read_le_u16, is_u16. pose proof (of_le_bounds (take 2 data) ltac:(by apply Forall_take)) as Hr.
  assert (256 ^ Z.of_nat (length (take 2 data)) <= 256 ^ 2)
    by (apply Z.pow_le_mono_r; [lia | rewrite length_take; lia]). lia.
Qed.

Lemma write_typed request (cmd cmd' : BackendCommand R) : bytes_ok (sr_data request) ->
  typed_command cmd -> cached_write request cmd = Some cmd' -> typed_command cmd'.
Proof.
  intros Hb [Hc Hvel Hm Hmm]. unfold cached_write. cbn zeta.
  repeat match goal with |- context [if ?c then _ else _] => destruct c end; try done; intros [= <-];
    split; cbn -[s8 is_i8 is_i32 read_le_u16]; first [done | by apply read_le_u16_typed | apply s8_is_i8 | apply s32_is_i32].
Qed.

Lemma handle_typed msg (rt : BackendRuntime R) : typed_message msg ->
  typed_command (br_command rt) -> typed_command (br_command (handle_message msg rt)).
Proof.
  intros Hm Hc. destruct msg as [nc|r|r|]; cbn [handle_message]; try done.
  - by apply apply_typed.
  - unfold runtime_write_cached_sdo. destruct (_ <=? _); [done|].
    destruct (cached_write r (br_command rt)) eqn:Hw; [|done]. by eapply write_typed.
Qed.

Lemma watchdog_typed options now (rt : BackendRuntime R) : typed_command (br_command rt) ->
  typed_command (br_command (rt_watchdog options now rt)).
Proof.
  intros [Hc Hvel Hm Hmm]. unfold rt_watchdog. destruct (_ && _); [|done].
  split; cbn; [done | done | exact Hm | done].
Qed.

(** ** A round *)

Lemma motion_output_typed p (command : Cia402MotionCommand R) position output o : is_i8 (c_mode command) ->
  is_i32 position -> typed_output output -> cia402_motion_output p command position output = Some o -> typed_output o.
Proof.
  intros Hm Hp Ho. unfold cia402_motion_output, mode_or.
  assert (Hmode : forall m, is_i8 m -> is_i8 (if negb (c_mode command =? 0) then c_mode command else m))
    by (intros m ?; by destruct (negb _)).
  destruct (round_total (Profile.position p)) as [z Hz], (round_total (velocity p)) as [v Hv].
  destruct (c_type command); rewrite ?Hz, ?Hv; cbn -[is_i8 is_i32]; intros [= <-]; [done | ..].
  all: split; cbn -[is_i8 is_i32]; eauto using round_is_i32; try (by apply Hmode); done.
Qed.

Lemma motion_output_total p (command : Cia402MotionCommand R) position output :
  exists o, cia402_motion_output p command position output = Some o.
Proof.
  unfold cia402_motion_output.
  destruct (round_total (Profile.position p)) as [z Hz], (round_total (velocity p)) as [v Hv].
  destruct (c_type command); cbn; rewrite ?Hz, ?Hv; cbn; eauto.
Qed.

Lemma idle_position_kept options reached input (cmd : BackendCommand R) now (l : rt_local R) :
  l_idle_hold_position (rt_sequence options reached l) = l_idle_hold_position l
  /\ l_idle_hold_position (rt_monitor input l) = l_idle_hold_position l
  /\ l_idle_hold_position (rt_new_command cmd l) = l_idle_hold_position l
  /\ l_idle_hold_position (rt_reset_statistics cmd (rt_timing options now l)) = l_idle_hold_position l.
Proof.
  unfold rt_sequence, rt_monitor, rt_new_command, rt_reset_statistics, rt_timing. cbn zeta.
  split_and!; repeat match goal with |- context [if ?c then _ else _] => destruct c; try done end.
Qed.

Lemma idle_typed cmd safety state position output (l : rt_local R) :
  is_i32 position -> is_i32 (l_idle_hold_position l) -> typed_output output ->
  let '(output', _, l') := rt_idle cmd safety state position output l in
  typed_output output' /\ is_i32 (l_idle_hold_position l').
Proof.
  intros Hp Hl [H1 H2 H3 H4]. unfold rt_idle. destruct (bool_decide _); [|done].
  cbn zeta. destruct (_ || _); (split; [by split | done]).
Qed.

Lemma round_typed options (cmd : BackendCommand R) safety input (l : rt_local R) :
  typed_command cmd -> typed_input input -> is_i32 (l_idle_hold_position l) ->
  exists r l', rt_work options cmd safety input l = Ok (r, l') /\ typed_output (r_output r)
    /\ is_i32 (l_idle_hold_position l').
Proof.
  intros [Hc Hvel Hm Hmm] [Hpos Hmode] Hl. unfold rt_work. cbn zeta.
  set (l1 := rt_monitor input (rt_new_command cmd l)).
  assert (Hl1 : is_i32 (l_idle_hold_position l1)).
  { unfold l1. destruct (idle_position_kept options true input cmd 0 (rt_new_command cmd l)) as (_ & -> & _).
    by destruct (idle_position_kept options true input cmd 0 l) as (_ & _ & -> & _). }
  set (o := PdoOutput _ _ _ _).
  assert (Ho : typed_output o) by (split; cbn -[is_i8]; [by apply controlword_typed | done | done | by destruct (negb _)]).
  pose proof (idle_typed cmd safety (cia402_state_from_status (in_statusword input)) _ o l1 Hpos Hl1 Ho) as Hidle.
  destruct (rt_idle _ _ _ _ o l1) as [[o2 policy] l2]. destruct Hidle as [Ho2 Hl2].
  set (seq := cia402_sequence_controlword _ _ _).
  assert (Hl3 : is_i32 (l_idle_hold_position (rt_sequence options seq.2 l2)))
    by (by destruct (idle_position_kept options seq.2 input cmd 0 l2) as (-> & _)).
  unfold rt_profile. destruct (bool_decide _) eqn:Hnone; [by eexists _, _|].
  destruct (_ && _); [|by eexists _, _]. unfold cia402_profile_step. rewrite Hnone. cbn zeta.
  destruct (motion_output_total (cia402_motion_step
    (if negb (active (l_profile (rt_sequence options seq.2 l2))) ||
        negb (bool_decide (p_type (l_profile (rt_sequence options seq.2 l2)) = c_type (bc_motion cmd)))
     then cia402_profile_begin (bc_motion cmd) (in_actual_position input) (in_actual_velocity input)
     else l_profile (rt_sequence options seq.2 l2))
    (bc_motion cmd) (in_actual_position input) (cia402_dt_s (bo_period_us options)))
    (bc_motion cmd) (in_actual_position input) o2) as [o3 Ho3].
  rewrite Ho3. eexists _, _. split; [reflexivity|]. split; [|done]. by eapply motion_output_typed; [| | | exact Ho3].
Qed.

(** ** The two threads *)

Definition typed_label (_ : sys (F := R)) (lb : label) : Prop :=
  match lb with
  | Mark _ msg => typed_message msg
  | Finish input => typed_input input
  | Handle | Take _ => True
  end.

Record typed_sys (s : sys (F := R)) : Prop := TypedSys {
  ts_command : typed_command (br_command (s_rt s));
  ts_taken : forall cmd safety, s_taken s = Some (cmd, safety) -> typed_command cmd;
  ts_pending : forall msg, s_pending s = Some msg -> typed_message msg;
  ts_idle : is_i32 (l_idle_hold_position (s_local s));
}.

Lemma typed_step s lb out s' : typed_sys s -> typed_label s lb -> sys_step s lb out s' ->
  typed_sys s' /\ (forall o, out = Some o -> typed_output o).
Proof.
  intros [Hc Ht Hp Hi] Hlb Hstep. destruct Hstep as [s now msg Hnone Hnow|s msg Hmsg
    |s now rt l cmd safety Hnone Hnow Htake|s input cmd safety r l l' rt Htk Hwork Hpub].
  - split; [|done]. split; cbn; [done | done | by intros m [= <-] | done].
  - split; [|done]. split; cbn; [apply handle_typed; [by apply Hp | done] | done | done | done].
  - split; [|done]. unfold rt_take in Htake. injection Htake as <- <- <- <-.
    assert (Hw := watchdog_typed (br_options (s_rt s)) now _ Hc).
    split; cbn; [done | by intros c sf [= <- ?] | done |].
    by destruct (idle_position_kept (br_options (s_rt s)) true (RtInput 0 0 0 0 0 EC_WC_ZERO false false 0)
      (br_command (rt_watchdog (br_options (s_rt s)) now (s_rt s))) now (s_local s)) as (_ & _ & _ & ->).
  - destruct (round_typed (br_options (s_rt s)) cmd safety input (s_local s) (Ht _ _ Htk) Hlb Hi)
      as (r0 & l0 & Hw0 & Ho & Hl0). rewrite Hw0 in Hwork. injection Hwork as <- <-.
    unfold rt_publish in Hpub. injection Hpub as <- <-.
    split; [|by intros o [= <-]]. split; cbn; [done | done | done | exact Hl0].
Qed.

Lemma typed_reachable options slave_name revision start s :
  reachable typed_label (sys_init options slave_name revision start) s -> typed_sys s.
Proof.
  induction 1 as [|s lb out s' _ IH Hlb Hstep]; [by split|]. by eapply typed_step.
Qed.

(** C20: The process data have their types, in exact arithmetic, which has no NaN and no
    infinity.  Whatever messages and reports of the right types
    the two threads have met, in whatever order, a round that has taken its command can be
    ended with every report of the slave, every number that is converted being one of 32 bits,
    and its control word, target position, target velocity and mode are in the ranges of the
    16-bit, 32-bit and 8-bit fields they are stored in. *)
Theorem backend_outputs_typed (options : BackendOptions) (slave_name : string) (revision start : Z)
    (s : sys (F := R)) (cmd : BackendCommand R) (safety : bool) (input : rt_input) :
  reachable typed_label (sys_init options slave_name revision start) s ->
  s_taken s = Some (cmd, safety) -> typed_input input ->
  (exists out s', sys_step s (Finish input) (Some out) s')
  /\ (forall out s', sys_step s (Finish input) (Some out) s' -> typed_output out).
Proof.
  intros Hreach Ht Hin. apply typed_reachable in Hreach. split.
  - destruct (round_typed (br_options (s_rt s)) cmd safety input (s_local s) (ts_taken _ Hreach _ _ Ht) Hin
      (ts_idle _ Hreach)) as (r & l & Hw & _).
    destruct (rt_publish (br_options (s_rt s)) cmd safety input r l (s_rt s)) as [rt l'] eqn:Hp.
    eexists _, _. by eapply StepFinish.
  - intros out s' Hstep. by destruct (typed_step s (Finish input) _ _ Hreach Hin Hstep) as [_ Ho]; apply Ho.
Qed.

(** The first round of a server that has not heard of its client. *)
Definition types_options : BackendOptions := MkOptions 15000 0 0 0 0x205e 0x90000300 1000 80 true 5000 1000.
Definition types_input : rt_input := RtInput 0x27 (-5) 0 CIA402_MODE_CSV 3 EC_WC_COMPLETE true true 8.

Lemma backend_outputs_typed_witness :
  exists s : sys (F := R), (exists out s', sys_step s (Finish types_input) (Some out) s')
    /\ (forall out s', sys_step s (Finish types_input) (Some out) s' -> typed_output out).
Proof.
  set (s0 := sys_init (F := R) types_options "drive" 1 1000).
  destruct (rt_take types_options 2000 (s_rt s0) (s_local s0)) as [[[rt l] cmd] safety] eqn:Htake.
  exists (s0 <| s_rt := rt |> <| s_local := l |> <| s_taken := Some (cmd, safety) |> <| s_now := 2000 |>).
  apply (backend_outputs_typed types_options "drive" 1 1000 _ cmd safety types_input).
  - apply (ReachStep _ _ s0 (Take 2000) None); [apply ReachRefl | done |]. by apply StepTake.
  - reflexivity.
  - split; vm_compute; split; congruence.
Defined.
