(* ===== verification/WireTheorems.v ===== *)
(** * Theorems on the messages between library and server

    Framing over a stream that cuts the bytes wherever it likes, and an object read by the
    library through the server. *)

From Stdlib Require Import String.
From S2P Require Import Prelude Num Cia402 Profile Backend RtCycle BackendSys Wire Server Client.
Import stdpp.list_relations.list stdpp.list_basics.list.

(** ** A stream socket

    [send] takes some of the bytes, at least one, and puts them behind those that are on
    their way out; [recv] gives some of those that have come in, at least one.  What else
    a call does is in [keep]. *)
Definition sends {W} (sk : socket W) (out : W -> list Z) (keep : W -> W -> Prop) : Prop :=
  forall data w, data <> [] ->
    total (sk_send sk data) (fun n w' => 1 <= n <= zlen data
      /\ out w' = out w ++ take (Z.to_nat n) data /\ keep w w') w.
Definition receives {W} (sk : socket W) (inp : W -> list Z) (keep : W -> W -> Prop) : Prop :=
  forall n w, 0 < n -> inp w <> [] ->
    total (sk_recv sk n) (fun r w' => 1 <= r.1 <= n /\ r.1 = zlen r.2
      /\ inp w = r.2 ++ inp w' /\ keep w w') w.

Section Framing.
Context {W : Type} {sk : socket W} {out inp : W -> list Z} {keep : W -> W -> Prop} `{!PreOrder keep}.
Implicit Types w : W.

Lemma wp_send_rest (Hsend : sends sk out keep) fuel data Q w : (length data <= fuel)%nat ->
  (forall w', out w' = out w ++ data -> keep w w' -> Q 0 w') ->
  total (send_rest sk fuel data) Q w.
Proof using PreOrder0.
  revert data w. induction fuel as [|fuel IH]; intros data w Hf HQ.
  - destruct data; [|cbn in Hf; lia]. apply wp_ret, HQ; [by rewrite app_nil_r | done].
  - destruct data as [|b data]; [apply wp_ret, HQ; [by rewrite app_nil_r | done]|]. cbn [send_rest].
    apply wp_bind. eapply wp_mono; [by apply Hsend|]. intros n w1 (Hn & Ho & Hi).
    destruct (Z.leb_spec n 0); [lia|]. apply IH.
    { rewrite length_drop. lia. }
    intros w2 Ho2 Hi2. apply HQ; [|by etrans]. by rewrite Ho2, Ho, <- app_assoc, take_drop.
Qed.

Lemma wp_send_all (Hsend : sends sk out keep) data Q w :
  (forall w', out w' = out w ++ data -> keep w w' -> Q 0 w') -> total (send_all sk data) Q w.
Proof using PreOrder0. intros HQ. by apply wp_send_rest. Qed.

Lemma wp_recv_rest (Hrecv : receives sk inp keep) fuel got size data rest Q w : zlen got + zlen data = size -> (length data <= fuel)%nat ->
  inp w = data ++ rest ->
  (forall w', inp w' = rest -> keep w w' -> Q (Some (got ++ data)) w') ->
  total (recv_rest sk fuel got size) Q w.
Proof using PreOrder0.
  revert got data w. induction fuel as [|fuel IH]; intros got data w Hsz Hf Hin HQ; cbn [recv_rest].
  - destruct data; [|cbn in Hf; lia]. change (zlen []) with 0 in Hsz. destruct (Z.leb_spec size (zlen got)); [|lia].
    apply wp_ret. rewrite <- (app_nil_r got). by apply HQ.
  - destruct (Z.leb_spec size (zlen got)).
    { destruct data; [|unfold zlen in *; cbn in *; lia]. apply wp_ret. rewrite <- (app_nil_r got). by apply HQ. }
    apply wp_bind. eapply wp_mono.
    { apply Hrecv; [lia|]. rewrite Hin. destruct data; [|done]. unfold zlen in *. cbn in *. lia. }
    intros [n b] w1 (Hn & Hl & Hi & Ho). cbn [fst snd] in *. destruct (Z.leb_spec n 0); [lia|].
    assert (Hb : take (Z.to_nat n) b = b) by (apply take_ge; unfold zlen in Hl; lia). rewrite Hb.
    assert (Hsplit : exists data', data = b ++ data' /\ inp w1 = data' ++ rest).
    { rewrite Hin in Hi. apply app_eq_inv in Hi as [(k & -> & Hk)|(k & -> & Hk)].
      - exists k. by rewrite Hk.
      - assert (k = []) as -> by (destruct k; [done|]; unfold zlen in *; rewrite length_app in *; cbn in *; lia).
        exists []. by rewrite !app_nil_r. }
    destruct Hsplit as (data' & -> & Hi'). unfold zlen in *. rewrite length_app in *.
    eapply (IH (got ++ b) data').
    + rewrite length_app. lia.
    + destruct b; cbn in *; lia.
    + exact Hi'.
    + intros w2 Hi2 Ho2. rewrite <- app_assoc. apply HQ; [done | by etrans].
Qed.

Lemma wp_recv_all (Hrecv : receives sk inp keep) data rest Q w : inp w = data ++ rest ->
  (forall w', inp w' = rest -> keep w w' -> Q (Some data) w') -> total (recv_all sk (zlen data)) Q w.
Proof using PreOrder0.
  intros Hin HQ. unfold recv_all. eapply (wp_recv_rest Hrecv _ [] _ data rest); [done | unfold zlen; lia | done | done].
Qed.

(** ** Messages *)

Lemma of_le_take n z l : of_le (take n (le_bytes n z ++ l)) = z mod 256 ^ Z.of_nat n.
Proof using Type. rewrite <- (length_le_bytes n z) at 1. by rewrite take_app_length, of_le_le_bytes. Qed.

(** A field in front of the others, and behind [k] bytes. *)
Lemma field_here n z l : field 0 n (le_bytes n z ++ l) = z mod 256 ^ Z.of_nat n.
Proof using Type. unfold field. rewrite drop_0. apply of_le_take. Qed.
Lemma field_skip off k n z l : (k <= off)%nat -> field off n (le_bytes k z ++ l) = field (off - k) n l.
Proof using Type.
  intros Hk. unfold field. rewrite drop_app_ge by (by rewrite length_le_bytes). by rewrite length_le_bytes.
Qed.

Local Ltac fields := repeat first [rewrite field_here | rewrite field_skip by lia; cbn [Nat.sub]].

Lemma header_roundtrip h : 0 <= h_magic h < 2 ^ 32 -> 0 <= h_version h < 2 ^ 16 -> 0 <= h_type h < 2 ^ 16 ->
  0 <= h_size h < 2 ^ 32 -> 0 <= h_sequence h < 2 ^ 32 -> parse_header (header_bytes h) = h.
Proof using Type.
  intros H1 H2 H3 H4 H5. unfold parse_header, header_bytes. rewrite <- (app_nil_r (le_bytes 4 (h_sequence h))).
  fields.
  change (256 ^ Z.of_nat 4) with (2 ^ 32). change (256 ^ Z.of_nat 2) with (2 ^ 16).
  rewrite !Z.mod_small by done. by destruct h.
Qed.

Lemma header_length h : zlen (header_bytes h) = header_size.
Proof using Type. unfold header_bytes, zlen. by rewrite !length_app, !length_le_bytes. Qed.

(** The bytes of a message on the stream. *)
Definition message_bytes (type sequence : Z) (payload : list Z) : list Z :=
  header_bytes (NetHeader ECAT_NET_MAGIC ECAT_NET_VERSION type (zlen payload) sequence) ++ payload.

Lemma wp_send_message (Hsend : sends sk out keep) type sequence payload Q w :
  (forall w', out w' = out w ++ message_bytes type sequence payload -> keep w w' -> Q 0 w') ->
  total (send_message sk type sequence payload) Q w.
Proof using PreOrder0.
  intros HQ. apply wp_bind, (wp_send_all Hsend). intros w1 Ho Hi. cbn [negb Z.eqb].
  destruct (Z.ltb_spec 0 (zlen payload)).
  - apply (wp_send_all Hsend). intros w2 Ho2 Hi2. apply HQ; [|by etrans]. unfold message_bytes. by rewrite Ho2, Ho, app_assoc.
  - destruct payload; [|unfold zlen in *; cbn in *; lia]. apply wp_ret, HQ; [|done]. unfold message_bytes. by rewrite app_nil_r.
Qed.

Lemma wp_recv_message (Hrecv : receives sk inp keep) type sequence payload rest capacity Q w :
  0 <= type < 2 ^ 16 -> 0 <= sequence < 2 ^ 32 -> zlen payload <= capacity -> zlen payload < 2 ^ 32 ->
  inp w = message_bytes type sequence payload ++ rest ->
  (forall w', inp w' = rest -> keep w w' ->
     Q (Some (NetHeader ECAT_NET_MAGIC ECAT_NET_VERSION type (zlen payload) sequence, payload)) w') ->
  total (recv_message sk capacity) Q w.
Proof using PreOrder0.
  intros Ht Hq Hc Hp Hin HQ. unfold message_bytes in Hin. set (h := NetHeader _ _ _ _ _) in *.
  assert (Hh : parse_header (header_bytes h) = h) by (apply header_roundtrip; cbn -[zlen]; first [done | lia | unfold zlen in *; lia]).
  apply wp_bind. rewrite <- (header_length h). eapply (wp_recv_all Hrecv); [by rewrite <- app_assoc in Hin|].
  intros w1 Hi1 Ho1. cbn zeta. rewrite Hh. cbn [h_magic h_version h_size h]. rewrite !Z.eqb_refl. cbn [negb orb].
  destruct (Z.ltb_spec capacity (zlen payload)); [lia|]. destruct (Z.ltb_spec 0 (zlen payload)).
  - apply wp_bind. eapply (wp_recv_all Hrecv); [exact Hi1|]. intros w2 Hi2 Ho2. apply wp_ret. cbn. apply HQ; [done | by etrans].
  - destruct payload; [|unfold zlen in *; cbn in *; lia]. apply wp_ret. by apply HQ.
Qed.
End Framing.

(** ** What the server answers *)

Section Reply.
Context {F : Type} `{Num F}.
Implicit Types rt : BackendRuntime F.

Definition first_slave rt : ECAT_NetSlaveStatus := default slave_status_zero (head (st_slaves (br_status rt))).

(** A read of [capacity] bytes: the start of the object, and its size. *)
Lemma read_reply rt request data : 0 < sr_size request -> zlen data <= ECAT_NET_SDO_DATA ->
  cached_object (first_slave rt) (sr_index request) (sr_subindex request) = Some data ->
  exists buf, (runtime_read_cached_sdo rt request).2 = NetSdoReply 0 (Z.min (sr_size request) (zlen data)) buf
    /\ zlen buf = ECAT_NET_SDO_DATA
    /\ take (Z.to_nat (Z.min (sr_size request) (zlen data))) buf = take (Z.to_nat (sr_size request)) data.
Proof using Type.
  intros Hsz Hl Hobj. unfold runtime_read_cached_sdo. cbn zeta. unfold first_slave in Hobj.
  change (runtime_get_status rt) with (br_status rt). rewrite Hobj.
  assert (Hmin : (if (0 <? sr_size request) && (sr_size request <? zlen data) then sr_size request else zlen data)
    = Z.min (sr_size request) (zlen data)).
  { destruct (Z.ltb_spec 0 (sr_size request)); [|lia]. cbn [andb]. destruct (Z.ltb_spec (sr_size request) (zlen data)); lia. }
  rewrite Hmin. set (n := Z.min _ _). assert (Hn : 0 <= n <= zlen data) by (unfold n, zlen in *; lia).
  assert (Ht : length (take (Z.to_nat n) data) = Z.to_nat n) by (rewrite length_take; unfold zlen in Hn; lia).
  assert (Hfit : 0 + zlen (take (Z.to_nat n) data) <= zlen (sp_data sdo_reply_zero)).
  { change (zlen (sp_data sdo_reply_zero)) with 256. unfold zlen at 1. rewrite Ht. unfold ECAT_NET_SDO_DATA in Hl. lia. }
  rewrite zblit_some by (done || exact Hfit).
  cbn [default]. eexists. split; [reflexivity|].
  change (Z.to_nat 0) with 0%nat. rewrite take_0, Nat.add_0_l, Ht. unfold id. cbn [app]. split.
  - unfold zlen, ECAT_NET_SDO_DATA in *. rewrite length_app, Ht, length_drop.
    change (length (sp_data sdo_reply_zero)) with 256%nat. lia.
  - rewrite take_app_length' by done. unfold n, zlen in *.
    destruct (Z.min_spec (sr_size request) (Z.of_nat (length data))) as [[? ->]|[? ->]]; [done|].
    rewrite !take_ge by lia. done.
Qed.

Lemma absent_reply rt request :
  cached_object (first_slave rt) (sr_index request) (sr_subindex request) = None ->
  (runtime_read_cached_sdo rt request).2 = sdo_reply_zero <| sp_result := -1 |>.
Proof using Type.
  intros Hobj. unfold runtime_read_cached_sdo, first_slave in *. change (runtime_get_status rt) with (br_status rt).
  by rewrite Hobj.
Qed.
End Reply.

(** ** Structures *)

Local Ltac all_fields := repeat first [rewrite field_here | rewrite field_skip by lia; cbn [Nat.sub]].

Lemma s32_mod z : - 2 ^ 31 <= z < 2 ^ 31 -> s32 (z mod 256 ^ Z.of_nat 4) = z.
Proof.
  intros Hz. change (256 ^ Z.of_nat 4) with (2 ^ 32). unfold s32. rewrite Zplus_mod_idemp_l, Z.mod_small; lia.
Qed.

Definition request_ok (r : ECAT_NetSdoRequest) : Prop :=
  - 2 ^ 31 <= sr_slave_index r < 2 ^ 31 /\ 0 <= sr_index r < 2 ^ 16 /\ 0 <= sr_subindex r < 2 ^ 8
  /\ 0 <= sr_reserved r < 2 ^ 8 /\ - 2 ^ 31 <= sr_size r < 2 ^ 31 /\ zlen (sr_data r) = ECAT_NET_SDO_DATA.

Lemma request_roundtrip r tail : request_ok r -> parse_sdo_request (sdo_request_bytes r ++ tail) = r.
Proof.
  intros (H1 & H2 & H3 & H4 & H5 & H6). unfold parse_sdo_request, sdo_request_bytes. rewrite <- !app_assoc.
  all_fields. rewrite !s32_mod by done. change (256 ^ Z.of_nat 2) with (2 ^ 16). change (256 ^ Z.of_nat 1) with (2 ^ 8).
  rewrite !Z.mod_small by done. rewrite !app_assoc.
  rewrite drop_app_le, drop_app_length' by (rewrite !length_app, !length_le_bytes; unfold zlen in H6; lia).
  rewrite take_app_length' by (unfold zlen, ECAT_NET_SDO_DATA in H6; lia). by destruct r.
Qed.

Lemma reply_roundtrip r tail : - 2 ^ 31 <= sp_result r < 2 ^ 31 -> - 2 ^ 31 <= sp_size r < 2 ^ 31 ->
  zlen (sp_data r) = ECAT_NET_SDO_DATA -> parse_sdo_reply (sdo_reply_bytes r ++ tail) = r.
Proof.
  intros H1 H2 H3. unfold parse_sdo_reply, sdo_reply_bytes. rewrite <- !app_assoc.
  all_fields. rewrite !s32_mod by done. rewrite !app_assoc.
  rewrite drop_app_le, drop_app_length' by (rewrite !length_app, !length_le_bytes; unfold zlen in H3; lia).
  rewrite take_app_length' by (unfold zlen, ECAT_NET_SDO_DATA in H3; lia). by destruct r.
Qed.

Lemma length_sdo_data data : zlen data <= ECAT_NET_SDO_DATA -> zlen (sdo_data data) = ECAT_NET_SDO_DATA.
Proof. intros Hl. unfold sdo_data, zlen, ECAT_NET_SDO_DATA in *. rewrite length_app, length_replicate. lia. Qed.

Section Composed.
Context {F : Type} `{Num F} `{DoubleLayout F} {W : Type}.
Abbreviation runtime := (BackendRuntime F).
Implicit Types w : W.
Implicit Types rt : runtime.
(** Both ends of the connection, on the bytes that go up to the server and down to the library. *)
Context (ck sv : socket W) (up down : W -> list Z)
  (Hup : sends ck up (fun w w' => down w' = down w)) (Hdown : receives ck down (fun w w' => up w' = up w))
  (Hsv_send : sends sv down (fun w w' => up w' = up w)) (Hsv_recv : receives sv up (fun w w' => down w' = down w)).
Context (now : Z) (junk : list Z).

#[local] Instance same_up : PreOrder (fun w w' => up w' = up w).
Proof using Type. split; [done | by intros ??? -> ->]. Qed.
#[local] Instance same_down : PreOrder (fun w w' => down w' = down w).
Proof using Type. split; [done | by intros ??? -> ->]. Qed.

(** The library waits: the server handles what has come up, and the library receives. *)
Definition server_turn : M (W * runtime) unit :=
  let* rt := gets snd in
  let* r := zoom fst (fun w s => (w, s.2)) (serve_one sv now rt) in
  modify (fun s => (s.1, r.2)).
Definition waits (s : W * runtime) : bool :=
  bool_decide (down s.1 = []) && negb (bool_decide (up s.1 = [])).
Definition with_server : socket (W * runtime) :=
  Socket (fun data => zoom fst (fun w s => (w, s.2)) (sk_send ck data))
    (fun n =>
       let* b := gets waits in
       do* when b server_turn in
       zoom fst (fun w s => (w, s.2)) (sk_recv ck n)).

(** What there is to receive, after the turn of the server if it is due. *)
Definition after_turn (s : W * runtime) : option (W * runtime) :=
  if waits s then match server_turn s with Ok (_, s') => Some s' | Err _ => None end else Some s.
Definition answered (s : W * runtime) : option (W * runtime) :=
  s' ← after_turn s; if bool_decide (up s'.1 = []) then Some s' else None.
Definition coming (s : W * runtime) : list Z :=
  match answered s with Some s' => down s'.1 | None => [] end.
(** Nothing is received yet, or the server is done and its state settled. *)
Definition same_server (s s' : W * runtime) : Prop :=
  s' = s \/ up s'.1 = [] /\ Some s'.2 = snd <$> answered s.

Definition only_up (s s' : W * runtime) : Prop := down s'.1 = down s.1 /\ s'.2 = s.2.
#[local] Instance only_up_preorder : PreOrder only_up.
Proof using Type. split; [done | intros a b c [] []; split; congruence]. Qed.

Lemma with_server_sends : sends with_server (fun s => up s.1) only_up.
Proof using Hup.
  intros data s Hd. apply wp_zoom. eapply wp_mono; [by apply Hup|]. by intros n w' (? & ? & ?).
Qed.

Lemma settled s : up s.1 = [] -> answered s = Some s.
Proof using Type.
  intros Hu. unfold answered, after_turn, waits. rewrite Hu, andb_false_r. cbn. by rewrite Hu.
Qed.

#[local] Instance same_server_preorder : PreOrder same_server.
Proof using Type.
  split; [by left|]. intros a b c [-> | [Hb1 Hb2]] [-> | [Hc1 Hc2]]; [by left | by right | by right |].
  right. rewrite (settled b Hb1) in Hc2. cbn in Hc2. split; [done | congruence].
Qed.

Lemma with_server_receives : receives with_server coming same_server.
Proof using Hdown.
  intros n s Hn Hc. unfold coming in Hc. destruct (answered s) as [a|] eqn:Ha; [|done].
  assert (Ht : after_turn s = Some a /\ up a.1 = []).
  { unfold answered in Ha. destruct (after_turn s) as [b|]; [|done]. cbn in Ha.
    destruct (bool_decide_reflect (up b.1 = [])); [|done]. by injection Ha as ->. }
  destruct Ht as [Ht Hu]. apply wp_bind, wp_gets, wp_bind.
  assert (Hrest : total (zoom fst (fun w s => (w, s.2)) (sk_recv ck n))
    (fun r s' => 1 <= r.1 <= n /\ r.1 = zlen r.2 /\ coming s = r.2 ++ coming s' /\ same_server s s') a).
  { apply wp_zoom. eapply wp_mono; [by apply Hdown|]. intros r w' (H1 & H2 & H3 & H4).
    assert (Hs' : answered (w', a.2) = Some (w', a.2)) by (apply settled; cbn; congruence).
    split; [exact H1|]. split; [exact H2|]. split.
    - unfold coming. by rewrite Ha, Hs'.
    - right. rewrite Ha. cbn. split; [congruence | done]. }
  unfold after_turn in Ht. destruct (waits s).
  - destruct (server_turn s) as [[[] b]|] eqn:Hst; [|done]. injection Ht as ->.
    apply (wp_ok _ _ _ _ _ _ Hst). exact Hrest.
  - injection Ht as ->. exact Hrest.
Qed.

(** One message through the server. *)
Lemma wp_serve ty seq payload rt w : 0 <= ty < 2 ^ 16 -> 0 <= seq < 2 ^ 32 -> zlen payload <= payload_capacity ->
  up w = message_bytes ty seq payload -> down w = [] ->
  let h := NetHeader ECAT_NET_MAGIC ECAT_NET_VERSION ty (zlen payload) seq in
  let msg := message_of h payload in
  let marked := runtime_mark_client_message now rt in
  let handled := count_answer msg (handle_message msg marked) in
  let a := answer_of h msg marked handled in
  total (serve_one sv now rt) (fun r w' => r = (true, handled) /\ up w' = []
    /\ down w' = message_bytes a.1.1 a.1.2 a.2) w.
Proof using Hsv_recv Hsv_send.
  intros Ht Hq Hc Hu Hd h msg marked handled a. apply wp_bind.
  eapply (wp_recv_message (keep := fun w w' => down w' = down w) Hsv_recv ty seq payload []); try done.
  { unfold payload_capacity in Hc. lia. }
  { by rewrite app_nil_r. }
  intros w1 Hu1 Hd1. cbn zeta. fold h. fold msg. fold marked. fold handled. fold a.
  destruct a as [[t sq] p]. apply wp_bind, (wp_send_message (keep := fun w w' => up w' = up w) Hsv_send).
  intros w2 Hd2 Hu2. apply wp_ret. split; [done|]. split; [congruence|]. cbn. by rewrite Hd2, Hd1, Hd.
Qed.

(** A request of the library goes up, *)
Lemma wp_request ty payload w rt (c : rt_client F) Q : up w = [] -> cl_connected c = true ->
  (forall w1, let c1 := c <| cl_sequence ::= (fun n => u32 (n + 1)) |> in
     up w1 = message_bytes ty (cl_sequence c1) payload -> down w1 = down w -> Q ECAT_OK ((w1, rt), c1)) ->
  total (rt_send_message_locked with_server ty payload) Q ((w, rt), c).
Proof using Hup.
  intros Hu Hopen HQ. apply wp_bind, wp_gets. cbn [snd]. rewrite Hopen. cbn [negb].
  apply wp_bind, wp_modify. cbn [fst snd]. apply wp_bind, wp_gets. cbn [snd].
  apply wp_bind, wp_zoom. cbn [fst snd]. apply (wp_send_message (keep := only_up) with_server_sends).
  intros [w1 rt1] Hu1 [Hd1 Hrt]. cbn [fst snd] in *. subst rt1. rewrite Hu in Hu1. apply wp_ret.
  by apply HQ.
Qed.

(** and when the library receives, the server has handled it and answered. *)
Lemma wp_response ty seq payload capacity w rt (c : rt_client F) Q :
  0 <= ty < 2 ^ 16 -> 0 <= seq < 2 ^ 32 -> zlen payload <= payload_capacity ->
  up w = message_bytes ty seq payload -> down w = [] -> cl_connected c = true ->
  let h := NetHeader ECAT_NET_MAGIC ECAT_NET_VERSION ty (zlen payload) seq in
  let msg := message_of h payload in
  let marked := runtime_mark_client_message now rt in
  let handled := count_answer msg (handle_message msg marked) in
  let a := answer_of h msg marked handled in
  0 <= a.1.1 < 2 ^ 16 -> 0 <= a.1.2 < 2 ^ 32 -> zlen a.2 <= capacity < 2 ^ 32 ->
  (forall w', up w' = [] -> down w' = [] ->
     Q (ECAT_OK, Some (NetHeader ECAT_NET_MAGIC ECAT_NET_VERSION a.1.1 (zlen a.2) a.1.2, a.2)) ((w', handled), c)) ->
  total (rt_recv_message_locked with_server capacity) Q ((w, rt), c).
Proof using Hdown Hsv_recv Hsv_send.
  intros Ht Hseq Hlen Hu Hd Hopen h msg marked handled a Ha1 Ha2 Hcap HQ.
  pose proof (wp_serve ty seq payload rt w Ht Hseq Hlen Hu Hd) as Hserve. cbn zeta in Hserve.
  fold h msg in Hserve. fold marked in Hserve. fold handled in Hserve. fold a in Hserve. unfold wp in Hserve.
  destruct (serve_one sv now rt w) as [[r w2]|] eqn:Hrun; [|done]. destruct Hserve as (-> & Hu2 & Hd2).
  assert (Hans : answered (w, rt) = Some (w2, handled)).
  { unfold answered, after_turn, waits. cbn [fst snd]. rewrite Hd, Hu.
    unfold server_turn, bind, gets, zoom, modify. cbn. rewrite Hrun. cbn. by rewrite Hu2. }
  apply wp_bind, wp_gets. cbn [snd]. rewrite Hopen. cbn [negb]. apply wp_bind, wp_zoom. cbn [fst snd].
  eapply (wp_recv_message (keep := same_server) with_server_receives a.1.1 a.1.2 a.2 []); try done; [lia | lia | |].
  { unfold coming. rewrite Hans. cbn [fst]. by rewrite app_nil_r. }
  intros [w3 rt3] Hc3 Hk3. apply wp_ret. cbn [snd].
  assert (up w3 = [] /\ down w3 = [] /\ rt3 = handled) as (Hu3 & Hd3 & ->); [|by apply HQ].
  destruct Hk3 as [Heq | [Hu3 Hr3]].
  - injection Heq as -> ->. unfold coming in Hc3. rewrite Hans in Hc3. cbn [fst] in Hc3. by rewrite Hd2 in Hc3.
  - rewrite Hans in Hr3. unfold coming in Hc3. rewrite (settled (w3, rt3) Hu3) in Hc3.
    split; [done|]. split; [done|]. by injection Hr3.
Qed.

(** A call of the library and its answer. *)
Lemma wp_sdo_call ty answer request reply handled w rt (c : rt_client F) :
  0 <= ty < 2 ^ 16 -> 0 <= answer < 2 ^ 16 -> request_ok request ->
  - 2 ^ 31 <= sp_result reply < 2 ^ 31 -> - 2 ^ 31 <= sp_size reply < 2 ^ 31 -> zlen (sp_data reply) = ECAT_NET_SDO_DATA ->
  (forall h, h_type h = ty -> let marked := runtime_mark_client_message now rt in
     let msg := message_of h (sdo_request_bytes request) in
     count_answer msg (handle_message msg marked) = handled
     /\ answer_of h msg marked handled = (answer, h_sequence h, sdo_reply_bytes reply)) ->
  up w = [] -> down w = [] -> cl_connected c = true ->
  total (sdo_call with_server junk ty answer request) (fun r s =>
    r = (if sp_result reply =? ECAT_OK then (ECAT_OK, Some reply) else (ECAT_ERROR, None))
    /\ up s.1.1 = [] /\ down s.1.1 = [] /\ s.1.2 = handled /\ cl_connected s.2 = true) ((w, rt), c).
Proof using Hup Hdown Hsv_recv Hsv_send.
  intros Ht Hans Hreq Hr1 Hr2 Hr3 Hhandle Hu Hd Hopen.
  assert (Hlen : zlen (sdo_request_bytes request) = 268).
  { destruct Hreq as (_ & _ & _ & _ & _ & Hl). unfold sdo_request_bytes, zlen, ECAT_NET_SDO_DATA in *.
    rewrite !length_app, !length_le_bytes. lia. }
  assert (Hrl : zlen (sdo_reply_bytes reply) = sdo_reply_size).
  { unfold sdo_reply_bytes, zlen, ECAT_NET_SDO_DATA, sdo_reply_size in *. rewrite !length_app, !length_le_bytes. lia. }
  apply wp_bind, wp_request; [done..|]. intros w1 c1 Hu1 Hd1. cbn [Z.eqb negb].
  assert (Hseq : 0 <= cl_sequence c1 < 2 ^ 32) by apply u32_range.
  destruct (Hhandle (NetHeader ECAT_NET_MAGIC ECAT_NET_VERSION ty (zlen (sdo_request_bytes request)) (cl_sequence c1)) eq_refl)
    as [Hh Ha].
  apply wp_bind. eapply (wp_response ty (cl_sequence c1) (sdo_request_bytes request)); [done | exact Hseq | by rewrite Hlen | exact Hu1 | congruence | done | | | |].
  all: rewrite Hh, Ha; cbn [fst snd h_sequence].
  1,2: done.
  { by rewrite Hrl. }
  intros w2 Hu2 Hd2. cbn [h_type].
  rewrite reply_roundtrip by done. rewrite Z.eqb_refl. cbn [negb orb]. rewrite Z.eqb_sym.
  destruct (ECAT_OK =? sp_result reply); cbn [negb]; apply wp_ret; split_and!; done.
Qed.

Lemma message_read h request : h_type h = ECAT_NET_MSG_SDO_READ -> request_ok request ->
  message_of h (sdo_request_bytes request) = MsgSdoRead request.
Proof using Type. intros Ht Hr. unfold message_of, payload_buffer. by rewrite Ht, request_roundtrip. Qed.
Lemma message_write h request : h_type h = ECAT_NET_MSG_SDO_WRITE -> request_ok request ->
  message_of h (sdo_request_bytes request) = MsgSdoWrite request.
Proof using Type. intros Ht Hr. unfold message_of, payload_buffer. by rewrite Ht, request_roundtrip. Qed.

(** The answer to a write is empty but for its result. *)
Lemma write_reply rt request :
  let r := runtime_write_cached_sdo request rt in
  r.1.2 = sdo_reply_zero <| sp_result := r.1.1 |> /\ (r.1.1 = 0 \/ r.1.1 = -1).
Proof using Type.
  unfold runtime_write_cached_sdo. destruct (_ <=? _); [by auto|]. destruct (cached_write _ _); auto.
Qed.

(** C12: An object read or written through the server is the object.  Over a connection that
    cuts the stream of bytes wherever it likes, a read by the library returns the first
    [capacity] bytes of the object the server has cached, and the error result exactly when
    there is no such object; a write has the result and the effect on the server of the write
    itself.  Each call marks the client as alive once, changes nothing else of the server, and
    leaves no byte of request or answer on the connection. *)
Theorem remote_sdo_refines_local slave_index index subindex capacity data w rt (c : rt_client F) :
  - 2 ^ 31 <= slave_index < 2 ^ 31 -> 0 <= index < 2 ^ 16 -> 0 <= subindex < 2 ^ 8 ->
  0 < capacity < 2 ^ 31 -> 0 < zlen data <= ECAT_NET_SDO_DATA ->
  (forall d, cached_object (first_slave rt) index subindex = Some d -> zlen d <= ECAT_NET_SDO_DATA) ->
  up w = [] -> down w = [] -> cl_connected c = true ->
  let marked := runtime_mark_client_message now rt in
  total (rt_read_sdo with_server junk slave_index index subindex capacity) (fun r s =>
      r = match cached_object (first_slave rt) index subindex with
          | Some d => (ECAT_OK, Some (Z.min capacity (zlen d), take (Z.to_nat capacity) d))
          | None => (ECAT_ERROR, None)
          end
      /\ s.1.2 = marked /\ up s.1.1 = [] /\ down s.1.1 = []) ((w, rt), c)
  /\ total (rt_write_sdo with_server junk slave_index index subindex data) (fun r s =>
      let local := runtime_write_cached_sdo (NetSdoRequest slave_index index subindex 0 (zlen data) (sdo_data data)) marked in
      r = (if local.1.1 =? 0 then ECAT_OK else ECAT_ERROR)
      /\ s.1.2 = local.2 /\ up s.1.1 = [] /\ down s.1.1 = []) ((w, rt), c).
Proof using Hup Hdown Hsv_recv Hsv_send.
  intros Hsl Hix Hsub Hcap Hdata Hobj Hu Hd Hopen marked. split.
  - unfold rt_read_sdo. destruct (Z.leb_spec capacity 0); [lia|]. apply wp_bind.
    set (request := NetSdoRequest _ _ _ _ _ _).
    assert (Hreq : request_ok request) by (unfold request_ok, request; cbn -[sdo_data zlen]; rewrite length_sdo_data; (done || lia)).
    assert (Hrd : exists size buf, (runtime_read_cached_sdo marked request).2 = NetSdoReply
        (match cached_object (first_slave rt) index subindex with Some _ => 0 | None => -1 end) size buf
        /\ - 2 ^ 31 <= size < 2 ^ 31 /\ zlen buf = ECAT_NET_SDO_DATA
        /\ forall d, cached_object (first_slave rt) index subindex = Some d ->
             size = Z.min capacity (zlen d) /\ take (Z.to_nat size) buf = take (Z.to_nat capacity) d).
    { destruct (cached_object (first_slave rt) index subindex) as [d|] eqn:Ho.
      - destruct (read_reply marked request d) as (buf & Hr & Hl & Htk); [cbn; lia | by apply Hobj | exact Ho|].
        specialize (Hobj d eq_refl). cbn [sr_size request] in *. unfold ECAT_NET_SDO_DATA in Hobj.
        exists (Z.min capacity (zlen d)), buf. split; [exact Hr|]. split; [unfold zlen in *; lia|].
        split; [exact Hl|]. by intros d' [= <-].
      - rewrite (absent_reply marked request Ho). by eexists _, _. }
    destruct Hrd as (size & buf & Hreply & Hsize & Hbuf & Hval).
    eapply wp_mono; [apply (wp_sdo_call ECAT_NET_MSG_SDO_READ ECAT_NET_MSG_SDO_READ_REPLY request
      (runtime_read_cached_sdo marked request).2 marked); rewrite ?Hreply; try done|].
    { cbn. by destruct (cached_object _ _ _). }
    { intros h Hh. cbn zeta. rewrite message_read by done. cbn [handle_message count_answer answer_of].
      by rewrite Hreply. }
    intros r s (-> & Hu' & Hd' & Hrt & _). rewrite Hreply. cbn [sp_result].
    destruct (cached_object (first_slave rt) index subindex) as [d|]; [|by apply wp_ret].
    destruct (Hval d eq_refl) as [-> Htk]. specialize (Hobj d eq_refl).
    change (0 =? ECAT_OK) with true. cbn iota beta zeta. cbn [sp_size sp_data].
    replace (if Z.min capacity (zlen d) <? capacity then Z.min capacity (zlen d) else capacity)
      with (Z.min capacity (zlen d)) by (destruct (Z.ltb_spec (Z.min capacity (zlen d)) capacity); lia).
    unfold ECAT_NET_SDO_DATA in *. destruct (Z.ltb_spec 0 (Z.min capacity (zlen d))) as [Hpos|Hneg].
    + apply wp_bind. eapply wp_of_opt; [apply zslice_some; lia|].
      change (Z.to_nat 0) with 0%nat. rewrite drop_0, Htk. by apply wp_ret.
    + apply wp_ret. split; [|done]. destruct d; [by rewrite take_nil | unfold zlen in *; cbn in *; lia].
  - unfold rt_write_sdo. destruct (Z.leb_spec (zlen data) 0); [lia|].
    destruct (Z.ltb_spec ECAT_NET_SDO_DATA (zlen data)); [lia|]. cbn [orb]. apply wp_bind.
    set (request := NetSdoRequest _ _ _ _ _ _).
    assert (H256 : zlen data <= 256) by exact (proj2 Hdata).
    assert (Hreq : request_ok request) by (unfold request_ok, request; cbn -[sdo_data zlen]; rewrite length_sdo_data; lia).
    destruct (write_reply marked request) as [Hreply Hres].
    eapply wp_mono; [apply (wp_sdo_call ECAT_NET_MSG_SDO_WRITE ECAT_NET_MSG_SDO_WRITE_REPLY request
      (runtime_write_cached_sdo request marked).1.2 (runtime_write_cached_sdo request marked).2); rewrite ?Hreply; try done|].
    { cbn -[runtime_write_cached_sdo]. destruct Hres as [-> | ->]; lia. }
    { intros h Hh. cbn zeta. rewrite message_write by done. cbn [handle_message count_answer answer_of].
      by rewrite <- Hreply. }
    intros r s (-> & Hu' & Hd' & Hrt & _). apply wp_ret. rewrite Hreply. cbn [sp_result].
    change (sp_result (sdo_reply_zero <| sp_result := (runtime_write_cached_sdo request marked).1.1 |>))
      with (runtime_write_cached_sdo request marked).1.1.
    change ECAT_OK with 0 at 1. split; [|done]. by destruct (_ =? 0).
Qed.
End Composed.

(** ** A connection that cuts the stream *)

(** [n_cuts]: how many bytes the next calls take or give at most. *)
Record net : Type := Net { n_up : list Z; n_down : list Z; n_cuts : list Z }.
Definition cut (n : Z) (w : net) : Z := Z.max 1 (Z.min n (default n (head (n_cuts w)))).
Definition next_cut (w : net) : net := w <| n_cuts ::= tail |>.

Definition library_end : socket net :=
  Socket (fun data w => Ok (cut (zlen data) w, next_cut (w <| n_up ::= (fun l => l ++ take (Z.to_nat (cut (zlen data) w)) data) |>)))
    (fun n w => let b := take (Z.to_nat (cut n w)) (n_down w) in
                Ok ((zlen b, b), next_cut (w <| n_down := drop (Z.to_nat (cut n w)) (n_down w) |>))).
Definition server_end : socket net :=
  Socket (fun data w => Ok (cut (zlen data) w, next_cut (w <| n_down ::= (fun l => l ++ take (Z.to_nat (cut (zlen data) w)) data) |>)))
    (fun n w => let b := take (Z.to_nat (cut n w)) (n_up w) in
                Ok ((zlen b, b), next_cut (w <| n_up := drop (Z.to_nat (cut n w)) (n_up w) |>))).

Lemma cut_range n w : 0 < n -> 1 <= cut n w <= n.
Proof. unfold cut. lia. Qed.
Lemma cut_taken n w (l : list Z) : 0 < n -> l <> [] ->
  1 <= zlen (take (Z.to_nat (cut n w)) l) <= n /\ l = take (Z.to_nat (cut n w)) l ++ drop (Z.to_nat (cut n w)) l.
Proof.
  intros Hn Hl. pose proof (cut_range n w Hn). split; [|by rewrite take_drop].
  unfold zlen. rewrite length_take. destruct l; [done|]. cbn [length]. lia.
Qed.

Lemma library_sends : sends library_end n_up (fun w w' => n_down w' = n_down w).
Proof. intros data w Hd. unfold wp. cbn. split; [apply cut_range; destruct data; [done | unfold zlen; cbn [length]; lia] | done]. Qed.
Lemma server_sends : sends server_end n_down (fun w w' => n_up w' = n_up w).
Proof. intros data w Hd. unfold wp. cbn. split; [apply cut_range; destruct data; [done | unfold zlen; cbn [length]; lia] | done]. Qed.
Lemma library_receives : receives library_end n_down (fun w w' => n_up w' = n_up w).
Proof. intros n w Hn Hd. destruct (cut_taken n w (n_down w) Hn Hd). by unfold wp. Qed.
Lemma server_receives : receives server_end n_up (fun w w' => n_down w' = n_down w).
Proof. intros n w Hn Hd. destruct (cut_taken n w (n_up w) Hn Hd). by unfold wp. Qed.

(** The library and the server agree on what they make of a [double]. *)
#[local] Instance one_double : DoubleLayout SpecFloat.spec_float := {
  double_bytes _ := replicate 8 0;
  parse_double _ := n_of_Z 0;
}.

(** The name of a device that has reported none, read by four bytes; and its mode, written. *)
Definition remote_runtime : BackendRuntime SpecFloat.spec_float := runtime_init options_init 1000.
Definition remote_client : rt_client SpecFloat.spec_float :=
  RtClient true 0 true true CIA402_PROFILE_TRAPEZOIDAL (n_of_Z 0) runtime_status_zero [].

Lemma remote_sdo_refines_local_witness :
  let server := with_server library_end server_end n_up n_down 2000 in
  total (rt_read_sdo server [] 1 0x1008 0 4) (fun r s =>
      r = (ECAT_OK, Some (4, text_bytes "LTS_")) /\ s.1.2 = runtime_mark_client_message 2000 remote_runtime)
    ((Net [] [] [3; 1; 7; 100; 2], remote_runtime), remote_client)
  /\ total (rt_write_sdo server [] 1 0x6060 0 [9]) (fun r s =>
      r = ECAT_OK /\ bc_mode (br_command s.1.2) = 9)
    ((Net [] [] [3; 1; 7; 100; 2], remote_runtime), remote_client).
Proof.
  assert (Hobj : forall d, cached_object (first_slave remote_runtime) 0x1008 0 = Some d -> zlen d <= ECAT_NET_SDO_DATA).
  { intros d Hd. vm_compute in Hd. injection Hd as <-. vm_compute. discriminate. }
  assert (Hmode : forall d, cached_object (first_slave remote_runtime) 0x6060 0 = Some d -> zlen d <= ECAT_NET_SDO_DATA).
  { intros d Hd. vm_compute in Hd. injection Hd as <-. vm_compute. discriminate. }
  assert (Hslave : - 2 ^ 31 <= 1 < 2 ^ 31) by lia.
  assert (Hname : 0 <= 0x1008 < 2 ^ 16) by lia.
  assert (Hmodes : 0 <= 0x6060 < 2 ^ 16) by lia.
  assert (Hsub : 0 <= 0 < 2 ^ 8) by lia.
  assert (Hcap : 0 < 4 < 2 ^ 31) by lia.
  assert (Hone : 0 < zlen [9] <= ECAT_NET_SDO_DATA) by (split; vm_compute; congruence).
  pose proof (remote_sdo_refines_local library_end server_end n_up n_down library_sends library_receives
    server_sends server_receives 2000 [] 1 0x1008 0 4 [9] (Net [] [] [3; 1; 7; 100; 2])
    remote_runtime remote_client Hslave Hname Hsub Hcap Hone Hobj eq_refl eq_refl eq_refl) as [Hread _].
  pose proof (remote_sdo_refines_local library_end server_end n_up n_down library_sends library_receives
    server_sends server_receives 2000 [] 1 0x6060 0 4 [9] (Net [] [] [3; 1; 7; 100; 2])
    remote_runtime remote_client Hslave Hmodes Hsub Hcap Hone Hmode eq_refl eq_refl eq_refl) as [_ Hwrite].
  intros server. subst server. split.
  - eapply wp_mono; [exact Hread|]. intros r s (Hr & Hs & _).
    split; [rewrite Hr; vm_compute; reflexivity | exact Hs].
  - eapply wp_mono; [exact Hwrite|]. intros r s (Hr & Hs & _). cbv zeta in Hr, Hs.
    split; [rewrite Hr; vm_compute; reflexivity|].
    apply (f_equal (fun rt => bc_mode (br_command rt))) in Hs.
    etransitivity; [exact Hs | vm_compute; reflexivity].
Defined.
