(* ===== verification/ServoTheorems.v ===== *)
(** * Servo commands on an object dictionary

    What a servo command leaves in the dictionary of a drive that keeps its objects.  The
    claims are proved against [SdoObjects], what reading and writing objects promises; the
    library on its own bus keeps the promise with a slave that serves its dictionary over a
    mailbox, by the lemmas of SdoTheorems.v. *)

From stdpp Require Import gmap.
From S2P Require Import Prelude Types Num Osal ErrorRing Mailbox Context MbxHandler MbxClient CoE Cia402 Profile.
From S2P Require Import Backend Wire Client Servo Dll LinkSpec MbxSim MbxHeld SdoServer SdoTheorems PoolSpec EepromSim.
Import stdpp.list_relations.list stdpp.list_basics.list.

(** The bytes of a word depend on what fits in it. *)
Lemma le_bytes_mod n z : le_bytes n (z mod 256 ^ Z.of_nat n) = le_bytes n z.
Proof.
  rewrite <- of_le_le_bytes. pose proof (le_bytes_of_le (le_bytes n z) (le_bytes_ok n z)) as Hb.
  by rewrite length_le_bytes in Hb.
Qed.
Lemma le_bytes_i32 d : zlen d = 4 -> bytes_ok d -> le_bytes 4 (u32 (s32 (of_le d))) = d.
Proof.
  intros Hn Hb. rewrite <- (le_bytes_of_le d) at 2 by done.
  replace (length d) with 4%nat by (unfold zlen in Hn; lia).
  rewrite <- (le_bytes_mod 4 (u32 _)), <- (le_bytes_mod 4 (of_le d)). f_equal.
  change (256 ^ Z.of_nat 4) with (2 ^ 32). unfold u32, s32. rewrite Z.mod_mod by done.
  rewrite Zminus_mod, Z.mod_mod by done. rewrite <- Zminus_mod. f_equal. lia.
Qed.

(** ** The promise *)

Abbreviation key := (Z * Z)%type.
Abbreviation objects := (key -> option (list Z)).

Definition put (k : key) (d : list Z) (f : objects) : objects :=
  fun k' => if decide (k' = k) then Some d else f k'.

(** [inv]: the servo [slave] is on the local bus and can be reached; [obj]: its dictionary. *)
Class SdoObjects (S : Type) `{ServoPort S} (slave : Z) (inv : S -> Prop) (obj : S -> objects) : Prop := {
  objects_slave : 0 < slave;
  objects_local s : inv s -> total port_is_linux_rt (fun b s' => b = false /\ s' = s) s;
  objects_read s ix sb d : inv s -> 0 <= ix < 65536 -> 0 <= sb < 256 ->
    obj s (ix, sb) = Some d -> 1 <= zlen d <= 4 ->
    total (port_ReadSdo slave ix sb (zlen d)) (fun r s' => exists buf,
      r = (ECAT_OK, Some (zlen d, buf)) /\ zlen d <= zlen buf /\ take (length d) buf = d
      /\ inv s' /\ forall k, obj s' k = obj s k) s;
  objects_write s ix sb data : inv s -> 0 <= ix < 65536 -> 0 <= sb < 256 ->
    is_Some (obj s (ix, sb)) -> 1 <= zlen data <= 4 ->
    total (port_WriteSdo slave ix sb data) (fun r s' =>
      r = ECAT_OK /\ inv s' /\ forall k, obj s' k = put (ix, sb) data (obj s) k) s;
  objects_sleep s ms : inv s -> total (port_Sleep ms) (fun _ s' => inv s' /\ forall k, obj s' k = obj s k) s;
}.

(** The objects of a drive the commands for positions use, with their sizes. *)
Definition servo_size (k : key) : option Z :=
  if negb (k.2 =? 0) then None
  else if bool_decide (k.1 ∈ [0x6040; 0x6041; 0x603f]) then Some 2
  else if bool_decide (k.1 ∈ [0x6060; 0x6061]) then Some 1
  else if bool_decide (k.1 ∈ [0x607a; 0x60ff; 0x6064; 0x606c; 0x6081; 0x6083; 0x6084]) then Some 4
  else None.
Definition servo_dict (f : objects) : Prop :=
  forall k n, servo_size k = Some n -> exists d, f k = Some d /\ zlen d = n /\ bytes_ok d.

Lemma servo_put f k n d : servo_dict f -> servo_size k = Some n -> zlen d = n -> bytes_ok d ->
  servo_dict (put k d f).
Proof.
  intros Hf Hk Hd Hb k' n' Hk'. unfold put. case_decide; [subst|by apply Hf]. exists d. split; [done|].
  split; congruence || done.
Qed.

Section Objects.
Context {S : Type} {slave : Z} {inv : S -> Prop} {obj : S -> objects} `{SdoObjects S slave inv obj}.
Implicit Types (s : S) (f : objects).

Definition holds f s : Prop := inv s /\ forall k, obj s k = f k.

Lemma wp_local (remote local : M S Z) Q s : inv s ->
  wp no_fault local Q s -> wp no_fault (on_linux_rt slave remote local) Q s.
Proof.
  intros Hi Hl. unfold on_linux_rt. pose proof objects_slave. destruct (Z.leb_spec slave 0); [lia|].
  apply wp_bind. eapply wp_mono; [by apply objects_local|]. by intros b s' [-> ->].
Qed.

Lemma wp_number f s ix sb d Q : holds f s -> 0 <= ix < 65536 -> 0 <= sb < 256 -> f (ix, sb) = Some d ->
  1 <= zlen d <= 4 -> (forall s', holds f s' -> Q (ECAT_OK, Some (of_le d)) s') ->
  wp no_fault (read_number (zlen d) slave ix sb) Q s.
Proof.
  intros [Hi Ho] Hix Hsb Hd Hn HQ. apply wp_bind.
  eapply wp_mono; [apply objects_read; [done.. | by rewrite Ho | done]|].
  intros r s' (buf & -> & Hl & Ht & Hi' & Ho'). cbn [negb Z.eqb orb ECAT_OK].
  destruct (Z.ltb_spec (zlen d) (zlen d)); [lia|]. apply wp_bind. eapply wp_of_opt.
  - apply zslice_some; unfold zlen in *; lia.
  - apply wp_ret. change (Z.to_nat 0) with 0%nat. rewrite drop_0. unfold zlen. rewrite Nat2Z.id, Ht.
    apply HQ. split; [done|]. intros k. by rewrite Ho'.
Qed.

(** Reading and writing the objects of a drive. *)
Lemma wp_u16 f s ix Q : holds f s -> servo_dict f -> servo_size (ix, 0) = Some 2 -> 0 <= ix < 65536 ->
  (forall s' v, holds f s' -> Q (ECAT_OK, Some v) s') ->
  wp no_fault (read_sdo_u16 slave ix 0) Q s.
Proof.
  intros Hs Hf Hk Hix HQ. destruct (Hf _ _ Hk) as (d & Hd & Hn & _). unfold read_sdo_u16. rewrite <- Hn.
  eapply wp_number; [done | done | done | done | lia|]. intros s' Hs'. by apply HQ.
Qed.
Lemma wp_u8 f s ix Q : holds f s -> servo_dict f -> servo_size (ix, 0) = Some 1 -> 0 <= ix < 65536 ->
  (forall s' v, holds f s' -> Q (ECAT_OK, Some v) s') ->
  wp no_fault (read_sdo_u8 slave ix 0) Q s.
Proof.
  intros Hs Hf Hk Hix HQ. destruct (Hf _ _ Hk) as (d & Hd & Hn & _). unfold read_sdo_u8. rewrite <- Hn.
  eapply wp_number; [done | done | done | done | lia|]. intros s' Hs'. by apply HQ.
Qed.
Lemma wp_i32 f s ix Q : holds f s -> servo_dict f -> servo_size (ix, 0) = Some 4 -> 0 <= ix < 65536 ->
  (forall s' d, holds f s' -> f (ix, 0) = Some d -> le_bytes 4 (u32 (s32 (of_le d))) = d ->
     Q (ECAT_OK, Some (s32 (of_le d))) s') ->
  wp no_fault (read_sdo_i32 slave ix 0) Q s.
Proof.
  intros Hs Hf Hk Hix HQ. destruct (Hf _ _ Hk) as (d & Hd & Hn & Hb). unfold read_sdo_i32. rewrite <- Hn.
  apply wp_bind. eapply wp_number; [done | done | done | done | lia|]. intros s' Hs'. apply wp_ret. cbn.
  apply (HQ s' d Hs' Hd). by apply le_bytes_i32.
Qed.

Lemma wp_write f s ix sb n data Q : holds f s -> servo_dict f -> servo_size (ix, sb) = Some n ->
  0 <= ix < 65536 -> 0 <= sb < 256 -> zlen data = n -> 1 <= n <= 4 ->
  (forall s', holds (put (ix, sb) data f) s' -> Q ECAT_OK s') ->
  wp no_fault (port_WriteSdo slave ix sb data) Q s.
Proof.
  intros [Hi Ho] Hf Hk Hix Hsb Hl Hn HQ. destruct (Hf _ _ Hk) as (d & Hd & _).
  eapply wp_mono; [apply objects_write; [done.. | rewrite Ho; by eexists | lia]|].
  intros r s' (-> & Hi' & Ho'). apply HQ. split; [done|]. intros k. rewrite Ho'. unfold put. case_decide; [done | apply Ho].
Qed.

Lemma wp_or_return (m k : M S Z) Q s :
  wp no_fault m (fun r s' => r = ECAT_OK /\ wp no_fault k Q s') s -> wp no_fault (or_return m k) Q s.
Proof. intros Hm. apply wp_bind. eapply wp_mono; [exact Hm|]. by intros r s' [-> Hk]. Qed.

Lemma wp_servo_sleep f s ms (k : M S Z) Q : holds f s -> (forall s', holds f s' -> wp no_fault k Q s') ->
  wp no_fault (do* port_Sleep ms in k) Q s.
Proof.
  intros [Hi Ho] Hk. apply wp_bind. eapply wp_mono; [by apply objects_sleep|].
  intros _ s' [Hi' Ho']. apply Hk. split; [done|]. intros k'. by rewrite Ho'.
Qed.

Lemma wp_servo_status f s Q : holds f s -> servo_dict f ->
  (forall s' v, holds f s' -> Q v s') -> wp no_fault (ECAT_ServoGetStatus slave) Q s.
Proof.
  intros Hs Hf HQ. unfold ECAT_ServoGetStatus. pose proof objects_slave. destruct (Z.leb_spec slave 0); [lia|].
  apply wp_bind. eapply wp_u16; [exact Hs | done | done | done|]. intros s1 v1 Hs1. cbn zeta.
  apply wp_bind. eapply wp_u16; [exact Hs1 | done | done | done|]. intros s2 v2 Hs2.
  apply wp_bind. eapply wp_u8; [exact Hs2 | done | done | done|]. intros s3 v3 Hs3.
  apply wp_bind. eapply wp_i32; [exact Hs3 | done | done | done|]. intros s4 v4 Hs4 _ _.
  apply wp_bind. eapply wp_i32; [exact Hs4 | done | done | done|]. intros s5 v5 Hs5 _ _.
  apply wp_bind. eapply wp_i32; [exact Hs5 | done | done | done|]. intros s6 v6 Hs6 _ _.
  apply wp_bind. eapply wp_i32; [exact Hs6 | done | done | done|]. intros s7 v7 Hs7 _ _.
  apply wp_bind. eapply wp_u16; [exact Hs7 | done | done | done|]. intros s8 v8 Hs8.
  apply wp_ret. by apply HQ.
Qed.
Lemma holds_ext f g s : holds f s -> (forall k, f k = g k) -> holds g s.
Proof. intros [Hi Ho] Hfg. split; [done|]. intros k. by rewrite Ho. Qed.

(** The control word. *)
Abbreviation cw := (0x6040, 0).
Lemma wp_controlword f s v Q : holds f s -> servo_dict f ->
  (forall s', holds (put cw (le_bytes 2 v) f) s' -> servo_dict (put cw (le_bytes 2 v) f) -> Q ECAT_OK s') ->
  wp no_fault (servo_write_controlword slave v) Q s.
Proof.
  intros Hs Hf HQ. eapply wp_write; [exact Hs | exact Hf | done | done | done | done | done |].
  intros s' Hs'. apply HQ; [done|]. by eapply servo_put; [| | | apply le_bytes_ok].
Qed.

(** Powering on sets the target position to the actual one. *)
Definition enabled (pos : list Z) f : objects := put cw (le_bytes 2 0x0f) (put (0x607a, 0) pos f).

Lemma wp_track f s pos (k : M S Z) Q : holds f s -> servo_dict f -> f (0x6064, 0) = Some pos ->
  (forall s', holds (put (0x607a, 0) pos f) s' -> servo_dict (put (0x607a, 0) pos f) -> wp no_fault k Q s') ->
  wp no_fault (let* _ := servo_track_actual_target_once slave in k) Q s.
Proof.
  intros Hs Hf Hpos Hk. apply wp_bind, wp_bind. eapply wp_i32; [exact Hs | done | done | done|].
  intros s1 d Hs1 Hd Hb. rewrite Hpos in Hd. injection Hd as <-. unfold write_sdo_i32, write_sdo_u32. rewrite Hb.
  destruct (Hf (0x6064, 0) 4 eq_refl) as (d & Hd & Hn & Hok). rewrite Hpos in Hd. injection Hd as <-.
  eapply wp_write; [exact Hs1 | done | done | done | done | done | done |].
  intros s2 Hs2. apply Hk; [done|]. by eapply servo_put.
Qed.

Lemma wp_enable f s pos Q : holds f s -> servo_dict f -> f (0x6064, 0) = Some pos ->
  (forall s', holds (enabled pos f) s' -> servo_dict (enabled pos f) -> Q ECAT_OK s') ->
  wp no_fault (ECAT_ServoEnable slave) Q s.
Proof.
  intros Hs Hf Hpos HQ. apply wp_local; [apply Hs|].
  apply wp_bind. eapply wp_servo_status; [exact Hs | done|]. intros s1 v Hs1. cbn zeta.
  assert (Hok : servo_dict (enabled pos f)).
  { destruct (Hf (0x6064, 0) 4 eq_refl) as (d & Hd & Hn & Hok). rewrite Hpos in Hd. injection Hd as <-.
    eapply servo_put; [by eapply servo_put | done | done | apply le_bytes_ok]. }
  set (enable := let* _ := servo_track_actual_target_once slave in _).
  assert (Hen : forall f' s', holds f' s' -> servo_dict f' -> (forall k, k <> cw -> f' k = f k) ->
    wp no_fault enable Q s').
  { intros f' s' Hs' Hf' Hsame. eapply wp_track; [exact Hs' | done | by rewrite Hsame|]. intros s2 Hs2 Hf2.
    apply wp_or_return. eapply wp_controlword; [exact Hs2 | done|]. intros s3 Hs3 Hf3. split; [done|].
    eapply wp_servo_sleep; [exact Hs3|]. clear s3 Hs3. intros s3 Hs3.
    apply wp_or_return. eapply wp_controlword; [exact Hs3 | done|]. intros s4 Hs4 Hf4. split; [done|].
    eapply wp_servo_sleep; [exact Hs4|]. clear s4 Hs4. intros s4 Hs4.
    eapply wp_controlword; [exact Hs4 | done|]. intros s5 Hs5 _. apply HQ; [|done].
    eapply holds_ext; [exact Hs5|]. intros k. unfold enabled, put. repeat case_decide; try done. by apply Hsame. }
  destruct (_ && _); [|by eapply Hen].
  apply wp_or_return, wp_local; [apply Hs1|].
  apply wp_or_return. eapply wp_controlword; [exact Hs1 | done|]. intros s2 Hs2 Hf2. split; [done|].
  eapply wp_servo_sleep; [exact Hs2|]. clear s2 Hs2. intros s2 Hs2.
  eapply wp_controlword; [exact Hs2 | done|]. intros s3 Hs3 Hf3. split; [done|].
  eapply wp_servo_sleep; [exact Hs3|]. clear s3 Hs3. intros s3 Hs3.
  eapply Hen; [exact Hs3 | done|]. intros k Hk. unfold put. by repeat case_decide.
Qed.

(** Parameters that are left as they are when they are zero. *)
Definition put_positive (ix v : Z) f : objects := if 0 <? v then put (ix, 0) (le_bytes 4 v) f else f.
Lemma wp_positive f s ix v (k : M S Z) Q : holds f s -> servo_dict f ->
  servo_size (ix, 0) = Some 4 -> 0 <= ix < 65536 ->
  (forall s', holds (put_positive ix v f) s' -> servo_dict (put_positive ix v f) -> wp no_fault k Q s') ->
  wp no_fault (write_positive slave ix 0 v k) Q s.
Proof.
  intros Hs Hf Hk Hix HQ. unfold write_positive, put_positive in *. destruct (0 <? v); [|by apply HQ].
  apply wp_or_return. eapply wp_write; [exact Hs | exact Hf | done | done | done | done | done |].
  intros s' Hs'. split; [done|]. apply HQ; [done|]. by eapply servo_put; [| | | apply le_bytes_ok].
Qed.

(** The dictionary after a command for an absolute position. *)
Definition moved (pos : list Z) (velocity acceleration deceleration : Z) f : objects :=
  enabled pos (put_positive 0x6084 deceleration (put_positive 0x6083 acceleration
    (put_positive 0x6081 velocity (put (0x6060, 0) [CIA402_MODE_PROFILE_POSITION] f)))).
End Objects.

(** C22: The command for an absolute position commands the actual position.  On a drive that
    keeps its objects [ECAT_ServoMoveAbs] succeeds, sets the mode, the speeds that are not
    zero and the control word, and leaves every other object alone, except the target
    position: whatever target is asked for, it ends as the actual position of the drive,
    because powering on overwrites it. *)
Theorem move_abs_commands_actual_position {S} {slave : Z} {inv : S -> Prop} {obj : S -> objects}
    `{SdoObjects S slave inv obj} (target_position velocity acceleration deceleration : Z)
    (f : objects) (pos : list Z) (s : S) :
  holds (inv := inv) (obj := obj) f s -> servo_dict f -> f (0x6064, 0) = Some pos ->
  total (ECAT_ServoMoveAbs slave target_position velocity acceleration deceleration)
    (fun r s' => r = ECAT_OK /\ holds (inv := inv) (obj := obj) (moved pos velocity acceleration deceleration f) s') s.
Proof.
  intros Hs Hf Hpos. apply wp_local; [apply Hs|].
  apply wp_or_return, wp_local; [apply Hs|].
  eapply wp_write; [exact Hs | exact Hf | done | done | done | done | done |]. intros s1 Hs1. split; [done|].
  assert (Hf1 : servo_dict (put (0x6060, 0) [CIA402_MODE_PROFILE_POSITION] f)).
  { eapply servo_put; [done | done | done |]. by repeat constructor. }
  eapply wp_positive; [exact Hs1 | done | done | done|]. intros s2 Hs2 Hf2.
  eapply wp_positive; [exact Hs2 | done | done | done|]. intros s3 Hs3 Hf3.
  eapply wp_positive; [exact Hs3 | done | done | done|]. intros s4 Hs4 Hf4.
  apply wp_or_return. eapply wp_write; [exact Hs4 | exact Hf4 | done | done | done | done | done |].
  intros s5 Hs5. split; [done|]. set (f5 := put _ _ _) in Hs5.
  assert (Hf5 : servo_dict f5) by (by eapply servo_put; [| | | apply le_bytes_ok]).
  apply wp_or_return. eapply wp_enable; [exact Hs5 | done | |].
  { unfold f5, put_positive. repeat case_match; done. }
  intros s6 Hs6 Hf6. split; [done|].
  apply wp_or_return. eapply wp_controlword; [exact Hs6 | done|]. intros s7 Hs7 Hf7. split; [done|].
  eapply wp_servo_sleep; [exact Hs7|]. clear s7 Hs7. intros s7 Hs7.
  eapply wp_controlword; [exact Hs7 | done|]. intros s8 Hs8 _. split; [done|].
  eapply holds_ext; [exact Hs8|]. intros k. unfold moved, enabled, f5, put. by repeat case_decide.
Qed.


(** ** The library on its own bus *)

(** A slave of the bus serves its dictionary; nothing but time passes while the library
    sleeps. *)
Class SleepsOnly (D : Type) `{DllOs (maildev D)} : Prop :=
  sleep_only : forall ms w, exists now, os_Sleep ms w = Ok (tt, w <| md_now := now |>).

Section Library.
Context {F : Type} `{Num F} `{DoubleLayout F} {W : Type} (sk : socket W) (adr wo ro rl : Z) `{LoopFuel}.
#[local] Instance the_slave : MailServer sdo_server := sdo_slave adr wo ro rl.
Context `{DllOs (maildev sdo_server)} `{!SleepsOnly sdo_server}.
Context (db_find_match : Z -> Z -> Z -> option (String.string * String.string)) (reply_junk : list Z) (junk : Z).
Abbreviation ctx := (ecx_contextt (maildev sdo_server)).
Abbreviation core := (dll F (maildev sdo_server) W).
Context (slave : Z) (sl : ec_slavet) (c0 : ctx).
Context (Hserved : served sl) (Hhook : EOEhook c0 = None) (Hfuel : (16 < loop_fuel)%nat).
Context (Hml : 16 <= mbx_l sl) (Hrl : mbx_rl sl = rl) (Hrl16 : 16 <= rl).
Context (Hslave : 0 < slave < 65536) (Hcount : slave <= slavecount c0) (Hlist : slave < zlen (slavelist c0)).
#[local] Set Default Proof Using "Type*".

#[local] Instance library_port : ServoPort core :=
  dll_port sk db_find_match reply_junk junk.

Record on_bus_ready (d : core) : Prop := OnBusReady {
  ready_backend : d_backend_type d = ECAT_BACKEND_WINDOWS_DEBUG;
  ready_worker : cl_worker_running (d_client d) = true;
  ready_bus : exists v, mheld slave sl c0 v None [] [] 2 (d_bus d);
}.
Definition dictionary (d : core) : objects := fun k => sv_objects (md_state (link (d_bus d))) !! (false, k.1, k.2).

Lemma mheld_count v own kept n (c : ctx) : mheld slave sl c0 v None own kept n c -> slavecount c = slavecount c0.
Proof. by intros (q1 & q2 & B & (now & p & k & -> & _) & _). Qed.

Lemma mheld_is v own kept n (c : ctx) : mheld slave sl c0 v None own kept n c -> md_state (link c) = v.
Proof. by intros (q1 & q2 & B & (now & p & k & -> & _) & _). Qed.
Lemma mheld_later v own kept n (c : ctx) now : mheld slave sl c0 v None own kept n c ->
  mheld slave sl c0 v None own kept n (c <| link := (link c) <| md_now := now |> |>).
Proof.
  intros (q1 & q2 & B & (now' & p & k & -> & Hp) & Hrest). exists q1, q2, B. split; [|done].
  exists now, p, k. by split.
Qed.

Lemma library_objects : SdoObjects core slave on_bus_ready dictionary.
Proof.
  constructor.
  - lia.
  - intros d [Hb _ _]. apply wp_gets. by rewrite Hb.
  - intros d ix sb v [Hb Hw [sv Hm]] Hix Hsb Hd Hn.
    pose proof (mheld_count _ _ _ _ _ Hm) as Hc. pose proof Hd as Hobj. unfold dictionary in Hobj.
    cbn [fst snd] in Hobj. rewrite (mheld_is _ _ _ _ _ Hm) in Hobj.
    apply wp_bind, wp_gets. rewrite Hb. cbn [Z.eqb ECAT_BACKEND_WINDOWS_DEBUG ECAT_BACKEND_LINUX_RT].
    destruct (Z.leb_spec (zlen v) 0); [lia|]. destruct (Z.leb_spec slave 0); [lia|]. cbn [orb].
    apply wp_bind, wp_gets. rewrite Hw. cbn [negb]. apply wp_bind, wp_gets. rewrite Hc.
    destruct (Z.ltb_spec (slavecount c0) slave); [lia|]. cbn zeta.
    apply wp_bind, wp_zoom. rewrite u16_id by lia.
    set (buf := replicate _ 0). assert (Hbl : zlen buf = zlen v) by (unfold buf, zlen; rewrite length_replicate; lia).
    eapply (wp_sdo_read adr wo ro rl slave sl c0) with (val := v) (sub := sb) (objs := sv_objects sv);
      try done; try lia; try exact Hm; [unfold zlen in *; lia|].
    intros p' sv' c' Hm' Hsame Hl Ht. apply wp_ret. exists p'. rewrite Hl, Hbl. unfold zlen in Ht. rewrite Nat2Z.id in Ht.
    split_and!; [done | done | done | by split; [..|by eexists] |].
    intros k. unfold dictionary. cbn. rewrite (mheld_is _ _ _ _ _ Hm').
    rewrite (mheld_is _ _ _ _ _ Hm). by rewrite Hsame.
  - intros d ix sb data [Hb Hw [sv Hm]] Hix Hsb Hd Hn.
    pose proof (mheld_count _ _ _ _ _ Hm) as Hc. unfold dictionary in Hd.
    cbn [fst snd] in Hd. rewrite (mheld_is _ _ _ _ _ Hm) in Hd.
    apply wp_bind, wp_gets. rewrite Hb. cbn [Z.eqb ECAT_BACKEND_WINDOWS_DEBUG ECAT_BACKEND_LINUX_RT].
    destruct (Z.leb_spec (zlen data) 0); [lia|]. destruct (Z.leb_spec slave 0); [lia|]. cbn [orb].
    apply wp_bind, wp_gets. rewrite Hw. cbn [negb]. apply wp_bind, wp_gets. rewrite Hc.
    destruct (Z.ltb_spec (slavecount c0) slave); [lia|]. apply wp_bind, wp_zoom. rewrite u16_id by lia.
    eapply (wp_sdo_write adr wo ro rl slave sl c0) with (objs := sv_objects sv) (sub := sb);
      try done; try lia; try exact Hm.
    intros sv' c' Hm' Hhas. apply wp_ret. split; [done|]. split; [by split; [..|by eexists]|].
    intros k. unfold dictionary, put. cbn. rewrite (mheld_is _ _ _ _ _ Hm').
    rewrite (mheld_is _ _ _ _ _ Hm). unfold has in Hhas. rewrite Z.eqb_refl in Hhas.
    rewrite Hhas. unfold zlen. rewrite Nat2Z.id, firstn_all. case_decide as Hk.
    + subst k. apply lookup_insert_eq.
    + rewrite lookup_insert_ne; [done|]. intros [= -> ->]. by destruct k.
  - intros d ms [Hb Hw [sv Hm]]. cbn. unfold on_os, on_bus, onlink. apply wp_zoom, wp_zoom.
    unfold wp. destruct (sleep_only ms (link (d_bus d))) as [now ->]. split; [|done].
    split; [done..|]. exists sv. by apply mheld_later.
Qed.
End Library.

(** ** A witness: a drive at position 100 that is sent to 5000 *)

#[local] Instance fuel_servo : LoopFuel := 20%nat.
#[local] Instance servo_at : MailServer sdo_server := sdo_slave 0x1001 0x1000 0x1400 128.
#[local] Instance no_double : DoubleLayout SpecFloat.spec_float := {
  double_bytes _ := replicate 8 0;
  parse_double _ := n_of_Z 0;
}.
#[local] Instance quiet_os : DllOs (maildev sdo_server) := {
  os_setupnic _ := ret 1;
  os_closenic := ret tt;
  os_counter := gets md_now;
  os_frequency := 1000000000;
  os_Sleep ms := modify (fun w => w <| md_now ::= Z.add (ms * 1000000) |>);
  os_thread := true;
  os_thread_ends := true;
}.
#[local] Instance quiet_sleeps : SleepsOnly sdo_server.
Proof. intros ms w. by eexists. Qed.

Definition servo_objects : gmap object (list Z) :=
  list_to_map (map (fun '(ix, d) => ((false, ix, 0), d))
    [(0x6040, [0; 0]); (0x6041, [0x50; 0x02]); (0x603f, [0; 0]); (0x6060, [0]); (0x6061, [0]);
     (0x607a, [0; 0; 0; 0]); (0x60ff, [0; 0; 0; 0]); (0x6064, [100; 0; 0; 0]); (0x606c, [0; 0; 0; 0]);
     (0x6081, [0; 0; 0; 0]); (0x6083, [0; 0; 0; 0]); (0x6084, [0; 0; 0; 0])]).
Definition servo_ctx : ecx_contextt (maildev sdo_server) :=
  (ctx0 (MailDev (SdoServer servo_objects [] None 0) None 0)) <| mbxpool := pool_two |>.
Definition servo_dll : dll SpecFloat.spec_float (maildev sdo_server) unit :=
  MkDll tt (RtClient false 0 true true CIA402_PROFILE_TRAPEZOIDAL (n_of_Z 0) runtime_status_zero [])
    servo_ctx false true false String.EmptyString 0 1000 ECAT_BACKEND_WINDOWS_DEBUG String.EmptyString 0.
Definition no_socket : socket unit := Socket (fun _ => ret 0) (fun _ => ret (0, [])).
Definition servo_port : ServoPort (dll SpecFloat.spec_float (maildev sdo_server) unit) :=
  library_port no_socket 0x1001 0x1000 0x1400 128 (fun _ _ _ => None) [] 0.

Lemma servo_objects_dict k n : servo_size k = Some n ->
  exists d, dictionary servo_dll k = Some d /\ zlen d = n /\ bytes_ok d.
Proof.
  destruct k as [ix sb]. unfold servo_size. cbn [fst snd]. destruct (Z.eqb_spec sb 0); [subst|done]. cbn [negb].
  repeat case_bool_decide; intros [= <-];
    match goal with Hix : ix ∈ _ |- _ => set_unfold in Hix; destruct_or! Hix; subst ix end;
    eexists; (split; [vm_compute; reflexivity|]); (split; [done | by repeat constructor]).
Qed.

Lemma servo_ready : on_bus_ready 1 slave0 servo_ctx servo_dll.
Proof.
  split; [done..|]. eexists. eapply mheld_start; try done; [apply Nat.ltb_lt; reflexivity | exact pool_two_wf].
Qed.

Lemma move_abs_commands_actual_position_witness :
  let _ := servo_port in
  total (ECAT_ServoMoveAbs 1 5000 300 0 0) (fun r d => r = ECAT_OK
      /\ dictionary d (0x607a, 0) = Some [100; 0; 0; 0] /\ dictionary d (0x6081, 0) = Some (le_bytes 4 300)
      /\ dictionary d (0x6040, 0) = Some [0x0f; 0]) servo_dll.
Proof.
  cbv zeta.
  pose proof (library_objects (F := SpecFloat.spec_float) no_socket 0x1001 0x1000 0x1400 128 (fun _ _ _ => None) [] 0
    1 slave0 servo_ctx) as Hlib.
  specialize (Hlib ltac:(split_and!; done) eq_refl ltac:(apply Nat.ltb_lt; reflexivity) ltac:(done) eq_refl ltac:(done)
    ltac:(done) ltac:(done) ltac:(done)).
  eapply wp_mono; [apply (move_abs_commands_actual_position (slave := 1) (obj := dictionary)
    (inv := on_bus_ready 1 slave0 servo_ctx) 5000 300 0 0
    (dictionary servo_dll) [100; 0; 0; 0])|].
  - split; [exact servo_ready | done].
  - exact servo_objects_dict.
  - vm_compute. reflexivity.
  - intros r d (-> & _ & Hd). rewrite !Hd. split_and!; vm_compute; reflexivity.
Defined.
