(* ===== verification/CommandTheorems.v ===== *)
(** * Commands over the connection

    The layout of commands and of the status is read as it is written, so a command of the
    library is carried out by the server as it was given, and the library then shows the
    status of the server. *)

From Stdlib Require Import String Ascii.
From S2P Require Import Prelude Num Types Cia402 Profile Backend RtCycle BackendSys Wire Server Client WireTheorems.
Import stdpp.list_relations.list stdpp.list_basics.list.

(** ** Texts *)

(** A text of fewer than [n] characters, none of them the end mark. *)
Definition text_ok (n : nat) (s : string) : Prop := (length (text_bytes s) < n)%nat /\ Forall (fun c => 0 < c < 256) (text_bytes s).

Lemma text_field_length n s : text_ok n s -> length (text_field n s) = n.
Proof. intros [Hl _]. unfold text_field. rewrite length_app, length_replicate. lia. Qed.

Lemma c_text_bytes s r : Forall (fun c => 0 < c < 256) (text_bytes s) -> c_text (text_bytes s ++ 0 :: r) = s.
Proof.
  unfold text_bytes. induction s as [|a s IH]; [done|]. cbn. intros [Ha Hs]%Forall_cons.
  destruct (Z.eqb_spec (Z.of_nat (nat_of_ascii a)) 0); [lia|]. rewrite IH by done.
  by rewrite Nat2Z.id, ascii_nat_embedding.
Qed.
Lemma c_text_field n s : text_ok n s -> c_text (text_field n s) = s.
Proof.
  intros [Hl Hc]. unfold text_field. destruct (n - length (text_bytes s))%nat as [|k] eqn:Hk; [lia|].
  cbn [replicate]. by apply c_text_bytes.
Qed.

(** ** Fields behind others *)

Lemma take_here {A} n (a l : list A) : length a = n -> take n (a ++ l) = a.
Proof. intros <-. apply take_app_length. Qed.

(** The fields of a structure whose pieces have known lengths. *)
Lemma piece_at {A} (ps : list (list A)) k p : ps !! k = Some p ->
  take (length p) (drop (length (concat (take k ps))) (concat ps)) = p.
Proof.
  intros Hk. rewrite <- (take_drop_middle _ _ _ Hk) at 2. rewrite concat_app. rewrite drop_app_length.
  cbn [concat]. apply take_app_length.
Qed.
(** [piece ps k lens]: the field that is piece [k] of the structure [concat ps]. *)
Ltac piece ps k lens := let E := fresh "E" in
  pose proof (piece_at ps k _ eq_refl) as E; unfold ps at 1 in E; cbn [firstn concat] in E;
  revert E; rewrite ?length_app; lens; cbn [length Nat.add]; intros E; rewrite ?E; clear E.
Ltac pieces_from ps k n lens :=
  match n with
  | O => idtac
  | S ?n => piece ps k lens; let k' := eval cbv in (S k) in pieces_from ps k' n lens
  end.

Ltac each := repeat match goal with H : Forall _ (_ :: _) |- _ => apply Forall_cons in H as [? H] end.

Lemma s64_mod z : - 2 ^ 63 <= z < 2 ^ 63 -> s64 (z mod 256 ^ Z.of_nat 8) = z.
Proof.
  intros Hz. change (256 ^ Z.of_nat 8) with (2 ^ 64). unfold s64. rewrite Zplus_mod_idemp_l, Z.mod_small; lia.
Qed.

Lemma s8_mod z : - 2 ^ 7 <= z < 2 ^ 7 -> s8 (z mod 256 ^ Z.of_nat 1) = z.
Proof.
  intros Hz. change (256 ^ Z.of_nat 1) with (2 ^ 8). unfold s8. rewrite Zplus_mod_idemp_l, Z.mod_small; lia.
Qed.

(** ** Commands *)

Definition i32_ok (z : Z) : Prop := - 2 ^ 31 <= z < 2 ^ 31.
Definition u32_ok (z : Z) : Prop := 0 <= z < 2 ^ 32.
Definition u16_ok (z : Z) : Prop := 0 <= z < 2 ^ 16.

Record command_ok (c : ECAT_NetCommand) : Prop := CommandOk {
  ok_signed : Forall i32_ok [nc_command c; nc_slave_index c; nc_target_position c; nc_target_velocity c;
                nc_mode c; nc_homing_method c; nc_profile_type c; nc_jerk_ratio_permille c];
  ok_unsigned : Forall u32_ok [nc_velocity c; nc_acceleration c; nc_deceleration c; nc_search_speed c;
                  nc_latch_speed c; nc_command_flags c];
}.

Lemma command_roundtrip c tail : command_ok c -> parse_command (command_bytes c ++ tail) = c.
Proof.
  intros [Hs Hu]. each.
  set (ps := map (le_bytes 4) (command_words c) ++ [tail]).
  assert (E : command_bytes c ++ tail = concat ps).
  { unfold ps. rewrite concat_app. cbn [concat]. by rewrite app_nil_r. }
  unfold command_words in ps. cbn [map app] in ps. unfold parse_command, field. rewrite E. clear E.
  cbn [Nat.mul Nat.add]. pieces_from ps 0%nat 14%nat ltac:(rewrite ?length_le_bytes). rewrite !of_le_le_bytes.
  rewrite !s32_mod by done. change (256 ^ Z.of_nat 4) with (2 ^ 32). rewrite !Z.mod_small by done. by destruct c.
Qed.
Lemma command_length c : zlen (command_bytes c) = 56.
Proof. done. Qed.

(** ** The status *)

Record slave_ok (s : ECAT_NetSlaveStatus) : Prop := SlaveOk {
  sl_signed : Forall i32_ok [ss_index s; ss_has_dc s; ss_is_lost s; ss_actual_position s; ss_actual_velocity s;
                ss_output_size s; ss_input_size s];
  sl_unsigned : Forall u32_ok [ss_vendor_id s; ss_product_code s; ss_revision s; ss_serial s; ss_output_bytes s;
                  ss_input_bytes s];
  sl_words : Forall u16_ok [ss_state s; ss_al_status s; ss_statusword s; ss_controlword s];
  sl_mode : - 2 ^ 7 <= ss_mode_display s < 2 ^ 7;
  sl_name : text_ok ECAT_NET_MAX_NAME (ss_name s);
  sl_outputs : length (ss_outputs s) = 64%nat;
  sl_inputs : length (ss_inputs s) = 64%nat;
}.

Lemma slave_status_length s : slave_ok s -> length (slave_status_bytes s) = slave_status_size.
Proof.
  intros Hs. unfold slave_status_bytes. rewrite !length_app, (text_field_length _ _ (sl_name _ Hs)).
  rewrite !length_le_bytes, (sl_outputs _ Hs), (sl_inputs _ Hs). done.
Qed.

Lemma slave_status_roundtrip s : slave_ok s -> parse_slave_status (slave_status_bytes s) = s.
Proof.
  intros [Hs Hu Hw Hm Hn Ho Hi]. each.
  pose proof (text_field_length _ _ Hn) as Hl. unfold ECAT_NET_MAX_NAME in *.
  unfold parse_slave_status, field. cbn zeta.
  set (name := text_field 64 (ss_name s)) in *.
  set (ps := [le_bytes 4 (ss_index s); name; le_bytes 2 (ss_state s); le_bytes 2 (ss_al_status s);
    le_bytes 4 (ss_vendor_id s); le_bytes 4 (ss_product_code s); le_bytes 4 (ss_revision s);
    le_bytes 4 (ss_serial s); le_bytes 4 (ss_output_bytes s); le_bytes 4 (ss_input_bytes s);
    le_bytes 4 (ss_has_dc s); le_bytes 4 (ss_is_lost s); le_bytes 2 (ss_statusword s);
    le_bytes 2 (ss_controlword s); le_bytes 1 (ss_mode_display s); le_bytes 3 0;
    le_bytes 4 (ss_actual_position s); le_bytes 4 (ss_actual_velocity s); le_bytes 4 (ss_output_size s);
    le_bytes 4 (ss_input_size s); ss_outputs s; ss_inputs s]).
  assert (E : slave_status_bytes s = concat ps) by (cbn [concat ps]; by rewrite app_nil_r).
  rewrite E. clear E. pieces_from ps 0%nat 22%nat ltac:(rewrite ?length_le_bytes, ?Hl, ?Ho, ?Hi).
  rewrite !of_le_le_bytes, !s32_mod, s8_mod by done.
  change (256 ^ Z.of_nat 4) with (2 ^ 32). change (256 ^ Z.of_nat 2) with (2 ^ 16).
  rewrite !Z.mod_small by done. unfold name. rewrite c_text_field by done. by destruct s.
Qed.

Section Status.
Context {F : Type} `{Num F} `{DoubleLayout F}.
Implicit Types s : ECAT_NetRuntimeStatus F.

(** Both ends lay out a [double] in the same eight bytes. *)
Definition double_ok (x : F) : Prop := length (double_bytes x) = 8%nat /\ parse_double (double_bytes x) = x.

Record runtime_ok s : Prop := RuntimeOk {
  rs_signed : Forall i32_ok [connected s; operational s; ns_slave_count s; ns_expected_wkc s; last_wkc s;
                total_cycles s; ns_wkc_errors s; ns_state_errors s; cycle_us s; min_cycle_us s; max_cycle_us s;
                ns_period_us s];
  rs_double : double_ok (avg_cycle_us s);
  rs_time : - 2 ^ 63 <= dc_time_ns s < 2 ^ 63;
  rs_state : text_ok ECAT_NET_MAX_TEXT (state_text s);
  rs_error : text_ok ECAT_NET_MAX_TEXT (last_error s);
  rs_crc : text_ok ECAT_NET_MAX_TEXT (crc_status s);
}.

Lemma runtime_status_length s : runtime_ok s -> length (runtime_status_bytes s) = runtime_status_size.
Proof.
  intros [_ [Hd _] _ Ht He Hc]. unfold runtime_status_bytes.
  rewrite !length_app, (text_field_length _ _ Ht), (text_field_length _ _ He), (text_field_length _ _ Hc), Hd.
  by rewrite !length_le_bytes.
Qed.

Lemma runtime_status_roundtrip s : runtime_ok s -> parse_runtime_status (runtime_status_bytes s) = s.
Proof.
  intros [Hs [Hd Hp] Ht Hst He Hc]. each.
  pose proof (text_field_length _ _ Hst) as Hl1. pose proof (text_field_length _ _ He) as Hl2.
  pose proof (text_field_length _ _ Hc) as Hl3. unfold ECAT_NET_MAX_TEXT in *.
  unfold parse_runtime_status, field. cbn zeta.
  set (t1 := text_field 256 (state_text s)) in *. set (t2 := text_field 256 (last_error s)) in *.
  set (t3 := text_field 256 (crc_status s)) in *.
  set (ps := [le_bytes 4 (connected s); le_bytes 4 (operational s); le_bytes 4 (ns_slave_count s);
    le_bytes 4 (ns_expected_wkc s); le_bytes 4 (last_wkc s); le_bytes 4 (total_cycles s);
    le_bytes 4 (ns_wkc_errors s); le_bytes 4 (ns_state_errors s); le_bytes 4 (cycle_us s);
    le_bytes 4 (min_cycle_us s); le_bytes 4 (max_cycle_us s); le_bytes 4 0; double_bytes (avg_cycle_us s);
    le_bytes 4 (ns_period_us s); le_bytes 4 0; le_bytes 8 (dc_time_ns s); t1; t2; t3]).
  assert (E : runtime_status_bytes s = concat ps) by (cbn [concat ps]; by rewrite app_nil_r).
  rewrite E. clear E. pieces_from ps 0%nat 19%nat ltac:(rewrite ?length_le_bytes, ?Hl1, ?Hl2, ?Hl3, ?Hd).
  rewrite !of_le_le_bytes, !s32_mod, s64_mod by done. rewrite Hp.
  unfold t1, t2, t3. rewrite !c_text_field by done. by destruct s.
Qed.

Record status_ok (st : ECAT_NetStatus F) : Prop := StatusOk {
  so_runtime : runtime_ok (st_runtime st);
  so_slaves : Forall slave_ok (st_slaves st);
  so_count : length (st_slaves st) = Z.to_nat ECAT_NET_MAX_SLAVES;
}.

Lemma slaves_length l : Forall slave_ok l -> length (concat (map slave_status_bytes l)) = (length l * slave_status_size)%nat.
Proof.
  induction 1 as [|s l Hs Hl IH]; [done|]. cbn [map concat length]. by rewrite length_app, slave_status_length, IH.
Qed.
Lemma slaves_roundtrip l : Forall slave_ok l -> parse_slaves (length l) (concat (map slave_status_bytes l)) = l.
Proof.
  induction 1 as [|s l Hs Hl IH]; [done|]. cbn [map concat length parse_slaves].
  rewrite take_here by (by apply slave_status_length). rewrite slave_status_roundtrip by done.
  rewrite drop_app_length' by (symmetry; by apply slave_status_length). by rewrite IH.
Qed.

Lemma status_length st : status_ok st -> zlen (status_bytes st) = status_size.
Proof.
  intros [Hr Hs Hn]. unfold status_bytes, zlen. rewrite length_app, runtime_status_length, slaves_length, Hn by done. done.
Qed.
Lemma status_roundtrip st : status_ok st -> parse_status (status_bytes st) = st.
Proof.
  intros [Hr Hs Hn]. unfold parse_status, status_bytes.
  rewrite take_here by (by apply runtime_status_length). rewrite runtime_status_roundtrip by done.
  rewrite drop_app_length' by (symmetry; by apply runtime_status_length). rewrite <- Hn, slaves_roundtrip by done. by destruct st.
Qed.
End Status.

(** ** A command through the connection *)

Section Command.
Context {F : Type} `{Num F} `{DoubleLayout F} {W : Type}.
Implicit Types (w : W) (rt : BackendRuntime F) (c : rt_client F).
Context (ck sv : socket W) (up down : W -> list Z)
  (Hup : sends ck up (fun w w' => down w' = down w)) (Hdown : receives ck down (fun w w' => up w' = up w))
  (Hsv_send : sends sv down (fun w w' => up w' = up w)) (Hsv_recv : receives sv up (fun w w' => down w' = down w)).
Context (now : Z) (db : Z -> Z -> Z -> option (string * string)).
Abbreviation server := (with_server ck sv up down now).

(** What the server makes of a command, and what the library then keeps. *)
Definition commanded_server (nc : ECAT_NetCommand) rt : BackendRuntime F :=
  (runtime_apply_command nc (runtime_mark_client_message now rt)) <| br_response_sequence ::= (fun n => u32 (n + 1)) |>.
Definition informed (rt : BackendRuntime F) c : rt_client F :=
  rt_apply_status_locked db (br_status rt) (c <| cl_sequence ::= (fun n => u32 (n + 1)) |>).

Lemma message_command h nc : h_type h = ECAT_NET_MSG_COMMAND -> command_ok nc ->
  message_of h (command_bytes nc) = MsgCommand nc.
Proof using Type. intros Ht Hc. unfold message_of, payload_buffer. by rewrite Ht, command_roundtrip. Qed.

Lemma wp_remote_command nc w rt c Q : command_ok nc -> status_ok (br_status (commanded_server nc rt)) ->
  up w = [] -> down w = [] -> cl_connected c = true ->
  (forall w', up w' = [] -> down w' = [] ->
     Q ECAT_OK ((w', commanded_server nc rt), informed (commanded_server nc rt) c)) ->
  total (rt_send_command_locked server db nc) Q ((w, rt), c).
Proof using Hup Hdown Hsv_recv Hsv_send.
  intros Hnc Hst Hu Hd Hopen HQ.
  apply wp_bind, (wp_request ck sv up down Hup now); [done..|]. intros w1 c1 Hu1 Hd1. cbn [negb Z.eqb ECAT_OK].
  assert (Hseq : 0 <= cl_sequence c1 < 2 ^ 32) by apply u32_range.
  pose proof (status_length _ Hst) as Hlen.
  apply wp_bind. eapply (wp_response ck sv up down Hdown Hsv_send Hsv_recv now ECAT_NET_MSG_COMMAND (cl_sequence c1) (command_bytes nc));
    [done | exact Hseq | done | exact Hu1 | congruence | done | | | |].
  all: rewrite message_command by done; cbn [handle_message count_answer answer_of fst snd].
  all: change (runtime_get_status ?r) with (br_status r); fold (commanded_server nc rt).
  - done.
  - unfold commanded_server. cbn. apply u32_range.
  - rewrite Hlen. done.
  - intros w2 Hu2 Hd2. cbn [h_type]. rewrite Z.eqb_refl. apply wp_bind, wp_modify. cbn [fst snd]. apply wp_ret.
    replace (Z.to_nat status_size - length (status_bytes _))%nat with 0%nat by (unfold zlen in Hlen; lia).
    rewrite app_nil_r, status_roundtrip by done. by apply HQ.
Qed.
End Command.

(** C13: A command of the library is carried out by the server as it was given.  Over a
    connection that cuts the stream of bytes wherever it likes, every motion command the
    library builds, with the profile and the jerk ratio it has been set to, is applied to the
    server with the same numbers, once, marks the client as alive, and brings back the status
    of the server as it then is, text by text and number by number; no byte is left on the
    connection. *)
Theorem remote_command_refines_local {F} `{Num F} `{DoubleLayout F} {W} (ck sv : socket W) (up down : W -> list Z)
    (now : Z) (db : Z -> Z -> Z -> option (string * string))
    (type slave_index target_position target_velocity velocity acceleration deceleration mode homing_method
     search_speed latch_speed : Z) (nc : ECAT_NetCommand) (w : W) (rt : BackendRuntime F) (c : rt_client F) :
  sends ck up (fun w w' => down w' = down w) -> receives ck down (fun w w' => up w' = up w) ->
  sends sv down (fun w w' => up w' = up w) -> receives sv up (fun w w' => down w' = down w) ->
  motion_command type slave_index target_position target_velocity velocity acceleration deceleration mode
    homing_method search_speed latch_speed (cl_profile_type c) (cl_jerk_ratio c) = Some nc ->
  command_ok nc -> status_ok (br_status (commanded_server now nc rt)) ->
  up w = [] -> down w = [] -> cl_connected c = true ->
  total (rt_send_motion_command (with_server ck sv up down now) db type slave_index target_position target_velocity
           velocity acceleration deceleration mode homing_method search_speed latch_speed)
    (fun r s => r = ECAT_OK /\ s.1.2 = commanded_server now nc rt /\ s.2 = informed db (commanded_server now nc rt) c
       /\ up s.1.1 = [] /\ down s.1.1 = []) ((w, rt), c).
Proof.
  intros Hup Hdown Hsend Hrecv Hcmd Hnc Hst Hu Hd Hopen.
  apply wp_bind, wp_gets, wp_bind, wp_gets, wp_bind. eapply wp_of_opt; [exact Hcmd|].
  eapply (wp_remote_command ck sv up down Hup Hdown Hsend Hrecv now db); [done..|]. intros w' Hu' Hd'. split_and!; done.
Qed.

(** A move to 5000 and back its status, by the library of WireTheorems.v. *)
#[local] Instance zero_double : DoubleLayout SpecFloat.spec_float := {
  double_bytes _ := replicate 8 0;
  parse_double _ := n_of_Z 0;
}.
Definition remote_move : ECAT_NetCommand := NetCommand 20 1 5000 0 300 1000 1000 0 0 0 0 1 1 0.

Lemma text_ok_compute n s : (length (text_bytes s) <? n)%nat && forallb (fun c => (0 <? c) && (c <? 256)) (text_bytes s) = true ->
  text_ok n s.
Proof.
  intros [Hl Hc]%andb_prop. split; [by apply Nat.ltb_lt|]. apply Forall_forall. intros c Hin.
  rewrite forallb_forall in Hc. apply list_elem_of_In in Hin. apply Hc, andb_prop in Hin as [H1 H2].
  split; by apply Z.ltb_lt.
Qed.

Lemma remote_status_ok : status_ok (br_status (commanded_server 2000 remote_move remote_runtime)).
Proof.
  split.
  - split; first [by apply text_ok_compute | by repeat constructor | done].
  - change (st_slaves _) with (replicate (Z.to_nat ECAT_NET_MAX_SLAVES) slave_status_zero). apply Forall_replicate.
    split; first [by apply text_ok_compute | by repeat constructor | done].
  - done.
Qed.

Lemma remote_command_refines_local_witness :
  total (rt_send_motion_command (with_server library_end server_end n_up n_down 2000) (fun _ _ _ => None)
           20 1 5000 0 300 1000 1000 0 0 0 0) (fun r s => r = ECAT_OK
      /\ c_target_position (bc_motion (br_command s.1.2)) = 5000
      /\ state_text (cl_status s.2) = "IgH backend starting"%string)
    ((Net [] [] [3; 1; 7; 100; 2], remote_runtime), remote_client).
Proof.
  assert (Hcmd : motion_command 20 1 5000 0 300 1000 1000 0 0 0 0 (cl_profile_type remote_client)
    (cl_jerk_ratio remote_client) = Some remote_move) by (vm_compute; reflexivity).
  assert (Hnc : command_ok remote_move) by (split; repeat constructor; done).
  pose proof (remote_command_refines_local library_end server_end n_up n_down 2000 (fun _ _ _ => None)
    20 1 5000 0 300 1000 1000 0 0 0 0 remote_move (Net [] [] [3; 1; 7; 100; 2]) remote_runtime remote_client
    library_sends library_receives server_sends server_receives Hcmd Hnc remote_status_ok eq_refl eq_refl eq_refl) as Hmove.
  eapply wp_mono; [exact Hmove|]. intros r s (Hr & Hs & Hc & _). split; [exact Hr|]. split.
  - apply (f_equal (fun rt => c_target_position (bc_motion (br_command rt)))) in Hs.
    etransitivity; [exact Hs | vm_compute; reflexivity].
  - apply (f_equal (fun c => state_text (cl_status c))) in Hc.
    etransitivity; [exact Hc | vm_compute; reflexivity].
Defined.
