(* ===== verification/DbTheorems.v ===== *)
(** * The database of devices: claims

    The table in memory behaves as a map from the identity of a device to its entry, and what
    is saved in the index file is read back. *)

From Stdlib Require Import String.
From stdpp Require Import gmap.
From S2P Require Import Prelude Backend Client Wire Database.
Import stdpp.list_relations.list stdpp.list_basics.list.

(** ** The table as a map *)

Definition key (e : ECAT_DbEntry) : Z * Z * Z := (e_vendor_id e, e_product_code e, e_revision e).
Definition table_of (l : list ECAT_DbEntry) : gmap (Z * Z * Z) ECAT_DbEntry :=
  list_to_map (map (fun e => (key e, e)) l).
#[global] Arguments table_of : simpl never.

Lemma has_key_spec v p r e : has_key v p r e = bool_decide (key e = (v, p, r)).
Proof.
  unfold has_key, key. case_bool_decide as Hk.
  - injection Hk as -> -> ->. by rewrite !Z.eqb_refl.
  - apply not_true_is_false. rewrite !andb_true_iff, !Z.eqb_eq. intros [[Hv Hp] Hr]. congruence.
Qed.

Lemma table_cons c l : table_of (c :: l) = <[key c := c]> (table_of l).
Proof. done. Qed.
Lemma table_none l k : k ∉ map key l -> table_of l !! k = None.
Proof.
  intros Hk. apply not_elem_of_list_to_map. contradict Hk. rewrite map_map in Hk. exact Hk.
Qed.
Lemma table_in l e : NoDup (map key l) -> e ∈ l -> table_of l !! key e = Some e.
Proof.
  intros Hn He. apply elem_of_list_to_map.
  - by rewrite map_map.
  - by apply (list_elem_of_fmap_2 (fun e => (key e, e))).
Qed.
Lemma table_lookup l k e : table_of l !! k = Some e -> e ∈ l /\ key e = k.
Proof.
  intros Hk%elem_of_list_to_map_2. apply list_elem_of_fmap in Hk as (e' & [= -> ->] & He). done.
Qed.

Lemma replace_key_spec e l :
  match replace_key e l with
  | Some l' => table_of l' = <[key e := e]> (table_of l) /\ map key l' = map key l
  | None => key e ∉ map key l
  end.
Proof.
  induction l as [|c l IH]; cbn [replace_key]; [by apply not_elem_of_nil|].
  rewrite has_key_spec. fold (key e). case_bool_decide as Hk.
  - cbn [map]. rewrite !table_cons, Hk. by rewrite insert_insert_eq.
  - destruct (replace_key e l) as [l'|]; cbn.
    + destruct IH as [Ht Hm]. rewrite !table_cons, Ht, Hm. split; [|done]. by apply insert_insert_ne.
    + rewrite not_elem_of_cons. by split.
Qed.

Lemma table_snoc l e : key e ∉ map key l -> table_of (l ++ [e]) = <[key e := e]> (table_of l).
Proof.
  induction l as [|c l IH]; [done|]. cbn [map app]. rewrite not_elem_of_cons, !table_cons. intros [Hc Hl].
  rewrite IH by done. apply insert_insert_ne. congruence.
Qed.

(** What a look-up may answer from a table of the devices: the device itself, or else one of
    another revision, the one for any revision first. *)
Definition answers (m : gmap (Z * Z * Z) ECAT_DbEntry) (v p r : Z) (a : option ECAT_DbEntry) : Prop :=
  match m !! (v, p, r), a with
  | Some e, _ => a = Some e
  | None, Some e => exists r', m !! (v, p, r') = Some e /\ (is_Some (m !! (v, p, 0)) -> r' = 0)
  | None, None => forall r', m !! (v, p, r') = None
  end.

Definition same_device (v p : Z) (e : ECAT_DbEntry) : bool := (e_vendor_id e =? v) && (e_product_code e =? p).

Lemma find_from_spec v p r l : NoDup (map key l) -> forall fallback,
  find_from v p r fallback l =
    match table_of l !! (v, p, r), table_of l !! (v, p, 0), fallback with
    | Some e, _, _ => Some e
    | None, Some e, _ => Some e
    | None, None, Some f => Some f
    | None, None, None => find (same_device v p) l
    end.
Proof.
  induction l as [|c l IH]; cbn [map find_from find]; [by intros _ [f|]|].
  intros [Hc Hl]%NoDup_cons fallback. rewrite table_cons, !lookup_insert. unfold same_device at 1.
  change (key c) with (e_vendor_id c, e_product_code c, e_revision c) in *.
  destruct (Z.eqb_spec (e_vendor_id c) v) as [Hv|Hv]; [destruct (Z.eqb_spec (e_product_code c) p) as [Hp|Hp]|];
    cbn [negb orb andb].
  - destruct (Z.eqb_spec (e_revision c) r) as [Hr|Hr].
    + rewrite decide_True by congruence. done.
    + rewrite (decide_False (P := _ = (v, p, r))) by congruence. rewrite IH by done.
      destruct (table_of l !! (v, p, r)); [done|].
      destruct (Z.eqb_spec (e_revision c) 0) as [H0|H0].
      * rewrite decide_True by congruence. rewrite table_none; [by destruct fallback|].
        congruence.
      * rewrite decide_False by congruence. destruct (table_of l !! (v, p, 0)); by destruct fallback.
  - rewrite !decide_False by congruence. by apply IH.
  - rewrite !decide_False by congruence. by apply IH.
Qed.

Lemma find_from_answers v p r l : NoDup (map key l) -> answers (table_of l) v p r (find_from v p r None l).
Proof.
  intros Hl. rewrite find_from_spec by done. unfold answers.
  destruct (table_of l !! (v, p, r)) as [e|]; [done|].
  destruct (table_of l !! (v, p, 0)) as [e|] eqn:H0; [by eexists|].
  destruct (find (same_device v p) l) as [e|] eqn:Hfind.
  - apply find_some in Hfind as [Hin [Hv%Z.eqb_eq Hp%Z.eqb_eq]%andb_prop]. exists (e_revision e).
    split; [|by intros []]. rewrite <- Hv, <- Hp. apply table_in; [done|]. by apply list_elem_of_In.
  - intros r'. destruct (table_of l !! (v, p, r')) as [e|] eqn:He; [|done].
    apply table_lookup in He as [Hin Hk]. apply list_elem_of_In in Hin.
    pose proof (find_none _ _ Hfind e Hin) as Hno. injection Hk as Hv Hp _.
    unfold same_device in Hno. by rewrite Hv, Hp, !Z.eqb_refl in Hno.
Qed.

(** ** Calls on the table *)

Inductive db_call : Type :=
  | Upsert (e : ECAT_DbEntry)
  | Find (vendor_id product_code revision : Z).
Inductive db_answer : Type :=
  | Upserted (result : Z)
  | Found (result : Z) (e : option ECAT_DbEntry).

Definition unidentified (v p : Z) : bool := (v =? 0) || (p =? 0).

(** What a call may answer, and what it makes of the map of devices. *)
Definition call_allows (m : gmap (Z * Z * Z) ECAT_DbEntry) (c : db_call) (a : db_answer)
    (m' : gmap (Z * Z * Z) ECAT_DbEntry) : Prop :=
  match c, a with
  | Upsert e, Upserted result =>
      if unidentified (e_vendor_id e) (e_product_code e) then result = ECAT_INVALID_ARGUMENT /\ m' = m
      else if decide (m !! key e = None /\ size m = ECAT_MAX_DB_ENTRIES) then result = ECAT_ERROR /\ m' = m
      else result = ECAT_OK /\ m' = <[key e := e]> m
  | Find v p r, Found result e =>
      m' = m /\ if unidentified v p then result = ECAT_INVALID_ARGUMENT /\ e = None
                else answers m v p r e /\ result = match e with Some _ => ECAT_OK | None => ECAT_ERROR end
  | _, _ => False
  end.
Fixpoint calls_allow (m : gmap (Z * Z * Z) ECAT_DbEntry) (calls : list db_call) (l : list db_answer)
    (m' : gmap (Z * Z * Z) ECAT_DbEntry) : Prop :=
  match calls, l with
  | [], [] => m' = m
  | c :: calls, a :: l => exists m1, call_allows m c a m1 /\ calls_allow m1 calls l m'
  | _, _ => False
  end.

Record table_wf (l : list ECAT_DbEntry) : Prop := TableWf {
  wf_keys : NoDup (map key l);
  wf_size : (length l <= ECAT_MAX_DB_ENTRIES)%nat;
}.

Lemma table_size l : NoDup (map key l) -> size (table_of l) = length l.
Proof.
  intros Hl. unfold table_of. rewrite map_size_list_to_map; [by rewrite length_map|]. by rewrite map_map.
Qed.

Section Calls.
Context {L : Type} `{FileStore L}.
Abbreviation D := (M (database L)).

Definition db_do (c : db_call) : D db_answer :=
  match c with
  | Upsert e => let* r := db_upsert_locked e in ret (Upserted r)
  | Find v p r => let* a := ECAT_DbFindDevice v p r in ret (Found a.1 a.2)
  end.
Fixpoint db_run (calls : list db_call) : D (list db_answer) :=
  match calls with
  | [] => ret []
  | c :: calls => let* a := db_do c in let* l := db_run calls in ret (a :: l)
  end.

Lemma wp_upsert e (d : database L) : table_wf (db_entries d) ->
  wp no_fault (db_upsert_locked e) (fun r (d' : database L) => table_wf (db_entries d')
    /\ call_allows (table_of (db_entries d)) (Upsert e) (Upserted r) (table_of (db_entries d'))) d.
Proof.
  intros Hwf. pose proof Hwf as [Hkeys Hsize]. unfold db_upsert_locked, call_allows, unidentified.
  destruct ((e_vendor_id e =? 0) || (e_product_code e =? 0)); [by apply wp_ret|].
  apply wp_bind, wp_gets. pose proof (replace_key_spec e (db_entries d)) as Hr.
  destruct (replace_key e (db_entries d)) as [l|].
  - destruct Hr as [Ht Hm]. apply wp_bind, wp_modify, wp_ret. cbn. split.
    + split; [by rewrite Hm|]. apply (f_equal length) in Hm. rewrite !length_map in Hm. lia.
    + rewrite decide_False; [done|]. intros [Hno _].
      assert (Hin : key e ∈ map key (db_entries d)).
      { rewrite <- Hm. apply (f_equal (.!! key e)) in Ht. rewrite lookup_insert_eq in Ht.
        apply table_lookup in Ht as [Hin _]. by apply list_elem_of_fmap_2. }
      apply list_elem_of_fmap in Hin as (e' & Hk & Hin). rewrite Hk, table_in in Hno; done.
  - rewrite table_none, table_size by done. destruct (Nat.leb_spec ECAT_MAX_DB_ENTRIES (length (db_entries d))).
    + apply wp_ret. rewrite decide_True by (split; [done | lia]). done.
    + apply wp_bind, wp_modify, wp_ret. cbn. rewrite decide_False by (intros [_ ?]; lia).
      split; [|by rewrite table_snoc]. split; [|rewrite length_app; cbn; lia].
      rewrite map_app. apply NoDup_app. split; [done|]. split; [|apply NoDup_singleton].
      intros k Hk ->%list_elem_of_singleton. done.
Qed.

Lemma wp_find v p r (d : database L) : table_wf (db_entries d) ->
  wp no_fault (ECAT_DbFindDevice v p r) (fun a (d' : database L) => d' = d
    /\ call_allows (table_of (db_entries d)) (Find v p r) (Found a.1 a.2) (table_of (db_entries d))) d.
Proof.
  intros [Hkeys _]. unfold ECAT_DbFindDevice, call_allows, unidentified.
  destruct ((v =? 0) || (p =? 0)); [by apply wp_ret|].
  apply wp_bind, wp_gets, wp_ret. pose proof (find_from_answers v p r _ Hkeys) as Ha.
  by destruct (find_from v p r None (db_entries d)).
Qed.
End Calls.

(** C37: The table of devices is a map.  Whatever devices are entered and looked up, in any
    order, every answer is one a map from vendor, product and revision to the last entry of
    that identity allows: an exact look-up finds it, one of an unknown revision finds the
    entry for any revision before the others of the device, and an entry is refused only
    without identity or when it is new and the table is full. *)
Theorem device_table_refines_map {L} `{FileStore L} (calls : list db_call) (d : database L) :
  table_wf (db_entries d) ->
  total (db_run calls) (fun l (d' : database L) => table_wf (db_entries d')
    /\ calls_allow (table_of (db_entries d)) calls l (table_of (db_entries d'))) d.
Proof.
  revert d. induction calls as [|c calls IH]; intros d Hwf; [by apply wp_ret|].
  apply wp_bind. eapply wp_mono with (Q := fun a (d' : database L) => table_wf (db_entries d')
    /\ call_allows (table_of (db_entries d)) c a (table_of (db_entries d'))).
  - destruct c as [e|v p r]; apply wp_bind.
    + eapply wp_mono; [by apply wp_upsert|]. intros r d' Hr. by apply wp_ret.
    + eapply wp_mono; [by apply wp_find|]. intros a d' [-> Ha]. by apply wp_ret.
  - intros a d1 [Hwf1 Ha]. apply wp_bind. eapply wp_mono; [by apply IH|].
    intros l d2 [Hwf2 Hl]. apply wp_ret. split; [done|]. by eexists.
Qed.

(** ** A store in memory *)

Definition files : Type := gmap text text.
#[export] Instance memory_store : FileStore files := {
  fs_module := None;
  fs_mkdir _ := ret true;
  fs_read p := gets (fun l => l !! p);
  fs_write p contents := do* modify (fun l => <[p := contents]> l) in ret true;
  fs_copy a b := let* contents := gets (fun l => l !! a) in
                 match contents with
                 | Some contents => do* modify (fun l => <[b := contents]> l) in ret true
                 | None => ret false
                 end;
  fs_same a b := bool_decide (a = b);
  fs_now := ret (text_bytes "2024-05-06 07:08:09");
}.
Definition motor (revision : Z) : ECAT_DbEntry :=
  DbEntry 0x9a 0x30924 revision (text_bytes "Motor, 3 axes") (text_bytes "db\xml\motor.xml") (text_bytes "ESI")
    (text_bytes "2024-05-06 07:08:09").

Lemma device_table_refines_map_witness :
  total (db_run [Upsert (motor 1); Upsert (motor 0); Find 0x9a 0x30924 7])
    (fun l (d : database files) => table_wf (db_entries d)
       /\ calls_allow ∅ [Upsert (motor 1); Upsert (motor 0); Find 0x9a 0x30924 7] l (table_of (db_entries d)))
    (Database ∅ (text_bytes "db") []).
Proof. apply device_table_refines_map. split; [apply NoDup_nil_2 | vm_compute; lia]. Defined.

(** ** Characters of numbers *)

Lemma digit_value_hex d : 0 <= d < 16 -> digit_value (hex_digit d) = d.
Proof. intros Hd. unfold hex_digit, digit_value. repeat case_match; lia. Qed.

Lemma digits_app base acc n a b : Forall (fun c => digit_value c < base) a ->
  digits base acc n (a ++ b) =
  let '(v, k, _) := digits base acc n a in digits base v k b.
Proof.
  revert acc n. induction a as [|c a IH]; intros acc n Ha; [by destruct b|]. apply Forall_cons in Ha as [Hc Ha].
  cbn. destruct (Z.ltb_spec (digit_value c) base); [|lia]. by apply IH.
Qed.

Lemma hex_digits n v : Forall (fun c => digit_value c < 16) (hex n v).
Proof.
  revert v. induction n as [|n IH]; intros v; cbn; [done|]. apply Forall_app. split; [apply IH|].
  apply Forall_singleton. pose proof (Z.mod_pos_bound v 16 eq_refl). rewrite digit_value_hex; lia.
Qed.

Lemma digits_hex n v : 0 <= v -> digits 16 0 0 (hex n v) = (v mod 16 ^ Z.of_nat n, n, []).
Proof.
  revert v. induction n as [|n IH]; intros v Hv; [by rewrite Z.mod_1_r|].
  cbn [hex]. rewrite digits_app by apply hex_digits. rewrite IH by (apply Z.div_pos; lia). cbn.
  pose proof (Z.mod_pos_bound v 16 eq_refl). rewrite digit_value_hex by lia. destruct (Z.ltb_spec (v mod 16) 16); [|lia].
  f_equal. f_equal. rewrite Nat2Z.inj_succ, Z.pow_succ_r by lia.
  rewrite Z.rem_mul_r by lia. lia.
Qed.

(** A digit is no space, no sign and no mark of the base. *)
Lemma hex_digit_range d : 0 <= d < 16 -> 48 <= hex_digit d <= 57 \/ 65 <= hex_digit d <= 70.
Proof. intros Hd. unfold hex_digit. case_match; lia. Qed.
Lemma hex_range n v : Forall (fun c => 48 <= c <= 57 \/ 65 <= c <= 70) (hex n v).
Proof.
  revert v. induction n as [|n IH]; intros v; cbn; [done|]. apply Forall_app. split; [apply IH|].
  by apply Forall_singleton, hex_digit_range, Z.mod_pos_bound.
Qed.
Lemma length_hex n v : length (hex n v) = n.
Proof. revert v. induction n as [|n IH]; intros v; cbn; [done|]. rewrite length_app, IH. cbn. lia. Qed.

Lemma strtoul_hex v : 0 <= v < 2 ^ 32 -> strtoul 16 (hex8 v) = v.
Proof.
  intros Hv. unfold strtoul. pose proof (hex_range 8 v) as Hr. pose proof (length_hex 8 v) as Hl.
  pose proof (digits_hex 8 v) as Hd. fold (hex8 v) in *.
  destruct (hex8 v) as [|a [|x [|d t]]]; [done..|]. apply Forall_cons in Hr as [Ha [Hx Ht]%Forall_cons].
  assert (Hx' : (x =? 120) || (x =? 88) = false) by lia.
  assert (a = 48 \/ a = 49 \/ a = 50 \/ a = 51 \/ a = 52 \/ a = 53 \/ a = 54 \/ a = 55 \/ a = 56 \/ a = 57
          \/ a = 65 \/ a = 66 \/ a = 67 \/ a = 68 \/ a = 69 \/ a = 70) as Hin by lia.
  destruct_or! Hin; subst a; cbn -[digits]; rewrite ?Hx', ?andb_false_r; cbn -[digits]; rewrite Hd by lia;
    change (16 ^ Z.of_nat 8) with (2 ^ 32); rewrite Z.mod_small by done; destruct (Z.leb_spec (2 ^ 32) v); lia.
Qed.

(** ** Texts that survive a line *)

Definition plain (c : Z) : Prop := c <> 0 /\ c <> 10 /\ c <> 13 /\ c <> 44.
Definition no_ends (t : text) : Prop := is_space (hd 32 t) = false /\ is_space (List.last t 32) = false.
(** A field of a line: a text that is not empty, fits in its buffer and is not changed by
    [sanitize_csv_text]. *)
Record clean (n : nat) (t : text) : Prop := Clean {
  clean_fits : (length t < n)%nat;
  clean_plain : Forall plain t;
  clean_ends : no_ends t;
}.

Lemma hd_rev t : hd 32 (rev t) = List.last t 32.
Proof. induction t as [|c t _] using rev_ind; [done|]. by rewrite rev_unit, last_last. Qed.
Lemma skip_spaces_id t : is_space (hd 32 t) = false -> skip_spaces t = t.
Proof. destruct t as [|c t]; [done|]. cbn. by intros ->. Qed.
Lemma trim_id t : no_ends t -> trim_in_place t = t.
Proof.
  intros [Hh Hl]. unfold trim_in_place. rewrite (skip_spaces_id t) by done.
  rewrite skip_spaces_id by (by rewrite hd_rev). apply rev_involutive.
Qed.
Lemma trim_newline t : no_ends t -> trim_in_place (t ++ [10]) = t.
Proof.
  intros [Hh Hl]. unfold trim_in_place. rewrite (skip_spaces_id (t ++ [10])) by (by destruct t).
  rewrite rev_unit. cbn. rewrite skip_spaces_id by (by rewrite hd_rev). apply rev_involutive.
Qed.

Lemma sanitize_clean n t : clean n t -> sanitize_csv_text t = t.
Proof.
  intros [_ Hp He]. unfold sanitize_csv_text. rewrite (Forall_fmap_ext_1 _ id t), list_fmap_id; [by apply trim_id|].
  eapply Forall_impl; [exact Hp|]. intros c (_ & H10 & H13 & H44). cbn.
  by replace ((c =? 44) || (c =? 13) || (c =? 10)) with false by lia.
Qed.

Lemma cut_nul_id t : Forall (fun c => c <> 0) t -> cut_nul t = t.
Proof.
  induction 1 as [|c t Hc _ IH]; [done|]. cbn. destruct (Z.eqb_spec c 0); [done|]. by rewrite IH.
Qed.

Lemma fgets_line n rest body : Forall (fun c => c <> 10) body -> forall cur room, (length body < room)%nat ->
  fgets_lines n cur room (body ++ 10 :: rest) = (rev cur ++ body ++ [10]) :: fgets_lines n [] (n - 1) rest.
Proof.
  induction 1 as [|c body Hc _ IH]; intros cur room Hroom; [done|].
  cbn [app fgets_lines]. destruct (Z.eqb_spec c 10); [done|]. cbn [length] in Hroom.
  destruct room as [|[|room]]; [lia..|]. rewrite IH by (cbn in *; lia). cbn [rev]. by rewrite <- !app_assoc.
Qed.

Lemma tokens_last t : Forall (fun c => c <> 44) t -> forall cur, rev cur ++ t <> [] -> tokens cur t = [rev cur ++ t].
Proof.
  induction 1 as [|c t Hc _ IH]; intros cur Hne.
  - cbn. rewrite app_nil_r in *. by destruct cur.
  - cbn [tokens]. destruct (Z.eqb_spec c 44); [done|]. rewrite IH; cbn [rev]; rewrite <- app_assoc; done.
Qed.
Lemma tokens_comma t rest : Forall (fun c => c <> 44) t -> forall cur, rev cur ++ t <> [] ->
  tokens cur (t ++ 44 :: rest) = (rev cur ++ t) :: tokens [] rest.
Proof.
  induction 1 as [|c t Hc _ IH]; intros cur Hne.
  - cbn. rewrite app_nil_r in *. by destruct cur.
  - cbn [tokens app]. destruct (Z.eqb_spec c 44); [done|]. rewrite IH; cbn [rev]; rewrite <- app_assoc; done.
Qed.

(** ** A line of the index file *)

Record entry_ok (e : ECAT_DbEntry) : Prop := EntryOk {
  ok_vendor : 0 < e_vendor_id e < 2 ^ 32;
  ok_product : 0 < e_product_code e < 2 ^ 32;
  ok_revision : 0 <= e_revision e < 2 ^ 32;
  ok_name : clean ECAT_MAX_MESSAGE (e_name e);
  ok_path : clean ECAT_MAX_PATH_TEXT (e_xml_path e);
  ok_type : clean 32 (e_xml_type e);
  ok_time : clean 32 (e_imported_at e);
}.

Definition number (v : Z) : text := 48 :: 120 :: hex8 v.
Definition line_fields (e : ECAT_DbEntry) : list text :=
  [number (e_vendor_id e); number (e_product_code e); number (e_revision e);
   e_name e; e_xml_type e; e_xml_path e; e_imported_at e].
Fixpoint commas (l : list text) : text :=
  match l with
  | [] => []
  | [t] => t
  | t :: l => t ++ 44 :: commas l
  end.

Lemma commas_cons t u l : commas (t :: u :: l) = t ++ 44 :: commas (u :: l).
Proof. done. Qed.

Lemma entry_line_fields e : entry_ok e -> entry_line e = commas (line_fields e) ++ [10].
Proof.
  intros He. unfold entry_line. cbn [map concat].
  erewrite !sanitize_clean by apply He. cbn [commas line_fields]. unfold number.
  change (text_bytes "0x") with [48; 120]. change (text_bytes ",0x") with [44; 48; 120].
  rewrite app_nil_r. cbn [app]. by repeat (rewrite <- app_assoc; cbn [app]).
Qed.

Lemma number_plain v : Forall plain (number v).
Proof.
  unfold number. do 2 (apply Forall_cons; split; [unfold plain; lia|]).
  eapply Forall_impl; [apply (hex_range 8)|]. unfold plain. lia.
Qed.
Lemma number_ends v : no_ends (number v).
Proof.
  split; [done|]. unfold number, hex8. cbn [hex]. set (d := hex_digit (v mod 16)). rewrite !app_comm_cons, last_last.
  pose proof (hex_digit_range (v mod 16) (Z.mod_pos_bound v 16 eq_refl)). unfold is_space. subst d. lia.
Qed.
Lemma parse_number v : 0 <= v < 2 ^ 32 -> parse_ecat_number (number v) = v.
Proof. intros Hv. unfold parse_ecat_number, number. cbn -[strtoul hex8]. by apply strtoul_hex. Qed.

Lemma clean_ne n t : clean n t -> t <> [].
Proof. intros [_ _ [Hh _]]. by destruct t. Qed.
Lemma plain_comma t : Forall plain t -> Forall (fun c => c <> 44) t.
Proof. intros H. eapply Forall_impl; [exact H|]. by intros c (_ & _ & _ & ?). Qed.

Lemma tokens_commas l : Forall (fun t => t <> [] /\ Forall plain t) l -> tokens [] (commas l) = l.
Proof.
  induction 1 as [|t l [Hne Hp] _ IH]; [done|]. apply plain_comma in Hp. destruct l as [|u l].
  - by apply tokens_last.
  - rewrite commas_cons, tokens_comma by done. by rewrite IH.
Qed.

Lemma fields_ok e : entry_ok e -> Forall (fun t => Forall plain t /\ no_ends t) (line_fields e).
Proof.
  intros [_ _ _ [_ Hn He] [_ Hn' He'] [_ Hn'' He''] [_ Hn3 He3]].
  repeat (apply Forall_cons; split; [split; [first [assumption | apply number_plain] | first [assumption | apply number_ends]]|]).
  done.
Qed.
Lemma tokens_line e : entry_ok e -> tokens [] (commas (line_fields e)) = line_fields e.
Proof.
  intros He. apply tokens_commas. eapply Forall_impl; [by apply fields_ok|]. intros t [Hp [Hh _]].
  split; [by destruct t | done].
Qed.

Lemma load_line_fields e : entry_ok e -> load_fields entry_zero 0 (line_fields e) = e.
Proof.
  intros He. cbn [load_fields line_fields load_field]. rewrite !(trim_id (number _)) by apply number_ends.
  rewrite !trim_id by apply He. destruct He as [Hv Hp Hr Hn Hpath Ht Hi].
  rewrite !parse_number by lia. unfold fit.
  rewrite !take_ge; [by destruct e|..]; match goal with H : clean _ ?t |- context [length ?t] => apply clean_fits in H end; lia.
Qed.

Lemma commas_plain c l : c <> 44 -> Forall (fun t => Forall plain t) l ->
  (forall t, Forall plain t -> Forall (fun x => x <> c) t) -> Forall (fun x => x <> c) (commas l).
Proof.
  intros Hc Hl Hplain. induction Hl as [|t l Ht Hl IH]; [done|]. destruct l as [|u l]; [by apply Hplain|].
  rewrite commas_cons. apply Forall_app. split; [by apply Hplain|]. apply Forall_cons. split; [congruence | exact IH].
Qed.
Lemma commas_last l t : t <> [] -> List.last (commas (l ++ [t])) 32 = List.last t 32.
Proof.
  intros Ht. assert (Happ : forall a b : text, b <> [] -> List.last (a ++ b) 32 = List.last b 32).
  { intros a b Hb. induction a as [|x a IH]; [done|]. cbn. destruct (a ++ b) eqn:Hab; [|done].
    by apply app_eq_nil in Hab as []. }
  induction l as [|u l IH]; [done|]. cbn [app commas]. destruct (l ++ [t]) as [|v r] eqn:Hl; [by destruct l|].
  rewrite Happ by done. change (44 :: commas (v :: r)) with ([44] ++ commas (v :: r)). rewrite Happ; [exact IH|].
  destruct r as [|w r]; [|rewrite commas_cons; by destruct v]. destruct l as [|x l].
  - by injection Hl as <-.
  - apply (f_equal length) in Hl. rewrite length_app in Hl. cbn in Hl. lia.
Qed.

(** ** The index file *)

Lemma line_hd e : hd 32 (commas (line_fields e)) = 48.
Proof. done. Qed.
Lemma line_ends e : entry_ok e -> no_ends (commas (line_fields e)).
Proof.
  intros He. split; [done|].
  replace (line_fields e) with (take 6 (line_fields e) ++ [e_imported_at e]) by done.
  rewrite commas_last; [apply He | eapply clean_ne; apply He].
Qed.
Lemma line_without c e : entry_ok e -> c <> 44 -> (forall x, plain x -> x <> c) -> Forall (fun x => x <> c) (commas (line_fields e)).
Proof.
  intros He Hc Hplain. apply commas_plain; [done| |].
  - eapply Forall_impl; [by apply fields_ok|]. by intros t [].
  - intros t Ht. eapply Forall_impl; [exact Ht | exact Hplain].
Qed.
Lemma line_length e : entry_ok e -> (length (commas (line_fields e)) < 1023)%nat.
Proof.
  intros [_ _ _ [Hn _ _] [Hp _ _] [Ht _ _] [Hi _ _]]. unfold line_fields. rewrite !commas_cons. cbn [commas].
  unfold number, hex8. repeat first [rewrite length_app | rewrite length_hex | cbn [length]].
  unfold ECAT_MAX_MESSAGE, ECAT_MAX_PATH_TEXT in *. lia.
Qed.

Lemma load_line e l : entry_ok e -> (length l < ECAT_MAX_DB_ENTRIES)%nat ->
  db_load_line_locked (trim_in_place (cut_nul (entry_line e))) l = l ++ [e].
Proof.
  intros He Hl. rewrite entry_line_fields by done. rewrite cut_nul_id.
  2: { apply Forall_app. split; [|by repeat constructor]. apply line_without; [done | done | by intros x []]. }
  rewrite trim_newline by (by apply line_ends).
  assert (Hnot : starts_with_i (text_bytes "vendor_id") (commas (line_fields e)) = false) by done.
  unfold db_load_line_locked. rewrite Hnot, tokens_line, load_line_fields by done.
  change (commas (line_fields e)) with (48 :: tail (commas (line_fields e))). cbn [Z.eqb Pos.eqb orb].
  destruct He as [Hv Hp _ _ _ _ _].
  destruct (Z.eqb_spec (e_vendor_id e) 0); [lia|]. destruct (Z.eqb_spec (e_product_code e) 0); [lia|].
  by destruct (Nat.leb_spec ECAT_MAX_DB_ENTRIES (length l)); [lia|].
Qed.

Lemma fgets_entries entries : Forall entry_ok entries ->
  fgets_lines 1024 [] 1023 (concat (map entry_line entries)) = map entry_line entries.
Proof.
  induction 1 as [|e entries He _ IH]; [done|]. cbn [map concat]. rewrite entry_line_fields at 1 by done.
  rewrite <- app_assoc. cbn [app]. rewrite fgets_line; [|apply line_without; [done | done | by intros x (_ & ? & _)]|].
  - change (1024 - 1)%nat with 1023%nat. rewrite IH. cbn [rev app]. by rewrite <- entry_line_fields.
  - by apply line_length.
Qed.

Lemma load_saved entries : Forall entry_ok entries -> (length entries <= ECAT_MAX_DB_ENTRIES)%nat ->
  load_lines (index_header ++ concat (map entry_line entries)) = entries.
Proof.
  intros Hok Hlen. unfold load_lines.
  change index_header with (removelast index_header ++ [10]). rewrite <- app_assoc. cbn [app].
  rewrite fgets_line; [|by repeat constructor | vm_compute; lia].
  change (1024 - 1)%nat with 1023%nat. rewrite fgets_entries by done. cbn [fold_left].
  change (db_load_line_locked _ []) with (@nil ECAT_DbEntry).
  assert (Hfold : forall l, (length l + length entries <= ECAT_MAX_DB_ENTRIES)%nat ->
    fold_left (fun entries line => db_load_line_locked (trim_in_place (cut_nul line)) entries)
      (map entry_line entries) l = l ++ entries).
  { clear Hlen. induction Hok as [|e entries He _ IH]; intros l Hlen; [by rewrite app_nil_r|].
    cbn [map fold_left]. cbn [length] in Hlen. rewrite load_line by (done || lia).
    rewrite IH by (rewrite length_app; cbn; lia). by rewrite <- app_assoc. }
  by apply Hfold.
Qed.

(** ** Saving and loading *)

(** What the files are, and that they keep what is written. *)
Class StoreLaws (L : Type) `{FileStore L} : Type := {
  held : L -> gmap text text;
  mkdir_keeps : forall p l, exists l', fs_mkdir p l = Ok (true, l') /\ held l' = held l;
  read_held : forall p l, exists l', fs_read p l = Ok (held l !! p, l') /\ held l' = held l;
  write_held : forall p contents l, exists l', fs_write p contents l = Ok (true, l')
                 /\ held l' = <[p := contents]> (held l);
}.
#[export] Instance memory_laws : StoreLaws files.
Proof. by exists (fun l => l); intros; eexists. Defined.

Section Saved.
Context {L : Type} `{StoreLaws L}.
Implicit Types d : database L.

(** A store of the same files under the same root and table. *)
Definition same_files (d d' : database L) : Prop :=
  held (db_store d') = held (db_store d) /\ db_root d' = db_root d /\ db_entries d' = db_entries d.

Lemma wp_mkdir path d Q : path <> [] -> (forall d', same_files d d' -> Q ECAT_OK d') ->
  wp no_fault (make_directory_if_needed path) Q d.
Proof.
  intros Hp HQ. destruct path as [|c path]; [done|]. cbn [make_directory_if_needed].
  apply wp_bind. unfold on_store. apply wp_zoom. unfold wp.
  destruct (mkdir_keeps (c :: path) (db_store d)) as (l' & -> & Hl). by apply wp_ret, HQ.
Qed.

Lemma path_join_ne n left right : (1 < n)%nat -> right <> [] -> path_join n left right <> [].
Proof.
  intros Hn Hr. unfold path_join, fit. destruct n as [|[|n]]; [lia..|]. replace (S (S n) - 1)%nat with (S n) by lia.
  destruct left as [|a l]; destruct right as [|b r]; try done; by destruct (is_slash _).
Qed.

Lemma wp_dirs d Q : db_root d <> [] -> (forall d', same_files d d' -> Q ECAT_OK d') ->
  wp no_fault ensure_db_dirs_locked Q d.
Proof.
  intros Hroot HQ. apply wp_bind, wp_gets, wp_bind, wp_mkdir; [done|].
  intros d1 (Hh & Hr & He). cbn [negb Z.eqb ECAT_OK]. apply wp_mkdir.
  - apply path_join_ne; [unfold ECAT_MAX_PATH_TEXT; lia | done].
  - intros d2 (Hh2 & Hr2 & He2). apply HQ. split_and!; congruence.
Qed.

Lemma wp_save d Q : db_root d <> [] ->
  (forall d', db_root d' = db_root d -> db_entries d' = db_entries d ->
     held (db_store d') !! db_index_path_locked (db_root d)
       = Some (index_header ++ concat (map entry_line (db_entries d))) -> Q ECAT_OK d') ->
  wp no_fault db_save_locked Q d.
Proof.
  intros Hroot HQ. apply wp_bind, wp_dirs; [done|]. intros d1 (Hh & Hr & He). cbn [negb Z.eqb ECAT_OK].
  apply wp_bind, wp_gets, wp_bind. unfold on_store. apply wp_zoom. unfold wp, id.
  match goal with |- context [fs_write ?p ?c ?l] => destruct (write_held p c l) as (l' & -> & Hl') end.
  apply wp_ret, HQ; cbn; [done..|]. rewrite Hl', Hr, He. apply lookup_insert_eq.
Qed.

Lemma wp_reload d contents Q : db_root d <> [] ->
  held (db_store d) !! db_index_path_locked (db_root d) = Some contents ->
  (forall d', db_root d' = db_root d -> db_entries d' = load_lines contents -> Q ECAT_OK d') ->
  wp no_fault db_reload_locked Q d.
Proof.
  intros Hroot Hc HQ. apply wp_bind, wp_gets, wp_bind.
  destruct (db_root d) as [|r root] eqn:Hd; [done|]. apply wp_ret, wp_bind, wp_dirs; [by rewrite Hd|].
  intros d1 (Hh & Hr & He). cbn [negb Z.eqb ECAT_OK]. apply wp_bind, wp_modify, wp_bind, wp_gets, wp_bind.
  unfold on_store. apply wp_zoom. unfold wp. cbn.
  destruct (read_held (db_index_path_locked (db_root d1)) (db_store d1)) as (l' & -> & Hl').
  rewrite Hh, Hr, Hd, Hc. apply wp_bind, wp_modify, wp_ret, HQ; done.
Qed.
End Saved.

(** C21: A saved database is the database again.  On a store that keeps its files, saving
    the table and reading it back after the library has lost its memory succeeds and gives
    exactly the same entries, in the same order, for every table that fits, whose devices have a
    vendor and a product that are not 0 and whose texts are not empty, fit in their fields,
    neither begin nor end with white space, and hold no comma, line end or NUL. *)
Theorem saved_database_reloads {L} `{StoreLaws L} (lost : list ECAT_DbEntry) (d : database L) :
  db_root d <> [] -> Forall entry_ok (db_entries d) -> (length (db_entries d) <= ECAT_MAX_DB_ENTRIES)%nat ->
  total (let* saved := db_save_locked in
         do* modify (fun d => d <| db_entries := lost |>) in
         let* loaded := ECAT_DbReload in ret (saved, loaded))
    (fun r (d' : database L) => r = (ECAT_OK, ECAT_OK) /\ db_entries d' = db_entries d /\ db_root d' = db_root d) d.
Proof.
  intros Hroot Hok Hlen. apply wp_bind, wp_save; [done|]. intros d1 Hr1 He1 Hfile.
  apply wp_bind, wp_modify, wp_bind. eapply wp_reload.
  { cbn. by rewrite Hr1. }
  { cbn -[db_index_path_locked]. rewrite Hr1. exact Hfile. }
  intros d2 Hr2 He2. cbn in Hr2. apply wp_ret. split; [done|]. split; [|congruence].
  rewrite He2. by apply load_saved.
Qed.

Lemma clean_compute n t : (length t <? n)%nat && forallb (fun c => negb (bool_decide (c ∈ [0; 10; 13; 44]))) t
    && negb (is_space (hd 32 t)) && negb (is_space (List.last t 32)) = true -> clean n t.
Proof.
  rewrite !andb_true_iff, !negb_true_iff. intros [[[Hl Hp] Hh] He]. split; [by apply Nat.ltb_lt | | by split].
  apply Forall_forall. intros c Hin. rewrite forallb_forall in Hp. apply list_elem_of_In, Hp in Hin.
  apply negb_true_iff, bool_decide_eq_false in Hin. unfold plain. set_unfold. naive_solver.
Qed.

Definition gripper : ECAT_DbEntry :=
  DbEntry 0x2 0x44c2c52 0x110000 (text_bytes "EL1100 Gripper") (text_bytes "db\xml\00000002_044C2C52_00110000_e.xml")
    (text_bytes "ESI") (text_bytes "2024-05-06 07:08:09").
Lemma saved_database_reloads_witness :
  total (let* saved := db_save_locked in
         do* modify (fun d : database files => d <| db_entries := [motor 7] |>) in
         let* loaded := ECAT_DbReload in ret (saved, loaded))
    (fun r d' => r = (ECAT_OK, ECAT_OK) /\ db_entries d' = [gripper; gripper <| e_revision := 0 |>]
       /\ db_root d' = text_bytes "db")
    (Database ∅ (text_bytes "db") [gripper; gripper <| e_revision := 0 |>]).
Proof.
  apply saved_database_reloads; [done | | vm_compute; lia].
  repeat (apply Forall_cons; split; [split; first [by apply clean_compute | done]|]). done.
Defined.

(** A device without a name is not read back: the comma after the empty field is no separator
    for [strtok], so the type becomes the name and every later text moves up. *)
Example empty_name_is_lost :
  load_lines (index_header ++ entry_line (gripper <| e_name := [] |>))
  = [gripper <| e_name := text_bytes "ESI" |> <| e_xml_type := fit 32 (e_xml_path gripper) |>
             <| e_xml_path := e_imported_at gripper |> <| e_imported_at := [] |>].
Proof. vm_compute. reflexivity. Qed.

(** A name that is only a comma is such a device. *)
Example comma_name_is_empty : sanitize_csv_text (text_bytes ",") = [].
Proof. reflexivity. Qed.

(** ** The bounds on the searches are enough *)

Lemma starts_with_i_length needle t : starts_with_i needle t = true -> (length needle <= length t)%nat.
Proof.
  revert t. induction needle as [|b needle IH]; intros [|a t]; cbn; try done; [lia|].
  intros [_ H]%andb_prop. specialize (IH _ H). lia.
Qed.
Lemma find_text_i_found haystack needle p : find_text_i haystack needle = Some p ->
  starts_with_i needle p = true /\ (length needle <= length p <= length haystack)%nat.
Proof.
  destruct needle as [|b needle]; [destruct haystack; intros [= <-]; cbn; (split; [done | lia])|].
  induction haystack as [|a h IH]; [done|]. cbn [find_text_i].
  destruct (starts_with_i (b :: needle) (a :: h)) eqn:Hs.
  - intros [= <-]. split; [done|]. apply starts_with_i_length in Hs. cbn in *. lia.
  - intros [Hp Hl]%IH. split; [done|]. cbn in *. lia.
Qed.

Lemma attr_scan_enough attr size n : attr <> [] -> forall m p, (length p <= n)%nat -> (length p <= m)%nat ->
  attr_scan n p attr size = attr_scan m p attr size.
Proof.
  intros Hattr. induction n as [|n IH]; intros m p Hn Hm.
  - destruct p as [|c p]; [|cbn in Hn; lia]. destruct m; [done|]. cbn. by destruct attr.
  - destruct m as [|m].
    + destruct p as [|c p]; [|cbn in Hm; lia]. cbn. by destruct attr.
    + cbn [attr_scan]. destruct (find_text_i p attr) as [p'|] eqn:Hf; [|done].
      apply find_text_i_found in Hf as [_ Hf]. assert (0 < length attr)%nat by (destruct attr; [done | cbn; lia]).
      rewrite (IH m) by (rewrite length_drop; lia). done.
Qed.
Lemma element_scan_enough tag n : tag <> [] -> forall m p, (length p <= n)%nat -> (length p <= m)%nat ->
  element_scan n p tag = element_scan m p tag.
Proof.
  intros Htag. induction n as [|n IH]; intros m p Hn Hm.
  - destruct p as [|c p]; [|cbn in Hn; lia]. destruct m; [done|]. cbn. by destruct tag.
  - destruct m as [|m].
    + destruct p as [|c p]; [|cbn in Hm; lia]. cbn. by destruct tag.
    + cbn [element_scan]. destruct (find_text_i p tag) as [p'|] eqn:Hf; [|done].
      apply find_text_i_found in Hf as [_ Hf]. assert (0 < length tag)%nat by (destruct tag; [done | cbn; lia]).
      destruct (drop (length tag) p') as [|c rest] eqn:Hd; [done|].
      apply (f_equal length) in Hd. rewrite length_drop in Hd.
      by rewrite (IH m) by lia.
Qed.

(** The sections of an import get shorter from one to the next. *)
Lemma element_scan_shorter n p tag q : element_scan n p tag = Some q -> (length q <= length p)%nat.
Proof.
  revert p. induction n as [|n IH]; intros p; [done|]. cbn [element_scan].
  destruct (find_text_i p tag) as [p'|] eqn:Hf; [|done]. apply find_text_i_found in Hf as [_ Hf].
  destruct (drop (length tag) p') as [|c rest] eqn:Hd; [intros [= <-]; lia|].
  apply (f_equal length) in Hd. rewrite length_drop in Hd. cbn [length] in Hd.
  destruct (_ || _ || _); [intros [= <-]; lia|]. intros Hq%IH. cbn [length] in Hq. lia.
Qed.

Lemma element_scan_found n p tag : tag <> [] -> element_scan n p tag <> Some [].
Proof.
  intros Htag. revert p. induction n as [|n IH]; intros p; [done|]. cbn [element_scan].
  destruct (find_text_i p tag) as [p'|] eqn:Hf; [|done]. apply find_text_i_found in Hf as [_ Hf].
  assert (p' <> []) by (intros ->; destruct tag; [done | cbn in Hf; lia]).
  destruct (drop (length tag) p') as [|c rest]; [congruence|]. destruct (_ || _ || _); [congruence | apply IH].
Qed.
Lemma import_enough {L} `{FileStore L} xml path tag n : forall m section count first d,
  (forall s, section = Some s -> s <> [] /\ (length s <= n)%nat /\ (length s <= m)%nat) ->
  import_sections n xml path tag section count first d = import_sections m xml path tag section count first d.
Proof.
  induction n as [|n IH]; intros m [s|] count first d Hs;
    [destruct (Hs s eq_refl) as (Hne & Hn & Hm); destruct s; [done | cbn in Hn; lia] | by destruct m | | by destruct m].
  destruct (Hs s eq_refl) as (Hne & Hn & Hm). destruct m as [|m]; [destruct s; [done | cbn in Hm; lia]|].
  cbn [import_sections].
  assert (Hnext : forall q, find_xml_element (tail s) tag = Some q -> q <> [] /\ (length q <= n)%nat /\ (length q <= m)%nat).
  { intros q Hq. pose proof (element_scan_shorter _ _ _ _ Hq) as Hl.
    assert (q <> []) by (intros ->; by eapply element_scan_found, Hq). destruct s as [|c s]; [done|]. cbn in *.
    split; [done | lia]. }
  destruct (_ <=? _)%nat; [done|]. destruct (parse_xml_device_from xml (Some s)) as [result e].
  destruct (negb _); [by apply IH|]. unfold bind. destruct (on_store fs_now d) as [[now d1]|]; [|done].
  destruct (db_upsert_locked _ d1) as [[r d2]|]; [|done]. destruct (negb _); [done|]. by apply IH.
Qed.

(** The text looked at does not end with the device: a device without a product code takes
    the one of the next. *)
Example product_of_next_device :
  let '(result, e) := parse_xml_device (text_bytes
    "<EtherCATInfo><Vendor><Id>#x9A</Id></Vendor><Device><Name>A</Name></Device><Device><Type ProductCode='#x7'/></Device></EtherCATInfo>") in
  result = ECAT_OK /\ e_name e = text_bytes "A" /\ e_product_code e = 7.
Proof. vm_compute. done. Qed.
