(* ===== verification/LmsTheorems.v ===== *)
(** * The commissioning tool: claims

    A checked map has one stator for a position, the planner keeps its limits, outputs stay in
    the process data of the slave under the mover, and the control words lead its drive to
    operation. *)

From Stdlib Require Import String Reals Lra.
From S2P Require Import Prelude Types Num Osal Mailbox Context LinkSpec AlState Cia402 Cia402Theorems Profile Backend Wire Dll Lms.
Import stdpp.list_relations.list stdpp.list_basics.list.

(** ** The map of stators *)

Section Map.
Context {F : Type} `{NumOrder F}.
Implicit Types (s t : LmsStator F) (position : F).

Definition covers s position : Prop := n_leb (st_start_mm s) position = true /\ n_ltb position (st_end_mm s) = true.

Lemma stator_valid_slave s : stator_valid s = true -> 0 < st_slave s.
Proof. unfold stator_valid. rewrite !andb_true_iff. intros [[[Hs _] _] _]. lia. Qed.

Lemma validated_valid (l : list (LmsStator F)) s : validate_stators l = true -> s ∈ l -> stator_valid s = true.
Proof.
  induction l as [|a l IH]; [by intros _ ?%not_elem_of_nil|]. cbn [validate_stators].
  intros [[Ha _]%andb_prop Hl]%andb_prop. rewrite elem_of_cons. intros [->|Hs]; [done | by apply IH].
Qed.

(** Ranges that do not overlap share no position, also when there are infinities and NaNs. *)
Lemma validated_disjoint (l : list (LmsStator F)) s t position :
  validate_stators l = true -> s ∈ l -> t ∈ l -> covers s position -> covers t position -> s = t.
Proof.
  induction l as [|a l IH]; [by intros _ ?%not_elem_of_nil|].
  cbn [validate_stators]. rewrite !andb_true_iff, forallb_forall. intros [[_ Hno] Hl].
  assert (Hapart : forall b, b ∈ l -> covers a position -> covers b position -> False).
  { intros b Hb [Has Hae] [Hbs Hbe]. apply list_elem_of_In, Hno, negb_true_iff in Hb. unfold ranges_overlap in Hb.
    by rewrite (n_le_lt _ _ _ Has Hbe), (n_le_lt _ _ _ Hbs Hae) in Hb. }
  rewrite !elem_of_cons. intros [->|Hs] [->|Ht] Hcs Hct; [done | by edestruct Hapart | by edestruct Hapart | by apply IH].
Qed.
End Map.

(** C35: In a map that has passed the check every position belongs to one stator at most.
    The look-up finds exactly the stator whose range holds the position, wherever it is in
    the file, and none outside the ranges, and its slave is a valid one.  This holds in
    doubles, also when numbers of the map are infinities or NaNs, which the check does not
    refuse: a stator whose start or end is a NaN holds no position. *)
Theorem validated_map_locates {F} `{NumOrder F} (config : list (LmsStator F)) (position : F) :
  validate_lms_config config = true ->
  (forall s, find_stator_for_position config position = Some s <-> s ∈ config /\ covers s position)
  /\ (forall s, find_stator_for_position config position = Some s -> 0 < st_slave s).
Proof.
  intros Hval. assert (Hv : validate_stators config = true) by (by destruct config).
  assert (Hfound : forall s, find_stator_for_position config position = Some s -> s ∈ config /\ covers s position).
  { intros s [Hin Hc]%find_some. split; [by apply list_elem_of_In | by apply andb_prop]. }
  split; [|intros s Hf; eapply stator_valid_slave, validated_valid, Hfound; eassumption].
  intros s. split; [apply Hfound|]. intros [Hs Hc].
  destruct (find_stator_for_position config position) as [t|] eqn:Hf.
  - destruct (Hfound t eq_refl) as [Ht Hct]. by rewrite (validated_disjoint config s t position).
  - apply list_elem_of_In in Hs. apply (find_none _ _ Hf) in Hs.
    destruct Hc as [Hc1 Hc2]. by rewrite Hc1, Hc2 in Hs.
Qed.

(** In exact arithmetic the target in counts that is sent to the slave lies on its stator. *)
Lemma target_on_stator (config : list (LmsStator R)) (position : R) s :
  validate_stators config = true -> find_stator_for_position config position = Some s ->
  (0 <= (position - st_start_mm s) * st_counts_per_mm s < (st_end_mm s - st_start_mm s) * st_counts_per_mm s)%R.
Proof.
  intros Hval [Hin [Hs He]%andb_prop]%find_some. apply list_elem_of_In in Hin.
  pose proof (validated_valid config s Hval Hin) as Hv. unfold stator_valid in Hv.
  apply andb_prop in Hv as [_ Hk%negb_true_iff]. cbn [n_leb n_ltb n_of_Z real] in *.
  revert Hs He Hk. destruct (Rleb_spec (st_start_mm s) position); [|done].
  destruct (Rltb_spec position (st_end_mm s)); [|done]. destruct (Rleb_spec (st_counts_per_mm s) 0); [done|].
  intros _ _ _. split; [nra|]. apply Rmult_lt_compat_r; lra.
Qed.

Definition stator_at (slave : Z) (start_mm end_mm : SpecFloat.spec_float) : LmsStator SpecFloat.spec_float :=
  Stator slave [] start_mm end_mm (n_of_Z 24) (n_of_Z 1000) 0 0 6 6 2 2.

(** The line of a stator that begins nowhere is read, and the check takes it. *)
Lemma nan_stator_passes :
  exists s, load_line 2 (text_bytes "3,odd,nan,inf,24,1000") = LineStator s
    /\ st_start_mm s = SpecFloat.S754_nan /\ validate_lms_config [s] = true.
Proof. eexists. split; [vm_compute; reflexivity|]. by vm_compute. Qed.

Lemma validated_map_locates_witness :
  let config := [stator_at 3 SpecFloat.S754_nan (n_of_Z 960);
                 stator_at 2 (n_of_Z 480) (n_of_Z 960); stator_at 1 (n_of_Z 0) (n_of_Z 480)] in
  find_stator_for_position config (n_of_Z 480) = Some (stator_at 2 (n_of_Z 480) (n_of_Z 960)).
Proof.
  intros config. apply (validated_map_locates config (n_of_Z 480)).
  - vm_compute. reflexivity.
  - split; [right; by left | vm_compute; done].
Defined.

(** ** The planner *)

Lemma abs_spec (x : R) : abs_double x = Rabs x.
Proof.
  unfold abs_double. cbn [n_ltb n_opp n_of_Z real]. destruct (Rltb_spec x 0).
  - by rewrite Rabs_left.
  - by rewrite Rabs_right by lra.
Qed.

(** The velocity the code chooses, before and after the limit. *)
Definition wanted_velocity (m : MotionState R) (dt : R) : R :=
  (let change := (if Rleb 0 (target_mm m - position_mm m) then 1 else -1) * acceleration_mm_s2 m * dt in
   if Rleb (Rabs (target_mm m - position_mm m)) (velocity_mm_s m * velocity_mm_s m / (2 * acceleration_mm_s2 m))
   then velocity_mm_s m - change else velocity_mm_s m + change)%R.
Definition limited (vmax v : R) : R := (if Rltb vmax v then vmax else if Rltb v (- vmax) then - vmax else v)%R.
Definition arrived (m : MotionState R) : MotionState R :=
  m <| position_mm := target_mm m |> <| velocity_mm_s := 0%R |>.

Lemma motion_step_eq (m : MotionState R) dt :
  motion_step m dt
  = (let v := limited (max_velocity_mm_s m) (wanted_velocity m dt) in
     let next := position_mm m + v * dt in
     if Rltb (Rabs (target_mm m - position_mm m)) (1 / 1000000) && Rltb (Rabs (velocity_mm_s m)) (1 / 1000000)
     then (true, arrived m)
     else if (if Rleb 0 (target_mm m - position_mm m) then Rltb (target_mm m) next else Rltb next (target_mm m))
     then (true, arrived m)
     else (false, m <| velocity_mm_s := v |> <| position_mm := next |>))%R.
Proof.
  unfold motion_step. rewrite !abs_spec. cbv zeta. cbn [n_of_Z n_frac n_add n_sub n_mul n_div n_opp n_ltb n_leb real].
  destruct (_ && _); [done|]. unfold wanted_velocity, limited.
  destruct (Rleb_spec 0 (target_mm m - position_mm m)).
  - destruct (Rltb_spec 0 1), (Rltb_spec 1 0); try lra. by rewrite orb_false_r.
  - destruct (Rltb_spec 0 (-1)), (Rltb_spec (-1) 0); try lra. done.
Qed.

Lemma Rabs_bounds a b : (Rabs a <= b)%R -> (- b <= a <= b)%R.
Proof. unfold Rabs. destruct (Rcase_abs a); lra. Qed.
Lemma limited_abs vmax v : (0 < vmax)%R -> (Rabs (limited vmax v) <= vmax)%R.
Proof. intros Hv. unfold limited. destruct (Rltb_spec vmax v); [|destruct (Rltb_spec v (- vmax))]; apply Rabs_le; lra. Qed.
(** The limit does not move the velocity further away from one within it. *)
Lemma limited_change vmax u v d :
  (0 <= d)%R -> (Rabs u <= vmax)%R -> (Rabs (v - u) <= d)%R -> (Rabs (limited vmax v - u) <= d)%R.
Proof.
  intros Hd Hu Hv. apply Rabs_bounds in Hu, Hv. unfold limited.
  destruct (Rltb_spec vmax v); [|destruct (Rltb_spec v (- vmax))]; apply Rabs_le; lra.
Qed.
Lemma wanted_change m dt : (0 <= acceleration_mm_s2 m * dt)%R ->
  (Rabs (wanted_velocity m dt - velocity_mm_s m) <= acceleration_mm_s2 m * dt)%R.
Proof.
  intros Ha. unfold wanted_velocity. set (c := (acceleration_mm_s2 m * dt)%R) in *.
  destruct (Rleb 0 _), (Rleb (Rabs _) _); apply Rabs_le; rewrite ?Rmult_assoc; fold c; lra.
Qed.

(** A planner that keeps its limits. *)
Record planned (m : MotionState R) : Prop := Planned {
  planned_acceleration : (0 < acceleration_mm_s2 m)%R;
  planned_velocity : (0 < max_velocity_mm_s m)%R;
  planned_within : (Rabs (velocity_mm_s m) <= max_velocity_mm_s m)%R;
}.

(** C34: In exact arithmetic and whatever its state, a step of the planner keeps target and
    limits and stays within the velocity limit.  It is done only by arriving: it then stands at
    the target, at once and from any speed, and stood at most one cycle at full speed, or a
    millionth, away from it.  A step that does not arrive changes the
    velocity by at most the acceleration in the cycle, moves by that velocity, and does not
    pass the target. *)
Theorem planner_keeps_limits (m : MotionState R) (dt : R) :
  planned m -> (0 < dt)%R ->
  let '(finished, m') := motion_step m dt in
  planned m' /\ target_mm m' = target_mm m
  /\ max_velocity_mm_s m' = max_velocity_mm_s m /\ acceleration_mm_s2 m' = acceleration_mm_s2 m
  /\ (if finished then
        position_mm m' = target_mm m /\ velocity_mm_s m' = 0
        /\ Rabs (target_mm m - position_mm m) <= Rmax (1 / 1000000) (max_velocity_mm_s m * dt)
      else
        position_mm m' = position_mm m + velocity_mm_s m' * dt
        /\ Rabs (velocity_mm_s m' - velocity_mm_s m) <= acceleration_mm_s2 m * dt
        /\ (if Rleb (position_mm m) (target_mm m) then position_mm m' <= target_mm m
            else target_mm m <= position_mm m'))%R.
Proof.
  intros [Ha Hv Hw] Hdt. rewrite motion_step_eq. cbv zeta.
  assert (Had : (0 <= acceleration_mm_s2 m * dt)%R) by nra.
  pose proof (limited_abs (max_velocity_mm_s m) (wanted_velocity m dt) Hv) as Hlim.
  pose proof (limited_change _ _ _ _ Had Hw (wanted_change m dt Had)) as Hchange.
  set (v := limited (max_velocity_mm_s m) (wanted_velocity m dt)) in *.
  assert (Harr : planned (arrived m)) by (split; cbn; [done | done | rewrite Rabs_R0; lra]).
  pose proof (Rmax_l (1 / 1000000) (max_velocity_mm_s m * dt)).
  pose proof (Rmax_r (1 / 1000000) (max_velocity_mm_s m * dt)).
  apply Rabs_bounds in Hlim as Hl.
  assert (- (max_velocity_mm_s m * dt) <= v * dt <= max_velocity_mm_s m * dt)%R by nra.
  destruct (Rltb_spec (Rabs (target_mm m - position_mm m)) (1 / 1000000)) as [He|He]; cbn [andb].
  1: destruct (Rltb (Rabs (velocity_mm_s m)) (1 / 1000000)); [split_and!; cbn; done || lra|].
  all: destruct (Rleb_spec 0 (target_mm m - position_mm m)), (Rleb_spec (position_mm m) (target_mm m)); try lra.
  all: match goal with |- context [Rltb ?x ?y] => destruct (Rltb_spec x y) end.
  all: split_and!; cbn [position_mm velocity_mm_s target_mm max_velocity_mm_s acceleration_mm_s2 arrived];
    try done; try (by split); try lra; apply Rabs_le; lra.
Qed.

Lemma planner_keeps_limits_witness :
  planned (Motion 0 0 480 250 1000)%R
  /\ planned (motion_step (Motion 0 0 480 250 1000)%R (1 / 1000)%R).2.
Proof.
  assert (Hp : planned (Motion 0 0 480 250 1000)%R) by (split; cbn; [lra | lra | rewrite Rabs_R0; lra]).
  split; [exact Hp|].
  pose proof (planner_keeps_limits (Motion 0 0 480 250 1000)%R (1 / 1000)%R Hp ltac:(lra)) as Hk.
  destruct (motion_step _ _) as [finished m']. exact (proj1 Hk).
Defined.

(** The planner at half a millimetre a second with cycles of a millisecond. *)
Definition slow (position velocity target : R) : MotionState R := Motion position velocity target (1 / 2)%R 1000%R.
Definition slow_step (m : MotionState R) : bool * MotionState R := motion_step m (1 / 1000)%R.

Lemma slow_forward p v t : (p + 1 / 2000 <= t)%R -> (v = 0 \/ v = 1 / 2 \/ v = - (1 / 2))%R ->
  slow_step (slow p v t) = (false, slow (p + 1 / 2000) (1 / 2) t)%R.
Proof.
  intros Hp Hv. unfold slow_step. rewrite motion_step_eq. unfold limited, wanted_velocity.
  cbn [position_mm velocity_mm_s target_mm max_velocity_mm_s acceleration_mm_s2 slow].
  rewrite (Rabs_right (t - p)) by lra.
  destruct (Rltb_spec (t - p) (1 / 1000000)); [lra|]. destruct (Rleb_spec 0 (t - p)); [|lra]. cbn [andb].
  destruct (Rleb_spec (t - p) (v * v / (2 * 1000))); [destruct Hv as [->|[->| ->]]; lra|].
  assert (Hlim : (if Rltb (1 / 2) (v + 1 * 1000 * (1 / 1000)) then 1 / 2
                  else if Rltb (v + 1 * 1000 * (1 / 1000)) (- (1 / 2)) then - (1 / 2)
                  else v + 1 * 1000 * (1 / 1000))%R = (1 / 2)%R).
  { destruct (Rltb_spec (1 / 2) (v + 1 * 1000 * (1 / 1000))), (Rltb_spec (v + 1 * 1000 * (1 / 1000)) (- (1 / 2)));
      destruct Hv as [->|[->| ->]]; lra. }
  rewrite Hlim. replace (p + 1 / 2 * (1 / 1000))%R with (p + 1 / 2000)%R by lra.
  by destruct (Rltb_spec t (p + 1 / 2000)); [lra|].
Qed.

Lemma slow_turns t : slow_step (slow t (1 / 2) t) = (false, slow (t - 1 / 2000) (- (1 / 2)) t)%R.
Proof.
  unfold slow_step. rewrite motion_step_eq. unfold limited, wanted_velocity.
  cbn [position_mm velocity_mm_s target_mm max_velocity_mm_s acceleration_mm_s2 slow].
  rewrite Rminus_diag, Rabs_R0, (Rabs_right (1 / 2)) by lra.
  destruct (Rltb_spec (1 / 2) (1 / 1000000)); [lra|]. rewrite andb_false_r.
  destruct (Rleb_spec 0 0); [|lra]. destruct (Rleb_spec 0 (1 / 2 * (1 / 2) / (2 * 1000))); [|lra].
  replace (1 / 2 - 1 * 1000 * (1 / 1000))%R with (- (1 / 2))%R by lra.
  destruct (Rltb_spec (1 / 2) (- (1 / 2))); [lra|]. destruct (Rltb_spec (- (1 / 2)) (- (1 / 2))); [lra|].
  destruct (Rltb_spec t (t + - (1 / 2) * (1 / 1000))); [lra|].
  by replace (t + - (1 / 2) * (1 / 1000))%R with (t - 1 / 2000)%R by lra.
Qed.

(** A commissioning run may never end: at half a millimetre a second the planner comes to
    stand on a target a whole number of cycles away with its speed still on, brakes through
    zero, leaves the target backwards and returns to it for ever. *)
Theorem planner_never_arrives (cycles : nat) (n : nat) :
  (slow_step (Nat.iter n (fun m => (slow_step m).2)
     (lms_motion_init 0 (INR (S cycles) / 2000) (1 / 2) 1000)%R)).1 = false.
Proof.
  set (t := (INR (S cycles) / 2000)%R).
  assert (Ht : (1 / 2000 <= t)%R).
  { unfold t. pose proof (pos_INR cycles). rewrite S_INR. lra. }
  assert (Hinv : exists p v, Nat.iter n (fun m => (slow_step m).2) (lms_motion_init 0 t (1 / 2) 1000)%R = slow p v t
            /\ (v = 0 \/ v = 1 / 2 \/ v = - (1 / 2))%R
            /\ ((exists j, p + INR (S j) / 2000 = t) \/ (p = t /\ v = 1 / 2))%R).
  { induction n as [|n (p & v & Hm & Hv & Hp)].
    - exists 0%R, 0%R. split; [reflexivity|]. split; [by left|]. left. exists cycles. unfold t. lra.
    - rewrite Nat.iter_succ, Hm. destruct Hp as [[j Hj]|[-> ->]].
      + rewrite slow_forward by (done || (rewrite S_INR in Hj; pose proof (pos_INR j); lra)).
        eexists _, _. split; [reflexivity|]. split; [tauto|]. destruct j as [|j].
        * right. split; [cbn in Hj; lra | done].
        * left. exists j. rewrite S_INR in Hj. lra.
      + rewrite slow_turns. eexists _, _. split; [reflexivity|]. split; [tauto|]. left. exists 0%nat. cbn. lra. }
  destruct Hinv as (p & v & -> & Hv & [[j Hj]|[-> ->]]).
  - by rewrite slow_forward by (done || (rewrite S_INR in Hj; pose proof (pos_INR j); lra)).
  - by rewrite slow_turns.
Qed.

(** ** Outputs *)

Definition with_image {L} (m : list Z) (b : Fieldbus L) : Fieldbus L :=
  b <| fb_context := (fb_context b) <| iomap := m |> |>.
Definition image {L} (b : Fieldbus L) : list Z := iomap (fb_context b).

(** The bytes [first] to [first + n] of an image may have changed, the others have not. *)
Record changed_in (first n : Z) (m m' : list Z) : Prop := ChangedIn {
  changed_length : zlen m' = zlen m;
  changed_outside : forall i, i < first \/ first + n <= i -> zget m' i = zget m i;
}.
Lemma changed_refl first n m : changed_in first n m m.
Proof. by split. Qed.
Lemma changed_blit first n m m' off bytes m'' :
  changed_in first n m m' -> zblit m' (first + off) bytes = Some m'' -> 0 <= off -> off + zlen bytes <= n ->
  changed_in first n m m''.
Proof.
  intros [Hl Ho] Hb H0 Hn. split; [by rewrite (zblit_length _ _ _ _ Hb)|].
  intros i Hi. rewrite (zget_zblit _ _ _ _ i Hb), decide_False by lia. by apply Ho.
Qed.

(** The process data of a slave is in the image. *)
Record slave_mapped (m : list Z) (slave : ec_slavet) : Prop := SlaveMapped {
  mapped_outputs : forall base, s_outputs slave = Some base -> 0 <= base /\ base + s_Obytes slave <= zlen m;
  mapped_inputs : forall base, s_inputs slave = Some base -> 0 <= base /\ base + s_Ibytes slave <= zlen m;
}.

Lemma output_ok_inv slave off size :
  output_range_ok slave off size = true -> off <= INT32_MAX -> size <= 4 ->
  exists base, s_outputs slave = Some base /\ 0 <= off /\ 0 < size /\ off + size <= s_Obytes slave.
Proof.
  unfold output_range_ok, u32, INT32_MAX. intros Hok Hoff Hsize. destruct (s_outputs slave) as [base|]; [|done].
  exists base. split; [done|]. apply andb_prop in Hok as [[H1 H2]%andb_prop H3].
  rewrite Z.mod_small in H3 by lia. lia.
Qed.
Lemma input_ok_inv slave off size :
  input_range_ok slave off size = true -> off <= INT32_MAX -> size <= 4 ->
  exists base, s_inputs slave = Some base /\ 0 <= off /\ 0 < size /\ off + size <= s_Ibytes slave.
Proof.
  unfold input_range_ok, u32, INT32_MAX. intros Hok Hoff Hsize. destruct (s_inputs slave) as [base|]; [|done].
  exists base. split; [done|]. apply andb_prop in Hok as [[H1 H2]%andb_prop H3].
  rewrite Z.mod_small in H3 by lia. lia.
Qed.

Lemma on_context_here {L A} Fl (m : M (ecx_contextt L) A) Q (b : Fieldbus L) :
  wp Fl m (fun a c => Q a (b <| fb_context := c |>)) (fb_context b) -> wp Fl (on_context m) Q b.
Proof. unfold on_context, zoom, wp. by destruct (m (fb_context b)) as [[a c]|]. Qed.
Lemma same_context {L} (b : Fieldbus L) : b <| fb_context := fb_context b |> = b.
Proof. by destruct b. Qed.

Lemma wp_write_outputs {L} Fl slave base off bytes m' Q (b : Fieldbus L) :
  s_outputs slave = Some base -> zblit (image b) (base + off) bytes = Some m' -> Q tt (with_image m' b) ->
  wp Fl (write_outputs slave off bytes) Q b.
Proof.
  intros Hs Hb HQ. unfold write_outputs. apply wp_bind. eapply wp_of_opt; [exact Hs|].
  apply on_context_here. unfold iomap_write. apply wp_bind, wp_gets, wp_bind.
  eapply wp_of_opt; [exact Hb|]. by apply wp_modify.
Qed.
Lemma wp_read_inputs {L} Fl slave base off size bytes Q (b : Fieldbus L) :
  s_inputs slave = Some base -> zslice (image b) (base + off) size = Some bytes -> Q bytes b ->
  wp Fl (read_inputs slave off size) Q b.
Proof.
  intros Hs Hb HQ. unfold read_inputs. apply wp_bind. eapply wp_of_opt; [exact Hs|].
  apply on_context_here. unfold iomap_read. apply wp_bind, wp_gets.
  eapply wp_of_opt; [exact Hb|]. by rewrite same_context.
Qed.

(** The fields of a stator that are written, the mode when it has one, do not overlap. *)
Definition apart (a n b k : Z) : Prop := a + n <= b \/ b + k <= a.
Definition fields_apart {F} (s : LmsStator F) : Prop :=
  apart (st_controlword_offset s) 2 (st_target_position_offset s) 4
  /\ (0 <= st_mode_offset s -> apart (st_mode_offset s) 1 (st_controlword_offset s) 2
       /\ apart (st_mode_offset s) 1 (st_target_position_offset s) 4).
(** What the parser of the map makes of the offsets. *)
Definition int_offsets {F} (s : LmsStator F) : Prop :=
  Forall (fun off => off <= INT32_MAX)
    [st_controlword_offset s; st_statusword_offset s; st_mode_offset s; st_target_position_offset s;
     st_actual_position_offset s].

(** The control word for the status word in the image. *)
Definition answered_controlword {F} (s : LmsStator F) (slave : ec_slavet) (m : list Z) : Z :=
  match s_inputs slave with
  | Some base =>
      if input_range_ok slave (st_statusword_offset s) 2
      then match zslice m (base + st_statusword_offset s) 2 with
           | Some bytes => cia402_next_controlword (of_le bytes)
           | None => 0x06
           end
      else 0x06
  | None => 0x06
  end.

Section Outputs.
Context {F : Type} `{Num F} {L : Type}.
Implicit Types (s : LmsStator F) (slave : ec_slavet) (b : Fieldbus L).

(** A write in the range of the slave's outputs. *)
Lemma wp_write_ok Fl slave base off bytes Q b :
  s_outputs slave = Some base -> 0 <= base + off -> base + off + zlen bytes <= zlen (image b) ->
  (forall m', zblit (image b) (base + off) bytes = Some m' -> Q tt (with_image m' b)) ->
  wp Fl (write_outputs slave off bytes) Q b.
Proof.
  intros Hs H0 H1 HQ. destruct (zblit (image b) (base + off) bytes) as [m'|] eqn:Hb.
  - eapply wp_write_outputs; [done..|]. by apply HQ.
  - rewrite zblit_some in Hb by lia. done.
Qed.
Lemma wp_read_ok Fl slave base off size Q b :
  s_inputs slave = Some base -> 0 <= base + off -> 0 <= size -> base + off + size <= zlen (image b) ->
  (forall bytes, zslice (image b) (base + off) size = Some bytes -> Q bytes b) ->
  wp Fl (read_inputs slave off size) Q b.
Proof.
  intros Hs H0 Hn H1 HQ. destruct (zslice (image b) (base + off) size) as [x|] eqn:Hb.
  - eapply wp_read_inputs; [done..|]. by apply HQ.
  - rewrite zslice_some in Hb by lia. done.
Qed.

(** The reading at the end is only for the printing. *)
Lemma wp_last_read Fl s slave Q b :
  slave_mapped (image b) slave -> st_actual_position_offset s <= INT32_MAX -> Q true b ->
  wp Fl (do* when (input_range_ok slave (st_actual_position_offset s) 4)
               (let* x := read_inputs slave (st_actual_position_offset s) 4 in ret tt) in
         ret true) Q b.
Proof.
  intros [_ Hmi] Ha HQ. apply wp_bind, wp_when; intros Hin; [|by apply wp_ret].
  destruct (input_ok_inv _ _ _ Hin) as (base & E & H0 & _ & H1); [done..|]. destruct (Hmi _ E) as [Hb0 Hb1].
  apply wp_bind. eapply wp_read_ok; [exact E | lia..|]. intros bytes _. by apply wp_ret, wp_ret.
Qed.

Lemma wp_answered Fl s slave Q b :
  slave_mapped (image b) slave -> st_statusword_offset s <= INT32_MAX ->
  Q (answered_controlword s slave (image b)) b ->
  wp Fl (if input_range_ok slave (st_statusword_offset s) 2
         then let* x := read_inputs slave (st_statusword_offset s) 2 in ret (cia402_next_controlword (read_u16_le x))
         else ret 0x06) Q b.
Proof.
  intros [_ Hmi] Hw. unfold answered_controlword.
  destruct (input_range_ok slave (st_statusword_offset s) 2) eqn:Hin.
  - destruct (input_ok_inv _ _ _ Hin) as (base & E & H0 & _ & H1); [done..|]. rewrite E.
    destruct (Hmi _ E) as [Hb0 Hb1]. intros HQ.
    apply wp_bind. eapply wp_read_ok; [exact E | lia..|]. intros x Hx. rewrite Hx in HQ. by apply wp_ret.
  - intros HQ. apply wp_ret. by destruct (s_inputs slave).
Qed.

(** The writes at the end of the function. *)
Lemma wp_last_writes Fl s slave base controlword target Q b :
  s_outputs slave = Some base -> slave_mapped (image b) slave -> int_offsets s ->
  output_range_ok slave (st_controlword_offset s) 2 = true ->
  output_range_ok slave (st_target_position_offset s) 4 = true ->
  (forall m', changed_in base (s_Obytes slave) (image b) m' ->
     (fields_apart s -> zslice m' (base + st_controlword_offset s) 2 = Some (le_bytes 2 controlword)
        /\ zslice m' (base + st_target_position_offset s) 4 = Some (le_bytes 4 target)) ->
     Q true (with_image m' b)) ->
  wp Fl (do* write_outputs slave (st_controlword_offset s) (le_bytes 2 controlword) in
         do* write_outputs slave (st_target_position_offset s) (le_bytes 4 target) in
         do* when (output_range_ok slave (st_mode_offset s) 1) (write_outputs slave (st_mode_offset s) [8]) in
         do* when (input_range_ok slave (st_actual_position_offset s) 4)
               (let* x := read_inputs slave (st_actual_position_offset s) 4 in ret tt) in
         ret true) Q b.
Proof.
  intros Hs [Hmo Hmi] Hint Hc Ht HQ. destruct (Hmo _ Hs) as [Hb0 Hb1].
  unfold int_offsets in Hint. rewrite !Forall_cons in Hint. destruct Hint as (Hic & Hiw & Him & Hit & Hia & _).
  destruct (output_ok_inv _ _ _ Hc) as (? & E & Hc0 & _ & Hc1); [done..|]. simplify_eq.
  destruct (output_ok_inv _ _ _ Ht) as (? & E & Ht0 & _ & Ht1); [done..|]. simplify_eq.
  assert (Hl2 : zlen (le_bytes 2 controlword) = 2) by done. assert (Hl4 : zlen (le_bytes 4 target) = 4) by done.
  apply wp_bind. eapply wp_write_ok; [exact Hs | lia..|]. intros m1 H1.
  pose proof (zblit_length _ _ _ _ H1) as Hz1.
  pose proof (changed_blit _ _ _ _ _ _ _ (changed_refl base (s_Obytes slave) _) H1 Hc0 ltac:(lia)) as Hch1.
  apply wp_bind. eapply wp_write_ok; [exact Hs | change (image (with_image m1 b)) with m1; lia..|].
  change (image (with_image m1 b)) with m1. intros m2 H2. pose proof (zblit_length _ _ _ _ H2) as Hz2.
  pose proof (changed_blit _ _ _ _ _ _ _ Hch1 H2 Ht0 ltac:(lia)) as Hch2.
  pose proof (zslice_zblit_same _ _ _ _ H2) as Hs2. rewrite Hl4 in Hs2.
  pose proof (zslice_zblit_same _ _ _ _ H1) as Hs1. rewrite Hl2 in Hs1.
  assert (Hs1' : fields_apart s -> zslice m2 (base + st_controlword_offset s) 2 = Some (le_bytes 2 controlword)).
  { intros [Ha _]. rewrite (zslice_zblit_disjoint _ _ _ _ _ _ H2) by (unfold apart in Ha; lia). done. }
  apply wp_bind, wp_when; intros Hmode.
  - destruct (output_ok_inv _ _ _ Hmode) as (? & E & Hm0 & _ & Hm1); [done || lia..|]. simplify_eq.
    eapply wp_write_ok; [exact Hs | change (image (with_image m2 _)) with m2; change (zlen [8]) with 1; lia..|].
    change (image (with_image m2 _)) with m2. intros m3 H3. pose proof (zblit_length _ _ _ _ H3) as Hz3.
    pose proof (changed_blit _ _ _ _ _ _ _ Hch2 H3 Hm0 Hm1) as Hch3.
    apply wp_last_read; [|done|].
    + split; change (image _) with m3; rewrite Hz3, Hz2, Hz1; eauto.
    + apply (HQ m3); [done|]. intros Hap. specialize (Hs1' Hap). destruct Hap as [_ [Ha1 Ha2]%(fun f => f Hm0)].
      unfold apart in *.
      by rewrite !(zslice_zblit_disjoint _ _ _ _ _ _ H3) by (change (zlen [8]) with 1; lia).
  - apply wp_last_read; [|done|].
    + split; change (image _) with m2; rewrite Hz2, Hz1; eauto.
    + apply (HQ m2); [done|]. auto.
Qed.
End Outputs.

(** C24: With the process data of the slave under the mover in the image, sending the outputs
    succeeds in the model and changes nothing but bytes of that slave's outputs.  Unless
    driving is enabled and control word and target lie in the outputs, nothing changes; the
    result says whether that was asked for and could not be done.  When it is done, the image
    holds the control word that answers the slave's status and the target in counts. *)
Theorem lms_outputs_stay_in_slave {F} `{Num F} {L} (config : list (LmsStator F)) (position : F)
    (enable : bool) (b : Fieldbus L) (s : LmsStator F) (slave : ec_slavet) (target : Z) :
  find_stator_for_position config position = Some s ->
  0 < st_slave s <= slavecount (fb_context b) -> zget (slavelist (fb_context b)) (st_slave s) = Some slave ->
  slave_mapped (image b) slave -> int_offsets s ->
  to_i32 (n_mul (n_sub position (st_start_mm s)) (st_counts_per_mm s)) = Some target ->
  total (lms_apply_motion_outputs config position enable)
    (fun r b' => exists m', b' = with_image m' b
       /\ r = negb enable || (output_range_ok slave (st_controlword_offset s) 2
                              && output_range_ok slave (st_target_position_offset s) 4)
       /\ (enable && r = false -> m' = image b)
       /\ (enable && r = true -> exists base, s_outputs slave = Some base
             /\ changed_in base (s_Obytes slave) (image b) m'
             /\ (fields_apart s ->
                   zslice m' (base + st_controlword_offset s) 2
                   = Some (le_bytes 2 (answered_controlword s slave (image b)))
                   /\ zslice m' (base + st_target_position_offset s) 4 = Some (le_bytes 4 (u32 target)))))
    b.
Proof.
  intros Hf Hn Hs Hm Hint Ht. unfold lms_apply_motion_outputs. rewrite Hf. apply wp_bind, wp_gets.
  assert ((st_slave s <=? 0) || (slavecount (fb_context b) <? st_slave s) = false) as -> by lia.
  apply wp_bind, on_context_here. eapply wp_get_slave; [exact Hs|]. rewrite same_context.
  apply wp_bind. eapply wp_of_opt; [exact Ht|].
  assert (Hsame : with_image (image b) b = b) by (by destruct b as [[] ? ?]).
  destruct enable; cbn [negb andb orb]; [|by apply wp_ret; exists (image b)].
  destruct (output_range_ok slave (st_controlword_offset s) 2) eqn:Hc; cbn [negb andb orb];
    [|by apply wp_ret; exists (image b)].
  destruct (output_range_ok slave (st_target_position_offset s) 4) eqn:Hp; cbn [negb andb orb];
    [|by apply wp_ret; exists (image b)].
  pose proof Hint as Hint'. unfold int_offsets in Hint'. rewrite !Forall_cons in Hint'. destruct Hint' as (Hic & Hiw & _).
  destruct (output_ok_inv _ _ _ Hc) as (base & E & _); [done..|].
  apply wp_bind, wp_answered; [done..|]. eapply wp_last_writes; [exact E | done..|].
  intros m' Hch Hfields. exists m'. split; [done|]. split; [done|]. split; [done|]. intros _. by exists base.
Qed.

(** One drive with eight bytes of outputs and four of inputs, ready to switch on. *)
Definition drive_slave : ec_slavet :=
  ec_slave_zero <| s_outputs := Some 0 |> <| s_Obytes := 8 |> <| s_inputs := Some 8 |> <| s_Ibytes := 4 |>.
Definition drive_bus : Fieldbus unit :=
  MkFieldbus ((context_zero tt [0; 0; 0; 0; 0; 0; 0; 0; 0x21; 0; 0; 0])
                <| slavelist := [ec_slave_zero; drive_slave] |> <| slavecount := 1 |>) false 0.
Definition drive_stator : LmsStator SpecFloat.spec_float :=
  Stator 1 [] (n_of_Z 0) (n_of_Z 480) (n_of_Z 24) (n_of_Z 1000) 0 0 (-1) (-1) 4 (-1).
Lemma lms_outputs_stay_in_slave_witness :
  total (lms_apply_motion_outputs [drive_stator] (n_of_Z 2) true)
    (fun r b' => r = true /\ zslice (image b') 0 8 = Some [7; 0; 0; 0; 0xd0; 0x07; 0; 0]) drive_bus.
Proof.
  assert (Ht : to_i32 (n_mul (n_sub (n_of_Z 2) (st_start_mm drive_stator)) (st_counts_per_mm drive_stator)) = Some 2000)
    by (vm_compute; reflexivity).
  assert (Hm : slave_mapped (image drive_bus) drive_slave)
    by (split; intros base [= <-]; vm_compute; split; discriminate).
  assert (Hi : int_offsets drive_stator) by (repeat constructor; vm_compute; discriminate).
  assert (Hf : find_stator_for_position [drive_stator] (n_of_Z 2) = Some drive_stator) by (vm_compute; reflexivity).
  assert (Hn : 0 < st_slave drive_stator <= slavecount (fb_context drive_bus)) by (vm_compute; split; [|discriminate]; reflexivity).
  assert (Hs : zget (slavelist (fb_context drive_bus)) (st_slave drive_stator) = Some drive_slave) by reflexivity.
  pose proof (lms_outputs_stay_in_slave [drive_stator] (n_of_Z 2) true drive_bus drive_stator drive_slave 2000
                Hf Hn Hs Hm Hi Ht) as Hw.
  destruct (total_run _ _ _ Hw) as (r & b' & Hrun & m' & _ & Hr & _).
  vm_compute in Hrun. injection Hrun as <- <-. vm_compute. split; reflexivity.
Defined.

(** ** The control words lead to operation *)

(** What the tool answers in a state. *)
Definition lms_answer (s : Cia402State) : Z :=
  match s with
  | CIA402_STATE_FAULT => 0x80
  | CIA402_STATE_READY_TO_SWITCH_ON => 0x07
  | CIA402_STATE_SWITCHED_ON | CIA402_STATE_OPERATION_ENABLED => 0x0f
  | _ => 0x06
  end.

Lemma next_controlword_masked w : cia402_next_controlword w = cia402_next_controlword (Z.land w 0x6f).
Proof.
  unfold cia402_next_controlword.
  by rewrite <- (land_sub w 0x4f), <- (land_sub w 0x6f).
Qed.
Lemma next_controlword_answers w : cia402_next_controlword w = lms_answer (cia402_state_from_status w).
Proof.
  rewrite next_controlword_masked, (proj1 (decode_masked w)). pose proof (masked_range w) as Hr.
  revert Hr. generalize (Z.land w 0x6f). intros v Hv.
  assert (Hall : forallb (fun v => cia402_next_controlword v =? lms_answer (cia402_state_from_status v)) (seqZ 0 128)
                 = true) by (vm_compute; reflexivity).
  rewrite forallb_forall in Hall. apply Z.eqb_eq, Hall, list_elem_of_In, elem_of_seqZ. lia.
Qed.

Lemma lms_leads : leads lms_answer.
Proof. by split. Qed.

(** The closed loop of the tool: each cycle it answers the status word with a control word. *)
Definition tool_cycle {D} `{Drive D} (d : D) : D := drive_cycle d (cia402_next_controlword (statusword d)).
Definition tool_run {D} `{Drive D} (n : nat) (d : D) : D := Nat.iter n tool_cycle d.

Lemma tool_run_loop {D} `{Drive D} (d : D) n : tool_run n d = loop_run lms_answer n d.
Proof.
  unfold tool_run, loop_run. induction n as [|n IH]; [done|]. rewrite !Nat.iter_succ, IH.
  unfold tool_cycle, loop_cycle, power_state. by rewrite next_controlword_answers.
Qed.

(** States the tool leads out of: not a quick stop, and no fault whose reset bit is set. *)
Definition startable {D} `{Drive D} (d : D) : Prop :=
  match power_state d with
  | CIA402_STATE_QUICK_STOP_ACTIVE | CIA402_STATE_UNKNOWN => False
  | CIA402_STATE_FAULT => Z.testbit (last_command d) 7 = false
  | _ => True
  end.

(** C30: The control words of the tool bring a drive that follows the profile from any state
    but a quick stop, an unknown state, or a fault whose reset bit is already set
    ([startable]), to OPERATION ENABLED within five transitions, a fault reaction included, and
    keep it there. *)
Theorem tool_reaches_operation {D} `{Drive D} {T : nat} `{!DriveLaws D T} (d : D) :
  startable d ->
  exists n, (n <= 5 * T)%nat /\ forall m, power_state (tool_run (m + n) d) = CIA402_STATE_OPERATION_ENABLED.
Proof.
  unfold startable. intros Hd.
  assert (exists k, lead_steps (power_state d) = Some k /\ (k <= 5)%nat) as (k & Hk & Hle).
  { destruct (power_state d); try done; (eexists; split; [reflexivity | lia]). }
  destruct (leads_reaches lms_answer k lms_leads d) as (n & Hn & Hs); [|done|].
  - unfold resettable. by destruct (power_state d).
  - exists n. split; [nia|]. intros m. rewrite tool_run_loop, loop_add. by apply leads_stays, Hs; apply lms_leads.
Qed.

Lemma tool_reaches_operation_witness :
  startable (QuickDrive CIA402_STATE_FAULT_REACTION_ACTIVE 0)
  /\ exists n, (n <= 5)%nat /\ forall m,
       power_state (tool_run (m + n) (QuickDrive CIA402_STATE_FAULT_REACTION_ACTIVE 0)) = CIA402_STATE_OPERATION_ENABLED.
Proof.
  assert (Hd : startable (QuickDrive CIA402_STATE_FAULT_REACTION_ACTIVE 0)) by exact I.
  split; [exact Hd|]. exact (tool_reaches_operation (T := 1) _ Hd).
Defined.
