(* ===== verification/Monitor.v ===== *)
(** * The stand-alone monitor (linux_rt/ethercat_rt_core/src/igh_lts_monitor.c)

    A program beside the backend server: it cycles the process data of one drive on the IgH
    master, with outputs, a power sequence and a motion from its command line.  The calls of
    the IgH master and of the operating system are a parameter, [IghMaster]; what the program
    prints is not modelled.

    The claims compare the loop with a schedule of outputs: on every bus the program's rounds
    are the steps of the schedule, as long as the cycles that were asked for.  From it: the
    default outputs are zero, and a jog enables the drive and then moves it. *)

From Stdlib Require Import String.
From S2P Require Import Prelude Num Osal Cia402 Profile Cia402Theorems Backend RtCycle BackendTypes Wire Server.
Import stdpp.list_relations.list stdpp.list_basics.list.

Definition LTS_VENDOR_ID : Z := 0x0000205e.
Definition LTS_PRODUCT_CODE : Z := 0x90000300.
Definition DEFAULT_PERIOD_US : Z := 1000.
Definition DEFAULT_PRINT_EVERY : Z := 1000.
Definition DEFAULT_SEQUENCE_TIMEOUT_MS : Z := 5000.

(** Places of the fields in the process data. *)
Record LtsOffsets : Type := MkOffsets {
  off_controlword : Z;
  off_target_position : Z;
  off_target_velocity : Z;
  off_mode_of_operation : Z;
  off_statusword : Z;
  off_actual_position : Z;
  off_actual_velocity : Z;
  off_mode_display : Z;
}.

Record MonitorOptions (F : Type) : Type := MkMonitorOptions {
  mo_master_index : Z;
  mo_alias : Z;
  mo_position : Z;
  mo_vendor_id : Z;
  mo_product_code : Z;
  mo_period_us : Z;
  mo_print_every : Z;
  mo_max_cycles : Z;
  mo_controlword : Z;
  mo_target_position : Z;
  mo_target_velocity : Z;
  mo_mode : Z;
  mo_priority : Z;
  mo_configure_pdos : bool;
  mo_sequence : Cia402Sequence;
  mo_sequence_timeout_ms : Z;
  mo_motion : Cia402MotionCommand F;
}.
Arguments MkMonitorOptions {F}.
Arguments mo_master_index {F}.
Arguments mo_alias {F}.
Arguments mo_position {F}.
Arguments mo_vendor_id {F}.
Arguments mo_product_code {F}.
Arguments mo_period_us {F}.
Arguments mo_print_every {F}.
Arguments mo_max_cycles {F}.
Arguments mo_controlword {F}.
Arguments mo_target_position {F}.
Arguments mo_target_velocity {F}.
Arguments mo_mode {F}.
Arguments mo_priority {F}.
Arguments mo_configure_pdos {F}.
Arguments mo_sequence {F}.
Arguments mo_sequence_timeout_ms {F}.
Arguments mo_motion {F}.

(** ** Options *)

Section Options.
Context {F : Type} `{Num F}.
Abbreviation options := (MonitorOptions F).

Definition monitor_options_init : options :=
  MkMonitorOptions 0 0 0 LTS_VENDOR_ID LTS_PRODUCT_CODE DEFAULT_PERIOD_US DEFAULT_PRINT_EVERY 0 0 0 0 0 80 true
    CIA402_SEQ_NONE DEFAULT_SEQUENCE_TIMEOUT_MS motion_init.

(** An option without a value. *)
Definition monitor_flag (name : string) (o : options) : option options :=
  let sequence s := Some (o <| mo_sequence := s |>) in
  if String.eqb name "--use-sii-pdos" then Some (o <| mo_configure_pdos := false |>)
  else if String.eqb name "--fault-reset" then sequence CIA402_SEQ_FAULT_RESET
  else if String.eqb name "--cia402-shutdown" then sequence CIA402_SEQ_SHUTDOWN
  else if String.eqb name "--cia402-switch-on" then sequence CIA402_SEQ_SWITCH_ON
  else if String.eqb name "--cia402-enable" then sequence CIA402_SEQ_ENABLE
  else if String.eqb name "--cia402-disable" then sequence CIA402_SEQ_DISABLE
  else if String.eqb name "--servo-stop" then
    Some (o <| mo_motion ::= (fun m => m <| c_type := CIA402_MOTION_SERVO_STOP |>) |>)
  else if String.eqb name "--home" then
    Some (o <| mo_motion ::= (fun m => m <| c_type := CIA402_MOTION_HOME |> <| c_mode := CIA402_MODE_HOMING |>) |>)
  else None.

(** An option with a value: [None] when there is no such option or its value is refused. *)
Definition monitor_set_option (name : string) (value : list Z) (o : options) : option options :=
  let signed (p : Z -> bool) (set : Z -> options) := v ← parse_int value; if p v then Some (set v) else None in
  let unsigned (p : Z -> bool) (set : Z -> options) := v ← parse_u32 value; if p v then Some (set v) else None in
  let any := fun _ : Z => true in
  if String.eqb name "--period-us" then signed (fun v => 0 <? v) (fun v => o <| mo_period_us := v |>)
  else if String.eqb name "--print-every" then signed (fun v => 0 <? v) (fun v => o <| mo_print_every := v |>)
  else if String.eqb name "--cycles" then signed (fun v => 0 <=? v) (fun v => o <| mo_max_cycles := v |>)
  else if String.eqb name "--position" then unsigned (fun v => v <=? 65535) (fun v => o <| mo_position := v |>)
  else if String.eqb name "--vendor" then unsigned any (fun v => o <| mo_vendor_id := v |>)
  else if String.eqb name "--product" then unsigned any (fun v => o <| mo_product_code := v |>)
  else if String.eqb name "--controlword" then
    unsigned (fun v => v <=? 65535) (fun v => o <| mo_controlword := v |>)
  else if String.eqb name "--target-position" then signed any (fun v => o <| mo_target_position := v |>)
  else if String.eqb name "--target-velocity" then signed any (fun v => o <| mo_target_velocity := v |>)
  else if String.eqb name "--mode" then
    signed (fun v => (-128 <=? v) && (v <=? 127)) (fun v => o <| mo_mode := v |>)
  else if String.eqb name "--priority" then
    signed (fun v => (1 <=? v) && (v <=? 99)) (fun v => o <| mo_priority := v |>)
  else if String.eqb name "--sequence-timeout-ms" then
    signed (fun v => 0 <? v) (fun v => o <| mo_sequence_timeout_ms := v |>)
  else if String.eqb name "--jog-velocity" then
    signed any (fun v => o <| mo_motion ::= (fun m => m <| c_target_velocity := v |>
                                <| c_type := CIA402_MOTION_JOG_VELOCITY |> <| c_mode := CIA402_MODE_CSV |>) |>)
  else if String.eqb name "--profile-position" then
    signed any (fun v => o <| mo_motion ::= (fun m => m <| c_target_position := v |>
                                <| c_type := CIA402_MOTION_PROFILE_POSITION |>
                                <| c_mode := CIA402_MODE_PROFILE_POSITION |>) |>)
  else if String.eqb name "--profile-velocity" then
    signed any (fun v => o <| mo_motion ::= (fun m => m <| c_profile_velocity := v |>) |>)
  else if String.eqb name "--home-velocity" then
    signed any (fun v => o <| mo_motion ::= (fun m => m <| c_target_velocity := v |>) |>)
  else if String.eqb name "--motion-pulse-cycles" then
    signed (fun v => 0 <? v) (fun v => o <| mo_motion ::= (fun m => m <| c_pulse_cycles := v |>) |>)
  else None.

Inductive monitor_parse : Type := MonitorParsed (o : options) | MonitorHelp | MonitorInvalid.

Fixpoint monitor_parse_args (args : list string) (o : options) : monitor_parse :=
  match args with
  | [] => MonitorParsed o
  | a :: rest =>
      if String.eqb a "--help" then MonitorHelp
      else match monitor_flag a o with
           | Some o => monitor_parse_args rest o
           | None =>
               match rest with
               | value :: rest =>
                   match monitor_set_option a (text_bytes value) o with
                   | Some o => monitor_parse_args rest o
                   | None => MonitorInvalid
                   end
               | [] => MonitorInvalid
               end
           end
  end.
Definition monitor_parse_options (args : list string) : monitor_parse :=
  monitor_parse_args args monitor_options_init.

(** A motion that moves needs the drive enabled. *)
Definition monitor_start (o : options) : options :=
  match mo_sequence o, c_type (mo_motion o) with
  | CIA402_SEQ_NONE, (CIA402_MOTION_JOG_VELOCITY | CIA402_MOTION_PROFILE_POSITION | CIA402_MOTION_HOME) =>
      o <| mo_sequence := CIA402_SEQ_ENABLE |>
  | _, _ => o
  end.
End Options.

(** ** Time *)

Definition NSEC_PER_S : Z := 1000000000.

(** The loop of carries, one round for a second. *)
Fixpoint carry_ns (rounds : nat) (time : ec_timet) : ec_timet :=
  match rounds with
  | O => time
  | S rounds =>
      if NSEC_PER_S <=? tv_nsec time
      then carry_ns rounds (TimeSpec (tv_sec time + 1) (tv_nsec time - NSEC_PER_S)) else time
  end.
Definition add_ns (time : ec_timet) (ns : Z) : ec_timet :=
  carry_ns (Z.to_nat ((tv_nsec time + ns) / NSEC_PER_S)) (TimeSpec (tv_sec time) (tv_nsec time + ns)).
Definition timespec_to_ns (time : ec_timet) : Z := s64 (tv_sec time * NSEC_PER_S + tv_nsec time).
Definition ns_to_us (ns : Z) : Z := Z.quot ns 1000.
Definition abs_i64 (value : Z) : Z := if value <? 0 then - value else value.

(** ** Process data *)

Definition pdo_read (off n : Z) (image : list Z) : option Z := of_le <$> zslice image off n.
Definition pdo_write (off : Z) (n : nat) (v : Z) (image : list Z) : option (list Z) := zblit image off (le_bytes n v).

(** The four outputs. *)
Definition pdo_write_output (off : LtsOffsets) (output : Cia402PdoOutput) (image : list Z) : option (list Z) :=
  image ← pdo_write (off_controlword off) 2 (controlword output) image;
  image ← pdo_write (off_target_position off) 4 (o_target_position output) image;
  image ← pdo_write (off_target_velocity off) 4 (o_target_velocity output) image;
  pdo_write (off_mode_of_operation off) 1 (o_mode output) image.

(** ** The master and the system *)

(** Requests that can fail answer with [true] when they succeed.  [ecrt_receive] is
    [ecrt_master_receive] and [ecrt_domain_process], which put what has come into the process
    data; [ecrt_send] is [ecrt_domain_queue] and [ecrt_master_send]. *)
Class IghMaster (W : Type) : Type := {
  ecrt_request_master : Z -> M W bool;
  ecrt_master_create_domain : M W bool;
  ecrt_master_slave_config : Z -> Z -> Z -> Z -> M W bool;
  ecrt_slave_config_pdos : M W bool;
  ecrt_domain_reg_pdo_entry_list : M W (option LtsOffsets);
  ecrt_master_activate : M W bool;
  ecrt_domain_data : M W (option (list Z));
  ecrt_receive : list Z -> M W (list Z);
  ecrt_domain_state : M W (Z * ec_wc_state_t);
  ecrt_slave_operational : M W bool;
  ecrt_send : list Z -> M W unit;
  ecrt_release_master : M W unit;
  igh_realtime : Z -> M W unit;
  igh_clock : M W ec_timet;
  igh_sleep_until : ec_timet -> M W unit;
  igh_stopped : M W bool;   (** the flag of the signal handler *)
}.

(** ** Variables of the program *)

Record monitor_local : Type := MonitorLocal {
  m_image : list Z;
  m_wakeup_time : ec_timet;
  m_previous_loop_time : ec_timet;
  m_min_loop_us : Z;
  m_max_loop_us : Z;
  m_sum_loop_us : Z;
  m_max_period_error_us : Z;
  m_timing_samples : Z;
  m_expected_wkc : Z;
  m_wkc_errors : Z;
  m_state_errors : Z;
  m_op_seen : bool;
  m_sequence_done : bool;
  m_sequence_failed : bool;
  m_sequence_done_cycle : Z;
  m_cycle : Z;
}.

Section Monitor.
Context {F : Type} `{Num F} {W : Type} `{IghMaster W} `{LoopFuel}.
Implicit Types (options : MonitorOptions F) (l : monitor_local).

Definition monitor_period_ns options : Z := mo_period_us options * 1000.

Definition monitor_local_init options (image : list Z) (now : ec_timet) : monitor_local :=
  MonitorLocal image (add_ns now (monitor_period_ns options)) now LLONG_MAX 0 0 0 0 0 0 0 false
    (match mo_sequence options with CIA402_SEQ_NONE => true | _ => false end) false (-1) 0.

(** The time since the last round. *)
Definition monitor_timing options (loop_time : ec_timet) l : monitor_local :=
  (if 0 <? m_cycle l then
     let elapsed_us := ns_to_us (s64 (timespec_to_ns loop_time - timespec_to_ns (m_previous_loop_time l))) in
     let period_error_us := abs_i64 (elapsed_us - mo_period_us options) in
     l <| m_min_loop_us ::= (fun t => if elapsed_us <? t then elapsed_us else t) |>
       <| m_max_loop_us ::= (fun t => if t <? elapsed_us then elapsed_us else t) |>
       <| m_max_period_error_us ::= (fun t => if t <? period_error_us then period_error_us else t) |>
       <| m_sum_loop_us ::= (fun n => s64 (n + elapsed_us)) |>
       <| m_timing_samples ::= (fun n => s32 (n + 1)) |>
   else l) <| m_previous_loop_time := loop_time |>.

Definition monitor_watch (wkc : Z) (wc_state : ec_wc_state_t) (operational : bool) l : monitor_local :=
  let complete := bool_decide (wc_state = EC_WC_COMPLETE) in
  let l :=
    (if complete && (0 <? wkc) && (m_expected_wkc l =? 0) then l <| m_expected_wkc := wkc |>
     else if (0 <? m_expected_wkc l) && (negb complete || negb (wkc =? m_expected_wkc l))
     then l <| m_wkc_errors ::= (fun n => s32 (n + 1)) |> else l) in
  if operational then l <| m_op_seen := true |>
  else if m_op_seen l then l <| m_state_errors ::= (fun n => s32 (n + 1)) |> else l.

Definition monitor_sequence options (sequence_target_reached : bool) l : monitor_local :=
  let l := if negb (m_sequence_done l) && sequence_target_reached
           then l <| m_sequence_done := true |> <| m_sequence_done_cycle := m_cycle l |> else l in
  if negb (m_sequence_done l) && negb (m_sequence_failed l)
     && (mo_sequence_timeout_ms options <=? Z.quot (m_cycle l * mo_period_us options) 1000)
  then l <| m_sequence_failed := true |> else l.

(** The outputs of a round for the status word of the drive. *)
Definition monitor_output options (statusword : Z) l : Cia402PdoOutput * monitor_local :=
  let '(command_controlword, reached) :=
    cia402_sequence_controlword (mo_sequence options) (cia402_state_from_status statusword) (mo_controlword options) in
  let l := monitor_sequence options reached l in
  let cycle_after_sequence :=
    if 0 <=? m_sequence_done_cycle l then m_cycle l - m_sequence_done_cycle l else -1 in
  (cia402_motion_apply (mo_motion options) (m_sequence_done l && negb (m_sequence_failed l)) cycle_after_sequence
     (PdoOutput command_controlword (mo_target_position options) (mo_target_velocity options) (mo_mode options)), l).

(** One round of the loop.  Position, velocity and displayed mode of the drive are read to be
    printed. *)
Definition monitor_round options (off : LtsOffsets) l : M W monitor_local :=
  let* loop_time := igh_clock in
  let l := monitor_timing options loop_time l in
  let* image := ecrt_receive (m_image l) in
  let* statusword := of_opt OutOfBounds (pdo_read (off_statusword off) 2 image) in
  let* _ := of_opt OutOfBounds (pdo_read (off_actual_position off) 4 image) in
  let* _ := of_opt OutOfBounds (pdo_read (off_actual_velocity off) 4 image) in
  let* _ := of_opt OutOfBounds (pdo_read (off_mode_display off) 1 image) in
  let* ds := ecrt_domain_state in
  let* operational := ecrt_slave_operational in
  let '(output, l) := monitor_output options statusword (monitor_watch ds.1 ds.2 operational l) in
  let* image := of_opt OutOfBounds (pdo_write_output off output image) in
  do* ecrt_send image in
  let l := l <| m_image := image |> <| m_cycle ::= (fun n => s32 (n + 1)) |> in
  do* igh_sleep_until (m_wakeup_time l) in
  ret (l <| m_wakeup_time ::= (fun t => add_ns t (monitor_period_ns options)) |>).

(** Until the signal, or the number of cycles when one is given. *)
Fixpoint monitor_loop (fuel : nat) options (off : LtsOffsets) l : M W monitor_local :=
  let* stopped := igh_stopped in
  if (stopped : bool) then ret l
  else if (0 <? mo_max_cycles options) && (mo_max_cycles options <=? m_cycle l) then ret l
  else match fuel with
       | O => fail OutOfFuel
       | S fuel => let* l := monitor_round options off l in monitor_loop fuel options off l
       end.

(** The configuration of the master: the place of the fields, when all of it succeeds. *)
Definition monitor_setup options : M W (option (LtsOffsets * list Z)) :=
  let* domain := ecrt_master_create_domain in
  if negb domain then ret None
  else
    let* sc := ecrt_master_slave_config (u16 (mo_alias options)) (u16 (mo_position options))
                 (mo_vendor_id options) (mo_product_code options) in
    if negb sc then ret None
    else
      let* pdos := if mo_configure_pdos options then ecrt_slave_config_pdos else ret true in
      if negb pdos then ret None
      else
        let* off := ecrt_domain_reg_pdo_entry_list in
        match off with
        | None => ret None
        | Some off =>
            let* active := ecrt_master_activate in
            if negb active then ret None
            else let* image := ecrt_domain_data in ret (image ← image; Some (off, image))
        end.

(** From the first outputs to the end of the loop. *)
Definition monitor_run options (off : LtsOffsets) (image : list Z) : M W monitor_local :=
  let output := PdoOutput (mo_controlword options) (mo_target_position options) (mo_target_velocity options)
                  (mo_mode options) in
  let* image := of_opt OutOfBounds (pdo_write_output off output image) in
  do* ecrt_send image in
  do* igh_realtime (mo_priority options) in
  let* now := igh_clock in
  monitor_loop (if 0 <? mo_max_cycles options then Z.to_nat (mo_max_cycles options) else loop_fuel) options off
    (monitor_local_init options image now).

(** The exit code, and the variables at the end of a run. *)
Definition monitor_main (args : list string) : M W (Z * option monitor_local) :=
  match monitor_parse_options (F := F) args with
  | MonitorHelp => ret (0, None)
  | MonitorInvalid => ret (2, None)
  | MonitorParsed options =>
      let options := monitor_start options in
      let* requested := ecrt_request_master (mo_master_index options) in
      if negb requested then ret (1, None)
      else
        let* setup := monitor_setup options in
        match setup with
        | None => do* ecrt_release_master in ret (1, None)
        | Some (off, image) =>
            let* l := monitor_run options off image in
            do* ecrt_release_master in
            ret (0, Some l)
        end
  end.
End Monitor.

(** * Claims

    ** Time *)

(** The loop of carries divides. *)
Lemma carry_ns_spec k : forall time, 0 <= tv_nsec time -> tv_nsec time / NSEC_PER_S <= Z.of_nat k ->
  carry_ns k time = TimeSpec (tv_sec time + tv_nsec time / NSEC_PER_S) (tv_nsec time mod NSEC_PER_S).
Proof.
  assert (Hsmall : forall time, 0 <= tv_nsec time < NSEC_PER_S ->
            time = TimeSpec (tv_sec time + tv_nsec time / NSEC_PER_S) (tv_nsec time mod NSEC_PER_S)).
  { intros time Ht. rewrite Z.div_small, Z.mod_small, Z.add_0_r by done. by destruct time. }
  unfold NSEC_PER_S in *. induction k as [|k IH]; intros time H0 Hk; cbn [carry_ns].
  - apply Hsmall. split; [done|].
    pose proof (Z.mod_pos_bound (tv_nsec time) 1000000000). pose proof (Z.div_mod (tv_nsec time) 1000000000). lia.
  - unfold NSEC_PER_S. destruct (1000000000 <=? tv_nsec time) eqn:Hc; [|apply Hsmall; lia].
    assert (Hd : (tv_nsec time - 1000000000) / 1000000000 = tv_nsec time / 1000000000 - 1).
    { replace (tv_nsec time - 1000000000) with (tv_nsec time + (-1) * 1000000000) by lia. rewrite Z.div_add by lia. lia. }
    assert (Hm : (tv_nsec time - 1000000000) mod 1000000000 = tv_nsec time mod 1000000000).
    { replace (tv_nsec time - 1000000000) with (tv_nsec time + (-1) * 1000000000) by lia. by rewrite Z.mod_add by lia. }
    rewrite IH; cbn [tv_sec tv_nsec]; [|lia|lia]. rewrite Hd, Hm. f_equal. lia.
Qed.

(** A sum is normalised, and late by exactly what was added. *)
Lemma add_ns_spec time ns : 0 <= tv_nsec time -> 0 <= ns ->
  0 <= tv_nsec (add_ns time ns) < NSEC_PER_S
  /\ tv_sec (add_ns time ns) * NSEC_PER_S + tv_nsec (add_ns time ns)
     = tv_sec time * NSEC_PER_S + tv_nsec time + ns.
Proof.
  intros Ht Hns. unfold add_ns.
  assert (0 <= (tv_nsec time + ns) / NSEC_PER_S) by (apply Z.div_pos; [lia | done]).
  rewrite carry_ns_spec; cbn [tv_sec tv_nsec]; [|lia|lia].
  pose proof (Z.mod_pos_bound (tv_nsec time + ns) NSEC_PER_S ltac:(done)).
  pose proof (Z.div_mod (tv_nsec time + ns) NSEC_PER_S ltac:(done)). split; [done|]. lia.
Qed.

(** ** Process data *)

(** The outputs in the process data. *)
Definition pdo_output (off : LtsOffsets) (image : list Z) : option Cia402PdoOutput :=
  cw ← pdo_read (off_controlword off) 2 image;
  tp ← pdo_read (off_target_position off) 4 image;
  tv ← pdo_read (off_target_velocity off) 4 image;
  mode ← pdo_read (off_mode_of_operation off) 1 image;
  Some (PdoOutput cw (s32 tp) (s32 tv) (s8 mode)).

Definition apart (a n b k : Z) : Prop := a + n <= b \/ b + k <= a.
Definition inside (a n len : Z) : Prop := 0 <= a /\ a + n <= len.

(** The master has registered fields in the process data, outputs beside each other. *)
Record laid_out (off : LtsOffsets) (len : Z) : Prop := LaidOut {
  lo_controlword : inside (off_controlword off) 2 len;
  lo_position : inside (off_target_position off) 4 len;
  lo_velocity : inside (off_target_velocity off) 4 len;
  lo_mode : inside (off_mode_of_operation off) 1 len;
  lo_statusword : inside (off_statusword off) 2 len;
  lo_actual_position : inside (off_actual_position off) 4 len;
  lo_actual_velocity : inside (off_actual_velocity off) 4 len;
  lo_mode_display : inside (off_mode_display off) 1 len;
  lo_apart : apart (off_controlword off) 2 (off_target_position off) 4
    /\ apart (off_controlword off) 2 (off_target_velocity off) 4
    /\ apart (off_controlword off) 2 (off_mode_of_operation off) 1
    /\ apart (off_target_position off) 4 (off_target_velocity off) 4
    /\ apart (off_target_position off) 4 (off_mode_of_operation off) 1
    /\ apart (off_target_velocity off) 4 (off_mode_of_operation off) 1;
}.

Lemma pdo_read_ok off n image : inside off n (zlen image) -> 0 <= n -> exists v, pdo_read off n image = Some v.
Proof. intros [H0 H1] Hn. unfold pdo_read. rewrite zslice_some by lia. by eexists. Qed.
Lemma pdo_write_ok off n v image : inside off (Z.of_nat n) (zlen image) ->
  exists image', pdo_write off n v image = Some image' /\ zlen image' = zlen image.
Proof.
  intros [H0 H1]. unfold pdo_write. destruct (zblit image off (le_bytes n v)) as [image'|] eqn:Hb.
  - exists image'. split; [done | by eapply zblit_length].
  - rewrite zblit_some in Hb by (unfold zlen in *; rewrite ?length_le_bytes; lia). done.
Qed.
Lemma pdo_read_same off n v image image' n' : pdo_write off n v image = Some image' -> n' = Z.of_nat n ->
  pdo_read off n' image' = Some (v mod 256 ^ n').
Proof.
  intros Hw ->. pose proof (zslice_zblit_same _ _ _ _ Hw) as Hs. unfold zlen in Hs. rewrite length_le_bytes in Hs.
  unfold pdo_read. rewrite Hs. cbn [fmap option_fmap option_map]. by rewrite of_le_le_bytes.
Qed.
Lemma pdo_read_other off n v image image' off' n' k : pdo_write off n v image = Some image' -> k = Z.of_nat n ->
  apart off' n' off k -> pdo_read off' n' image' = pdo_read off' n' image.
Proof.
  intros Hw -> Ha. unfold pdo_read. rewrite (zslice_zblit_disjoint _ _ _ _ _ _ Hw); [done|].
  unfold apart in Ha. unfold zlen. rewrite length_le_bytes. lia.
Qed.

Lemma s32_le z : is_i32 z -> s32 (z mod 2 ^ 32) = z.
Proof. unfold is_i32, INT32_MIN, INT32_MAX, s32. intros Hz. rewrite Zplus_mod_idemp_l, Z.mod_small; lia. Qed.
Lemma s8_le z : is_i8 z -> s8 (z mod 2 ^ 8) = z.
Proof. unfold is_i8, s8. intros Hz. rewrite Zplus_mod_idemp_l, Z.mod_small; lia. Qed.

(** Outputs of their types are in the process data after they are written. *)
Lemma pdo_write_output_ok off len image output :
  laid_out off len -> zlen image = len -> typed_output output ->
  exists image', pdo_write_output off output image = Some image' /\ zlen image' = len
    /\ pdo_output off image' = Some output.
Proof.
  intros [H1 H2 H3 H4 _ _ _ _ (A1 & A2 & A3 & A4 & A5 & A6)] Hlen [T1 T2 T3 T4]. unfold pdo_write_output.
  destruct (pdo_write_ok (off_controlword off) 2 (controlword output) image) as (i1 & W1 & L1); [by rewrite Hlen|].
  destruct (pdo_write_ok (off_target_position off) 4 (o_target_position output) i1) as (i2 & W2 & L2); [by rewrite L1, Hlen|].
  destruct (pdo_write_ok (off_target_velocity off) 4 (o_target_velocity output) i2) as (i3 & W3 & L3); [by rewrite L2, L1, Hlen|].
  destruct (pdo_write_ok (off_mode_of_operation off) 1 (o_mode output) i3) as (i4 & W4 & L4); [by rewrite L3, L2, L1, Hlen|].
  exists i4. rewrite W1. cbn [mbind option_bind]. rewrite W2. cbn [mbind option_bind]. rewrite W3. cbn [mbind option_bind].
  split; [done|]. split; [congruence|]. unfold pdo_output.
  rewrite (pdo_read_other _ _ _ _ _ _ _ _ W4 eq_refl A3), (pdo_read_other _ _ _ _ _ _ _ _ W3 eq_refl A2),
    (pdo_read_other _ _ _ _ _ _ _ _ W2 eq_refl A1), (pdo_read_same _ _ _ _ _ 2 W1) by done. cbn [mbind option_bind].
  rewrite (pdo_read_other _ _ _ _ _ _ _ _ W4 eq_refl A5), (pdo_read_other _ _ _ _ _ _ _ _ W3 eq_refl A4),
    (pdo_read_same _ _ _ _ _ 4 W2) by done. cbn [mbind option_bind].
  rewrite (pdo_read_other _ _ _ _ _ _ _ _ W4 eq_refl A6), (pdo_read_same _ _ _ _ _ 4 W3) by done.
  cbn [mbind option_bind]. rewrite (pdo_read_same _ _ _ _ _ 1 W4) by done. cbn [mbind option_bind].
  change (256 ^ 4) with (2 ^ 32). change (256 ^ 1) with (2 ^ 8). change (256 ^ 2) with (2 ^ 16).
  rewrite !s32_le, s8_le, Z.mod_small by done. by destruct output.
Qed.

(** ** The schedule

    What the loop does with the drive, without times and counters: in which phase its power
    sequence is, and what it sends. *)

Inductive phase : Type := Waiting | Active (since : option Z) | TimedOut.

Section Schedule.
Context {F : Type}.
Implicit Types options : MonitorOptions F.

Definition first_phase options : phase :=
  match mo_sequence options with CIA402_SEQ_NONE => Active None | _ => Waiting end.
Definition next_phase options (cycle : Z) (reached : bool) (p : phase) : phase :=
  match p with
  | Waiting =>
      if reached then Active (Some cycle)
      else if mo_sequence_timeout_ms options <=? Z.quot (cycle * mo_period_us options) 1000 then TimedOut else Waiting
  | p => p
  end.

(** The outputs of the command line, with the control word of the sequence. *)
Definition resting options (controlword : Z) : Cia402PdoOutput :=
  PdoOutput controlword (mo_target_position options) (mo_target_velocity options) (mo_mode options).
Definition scheduled options (cycle : Z) (p : phase) (controlword : Z) : Cia402PdoOutput :=
  match p with
  | Active since =>
      cia402_motion_apply (mo_motion options) true (match since with Some k => cycle - k | None => -1 end)
        (resting options controlword)
  | _ => cia402_motion_apply (mo_motion options) false (-1) (resting options controlword)
  end.

(** A bus as the monitor sees it: the status word of the drive, what an output does to it, and
    whether the program is asked to end. *)
Context {B : Type} (status : B -> Z) (step : B -> Cia402PdoOutput -> B) (stops : B -> bool).

Definition schedule_round options (cycle : Z) (p : phase) (b : B) : phase * Cia402PdoOutput :=
  let '(cw, reached) :=
    cia402_sequence_controlword (mo_sequence options) (cia402_state_from_status (status b)) (mo_controlword options) in
  let p := next_phase options cycle reached p in
  (p, scheduled options cycle p cw).

(** [n] rounds at most: the bus at the end, and the outputs that were sent. *)
Fixpoint schedule (n : nat) options (cycle : Z) (p : phase) (b : B) : B * list Cia402PdoOutput :=
  match n with
  | O => (b, [])
  | S n =>
      if stops b then (b, [])
      else let '(p, output) := schedule_round options cycle p b in
           let '(b, sent) := schedule n options (cycle + 1) p (step b output) in (b, output :: sent)
  end.
Definition scheduled_run options (b : B) : B * list Cia402PdoOutput :=
  let first := resting options (mo_controlword options) in
  let '(b, sent) := schedule (Z.to_nat (mo_max_cycles options)) options 0 (first_phase options) (step b first) in
  (b, first :: sent).
End Schedule.

(** ** What is used of the master

    [bus] is the bus the master drives; what [ecrt_send] is given is what reaches it. *)
Class MasterLaws (W : Type) `{IghMaster W} {B : Type} (bus : W -> B) (status : B -> Z)
    (step : B -> Cia402PdoOutput -> B) (stops : B -> bool) (off : LtsOffsets) (len : Z) : Prop := {
  ml_layout : laid_out off len;
  ml_request k w : total (ecrt_request_master k) (fun _ w' => bus w' = bus w) w;
  ml_domain w : total ecrt_master_create_domain (fun _ w' => bus w' = bus w) w;
  ml_config a p v c w : total (ecrt_master_slave_config a p v c) (fun _ w' => bus w' = bus w) w;
  ml_pdos w : total ecrt_slave_config_pdos (fun _ w' => bus w' = bus w) w;
  ml_register w : total ecrt_domain_reg_pdo_entry_list
    (fun o w' => bus w' = bus w /\ forall off', o = Some off' -> off' = off) w;
  ml_activate w : total ecrt_master_activate (fun _ w' => bus w' = bus w) w;
  ml_data w : total ecrt_domain_data (fun o w' => bus w' = bus w /\ forall image, o = Some image -> zlen image = len) w;
  ml_release w : total ecrt_release_master (fun _ w' => bus w' = bus w) w;
  ml_stopped w : total igh_stopped (fun a w' => bus w' = bus w /\ a = stops (bus w)) w;
  ml_clock w : total igh_clock (fun _ w' => bus w' = bus w) w;
  ml_receive image w : zlen image = len ->
    total (ecrt_receive image) (fun image' w' => bus w' = bus w /\ zlen image' = len
      /\ pdo_read (off_statusword off) 2 image' = Some (status (bus w))) w;
  ml_domain_state w : total ecrt_domain_state (fun _ w' => bus w' = bus w) w;
  ml_slave_state w : total ecrt_slave_operational (fun _ w' => bus w' = bus w) w;
  ml_send image output w : zlen image = len -> pdo_output off image = Some output ->
    total (ecrt_send image) (fun _ w' => bus w' = step (bus w) output) w;
  ml_realtime p w : total (igh_realtime p) (fun _ w' => bus w' = bus w) w;
  ml_sleep t w : total (igh_sleep_until t) (fun _ w' => bus w' = bus w) w;
}.

(** Options of the C types. *)
Record typed_options {F} (options : MonitorOptions F) : Prop := TypedOptions {
  ty_controlword : is_u16 (mo_controlword options);
  ty_position : is_i32 (mo_target_position options);
  ty_velocity : is_i32 (mo_target_velocity options);
  ty_mode : is_i8 (mo_mode options);
  ty_motion_position : is_i32 (c_target_position (mo_motion options));
  ty_motion_velocity : is_i32 (c_target_velocity (mo_motion options));
  ty_profile_velocity : is_i32 (c_profile_velocity (mo_motion options));
  ty_motion_mode : is_i8 (c_mode (mo_motion options));
  ty_cycles : 0 <= mo_max_cycles options <= INT32_MAX;
}.

Lemma motion_apply_typed {F} (options : MonitorOptions F) sequence_done cycle output :
  typed_options options -> typed_output output ->
  typed_output (cia402_motion_apply (mo_motion options) sequence_done cycle output).
Proof.
  intros [] [T1 T2 T3 T4]. unfold cia402_motion_apply.
  destruct (c_type (mo_motion options)); [done|..].
  - split; cbn; [by unfold is_u16 | done | by unfold is_i32, INT32_MIN, INT32_MAX |].
    by destruct (o_mode output =? 0).
  - destruct sequence_done; [|done]. split; cbn; [by unfold is_u16 | done | done |].
    destruct (c_mode (mo_motion options) =? 0); done.
  - destruct sequence_done; [|done]. split; cbn -[Z.lor]; [|done|done|].
    + by repeat case_match; unfold is_u16.
    + destruct (c_mode (mo_motion options) =? 0); done.
  - destruct sequence_done; [|done]. split; cbn; [by unfold is_u16 | done | done | done].
Qed.

Lemma scheduled_typed {F} (options : MonitorOptions F) cycle p cw :
  typed_options options -> is_u16 cw -> typed_output (scheduled options cycle p cw).
Proof.
  intros Ht Hcw. assert (Hr : typed_output (resting options cw)) by (by destruct Ht; split).
  destruct p; by apply motion_apply_typed.
Qed.

Lemma scheduled_round_typed {F B} (options : MonitorOptions F) (status : B -> Z) cycle p b :
  typed_options options -> typed_output (schedule_round status options cycle p b).2.
Proof.
  intros Ht. unfold schedule_round.
  pose proof (controlword_typed (mo_sequence options) (cia402_state_from_status (status b)) (mo_controlword options)
                (ty_controlword _ Ht)) as Hcw.
  destruct (cia402_sequence_controlword _ _ _) as [cw reached]. by apply scheduled_typed.
Qed.

(** ** The loop follows the schedule *)

(** The phase the variables of the program are in. *)
Definition phase_of (l : monitor_local) : phase :=
  if m_sequence_failed l then TimedOut
  else if m_sequence_done l then Active (if 0 <=? m_sequence_done_cycle l then Some (m_sequence_done_cycle l) else None)
  else Waiting.

Lemma watch_phase wkc wc_state operational l :
  phase_of (monitor_watch wkc wc_state operational l) = phase_of l
  /\ m_cycle (monitor_watch wkc wc_state operational l) = m_cycle l
  /\ m_sequence_done (monitor_watch wkc wc_state operational l) = m_sequence_done l.
Proof. unfold monitor_watch. by repeat case_match. Qed.
Lemma timing_phase {F} (options : MonitorOptions F) t l :
  phase_of (monitor_timing options t l) = phase_of l /\ m_cycle (monitor_timing options t l) = m_cycle l
  /\ m_image (monitor_timing options t l) = m_image l.
Proof. unfold monitor_timing. by repeat case_match. Qed.

Lemma sequence_phase {F} (options : MonitorOptions F) reached l :
  0 <= m_cycle l ->
  phase_of (monitor_sequence options reached l) = next_phase options (m_cycle l) reached (phase_of l)
  /\ m_cycle (monitor_sequence options reached l) = m_cycle l
  /\ m_image (monitor_sequence options reached l) = m_image l.
Proof.
  intros Hc. unfold monitor_sequence, phase_of, next_phase.
  destruct (m_sequence_failed l) eqn:Hf, (m_sequence_done l) eqn:Hd, reached; cbn; rewrite ?Hf, ?Hd; cbn; try done.
  all: try (replace (0 <=? m_cycle l) with true by lia); repeat case_match; cbn; rewrite ?Hf, ?Hd; done || congruence.
Qed.

Lemma apply_not_done {F} (command : Cia402MotionCommand F) cycle cycle' output :
  cia402_motion_apply command false cycle output = cia402_motion_apply command false cycle' output.
Proof. unfold cia402_motion_apply. by destruct (c_type command). Qed.

(** What a round sends is what the schedule says. *)
Lemma output_scheduled {F} (options : MonitorOptions F) {B} (status : B -> Z) (b : B) l :
  0 <= m_cycle l ->
  let '(output, l') := monitor_output options (status b) l in
  let '(p, output') := schedule_round status options (m_cycle l) (phase_of l) b in
  output = output' /\ phase_of l' = p /\ m_cycle l' = m_cycle l.
Proof.
  intros Hc. unfold monitor_output, schedule_round.
  destruct (cia402_sequence_controlword _ _ _) as [cw reached].
  destruct (sequence_phase options reached l Hc) as (Hp & Hcy & _).
  rewrite <- Hp, Hcy. split; [|done]. clear Hp Hcy.
  set (l' := monitor_sequence options reached l). fold (resting options cw).
  unfold scheduled, phase_of. destruct (m_sequence_failed l'), (m_sequence_done l'); cbn [negb andb];
    try apply apply_not_done.
  by destruct (0 <=? m_sequence_done_cycle l').
Qed.

Section Refinement.
Context {F : Type} `{Num F} {W : Type} `{IghMaster W} `{LoopFuel} {B : Type} (bus : W -> B) (status : B -> Z)
  (step : B -> Cia402PdoOutput -> B) (stops : B -> bool) (off : LtsOffsets) (len : Z)
  `{!MasterLaws W bus status step stops off len}.
Implicit Types (options : MonitorOptions F) (l : monitor_local) (w : W).

Lemma wp_law {A} (m : M W A) (P : A -> W -> Prop) Q w :
  total m P w -> (forall a w', P a w' -> Q a w') -> total m Q w.
Proof. intros Hm HQ. by eapply wp_mono. Qed.

Lemma wp_monitor_round options l w Q :
  typed_options options -> 0 <= m_cycle l < INT32_MAX -> zlen (m_image l) = len ->
  (forall l' w' p output, schedule_round status options (m_cycle l) (phase_of l) (bus w) = (p, output) ->
     bus w' = step (bus w) output -> phase_of l' = p -> m_cycle l' = m_cycle l + 1 -> zlen (m_image l') = len ->
     Q l' w') ->
  total (monitor_round options off l) Q w.
Proof.
  intros Ht Hc Hlen HQ. unfold monitor_round. pose proof ml_layout as Hoff.
  apply wp_bind. eapply wp_law; [apply ml_clock|]. intros t w1 Hw1. cbn beta in Hw1.
  destruct (timing_phase options t l) as (Hp1 & Hc1 & Hi1). set (l1 := monitor_timing options t l) in *.
  apply wp_bind. eapply wp_law; [apply ml_receive; by rewrite Hi1|]. intros image w2 (Hw2 & Hl2 & Hs2).
  apply wp_bind. eapply wp_of_opt; [exact Hs2|].
  assert (Hread : forall a n, inside a n len -> 0 <= n -> exists v, pdo_read a n image = Some v)
    by (intros; apply pdo_read_ok; by rewrite ?Hl2).
  destruct (Hread _ _ (lo_actual_position _ _ Hoff)) as [v1 R1]; [lia|].
  destruct (Hread _ _ (lo_actual_velocity _ _ Hoff)) as [v2 R2]; [lia|].
  destruct (Hread _ _ (lo_mode_display _ _ Hoff)) as [v3 R3]; [lia|].
  apply wp_bind. eapply wp_of_opt; [exact R1|]. apply wp_bind. eapply wp_of_opt; [exact R2|].
  apply wp_bind. eapply wp_of_opt; [exact R3|].
  apply wp_bind. eapply wp_law; [apply ml_domain_state|]. intros ds w3 Hw3. cbn beta in Hw3.
  apply wp_bind. eapply wp_law; [apply ml_slave_state|]. intros op w4 Hw4. cbn beta in Hw4.
  destruct (watch_phase ds.1 ds.2 op l1) as (Hp2 & Hc2 & _). set (l2 := monitor_watch ds.1 ds.2 op l1) in *.
  rewrite Hw1. assert (Hb : bus w4 = bus w) by congruence. clear Hw1 Hw2 Hw3 Hw4.
  pose proof (output_scheduled options status (bus w) l2 ltac:(lia)) as Hout. rewrite Hc2, Hc1, Hp2, Hp1 in Hout.
  pose proof (scheduled_round_typed options status (m_cycle l) (phase_of l) (bus w) Ht) as Hty.
  destruct (monitor_output options (status (bus w)) l2) as [output l3].
  destruct (schedule_round status options (m_cycle l) (phase_of l) (bus w)) as [p output'] eqn:Hsr.
  destruct Hout as (-> & Hp3 & Hc3). cbn [snd] in Hty.
  destruct (pdo_write_output_ok off len image output' Hoff Hl2 Hty) as (image' & Hwr & Hl' & Hpdo).
  apply wp_bind. eapply wp_of_opt; [exact Hwr|].
  apply wp_bind. eapply wp_law; [by eapply ml_send|]. intros u1 w5 Hw5. cbn beta in Hw5.
  apply wp_bind. eapply wp_law; [apply ml_sleep|]. intros u2 w6 Hw6. cbn beta in Hw6.
  apply wp_ret. eapply HQ; [done | congruence | | | exact Hl'].
  - rewrite <- Hp3. done.
  - cbn. rewrite Hc3, s32_id by (unfold INT32_MAX in *; lia). done.
Qed.

(** The loop from a state is the schedule from its phase. *)
Lemma wp_monitor_loop options n : forall l w Q,
  typed_options options -> 0 < mo_max_cycles options -> 0 <= m_cycle l ->
  m_cycle l + Z.of_nat n = mo_max_cycles options -> zlen (m_image l) = len ->
  (forall l' w' b sent, schedule status step stops n options (m_cycle l) (phase_of l) (bus w) = (b, sent) ->
     bus w' = b -> m_cycle l' = m_cycle l + zlen sent -> Q l' w') ->
  total (monitor_loop n options off l) Q w.
Proof.
  induction n as [|n IH]; intros l w Q Ht Hmax Hc Hn Hlen HQ; cbn [monitor_loop schedule] in *.
  - apply wp_bind. eapply wp_law; [apply ml_stopped|]. intros a w' [Hw' _].
    assert (Hend : Q l w') by (eapply HQ; [reflexivity | done | unfold zlen; cbn [length]; lia]).
    apply wp_if; intros _; [by apply wp_ret|].
    rewrite (proj2 (andb_true_iff _ _)) by (split; lia). by apply wp_ret.
  - apply wp_bind. eapply wp_law; [apply ml_stopped|]. intros a w' [Hw' ->].
    destruct (stops (bus w)); [apply wp_ret; eapply HQ; [reflexivity | done | unfold zlen; cbn [length]; lia]|].
    assert ((0 <? mo_max_cycles options) && (mo_max_cycles options <=? m_cycle l) = false) as -> by lia.
    apply wp_bind, wp_monitor_round; [done | destruct Ht; lia | done |].
    intros l1 w1 p output Hround Hw1 Hp1 Hc1 Hl1. apply IH; [done | done | lia | lia | done |].
    intros l2 w2 b sent Hs Hb Hc2. rewrite Hw' in Hround. rewrite Hround in HQ.
    rewrite Hc1, Hp1, Hw1, Hw' in Hs. rewrite Hs in HQ. eapply HQ; [reflexivity | done|].
    rewrite Hc2, Hc1. unfold zlen. cbn [length]. lia.
Qed.
End Refinement.

(** From the first outputs on. *)
Lemma wp_monitor_run {F} `{Num F} {W} `{IghMaster W} `{LoopFuel} {B : Type} (bus : W -> B)
    (status : B -> Z) (step : B -> Cia402PdoOutput -> B) (stops : B -> bool) (off : LtsOffsets) (len : Z)
    `{!MasterLaws W bus status step stops off len} (options : MonitorOptions F) (image : list Z) (w : W) :
  typed_options options -> 0 < mo_max_cycles options -> zlen image = len ->
  total (monitor_run options off image)
    (fun l' w' => bus w' = (scheduled_run status step stops options (bus w)).1
       /\ m_cycle l' + 1 = zlen (scheduled_run status step stops options (bus w)).2) w.
Proof.
  intros Ht Hmax Hlen. unfold monitor_run. fold (resting options (mo_controlword options)).
  assert (Hr : typed_output (resting options (mo_controlword options))) by (by destruct Ht; split).
  destruct (pdo_write_output_ok off len image _ ml_layout Hlen Hr) as (image' & Hw & Hl & Hpdo).
  apply wp_bind. eapply wp_of_opt; [exact Hw|].
  apply wp_bind. eapply wp_law; [by eapply ml_send|]. intros u1 w1 Hw1. cbn beta in Hw1.
  apply wp_bind. eapply wp_law; [apply ml_realtime|]. intros u2 w2 Hw2. cbn beta in Hw2.
  apply wp_bind. eapply wp_law; [apply ml_clock|]. intros now w3 Hw3. cbn beta in Hw3.
  rewrite (proj2 (Z.ltb_lt 0 (mo_max_cycles options))) by done.
  assert (Hb : bus w3 = step (bus w) (resting options (mo_controlword options))) by congruence.
  apply (wp_monitor_loop bus status step stops off len); [done | done | done | cbn; lia | done |].
  intros l' w' b sent Hs Hw' Hc. unfold scheduled_run.
  assert (Hp : phase_of (monitor_local_init options image' now) = first_phase options).
  { unfold phase_of, first_phase. cbn. by destruct (mo_sequence options). }
  rewrite Hp, Hb in Hs. cbn [m_cycle monitor_local_init] in Hs. rewrite Hs. split; [done|].
  cbn [snd]. rewrite Hc. unfold zlen. cbn [length m_cycle monitor_local_init]. lia.
Qed.

(** ** Options *)

Lemma parse_int_is_i32 text v : parse_int text = Some v -> is_i32 v.
Proof.
  unfold parse_int, parse_i32, is_i32. intros Hp. repeat case_match; simplify_eq; lia.
Qed.
Lemma digits_nonneg base : 0 <= base -> forall text acc n, 0 <= acc -> 0 <= (digits base acc n text).1.1.
Proof.
  intros Hbase. induction text as [|c text IH]; intros acc n Hacc; [done|]. cbn [digits].
  destruct (digit_value c <? base); [|done]. apply IH. unfold digit_value. repeat case_match; nia.
Qed.
Lemma strto_nonneg text neg v rest : strto text = Some (neg, v, rest) -> 0 <= v.
Proof.
  unfold strto. intros Hs. revert Hs.
  assert (Hd : forall base t, 0 <= base -> forall v n r, digits base 0 0 t = (v, n, r) -> 0 <= v).
  { intros base t Hb v' n r Hdig. pose proof (digits_nonneg base Hb t 0 0 ltac:(lia)) as Hn. by rewrite Hdig in Hn. }
  repeat case_match; intros Hs; simplify_eq; try lia; match goal with
  | Hx : digits ?base 0 0 ?t = _ |- _ => eapply (Hd base t); [lia | exact Hx]
  end.
Qed.
Lemma parse_u32_nonneg text v : parse_u32 text = Some v -> 0 <= v.
Proof.
  unfold parse_u32, u64. intros Hp. destruct (strto text) as [[[neg x] rest]|] eqn:Hs; [|done].
  apply strto_nonneg in Hs. repeat case_match; simplify_eq; [apply Z.mod_pos_bound; lia | done].
Qed.

Lemma typed_init {F} `{Num F} : typed_options (monitor_options_init (F := F)).
Proof. split; cbn; unfold is_u16, is_i32, is_i8, INT32_MIN, INT32_MAX; lia. Qed.

Ltac typed_option := split; cbn; unfold is_u16, is_i32, is_i8 in *; unfold INT32_MIN, INT32_MAX, CIA402_MODE_CSV,
  CIA402_MODE_HOMING, CIA402_MODE_PROFILE_POSITION in *; first [done | lia].

Lemma flag_typed {F} name (o o' : MonitorOptions F) : typed_options o -> monitor_flag name o = Some o' -> typed_options o'.
Proof.
  intros [] Hf. unfold monitor_flag in Hf. cbv zeta in Hf.
  repeat (destruct (String.eqb name _); [injection Hf as <-; typed_option|]). done.
Qed.
Lemma option_typed {F} name value (o o' : MonitorOptions F) :
  typed_options o -> monitor_set_option name value o = Some o' -> typed_options o'.
Proof.
  intros [] Hs. unfold monitor_set_option in Hs. cbv zeta in Hs.
  repeat (destruct (String.eqb name _);
    [apply bind_Some in Hs as (v & Hv & Hs); first [apply parse_int_is_i32 in Hv | apply parse_u32_nonneg in Hv];
     try case_match; simplify_eq; typed_option|]).
  done.
Qed.

Lemma parse_args_ind {F} (P : MonitorOptions F -> Prop) args :
  (forall a o o', a ∈ args -> P o -> monitor_flag a o = Some o' -> P o') ->
  (forall a value o o', a ∈ args -> P o -> monitor_set_option a value o = Some o' -> P o') ->
  forall o, P o -> forall o', monitor_parse_args args o = MonitorParsed o' -> P o'.
Proof.
  intros Hflag Hset. induction args as [args IH] using (induction_ltof1 _ length).
  destruct args as [|a rest]; [by intros o Ho o' [= <-]|]. intros o Ho o' Hp. cbn [monitor_parse_args] in Hp.
  destruct (String.eqb a "--help"); [done|]. destruct (monitor_flag a o) as [o1|] eqn:Hf.
  - revert Hp. apply IH; [unfold ltof; cbn; lia | | |].
    + intros b o2 o3 Hb. apply Hflag. by right.
    + intros b v o2 o3 Hb. apply Hset. by right.
    + eapply Hflag; [by left | done..].
  - destruct rest as [|value rest]; [done|]. destruct (monitor_set_option a _ o) as [o1|] eqn:Hs; [|done].
    revert Hp. apply IH; [unfold ltof; cbn; lia | | |].
    + intros b o2 o3 Hb. apply Hflag. by do 2 right.
    + intros b v o2 o3 Hb. apply Hset. by do 2 right.
    + eapply Hset; [by left | done..].
Qed.

Lemma parsed_typed {F} `{Num F} args (options : MonitorOptions F) :
  monitor_parse_options args = MonitorParsed options -> typed_options (monitor_start options).
Proof.
  intros Hp. assert (Ht : typed_options options).
  { revert Hp. apply parse_args_ind; [| | apply typed_init].
    - intros a o o' _. apply flag_typed.
    - intros a v o o' _. apply option_typed. }
  unfold monitor_start. destruct Ht. repeat case_match; by split.
Qed.

(** ** The whole program *)

Section Main.
Context {F : Type} `{Num F} {W : Type} `{IghMaster W} `{LoopFuel} {B : Type} (bus : W -> B) (status : B -> Z)
  (step : B -> Cia402PdoOutput -> B) (stops : B -> bool) (off : LtsOffsets) (len : Z)
  `{!MasterLaws W bus status step stops off len}.

Lemma wp_monitor_setup (options : MonitorOptions F) w Q :
  (forall r w', bus w' = bus w -> (forall off' image, r = Some (off', image) -> off' = off /\ zlen image = len) -> Q r w') ->
  total (monitor_setup options) Q w.
Proof.
  intros HQ. unfold monitor_setup.
  assert (Hnone : forall w', bus w' = bus w -> total (ret None) Q w') by (intros; apply wp_ret, HQ; done).
  apply wp_bind. eapply wp_law; [apply ml_domain|]. intros domain w1 H3. apply wp_if; intros _; [by apply Hnone|].
  apply wp_bind. eapply wp_law; [apply ml_config|]. intros sc w2 H4. cbn beta in H3, H4.
  apply wp_if; intros _; [apply Hnone; congruence|].
  apply wp_bind. apply wp_mono with (Q := fun _ w' => bus w' = bus w).
  { apply wp_if; intros _; [eapply wp_law; [apply ml_pdos|] | apply wp_ret; congruence]. intros a w' Hw'. congruence. }
  intros pdos w3 H5. apply wp_if; intros _; [by apply Hnone|].
  apply wp_bind. eapply wp_law; [apply ml_register|]. intros [off'|] w4 [H6 Hoff]; [|apply Hnone; congruence].
  apply wp_bind. eapply wp_law; [apply ml_activate|]. intros active w5 H7. cbn beta in H7.
  apply wp_if; intros _; [apply Hnone; congruence|].
  apply wp_bind. eapply wp_law; [apply ml_data|]. intros [image|] w6 [H8 Hlen]; apply wp_ret, HQ; try congruence.
  - cbn. intros o i [= <- <-]. split; [by apply Hoff | by apply Hlen].
  - done.
Qed.

Lemma wp_monitor_main args (options : MonitorOptions F) w Q :
  monitor_parse_options args = MonitorParsed options -> 0 < mo_max_cycles options ->
  (forall r w', match r.2 with
                | None => r.1 = 1 /\ bus w' = bus w
                | Some l' => r.1 = 0
                    /\ bus w' = (scheduled_run status step stops (monitor_start options) (bus w)).1
                    /\ m_cycle l' + 1 = zlen (scheduled_run status step stops (monitor_start options) (bus w)).2
                end -> Q r w') ->
  total (monitor_main args) Q w.
Proof.
  intros Hp Hmax HQ. unfold monitor_main. rewrite Hp.
  pose proof (parsed_typed _ _ Hp) as Ht.
  assert (Hmax' : 0 < mo_max_cycles (monitor_start options)) by (unfold monitor_start; by repeat case_match).
  apply wp_bind. eapply wp_law; [apply ml_request|]. intros requested w1 H3. cbn beta in H3.
  apply wp_if; intros _; [by apply wp_ret, HQ|].
  apply wp_bind, wp_monitor_setup. intros [[off' image]|] w2 H4 Hs.
  - destruct (Hs _ _ eq_refl) as [-> Hlen].
    apply wp_bind. eapply wp_law; [by eapply wp_monitor_run|]. intros l' w3 [H5 H6]. cbn beta in H5, H6.
    apply wp_bind. eapply wp_law; [apply ml_release|]. intros u w4 H7. cbn beta in H7.
    apply wp_ret, HQ. cbn [fst snd]. rewrite H4, H3 in *. split; [done|]. split; [congruence | done].
  - apply wp_bind. eapply wp_law; [apply ml_release|]. intros u w4 H7. cbn beta in H7.
    apply wp_ret, HQ. cbn [fst snd]. split; [done | congruence].
Qed.
End Main.

(** C23: Whatever drive and bus the master is connected to, a call of the monitor with a number of
    cycles ends without a fault.  It fails with code 1 before anything has reached the bus, or
    ends with code 0, and then what has reached the bus is exactly the schedule: the outputs of
    the command line first, then for each cycle until it is asked to stop the control word of
    the sequence for the status word of that moment, with the motion from the moment the
    sequence is done, and never when its time had run out before. *)
Theorem monitor_follows_schedule {F} `{Num F} {W} `{IghMaster W} `{LoopFuel} {B : Type} (bus : W -> B)
    (status : B -> Z) (step : B -> Cia402PdoOutput -> B) (stops : B -> bool) (off : LtsOffsets) (len : Z)
    `{!MasterLaws W bus status step stops off len} (args : list string) (options : MonitorOptions F) (w : W) :
  monitor_parse_options args = MonitorParsed options -> 0 < mo_max_cycles options ->
  total (monitor_main (F := F) args)
    (fun r w' =>
       match r.2 with
       | None => r.1 = 1 /\ bus w' = bus w
       | Some l' => r.1 = 0
           /\ bus w' = (scheduled_run status step stops (monitor_start options) (bus w)).1
           /\ m_cycle l' + 1 = zlen (scheduled_run status step stops (monitor_start options) (bus w)).2
       end) w.
Proof. intros Hp Hmax. by apply (wp_monitor_main bus status step stops off len args options). Qed.

(** ** Defaults *)

(** A bus with a record of what was sent. *)
Definition recorded {B} (step : B -> Cia402PdoOutput -> B) (b : B * list Cia402PdoOutput) (output : Cia402PdoOutput)
    : B * list Cia402PdoOutput := (step b.1 output, b.2 ++ [output]).

Lemma recorded_schedule {F B} (status : B * list Cia402PdoOutput -> Z) (step : B -> Cia402PdoOutput -> B) stops n
    (options : MonitorOptions F) : forall cycle p b,
  (schedule status (recorded step) stops n options cycle p b).1.2
  = b.2 ++ (schedule status (recorded step) stops n options cycle p b).2.
Proof.
  induction n as [|n IH]; intros cycle p b; cbn [schedule]; [by rewrite app_nil_r|].
  destruct (stops b); [by rewrite app_nil_r|].
  destruct (schedule_round status options cycle p b) as [p' output].
  specialize (IH (cycle + 1) p' (recorded step b output)).
  destruct (schedule _ _ _ n _ _ _ _) as [b' sent]. cbn in *. by rewrite IH, <- app_assoc.
Qed.
Lemma recorded_run {F B} (status : B * list Cia402PdoOutput -> Z) (step : B -> Cia402PdoOutput -> B) stops
    (options : MonitorOptions F) b :
  (scheduled_run status (recorded step) stops options b).1.2
  = b.2 ++ (scheduled_run status (recorded step) stops options b).2.
Proof.
  unfold scheduled_run. pose proof (recorded_schedule status step stops (Z.to_nat (mo_max_cycles options)) options 0
    (first_phase options) (recorded step b (resting options (mo_controlword options)))) as Hs.
  destruct (schedule _ _ _ _ _ _ _ _) as [b' sent]. cbn in *. by rewrite Hs, <- app_assoc.
Qed.

(** Options that ask for nothing on the outputs. *)
Record silent {F} (options : MonitorOptions F) : Prop := Silent {
  si_controlword : mo_controlword options = 0;
  si_position : mo_target_position options = 0;
  si_velocity : mo_target_velocity options = 0;
  si_mode : mo_mode options = 0;
  si_sequence : mo_sequence options = CIA402_SEQ_NONE;
  si_motion : c_type (mo_motion options) = CIA402_MOTION_NONE;
}.
Definition zero_output : Cia402PdoOutput := PdoOutput 0 0 0 0.

Lemma silent_schedule {F B} (options : MonitorOptions F) (status : B -> Z) step stops n : silent options ->
  forall cycle p b, Forall (eq zero_output) (schedule status step stops n options cycle p b).2.
Proof.
  intros [Hcw Hp Hv Hm Hs Ht]. induction n as [|n IH]; intros cycle p b; cbn [schedule]; [constructor|].
  destruct (stops b); [constructor|]. unfold schedule_round. rewrite Hs. cbn [cia402_sequence_controlword].
  set (p' := next_phase _ _ _ _). set (out := scheduled _ _ _ _).
  specialize (IH (cycle + 1) p' (step b out)). destruct (schedule _ _ _ n _ _ _ _) as [b' sent]. constructor; [|done].
  assert (Hr : resting options (mo_controlword options) = zero_output) by (unfold resting; by rewrite Hcw, Hp, Hv, Hm).
  unfold out, scheduled, cia402_motion_apply. by rewrite Ht, Hr; destruct p'.
Qed.

(** The options that set an output, a sequence or a motion. *)
Definition output_options : list string :=
  ["--controlword"; "--target-position"; "--target-velocity"; "--mode"; "--fault-reset"; "--cia402-shutdown";
   "--cia402-switch-on"; "--cia402-enable"; "--cia402-disable"; "--servo-stop"; "--jog-velocity";
   "--profile-position"; "--home"]%string.

Ltac next_name Ho :=
  match type of Ho with
  | context [String.eqb ?name ?s] => destruct (String.eqb_spec name s) as [->|]
  end.
Lemma silent_flag {F} name (o o' : MonitorOptions F) :
  name ∉ output_options -> silent o -> monitor_flag name o = Some o' -> silent o'.
Proof.
  intros Hn [] Hf. unfold monitor_flag in Hf. cbv zeta in Hf.
  repeat (next_name Hf; [first [injection Hf as <-; by split | solve [exfalso; apply Hn; unfold output_options; repeat first [by left | right]]]|]). done.
Qed.
Lemma silent_option {F} name value (o o' : MonitorOptions F) :
  name ∉ output_options -> silent o -> monitor_set_option name value o = Some o' -> silent o'.
Proof.
  intros Hn [] Hs. unfold monitor_set_option in Hs. cbv zeta in Hs.
  repeat (next_name Hs; [first [solve [exfalso; apply Hn; unfold output_options; repeat first [by left | right]]
           | apply bind_Some in Hs as (v & _ & Hs); try case_match; simplify_eq; by split]|]).
  done.
Qed.

(** Without an option that asks for an output, a sequence or a motion, whatever the others
    are and whatever the drive reports, every output that reaches the bus is zero: no control
    word, no target, no velocity, no mode. *)
Theorem monitor_default_outputs_zero {F} `{Num F} {W} `{IghMaster W} `{LoopFuel} {B : Type}
    (bus : W -> B * list Cia402PdoOutput) (status : B * list Cia402PdoOutput -> Z) (step : B -> Cia402PdoOutput -> B)
    (stops : B * list Cia402PdoOutput -> bool) (off : LtsOffsets) (len : Z)
    `{!MasterLaws W bus status (recorded step) stops off len} (args : list string) (options : MonitorOptions F) (w : W) :
  Forall (fun a => a ∉ output_options) args ->
  monitor_parse_options args = MonitorParsed options -> 0 < mo_max_cycles options ->
  total (monitor_main (F := F) args)
    (fun _ w' => exists sent, (bus w').2 = (bus w).2 ++ sent /\ Forall (eq zero_output) sent) w.
Proof.
  intros Hargs Hp Hmax. rewrite Forall_forall in Hargs.
  assert (Hs : silent options).
  { revert Hp. apply parse_args_ind; [| | by split].
    - intros a o o' Ha. by apply silent_flag, Hargs.
    - intros a v o o' Ha. by apply silent_option, Hargs. }
  assert (monitor_start options = options) as Hstart by (unfold monitor_start; destruct Hs as [_ _ _ _ -> ->]; done).
  apply (wp_monitor_main bus status (recorded step) stops off len args options); [done | done|].
  intros [code [l'|]] w'; cbn [fst snd].
  - intros (_ & Hb & _). rewrite Hstart in Hb. rewrite Hb, recorded_run. eexists. split; [reflexivity|].
    unfold scheduled_run. pose proof (silent_schedule options status (recorded step) stops
      (Z.to_nat (mo_max_cycles options)) Hs 0 (first_phase options)
      (recorded step (bus w) (resting options (mo_controlword options)))) as Hz.
    destruct (schedule _ _ _ _ _ _ _ _) as [b' sent]. constructor; [|done].
    unfold resting. by destruct Hs as [-> -> -> -> _ _].
  - intros [_ Hb]. exists []. by rewrite Hb, app_nil_r.
Qed.

(** ** A jog *)

Section Jog.
Context {F : Type} {D : Type} `{HD : Drive D} {T : nat} `{!DriveLaws D T}.
Implicit Types (options : MonitorOptions F) (d : D).

Definition drive_status (b : D * list Cia402PdoOutput) : Z := statusword b.1.
Definition drive_step : D * list Cia402PdoOutput -> Cia402PdoOutput -> D * list Cia402PdoOutput :=
  recorded (fun d output => drive_cycle d (controlword output)).
Definition never_stops (_ : D * list Cia402PdoOutput) : bool := false.

Definition is_jog options : Prop :=
  mo_sequence options = CIA402_SEQ_ENABLE /\ c_type (mo_motion options) = CIA402_MOTION_JOG_VELOCITY.
(** What is sent before the motion, and with it. *)
Definition at_rest options (output : Cia402PdoOutput) : Prop := output = resting options (controlword output).
Definition jogging options : Cia402PdoOutput :=
  PdoOutput 0x000f (mo_target_position options) (c_target_velocity (mo_motion options))
    (if negb (c_mode (mo_motion options) =? 0) then c_mode (mo_motion options) else CIA402_MODE_CSV).

Lemma enable_reached s manual :
  (cia402_sequence_controlword CIA402_SEQ_ENABLE s manual).2 = bool_decide (s = CIA402_STATE_OPERATION_ENABLED)
  /\ (cia402_sequence_controlword CIA402_SEQ_ENABLE s manual).1 = sequence_answer CIA402_SEQ_ENABLE s.
Proof. by destruct s. Qed.

Lemma jog_round options cycle p d log : is_jog options ->
  schedule_round drive_status options cycle p (d, log)
  = (let p' := next_phase options cycle (bool_decide (power_state d = CIA402_STATE_OPERATION_ENABLED)) p in
     (p', match p' with
          | Active _ => jogging options
          | _ => resting options (sequence_answer CIA402_SEQ_ENABLE (power_state d))
          end)).
Proof.
  intros [Hs Ht]. unfold schedule_round. rewrite Hs.
  change (cia402_state_from_status (drive_status (d, log))) with (power_state d).
  destruct (enable_reached (power_state d) (mo_controlword options)) as [Hreach Hanswer].
  destruct (cia402_sequence_controlword CIA402_SEQ_ENABLE (power_state d) (mo_controlword options)) as [cw reached].
  cbn [fst snd] in Hreach, Hanswer. subst cw reached. cbv zeta. f_equal.
  unfold scheduled, cia402_motion_apply. rewrite Ht. by destruct (next_phase _ _ _ _).
Qed.

Lemma jog_active options n : is_jog options -> forall cycle since d log,
  power_state d = CIA402_STATE_OPERATION_ENABLED ->
  let '(b, sent) := schedule drive_status drive_step never_stops n options cycle (Active since) (d, log) in
  power_state b.1 = CIA402_STATE_OPERATION_ENABLED /\ sent = replicate n (jogging options).
Proof.
  intros Hjog. induction n as [|n IH]; intros cycle since d log Hd; cbn [schedule never_stops]; [done|].
  rewrite jog_round by done. cbn [next_phase].
  specialize (IH (cycle + 1) since (drive_cycle d 0x000f) (log ++ [jogging options])).
  change (drive_step (d, log) (jogging options)) with (drive_cycle d 0x000f, log ++ [jogging options]).
  destruct (schedule _ _ _ n _ _ _ _) as [b sent]. destruct IH as [Hb ->]; [|done].
  by apply drive_stays_enabled.
Qed.

Lemma jog_waiting options j : is_jog options -> 0 < mo_period_us options -> forall n cycle d log,
  (j < n)%nat -> 0 <= cycle -> (cycle + Z.of_nat j) * mo_period_us options < mo_sequence_timeout_ms options * 1000 ->
  power_state (sequence_run CIA402_SEQ_ENABLE j d) = CIA402_STATE_OPERATION_ENABLED ->
  let '(b, sent) := schedule drive_status drive_step never_stops n options cycle Waiting (d, log) in
  power_state b.1 = CIA402_STATE_OPERATION_ENABLED
  /\ exists rests, (length rests <= j)%nat /\ Forall (at_rest options) rests
       /\ sent = rests ++ replicate (n - length rests) (jogging options).
Proof.
  intros Hjog Hper. induction j as [|j IH]; intros n cycle d log Hn H0 Hc Hd.
  all: destruct n as [|n]; [lia|]; cbn [schedule never_stops]; rewrite jog_round by done; cbn [next_phase].
  all: destruct (decide (power_state d = CIA402_STATE_OPERATION_ENABLED)) as [Hon|Hoff];
    [rewrite bool_decide_true by done | rewrite bool_decide_false by done].
  1,3: pose proof (jog_active options n Hjog (cycle + 1) (Some cycle) (drive_cycle d 0x000f) (log ++ [jogging options])
         ltac:(by apply drive_stays_enabled)) as Ha;
    change (drive_step (d, log) (jogging options)) with (drive_cycle d 0x000f, log ++ [jogging options]);
    destruct (schedule _ _ _ n _ _ _ _) as [b sent]; destruct Ha as [Hb ->]; split; [done|]; exists [];
    split; [cbn; lia|]; by split.
  - done.
  - assert ((mo_sequence_timeout_ms options <=? Z.quot (cycle * mo_period_us options) 1000) = false) as ->.
    { apply Z.leb_gt. rewrite Z.quot_div_nonneg by nia. apply Z.div_lt_upper_bound; nia. }
    set (out := resting options (sequence_answer CIA402_SEQ_ENABLE (power_state d))).
    change (drive_step (d, log) out) with (sequence_cycle CIA402_SEQ_ENABLE d, log ++ [out]).
    specialize (IH n (cycle + 1) (sequence_cycle CIA402_SEQ_ENABLE d) (log ++ [out])).
    destruct (schedule _ _ _ n _ _ _ _) as [b sent].
    destruct IH as (Hb & rests & Hl & Hr & ->); [lia | lia | lia | |].
    { unfold sequence_run, loop_run in Hd. by rewrite Nat.iter_succ_r in Hd. }
    split; [done|]. exists (out :: rests). split; [cbn; lia|]. split; [by constructor | done].
Qed.
End Jog.

Lemma jog_start {F} (options : MonitorOptions F) :
  mo_max_cycles (monitor_start options) = mo_max_cycles options
  /\ mo_controlword (monitor_start options) = mo_controlword options
  /\ mo_period_us (monitor_start options) = mo_period_us options
  /\ mo_sequence_timeout_ms (monitor_start options) = mo_sequence_timeout_ms options.
Proof. unfold monitor_start. by repeat case_match. Qed.

Lemma period_positive {F} `{Num F} args (options : MonitorOptions F) :
  monitor_parse_options args = MonitorParsed options -> 0 < mo_period_us options.
Proof.
  apply (parse_args_ind (fun o => 0 < mo_period_us o)); [| | done].
  - intros a o o' _ Ho Hf. unfold monitor_flag in Hf. cbv zeta in Hf.
    repeat (next_name Hf; [injection Hf as <-; done|]). done.
  - intros a v o o' _ Ho Hs. unfold monitor_set_option in Hs. cbv zeta in Hs.
    repeat (next_name Hs; [apply bind_Some in Hs as (x & _ & Hs); try case_match; simplify_eq; cbn; first [done | lia]|]). done.
Qed.

(** C31: A jog asked for on the command line enables a drive that follows the profile, within
    four transitions, and then moves it: when the monitor ends by its number of cycles the
    drive is in OPERATION ENABLED, and what was sent is at most that many outputs at rest,
    after the first, and then the velocity of the jog in every cycle, to the last.  After the
    first output the drive is in a state the sequence leads out of ([enableable]: no fault
    reaction, quick stop or unknown state, and no fault whose reset bit is already set), and
    cycles and timeout suffice for four transitions. *)
Theorem monitor_jog_enables_then_moves {F} `{Num F} {D} `{Drive D} {T : nat} `{!DriveLaws D T} {W} `{IghMaster W}
    `{LoopFuel} (bus : W -> D * list Cia402PdoOutput) (off : LtsOffsets) (len : Z)
    `{!MasterLaws W bus drive_status drive_step never_stops off len} (args : list string)
    (options : MonitorOptions F) (w : W) :
  monitor_parse_options args = MonitorParsed options -> is_jog (monitor_start options) ->
  enableable (drive_cycle (bus w).1 (mo_controlword options)) ->
  4 * Z.of_nat T < mo_max_cycles options ->
  4 * Z.of_nat T * mo_period_us options < mo_sequence_timeout_ms options * 1000 ->
  total (monitor_main (F := F) args)
    (fun r w' => r.1 = 0 ->
       power_state (bus w').1 = CIA402_STATE_OPERATION_ENABLED
       /\ exists rests, (length rests <= 4 * T)%nat /\ Forall (at_rest (monitor_start options)) rests
            /\ (bus w').2 = (bus w).2 ++ resting (monitor_start options) (mo_controlword options) :: rests
                 ++ replicate (Z.to_nat (mo_max_cycles options) - length rests) (jogging (monitor_start options))) w.
Proof.
  intros Hp Hjog Hen Hmax Htime. pose proof (period_positive args options Hp) as Hper.
  destruct (jog_start options) as (Em & Ec & Ep & Et).
  apply (wp_monitor_main bus drive_status drive_step never_stops off len args options); [done | lia|].
  intros [code [l'|]] w'; cbn [fst snd]; [|intros [-> _]; discriminate]. intros (_ & Hb & _) _.
  pose proof (recorded_run drive_status (fun d output => drive_cycle d (controlword output)) never_stops
    (monitor_start options) (bus w)) as Hlog. fold (drive_step (D := D)) in Hlog.
  rewrite <- Hb in Hlog. rewrite Hlog, Hb. clear Hb Hlog.
  destruct (enable_reaches _ Hen) as (n & Hn & Hreach).
  unfold scheduled_run, first_phase. rewrite (proj1 Hjog), Em, Ec.
  set (first := resting (monitor_start options) (mo_controlword options)).
  pose proof (jog_waiting (monitor_start options) n Hjog ltac:(by rewrite Ep) (Z.to_nat (mo_max_cycles options)) 0
    (drive_cycle (bus w).1 (mo_controlword options)) ((bus w).2 ++ [first]) ltac:(lia) ltac:(lia)
    ltac:(rewrite Ep, Et; nia) Hreach) as Hj.
  change (drive_step (bus w) first) with (drive_cycle (bus w).1 (mo_controlword options), (bus w).2 ++ [first]).
  destruct (schedule _ _ _ _ _ _ _ _) as [b sent]. destruct Hj as (Hd & rests & Hl & Hr & ->). cbn [fst snd].
  split; [done|]. exists rests. split; [lia|]. by split.
Qed.

(** ** A master with one drive *)

Record sim_master : Type := SimMaster {
  sm_bus : quick_drive * list Cia402PdoOutput;
  sm_time : ec_timet;
}.
Definition sim_offsets : LtsOffsets := MkOffsets 0 2 6 10 11 13 17 21.
Definition sim_length : Z := 22.

#[export] Instance sim_igh : IghMaster sim_master := {
  ecrt_request_master _ := ret true;
  ecrt_master_create_domain := ret true;
  ecrt_master_slave_config _ _ _ _ := ret true;
  ecrt_slave_config_pdos := ret true;
  ecrt_domain_reg_pdo_entry_list := ret (Some sim_offsets);
  ecrt_master_activate := ret true;
  ecrt_domain_data := ret (Some (replicate (Z.to_nat sim_length) 0));
  ecrt_receive image :=
    let* w := gets id in of_opt OutOfBounds (pdo_write 11 2 (statusword (sm_bus w).1) image);
  ecrt_domain_state := ret (3, EC_WC_COMPLETE);
  ecrt_slave_operational := ret true;
  ecrt_send image :=
    let* output := of_opt OutOfBounds (pdo_output sim_offsets image) in
    modify (fun w => w <| sm_bus ::= (fun b => drive_step b output) |>);
  ecrt_release_master := ret tt;
  igh_realtime _ := ret tt;
  igh_clock := gets sm_time;
  igh_sleep_until t := modify (fun w => w <| sm_time := t |>);
  igh_stopped := ret false;
}.

#[export] Instance sim_laws :
  MasterLaws sim_master sm_bus drive_status drive_step never_stops sim_offsets sim_length.
Proof.
  split; try (intros; by apply wp_ret).
  - split; unfold inside, apart, sim_length; cbn; lia.
  - intros w. apply wp_ret. split; [done|]. by intros off' [= <-].
  - intros w. apply wp_ret. split; [done|]. by intros image [= <-].
  - intros w. by apply wp_gets.
  - intros image w Hlen. apply wp_bind, wp_gets.
    destruct (pdo_write_ok 11 2 (statusword (sm_bus w).1) image) as (image' & Hw & Hl).
    { rewrite Hlen. unfold inside, sim_length. lia. }
    eapply wp_of_opt; [exact Hw|]. split; [done|]. split; [by rewrite Hl|].
    change (off_statusword sim_offsets) with 11. rewrite (pdo_read_same _ _ _ _ _ 2 Hw) by done.
    unfold drive_status, id. by destruct (sm_bus w) as [[[] last] log].
  - intros image output w Hlen Hout. apply wp_bind. eapply wp_of_opt; [exact Hout|]. by apply wp_modify.
  - intros t w. by apply wp_modify.
Qed.

(** A drive that is in a fault when the monitor starts. *)
Definition sim_start : sim_master := SimMaster (QuickDrive CIA402_STATE_FAULT 0, []) (TimeSpec 0 0).

#[local] Instance no_fuel : LoopFuel := 0%nat.

Abbreviation float := SpecFloat.spec_float.
Definition parsed (args : list string) : MonitorOptions float :=
  match monitor_parse_options args with MonitorParsed o => o | _ => monitor_options_init end.
Definition three : list string := ["--cycles"; "3"]%string.
Definition half : list string := ["--cycles"; "3"; "--period-us"; "500"]%string.
Definition jog : list string := ["--cycles"; "9"; "--jog-velocity"; "250"]%string.

Lemma monitor_follows_schedule_witness :
  total (monitor_main (F := float) three)
    (fun r w' => r.1 = 0 /\ (sm_bus w').2 = replicate 4 (PdoOutput 0 0 0 0)) sim_start.
Proof.
  assert (Hp : monitor_parse_options (F := float) three = MonitorParsed (parsed three)) by (vm_compute; reflexivity).
  assert (Hmax : 0 < mo_max_cycles (parsed three)) by (vm_compute; reflexivity).
  pose proof (monitor_follows_schedule (F := float) sm_bus drive_status drive_step never_stops
    sim_offsets sim_length three (parsed three) sim_start Hp Hmax) as Hrun.
  destruct (total_run _ _ _ Hrun) as (r & w' & Hr & _). unfold wp. rewrite Hr.
  vm_compute in Hr. injection Hr as <- <-. split; reflexivity.
Defined.

Lemma monitor_default_outputs_zero_witness :
  total (monitor_main (F := float) half)
    (fun _ w' => exists sent, (sm_bus w').2 = sent /\ Forall (eq zero_output) sent) sim_start.
Proof.
  assert (Hp : monitor_parse_options (F := float) half = MonitorParsed (parsed half)) by (vm_compute; reflexivity).
  assert (Hmax : 0 < mo_max_cycles (parsed half)) by (vm_compute; reflexivity).
  assert (Hargs : Forall (fun a => a ∉ output_options) half) by (apply (bool_decide_unpack _); vm_compute; exact I).
  exact (monitor_default_outputs_zero (F := float) sm_bus drive_status
    (fun d output => drive_cycle d (controlword output)) never_stops
    sim_offsets sim_length half (parsed half) sim_start Hargs Hp Hmax).
Defined.

Lemma monitor_jog_enables_then_moves_witness :
  total (monitor_main (F := float) jog)
    (fun r w' => r.1 = 0 /\ power_state (sm_bus w').1 = CIA402_STATE_OPERATION_ENABLED
       /\ last (sm_bus w').2 = Some (PdoOutput 0x0f 0 250 CIA402_MODE_CSV)) sim_start.
Proof.
  assert (Hp : monitor_parse_options (F := float) jog = MonitorParsed (parsed jog)) by (vm_compute; reflexivity).
  assert (Hjog : is_jog (monitor_start (parsed jog))) by (split; vm_compute; reflexivity).
  assert (Hen : enableable (drive_cycle (sm_bus sim_start).1 (mo_controlword (parsed jog)))) by (vm_compute; reflexivity).
  assert (Hmax : 4 * Z.of_nat 1 < mo_max_cycles (parsed jog)) by (vm_compute; reflexivity).
  assert (Htime : 4 * Z.of_nat 1 * mo_period_us (parsed jog) < mo_sequence_timeout_ms (parsed jog) * 1000)
    by (vm_compute; reflexivity).
  pose proof (monitor_jog_enables_then_moves (F := float) (T := 1) sm_bus
    sim_offsets sim_length jog (parsed jog) sim_start Hp Hjog Hen Hmax Htime) as Hj.
  destruct (total_run _ _ _ Hj) as (r & w' & Hr & HQ). unfold wp. rewrite Hr.
  assert (H0 : r.1 = 0) by (vm_compute in Hr; injection Hr as <- <-; reflexivity).
  destruct (HQ H0) as [Hpow _]. split; [exact H0|]. split; [exact Hpow|].
  vm_compute in Hr. injection Hr as <- <-. reflexivity.
Defined.
