(* ===== verification/MockCore.v ===== *)
(** * The mock of the real-time core (linux_rt/ethercat_rt_core/src/ethercat_rt_core.c)

    A server of the backend protocol with a made-up drive in place of the EtherCAT master, for
    the library to talk to.  Framing and layout are those of Wire.v.  The sleep of a
    millisecond before an answer changes nothing, and neither it nor the loop that accepts
    connections is modelled.  The claim is that a session is answered message by message. *)

From Stdlib Require Import String.
From S2P Require Import Prelude Num Types Backend Wire Server Client WireTheorems CommandTheorems.
Import stdpp.list_relations.list stdpp.list_basics.list.

Record RtMockCore : Type := MockCore {
  mc_running : bool;
  mc_period_us : Z;
  mc_sequence : Z;
  mc_position : Z;
  mc_velocity : Z;
  mc_controlword : Z;
  mc_statusword : Z;
  mc_mode_display : Z;
}.
Definition mock_core_init : RtMockCore := MockCore false 1000 0 0 0 0 0x0040 0.

(** ** The drive *)

Definition process_command (command : ECAT_NetCommand) (core : RtMockCore) : RtMockCore :=
  let c := nc_command command in
  if c =? ECAT_NET_CMD_START then core <| mc_running := true |> <| mc_statusword := 0x1237 |>
  else if c =? ECAT_NET_CMD_STOP then
    core <| mc_running := false |> <| mc_velocity := 0 |> <| mc_statusword := 0x0040 |>
  else if c =? ECAT_NET_CMD_RESET_STATISTICS then core <| mc_sequence := 0 |>
  else if c =? ECAT_NET_CMD_SERVO_ENABLE then
    core <| mc_running := true |> <| mc_controlword := 0x000f |> <| mc_statusword := 0x1237 |>
  else if c =? ECAT_NET_CMD_SERVO_DISABLE then core <| mc_controlword := 0x0006 |> <| mc_statusword := 0x0021 |>
  else if c =? ECAT_NET_CMD_SERVO_FAULT_RESET then
    core <| mc_controlword := 0x0080 |> <| mc_statusword := 0x0040 |>
  else if c =? ECAT_NET_CMD_SERVO_SET_MODE then core <| mc_mode_display := s8 (nc_mode command) |>
  else if (c =? ECAT_NET_CMD_SERVO_MOVE_ABS) || (c =? ECAT_NET_CMD_LMS_MOVE_ABS) then
    core <| mc_running := true |> <| mc_mode_display := 1 |> <| mc_position := nc_target_position command |>
         <| mc_velocity := s32 (nc_velocity command) |> <| mc_controlword := 0x003f |> <| mc_statusword := 0x1637 |>
  else if (c =? ECAT_NET_CMD_SERVO_JOG) || (c =? ECAT_NET_CMD_LMS_MOVE_VEL) then
    core <| mc_running := true |> <| mc_mode_display := 3 |> <| mc_velocity := nc_target_velocity command |>
         <| mc_position ::= (fun p => s32 (p + Z.quot (nc_target_velocity command) 100)) |>
         <| mc_controlword := 0x000f |> <| mc_statusword := 0x1237 |>
  else if (c =? ECAT_NET_CMD_SERVO_STOP) || (c =? ECAT_NET_CMD_LMS_STOP) then
    core <| mc_velocity := 0 |> <| mc_controlword := 0x010f |> <| mc_statusword := 0x1437 |>
  else if c =? ECAT_NET_CMD_SERVO_HOME then
    core <| mc_running := true |> <| mc_mode_display := 6 |> <| mc_position := 0 |>
         <| mc_controlword := 0x001f |> <| mc_statusword := 0x1637 |>
  else core.

(** A millisecond of motion before a status. *)
Definition mock_advance (core : RtMockCore) : RtMockCore :=
  if mc_running core && negb (mc_velocity core =? 0)
  then core <| mc_position ::= (fun p => s32 (p + Z.quot (mc_velocity core) 1000)) |> else core.

(** The words at the start of the copies of the process data. *)
Definition mock_pdo (word : Z) : list Z := le_bytes 2 word ++ replicate (Z.to_nat ECAT_NET_MAX_PDO_COPY - 2) 0.

Section Mock.
Context {F : Type} `{Num F} `{DoubleLayout F}.

Definition fill_status (core : RtMockCore) : ECAT_NetStatus F :=
  let running := b2z (mc_running core) in
  let period := mc_period_us core in
  NetStatus
    (NetRuntimeStatus running running 1 3 (if mc_running core then 3 else 0) (s32 (mc_sequence core)) 0 0
       period period (s32 (period + 5)) (n_of_Z period) period 0
       (safe_copy ECAT_NET_MAX_TEXT
          (if mc_running core then "Linux RT Mock Operational" else "Linux RT Mock Connected"))
       "" (safe_copy ECAT_NET_MAX_TEXT "RT core mock: Ethernet FCS/CRC not sampled."))
    (NetSlaveStatus 1 (safe_copy ECAT_NET_MAX_NAME "LinuxRT Mock CiA402 Drive") 0x08 0 1 0x1234 0 0 8 8 1 0
       (mc_statusword core) (mc_controlword core) (mc_mode_display core) (mc_position core) (mc_velocity core) 8 8
       (mock_pdo (mc_controlword core)) (mock_pdo (mc_statusword core))
     :: replicate (Z.to_nat ECAT_NET_MAX_SLAVES - 1) slave_status_zero).

(** ** Objects *)

(** The reply of [size] bytes. *)
Definition mock_reply (data : list Z) : ECAT_NetSdoReply := NetSdoReply 0 (zlen data) (sdo_data data).
Definition mock_refused : ECAT_NetSdoReply := sdo_reply_zero <| sp_result := -1 |>.

Definition mock_sdo_read (request : ECAT_NetSdoRequest) (core : RtMockCore) : ECAT_NetSdoReply :=
  if sr_index request =? 0x6041 then mock_reply (le_bytes 2 (mc_statusword core))
  else if sr_index request =? 0x6064 then mock_reply (le_bytes 4 (mc_position core))
  else mock_refused.

Definition mock_sdo_write (request : ECAT_NetSdoRequest) (core : RtMockCore) : RtMockCore * ECAT_NetSdoReply :=
  if (sr_index request =? 0x6040) && (2 <=? sr_size request) then
    (core <| mc_controlword := of_le (take 2 (sr_data request)) |>, sdo_reply_zero)
  else if (sr_index request =? 0x6060) && (1 <=? sr_size request) then
    (core <| mc_mode_display := s8 (of_le (take 1 (sr_data request))) |>, sdo_reply_zero)
  else (core, mock_refused).

(** ** The connection *)

Definition mock_send_status {W} (sk : socket W) (core : RtMockCore) : M W (Z * RtMockCore) :=
  let status := fill_status core in
  let core := core <| mc_sequence ::= (fun n => u32 (n + 1)) |> in
  let* r := send_message sk ECAT_NET_MSG_STATUS (mc_sequence core) (status_bytes status) in
  ret (r, core).

(** One round of the loop: [Some] of the result when it ends. *)
Definition mock_serve_one {W} (sk : socket W) (core : RtMockCore) : M W (option Z * RtMockCore) :=
  let* m := recv_message sk payload_capacity in
  match m with
  | None => ret (Some 0, core)
  | Some (h, payload) =>
      let b := payload_buffer payload in
      if h_type h =? ECAT_NET_MSG_SDO_READ then
        let reply := mock_sdo_read (parse_sdo_request b) core in
        let* _ := send_message sk ECAT_NET_MSG_SDO_READ_REPLY (h_sequence h) (sdo_reply_bytes reply) in
        ret (None, core)
      else if h_type h =? ECAT_NET_MSG_SDO_WRITE then
        let '(core, reply) := mock_sdo_write (parse_sdo_request b) core in
        let* _ := send_message sk ECAT_NET_MSG_SDO_WRITE_REPLY (h_sequence h) (sdo_reply_bytes reply) in
        ret (None, core)
      else
        let core := if h_type h =? ECAT_NET_MSG_COMMAND then process_command (parse_command b) core else core in
        let* r := mock_send_status sk (mock_advance core) in
        ret (if r.1 =? 0 then None else Some (-1), r.2)
  end.

Fixpoint mock_serve {W} (fuel : nat) (sk : socket W) (core : RtMockCore) : M W (Z * RtMockCore) :=
  match fuel with
  | O => fail OutOfFuel
  | S fuel =>
      let* r := mock_serve_one sk core in
      match r.1 with
      | Some result => ret (result, r.2)
      | None => mock_serve fuel sk r.2
      end
  end.

(** What the greeting makes of the drive. *)
Definition mock_hello (payload : list Z) (core : RtMockCore) : RtMockCore :=
  let b := payload_buffer payload in
  let period_us := s32 (field 64 4 b) in
  let running := negb (s32 (field 68 4 b) =? 0) in
  core <| mc_period_us := if 0 <? period_us then period_us else 1000 |> <| mc_running := running |>
       <| mc_statusword := if running then 0x1237 else 0x0040 |>
       <| mc_controlword := if running then 0x000f else 0 |>.

Definition mock_handle_client {W} `{LoopFuel} (sk : socket W) (core : RtMockCore) : M W (Z * RtMockCore) :=
  let* m := recv_message sk payload_capacity in
  match m with
  | None => ret (-1, core)
  | Some (h, payload) =>
      if negb (h_type h =? ECAT_NET_MSG_HELLO) then ret (-1, core)
      else
        let* r := mock_send_status sk (mock_hello payload core) in
        if negb (r.1 =? 0) then ret (-1, r.2) else mock_serve loop_fuel sk r.2
  end.
End Mock.

(** * A session *)

(** A message of the client, and an answer: type, sequence number, payload. *)
Abbreviation message := (Z * Z * list Z)%type.
Definition to_bytes (m : message) : list Z := message_bytes m.1.1 m.1.2 m.2.

Section Session.
Context {F : Type} `{Num F} `{DoubleLayout F}.

Definition status_answer (core : RtMockCore) : message * RtMockCore :=
  let counted := core <| mc_sequence ::= (fun n => u32 (n + 1)) |> in
  ((ECAT_NET_MSG_STATUS, mc_sequence counted, status_bytes (fill_status (F := F) core)), counted).

(** What one message does to the drive, and its answer. *)
Definition mock_step (core : RtMockCore) (m : message) : message * RtMockCore :=
  let '(ty, seq, payload) := m in
  let b := payload_buffer payload in
  if ty =? ECAT_NET_MSG_SDO_READ then
    ((ECAT_NET_MSG_SDO_READ_REPLY, seq, sdo_reply_bytes (mock_sdo_read (parse_sdo_request b) core)), core)
  else if ty =? ECAT_NET_MSG_SDO_WRITE then
    let r := mock_sdo_write (parse_sdo_request b) core in
    ((ECAT_NET_MSG_SDO_WRITE_REPLY, seq, sdo_reply_bytes r.2), r.1)
  else status_answer (mock_advance
         (if ty =? ECAT_NET_MSG_COMMAND then process_command (parse_command b) core else core)).

Fixpoint mock_answers (core : RtMockCore) (ms : list message) : list message * RtMockCore :=
  match ms with
  | [] => ([], core)
  | m :: ms =>
      let '(a, core) := mock_step core m in
      let '(answers, core) := mock_answers core ms in (a :: answers, core)
  end.
(** The greeting is answered by a status. *)
Definition mock_session (core : RtMockCore) (hello : list Z) (ms : list message) : list message * RtMockCore :=
  let '(a, core) := status_answer (mock_hello hello core) in
  let '(answers, core) := mock_answers core ms in (a :: answers, core).

Record message_ok (m : message) : Prop := MessageOk {
  mk_type : 0 <= m.1.1 < 2 ^ 16;
  mk_sequence : 0 <= m.1.2 < 2 ^ 32;
  mk_length : zlen m.2 <= payload_capacity;
  mk_bytes : bytes_ok m.2;
}.

(** ** The drive keeps its types *)

Record core_ok (period : Z) (core : RtMockCore) : Prop := CoreOk {
  co_period : mc_period_us core = period;
  co_signed : Forall i32_ok [mc_period_us core; mc_position core; mc_velocity core];
  co_sequence : u32_ok (mc_sequence core);
  co_words : Forall u16_ok [mc_statusword core; mc_controlword core];
  co_mode : - 2 ^ 7 <= mc_mode_display core < 2 ^ 7;
}.
Lemma s8_range z : - 2 ^ 7 <= s8 z < 2 ^ 7.
Proof. unfold s8. pose proof (Z.mod_pos_bound (z + 2 ^ 7) (2 ^ 8)). lia. Qed.

Ltac core_typed := split; cbn -[s32 s8 u32 i32_ok u32_ok u16_ok Z.quot]; rewrite ?Forall_cons, ?Forall_nil;
  split_and?; first [exact I | done | apply s32_range | apply s8_range | apply u32_range | (unfold i32_ok, u16_ok, u32_ok; lia)].

Lemma command_core_ok p b core : core_ok p core -> core_ok p (process_command (parse_command b) core).
Proof.
  intros Hok. pose proof Hok as [Hp Hs Hq Hw Hm]. each.
  unfold process_command. cbv zeta.
  repeat (match goal with |- core_ok _ (if ?c then _ else _) => destruct c end; [core_typed|]). exact Hok.
Qed.
Lemma advance_core_ok p core : core_ok p core -> core_ok p (mock_advance core).
Proof.
  intros Hok. pose proof Hok as [Hp Hs Hq Hw Hm]. each.
  unfold mock_advance. destruct (mc_running core && negb (mc_velocity core =? 0)); [core_typed | exact Hok].
Qed.
Lemma hello_core_ok p b core : core_ok p core -> core_ok (mc_period_us (mock_hello b core)) (mock_hello b core).
Proof.
  intros Hok. pose proof Hok as [Hp Hs Hq Hw Hm]. each.
  unfold mock_hello. cbv zeta. repeat case_match; core_typed.
Qed.

(** The bytes of a message stay bytes in its buffer. *)
Lemma of_le_take_bounds n l : bytes_ok l -> 0 <= of_le (take n l) < 256 ^ Z.of_nat n.
Proof.
  intros Hl. pose proof (of_le_bounds (take n l) (Forall_take _ _ _ Hl)) as [Hlo Hhi]. split; [done|].
  eapply Z.lt_le_trans; [exact Hhi|]. apply Z.pow_le_mono_r; [lia|]. rewrite length_take. lia.
Qed.
Lemma write_core_ok p payload core : bytes_ok payload -> core_ok p core ->
  core_ok p (mock_sdo_write (parse_sdo_request (payload_buffer payload)) core).1.
Proof.
  intros Hb Hok. pose proof Hok as [Hp Hs Hq Hw Hm]. each. unfold mock_sdo_write.
  assert (Hdata : bytes_ok (sr_data (parse_sdo_request (payload_buffer payload)))).
  { apply Forall_take, Forall_drop, Forall_app_2; [done|]. by apply Forall_replicate. }
  pose proof (of_le_take_bounds 2 _ Hdata).
  repeat (match goal with |- core_ok _ (fst (if ?c then _ else _)) => destruct c end; cbn [fst]; [core_typed|]). exact Hok.
Qed.

Lemma step_core_ok p core m : message_ok m -> core_ok p core -> core_ok p (mock_step core m).2.
Proof.
  destruct m as [[ty seq] payload]. intros [_ _ _ Hb] Hok. unfold mock_step, status_answer. cbn [fst snd] in Hb.
  destruct (ty =? ECAT_NET_MSG_SDO_READ); [done|].
  destruct (ty =? ECAT_NET_MSG_SDO_WRITE); [by apply write_core_ok|]. cbn [snd].
  set (core' := mock_advance _).
  assert (core_ok p core') as [Hp Hs Hq Hw Hm].
  { apply advance_core_ok. destruct (ty =? _); [by apply command_core_ok | done]. }
  each. core_typed.
Qed.

(** ** What a status says is read *)

Context (period : Z) (Hdouble : double_ok (n_of_Z (F := F) period)).

Lemma fill_status_ok core : core_ok period core -> status_ok (fill_status (F := F) core).
Proof using Hdouble.
  intros [Hp Hs Hq Hw Hm]. each. split; [| |done].
  - split; [|cbn; by rewrite Hp | done | | |]; cbn -[s32 Z.add].
    + destruct (mc_running core); rewrite ?Forall_cons, ?Forall_nil; split_and?;
        first [exact I | done | apply s32_range | unfold i32_ok; lia].
    + destruct (mc_running core); by apply text_ok_compute.
    + by apply text_ok_compute.
    + by apply text_ok_compute.
  - cbn [st_slaves fill_status]. constructor; [|apply Forall_replicate].
    + split; cbn -[mock_pdo]; rewrite ?Forall_cons, ?Forall_nil; split_and?;
        first [exact I | done | (unfold i32_ok, u16_ok, u32_ok; lia) | by apply text_ok_compute | idtac].
    + split; first [by apply text_ok_compute | by repeat constructor | done].
Qed.

(** ** The connection *)

Context {W : Type} (sk : socket W) (up down : W -> list Z).
Implicit Types w : W.
Definition keeps_down (w w' : W) : Prop := down w' = down w.
Definition keeps_up (w w' : W) : Prop := up w' = up w.
#[local] Instance keeps_down_preorder : PreOrder keeps_down.
Proof using Type. split; [done | intros ??? Ha Hb; unfold keeps_down in *; congruence]. Qed.
#[local] Instance keeps_up_preorder : PreOrder keeps_up.
Proof using Type. split; [done | intros ??? Ha Hb; unfold keeps_up in *; congruence]. Qed.

(** When the client has sent all it had to say it hangs up. *)
Definition hangs_up : Prop := forall n w, 0 < n -> up w = [] ->
  total (sk_recv sk n) (fun r w' => r.1 <= 0 /\ up w' = [] /\ down w' = down w) w.

Context (Hsend : sends sk down keeps_up) (Hrecv : receives sk up keeps_down) (Hend : hangs_up).

Lemma wp_no_message w Q : up w = [] ->
  (forall w', up w' = [] -> down w' = down w -> Q None w') -> total (recv_message sk payload_capacity) Q w.
Proof using Hend.
  intros Hu HQ. apply wp_bind. unfold recv_all, header_size. cbn [Z.to_nat Pos.to_nat Pos.iter_op Nat.add recv_rest].
  change (16 <=? zlen []) with false. apply wp_bind. eapply wp_mono; [by apply Hend|].
  intros r w' (Hr & Hu' & Hd'). rewrite (proj2 (Z.leb_le _ _)) by done. apply wp_ret, wp_ret. by apply HQ.
Qed.

Lemma wp_send_status core w Q :
  (forall w', up w' = up w -> down w' = down w ++ to_bytes (status_answer core).1 ->
     Q (0, (status_answer core).2) w') ->
  total (mock_send_status (F := F) sk core) Q w.
Proof using Hsend.
  intros HQ. apply wp_bind, (wp_send_message Hsend). intros w' Hd Hk. apply wp_ret. by apply HQ.
Qed.

Lemma wp_mock_serve_one core m rest w Q : message_ok m -> up w = to_bytes m ++ rest ->
  (forall w', up w' = rest -> down w' = down w ++ to_bytes (mock_step core m).1 -> Q (None, (mock_step core m).2) w') ->
  total (mock_serve_one (F := F) sk core) Q w.
Proof using Hsend Hrecv.
  destruct m as [[ty seq] payload]. intros [Ht Hq Hl Hb] Hu HQ. cbn [fst snd] in *.
  apply wp_bind. eapply (wp_recv_message Hrecv ty seq payload rest); [done | done | done | | exact Hu |].
  { unfold payload_capacity in Hl. lia. }
  intros w1 Hu1 Hd1. unfold keeps_down in Hd1. cbn [h_type h_sequence]. unfold mock_step in HQ.
  destruct (ty =? ECAT_NET_MSG_SDO_READ).
  { apply wp_bind, (wp_send_message Hsend). intros w2 Hd2 Hk2. unfold keeps_up in Hk2. apply wp_ret.
    apply HQ; [congruence|]. by rewrite Hd2, Hd1. }
  destruct (ty =? ECAT_NET_MSG_SDO_WRITE).
  { destruct (mock_sdo_write _ core) as [core' reply]. apply wp_bind, (wp_send_message Hsend).
    intros w2 Hd2 Hk2. unfold keeps_up in Hk2. apply wp_ret. apply HQ; [congruence|]. by rewrite Hd2, Hd1. }
  apply wp_bind, wp_send_status. intros w2 Hu2 Hd2. apply wp_ret. apply HQ; [congruence|]. by rewrite Hd2, Hd1.
Qed.

Lemma wp_mock_serve ms : forall fuel core w Q, (length ms < fuel)%nat -> Forall message_ok ms ->
  up w = concat (map to_bytes ms) ->
  (forall w', up w' = [] -> down w' = down w ++ concat (map to_bytes (mock_answers core ms).1) ->
     Q (0, (mock_answers core ms).2) w') ->
  total (mock_serve (F := F) fuel sk core) Q w.
Proof using Hsend Hrecv Hend.
  induction ms as [|m ms IH]; intros fuel core w Q Hfuel Hok Hu HQ; (destruct fuel as [|fuel]; [cbn in Hfuel; lia|]).
  - apply wp_bind. unfold mock_serve_one. apply wp_bind, wp_no_message; [exact Hu|]. intros w' Hu' Hd'.
    apply wp_ret, wp_ret. apply HQ; [done|]. by rewrite app_nil_r.
  - apply Forall_cons in Hok as [Hm Hok]. cbn [map concat] in Hu. cbn [mock_answers] in HQ.
    apply wp_bind. eapply wp_mock_serve_one; [done | exact Hu|]. intros w1 Hu1 Hd1. cbn [fst snd].
    destruct (mock_step core m) as [a core1]. cbn [fst snd] in Hd1 |- *.
    apply IH; [cbn in Hfuel; lia | done | done|]. intros w2 Hu2 Hd2.
    destruct (mock_answers core1 ms) as [answers core2]. cbn [fst snd map concat] in *.
    apply HQ; [done|]. by rewrite Hd2, Hd1, <- app_assoc.
Qed.

(** What the status answers of a session say. *)
Definition says_status (a : message) : Prop :=
  a.1.1 = ECAT_NET_MSG_STATUS -> exists core, core_ok period core /\ parse_status a.2 = fill_status (F := F) core.

Lemma status_answer_says core : core_ok period core -> says_status (status_answer core).1 /\ core_ok period (status_answer core).2.
Proof using Hdouble.
  intros Hok. split.
  - intros _. exists core. split; [done|]. by apply status_roundtrip, fill_status_ok.
  - destruct Hok as [Hp Hs Hq Hw Hm]. each. unfold status_answer. core_typed.
Qed.
Lemma step_says core m : message_ok m -> core_ok period core -> says_status (mock_step core m).1.
Proof using Hdouble.
  destruct m as [[ty seq] payload]. intros [_ _ _ Hb] Hok. unfold mock_step.
  destruct (ty =? ECAT_NET_MSG_SDO_READ); [by intros [=]|].
  destruct (ty =? ECAT_NET_MSG_SDO_WRITE); [by intros [=]|].
  apply status_answer_says, advance_core_ok. destruct (ty =? _); [by apply command_core_ok | done].
Qed.
Lemma answers_say ms : forall core, Forall message_ok ms -> core_ok period core ->
  Forall says_status (mock_answers core ms).1 /\ core_ok period (mock_answers core ms).2.
Proof using Hdouble.
  induction ms as [|m ms IH]; intros core Hms Hok; [by split|]. apply Forall_cons in Hms as [Hm Hms].
  cbn [mock_answers]. pose proof (step_says core m Hm Hok) as Hsay. pose proof (step_core_ok period core m Hm Hok) as Hok1.
  destruct (mock_step core m) as [a core1]. destruct (IH core1 Hms Hok1) as [Hsays Hok2].
  destruct (mock_answers core1 ms) as [answers core2]. split; [by constructor | done].
Qed.
End Session.

(** C32: Over a connection that cuts the stream of bytes wherever it likes, a session with the
    mock is answered message by message: a greeting and any messages of any types and
    contents are taken in order, each changes the drive as its kind says and gets its one
    answer, and when the client hangs up the session ends well, with nothing left unread.
    Every status that was sent is read by the library as the status of a drive whose fields
    have their types. *)
Theorem mock_session_answered {F} `{Num F} `{DoubleLayout F} `{LoopFuel} {W} (sk : socket W) (up down : W -> list Z)
    (core : RtMockCore) (p seq : Z) (hello : list Z) (ms : list message) (w : W) :
  let period := mc_period_us (mock_hello hello core) in
  double_ok (n_of_Z (F := F) period) ->
  sends sk down (keeps_up up) -> receives sk up (keeps_down down) -> hangs_up sk up down ->
  core_ok p core -> message_ok (ECAT_NET_MSG_HELLO, seq, hello) -> Forall message_ok ms -> (length ms < loop_fuel)%nat ->
  up w = to_bytes (ECAT_NET_MSG_HELLO, seq, hello) ++ concat (map to_bytes ms) -> down w = [] ->
  total (mock_handle_client (F := F) sk core)
    (fun r w' =>
       let '(answers, core') := mock_session (F := F) core hello ms in
       r = (0, core') /\ up w' = [] /\ down w' = concat (map to_bytes answers)
       /\ core_ok period core' /\ length answers = S (length ms) /\ Forall (says_status (F := F) period) answers) w.
Proof.
  intros period Hdouble Hsend Hrecv Hend Hcore [Ht Hq Hl Hb] Hms Hfuel Hu Hd. cbn [fst snd] in *.
  apply wp_bind. eapply (wp_recv_message (PreOrder0 := keeps_down_preorder down) Hrecv); [exact Ht | exact Hq | exact Hl | | exact Hu |].
  { unfold payload_capacity in Hl. lia. }
  intros w1 Hu1 Hd1. unfold keeps_down in Hd1. cbn [h_type]. change (ECAT_NET_MSG_HELLO =? ECAT_NET_MSG_HELLO) with true. cbn [negb].
  pose proof (hello_core_ok p hello core Hcore) as Hcore1.
  destruct (status_answer_says period Hdouble _ Hcore1) as [Hsay Hcore2].
  apply wp_bind. eapply (wp_send_status sk up down Hsend). intros w2 Hu2 Hd2. cbn [fst snd Z.eqb negb].
  eapply (wp_mock_serve sk up down Hsend Hrecv Hend ms); [done | done | congruence|]. intros w3 Hu3 Hd3.
  unfold mock_session. destruct (answers_say period Hdouble ms _ Hms Hcore2) as [Hsays Hcore3].
  destruct (status_answer (mock_hello hello core)) as [a core2]. cbn [fst snd] in *.
  assert (Hlen : forall ms core, length (mock_answers (F := F) core ms).1 = length ms).
  { clear. induction ms as [|m ms IH]; intros core; [done|]. cbn [mock_answers].
    destruct (mock_step core m) as [a core1]. specialize (IH core1). destruct (mock_answers core1 ms). cbn in *. by rewrite IH. }
  specialize (Hlen ms core2). destruct (mock_answers core2 ms) as [answers core3]. cbn [fst snd map concat length] in *.
  split; [done|]. split; [done|]. split; [by rewrite Hd3, Hd2, Hd1, Hd|]. split; [done|]. split; [by rewrite Hlen|]. by constructor.
Qed.

(** A greeting, a move to 5000 and a reading of the position. *)
#[local] Instance thousand : DoubleLayout SpecFloat.spec_float := {
  double_bytes _ := replicate 8 0;
  parse_double _ := n_of_Z 1000;
}.
#[local] Instance five_rounds : LoopFuel := 5%nat.
Definition session_hello : list Z := hello_bytes 1000 1.
Definition session_messages : list message :=
  [(ECAT_NET_MSG_COMMAND, 2, command_bytes remote_move);
   (ECAT_NET_MSG_SDO_READ, 3, sdo_request_bytes (NetSdoRequest 1 0x6064 0 0 4 (sdo_data [])))].

Lemma server_hangs_up : hangs_up server_end n_up n_down.
Proof.
  intros n w Hn Hu. unfold wp. cbn. rewrite Hu. split; [by rewrite take_nil|]. split; [by rewrite drop_nil | done].
Qed.
Lemma message_ok_compute m :
  ((0 <=? m.1.1) && (m.1.1 <? 2 ^ 16)) && ((0 <=? m.1.2) && (m.1.2 <? 2 ^ 32))
  && (zlen m.2 <=? payload_capacity) && forallb (fun b => (0 <=? b) && (b <? 256)) m.2 = true -> message_ok m.
Proof.
  rewrite !andb_true_iff, forallb_forall. intros [[[[H1 H2] [H3 H4]] H5] H6]. split; [lia | lia | lia |].
  apply Forall_forall. intros b Hb. apply list_elem_of_In, H6, andb_prop in Hb as [Hb1 Hb2]. cbn beta. split; lia.
Qed.

Lemma mock_session_answered_witness :
  total (mock_handle_client (F := SpecFloat.spec_float) server_end mock_core_init)
    (fun r w' => r.1 = 0 /\ mc_position r.2 = 5000 /\ n_up w' = [])
    (Net (to_bytes (ECAT_NET_MSG_HELLO, 1, session_hello) ++ concat (map to_bytes session_messages)) [] [3; 1; 7; 100; 2]).
Proof.
  assert (Hcore : core_ok 1000 mock_core_init)
    by (split; cbn; rewrite ?Forall_cons, ?Forall_nil; unfold i32_ok, u16_ok, u32_ok; split_and?; first [done | lia]).
  assert (Hhello : message_ok (ECAT_NET_MSG_HELLO, 1, session_hello)) by (apply message_ok_compute; vm_compute; reflexivity).
  assert (Hms : Forall message_ok session_messages)
    by (repeat (apply Forall_cons; split); [| | apply Forall_nil]; try exact I; apply message_ok_compute; vm_compute; reflexivity).
  assert (Hdouble : double_ok (n_of_Z (F := SpecFloat.spec_float) (mc_period_us (mock_hello session_hello mock_core_init))))
    by (split; vm_compute; reflexivity).
  pose proof (mock_session_answered (F := SpecFloat.spec_float) server_end n_up n_down mock_core_init 1000 1 session_hello
    session_messages (Net (to_bytes (ECAT_NET_MSG_HELLO, 1, session_hello) ++ concat (map to_bytes session_messages)) []
      [3; 1; 7; 100; 2]) Hdouble server_sends server_receives server_hangs_up Hcore Hhello Hms
    ltac:(apply Nat.ltb_lt; reflexivity) eq_refl eq_refl) as Hs.
  eapply wp_mono; [exact Hs|]. intros r w' Hr.
  destruct (mock_session (F := SpecFloat.spec_float) mock_core_init session_hello session_messages) as [answers core'] eqn:Hm.
  destruct Hr as (-> & Hu & _). split; [reflexivity|]. split; [|exact Hu].
  apply (f_equal (fun x => mc_position x.2)) in Hm. cbn [fst snd] in Hm |- *. rewrite <- Hm. vm_compute. reflexivity.
Defined.
