(* ===== verification/Print.v ===== *)
(** * Texts of errors (src/ec_print.c)

    The tables of messages with their look-up, and an error of the list as a line of text.
    The line is in one buffer that the next call writes over; here it is a value.  The claim
    is that what is reported is printed, in the order of the reports. *)

From Stdlib Require Import String Ascii.
From S2P Require Import Prelude Ring Types Num Osal ErrorRing.
Import stdpp.list_relations.list stdpp.list_basics.list.

Definition EC_MAXERRORNAME : nat := 127.

(** ** Tables

    A table ends with its sentinel, whose text is the answer for every other code. *)

Abbreviation message_table := (list (Z * string)).

Definition ec_sdoerrorlist : message_table := [
  (0x00000000, "No error");
  (0x05030000, "Toggle bit not changed");
  (0x05040000, "SDO protocol timeout");
  (0x05040001, "Client/Server command specifier not valid or unknown");
  (0x05040005, "Out of memory");
  (0x06010000, "Unsupported access to an object");
  (0x06010001, "Attempt to read to a write only object");
  (0x06010002, "Attempt to write to a read only object");
  (0x06010003, "Subindex can not be written, SI0 must be 0 for write access");
  (0x06010004, "SDO Complete access not supported for variable length objects");
  (0x06010005, "Object length exceeds mailbox size");
  (0x06010006, "Object mapped to RxPDO, SDO download blocked");
  (0x06020000, "The object does not exist in the object directory");
  (0x06040041, "The object can not be mapped into the PDO");
  (0x06040042, "The number and length of the objects to be mapped would exceed the PDO length");
  (0x06040043, "General parameter incompatibility reason");
  (0x06040047, "General internal incompatibility in the device");
  (0x06060000, "Access failed due to a hardware error");
  (0x06070010, "Data type does not match, length of service parameter does not match");
  (0x06070012, "Data type does not match, length of service parameter too high");
  (0x06070013, "Data type does not match, length of service parameter too low");
  (0x06090011, "Subindex does not exist");
  (0x06090030, "Value range of parameter exceeded (only for write access)");
  (0x06090031, "Value of parameter written too high");
  (0x06090032, "Value of parameter written too low");
  (0x06090036, "Maximum value is less than minimum value");
  (0x08000000, "General error");
  (0x08000020, "Data cannot be transferred or stored to the application");
  (0x08000021, "Data cannot be transferred or stored to the application because of local control");
  (0x08000022, "Data cannot be transferred or stored to the application because of the present device state");
  (0x08000023, "Object dictionary dynamic generation fails or no object dictionary is present");
  (0xffffffff, "Unknown")]%string.

Definition ec_ALstatuscodelist : message_table := [
  (0x0000, "No error");
  (0x0001, "Unspecified error");
  (0x0002, "No memory");
  (0x0003, "Invalid device setup");
  (0x0004, "Invalid revision");
  (0x0006, "SII/EEPROM information does not match firmware");
  (0x0007, "Firmware update not successful. Old firmware still running");
  (0x000e, "License error");
  (0x0011, "Invalid requested state change");
  (0x0012, "Unknown requested state");
  (0x0013, "Bootstrap not supported");
  (0x0014, "No valid firmware");
  (0x0015, "Invalid mailbox configuration");
  (0x0016, "Invalid mailbox configuration");
  (0x0017, "Invalid sync manager configuration");
  (0x0018, "No valid inputs available");
  (0x0019, "No valid outputs");
  (0x001a, "Synchronization error");
  (0x001b, "Sync manager watchdog");
  (0x001c, "Invalid sync Manager types");
  (0x001d, "Invalid output configuration");
  (0x001e, "Invalid input configuration");
  (0x001f, "Invalid watchdog configuration");
  (0x0020, "Slave needs cold start");
  (0x0021, "Slave needs INIT");
  (0x0022, "Slave needs PREOP");
  (0x0023, "Slave needs SAFEOP");
  (0x0024, "Invalid input mapping");
  (0x0025, "Invalid output mapping");
  (0x0026, "Inconsistent settings");
  (0x0027, "Freerun not supported");
  (0x0028, "Synchronisation not supported");
  (0x0029, "Freerun needs 3buffer mode");
  (0x002a, "Background watchdog");
  (0x002b, "No valid Inputs and Outputs");
  (0x002c, "Fatal sync error");
  (0x002d, "No sync error");
  (0x002e, "Invalid input FMMU configuration");
  (0x0030, "Invalid DC SYNC configuration");
  (0x0031, "Invalid DC latch configuration");
  (0x0032, "PLL error");
  (0x0033, "DC sync IO error");
  (0x0034, "DC sync timeout error");
  (0x0035, "DC invalid sync cycle time");
  (0x0036, "DC invalid sync0 cycle time");
  (0x0037, "DC invalid sync1 cycle time");
  (0x0041, "MBX_AOE");
  (0x0042, "MBX_EOE");
  (0x0043, "MBX_COE");
  (0x0044, "MBX_FOE");
  (0x0045, "MBX_SOE");
  (0x004f, "MBX_VOE");
  (0x0050, "EEPROM no access");
  (0x0051, "EEPROM error");
  (0x0052, "External hardware not ready");
  (0x0060, "Slave restarted locally");
  (0x0061, "Device identification value updated");
  (0x0070, "Detected Module Ident List does not match");
  (0x0080, "Supply voltage too low");
  (0x0081, "Supply voltage too high");
  (0x0082, "Temperature too low");
  (0x0083, "Temperature too high");
  (0x00f0, "Application controller available");
  (0xffff, "Unknown")]%string.

Definition ec_soeerrorlist : message_table := [
  (0x0000, "No error");
  (0x1001, "No IDN");
  (0x1009, "Invalid access to element 1");
  (0x2001, "No Name");
  (0x2002, "Name transmission too short");
  (0x2003, "Name transmission too long");
  (0x2004, "Name cannot be changed (read only)");
  (0x2005, "Name is write-protected at this time");
  (0x3002, "Attribute transmission too short");
  (0x3003, "Attribute transmission too long");
  (0x3004, "Attribute cannot be changed (read only)");
  (0x3005, "Attribute is write-protected at this time");
  (0x4001, "No units");
  (0x4002, "Unit transmission too short");
  (0x4003, "Unit transmission too long");
  (0x4004, "Unit cannot be changed (read only)");
  (0x4005, "Unit is write-protected at this time");
  (0x5001, "No minimum input value");
  (0x5002, "Minimum input value transmission too short");
  (0x5003, "Minimum input value transmission too long");
  (0x5004, "Minimum input value cannot be changed (read only)");
  (0x5005, "Minimum input value is write-protected at this time");
  (0x6001, "No maximum input value");
  (0x6002, "Maximum input value transmission too short");
  (0x6003, "Maximum input value transmission too long");
  (0x6004, "Maximum input value cannot be changed (read only)");
  (0x6005, "Maximum input value is write-protected at this time");
  (0x7002, "Operation data transmission too short");
  (0x7003, "Operation data transmission too long");
  (0x7004, "Operation data cannot be changed (read only)");
  (0x7005, "Operation data is write-protected at this time (state)");
  (0x7006, "Operation data is smaller than the minimum input value");
  (0x7007, "Operation data is smaller than the maximum input value");
  (0x7008, "Invalid operation data:Configured IDN will not be supported");
  (0x7009, "Operation data write protected by a password");
  (0x700a, "Operation data is write protected, it is configured cyclically");
  (0x700b, "Invalid indirect addressing: (e.g., data container, list handling)");
  (0x700c, "Operation data is write protected, due to other settings");
  (0x700d, "Reserved");
  (0x7010, "Procedure command already active");
  (0x7011, "Procedure command not interruptible");
  (0x7012, "Procedure command at this time not executable (state)");
  (0x7013, "Procedure command not executable (invalid or false parameters)");
  (0x7014, "No data state");
  (0x8001, "No default value");
  (0x8002, "Default value transmission too long");
  (0x8004, "Default value cannot be changed, read only");
  (0x800a, "Invalid drive number");
  (0x800a, "General error");
  (0x800a, "No element addressed");
  (0xffff, "Unknown")]%string.

Definition ec_mbxerrorlist : message_table := [
  (0x0000, "No error");
  (0x0001, "Syntax of 6 octet Mailbox Header is wrong");
  (0x0002, "The mailbox protocol is not supported");
  (0x0003, "Channel Field contains wrong value");
  (0x0004, "The service is no supported");
  (0x0005, "Invalid mailbox header");
  (0x0006, "Length of received mailbox data is too short");
  (0x0007, "No more memory in slave");
  (0x0008, "The length of data is inconsistent");
  (0xffff, "Unknown")]%string.

(** The search stops at the code or at the sentinel. *)
Fixpoint error_text (sentinel : Z) (table : message_table) (code : Z) : option string :=
  match table with
  | (c, text) :: rest =>
      if negb (c =? sentinel) && negb (c =? code) then error_text sentinel rest code else Some text
  | [] => None
  end.

(** Behind the end of a table there would be no text. *)
Definition ec_sdoerror2string (sdoerrorcode : Z) : string :=
  default ""%string (error_text 0xffffffff ec_sdoerrorlist sdoerrorcode).
Definition ec_ALstatuscode2string (ALstatuscode : Z) : string :=
  default ""%string (error_text 0xffff ec_ALstatuscodelist ALstatuscode).
Definition ec_soeerror2string (errorcode : Z) : string :=
  default ""%string (error_text 0xffff ec_soeerrorlist errorcode).
Definition ec_mbxerror2string (errorcode : Z) : string :=
  default ""%string (error_text 0xffff ec_mbxerrorlist errorcode).

(** ** Formats *)

Definition digit_char (d : Z) : ascii := ascii_of_nat (Z.to_nat (if d <? 10 then 48 + d else 87 + d)).
(** The digits of a number below [base] to the power of [fuel]. *)
Fixpoint digits_of (fuel : nat) (base v : Z) (acc : string) : string :=
  match fuel with
  | O => acc
  | S fuel =>
      let acc := String (digit_char (v mod base)) acc in
      if v / base =? 0 then acc else digits_of fuel base (v / base) acc
  end.
Fixpoint repeated (n : nat) (c : ascii) (s : string) : string :=
  match n with O => s | S n => String c (repeated n c s) end.
Definition pad_left (n : nat) (c : ascii) (s : string) : string := repeated (n - String.length s) c s.

(** [%d] of a number that is not negative, and [%n.nx]. *)
Definition dec (v : Z) : string := digits_of 20 10 v "".
Definition hex_min (n : nat) (v : Z) : string := pad_left n "0" (digits_of 16 16 v "").

Definition round_half_even (n d : Z) : Z :=
  let q := n / d in
  let r := n mod d in
  if 2 * r <? d then q else if d <? 2 * r then q + 1 else if Z.even q then q else q + 1.
(** [%12.3f] of a [double]: its exact value, rounded to the even thousandth. *)
Definition float_text (x : SpecFloat.spec_float) : string :=
  let text (neg : bool) (k : Z) :=
    pad_left 12 " " ((if neg then "-" else "") ++ dec (k / 1000) ++ "." ++ pad_left 3 "0" (dec (k mod 1000)))%string in
  match x with
  | SpecFloat.S754_zero s => text s 0
  | SpecFloat.S754_finite s m e =>
      text s (if 0 <=? e then Z.pos m * 2 ^ e * 1000 else round_half_even (Z.pos m * 1000) (2 ^ (- e)))
  | SpecFloat.S754_infinity s => pad_left 12 " " ((if s then "-" else "") ++ "inf")%string
  | SpecFloat.S754_nan => pad_left 12 " " "nan"
  end.

(** [snprintf] into a buffer of [n] characters. *)
Definition snprintf (n : nat) (s : string) : string := substring 0 (n - 1) s.

Definition time_text (t : ec_timet) : string :=
  snprintf 20 ("Time:" ++ float_text (n_add (n_of_Z (tv_sec t)) (n_div (n_of_Z (tv_nsec t)) (n_of_Z 1000000000))))%string.

(** The other view of the union: [AbortCode] as an unsigned number. *)
Definition abort_code (Ec : ec_errort) : Z :=
  u16 (ErrorCode Ec) + Z.shiftl (u8 (ErrorReg Ec)) 16 + Z.shiftl (u8 (b1 Ec)) 24.

(** The line break at the end. *)
Definition newline : string := String "010" "".

Definition ecx_err2string (Ec : ec_errort) : string :=
  let slave := (" slave:" ++ dec (Slave Ec))%string in
  let index := (" index:" ++ hex_min 4 (Index Ec) ++ "." ++ hex_min 2 (SubIdx Ec))%string in
  let line (body : string) := snprintf EC_MAXERRORNAME (time_text (Time Ec) ++ body ++ newline)%string in
  if (Etype Ec =? EC_ERR_TYPE_SDO_ERROR) || (Etype Ec =? EC_ERR_TYPE_SDOINFO_ERROR) then
    line (" SDO" ++ slave ++ index ++ " error:" ++ hex_min 8 (abort_code Ec) ++ " "
          ++ ec_sdoerror2string (abort_code Ec))%string
  else if Etype Ec =? EC_ERR_TYPE_EMERGENCY then
    line (" EMERGENCY" ++ slave ++ " error:" ++ hex_min 4 (ErrorCode Ec))%string
  else if Etype Ec =? EC_ERR_TYPE_PACKET_ERROR then
    line (" PACKET" ++ slave ++ index ++ " error:" ++ dec (ErrorCode Ec))%string
  else if Etype Ec =? EC_ERR_TYPE_SOE_ERROR then
    line (" SoE" ++ slave ++ " IDN:" ++ hex_min 4 (Index Ec) ++ " error:" ++ hex_min 4 (abort_code Ec) ++ " "
          ++ ec_soeerror2string (ErrorCode Ec))%string
  else if Etype Ec =? EC_ERR_TYPE_MBX_ERROR then
    line (" MBX" ++ slave ++ " error:" ++ hex_min 4 (ErrorCode Ec) ++ " " ++ ec_mbxerror2string (ErrorCode Ec))%string
  else line (" error:" ++ hex_min 8 (abort_code Ec))%string.

Definition ecx_elist2string : M estate string :=
  let* r := ecx_poperror in ret (if r.1 then ecx_err2string r.2 else ""%string).

(** ** Every report is printed *)

(** Reports in a row, and calls of the printer in a row. *)
Fixpoint report (es : list ec_errort) : M estate unit :=
  match es with
  | [] => ret tt
  | e :: es => do* ecx_pusherror e in report es
  end.
Fixpoint print_lines (n : nat) : M estate (list string) :=
  match n with
  | O => ret []
  | S n => let* line := ecx_elist2string in let* lines := print_lines n in ret (line :: lines)
  end.

(** The last [n] entries. *)
Definition newest {A} (n : nat) (l : list A) : list A := drop (length l - n) l.

Lemma newest_short {A} n (l : list A) : (length l <= n)%nat -> newest n l = l.
Proof. intros H. unfold newest. by replace (length l - n)%nat with O by lia. Qed.

(** An entry dropped early is one that would be dropped at the end. *)
Lemma newest_app {A} n (l k : list A) : newest n (newest n l ++ k) = newest n (l ++ k).
Proof.
  unfold newest. rewrite !length_app, length_drop, <- (drop_app_le l k) by lia.
  rewrite drop_drop. f_equal. lia.
Qed.

Lemma queue_push_newest (q : list ec_errort) (e : ec_errort) :
  (length q <= 64)%nat -> queue_push q e = newest 64 (q ++ [e]).
Proof.
  intros Hq. unfold queue_push, newest, zlen. ec_unfold. rewrite !length_app. cbn [length].
  case_match eqn:E; [apply Z.ltb_lt in E | apply Z.ltb_ge in E].
  - replace (length q + 1 - 64)%nat with 1%nat by lia. by destruct (q ++ [e]).
  - by replace (length q + 1 - 64)%nat with O by lia.
Qed.

Lemma ering_abs_small (l : ec_eringt) : ering_wf l -> (length (ering_abs l) <= 64)%nat.
Proof.
  intros Hwf. pose proof (length_ering_abs l Hwf) as Hl.
  pose proof (ering_count_bounds l Hwf) as Hc. unfold zlen, ering_size in *. ec_unfold. lia.
Qed.

(** The list after the reports: what is left of them and of what was there. *)
Lemma wp_report (es : list ec_errort) : forall s, ering_wf (elist s) ->
  wp no_fault (report es)
    (fun _ s' => ering_wf (elist s')
       /\ ering_abs (elist s')
          = newest 64 (ering_abs (elist s) ++ map (fun e => e <| Signal := true |>) es)) s.
Proof.
  induction es as [|e es IH]; intros s Hwf; cbn [report map].
  - apply wp_ret. split; [done|]. rewrite app_nil_r. by rewrite newest_short by by apply ering_abs_small.
  - apply wp_bind. eapply wp_mono; [exact (wp_pusherror e s Hwf)|]. intros _ s1 (Hwf1 & _ & Habs).
    eapply wp_mono; [exact (IH s1 Hwf1)|]. intros _ s2 [Hwf2 ->]. split; [done|].
    rewrite Habs, queue_push_newest by by apply ering_abs_small.
    by rewrite newest_app, <- app_assoc.
Qed.

(** The printer takes the oldest entry, and prints nothing when there is none. *)
Lemma wp_elist2string (s : estate) : ering_wf (elist s) ->
  wp no_fault ecx_elist2string
    (fun line s' => ering_wf (elist s')
       /\ match ering_abs (elist s) with
          | [] => line = ""%string /\ ering_abs (elist s') = [] /\ ecaterror s' = false
          | e :: q => line = ecx_err2string e /\ ering_abs (elist s') = q
          end) s.
Proof.
  intros Hwf. apply wp_bind. eapply wp_mono; [exact (poperror_refines_queue s Hwf)|].
  intros [ok e] s1 [Hwf1 Hpop]. apply wp_ret. split; [done|].
  destruct (ering_abs (elist s)) as [|e0 q]; cbn [fst snd] in *.
  - by destruct Hpop as (-> & ? & ?).
  - by destruct Hpop as ([= -> ->] & ? & ?).
Qed.

Lemma take_app_replicate_S {A} (n : nat) (l : list A) (x : A) :
  take n (l ++ replicate (S n) x) = take n (l ++ replicate n x).
Proof.
  rewrite replicate_S_end, app_assoc. apply take_app_le. rewrite length_app, length_replicate. lia.
Qed.

Lemma wp_print_lines (n : nat) : forall s, ering_wf (elist s) ->
  wp no_fault (print_lines n)
    (fun lines s' =>
       lines = take n (map ecx_err2string (ering_abs (elist s)) ++ replicate n ""%string)
       /\ ((length (ering_abs (elist s)) < n)%nat \/ (ering_abs (elist s) = [] /\ ecaterror s = false) ->
           ecaterror s' = false)) s.
Proof.
  induction n as [|n IH]; intros s Hwf; cbn [print_lines].
  - apply wp_ret. split; [by rewrite take_0|]. intros [?|[_ ?]]; [lia | done].
  - apply wp_bind. eapply wp_mono; [exact (wp_elist2string s Hwf)|].
    intros line s1 [Hwf1 Hline]. apply wp_bind. eapply wp_mono; [exact (IH s1 Hwf1)|].
    intros lines s2 [-> Hflag]. apply wp_ret.
    destruct (ering_abs (elist s)) as [|e q].
    + destruct Hline as (-> & Habs & Herr). rewrite Habs in *. split; [done|].
      intros _. apply Hflag. by right.
    + destruct Hline as [-> Hq]. rewrite Hq in *. cbn [map app take length]. split.
      * f_equal. symmetry. apply take_app_replicate_S.
      * intros [?|[? _]]; [|done]. apply Hflag. left. lia.
Qed.

(** A line of text fits its buffer, and what was reported is all that it depends on. *)
Lemma length_snprintf (n : nat) (s : string) : (0 < n)%nat -> (String.length (snprintf n s) < n)%nat.
Proof.
  intros Hn. unfold snprintf. assert (forall m s, (String.length (substring 0 m s) <= m)%nat) as Hle.
  { induction m as [|m IH]; intros [|c r]; cbn; try lia. specialize (IH r). lia. }
  specialize (Hle (n - 1)%nat s). lia.
Qed.

Lemma length_err2string (Ec : ec_errort) : (String.length (ecx_err2string Ec) < EC_MAXERRORNAME)%nat.
Proof. unfold ecx_err2string. repeat case_match; apply length_snprintf; unfold EC_MAXERRORNAME; lia. Qed.

Lemma err2string_signal (es : list ec_errort) :
  map ecx_err2string (map (fun e => e <| Signal := true |>) es) = map ecx_err2string es.
Proof. rewrite map_map. by apply map_ext. Qed.

Lemma map_newest {A B} (f : A -> B) n (l : list A) : map f (newest n l) = newest n (map f l).
Proof. unfold newest. by rewrite length_map, skipn_map. Qed.

(** C33: What is reported is printed: after any number of reports, [n] calls of
    [ecx_elist2string] return the texts of the newest [EC_MAXELIST] errors, those that were
    waiting before the reports first and oldest first, and then empty texts.  No call goes
    outside the ring, every text fits the buffer of [EC_MAXERRORNAME] characters with its
    end, and the flag of the context is clear once an empty text was returned. *)
Theorem errors_print_in_order (es : list ec_errort) (n : nat) (s : estate) :
  ering_wf (elist s) ->
  wp no_fault (do* report es in print_lines n)
    (fun lines s' =>
       let waiting := newest 64 (map ecx_err2string (ering_abs (elist s) ++ es)) in
       lines = take n (waiting ++ replicate n ""%string)
       /\ Forall (fun line => (String.length line < EC_MAXERRORNAME)%nat) lines
       /\ ((length waiting < n)%nat -> ecaterror s' = false)) s.
Proof.
  intros Hwf. apply wp_bind. eapply wp_mono; [exact (wp_report es s Hwf)|].
  intros _ s1 [Hwf1 Habs]. eapply wp_mono; [exact (wp_print_lines n s1 Hwf1)|].
  intros lines s2 [-> Hflag]. cbn beta zeta.
  assert (map ecx_err2string (ering_abs (elist s1))
          = newest 64 (map ecx_err2string (ering_abs (elist s) ++ es))) as Htexts.
  { by rewrite Habs, map_newest, !map_app, err2string_signal. }
  split_and!.
  - by rewrite Htexts.
  - apply Forall_take, Forall_app. split; [|by apply Forall_replicate; cbn; unfold EC_MAXERRORNAME; lia].
    apply Forall_map, Forall_true. apply length_err2string.
  - rewrite <- Htexts, length_map. intros Hn. apply Hflag. by left.
Qed.

(** Two reports, three calls. *)
Definition two_reports : list ec_errort :=
  [EcError (TimeSpec 3 500000000) false 2 0x6040 0 EC_ERR_TYPE_SDO_ERROR 0 2 6 0 0;
   EcError (TimeSpec 4 0) false 1 0 0 EC_ERR_TYPE_MBX_ERROR 5 0 0 0 0].

Lemma errors_print_in_order_witness :
  ering_wf ering_start
  /\ wp no_fault (do* report two_reports in print_lines 3)
       (fun lines s' =>
          lines = ["Time:       3.500 SDO slave:2 index:6040.00 error:06020000 "
                   ++ "The object does not exist in the object directory" ++ newline;
                   "Time:       4.000 MBX slave:1 error:0005 Invalid mailbox header" ++ newline;
                   ""]%string
          /\ ecaterror s' = false) (EState ering_start false).
Proof.
  split; [exact ering_start_wf|].
  eapply wp_mono; [exact (errors_print_in_order two_reports 3 (EState ering_start false) ering_start_wf)|].
  intros lines s' (-> & _ & Hflag). split; [vm_compute; reflexivity | apply Hflag; vm_compute; lia].
Defined.

(** ** The tables *)

(** Every code of a table but a repeated one has its own text, and any other code the text
    of the sentinel. *)
Lemma error_text_spec (sentinel code : Z) (table : message_table) (unknown : string) :
  sentinel ∉ map fst table -> NoDup (map fst table) ->
  error_text sentinel (table ++ [(sentinel, unknown)]) code
  = Some (default unknown (snd <$> find (fun '(c, _) => c =? code) table)).
Proof.
  induction table as [|[c text] table IH]; intros Hs Hd; cbn.
  - by rewrite Z.eqb_refl.
  - cbn in Hs, Hd. rewrite elem_of_cons in Hs. inversion Hd; subst.
    destruct (Z.eqb_spec c sentinel) as [->|]; [by destruct Hs; left|].
    destruct (Z.eqb_spec c code); cbn; [done|]. apply IH; [naive_solver | done].
Qed.

(** The sentinel of a table is behind codes that occur once; but in that of SoE three
    texts have one code, and the second and third of them are never printed. *)
Lemma tables_have_one_text :
  NoDup (map fst ec_sdoerrorlist) /\ NoDup (map fst ec_ALstatuscodelist) /\ NoDup (map fst ec_mbxerrorlist).
Proof. split_and!; apply (bool_decide_unpack _); vm_compute; exact I. Qed.

Lemma soe_general_error_is_never_printed (code : Z) :
  ec_soeerror2string code <> "General error"%string /\ ec_soeerror2string code <> "No element addressed"%string.
Proof.
  unfold ec_soeerror2string, ec_soeerrorlist. cbn [error_text].
  repeat (match goal with |- context [negb (?a =? 0xffff)] => change (negb (a =? 0xffff)) with true end;
          cbn [andb];
          match goal with |- context [negb (?a =? code)] =>
            destruct (Z.eqb_spec a code); cbn [negb]; [by split|] end; try lia).
  by split.
Qed.
