(* ===== verification/Win32.v ===== *)
(** * The Windows port (osal/win32/osal.c, oshw/win32/nicdrv.c)

    Clock, sleep and raw driver on Windows: the performance counter and the packets of pcap.
    What the text of nicdrv.c has in common with the Linux driver word for word is that of
    Nicdrv.v ([ecx_getindex], [ecx_setbufstat], [ec_setupheader], the branches of
    [ecx_inframe]); the functions with a call of the system or of pcap are here.

    Windows makes a kernel in the sense of Osal.v, and the claim is that the driver of
    Windows is the Linux driver on that kernel.  With it what Nicdrv.v's theorems say holds
    on Windows. *)

From Stdlib Require Import Setoid Morphisms.
From S2P Require Import Prelude Types Osal Nicdrv PortWf NicRecv Sim NicTheorems.

(** ** Computations that run alike *)

Definition same_runs {S A} (m m' : M S A) : Prop := forall s, m s = m' s.
Infix "≐" := same_runs (at level 70).

#[export] Instance same_runs_equiv S A : Equivalence (@same_runs S A).
Proof.
  split; [by intros m s | by intros m m' Hm s | intros m1 m2 m3 H12 H23 s; by rewrite H12].
Qed.

#[export] Instance bind_proper S A B :
  Proper (same_runs ==> pointwise_relation A same_runs ==> same_runs) (@bind S A B).
Proof.
  intros m m' Hm k k' Hk s. unfold bind. rewrite (Hm s). destruct (m' s) as [[a s']|]; [apply Hk | done].
Qed.

#[export] Instance when_proper S b : Proper (same_runs ==> same_runs) (@when S b).
Proof. intros m m' Hm. by destruct b. Qed.

#[export] Instance do_while_proper S A fuel :
  Proper (pointwise_relation A same_runs ==> pointwise_relation A same_runs) (@do_while S A fuel).
Proof.
  intros body body' Hb. induction fuel as [|fuel IH]; intros a; [done|]. cbn [do_while].
  apply bind_proper; [apply Hb|]. intros [[] a']; cbn; [apply IH | done].
Qed.

#[export] Instance kern_proper E A : Proper (same_runs ==> same_runs) (@kern E A).
Proof. intros m m' Hm w. unfold kern, zoom. by rewrite (Hm (kernel w)). Qed.

Lemma wp_same_runs {S A} F (m m' : M S A) Q s : m s = m' s -> wp F m' Q s -> wp F m Q s.
Proof. unfold wp. by intros ->. Qed.

(** ** The system *)

(** A handle of pcap is a number, 0 for a null pointer.  [pcap_next_ex] gives the packet when
    its result is positive.  The frequency of the counter is the same since the start of the
    system. *)
Class Win32 (E : Type) : Type := {
  QueryPerformanceFrequency : Z;
  QueryPerformanceCounter : E -> Z * E;
  timespec_get : E -> ec_timet * E;
  timeBeginPeriod : Z -> E -> E;
  timeEndPeriod : Z -> E -> E;
  SleepEx : Z -> E -> E;
  pcap_open : list Z -> E -> Z * E;
  pcap_sendpacket : Z -> list Z -> E -> Z * E;
  pcap_next_ex : Z -> E -> option (list Z) * E;
  pcap_close : Z -> E -> E;
}.

(** The system with the static variable of osal.c: it is 0 until the frequency is asked for. *)
Record win_system (E : Type) : Type := WinSystem { asked : bool; win : E }.
Arguments WinSystem {E}.
Arguments asked {E}.
Arguments win {E}.

Definition PCAP_ERROR : Z := -1.

Section Windows.
Context {E : Type} `{Win32 E} `{LoopFuel}.
Abbreviation W := (win_system E).
Implicit Types k : win_system E.

Definition sysfrequency k : Z := if asked k then QueryPerformanceFrequency else 0.

Definition in_win {A} (f : E -> A * E) k : A * win_system E :=
  let '(a, e) := f (win k) in (a, k <| win := e |>).
Definition in_win_ (f : E -> E) k : win_system E := k <| win ::= f |>.

(** ** Time *)

(** Seconds and nanoseconds of a value of the counter.  The counter itself, like the seconds
    of [ec_timet], is a number without a bound: its 63 bits last for ages. *)
Definition win_time (wintime frequency : Z) : ec_timet :=
  let sec := Z.quot wintime frequency in
  let rest := wintime - sec * frequency in
  let nsec := u64 (rest * 1000000000) / frequency in
  TimeSpec sec (u32 nsec).

Definition win_get_monotonic_time : M W ec_timet :=
  let* f := gets sysfrequency in
  do* when (f =? 0)
    (do* modify (in_win_ (timeBeginPeriod 1)) in modify (fun k => k <| asked := true |>)) in
  let* wintime := syscall (in_win QueryPerformanceCounter) in
  let* f := gets sysfrequency in
  if f =? 0 then fail DivByZero else ret (win_time wintime f).

Definition win_current_time : M W ec_timet := syscall (in_win timespec_get).

Definition win_timer_start (timeout_usec : Z) : M W ec_timet :=
  let* start_time := win_get_monotonic_time in
  ret (osal_timespecadd start_time (osal_timespec_from_usec (u32 timeout_usec))).

Definition win_timer_is_expired (stop_time : ec_timet) : M W bool :=
  let* current_time := win_get_monotonic_time in
  ret (negb (osal_timespeccmp_lt current_time stop_time)).

(** Whole milliseconds asleep, the rest by looking at the clock. *)
Definition win_monotonic_sleep (ts : ec_timet) : M W Z :=
  let* now := win_get_monotonic_time in
  if negb (osal_timespeccmp_lt now ts) then ret 0 else
  let delay := osal_timespecsub ts now in
  let millis := u64 (tv_sec delay * 1000 + Z.quot (tv_nsec delay) 1000000) in
  do* when (0 <? millis) (modify (in_win_ (SleepEx (u32 millis)))) in
  let* _ := do_while loop_fuel (fun _ : unit =>
      let* now := win_get_monotonic_time in ret (osal_timespeccmp_lt now ts, tt)) tt in
  ret 0.

Definition win_usleep (usec : Z) : M W Z :=
  let* now := win_get_monotonic_time in
  let* _ := win_monotonic_sleep (osal_timespecadd now (osal_timespec_from_usec (u32 usec))) in
  ret 1.

(** ** Set up and close *)

Abbreviation D := (M (world W)).

Definition win_setupnic (ifname : list Z) (secondary : bool) : D Z :=
  let* ready :=
    (if secondary then
       let* r := pget redport in
       match r with
       | Some red =>
           do* pmod (fun p => p <| redstate := ECT_RED_DOUBLE |>
                                <| redport := Some (red <| sock := 0 |> <| rxbufstat ::= ecx_clear_rxbufstat |>) |>) in
           ret true
       | None => ret false
       end
     else
       do* pmod (fun p => p <| lastidx := 0 |> <| redstate := ECT_RED_NONE |>
                            <| stack ::= (fun s => s <| sock := 0 |> <| rxbufstat ::= ecx_clear_rxbufstat |>) |>) in
       ret true) in
  if negb ready then ret 0 else
  let stacknumber := b2z secondary in
  let* psock := kern (syscall (in_win (pcap_open ifname))) in
  let* s := get_stack stacknumber in
  do* put_stack stacknumber (s <| sock := psock |>) in
  if psock =? 0 then ret 0 else
  do* for_range (Z.to_nat EC_MAXBUF) (fun i _ =>
        let* bufs := pget txbuf in
        let* b := oob (zget bufs i) in
        let* b' := oob (ec_setupheader b) in
        let* bufs' := oob (zset bufs i b') in
        do* pmod (fun p => p <| txbuf := bufs' |>) in
        set_rxbufstat 0 i EC_BUF_EMPTY) 0 tt in
  let* b2 := pget txbuf2 in
  let* b2' := oob (ec_setupheader b2) in
  do* pmod (fun p => p <| txbuf2 := b2' |>) in
  ret 1.

(** Both handles are set to null when they are closed. *)
Definition win_closenic : D Z :=
  do* kern (modify (in_win_ (timeEndPeriod 1))) in
  let* s := pget stack in
  do* when (negb (sock s =? 0))
    (do* kern (modify (in_win_ (pcap_close (sock s)))) in
     pmod (fun p => p <| stack ::= (fun s => s <| sock := 0 |>) |>)) in
  let* r := pget redport in
  do* match r with
      | Some red =>
          when (negb (sock red =? 0))
            (do* kern (modify (in_win_ (pcap_close (sock red)))) in
             pmod (fun p => p <| redport := Some (red <| sock := 0 |>) |>))
      | None => ret tt
      end in
  ret 0.

(** ** Transmission *)

Definition win_outframe (idx stacknumber : Z) : D Z :=
  let* s := get_stack stacknumber in
  let* lens := pget txbuflength in
  let* lp := oob (zget lens idx) in
  do* set_rxbufstat stacknumber idx EC_BUF_TX in
  let* bufs := pget txbuf in
  let* b := oob (zget bufs idx) in
  let* frame := oob (zslice b 0 lp) in
  let* rval := kern (syscall (in_win (pcap_sendpacket (sock s) frame))) in
  do* when (rval =? PCAP_ERROR) (set_rxbufstat stacknumber idx EC_BUF_EMPTY) in
  ret rval.

Definition win_outframe_red (idx : Z) : D Z :=
  do* write_txbuf idx ETH_sa1 (htons_bytes RX_PRIM) in
  let* rval := win_outframe idx 0 in
  let* red := pget redstate in
  do* when (negb (red =? ECT_RED_NONE))
    (do* write_txbuf2 (ETH_HEADERSIZE + COM_index) [idx] in
     do* write_txbuf2 ETH_sa1 (htons_bytes RX_SEC) in
     do* set_rxbufstat 1 idx EC_BUF_TX in
     let* s := get_stack 1 in
     let* b := pget txbuf2 in
     let* lp := pget txbuflength2 in
     let* frame := oob (zslice b 0 lp) in
     let* r := kern (syscall (in_win (pcap_sendpacket (sock s) frame))) in
     when (r =? PCAP_ERROR) (set_rxbufstat 1 idx EC_BUF_EMPTY)) in
  ret rval.

(** ** Reception *)

(** One packet of pcap, cut to the temporary buffer. *)
Definition win_recvpkt (stacknumber : Z) : D bool :=
  let* s := get_stack stacknumber in
  let lp := EC_BUFSIZE in
  let* res := kern (syscall (in_win (pcap_next_ex (sock s)))) in
  match res with
  | None => do* pmod (fun p => p <| tempinbufs := 0 |>) in ret false
  | Some pkt_data =>
      let len := zlen pkt_data in
      let bytesrx := if lp <? len then lp else len in
      let* t := oob (zblit (tempbuf s) 0 (take (Z.to_nat bytesrx) pkt_data)) in
      do* put_stack stacknumber (s <| tempbuf := t |>) in
      do* pmod (fun p => p <| tempinbufs := bytesrx |>) in
      ret (0 <? bytesrx)
  end.

Definition win_inframe (idx stacknumber : Z) : D Z :=
  let* s := get_stack stacknumber in
  let* st := (if idx <? EC_MAXBUF then oob (zget (rxbufstat s) idx) else ret EC_BUF_EMPTY) in
  if (idx <? EC_MAXBUF) && (st =? EC_BUF_RCVD) then inframe_rcvd idx stacknumber
  else
    let* s := get_stack stacknumber in
    let* st := (if idx <? EC_MAXBUF then oob (zget (rxbufstat s) idx) else ret EC_BUF_EMPTY) in
    if (idx <? EC_MAXBUF) && (st =? EC_BUF_RCVD) then inframe_rcvd idx stacknumber
    else
      let* got := win_recvpkt stacknumber in
      if negb got then ret EC_NOFRAME else inframe_sort idx stacknumber.

(** Polls without a wait between the rounds. *)
Definition win_waitinframe_poll (idx : Z) (timer : ec_timet) : D (Z * Z) :=
  let* red := pget redstate in
  let wkc2 := if red =? ECT_RED_NONE then 0 else EC_NOFRAME in
  do_while loop_fuel (fun '(wkc, wkc2) =>
      let* wkc := (if wkc <=? EC_NOFRAME then win_inframe idx 0 else ret wkc) in
      let* wkc2 :=
        (if negb (red =? ECT_RED_NONE) && (wkc2 <=? EC_NOFRAME) then win_inframe idx 1 else ret wkc2) in
      if (wkc <=? EC_NOFRAME) || (wkc2 <=? EC_NOFRAME) then
        let* expired := kern (win_timer_is_expired timer) in
        ret (negb expired, (wkc, wkc2))
      else ret (false, (wkc, wkc2))) (EC_NOFRAME, wkc2).

Definition win_waitinframe_resend (idx : Z) (wkc2 : Z) : D Z :=
  let* timer2 := kern (win_timer_start EC_TIMEOUTRET) in
  let* _r := win_outframe idx 1 in
  do_while loop_fuel (fun _ : Z =>
      let* wkc2 := win_inframe idx 1 in
      if wkc2 <=? EC_NOFRAME then
        let* expired := kern (win_timer_is_expired timer2) in
        ret (negb expired, wkc2)
      else ret (false, wkc2)) wkc2.

Definition win_waitinframe_red (idx : Z) (timer : ec_timet) : D Z :=
  let* w := win_waitinframe_poll idx timer in
  let wkc := w.1 in
  let wkc2 := w.2 in
  let* red := pget redstate in
  if red =? ECT_RED_NONE then ret wkc else
  let* s := get_stack 0 in
  let* r := get_stack 1 in
  let* primrx := (if EC_NOFRAME <? wkc then oob (zget (rxsa s) idx) else ret 0) in
  let* secrx := (if EC_NOFRAME <? wkc2 then oob (zget (rxsa r) idx) else ret 0) in
  let* wkc :=
    (if (primrx =? RX_SEC) && (secrx =? RX_PRIM) then
       do* copy_red_to_primary idx in ret wkc2
     else ret wkc) in
  if ((primrx =? 0) && (secrx =? RX_SEC)) || ((primrx =? RX_PRIM) && (secrx =? RX_SEC)) then
    do* when ((primrx =? RX_PRIM) && (secrx =? RX_SEC)) (copy_rx_to_tx idx) in
    let* wkc2 := win_waitinframe_resend idx wkc2 in
    if EC_NOFRAME <? wkc2 then do* copy_red_to_primary idx in ret wkc2
    else ret wkc
  else ret wkc.

Definition win_waitinframe (idx timeout : Z) : D Z :=
  let* timer := kern (win_timer_start timeout) in
  win_waitinframe_red idx timer.

Definition win_srconfirm (idx timeout : Z) : D Z :=
  let* timer1 := kern (win_timer_start timeout) in
  do_while loop_fuel (fun _ : Z =>
      let* _r := win_outframe_red idx in
      let* timer2 :=
        kern (win_timer_start (if timeout <? EC_TIMEOUTRET then timeout else EC_TIMEOUTRET)) in
      let* wkc := win_waitinframe_red idx timer2 in
      if wkc <=? EC_NOFRAME then
        let* expired := kern (win_timer_is_expired timer1) in
        ret (negb expired, wkc)
      else ret (false, wkc)) EC_NOFRAME.

(** ** Windows as a kernel *)

Definition win_clock k : ec_timet * win_system E :=
  let k := if asked k then k else WinSystem true (timeBeginPeriod 1 (win k)) in
  let '(wintime, k) := in_win QueryPerformanceCounter k in
  (win_time wintime QueryPerformanceFrequency, k).

(** The calls the driver of Windows has no use for fail.  No buffer of the driver is smaller
    than a frame. *)
#[export] Instance win_os : OS (win_system E) := {
  os_clock_monotonic := win_clock;
  os_clock_realtime := in_win timespec_get;
  os_nanosleep _ k := (-1, k);
  os_ppoll _ k := (0, k);
  os_send fd frame := in_win (pcap_sendpacket fd frame);
  os_recv fd n k :=
    let '(res, k) := in_win (pcap_next_ex fd) k in
    (Some (match res with Some data => if n <? 60 then [] else take (Z.to_nat n) data | None => [] end), k);
  os_socket k := (-1, k);
  os_nicconf _ _ k := (-1, k);
  os_close fd := in_win_ (pcap_close fd);
}.
End Windows.

(** ** What the code relies on *)

(** A counter with a frequency of at most a gigahertz, whose readings grow ("this time must be
    strictly increasing", osal.h), in any case while other calls run. *)
Definition win_count {E} `{Win32 E} (e : E) : Z := (QueryPerformanceCounter e).1.

Class WinLaws (E : Type) `{Win32 E} : Prop := {
  win_frequency : 0 < QueryPerformanceFrequency (E := E) <= 1000000000;
  win_counter : forall e : E, 0 <= win_count e;
  win_advances : forall e : E, win_count e < win_count (QueryPerformanceCounter e).2;
  win_period : forall n (e : E), win_count (timeBeginPeriod n e) = win_count e;
  win_get : forall e : E, win_count e <= win_count (timespec_get e).2;
  win_sleep : forall n (e : E), win_count e <= win_count (SleepEx n e);
  win_send : forall fd frame (e : E), win_count e <= win_count (pcap_sendpacket fd frame e).2;
  win_next : forall fd (e : E), win_count e <= win_count (pcap_next_ex fd e).2;
}.

(** * The driver is the Linux driver on this kernel *)

Create HintDb alike.

Section Equal.
Context {E : Type} `{Win32 E} `{!WinLaws E} `{LoopFuel}.
Implicit Types (k : win_system E) (w : world (win_system E)).

Lemma frequency_nonzero : (QueryPerformanceFrequency (E := E) =? 0) = false.
Proof. pose proof (win_frequency (E := E)). lia. Qed.

Lemma win_time_runs : win_get_monotonic_time (E := E) ≐ osal_get_monotonic_time.
Proof.
  intros [[] e]; unfold win_get_monotonic_time, osal_get_monotonic_time, syscall, bind, gets, when, modify, ret,
    sysfrequency; cbn; rewrite ?frequency_nonzero; unfold win_clock, in_win; cbn;
    destruct (QueryPerformanceCounter _); cbn; by rewrite frequency_nonzero.
Qed.

Lemma win_timer_start_runs usec : win_timer_start (E := E) usec ≐ osal_timer_start usec.
Proof. unfold win_timer_start, osal_timer_start. by rewrite win_time_runs. Qed.

Lemma win_timer_is_expired_runs t : win_timer_is_expired (E := E) t ≐ osal_timer_is_expired t.
Proof. unfold win_timer_is_expired, osal_timer_is_expired. by rewrite win_time_runs. Qed.

Lemma win_outframe_runs idx n : win_outframe (E := E) idx n ≐ ecx_outframe idx n.
Proof. done. Qed.

Lemma win_outframe_red_runs idx : win_outframe_red (E := E) idx ≐ ecx_outframe_red idx.
Proof. done. Qed.

(** A read of nothing changes nothing. *)
Lemma zblit_nil (l : list Z) : zblit l 0 [] = Some l.
Proof. rewrite zblit_some; [done | done | apply zlen_nonneg]. Qed.

Lemma cut_len (n : Z) (data : list Z) :
  take (Z.to_nat (if n <? zlen data then n else zlen data)) data = take (Z.to_nat n) data.
Proof.
  unfold zlen. destruct (n <? _) eqn:Hn; [done|].
  rewrite Nat2Z.id, take_ge by done. by rewrite take_ge by lia.
Qed.

(** What both do with the stack they look at. *)
Lemma win_recvpkt_runs n : win_recvpkt (E := E) n ≐ ecx_recvpkt n.
Proof.
  intros [p [a e]]. unfold win_recvpkt, ecx_recvpkt, get_stack, put_stack.
  assert (Hlen : forall data : list Z, zlen (take (Z.to_nat EC_BUFSIZE) data)
                   = if EC_BUFSIZE <? zlen data then EC_BUFSIZE else zlen data).
  { intros data. unfold zlen. rewrite length_take. ec_unfold. case_match; lia. }
  cbv [bind pget gets kern zoom syscall pmod modify ret oob of_opt fail in_win]. cbn.
  destruct (n =? 0); cbn; [|destruct (redport p) as [r|] eqn:Hr; cbn; [|done]];
    match goal with |- context [pcap_next_ex ?fd e] =>
      destruct (pcap_next_ex fd e) as [[data|] e'] eqn:Hnext end; unfold in_win; cbn; rewrite Hnext; cbn;
    rewrite ?cut_len, ?take_idemp, ?Hlen, ?take_nil, ?zblit_nil; cbn; try case_match; try done.
  all: destruct p as [[]]; cbn in *; by rewrite ?Hr; try destruct r.
Qed.

(** Two texts that differ in calls that run alike. *)
#[local] Hint Resolve win_recvpkt_runs win_timer_start_runs win_timer_is_expired_runs win_outframe_runs : alike.
Ltac alike :=
  repeat first
    [ match goal with |- ?m ≐ ?m' => constr_eq m m'; reflexivity end
    | solve [auto 1 with alike nocore]
    | apply kern_proper | apply bind_proper; [|intros ?] | apply do_while_proper; intros ?
    | match goal with |- (if ?b then _ else _) ≐ _ => destruct b end ].

Lemma win_inframe_runs idx n : win_inframe (E := E) idx n ≐ ecx_inframe idx n.
Proof. unfold win_inframe, ecx_inframe. alike. Qed.
#[local] Hint Resolve win_inframe_runs : alike.

Lemma bind_bind {S A B C} (m : M S A) (k : A -> M S B) (k' : B -> M S C) :
  bind (bind m k) k' ≐ (let* a := m in bind (k a) k').
Proof. intros s. unfold bind. by destruct (m s) as [[]|]. Qed.

Lemma ret_bind {S A B} (a : A) (k : A -> M S B) : bind (ret a) k ≐ k a.
Proof. done. Qed.

(** The poll of sockets, which Windows has not, answers at once. *)
Lemma ppoll_runs {A B} fds (m m' : M (world (win_system E)) A) (k : A -> M (world (win_system E)) B) :
  (let* poll_err := kern (syscall (os_ppoll fds)) in bind (if 0 <=? poll_err then m else m') k) ≐ bind m k.
Proof. by intros []. Qed.

Lemma win_waitinframe_poll_runs idx t w : red_ready (port w) ->
  win_waitinframe_poll (E := E) idx t w = waitinframe_poll idx t w.
Proof.
  intros (s & _ & Hred). unfold win_waitinframe_poll, waitinframe_poll.
  rewrite (bind_ok (pget redstate) _ w (redstate (port w)) w), (bind_ok (pget redstate) _ w (redstate (port w)) w)
    by done.
  rewrite (bind_ok (pget stack) _ w (stack (port w)) w) by done.
  set (red := redstate (port w)) in *. symmetry.
  assert (exists fds, (if red =? ECT_RED_NONE then ret [sock (stack (port w))]
                       else let* r := get_stack 1 in ret [sock (stack (port w)); sock r]) w = Ok (fds, w)) as [fds Hfds].
  { destruct (Z.eqb_spec red ECT_RED_NONE) as [->|Hne]; [by eexists|].
    destruct (Hred Hne) as [r Hr]. unfold stack_of in Hr. cbn in Hr. eexists.
    unfold get_stack, bind, pget, gets. cbn. by rewrite Hr. }
  rewrite (bind_ok _ _ _ _ _ Hfds). apply do_while_proper. intros [wkc wkc2].
  rewrite ppoll_runs, bind_bind. apply bind_proper.
  { destruct (_ <=? _); [symmetry; apply win_inframe_runs | done]. }
  intros wkc'. rewrite bind_bind. apply bind_proper.
  { destruct (_ && _); [symmetry; apply win_inframe_runs | done]. }
  intros wkc2'. rewrite ret_bind. cbn [fst snd]. destruct (_ || _); [|done].
  apply bind_proper; [|done]. symmetry. apply kern_proper, win_timer_is_expired_runs.
Qed.

Lemma win_waitinframe_resend_runs idx wkc2 :
  win_waitinframe_resend (E := E) idx wkc2 ≐ waitinframe_resend idx wkc2.
Proof.
  unfold win_waitinframe_resend, waitinframe_resend.
  alike.
Qed.

#[local] Hint Resolve win_waitinframe_resend_runs : alike.

Lemma bind_at {S A B} (m m' : M S A) (k k' : A -> M S B) s :
  m s = m' s -> (forall a, k a ≐ k' a) -> bind m k s = bind m' k' s.
Proof. intros Hm Hk. unfold bind. rewrite Hm. destruct (m' s) as [[a s']|]; [apply Hk | done]. Qed.

Lemma win_waitinframe_red_runs idx t w : red_ready (port w) ->
  win_waitinframe_red (E := E) idx t w = ecx_waitinframe_red idx t w.
Proof.
  intros Hred. apply bind_at; [by apply win_waitinframe_poll_runs|]. intros r. alike.
Qed.

Lemma bind_step {S A B} (m m' : M S A) (k k' : A -> M S B) s :
  m s = m' s -> (forall a s', m' s = Ok (a, s') -> k a s' = k' a s') -> bind m k s = bind m' k' s.
Proof. intros Hm Hk. unfold bind. rewrite Hm. destruct (m' s) as [[a s']|] eqn:Hr; [by apply Hk | done]. Qed.

Lemma kern_port {A} (m : M (win_system E) A) w a w' : kern m w = Ok (a, w') -> port w' = port w.
Proof. unfold kern, zoom. destruct (m (kernel w)) as [[]|]; [|done]. by intros [= _ <-]. Qed.

Lemma win_waitinframe_runs idx timeout w : red_ready (port w) ->
  win_waitinframe (E := E) idx timeout w = ecx_waitinframe idx timeout w.
Proof.
  intros Hred. apply bind_step; [apply kern_proper, win_timer_start_runs|].
  intros t w' Hp%kern_port. apply win_waitinframe_red_runs. by rewrite Hp.
Qed.

(** ** After a transmission the redundant port is there when it is in use *)

Lemma wp_any {S A} (m : M S A) (Q : A -> S -> Prop) s : (forall a s', Q a s') -> wp any_fault m Q s.
Proof. intros HQ. unfold wp. by destruct (m s) as [[]|]. Qed.

Lemma wp_set_secondary idx v w :
  wp any_fault (set_rxbufstat 1 idx v) (fun _ w' => red_ready (port w')) w.
Proof.
  unfold set_rxbufstat. apply wp_bind, wp_any. intros s w1. apply wp_bind, wp_any. intros l w2.
  apply wp_pmod. exists (stack (port w2)). split; [by destruct (port w2)|]. intros _. by eexists.
Qed.

Lemma wp_stack_any n Q w : (forall s, Q s w) -> wp any_fault (get_stack n) Q w.
Proof.
  intros HQ. unfold get_stack. destruct (n =? 0); [apply wp_pget, HQ|].
  apply wp_bind, wp_pget, wp_of_opt_any; [done|]. intros s _. apply HQ.
Qed.

Lemma outframe_red_ready idx w r w' : ecx_outframe_red idx w = Ok (r, w') -> red_ready (port w').
Proof.
  apply (wp_run any_fault _ (fun _ w' => red_ready (port w'))). unfold ecx_outframe_red.
  apply wp_bind, wp_any. intros _ w1. apply wp_bind, wp_any. intros r1 w2.
  apply wp_bind, wp_pget, wp_bind, wp_when; intros Hr.
  - do 2 (apply wp_bind, wp_any; intros _ ?). apply wp_bind. eapply wp_mono; [apply wp_set_secondary|].
    intros u w3 Hready. apply wp_bind, wp_stack_any. intros s. apply wp_bind, wp_pget, wp_bind, wp_pget, wp_bind.
    apply wp_of_opt_any; [done|]. intros frame _. apply wp_bind, wp_kern, wp_any. intros sent k.
    apply wp_when; intros _; [|done]. eapply wp_mono; [apply wp_set_secondary | done].
  - exists (stack (port w2)). split; [done|]. intros Hne. destruct Hne. lia.
Qed.

Lemma win_srconfirm_runs idx timeout : win_srconfirm (E := E) idx timeout ≐ ecx_srconfirm idx timeout.
Proof.
  unfold win_srconfirm, ecx_srconfirm. apply bind_proper; [apply kern_proper, win_timer_start_runs|].
  intros timer1. apply do_while_proper. intros _ w. apply bind_step; [apply win_outframe_red_runs|].
  intros r w1 Hready%outframe_red_ready. apply bind_step; [apply kern_proper, win_timer_start_runs|].
  intros timer2 w2 Hp%kern_port. apply bind_at; [apply win_waitinframe_red_runs; by rewrite Hp|].
  intros wkc. destruct (_ <=? _); [|done]. alike.
Qed.
End Equal.

(** * Windows keeps the laws of a kernel *)

Lemma u64_small z : 0 <= z < 2 ^ 64 -> u64 z = z.
Proof. apply Z.mod_small. Qed.

Lemma win_time_ns c f : 0 < f <= 1000000000 -> 0 <= c ->
  ns (win_time c f) = c * 1000000000 / f /\ ts_normal (win_time c f).
Proof.
  intros Hf Hc. unfold ns, ts_normal, win_time. cbn [tv_sec tv_nsec].
  rewrite Z.quot_div_nonneg by lia.
  pose proof (Z.div_mod c f ltac:(lia)) as Hdm. pose proof (Z.mod_pos_bound c f ltac:(lia)) as Hm.
  replace (c - c / f * f) with (c mod f) by lia. rewrite u64_small by lia.
  assert (0 <= c mod f * 1000000000 / f < 1000000000) as Hn
    by (split; [apply Z.div_pos; lia | apply Z.div_lt_upper_bound; nia]).
  rewrite u32_id by lia. split; [|done].
  replace (c * 1000000000) with (c / f * 1000000000 * f + c mod f * 1000000000) by nia.
  by rewrite Z.div_add_l by lia.
Qed.

Lemma win_time_mono c c' f : 0 < f <= 1000000000 ->
  (c <= c' -> c * 1000000000 / f <= c' * 1000000000 / f)
  /\ (c < c' -> c * 1000000000 / f < c' * 1000000000 / f).
Proof.
  intros Hf. split; intros Hc; [apply Z.div_le_mono; lia|].
  assert (c * 1000000000 / f + 1 <= c' * 1000000000 / f); [|lia].
  rewrite <- Z.div_add by lia. apply Z.div_le_mono; lia.
Qed.

Section Laws.
Context {E : Type} `{Win32 E} `{!WinLaws E}.
Implicit Types k : win_system E.
Abbreviation frequency := (QueryPerformanceFrequency (E := E)).

Lemma win_clock_spec k :
  (win_clock k).1 = win_time (win_count (win k)) frequency
  /\ win_count (win k) < win_count (win (win_clock k).2).
Proof.
  pose proof (fun e => win_advances (E := E) e) as Hadv. unfold win_clock, in_win, win_count in *.
  destruct k as [[] e]; cbn.
  - specialize (Hadv e). by destruct (QueryPerformanceCounter e).
  - specialize (Hadv (timeBeginPeriod 1 e)). pose proof (win_period 1 e) as Hp. unfold win_count in Hp.
    destruct (QueryPerformanceCounter (timeBeginPeriod 1 e)). cbn in *. by rewrite <- Hp.
Qed.

Lemma clock_now_win k : clock_now k = win_count (win k) * 1000000000 / frequency.
Proof.
  unfold clock_now. cbn. rewrite (proj1 (win_clock_spec k)).
  apply win_time_ns; [apply win_frequency | apply win_counter].
Qed.

(** The clock of Windows follows its counter. *)
Lemma clock_of_counter k k' : win_count (win k) <= win_count (win k') -> clock_now k <= clock_now k'.
Proof. intros Hk. rewrite !clock_now_win. by apply win_time_mono; [apply win_frequency|]. Qed.

#[export] Instance win_clock_laws : ClockLaws (win_system E).
Proof.
  split; intros.
  - cbn. rewrite (proj1 (win_clock_spec e)). apply win_time_ns; [apply win_frequency | apply win_counter].
  - rewrite !clock_now_win. apply win_time_mono; [apply win_frequency|]. apply win_clock_spec.
  - apply clock_of_counter. cbn. unfold in_win. pose proof (win_get (win e)). by destruct (timespec_get _).
  - done.
  - apply clock_of_counter. cbn. unfold in_win. pose proof (win_send fd bs (win e)).
    by destruct (pcap_sendpacket _ _ _).
  - apply clock_of_counter. cbn. unfold in_win. pose proof (win_next fd (win e)). by destruct (pcap_next_ex _ _).
  - done.
Qed.
End Laws.

(** What pcap gives is a frame of a network: at least 60 bytes, and an EtherCAT length that
    does not point outside the receive buffer. *)
Class WinNetLaws (E : Type) `{Win32 E} : Prop :=
  win_packet : forall fd (e : E) data, (pcap_next_ex fd e).1 = Some data ->
    60 <= zlen data /\ bytes_ok data /\ (packet_etype data = ETH_P_ECAT -> packet_length data <= EC_BUFSIZE - 2).

Lemma byte_at_take (n : nat) (data : list Z) i : i < Z.of_nat n -> byte_at (take n data) i = byte_at data i.
Proof.
  intros Hi. unfold byte_at, zget. destruct (i <? 0) eqn:Hneg; [done|]. by rewrite lookup_take_lt by lia.
Qed.

#[export] Instance win_net_laws {E} `{Win32 E} `{!WinNetLaws E} : NetLaws (win_system E).
Proof.
  intros fd n k bs. cbn. unfold in_win. pose proof (win_packet fd (win k)) as Hpacket.
  destruct (pcap_next_ex fd (win k)) as [[data|] e]; cbn in *; intros [= <-]; [|by left].
  destruct (n <? 60) eqn:Hn; [by left|]. right. destruct (Hpacket data eq_refl) as (Hlen & Hbytes & Hfit).
  split.
  - unfold zlen in *. rewrite length_take. lia.
  - by apply Forall_take.
  - unfold packet_etype, packet_length in *. ec_unfold. rewrite !byte_at_take by lia. exact Hfit.
Qed.

Section Claims.
Context {E : Type} `{Win32 E} `{!WinLaws E} `{LoopFuel}.
Implicit Types (k : win_system E) (w : world (win_system E)).

(** ** Sleep *)

(** A reading of the clock. *)
Lemma wp_win_now k (Q : ec_timet -> win_system E -> Prop) :
  (forall t k', ns t = clock_now k -> ts_normal t -> clock_now k < clock_now k' -> Q t k') ->
  wp no_fault win_get_monotonic_time Q k.
Proof.
  intros HQ. eapply wp_same_runs; [apply win_time_runs|]. apply wp_syscall.
  apply HQ; [done | apply clock_normal | apply clock_advances].
Qed.

Lemma wp_win_sleep ts k (Q : Z -> win_system E -> Prop) :
  ts_normal ts -> ns ts - clock_now k < Z.of_nat loop_fuel ->
  (forall k', clock_now k <= clock_now k' -> ns ts <= clock_now k' -> Q 0 k') ->
  wp no_fault (win_monotonic_sleep ts) Q k.
Proof.
  intros Hts Hfuel HQ. unfold win_monotonic_sleep. apply wp_bind, wp_win_now. intros now k1 Hnow Hn1 Hc1.
  rewrite timespeccmp_lt_ns by done. destruct (ns now <? ns ts) eqn:Hlt; cbn [negb]; [|apply wp_ret, HQ; lia].
  apply wp_bind. eapply wp_mono with (Q := fun _ k' => clock_now k1 <= clock_now k').
  { apply wp_when; intros _; [|done]. apply wp_modify, clock_of_counter, win_sleep. }
  intros _ k2 Hc2. apply wp_bind.
  eapply (wp_do_while _ (fun _ k' => clock_now k1 <= clock_now k') (fun _ k' => Z.to_nat (ns ts - clock_now k')));
    [| exact Hc2 | lia].
  intros [] k3 Hc3. apply wp_bind, wp_win_now. intros now3 k4 Hnow3 Hn3 Hc4. apply wp_ret.
  rewrite timespeccmp_lt_ns by done. destruct (ns now3 <? ns ts) eqn:Hlt3; cbn [fst snd]; [lia|].
  apply wp_ret, HQ; lia.
Qed.

(** Sleep on Windows ends, with result 1, and not before the time that was asked for has passed. *)
Theorem win_usleep_lasts (usec : Z) k :
  u32 usec * 1000 < Z.of_nat loop_fuel ->
  wp no_fault (win_usleep usec) (fun r k' => r = 1 /\ clock_now k + u32 usec * 1000 <= clock_now k') k.
Proof.
  intros Hfuel. apply wp_bind, wp_win_now. intros now k1 Hnow Hn Hc.
  destruct (timespec_from_usec_ns (u32 usec)) as [Hu Hun].
  destruct (timespecadd_ns now (osal_timespec_from_usec (u32 usec)) Hn Hun) as [Hs Hsn].
  apply wp_bind, wp_win_sleep; [done | lia|]. intros k2 Hc2 Hlate. apply wp_ret. split; [done | lia].
Qed.

(** ** The driver *)

(** C19: The driver of Windows is the Linux driver on the kernel that Windows and pcap make:
    sending, receiving, waiting with its redundancy and the blocking exchange give in every
    state the same result, the same port and the same system, or the same fault; waiting for
    a port whose redundant half is there when it is in use.  That kernel keeps the laws the
    theorems on the Linux driver ask for, so they hold on Windows. *)
Theorem win_driver_is_linux_driver (idx : Z) :
  (forall n, win_outframe (E := E) idx n ≐ ecx_outframe idx n)
  /\ win_outframe_red (E := E) idx ≐ ecx_outframe_red idx
  /\ (forall n, win_inframe (E := E) idx n ≐ ecx_inframe idx n)
  /\ (forall timeout w, red_ready (port w) -> win_waitinframe idx timeout w = ecx_waitinframe idx timeout w)
  /\ (forall timeout, win_srconfirm (E := E) idx timeout ≐ ecx_srconfirm idx timeout)
  /\ ClockLaws (win_system E).
Proof.
  split_and!; [exact (win_outframe_runs idx) | apply win_outframe_red_runs | exact (win_inframe_runs idx)
    | intros timeout w; apply win_waitinframe_runs | apply win_srconfirm_runs | apply win_clock_laws].
Qed.

(** The blocking exchange on Windows comes back within its time, whatever the network does. *)
Theorem win_srconfirm_comes_back `{!WinNetLaws E} w (idx timeout : Z) :
  port_wf (port w) -> buf_index idx -> built idx (port w) -> 0 <= timeout -> fuel_for (u32 timeout * 1000) ->
  wp no_fault (win_srconfirm idx timeout)
    (fun rc w' => rc_range rc /\ port_wf (port w') /\ port_evolves idx (port w) (port w')) w.
Proof.
  intros Hp Hi Hb Hto Hf. eapply wp_same_runs; [apply win_srconfirm_runs|].
  eapply (wp_srconfirm no_fault idx timeout (port w) (clock_now (kernel w))); [ | done.. |].
  - split_and!; [done | apply port_evolves_refl | lia].
  - intros rc w' Hrc (Hp' & He & _). done.
Qed.
End Claims.

(** ** A simulated Windows *)

(** A counter of ten megahertz, and a network that answers every packet with one packet. *)
Record win_sim : Type := WinSim { ticks : Z; wire : list (list Z); answer_to : list Z -> list Z }.

Definition is_packet (data : list Z) : bool :=
  (60 <=? zlen data) && forallb (fun b => (0 <=? b) && (b <? 256)) data
  && (packet_length data <=? EC_BUFSIZE - 2).
Definition win_sim_next (e : win_sim) : option (list Z) * win_sim :=
  match wire e with
  | [] => (None, e)
  | data :: rest => (if is_packet data then Some data else None, e <| wire := rest |>)
  end.

#[export] Instance win_sim_win32 : Win32 win_sim := {
  QueryPerformanceFrequency := 10000000;
  QueryPerformanceCounter e := (Z.abs (ticks e), e <| ticks := Z.abs (ticks e) + 1 |>);
  timespec_get e := (TimeSpec 0 0, e);
  timeBeginPeriod _ e := e;
  timeEndPeriod _ e := e;
  SleepEx ms e := e <| ticks := Z.abs (ticks e) + Z.max 0 ms * 10000 |>;
  pcap_open _ e := (1, e);
  pcap_sendpacket _ frame e := (0, e <| wire ::= (fun l => l ++ [answer_to e frame]) |>);
  pcap_next_ex _ e := win_sim_next e;
  pcap_close _ e := e;
}.

#[export] Instance win_sim_laws : WinLaws win_sim.
Proof.
  split; unfold win_count; cbn; intros; try lia. unfold win_sim_next. case_match; cbn; lia.
Qed.

#[export] Instance win_sim_net : WinNetLaws win_sim.
Proof.
  intros fd e data. cbn. unfold win_sim_next. destruct (wire e) as [|d rest]; [done|].
  destruct (is_packet d) eqn:Hd; [|done]. cbn. intros [= <-]. unfold is_packet in Hd.
  rewrite !andb_true_iff in Hd. destruct Hd as ((Hlen & Hbytes) & Hfit). split_and!; [lia | | lia].
  rewrite Forall_forall. intros b Hb. apply forallb_forall with (x := b) in Hbytes; [unfold is_byte; lia | done].
Qed.

(** ** Witnesses *)

(** A port with frame 1 built, and a network whose answer to it has work counter 5. *)
Definition win_start : world (win_system win_sim) :=
  World port12 (WinSystem false (WinSim 123456789 [] (fun _ => answer 1 5))).

Definition win_fuel : LoopFuel := 200%nat.

Lemma win_driver_is_linux_driver_witness :
  red_ready (port win_start)
  /\ win_waitinframe (H0 := win_fuel) 2 1 win_start = ecx_waitinframe (H0 := win_fuel) 2 1 win_start
  /\ win_srconfirm (H0 := win_fuel) 1 2000 win_start = ecx_srconfirm (H0 := win_fuel) 1 2000 win_start
  /\ match win_srconfirm (H0 := win_fuel) 1 2000 win_start with
     | Ok (wkc, w) => wkc = 5 /\ asked (kernel w) = true /\ bufstat (stack (port w)) 1 = Some EC_BUF_COMPLETE
     | Err _ => False
     end.
Proof.
  assert (Hr : red_ready (port win_start)) by (exists (stack port12); split; [done | intros Hne; by destruct Hne]).
  destruct (win_driver_is_linux_driver (E := win_sim) (H0 := win_fuel) 2) as (_ & _ & _ & Hwait & _).
  destruct (win_driver_is_linux_driver (E := win_sim) (H0 := win_fuel) 1) as (_ & _ & _ & _ & Hconfirm & _).
  split; [exact Hr|]. split; [exact (Hwait 1 win_start Hr)|]. split; [exact (Hconfirm 2000 win_start)|].
  vm_compute. split_and!; reflexivity.
Defined.

Lemma win_usleep_lasts_witness :
  match win_usleep (H0 := 2000%nat) 1 (kernel win_start) with
  | Ok (r, k) => r = 1 /\ clock_now (kernel win_start) + 1000 <= clock_now k
  | Err _ => False
  end.
Proof.
  pose proof (win_usleep_lasts (E := win_sim) (H0 := 2000%nat) 1 (kernel win_start)) as Hl.
  unfold wp, no_fault in Hl. destruct (win_usleep _ _) as [[r k]|]; apply Hl; vm_compute; reflexivity.
Defined.
