(* ===== verification/Gui.v ===== *)
(** * The diagnostics window (apps/ethercat_gui/ethercat_gui.c)

    What the graphical client does apart from drawing: the numbers of its fields, the commands
    of its buttons, the thread that repeats a motion, its log, the values of its motion tab and
    the list of objects.  A call of the library in the system of threads is an event with its
    answer; the window thread and the threads that repeat a motion take their
    steps in any order.  One step is one access to a flag they share, or one call.

    The claims are on the stop button: a repeated motion that is stopped makes one more call at
    most and ends; the schedules in which that call comes after the stop, and in which a stop
    is lost, are exhibited.  The lists are complete, and the motion tab shows what the
    real-time thread reports. *)

From Stdlib Require Import String ZifyBool.
From S2P Require Import Prelude Types Num Cia402 Profile Osal Backend Wire Server Client Servo Dll Print RtCycle.
From S2P Require Import WireTheorems CommandTheorems.
Import stdpp.list_relations.list stdpp.list_basics.list.

(** ** Fields *)

(** A field shows at most 63 characters of its text; a [long] has 32 bits, and a number that
    does not fit is cut to it. *)
Definition get_edit_i32 (text : list Z) (fallback : Z) : Z :=
  match strto (take 63 text) with
  | Some (neg, v, _) => Z.max INT32_MIN (Z.min INT32_MAX (if neg then - v else v))
  | None => fallback
  end.
Definition get_edit_u32 (text : list Z) (fallback : Z) : Z :=
  let value := get_edit_i32 text (s32 fallback) in if 0 <? value then value else fallback.

(** The fields of the motion tab, and the slave that is selected in the list. *)
Record motion_form : Type := MotionForm {
  motion_slave : list Z;
  motion_target : list Z;
  motion_position2 : list Z;
  motion_velocity : list Z;
  motion_accel : list Z;
  motion_decel : list Z;
  motion_home_method : list Z;
  motion_delay : list Z;
  motion_profile : Z;
  motion_check_inpos : bool;
  selected_slave : Z;
}.

Definition get_motion_slave (form : motion_form) : Z :=
  let slave := get_edit_i32 (motion_slave form) (selected_slave form) in
  if slave <=? 0 then if 0 <? selected_slave form then selected_slave form else 1 else slave.

Definition get_motion_profile_type (form : motion_form) : Z :=
  let selected := motion_profile form in
  if selected =? 0 then CIA402_PROFILE_LMS
  else if selected =? 2 then CIA402_PROFILE_SCURVE
  else if selected =? 3 then CIA402_PROFILE_JERK_RATIO
  else CIA402_PROFILE_TRAPEZOIDAL.

(** In hundredths. *)
Definition get_motion_profile_jerk_ratio (profile_type : Z) : Z :=
  if profile_type =? CIA402_PROFILE_LMS then 35
  else if profile_type =? CIA402_PROFILE_SCURVE then 100
  else if profile_type =? CIA402_PROFILE_JERK_RATIO then 75
  else 0.

(** [abs] of an [int]. *)
Definition abs_int (value : Z) : Z := s32 (Z.abs value).

(** ** Commands *)

Inductive library_call : Type :=
| SetMotionProfile (profile_type jerk_ratio : Z)
| ServoFaultReset (slave : Z)
| ServoEnable (slave : Z)
| ServoDisable (slave : Z)
| ServoStop (slave : Z)
| ServoJog (slave velocity acceleration deceleration : Z)
| ServoMoveAbs (slave position velocity acceleration deceleration : Z)
| ServoMoveRel (slave distance velocity acceleration deceleration : Z)
| ServoHome (slave homing_method search_speed latch_speed acceleration : Z).

#[export] Instance library_call_eq_dec : EqDecision library_call.
Proof. solve_decision. Defined.

Inductive button : Type :=
| IDC_MOTION_FAULT_RESET | IDC_MOTION_ENABLE | IDC_MOTION_DISABLE | IDC_MOTION_STOP | IDC_MOTION_JOG_POS
| IDC_MOTION_JOG_NEG | IDC_MOTION_MOVE_ABS | IDC_MOTION_MOVE_ABS2 | IDC_MOTION_MOVE_REL | IDC_MOTION_HOME.

Definition apply_motion_profile_setting (form : motion_form) : library_call :=
  let profile_type := get_motion_profile_type form in
  SetMotionProfile profile_type (get_motion_profile_jerk_ratio profile_type).

(** The call of a button, after the profile is set. *)
Definition motion_call (control : button) (form : motion_form) : library_call :=
  let slave := get_motion_slave form in
  let target := get_edit_i32 (motion_target form) 0 in
  let target2 := get_edit_i32 (motion_position2 form) 0 in
  let velocity := get_edit_i32 (motion_velocity form) 0 in
  let accel := get_edit_u32 (motion_accel form) 0 in
  let decel := get_edit_u32 (motion_decel form) 0 in
  let home_method := get_edit_i32 (motion_home_method form) 35 in
  match control with
  | IDC_MOTION_FAULT_RESET => ServoFaultReset slave
  | IDC_MOTION_ENABLE => ServoEnable slave
  | IDC_MOTION_DISABLE => ServoDisable slave
  | IDC_MOTION_STOP => ServoStop slave
  | IDC_MOTION_JOG_POS => ServoJog slave (if velocity <? 0 then s32 (- velocity) else velocity) accel decel
  | IDC_MOTION_JOG_NEG => ServoJog slave (if 0 <? velocity then - velocity else velocity) accel decel
  | IDC_MOTION_MOVE_ABS => ServoMoveAbs slave target (u32 (abs_int velocity)) accel decel
  | IDC_MOTION_MOVE_ABS2 => ServoMoveAbs slave target2 (u32 (abs_int velocity)) accel decel
  | IDC_MOTION_MOVE_REL => ServoMoveRel slave target (u32 (abs_int velocity)) accel decel
  | IDC_MOTION_HOME => ServoHome slave (s8 home_method) (u32 (abs_int velocity)) 0 accel
  end.

(** ** Repeated motion *)

Record MotionRepeatArgs : Type := RepeatArgs {
  r_slave : Z;
  r_position1 : Z;
  r_position2 : Z;
  r_velocity : Z;
  r_acceleration : Z;
  r_deceleration : Z;
  r_delay_ms : Z;
  r_check_inpos : bool;
}.

Definition repeat_args (form : motion_form) : MotionRepeatArgs :=
  let delay_ms := get_edit_i32 (motion_delay form) 0 in
  RepeatArgs (get_motion_slave form) (get_edit_i32 (motion_target form) 0)
    (get_edit_i32 (motion_position2 form) 0) (u32 (abs_int (get_edit_i32 (motion_velocity form) 0)))
    (get_edit_u32 (motion_accel form) 0) (get_edit_u32 (motion_decel form) 0)
    (if delay_ms <? 0 then 0 else delay_ms) (motion_check_inpos form).

(** What a call of the library, or of the system, brings back: its result, and for the status
    of the servo what it filled in. *)
Record gui_answer : Type := Answer { a_result : Z; a_position : Z; a_reached : bool }.

(** Where a thread is: before a test of the stop flag, before a call, or at its end.  [second]
    says which of the two positions it is at. *)
Inductive repeat_pc : Type :=
| R_test
| R_move (second : bool)
| R_wait (second : bool) (elapsed : Z)
| R_status (second : bool) (elapsed : Z)
| R_sleep (second : bool) (elapsed : Z)
| R_between
| R_running
| R_stop
| R_done.

Definition target_of (a : MotionRepeatArgs) (second : bool) : Z :=
  if second then r_position2 a else r_position1 a.

(** wait_repeat_in_position: the target is reached, or ten counts away at most. *)
Definition in_position (r : gui_answer) (target_position : Z) : bool :=
  (a_result r =? ECAT_OK) && (a_reached r || (abs_int (s32 (a_position r - target_position)) <=? 10)).

(** A step of repeat_thread_proc: its next place, and the motion it commands. *)
Definition repeat_step (a : MotionRepeatArgs) (pc : repeat_pc) (repeat_stop : bool) (r : gui_answer) :
    repeat_pc * option library_call :=
  match pc with
  | R_test => (if repeat_stop then R_running else R_move false, None)
  | R_move second =>
      (if negb (a_result r =? ECAT_OK) then R_running
       else if r_check_inpos a then R_wait second 0 else R_sleep second 0,
       Some (ServoMoveAbs (r_slave a) (target_of a second) (r_velocity a) (r_acceleration a) (r_deceleration a)))
  | R_wait second elapsed =>
      (if (elapsed <? 30000) && negb repeat_stop then R_status second elapsed else R_sleep second 0, None)
  | R_status second elapsed =>
      (if in_position r (target_of a second) then R_sleep second 0 else R_wait second (elapsed + 50), None)
  | R_sleep second elapsed =>
      (if (elapsed <? r_delay_ms a) && negb repeat_stop
       then let step := r_delay_ms a - elapsed in
            R_sleep second (elapsed + (if 50 <? step then 50 else step))
       else if second then R_test else R_between, None)
  | R_between => (if repeat_stop then R_running else R_move true, None)
  | R_running => (R_stop, None)
  | R_stop | R_done => (R_done, None)
  end.

(** ** The window and its threads *)

(** What the window thread is in the middle of. *)
Inductive window_pc : Type :=
| W_idle
| W_profile (profile : library_call) (k : button * library_call + MotionRepeatArgs)
| W_set_stop (c : library_call)
| W_call (c : library_call)
| W_alloc (a : MotionRepeatArgs)
| W_clear_stop (a : MotionRepeatArgs)
| W_create (a : MotionRepeatArgs).

(** [calls] are the calls for motions, in the order in which they are made: [None] is the
    window thread, [Some i] the thread number [i]. *)
Record gui : Type := Gui {
  repeat_stop : bool;
  repeat_running : bool;
  workers : list (MotionRepeatArgs * repeat_pc);
  window : window_pc;
  calls : list (option nat * library_call);
}.
Definition gui_init : gui := Gui false false [] W_idle [].

Inductive gui_label : Type :=
| Press (control : button) (form : motion_form) (is_open : bool)
| PressRepeat (form : motion_form) (is_open : bool)
| Window (r : gui_answer)
| Worker (i : nat) (r : gui_answer).

(** request_motion_command and start_repeat_motion, from a press of their button on. *)
Definition press (control : button) (form : motion_form) (is_open : bool) (g : gui) : gui :=
  if negb is_open then g
  else g <| window := W_profile (apply_motion_profile_setting form) (inl (control, motion_call control form)) |>.
Definition start_repeat_motion (form : motion_form) (is_open : bool) (g : gui) : gui :=
  if negb is_open || repeat_running g then g
  else g <| repeat_running := true |>
         <| window := W_profile (apply_motion_profile_setting form) (inr (repeat_args form)) |>.

Definition window_step (r : gui_answer) (g : gui) : gui :=
  let ok := a_result r =? ECAT_OK in
  let call c := g <| calls ::= (fun l => l ++ [(None, c)]) |> in
  match window g with
  | W_idle => g
  | W_profile profile (inl (control, c)) =>
      (call profile) <| window := if negb ok then W_idle
                                else match control with IDC_MOTION_STOP => W_set_stop c | _ => W_call c end |>
  | W_profile profile (inr a) =>
      if negb ok then (call profile) <| repeat_running := false |> <| window := W_idle |>
      else (call profile) <| window := W_alloc a |>
  | W_set_stop c => g <| repeat_stop := true |> <| window := W_call c |>
  | W_call c => (call c) <| window := W_idle |>
  | W_alloc a =>
      if negb ok then g <| repeat_running := false |> <| window := W_idle |>
      else g <| window := W_clear_stop a |>
  | W_clear_stop a => g <| repeat_stop := false |> <| window := W_create a |>
  | W_create a =>
      if negb ok then g <| repeat_running := false |> <| window := W_idle |>
      else g <| workers ::= (fun l => l ++ [(a, R_test)]) |> <| window := W_idle |>
  end.

Definition worker_step (i : nat) (r : gui_answer) (g : gui) : gui :=
  match workers g !! i with
  | None => g
  | Some (a, pc) =>
      let '(pc', c) := repeat_step a pc (repeat_stop g) r in
      g <| workers ::= (fun l => <[i := (a, pc')]> l) |>
        <| repeat_running := match pc with R_running => false | _ => repeat_running g end |>
        <| repeat_stop := match pc with R_stop => false | _ => repeat_stop g end |>
        <| calls ::= (fun l => match c with Some c => l ++ [(Some i, c)] | None => l end) |>
  end.

(** A button is pressed when the window thread is not busy. *)
Definition gui_step (g : gui) (l : gui_label) : gui :=
  match l with
  | Press control form is_open => match window g with W_idle => press control form is_open g | _ => g end
  | PressRepeat form is_open => match window g with W_idle => start_repeat_motion form is_open g | _ => g end
  | Window r => window_step r g
  | Worker i r => worker_step i r g
  end.
Definition gui_run (g : gui) (ls : list gui_label) : gui := fold_left gui_step ls g.

(** ** The log *)

Definition MAX_GUI_LOG : Z := 65536.
Definition LOG_LINE : Z := 1024.

(** The text of the log without its end; [time] is the local time as text. *)
Definition append_log_line (time level message : list Z) : M (list Z) unit :=
  let text := time ++ text_bytes " [" ++ level ++ text_bytes "] " ++ message ++ [13; 10] in
  let written := zlen text in
  let line := take (Z.to_nat (LOG_LINE - 1)) text ++ [0] in
  let* log := gets id in
  let keep := MAX_GUI_LOG / 2 in
  let* log :=
    if MAX_GUI_LOG <=? zlen log + written then of_opt OutOfBounds (zslice log (zlen log - keep) keep) else ret log in
  let* bytes := of_opt OutOfBounds (zslice line 0 written) in
  modify (fun _ => log ++ bytes).

(** ** The text of an object *)

Definition upper_digit (d : Z) : Z := if d <? 10 then 48 + d else 55 + d.
(** [%0nX] for a number that has no more digits, and the least number of digits. *)
Fixpoint upper_hex (digits : nat) (v : Z) : list Z :=
  match digits with
  | O => []
  | S digits => upper_hex digits (v / 16) ++ [upper_digit (v mod 16)]
  end.

(** Rows of sixteen bytes, and what of them is a character. *)
Definition dump_row (offset : Z) (row : list Z) : list Z :=
  let pad {A} (x : A) (l : list A) := l ++ replicate (16 - length l) x in
  upper_hex 4 offset ++ text_bytes "  "
  ++ concat (pad (text_bytes "   ") (map (fun b => upper_hex 2 b ++ [32]) row))
  ++ text_bytes " |" ++ pad 32 (map (fun b => if (32 <=? b) && (b <=? 126) then b else 46) row)
  ++ text_bytes "|" ++ [13; 10].
Fixpoint dump_rows (fuel : nat) (dst_size offset : Z) (data dst : list Z) : list Z :=
  match fuel, data with
  | S fuel, _ :: _ =>
      if zlen dst + 90 <? dst_size
      then dump_rows fuel dst_size (offset + 16) (drop 16 data) (dst ++ dump_row offset (take 16 data))
      else dst
  | _, _ => dst
  end.
Definition hex_dump (dst_size : Z) (data : list Z) : list Z :=
  match data with
  | [] => text_bytes "(no mapped bytes)" ++ [13; 10]
  | _ => dump_rows (length data) dst_size 0 data []
  end.

Definition int_text (v : Z) : list Z := text_bytes ((if v <? 0 then "-" else "") ++ dec (Z.abs v)).
Definition long_hex (digits : nat) (v : Z) : list Z := upper_hex (Nat.max digits (Z.to_nat (Z.log2 v / 4 + 1))) v.

(** request_sdo_read: the size of the request, and the text of its answer, which goes to the
    window and to the log. *)
Definition sdo_size (size : Z) : Z := if (size <=? 0) || (256 <? size) then 64 else size.
Definition sdo_text (slave index subindex result : Z) (data : list Z) : list Z :=
  text_bytes "SDO read slave=" ++ int_text slave ++ text_bytes " index=0x" ++ long_hex 4 index
  ++ text_bytes " sub=0x" ++ long_hex 2 subindex ++ [13; 10]
  ++ text_bytes "Result: " ++ text_bytes (if result =? ECAT_OK then "OK" else ECAT_ErrorToString result)
  ++ text_bytes " (" ++ int_text result ++ text_bytes ")" ++ [13; 10]
  ++ text_bytes "Data length: " ++ int_text (zlen data) ++ [13; 10; 13; 10] ++ hex_dump 2048 data.

(** ** The slaves *)

Definition GUI_MAX_SLAVES : Z := 64.

Definition dll_log_callback (level : Z) : string :=
  if 3 <=? level then "ERROR" else if level =? 2 then "WARN" else "INFO".

(** A slot without information is not valid; the sizes are the lengths. *)
Record GuiSlaveSnapshot : Type := GuiSlave {
  g_info : slave_snapshot;
  g_outputs : list Z;
  g_inputs : list Z;
}.
Record GuiSnapshot : Type := Snapshot {
  g_is_open : bool;
  g_slave_count : Z;
  g_slaves : list (option GuiSlaveSnapshot);
}.

(** What ECAT_GetSlaveInfo and ECAT_GetPdoSnapshot bring back for a slave are arguments. *)
Definition collect_gui_snapshot (is_open : bool) (slave_count : Z) (get_info : Z -> option slave_snapshot)
    (get_pdo : Z -> list Z * list Z) : GuiSnapshot :=
  let slot i := s ← get_info i; Some (GuiSlave s (get_pdo i).1 (get_pdo i).2) in
  Snapshot is_open slave_count (map slot (seqZ 1 (Z.min slave_count GUI_MAX_SLAVES))).

Definition snapshot_find_slave (snapshot : GuiSnapshot) (slave_index : Z) : option GuiSlaveSnapshot :=
  if slave_index <=? 0 then None
  else
    let count := Z.min (g_slave_count snapshot) GUI_MAX_SLAVES in
    x ← List.find (fun x => match x with Some s => sn_index (g_info s) =? slave_index | None => false end)
          (take (Z.to_nat count) (g_slaves snapshot));
    x.

(** The values of the motion tab, from the bytes of the process data. *)
Record motion_values : Type := MotionValues {
  v_statusword : Z;
  v_controlword : Z;
  v_mode_display : Z;
  v_actual_position : Z;
  v_actual_velocity : Z;
  v_command_position : Z;
  v_command_velocity : Z;
}.
Definition gui_read_u16_le (data : list Z) : Z := of_le (take 2 data).
Definition gui_read_i32_le (data : list Z) : Z := s32 (of_le (take 4 data)).
Definition field_at (need : Z) (offset : nat) (read : list Z -> Z) (data : list Z) : Z :=
  if need <=? zlen data then read (drop offset data) else 0.
Definition format_motion_status (snapshot : GuiSnapshot) (slave : Z) : option motion_values :=
  if negb (g_is_open snapshot) then None
  else
    s ← snapshot_find_slave snapshot slave;
    Some (MotionValues (field_at 2 0 gui_read_u16_le (g_inputs s)) (field_at 2 0 gui_read_u16_le (g_outputs s))
            (field_at 11 10 (fun data => s8 (of_le (take 1 data))) (g_inputs s))
            (field_at 6 2 gui_read_i32_le (g_inputs s)) (field_at 10 6 gui_read_i32_le (g_inputs s))
            (field_at 6 2 gui_read_i32_le (g_outputs s)) (field_at 10 6 gui_read_i32_le (g_outputs s))).

(** ** The list of objects *)

Definition GUI_MAX_COE_ENTRIES : Z := 256.

Record CoeObjectDef : Type := CoeObject {
  d_index : Z;
  d_subindex : Z;
  d_size : Z;
  d_name : string;
  d_flags : string;
  d_signed_value : bool;
}.

Definition G_coe_objects : list CoeObjectDef :=
  [CoeObject 0x1000 0x00 4 "Device type" "RO" false;
   CoeObject 0x1001 0x00 1 "Error register" "RO" false;
   CoeObject 0x1008 0x00 64 "Device name" "RO" false;
   CoeObject 0x1009 0x00 64 "Manufacturer hardware version" "RO" false;
   CoeObject 0x100a 0x00 64 "Manufacturer software version" "RO" false;
   CoeObject 0x1018 0x00 1 "Identity object: entries" "RO" false;
   CoeObject 0x1018 0x01 4 "Vendor ID" "RO" false;
   CoeObject 0x1018 0x02 4 "Product code" "RO" false;
   CoeObject 0x1018 0x03 4 "Revision" "RO" false;
   CoeObject 0x1018 0x04 4 "Serial number" "RO" false;
   CoeObject 0x1600 0x00 1 "RxPDO mapping CSP/CSV: entries" "RO" false;
   CoeObject 0x1600 0x01 4 "RxPDO 1: Controlword" "RO" false;
   CoeObject 0x1600 0x02 4 "RxPDO 2: Target position" "RO" false;
   CoeObject 0x1600 0x03 4 "RxPDO 3: Target velocity" "RO" false;
   CoeObject 0x1600 0x04 4 "RxPDO 4: Modes of operation" "RO" false;
   CoeObject 0x1600 0x05 4 "RxPDO 5: Gap" "RO" false;
   CoeObject 0x1a00 0x00 1 "TxPDO mapping CSP/CSV: entries" "RO" false;
   CoeObject 0x1a00 0x01 4 "TxPDO 1: Statusword" "RO" false;
   CoeObject 0x1a00 0x02 4 "TxPDO 2: Position actual value" "RO" false;
   CoeObject 0x1a00 0x03 4 "TxPDO 3: Velocity actual value" "RO" false;
   CoeObject 0x1a00 0x04 4 "TxPDO 4: Modes of operation display" "RO" false;
   CoeObject 0x1a00 0x05 4 "TxPDO 5: Gap" "RO" false;
   CoeObject 0x1c00 0x00 1 "Sync manager type: entries" "RO" false;
   CoeObject 0x1c12 0x00 1 "SM2 assignment: entries" "RO" false;
   CoeObject 0x1c12 0x01 2 "SM2 assigned RxPDO" "RO" false;
   CoeObject 0x1c13 0x00 1 "SM3 assignment: entries" "RO" false;
   CoeObject 0x1c13 0x01 2 "SM3 assigned TxPDO" "RO" false;
   CoeObject 0x3000 0x00 4 "PosKpGain" "RW" true;
   CoeObject 0x3001 0x00 4 "PosKpDivisor" "RO" true;
   CoeObject 0x3002 0x00 4 "PosKiGain" "RW" true;
   CoeObject 0x3003 0x00 4 "PosKiDivisor" "RO" true;
   CoeObject 0x3004 0x00 4 "PosKdGain" "RW" true;
   CoeObject 0x603f 0x00 2 "Error code" "RO" false;
   CoeObject 0x6040 0x00 2 "Controlword" "RW" false;
   CoeObject 0x6041 0x00 2 "Statusword" "RO" false;
   CoeObject 0x6060 0x00 1 "Modes of operation" "RW" true;
   CoeObject 0x6061 0x00 1 "Modes of operation display" "RO" true;
   CoeObject 0x6064 0x00 4 "Position actual value" "RO" true;
   CoeObject 0x606c 0x00 4 "Velocity actual value" "RO" true;
   CoeObject 0x607a 0x00 4 "Target position" "RW" true;
   CoeObject 0x60ff 0x00 4 "Target velocity" "RW" true;
   CoeObject 0x6502 0x00 4 "Supported drive modes" "RO" false].

(** Every byte that is not zero can be printed, and there is one. *)
Definition is_printable_data (data : list Z) : bool :=
  forallb (fun b => (b =? 0) || (32 <=? b) && (b <=? 126)) data && existsb (fun b => negb (b =? 0)) data.

(** The bytes before the end mark. *)
Fixpoint until_nul (data : list Z) : list Z :=
  match data with
  | b :: data => if b =? 0 then [] else b :: until_nul data
  | [] => []
  end.

Definition format_sdo_value (dst_size : nat) (def : CoeObjectDef) (data : list Z) (result : Z) : list Z :=
  let raw := of_le (take 4 data) in
  let number digits v := text_bytes "0x" ++ long_hex digits raw ++ text_bytes " (" ++ int_text v ++ text_bytes ")" in
  take (dst_size - 1)
    (if negb (result =? ECAT_OK) || (zlen data =? 0) then text_bytes "Offline / unsupported"
     else if is_printable_data data then until_nul (take 79 data)
     else if zlen data =? 1 then number 2%nat (if d_signed_value def then s8 raw else raw)
     else if zlen data =? 2 then number 4%nat raw
     else if zlen data =? 4 then number 8%nat (if d_signed_value def then s32 raw else raw)
     else hex_dump 512 data).

Record GuiCoeEntry : Type := CoeEntry {
  e_index : Z;
  e_subindex : Z;
  e_name : string;
  e_flags : string;
  e_value : list Z;
  e_online : bool;
  e_size : Z;
}.

(** [read] is ECAT_ReadSdo for the slave: index, subindex and size to its result and the bytes
    it says are there. *)
Definition coe_entry (def : CoeObjectDef) (answer : Z * list Z) : GuiCoeEntry :=
  CoeEntry (d_index def) (d_subindex def) (safe_copy 96 (d_name def)) (safe_copy 16 (d_flags def))
    (format_sdo_value 192 def answer.2 answer.1) (answer.1 =? ECAT_OK) (zlen answer.2).
Fixpoint coe_scan (show_offline : bool) (read : Z -> Z -> Z -> Z * list Z) (defs : list CoeObjectDef)
    (entries : list GuiCoeEntry) : list GuiCoeEntry :=
  match defs with
  | [] => entries
  | def :: defs =>
      if zlen entries <? GUI_MAX_COE_ENTRIES then
        let answer := read (d_index def) (d_subindex def) (d_size def) in
        if negb (answer.1 =? ECAT_OK) && negb show_offline then coe_scan show_offline read defs entries
        else coe_scan show_offline read defs (entries ++ [coe_entry def answer])
      else entries
  end.
Definition coe_thread_proc (show_offline : bool) (read : Z -> Z -> Z -> Z * list Z) : list GuiCoeEntry :=
  coe_scan show_offline read G_coe_objects [].


(** * The stop button *)

(** Threads that command nothing any more. *)
Definition ended (pc : repeat_pc) : Prop := pc = R_stop \/ pc = R_done.
Definition starting (g : gui) : Prop :=
  match window g with W_profile _ (inr _) | W_alloc _ | W_clear_stop _ | W_create _ => True | _ => False end.

(** One motion is repeated at a time. *)
Record gui_ok (g : gui) : Prop := GuiOk {
  ok_starting : starting g -> repeat_running g = true /\ Forall (fun w => ended w.2) (workers g);
  ok_worker : forall i a pc, workers g !! i = Some (a, pc) -> ~ ended pc ->
    repeat_running g = true /\ ~ starting g
    /\ forall j b pc', workers g !! j = Some (b, pc') -> j <> i -> ended pc';
}.

Lemma ended_dec pc : {ended pc} + {~ ended pc}.
Proof. unfold ended. destruct pc; first [by left; auto | by right; intros []]. Defined.

Lemma gui_init_ok : gui_ok gui_init.
Proof. by split. Qed.

(** When nothing is repeated every thread has ended. *)
Lemma idle_ended g : gui_ok g -> repeat_running g = false -> Forall (fun w => ended w.2) (workers g).
Proof.
  intros Hg Hr. apply Forall_lookup. intros i [a pc] Hi. cbn.
  destruct (ended_dec pc) as [|Hpc]; [done|]. destruct (ok_worker g Hg i a pc Hi Hpc). congruence.
Qed.

(** Steps of the window that leave the threads and the flag of the run alone. *)
Lemma gui_ok_same g g' : gui_ok g -> repeat_running g' = repeat_running g -> workers g' = workers g ->
  (starting g' -> starting g) -> gui_ok g'.
Proof.
  intros [Hs Hw] Hr Hws Hst. split; rewrite Hr, Hws; [by auto|].
  intros i a pc Hi Hpc. destruct (Hw i a pc Hi Hpc) as (? & ? & ?). split_and!; by auto.
Qed.

Lemma gui_ok_ended g : Forall (fun w => ended w.2) (workers g) -> (starting g -> repeat_running g = true) -> gui_ok g.
Proof.
  intros He Hr. split; [by auto|]. intros i a pc Hi Hpc. destruct Hpc. exact (Forall_lookup_1 _ _ _ _ He Hi).
Qed.

(** A new thread beside threads that have ended. *)
Lemma gui_ok_create g ws a : Forall (fun w => ended w.2) ws -> workers g = ws ++ [(a, R_test)] ->
  repeat_running g = true -> ~ starting g -> gui_ok g.
Proof.
  intros He Hws Hr Hst. split; [done|]. rewrite Hws. intros i b pc Hi Hpc. split_and!; [done..|].
  assert (Hin : forall j c p, (ws ++ [(a, R_test)]) !! j = Some (c, p) -> j <> length ws -> ended p).
  { intros j c p Hj Hne. rewrite lookup_app_l in Hj; [exact (Forall_lookup_1 _ _ _ _ He Hj)|].
    apply lookup_lt_Some in Hj. rewrite length_app in Hj. cbn in Hj. lia. }
  intros j c p Hj Hne. destruct (decide (i = length ws)) as [->|Hi']; [by eapply Hin|].
  destruct Hpc. by eapply Hin.
Qed.

Lemma repeat_step_ended a pc s r : ended pc -> (repeat_step a pc s r).1 = R_done /\ (repeat_step a pc s r).2 = None.
Proof. by intros [->| ->]. Qed.

(** A thread is busy until it has said that it no longer runs. *)
Lemma repeat_step_alive a pc s r : ~ ended pc -> pc <> R_running -> ~ ended (repeat_step a pc s r).1.
Proof.
  unfold ended, repeat_step. intros Hpc Hr. destruct pc; try (exfalso; by auto); cbn; repeat case_match; intros []; done.
Qed.

(** Where the threads are after a step of thread [i]. *)
Lemma worker_lookup g i r a pc j b pc' : workers g !! i = Some (a, pc) ->
  workers (worker_step i r g) !! j = Some (b, pc') ->
  (j = i /\ b = a /\ pc' = (repeat_step a pc (repeat_stop g) r).1) \/ (j <> i /\ workers g !! j = Some (b, pc')).
Proof.
  intros Hi. unfold worker_step. rewrite Hi. destruct (repeat_step a pc (repeat_stop g) r) as [pc1 c]. cbn.
  destruct (decide (j = i)) as [->|Hne].
  - rewrite list_lookup_insert_eq by by eapply lookup_lt_Some. intros [= <- <-]. by left.
  - rewrite list_lookup_insert_ne by done. by right.
Qed.

Lemma worker_fields g i r a pc : workers g !! i = Some (a, pc) ->
  window (worker_step i r g) = window g
  /\ repeat_running (worker_step i r g) = match pc with R_running => false | _ => repeat_running g end
  /\ repeat_stop (worker_step i r g) = match pc with R_stop => false | _ => repeat_stop g end
  /\ calls (worker_step i r g)
     = match (repeat_step a pc (repeat_stop g) r).2 with
       | Some c => calls g ++ [(Some i, c)]
       | None => calls g
       end.
Proof. intros Hi. unfold worker_step. rewrite Hi. by destruct (repeat_step a pc (repeat_stop g) r) as [pc1 []]. Qed.

Lemma worker_step_ok g i r a pc : gui_ok g -> workers g !! i = Some (a, pc) -> gui_ok (worker_step i r g).
Proof.
  intros Hg Hi. destruct (worker_fields g i r a pc Hi) as (Hw & Hr & _ & _).
  pose proof (worker_lookup g i r a pc) as Hl. unfold starting. split; unfold starting; rewrite Hw, Hr.
  - intros Hs. destruct (ok_starting g Hg Hs) as [Hrun He].
    assert (Hpc : ended pc) by exact (Forall_lookup_1 _ _ _ _ He Hi).
    split; [by destruct Hpc as [->| ->]|]. apply Forall_lookup. intros j [b pc'] Hj. cbn.
    destruct (Hl j b pc' Hi Hj) as [(-> & -> & ->)|[_ Hj']]; [|exact (Forall_lookup_1 _ _ _ _ He Hj')].
    right. by apply repeat_step_ended.
  - intros j b pc' Hj Hpc'. destruct (Hl j b pc' Hi Hj) as [(-> & -> & ->)|[Hne Hj']].
    + assert (Hpc : ~ ended pc) by (intros He; apply Hpc'; right; by apply repeat_step_ended).
      assert (Hnr : pc <> R_running) by (intros ->; apply Hpc'; by left).
      destruct (ok_worker g Hg i a pc Hi Hpc) as (Hrun & Hst & Ho). split_and!; [by destruct pc | done|].
      intros k c p Hk Hki. destruct (Hl k c p Hi Hk) as [(-> & _)|[_ Hk']]; [done|]. by eapply Ho.
    + destruct (ok_worker g Hg j b pc' Hj' Hpc') as (Hrun & Hst & Ho).
      assert (Hpc : ended pc) by (eapply Ho; [exact Hi | done]).
      split_and!; [by destruct Hpc as [->| ->] | done|].
      intros k c p Hk Hkj. destruct (Hl k c p Hi Hk) as [(-> & -> & ->)|[_ Hk']]; [|by eapply Ho].
      right. by apply repeat_step_ended.
Qed.

Lemma gui_step_ok g l : gui_ok g -> gui_ok (gui_step g l).
Proof.
  intros Hg. destruct l as [control form open|form open|r|i r]; cbn [gui_step].
  - destruct (window g) eqn:Hw; try done. unfold press. destruct (negb open); [done|]. by apply (gui_ok_same g).
  - destruct (window g) eqn:Hw; try done. unfold start_repeat_motion.
    destruct (negb open); [done|]. destruct (repeat_running g) eqn:Hr; [done|]. cbn [orb].
    apply gui_ok_ended; [exact (idle_ended g Hg Hr) | done].
  - unfold window_step. pose proof (ok_starting g Hg) as Hs. unfold starting in Hs.
    destruct (window g) as [|profile [[control c]|a]|c|c|a|a|a] eqn:Hw; try done;
      repeat case_match;
      try (apply (gui_ok_same g); [done..| unfold starting; cbn; rewrite ?Hw; done]);
      destruct (Hs I) as [Hrun He].
    all: first [apply gui_ok_ended; [exact He | done] | eapply gui_ok_create; [exact He | done | exact Hrun | by intros []]].
  - destruct (workers g !! i) as [[a pc]|] eqn:Hi; [|unfold worker_step; by rewrite Hi].
    by eapply worker_step_ok.
Qed.

Lemma gui_run_ok ls : forall g, gui_ok g -> gui_ok (gui_run g ls).
Proof. induction ls as [|l ls IH]; intros g Hg; [done|]. apply IH. by apply gui_step_ok. Qed.

(** ** After a stop *)

(** The calls a thread has made, the steps it has been given, and how many it needs to end and
    how many calls it can still make when the stop flag is set. *)
Definition calls_of (i : nat) (g : gui) : nat :=
  length (List.filter (fun c : option nat * library_call => bool_decide (c.1 = Some i)) (calls g)).
Definition turns (i : nat) (ls : list gui_label) : nat :=
  length (List.filter (fun l => match l with Worker j _ => Nat.eqb i j | _ => false end) ls).
Definition to_end (pc : repeat_pc) : nat :=
  match pc with
  | R_move _ | R_status _ _ => 6
  | R_wait _ _ => 5
  | R_sleep _ _ => 4
  | R_test | R_between => 3
  | R_running => 2
  | R_stop => 1
  | R_done => 0
  end.
Definition calls_left (pc : repeat_pc) : nat := match pc with R_move _ => 1 | _ => 0 end.

Lemma repeat_step_stopping a pc r : pc <> R_done ->
  (to_end (repeat_step a pc true r).1 < to_end pc)%nat.
Proof.
  intros Hpc. destruct pc; cbn; rewrite ?andb_false_r; repeat case_match; cbn; first [lia | done].
Qed.

Lemma repeat_step_calls a pc s r : (s = true \/ ended pc) ->
  (length (option_list (repeat_step a pc s r).2) + calls_left (repeat_step a pc s r).1 <= calls_left pc)%nat.
Proof.
  intros [->|[->| ->]]; [|cbn; lia..]. destruct pc; cbn; rewrite ?andb_false_r; repeat case_match; cbn; lia.
Qed.

(** Thread [i] has ended, or sees the flag that stops it until it ends. *)
Definition stopping (i : nat) (pc : repeat_pc) (g : gui) : Prop :=
  (exists a, workers g !! i = Some (a, pc)) /\ gui_ok g
  /\ (ended pc \/ (repeat_stop g = true /\ forall j b, workers g !! j <> Some (b, R_stop))).

Lemma calls_of_app i l c g : calls g = l ++ [c] ->
  calls_of i g = (length (List.filter (fun c : option nat * library_call => bool_decide (c.1 = Some i)) l)
                  + if bool_decide (c.1 = Some i) then 1 else 0)%nat.
Proof. intros Hc. unfold calls_of. rewrite Hc, List.filter_app, length_app. cbn. by case_bool_decide. Qed.

Lemma calls_of_window i g g' c : calls g' = calls g ++ [(None, c)] -> calls_of i g' = calls_of i g.
Proof. intros Hc. rewrite (calls_of_app _ _ _ _ Hc). cbn. rewrite bool_decide_false by done. unfold calls_of. lia. Qed.

(** The window adds no call of a thread and takes no thread away. *)
Lemma window_step_frame i w r g : workers g !! i = Some w ->
  workers (window_step r g) !! i = Some w /\ calls_of i (window_step r g) = calls_of i g.
Proof.
  intros Hi. unfold window_step.
  destruct (window g) as [|profile [[control c]|a]|c|c|a|a|a]; repeat case_match; try done.
  all: first [ split; [exact Hi|]; by eapply calls_of_window
             | split; [exact Hi | reflexivity] | split; [by apply lookup_app_l_Some | reflexivity] ].
Qed.

(** While thread [i] is busy nothing but a thread before [R_stop] clears the flag. *)
Lemma window_step_stop i a pc r g : gui_ok g -> workers g !! i = Some (a, pc) -> ~ ended pc ->
  repeat_stop g = true -> (forall j b, workers g !! j <> Some (b, R_stop)) ->
  repeat_stop (window_step r g) = true /\ forall j b, workers (window_step r g) !! j <> Some (b, R_stop).
Proof.
  intros Hg Hi Hpc Hs Ho. destruct (ok_worker g Hg i a pc Hi Hpc) as (_ & Hst & _). unfold starting in Hst.
  unfold window_step. destruct (window g) as [|profile [[control c]|b]|c|c|b|b|b]; repeat case_match; try done;
    by destruct Hst.
Qed.

(** A step of the thread itself. *)
Lemma stopping_own i a pc g r : workers g !! i = Some (a, pc) -> gui_ok (worker_step i r g) ->
  ended pc \/ (repeat_stop g = true /\ forall j b, workers g !! j <> Some (b, R_stop)) ->
  exists pc', stopping i pc' (worker_step i r g)
    /\ (calls_of i (worker_step i r g) + calls_left pc' <= calls_of i g + calls_left pc)%nat
    /\ (to_end pc' <= to_end pc - 1)%nat.
Proof.
  intros Hi Hg' Hs. destruct (worker_fields g i r a pc Hi) as (_ & _ & Hstop & Hcalls).
  pose proof (worker_lookup g i r a pc) as Hl. pose proof (repeat_step_calls a pc (repeat_stop g) r) as Hc.
  set (st := repeat_step a pc (repeat_stop g) r) in *. exists st.1.
  assert (Hi' : workers (worker_step i r g) !! i = Some (a, st.1)).
  { unfold worker_step. rewrite Hi. fold st. destruct st. cbn. apply list_lookup_insert_eq. by eapply lookup_lt_Some. }
  split_and!.
  - split_and!; [by eexists | done|]. destruct (ended_dec pc) as [He|He].
    { left. right. by apply repeat_step_ended. }
    destruct Hs as [|[Hs Ho]]; [done|]. destruct (ended_dec st.1) as [He'|He']; [by left|]. right. rewrite Hstop.
    split; [by destruct pc; [..|destruct He; left|]|].
    intros j b Hj. destruct (Hl j b R_stop Hi Hj) as [(_ & _ & Hpc)|[_ Hj']]; [|by apply (Ho j b)].
    apply He'. left. by rewrite <- Hpc.
  - assert (Hct : calls_of i (worker_step i r g) = (calls_of i g + length (option_list st.2))%nat).
    { destruct st as [pc' [c|]]; cbn in *; [|unfold calls_of; rewrite Hcalls; lia].
      rewrite (calls_of_app _ _ _ _ Hcalls). cbn. rewrite bool_decide_true by done. unfold calls_of. lia. }
    assert (repeat_stop g = true \/ ended pc) as Hor by (destruct Hs as [|[? _]]; auto).
    rewrite Hct. specialize (Hc Hor). lia.
  - unfold st. destruct (ended_dec pc) as [He|He].
    + rewrite (proj1 (repeat_step_ended _ _ _ _ He)). cbn. lia.
    + destruct Hs as [|[-> _]]; [done|]. pose proof (repeat_step_stopping a pc r) as Hlt.
      assert (pc <> R_done) by (intros ->; apply He; by right). specialize (Hlt H). lia.
Qed.

(** Steps of the other threads. *)
Lemma calls_of_other i j r g : i <> j -> calls_of i (worker_step j r g) = calls_of i g.
Proof.
  intros Hne. destruct (workers g !! j) as [[b pcj]|] eqn:Hj; [|unfold worker_step; by rewrite Hj].
  destruct (worker_fields g j r b pcj Hj) as (_ & _ & _ & Hcalls).
  destruct (repeat_step b pcj (repeat_stop g) r).2 as [c|]; [|unfold calls_of; by rewrite Hcalls].
  rewrite (calls_of_app _ _ _ _ Hcalls). cbn. rewrite bool_decide_false by congruence. unfold calls_of. lia.
Qed.

Lemma other_step_stop i j a pc r g : gui_ok g -> i <> j -> workers g !! i = Some (a, pc) -> ~ ended pc ->
  repeat_stop g = true -> (forall k b, workers g !! k <> Some (b, R_stop)) ->
  repeat_stop (worker_step j r g) = true /\ forall k b, workers (worker_step j r g) !! k <> Some (b, R_stop).
Proof.
  intros Hg Hne Hi He Hst Ho. destruct (ok_worker g Hg i a pc Hi He) as (_ & _ & Hothers).
  destruct (workers g !! j) as [[b pcj]|] eqn:Hj; [|unfold worker_step; by rewrite Hj].
  assert (pcj = R_done) as ->.
  { destruct (Hothers j b pcj Hj) as [->|]; [done | by destruct (Ho j b) | done]. }
  destruct (worker_fields g j r b R_done Hj) as (_ & _ & Hstop & _). split; [by rewrite Hstop|].
  intros k c Hk. destruct (worker_lookup g j r b R_done k c R_stop Hj Hk) as [(_ & _ & [=])|[_ Hk']].
  by apply (Ho k c).
Qed.

Lemma stopping_step i pc g l : stopping i pc g ->
  exists pc', stopping i pc' (gui_step g l)
    /\ (calls_of i (gui_step g l) + calls_left pc' <= calls_of i g + calls_left pc)%nat
    /\ (to_end pc' <= to_end pc - turns i [l])%nat.
Proof.
  intros ([a Hi] & Hg & Hs). pose proof (gui_step_ok g l Hg) as Hg'.
  assert (Hquiet : forall g', gui_ok g' -> workers g' !! i = Some (a, pc) -> calls_of i g' = calls_of i g ->
    (~ ended pc -> repeat_stop g = true -> (forall j b, workers g !! j <> Some (b, R_stop)) ->
     repeat_stop g' = true /\ forall j b, workers g' !! j <> Some (b, R_stop)) ->
    exists pc', stopping i pc' g' /\ (calls_of i g' + calls_left pc' <= calls_of i g + calls_left pc)%nat
      /\ (to_end pc' <= to_end pc - 0)%nat).
  { intros g' Hok Hi' Hc Hstop. exists pc. rewrite Hc. split_and!; [|lia..]. split_and!; [by eexists | done|].
    destruct (ended_dec pc) as [He|He]; [by left|]. right. destruct Hs as [|[Hs Ho]]; [done|]. by apply Hstop. }
  destruct l as [control form open|form open|r|j r]; cbn [gui_step turns List.filter length] in *.
  - destruct (window g) eqn:Hw; try by apply Hquiet. unfold press in *. destruct (negb open); by apply Hquiet.
  - destruct (window g) eqn:Hw; try by apply Hquiet. unfold start_repeat_motion in *.
    destruct (negb open || _); by apply Hquiet.
  - destruct (window_step_frame i _ r g Hi) as [Hi' Hc]. apply Hquiet; [done..|].
    intros He Hst Ho. by eapply window_step_stop.
  - destruct (Nat.eqb_spec i j) as [<-|Hne]; cbn [turns List.filter length].
    + by eapply stopping_own.
    + apply Hquiet; [done|..].
      * unfold worker_step. destruct (workers g !! j) as [[b pcj]|]; [|done].
        destruct (repeat_step b pcj (repeat_stop g) r). cbn. by rewrite list_lookup_insert_ne.
      * by apply calls_of_other.
      * intros He Hst Ho. by eapply other_step_stop.
Qed.

Lemma turns_cons i l ls : turns i (l :: ls) = (turns i [l] + turns i ls)%nat.
Proof. unfold turns. cbn. by destruct (match l with Worker j _ => _ | _ => _ end). Qed.

Lemma stopping_run i ls : forall pc g, stopping i pc g ->
  exists pc', stopping i pc' (gui_run g ls)
    /\ (calls_of i (gui_run g ls) + calls_left pc' <= calls_of i g + calls_left pc)%nat
    /\ (to_end pc' <= to_end pc - turns i ls)%nat.
Proof.
  induction ls as [|l ls IH]; intros pc g Hs; [exists pc; cbn; split_and!; [done | lia | lia]|].
  destruct (stopping_step i pc g l Hs) as (pc1 & Hs1 & Hc1 & Ht1).
  destruct (IH pc1 _ Hs1) as (pc2 & Hs2 & Hc2 & Ht2). exists pc2. rewrite turns_cons.
  split_and!; [exact Hs2 | change (gui_run g (l :: ls)) with (gui_run (gui_step g l) ls); lia | lia].
Qed.

(** C25: Whatever buttons were pressed and whatever the library answered before, once the stop
    flag is set, and no thread of an earlier run is still to clear it, a thread that repeats a
    motion makes at most one more call, and none when it is not already past its test of the
    flag; and six steps of its own bring it to its end, whatever is pressed and answered in
    the meantime, also when its target is never reached. *)
Theorem stop_ends_repeat (before after : list gui_label) (i : nat) (a : MotionRepeatArgs) (pc : repeat_pc) :
  let g := gui_run gui_init before in
  repeat_stop g = true -> (forall j b, workers g !! j <> Some (b, R_stop)) ->
  workers g !! i = Some (a, pc) ->
  let g' := gui_run g after in
  (calls_of i g' <= calls_of i g + calls_left pc)%nat
  /\ ((6 <= turns i after)%nat -> exists b, workers g' !! i = Some (b, R_done)).
Proof.
  intros g Hs Ho Hi g'.
  assert (Hst : stopping i pc g).
  { split_and!; [by eexists | apply gui_run_ok, gui_init_ok | by right]. }
  destruct (stopping_run i after pc g Hst) as (pc' & ([b Hi'] & _) & Hc & Ht). split; [unfold g'; lia|].
  intros Hturns. exists b. unfold g'. rewrite Hi'. do 2 f_equal.
  assert (to_end pc <= 6)%nat by (destruct pc; cbn; lia). destruct pc'; cbn in Ht; first [lia | done].
Qed.

(** ** Schedules *)

Definition fine : gui_answer := Answer ECAT_OK 0 true.
Definition fields : motion_form :=
  MotionForm (text_bytes "1") (text_bytes "1000") (text_bytes "-1000") (text_bytes "50") (text_bytes "0")
    (text_bytes "0") (text_bytes "35") (text_bytes "0") 1 false 1.

(** The start of a repeated motion, and a stop, up to where the window is idle again. *)
Definition start_labels : list gui_label := [PressRepeat fields true; Window fine; Window fine; Window fine; Window fine].
Definition stop_labels : list gui_label := [Press IDC_MOTION_STOP fields true; Window fine; Window fine; Window fine].

(** The thread is past its test when the button is pressed. *)
Definition overtaken_labels : list gui_label := start_labels ++ [Worker 0 fine] ++ take 3 stop_labels.

Lemma stop_ends_repeat_witness :
  let g := gui_run gui_init overtaken_labels in
  repeat_stop g = true /\ (forall j b, workers g !! j <> Some (b, R_stop))
  /\ let after := Window fine :: repeat (Worker 0 fine) 6 in
     (calls_of 0 (gui_run g after) <= 1)%nat
     /\ exists b, workers (gui_run g after) !! 0%nat = Some (b, R_done).
Proof.
  assert (Hs : repeat_stop (gui_run gui_init overtaken_labels) = true) by reflexivity.
  assert (Ho : forall j b, workers (gui_run gui_init overtaken_labels) !! j <> Some (b, R_stop)) by (intros [|j] b; done).
  split; [exact Hs|]. split; [exact Ho|].
  destruct (stop_ends_repeat overtaken_labels (Window fine :: repeat (Worker 0 fine) 6) 0 (repeat_args fields)
              (R_move false) Hs Ho eq_refl) as [Hc Hd].
  split; [exact Hc | apply Hd; cbn; lia].
Defined.

(** The call that is left may come after the stop: the servo is stopped and then moves, with
    nobody left who would stop it. *)
Theorem move_after_stop : exists ls,
  let g := gui_run gui_init ls in
  window g = W_idle /\ Forall (fun w => w.2 = R_done) (workers g)
  /\ exists l, calls g = l ++ [(None, ServoStop 1); (Some 0%nat, ServoMoveAbs 1 1000 50 0 0)].
Proof.
  exists (overtaken_labels ++ [Window fine] ++ repeat (Worker 0 fine) 6). cbn zeta. split_and!.
  - reflexivity.
  - vm_compute. by repeat constructor.
  - eexists [_; _]. vm_compute. reflexivity.
Qed.

(** A motion that is repeated and not stopped goes on. *)
Definition repeating (cs : list (option nat * library_call)) : gui :=
  let a := RepeatArgs 1 1000 (-1000) 50 0 0 0 false in
  Gui false true [(a, R_done); (a, R_test)] W_idle cs.

Lemma gui_run_app g ls ls' : gui_run g (ls ++ ls') = gui_run (gui_run g ls) ls'.
Proof. apply fold_left_app. Qed.

Lemma repeating_round cs :
  gui_run (repeating cs) (repeat (Worker 1 fine) 6)
  = repeating ((cs ++ [(Some 1%nat, ServoMoveAbs 1 1000 50 0 0)]) ++ [(Some 1%nat, ServoMoveAbs 1 (-1000) 50 0 0)]).
Proof. vm_compute. reflexivity. Qed.

Lemma repeating_goes_on n : forall cs, exists more, Forall (fun l => l = Worker 1 fine) more
  /\ (n <= calls_of 1 (gui_run (repeating cs) more))%nat /\ repeat_stop (gui_run (repeating cs) more) = false.
Proof.
  assert (Hadd : forall cs c, calls_of 1 (repeating (cs ++ [(Some 1%nat, c)])) = S (calls_of 1 (repeating cs))).
  { intros cs c. rewrite (calls_of_app 1 cs (Some 1%nat, c) (repeating (cs ++ [(Some 1%nat, c)])) eq_refl). cbn [fst].
    rewrite bool_decide_true by done. unfold calls_of. cbn [calls repeating]. lia. }
  assert (Hgrow : forall k cs, (k <= calls_of 1 (repeating cs))%nat -> exists more,
            Forall (fun l => l = Worker 1 fine) more
            /\ (n + k <= calls_of 1 (gui_run (repeating cs) more))%nat
            /\ repeat_stop (gui_run (repeating cs) more) = false).
  { induction n as [|m IH]; intros k cs Hk; [by exists []; split_and!|].
    destruct (IH (S k) ((cs ++ [(Some 1%nat, ServoMoveAbs 1 1000 50 0 0)]) ++ [(Some 1%nat, ServoMoveAbs 1 (-1000) 50 0 0)]))
      as (more & Hm & Hc & Hs).
    { rewrite !Hadd. lia. }
    exists (repeat (Worker 1 fine) 6 ++ more). rewrite gui_run_app, repeating_round. split_and!; [|lia|done].
    apply Forall_app. split; [by repeat constructor | done]. }
  intros cs. destruct (Hgrow 0%nat cs ltac:(lia)) as (more & Hm & Hc & Hs). exists more. split_and!; [done | lia | done].
Qed.

(** A thread that has ended clears the flag of its successor: the stop button is pressed and
    handled, and the motion goes on. *)
Theorem stop_is_lost : exists ls,
  let g := gui_run gui_init (ls ++ stop_labels ++ [Worker 0 fine]) in
  window g = W_idle /\ repeat_stop g = false
  /\ forall n, exists more, Forall (fun l => l = Worker 1 fine) more
       /\ (n <= calls_of 1 (gui_run g more))%nat /\ repeat_stop (gui_run g more) = false.
Proof.
  exists (start_labels ++ stop_labels ++ [Worker 0 fine; Worker 0 fine] ++ start_labels). cbn zeta.
  split; [reflexivity|]. split; [reflexivity|]. intros n.
  match goal with |- context [gui_run ?g _] => assert (exists cs, g = repeating cs) as [cs ->]
    by (eexists; vm_compute; reflexivity) end.
  apply repeating_goes_on.
Qed.

(** ** The log *)

(** A line that fits its buffer is the end of the log, and the log fits its own. *)
Lemma append_log_line_fits (time level message log : list Z) :
  zlen log < MAX_GUI_LOG ->
  zlen (time ++ text_bytes " [" ++ level ++ text_bytes "] " ++ message ++ [13; 10]) < LOG_LINE ->
  wp no_fault (append_log_line time level message)
    (fun _ log' => zlen log' < MAX_GUI_LOG
       /\ exists kept, log' = kept ++ time ++ text_bytes " [" ++ level ++ text_bytes "] " ++ message ++ [13; 10]
            /\ exists dropped, log = dropped ++ kept) log.
Proof.
  unfold append_log_line. set (text := time ++ _). clearbody text. intros Hlog Hfit. unfold MAX_GUI_LOG, LOG_LINE in *.
  pose proof (zlen_nonneg text) as Ht. apply wp_bind, wp_gets. cbn [id]. apply wp_bind.
  rewrite (take_ge text) by (unfold zlen in *; lia). change (65536 / 2) with 32768.
  apply (wp_mono no_fault _ (fun kept log' => log' = log /\ zlen kept + zlen text < 65536
    /\ exists dropped, log = dropped ++ kept)).
  - case_match eqn:Hfull.
    + apply Z.leb_le in Hfull. eapply wp_of_opt; [apply zslice_some; lia|]. split; [done|].
      rewrite take_ge by (rewrite length_drop; unfold zlen in *; lia).
      split; [unfold zlen in *; rewrite length_drop; lia|].
      exists (take (Z.to_nat (zlen log - 32768)) log). by rewrite take_drop.
    + apply Z.leb_gt in Hfull. apply wp_ret. split_and!; [done | lia | by exists []].
  - intros kept ? (-> & Hk & Hdropped). apply wp_bind. apply (wp_of_opt _ _ _ text).
    { rewrite zslice_some; [|lia|lia|unfold zlen; rewrite length_app; cbn [length]; lia].
      change (Z.to_nat 0) with 0%nat. rewrite drop_0. f_equal. unfold zlen. rewrite Nat2Z.id. by rewrite take_app_length. }
    apply wp_modify. split; [unfold zlen in *; rewrite length_app; lia | by exists kept].
Qed.

(** The answer to the read of an object of 256 bytes does not fit: what is behind the buffer
    of the line is copied into the log. *)
Lemma sdo_answer_overruns_line :
  append_log_line (text_bytes "12:00:00.000") (text_bytes "INFO") (sdo_text 1 0x1018 0 ECAT_OK (replicate 256 0)) []
  = Err OutOfBounds.
Proof. vm_compute. reflexivity. Qed.

(** ** The lists *)

Lemma find_slot (get_info : Z -> option slave_snapshot) (get_pdo : Z -> list Z * list Z) (k : Z) (n : nat) :
  (forall i s, get_info i = Some s -> sn_index s = i) -> forall first,
  (List.find (fun x => match x with Some s => sn_index (g_info s) =? k | None => false end)
     (map (fun i => s ← get_info i; Some (GuiSlave s (get_pdo i).1 (get_pdo i).2)) (seqZ first (Z.of_nat n)))
   ≫= fun x => x)
  = if (first <=? k) && (k <? first + Z.of_nat n)
    then s ← get_info k; Some (GuiSlave s (get_pdo k).1 (get_pdo k).2) else None.
Proof.
  intros Hinfo. induction n as [|n IH]; intros first.
  { destruct (Z.leb_spec first k), (Z.ltb_spec k (first + Z.of_nat 0)); first [lia | done]. }
  rewrite seqZ_cons by lia. replace (Z.pred (Z.of_nat (S n))) with (Z.of_nat n) by lia. cbn [map List.find].
  specialize (IH (Z.succ first)). destruct (Z.eq_dec first k) as [->|Hne].
  - rewrite Z.leb_refl, (proj2 (Z.ltb_lt k (k + Z.of_nat (S n)))) by lia. cbn [andb].
    destruct (get_info k) as [s|] eqn:Hs; cbn.
    + rewrite (Hinfo k s Hs), Z.eqb_refl. done.
    + rewrite IH. by replace (Z.succ k <=? k) with false by lia.
  - replace (first <=? k) with (Z.succ first <=? k) by lia.
    replace (k <? first + Z.of_nat (S n)) with (k <? Z.succ first + Z.of_nat n) by lia.
    rewrite <- IH. destruct (get_info first) as [s|] eqn:Hs; cbn; [|done].
    rewrite (Hinfo first s Hs). by replace (first =? k) with false by lia.
Qed.

(** A slave the window shows is found by its number, up to the sixty-fourth. *)
Theorem collected_slave_is_found (is_open : bool) (slave_count : Z) (get_info : Z -> option slave_snapshot)
    (get_pdo : Z -> list Z * list Z) (k : Z) :
  (forall i s, get_info i = Some s -> sn_index s = i) ->
  snapshot_find_slave (collect_gui_snapshot is_open slave_count get_info get_pdo) k
  = if (1 <=? k) && (k <=? Z.min slave_count GUI_MAX_SLAVES)
    then s ← get_info k; Some (GuiSlave s (get_pdo k).1 (get_pdo k).2) else None.
Proof.
  intros Hinfo. unfold snapshot_find_slave, collect_gui_snapshot. cbn [g_slave_count g_slaves].
  set (count := Z.min slave_count GUI_MAX_SLAVES). rewrite take_ge by (by rewrite length_map, length_seqZ).
  replace (seqZ 1 count) with (seqZ 1 (Z.of_nat (Z.to_nat count))) by (unfold seqZ; by rewrite Nat2Z.id).
  destruct (Z.leb_spec k 0).
  { by replace (1 <=? k) with false by lia. }
  rewrite find_slot by done. by replace (k <? 1 + Z.of_nat (Z.to_nat count)) with (k <=? count) by lia.
Qed.

(** The list of objects: every object of the table that answers, or every object, in the order
    of the table; the room for entries is never used up. *)
Theorem coe_list_complete (show_offline : bool) (read : Z -> Z -> Z -> Z * list Z) :
  let answer def := read (d_index def) (d_subindex def) (d_size def) in
  coe_thread_proc show_offline read
  = map (fun def => coe_entry def (answer def))
      (List.filter (fun def => ((answer def).1 =? ECAT_OK) || show_offline) G_coe_objects).
Proof.
  intros answer. unfold coe_thread_proc.
  assert (Hscan : forall defs entries, zlen entries + zlen defs <= GUI_MAX_COE_ENTRIES ->
    coe_scan show_offline read defs entries
    = entries ++ map (fun def => coe_entry def (answer def))
        (List.filter (fun def => ((answer def).1 =? ECAT_OK) || show_offline) defs)).
  { induction defs as [|def defs IH]; intros entries Hroom; cbn [coe_scan List.filter map]; [by rewrite app_nil_r|].
    unfold zlen in *. cbn [length] in Hroom. replace (Z.of_nat (length entries) <? GUI_MAX_COE_ENTRIES) with true by lia.
    change (read (d_index def) (d_subindex def) (d_size def)) with (answer def).
    destruct ((answer def).1 =? ECAT_OK), show_offline; cbn [negb andb orb map];
      rewrite IH by (rewrite ?length_app; cbn [length]; lia); rewrite <- ?app_assoc; done. }
  rewrite Hscan; [by rewrite app_nil_l | vm_compute; discriminate].
Qed.

(** ** The motion tab *)

Section Layout.
Context (w p v : list Z) (m : Z) (Hw : length w = 2%nat) (Hp : length p = 4%nat) (Hv : length v = 4%nat).

Lemma pdo_fields (data := w ++ p ++ v ++ [m; 0; 0; 0]) :
  field_at 2 0 gui_read_u16_le data = of_le w /\ field_at 6 2 gui_read_i32_le data = s32 (of_le p)
  /\ field_at 10 6 gui_read_i32_le data = s32 (of_le v)
  /\ field_at 11 10 (fun data => s8 (of_le (take 1 data))) data = s8 (of_le [m]).
Proof.
  subst data. destruct w as [|? [|? [|]]]; try discriminate Hw. destruct p as [|? [|? [|? [|? [|]]]]]; try discriminate Hp.
  destruct v as [|? [|? [|? [|? [|]]]]]; try discriminate Hv. done.
Qed.

Lemma pdo_copied :
  pdo_copy (clamp_copy LTS_PDO_BYTES) ECAT_MAX_PDO_COPY
    (copy_pdo (clamp_copy LTS_PDO_BYTES) (w ++ p ++ v ++ m :: replicate (Z.to_nat ECAT_NET_MAX_PDO_COPY - 11) 0))
  = Some (LTS_PDO_BYTES, w ++ p ++ v ++ [m; 0; 0; 0]).
Proof.
  destruct w as [|? [|? [|]]]; try discriminate Hw. destruct p as [|? [|? [|? [|? [|]]]]]; try discriminate Hp.
  destruct v as [|? [|? [|? [|? [|]]]]]; try discriminate Hv. vm_compute. reflexivity.
Qed.
End Layout.

(** What the motion tab shows of a drive behind the backend server is what the real-time
    thread wrote to it and read from it in the round it reports. *)
Theorem motion_tab_shows_drive (find : Z -> Z -> Z -> option (string * string)) (output : Cia402PdoOutput) (input : rt_input)
    (slave : ECAT_NetSlaveStatus) :
  0 <= controlword output < 2 ^ 16 -> 0 <= in_statusword input < 2 ^ 16 ->
  - 2 ^ 31 <= o_target_position output < 2 ^ 31 -> - 2 ^ 31 <= o_target_velocity output < 2 ^ 31 ->
  - 2 ^ 31 <= in_actual_position input < 2 ^ 31 -> - 2 ^ 31 <= in_actual_velocity input < 2 ^ 31 ->
  - 2 ^ 7 <= in_mode_display input < 2 ^ 7 -> ss_index slave = 1 ->
  let s := Client.snapshot_of find (build_pdo_copies output input slave) in
  exists outputs inputs,
    pdo_copy (sn_output_size s) ECAT_MAX_PDO_COPY (sn_outputs s) = Some (LTS_PDO_BYTES, outputs)
    /\ pdo_copy (sn_input_size s) ECAT_MAX_PDO_COPY (sn_inputs s) = Some (LTS_PDO_BYTES, inputs)
    /\ format_motion_status (collect_gui_snapshot true 1 (fun i => if i =? 1 then Some s else None) (fun _ => (outputs, inputs))) 1
       = Some (MotionValues (in_statusword input) (controlword output) (in_mode_display input)
                 (in_actual_position input) (in_actual_velocity input)
                 (o_target_position output) (o_target_velocity output)).
Proof.
  intros Hcw Hsw Htp Htv Hap Hav Hm Hi s.
  exists (le_bytes 2 (controlword output) ++ le_bytes 4 (o_target_position output)
            ++ le_bytes 4 (o_target_velocity output) ++ [u8 (o_mode output); 0; 0; 0]),
    (le_bytes 2 (in_statusword input) ++ le_bytes 4 (in_actual_position input)
       ++ le_bytes 4 (in_actual_velocity input) ++ [u8 (in_mode_display input); 0; 0; 0]).
  split; [exact (pdo_copied _ _ _ _ (length_le_bytes _ _) (length_le_bytes _ _) (length_le_bytes _ _))|].
  split; [exact (pdo_copied _ _ _ _ (length_le_bytes _ _) (length_le_bytes _ _) (length_le_bytes _ _))|].
  unfold format_motion_status. rewrite collected_slave_is_found.
  2: { intros i s' Hs. destruct (Z.eqb_spec i 1) as [->|]; [by injection Hs as <- | done]. }
  cbn [g_is_open negb collect_gui_snapshot andb Z.leb Z.min Z.compare Pos.compare Pos.compare_cont Z.eqb Pos.eqb
       mbind option_bind fst snd g_outputs g_inputs].
  change (1 <=? 1 `min` GUI_MAX_SLAVES) with true. cbn [mbind option_bind g_outputs g_inputs].
  destruct (pdo_fields _ _ _ (u8 (o_mode output)) (length_le_bytes 2 (controlword output))
              (length_le_bytes 4 (o_target_position output)) (length_le_bytes 4 (o_target_velocity output)))
    as (-> & -> & -> & _).
  destruct (pdo_fields _ _ _ (u8 (in_mode_display input)) (length_le_bytes 2 (in_statusword input))
              (length_le_bytes 4 (in_actual_position input)) (length_le_bytes 4 (in_actual_velocity input)))
    as (-> & -> & -> & ->).
  change [u8 (in_mode_display input)] with (le_bytes 1 (in_mode_display input)).
  rewrite !of_le_le_bytes, !s32_mod, s8_mod, !Z.mod_small by done. done.
Qed.
